(* ===== verification/_CoqProject ===== *)
-Q . S2P
Prelude.v
Machine.v
Mem.v
Concurrency.v
Mutexes.v
Threads.v
ThreadLocals.v
RegistryThreadLocals.v
Tuples.v
NativeArrays.v
Printers.v
TypeTransforms.v
Message.v
Assertions.v
ThrowAssertions.v
Interception.v
DeathTests.v
TftpList.v
ListTest.v
TftpServer.v
BlockSoft.v
BinaryTree.v
EpollEcho.v
EpollMain.v
FtpMain.v
LibeventEcho.v
LibeventMain.v
EventTime.v
AsioEcho.v
LinkedPtr.v
FloatingPoint.v
ParamGenerator.v
CartesianProduct.v
ParamValues.v
ParamRegister.v
ParamTest.v
TypeLists.v
TypedTests.v
TestResults.v
TypedTestPrograms.v
Characters.v
TestFactories.v
Matchers.v
ContainerMatchers.v
MatcherTypes.v
ArithmeticTypes.v
StringMatchers.v
ValueMatchers.v
Rounding.v
FloatMatchers.v
GeneratedMatchers.v
Actions.v
GeneratedActions.v
SpecBuilders.v
DefaultValues.v
FunctionMockers.v
ExpectationHandles.v
Sequences.v
MockLifetimes.v
StrictMocks.v
