(* ===== verification/Prelude.v ===== *)
(** * Verification of the practise repository

    The repository (src/) is a collection of small C and C++ servers and data
    structures, with the headers of a bundled unit-test library (Google Test and
    Google Mock) that the list's test uses. This library models the programs as
    functions in Rocq, written after the code statement by statement, and proves
    what they do: what they get right, and where they leave the intended
    behaviour or the language's rules.

    ** How code is modelled

    Stateful code is a command, [cmd S A] of this file: a function from a state to
    an outcome and a state. An outcome is a value ([Done]), a call of exit
    ([Exited]), an abort, an exception ([Thrown]), one of the undefined behaviours of C and C++
    listed in [ub], or [Unfinished], when the fuel of a loop ran out. Reading outside an array,
    using NULL or freed storage, signed overflow and the front of an empty queue are
    outcomes of the model, so a theorem that ends in [Done] also says that none of
    them happens. Machine.v has the integer types at their width with their
    wrap-around, the byte order of the network functions, and arrays; Mem.v has
    malloc and free over a heap of typed cells, with the allocator's choice of an
    address as the class [Malloc].

    Where the threads of a program matter, code is a [code S A] of Concurrency.v, which
    stops at every access to the shared state, so that the accesses of several threads
    come in any order: a step relation over a pool of threads. Memory that is only accessed
    under a mutex is sequentially consistent; the members that AssertHeld of a mutex reads
    without it are locations that keep their history, and such a read may give an old value.

    What lies outside the repository is an interface: a class or a record whose
    fields are the calls the code makes and whose laws, where a theorem needs them,
    are the documented behaviour ([Malloc], [Os], [Redis], [GoRuntime], [Net],
    [Sockets], [Host], [Libevent], [LibeventIO], [EventBase],
    [gtest_library], [gmock_library], [unordered_library],
    [mocker_library], [printers_library], [RE_library], [CaseInsensitiveCStrings],
    [FloatStream], [DescriptionFormat], [Pthreads], [PthreadCreate], [ThreadSpecific],
    [MockLaws], [SequenceLaws], [Exceptions], [FatalFailureHelpers] with [HelperLaws],
    [FailureInterception] with [InterceptionLaws], [DeathTests] with [DeathTestLaws] and [CoreDumps],
    [SharedFromThis] with [SharedFromThisLaws],
    [ThreadLocalRegistry] with [RegistryLaws], [TypeIds], [VerifyNames] with [VerifyLaws],
    [MessageText] with [MessageTextLaws], [ProgramTypes] with [ProgramTypesLaws],
    [ResultChecks] and [CaseCounts] with their laws). Each theorem that uses such laws has a witness
    with a concrete instance. What C++ finds for a type, its default constructor, its
    conversions, its assignment and its printer, are classes as well ([Default],
    [Convert], [Assign], [Equality] of Tuples.v, [UniversalPrinter] of Printers.v,
    [Operator] of Assertions.v, [MatcherCast] of MatcherTypes.v, [Stored] of Actions.v).

    ** Files

    - TftpList.v: src/tftp/list.c, list.h, session.h. Nodes and sessions are cells of
      the heap; [is_list] says that a pointer leads along a list to NULL, and
      [owns_list] that the heap is the disjoint union of a frame and of exactly its nodes
      and sessions.
      [session_list_refines] is the contract of the three operations: any sequence of
      them behaves as on a plain sequence, leaks nothing and leaves the frame
      alone. The others give the exact effect and the
      memory of a removal, the length with its overflow, and two misuses.
    - ListTest.v: src/tftp/list_test.cc, the list's tests, which pass: the assertions of
      Assertions.v over the operations of TftpList.v, through [ProgramRun], the view a
      test has of the program it runs.
    - TftpServer.v: src/tftp/tftp_server.c. make_data, handle_RRQ, handle_ACK,
      handle_new_connection, handle_req and main over the record [server] (heap,
      streams, the global FILE pointer, sent datagrams) and, for main, [world] (epoll,
      datagrams to come). Serving a small file and a whole transfer by
      acknowledgements are the functional theorems; the rest are the limits of
      the code: its buffer sizes, its block counter and its epoll loop.
    - BlockSoft.v: src/go/custom/block_soft.go. Go slices are windows of arrays on a
      heap, which append may write through; the categories all of whose software is
      hidden are found, and the map is filtered on the way.
    - BinaryTree.v: src/algorithm/binary-tree/normal/binary-tree.cpp. A reference to a
      pointer is a [slot]; [push_data] refines insertion into an ordered tree, with a
      recursion no deeper than the tree, and pushing and printing sorts.
    - EpollEcho.v: src/echo/epoll/echo_server.cpp. [serve] is the event loop over the
      session map, the read buffer and two ghost logs; the invariant is that the bytes
      read from a connection are those written to it followed by its queue. Four
      theorems describe what errors and drained queues do.
    - EpollMain.v: main of the same file up to its loop, over the socket calls of
      [Sockets], and the whole program; errors of the set-up do not stop it.
    - LibeventEcho.v: src/echo/libevent2/echo_server.cpp and echo_client.cpp. A client
      and a server joined by two wires are a step relation, for a client that sends any
      message (the code's own is 1024 zeros, which are in order however they come); the
      message goes round without loss or reordering, and it comes back after a bounded
      number of moves.
    - LibeventMain.v: the main functions of the two programs, with what a dispatch loop
      calls back as a list of happenings.
    - EventTime.v: evutil_timeradd and its relatives of libevent's event2/util.h, on times in
      memory that may be the same: arithmetic on microseconds without overflow. They are the
      definitions for a system without these macros, which the bundled event-config.h does
      not select.
    - AsioEcho.v: src/echo/boost-asio/echo_server.cpp, echo.h. Pending operations and
      their completions are a run of the io_service. What owns a session and where
      shared_from_this looks for the owner is the interface [SharedFromThis]: the two are of
      different libraries, so the first client ends the server.
    - FtpMain.v: src/ftp/main.c, which reads and overwrites one buffer in a sprintf; what
      the undefined call leaves is a parameter, and the theorem says what is sent whatever
      it leaves.
    - Concurrency.v, Mutexes.v, Threads.v, ThreadLocals.v: the pthread classes of
      gtest-port.h. Mutexes.v has MutexBase, Mutex and GTestMutexLock: with any number of
      threads the owner a mutex records is the thread that holds it, and what AssertHeld
      promises depends on whether its reads may be stale. Threads.v has
      Notification and ThreadWithParam: every thread waits until it is told to go, and
      the program ends. ThreadLocals.v has scoped_ptr and ThreadLocal: a program on
      thread-local values refines one with a map from threads to values, and nothing is
      left on the heap. RegistryThreadLocals.v has the ThreadLocal of Windows, over the
      registry [ThreadLocalRegistry], which promises to delete the values of a variable that
      goes only when a single thread uses it.
    - LinkedPtr.v: src/gtest/include/gtest/internal/gtest-linked_ptr.h. Circles of
      pointers over addresses refine counted sharing: an object is deleted when its
      last pointer leaves.
    - FloatingPoint.v: class FloatingPoint of gtest-internal.h on the bits of a number,
      for both formats; almost-equality counts the numbers in between.
    - ParamGenerator.v, CartesianProduct.v: the generators of gtest-param-util.h and
      gtest-param-util-generated.h. [Yields] is the interface between a generator and
      its users: the list of its values and that iterators walk through it; ranges,
      arrays and products are its implementations.
    - Tuples.v: gtest-tuple.h. A tuple type is its list of field types; equality and
      the conversions go field by field.
    - Printers.v: gtest-printers.h. How a value is turned into text is found by its type
      ([UniversalPrinter] and the classes beside it); containers, arrays and tuples print
      their members in order, the long ones in part.
    - Message.v: gtest-message.h. Messages own their streams on the heap and behave as
      texts, whatever is streamed to them and in whatever order they go.
    - TypeTransforms.v: types as data, with the templates of gtest-internal.h that take
      references and const from them and tell containers and convertible types apart: which
      types they identify, and which printer of Printers.v a type gets.
    - Assertions.v: AssertionResult, comparison helpers, predicate assertions and the
      statements EXPECT_* and ASSERT_* of gtest.h, gtest_pred_impl.h and gtest-internal.h.
      A statement is a command that goes on or returns; what the test is told of is
      given by [TestRun] and its laws, and the library's bodies that the repository does
      not have by [gtest_library]. Assertions are executed in order up to the first
      fatal failure.
    - ThrowAssertions.v: the assertions on exceptions and on fatal failures of
      gtest-internal.h and gtest.h. Statements may throw; whatever is nested in them is
      reported as a reading of the test code without any state says.
    - Interception.v: the macros EXPECT_FATAL_FAILURE and EXPECT_NONFATAL_FAILURE of
      gtest-spi.h, nested in any way, for the current thread and for all threads: which
      reporter intercepts the failures of a statement, how they are judged, and where what
      they find wrong is reported.
    - DeathTests.v: gtest-death-test.h and gtest-death-test-internal.h. A death test has two
      processes, the one that watches and the one that dies; its verdict is that of the
      statement's end and its text. Whether an abort dumps core is [CoreDumps].
    - NativeArrays.v: ArrayEq, ArrayAwareFind, CopyArray and NativeArray of
      gtest-internal.h and the views of gmock-internal-utils.h: arrays on a heap, views
      that refer to them and copies of them, which are freed with the last view.
    - ParamValues.v: Values of gtest-param-test.h, with the fifty generated ValueArray
      classes of gtest-param-util-generated.h, and Combine: their generators implement
      [Yields].
    - ParamRegister.v: registration of parameterized tests of gtest-param-util.h, proved
      against [Yields]: which tests are made, with which names, and when it aborts.
    - ParamTest.v: the macros TEST_P and INSTANTIATE_TEST_CASE_P of gtest-param-test.h
      as the program of registrations they expand to, run by ParamRegister.
    - TestFactories.v: TEST and TEST_F of gtest.h, the factories of gtest-internal.h and
      gtest-param-util.h, and the parameter of WithParamInterface: which parameter a test
      sees, in any order of the tests.
    - TypedTestPrograms.v: whole programs of the macros of gtest-typed-test.h: what the
      compiler makes of them, and the tests that running it registers.
    - TestResults.v: TestResult, TestInfo and TestCase of gtest.h: when a test and a test
      case have passed.
    - Characters.v: the functions on characters of gtest-port.h.
    - TypeLists.v, TypedTests.v: the type lists of gtest-type-util.h, and typed and
      type-parameterized tests (gtest-typed-test.h, gtest-internal.h) that walk them.
    - Matchers.v: src/gtest/include/gmock/gmock-matchers.h. [Lawful] is what a matcher
      promises: its answer does not depend on the listener, its explanation is
      appended. Every combinator keeps it, and its answer and explanation are given
      exactly.
    - ContainerMatchers.v: the matchers of whole containers in the same header:
      ContainerEq, WhenSorted, Pointwise and UnorderedElementsAre with its match matrix.
    - MatcherTypes.v: the polymorphic matchers a user writes (Eq(x), Not(m), AllOf(...),
      ElementsAre(...)) and their conversion to the matchers of the two files before, the
      class [MatcherCast]; what they accept, as predicates.
    - ArithmeticTypes.v: the kinds of types and the lossless conversions of
      gmock-internal-utils.h, by which SafeMatcherCast accepts exactly the conversions that
      keep every number.
    - Rounding.v: subtraction of floating-point numbers as it rounds, for FloatMatchers.v.
    - StringMatchers.v, ValueMatchers.v, FloatMatchers.v: the matchers of the same header
      for strings and regular expressions, for what pointers, fields, getters, callables
      and casts lead to, with EXPECT_THAT, and for floating-point numbers, with the
      floating-point assertions of gtest.h on top of FloatingPoint.v.
    - GeneratedMatchers.v: gmock-generated-matchers.h: Args, AllOf and AnyOf of two to ten
      matchers, which agree with the variadic ones, ElementsAre, and the MATCHER macros.
    - Actions.v, GeneratedActions.v: gmock-actions.h, gmock-generated-actions.h and
      gmock-more-actions.h: actions as commands over an environment with a heap of
      objects, the generated families for zero to ten arguments, DoAll in order.
    - SpecBuilders.v: gmock-spec-builders.h, gmock-cardinalities.h and the default values
      and actions of gmock-actions.h: the clauses of ON_CALL and EXPECT_CALL, which
      expectation handles a call and which action it gets, on the interface [Lawful]
      offers and the documented behaviour of the bodies the headers only declare.
    - DefaultValues.v: DefaultValue and BuiltInDefaultValue of gmock-actions.h for all the
      types of a program, with their producers on the heap: it refines the default values of
      SpecBuilders.v, also when a factory function changes them.
    - FunctionMockers.v: gmock-generated-function-mockers.h. A mocked method is the
      tuple of its arguments handed to SpecBuilders; ON_CALL and EXPECT_CALL register
      in the order their clauses run.
    - ExpectationHandles.v: Expectation and ExpectationSet of gmock-spec-builders.h and
      the clauses After and InSequence of several arguments.
    - Sequences.v: expectations that come after one another. Which calls are accepted is
      said by a machine over the call counts, the prerequisites being given by their
      documented behaviour.
    - MockLifetimes.v: the destruction of mock functions of the same header, which gives
      the lock of the library back while the objects of their actions go.
    - StrictMocks.v: gmock-generated-nice-strict.h. NiceMock, NaggyMock and StrictMock
      register what becomes of their uninteresting calls, each object its own.

    ** Fuel

    Loops that are not structural take fuel. [walk_fuel] (TftpList), [tree_fuel]
    (BinaryTree) and [ring_fuel] (LinkedPtr) are computed from the state, the number of
    its live cells (one more for the tree); the theorems show that a well-formed
    state never uses it up. copy_loop of TftpServer takes the length of the
    packet, which it cannot exceed without leaving the buffer. The event loops of
    EpollEcho take any fuel above what the network can still deliver. The generators
    of ParamGenerator and CartesianProduct take any fuel that is at least the number of
    values. The action that copies elements (GeneratedActions) takes the distance of its
    two iterators, the comparison of strings up to case the number of characters and
    one more, the removal of hidden software (BlockSoft) the length of the slice and one
    more, and the loop over the indices of Args one more than their ten. The destruction of
    mock functions takes more than the number of those alive, each of which goes once.
    The factory functions of DefaultValues.v may ask for default values in turn, and need
    not end: the fuel is the depth of their calls, and any is enough for functions that
    do not ask.
    The threads of the pthread classes take no fuel: their loops stop at every access and
    the step relations follow them. [serve] runs
    for a list of turns and [ftp_main] for a number of them; main of TftpServer runs
    until its world has no more events. A result [Unfinished] is claimed only where the
    code does not end (read_error_spins).

    ** Not modelled

    The text printed to the terminal except where it is the program's output (it is
    recorded as constructors); threads elsewhere than in the pthread classes and the
    destruction of mock functions (one thread runs, and mutexes are taken as held); weak
    memory beyond the stale reads of AssertHeld; libevent's and Boost.Asio's own loops, and
    all of libevent's headers but the time
    macros, since they only declare functions; the Go and Python scripts that only try
    out library calls; of the test library, the rest of its portability layer (other
    systems, streams, flags), and the bodies that are in source files the repository does
    not have: the text of characters, strings and pointers, regular expressions, the
    comparison of C strings up to case, sequences, verification of expectations, the test
    runner with its listeners and environments (parameters of the models that call them,
    or left out).

    ** Plan

    What the repository's own programs do is modelled. Left of the test library are
    overloads that only forward (ElementsAreArray of arrays and containers), the wide
    characters and strings, and the wrappers of system calls in its portability layer. *)

From Stdlib Require Export ssreflect.
From stdpp Require Export prelude numbers list gmap strings.
From stdpp Require Import options.

#[global] Open Scope general_if_scope.
#[global] Open Scope Z_scope.

(** * Outcomes and commands *)

(** Why a C or C++ execution has no defined meaning any more. *)
Inductive ub : Set :=
  | NullDeref          (* load or store through NULL *)
  | Dangling           (* load or store through a pointer to freed storage *)
  | BadFree            (* free of a pointer that is not a live block *)
  | OutOfBounds        (* access outside an array object *)
  | Indeterminate      (* use of an uninitialised object *)
  | SignedOverflow     (* signed arithmetic outside its type's range *)
  | EmptyFront         (* front() or pop() of an empty std::queue *)
  | Overlap.           (* restrict-qualified arguments overlap *)

#[export] Instance ub_eq_dec : EqDecision ub.
Proof. solve_decision. Defined.

(** The result of running a command: it completes with a value, it calls
    [exit], it aborts ([abort] or a failed [assert]), it throws an exception of C++, it is
    undefined, or the fuel given to a loop of the model ran out. The exceptions of a
    program are known by numbers. *)
Inductive outcome (A : Type) : Type :=
  | Done (a : A)
  | Exited (code : Z)
  | Aborted
  | Thrown (exception : nat)
  | Undefined (why : ub)
  | Unfinished.
Arguments Done {A} _.
Arguments Exited {A} _.
Arguments Aborted {A}.
Arguments Thrown {A} _.
Arguments Undefined {A} _.
Arguments Unfinished {A}.

#[export] Instance outcome_eq_dec `{EqDecision A} : EqDecision (outcome A).
Proof. solve_decision. Defined.

(** A command over a state [S]: what C code does is a function of the state. *)
Definition cmd (S A : Type) : Type := S → outcome A * S.

#[export] Instance cmd_ret S : MRet (cmd S) := λ A a s, (Done a, s).

#[export] Instance cmd_bind S : MBind (cmd S) := λ A B k m s,
  match m s with
  | (Done a, s') => k a s'
  | (Exited c, s') => (Exited c, s')
  | (Aborted, s') => (Aborted, s')
  | (Thrown e, s') => (Thrown e, s')
  | (Undefined w, s') => (Undefined w, s')
  | (Unfinished, s') => (Unfinished, s')
  end.

Section primitives.
Context {S : Type}.

Definition get : cmd S S := λ s, (Done s, s).
Definition gets {A} (f : S → A) : cmd S A := λ s, (Done (f s), s).
Definition modify (f : S → S) : cmd S unit := λ s, (Done (), f s).
Definition exit {A} (code : Z) : cmd S A := λ s, (Exited code, s).
Definition abort {A} : cmd S A := λ s, (Aborted, s).
Definition throw {A} (exception : nat) : cmd S A := λ s, (Thrown exception, s).
Definition undefined {A} (w : ub) : cmd S A := λ s, (Undefined w, s).
Definition unfinished {A} : cmd S A := λ s, (Unfinished, s).
Definition when (b : bool) (m : cmd S unit) : cmd S unit :=
  if b then m else mret ().
(** [assert(b)] of <assert.h>, with NDEBUG not defined. *)
Definition assert_ (b : bool) : cmd S unit := if b then mret () else abort.
(** A command on a part of the state. *)
Definition zoom {T A} (view : S → T) (put : T → S → S) (m : cmd T A) : cmd S A := λ s,
  let '(r, t) := m (view s) in (r, put t s).
(** The value of an optional result, or the given undefined behaviour. *)
Definition or_ub {A} (w : ub) (o : option A) : cmd S A :=
  match o with Some a => mret a | None => undefined w end.
End primitives.

(** What every step keeps, a run keeps. *)
Lemma rtc_keeps {A} (R : relation A) (P : A → Prop) x y :
  (∀ a b, P a → R a b → P b) → rtc R x y → P x → P y.
Proof. intros Hstep. induction 1; eauto. Qed.

(** [m] run from [s] completes, and its result and final state satisfy [Q]. *)
Definition ensures {S A} (m : cmd S A) (s : S) (Q : A → S → Prop) : Prop :=
  ∃ a s', m s = (Done a, s') ∧ Q a s'.

Section ensures.
Context {S : Type}.
Implicit Types s : S.

Lemma ensures_ret {A} (a : A) s (Q : A → S → Prop) :
  Q a s → ensures (mret a) s Q.
Proof. by exists a, s. Qed.

Lemma ensures_bind {A B} (m : cmd S A) (k : A → cmd S B) s Q :
  ensures m s (λ a s', ensures (k a) s' Q) → ensures (m ≫= k) s Q.
Proof.
  intros (a & s' & Hm & b & s'' & Hk & HQ). exists b, s''.
  by rewrite /mbind /cmd_bind Hm.
Qed.

Lemma ensures_mono {A} (m : cmd S A) s (P Q : A → S → Prop) :
  ensures m s P → (∀ a s', P a s' → Q a s') → ensures m s Q.
Proof. intros (a & s' & Hm & HP) HPQ. exists a, s'; eauto. Qed.

Lemma ensures_det {A} (m : cmd S A) s a s' Q :
  m s = (Done a, s') → ensures m s Q → Q a s'.
Proof. intros Hm (b & s'' & Hm' & HQ). congruence. Qed.

Lemma ensures_run {A} (m : cmd S A) s a s' :
  ensures m s (λ b t, b = a ∧ t = s') ↔ m s = (Done a, s').
Proof.
  split; [intros (b & t & Hm & -> & ->); done | intros Hm; by exists a, s'].
Qed.

Lemma bind_done {A B} (m : cmd S A) (k : A → cmd S B) s a s' :
  m s = (Done a, s') → (m ≫= k) s = k a s'.
Proof. intros Hm. by rewrite /mbind /cmd_bind Hm. Qed.

Lemma zoom_done {T A} (view : S → T) put (m : cmd T A) s a t :
  m (view s) = (Done a, t) → zoom view put m s = (Done a, put t s).
Proof. unfold zoom. by intros ->. Qed.

Lemma zoom_bind {T A B} (view : S → T) put (m : cmd T A) (k : A → cmd T B) s :
  (∀ t s, view (put t s) = t) → (∀ t t' s, put t (put t' s) = put t s) →
  zoom view put (m ≫= k) s = (zoom view put m ≫= λ a, zoom view put (k a)) s.
Proof.
  intros Hview Hput. rewrite /zoom /mbind /cmd_bind. destruct (m (view s)) as [[a| | | | |] t]; try done.
  rewrite Hview. destruct (k a t) as [r t']. by rewrite Hput.
Qed.

Lemma bind_exited {A B} (m : cmd S A) (k : A → cmd S B) s c s' :
  m s = (Exited c, s') → (m ≫= k) s = (Exited c, s').
Proof. intros Hm. by rewrite /mbind /cmd_bind Hm. Qed.

Lemma bind_undefined {A B} (m : cmd S A) (k : A → cmd S B) s w s' :
  m s = (Undefined w, s') → (m ≫= k) s = (Undefined w, s').
Proof. intros Hm. by rewrite /mbind /cmd_bind Hm. Qed.

Lemma bind_assoc {A B C} (m : cmd S A) (k : A → cmd S B) (l : B → cmd S C) s :
  ((m ≫= k) ≫= l) s = (m ≫= λ a, k a ≫= l) s.
Proof. rewrite /mbind /cmd_bind. by destruct (m s) as [[]]. Qed.

Lemma bind_ret_l {A B} (a : A) (k : A → cmd S B) s : (mret a ≫= k) s = k a s.
Proof. done. Qed.

Lemma bind_ret_r {A} (m : cmd S A) s : (m ≫= mret) s = m s.
Proof. rewrite /mbind /cmd_bind. by destruct (m s) as [[]]. Qed.
End ensures.

(** * Lists *)

Lemma sublist_Forall {A} (P : A → Prop) (l k : list A) :
  l `sublist_of` k → Forall P k → Forall P l.
Proof. rewrite !Forall_forall. eauto using elem_of_sublist. Qed.

Lemma filter_none {A} (P : A → Prop) `{!∀ x, Decision (P x)} (l : list A) :
  (∀ x, x ∈ l → ¬ P x) → filter P l = [].
Proof.
  induction l as [|x l IH]; intros Hl; [done|].
  rewrite filter_cons_False; [|by apply IH; intros y Hy; apply Hl, list_elem_of_further].
  apply Hl, list_elem_of_here.
Qed.

Lemma filter_all {A} (P : A → Prop) `{!∀ x, Decision (P x)} (l : list A) :
  (∀ x, x ∈ l → P x) → filter P l = l.
Proof.
  induction l as [|x l IH]; intros Hl; [done|].
  rewrite filter_cons_True; [by apply Hl, list_elem_of_here|].
  f_equal. apply IH. intros y Hy. by apply Hl, list_elem_of_further.
Qed.

(** Rows of the same length [m], one after the other. *)
Lemma rows_length {A B} (f : A → list B) (m : nat) (l : list A) :
  (∀ x, length (f x) = m) → length (l ≫= f) = (length l * m)%nat.
Proof.
  intros Hf. induction l as [|x l IH]; [done|]. rewrite bind_cons length_app IH Hf. simpl. lia.
Qed.

Lemma rows_lookup {A B} (f : A → list B) (m : nat) (l : list A) i j x :
  (∀ x, length (f x) = m) → l !! i = Some x → (j < m)%nat →
  (l ≫= f) !! (i * m + j)%nat = f x !! j.
Proof.
  intros Hf Hi Hj. revert i Hi. induction l as [|y l IH]; intros i Hi; [done|].
  rewrite bind_cons. destruct i as [|i].
  - injection Hi as ->. by rewrite lookup_app_l; [rewrite Hf|].
  - rewrite lookup_app_r Hf; [simpl; lia|]. rewrite -(IH i Hi). f_equal. simpl. lia.
Qed.

(** * Casts *)

(** static_cast<T>(v) for a v of type S. *)
Class StaticCast (S T : Type) : Type := static_cast : S → T.
#[global] Hint Mode StaticCast + + : typeclass_instances.

(** * Tuples *)

(** ::testing::tuple<T1, ..., Tn>. *)
Fixpoint tuple (Ts : list Type) : Type :=
  match Ts with [] => unit | T :: Ts => T * tuple Ts end.

(** T1 → ... → Tn → R. *)
Fixpoint curried (Ts : list Type) (R : Type) : Type :=
  match Ts with [] => R | T :: Ts => T → curried Ts R end.

Fixpoint curry_tuple {R : Type} (Ts : list Type) : (tuple Ts → R) → curried Ts R :=
  match Ts with
  | [] => λ f, f ()
  | T :: Ts => λ f v, curry_tuple Ts (λ vs, f (v, vs))
  end.

Fixpoint uncurry_tuple {R : Type} (Ts : list Type) : curried Ts R → tuple Ts → R :=
  match Ts with
  | [] => λ r _, r
  | T :: Ts => λ f vs, uncurry_tuple Ts (f (fst vs)) (snd vs)
  end.

(** * Strings *)

Lemma string_app_nil_r (o : string) : o +:+ EmptyString = o.
Proof.
  induction o as [|c o IH]; [done|].
  change (String c (o +:+ EmptyString) = String c o). by rewrite IH.
Qed.

Lemma string_app_assoc (o p q : string) : o +:+ (p +:+ q) = (o +:+ p) +:+ q.
Proof.
  induction o as [|c o IH]; [done|].
  change (String c (o +:+ (p +:+ q)) = String c ((o +:+ p) +:+ q)). by rewrite IH.
Qed.

Lemma string_length_app (a b : string) :
  String.length (a +:+ b) = (String.length a + String.length b)%nat.
Proof.
  induction a as [|c a IH]; [done|].
  change (S (String.length (a +:+ b)) = (S (String.length a) + String.length b)%nat). by rewrite IH.
Qed.

(** * Tactics and hints *)

(** Runs the next primitive of the command in the goal. *)
Ltac run_step :=
  first
    [ erewrite bind_done by (first [eassumption | reflexivity])
    | erewrite bind_undefined by (first [eassumption | reflexivity]) ];
  cbn beta.

(** Closes a closed decidable goal by evaluating its decision. *)
Ltac vm_decide := apply (bool_decide_unpack _); vm_compute; exact I.

Create HintDb cmds.
#[export] Hint Resolve ensures_ret : cmds.
#[export] Hint Rewrite @bind_ret_l : cmds.
