(* ===== verification/Machine.v ===== *)
(** C integers and array objects: 16-bit values and the byte order of the
    little-endian host (the libraries of the repository are built for
    x86_64), and [char] arrays as lists of bytes with bounds-checked reads and
    writes. *)

From S2P Require Import Prelude.

(** * Integers *)

Definition INT_MIN : Z := -2147483648.
Definition INT_MAX : Z := 2147483647.

(** The value of an [int] expression, when it is representable. *)
Definition int_ok (z : Z) : bool := bool_decide (INT_MIN ≤ z ≤ INT_MAX).

(** Conversion to [unsigned short], to [short], and to a 64-bit [size_t]. *)
Definition u16 (z : Z) : Z := z `mod` 65536.
Definition s16 (z : Z) : Z := (z + 32768) `mod` 65536 - 32768.
Definition size_t (z : Z) : Z := z `mod` 18446744073709551616.

Definition bswap16 (z : Z) : Z :=
  Z.lor (Z.shiftl (Z.land z 255) 8) (Z.land (Z.shiftr z 8) 255).

Definition htons (z : Z) : Z := bswap16 (u16 z).
Definition ntohs (z : Z) : Z := bswap16 (u16 z).

Definition byte_ok (b : Z) : Prop := 0 ≤ b < 256.

#[export] Instance byte_ok_dec b : Decision (byte_ok b).
Proof. unfold byte_ok. apply _. Defined.

(** A 16-bit object in memory, least significant byte first. *)
Definition bytes16 (z : Z) : list Z := [u16 z `mod` 256; u16 z `div` 256].
Definition load16 (b0 b1 : Z) : Z := b0 + 256 * b1.

Lemma u16_range z : 0 ≤ u16 z < 65536.
Proof. by apply Z.mod_pos_bound. Qed.

Lemma u16_small z : 0 ≤ z < 65536 → u16 z = z.
Proof. apply Z.mod_small. Qed.

Lemma size_t_small z : 0 ≤ z < 18446744073709551616 → size_t z = z.
Proof. apply Z.mod_small. Qed.

Lemma s16_range z : -32768 ≤ s16 z < 32768.
Proof. unfold s16. pose proof (Z.mod_pos_bound (z + 32768) 65536). lia. Qed.

Lemma s16_small z : -32768 ≤ z < 32768 → s16 z = z.
Proof. intros. unfold s16. rewrite Z.mod_small; lia. Qed.

Lemma s16_high z : 32768 ≤ z < 65536 → s16 z = z - 65536.
Proof.
  intros. unfold s16. rewrite (Z.mod_eq _ 65536) //.
  assert ((z + 32768) `div` 65536 = 1) as ->; [|lia].
  symmetry. apply (Z.div_unique _ _ _ (z + 32768 - 65536)); lia.
Qed.

Lemma u16_s16 z : u16 (s16 z) = u16 z.
Proof.
  unfold u16, s16. rewrite Zminus_mod_idemp_l. f_equal. lia.
Qed.

Lemma s16_u16 z : s16 (u16 z) = s16 z.
Proof. unfold u16, s16. by rewrite Zplus_mod_idemp_l. Qed.

Lemma u16_succ_s16 z : u16 (s16 (s16 z + 1)) = u16 (z + 1).
Proof.
  rewrite u16_s16. unfold u16, s16.
  replace ((z + 32768) `mod` 65536 - 32768 + 1) with ((z + 32768) `mod` 65536 + -32767) by lia.
  rewrite Zplus_mod_idemp_l. f_equal. lia.
Qed.

Lemma land_255 z : Z.land z 255 = z `mod` 256.
Proof. by rewrite (Z.land_ones z 8). Qed.

(** Bits below [n] and bits from [n] up do not meet. *)
Lemma lor_shiftl_add a b n :
  0 ≤ n → 0 ≤ b < 2 ^ n → Z.lor (Z.shiftl a n) b = a * 2 ^ n + b.
Proof.
  intros Hn Hb. assert (Z.land (Z.shiftl a n) b = 0) as Hd.
  { apply Z.bits_inj'. intros i Hi. rewrite Z.land_spec Z.bits_0.
    destruct (decide (i < n)) as [Hlt|Hge].
    - rewrite Z.shiftl_spec_low //.
    - destruct (decide (b = 0)) as [->|Hb0]; [by rewrite Z.bits_0 andb_false_r|].
      rewrite (Z.bits_above_log2 b) ?andb_false_r //; [lia|].
      assert (Z.log2 b < n) by (apply Z.log2_lt_pow2; lia). lia. }
  rewrite -Z.lxor_lor // -Z.add_nocarry_lxor // Z.shiftl_mul_pow2 //.
Qed.

Lemma bswap16_div z :
  0 ≤ z < 65536 → bswap16 z = (z `mod` 256) * 256 + z `div` 256.
Proof.
  intros Hz. pose proof (Z.mod_pos_bound z 256 ltac:(lia)).
  unfold bswap16. rewrite !land_255 Z.shiftr_div_pow2 //.
  change (2 ^ 8) with 256. rewrite (Z.mod_small (z `div` 256)).
  { split; [apply Z.div_pos|apply Z.div_lt_upper_bound]; lia. }
  rewrite lor_shiftl_add //.
  split; [apply Z.div_pos|apply Z.div_lt_upper_bound]; lia.
Qed.

Lemma bytes_of_mul256 a b : byte_ok a → byte_ok b → bytes16 (a * 256 + b) = [b; a].
Proof.
  unfold byte_ok. intros Ha Hb. unfold bytes16. rewrite u16_small; [lia|].
  rewrite Z.add_comm Z.mod_add // Z.div_add // Z.mod_small // Z.div_small //.
Qed.

Lemma high_byte_ok z : 0 ≤ z < 65536 → byte_ok (z `div` 256).
Proof.
  unfold byte_ok. split; [apply Z.div_pos|apply Z.div_lt_upper_bound]; lia.
Qed.

Lemma low_byte_ok z : byte_ok (z `mod` 256).
Proof. by apply Z.mod_pos_bound. Qed.

(** [htons] stores its argument most significant byte first. *)
Lemma bytes16_htons z : bytes16 (htons z) = [u16 z `div` 256; u16 z `mod` 256].
Proof.
  pose proof (u16_range z). unfold htons. rewrite bswap16_div //.
  apply bytes_of_mul256; [apply low_byte_ok|by apply high_byte_ok].
Qed.

(** [ntohs] of two bytes read from memory takes the first as the high one. *)
Lemma ntohs_load16 hi lo :
  byte_ok hi → byte_ok lo → ntohs (load16 hi lo) = hi * 256 + lo.
Proof.
  unfold byte_ok. intros Hhi Hlo. unfold ntohs, load16.
  rewrite u16_small; [lia|]. rewrite bswap16_div; [lia|].
  replace (hi + 256 * lo) with (hi + lo * 256) by lia.
  rewrite Z.mod_add // Z.div_add // Z.mod_small // Z.div_small //.
Qed.

Lemma ntohs_range z : 0 ≤ ntohs z < 65536.
Proof.
  unfold ntohs. pose proof (u16_range z). rewrite bswap16_div //.
  pose proof (high_byte_ok (u16 z) ltac:(done)).
  pose proof (low_byte_ok (u16 z)). unfold byte_ok in *. lia.
Qed.

(** * Array objects *)

(** [b[i]], undefined outside the array. *)
Definition rd {A} (b : list A) (i : Z) : option A :=
  if bool_decide (0 ≤ i) then b !! Z.to_nat i else None.

(** [b[i] = v]. *)
Definition wr {A} (b : list A) (i : Z) (v : A) : option (list A) :=
  if bool_decide (0 ≤ i < Z.of_nat (length b)) then Some (<[Z.to_nat i := v]> b) else None.

(** [n] elements of [b] from index [i]: the source of a memcpy. *)
Definition rd_range {A} (b : list A) (i n : Z) : option (list A) :=
  if bool_decide (0 ≤ i ∧ 0 ≤ n ∧ i + n ≤ Z.of_nat (length b))
  then Some (take (Z.to_nat n) (drop (Z.to_nat i) b)) else None.

(** memcpy of the elements [d] to [b + i]. *)
Definition wr_range {A} (b : list A) (i : Z) (d : list A) : option (list A) :=
  if bool_decide (0 ≤ i ∧ i + Z.of_nat (length d) ≤ Z.of_nat (length b))
  then Some (take (Z.to_nat i) b ++ d ++ drop (Z.to_nat i + length d) b) else None.

Definition zeros (n : nat) : list Z := replicate n 0.

Section arrays.
Context {A : Type}.
Implicit Types (b d : list A) (i n : Z).

Lemma rd_Some b i a : rd b i = Some a ↔ 0 ≤ i ∧ b !! Z.to_nat i = Some a.
Proof. unfold rd. case_bool_decide; naive_solver. Qed.

Lemma rd_None b i : rd b i = None ↔ i < 0 ∨ Z.of_nat (length b) ≤ i.
Proof.
  unfold rd. case_bool_decide; [|naive_solver lia].
  rewrite lookup_ge_None. lia.
Qed.

Lemma rd_nat b k : rd b (Z.of_nat k) = b !! k.
Proof. unfold rd. rewrite bool_decide_eq_true_2; [lia|]. by rewrite Nat2Z.id. Qed.

Lemma wr_length b i v b' : wr b i v = Some b' → length b' = length b.
Proof. unfold wr. case_bool_decide; [|done]. intros [= <-]. apply length_insert. Qed.

Lemma wr_nat b k v : (k < length b)%nat → wr b (Z.of_nat k) v = Some (<[k := v]> b).
Proof.
  intros Hk. unfold wr. rewrite bool_decide_eq_true_2; [lia|]. by rewrite Nat2Z.id.
Qed.

Lemma wr_range_length b i d b' : wr_range b i d = Some b' → length b' = length b.
Proof.
  unfold wr_range. case_bool_decide as Hb; [|done]. intros [= <-].
  rewrite !length_app length_take length_drop. lia.
Qed.

Lemma wr_range_None b i d :
  0 ≤ i → wr_range b i d = None ↔ Z.of_nat (length b) < i + Z.of_nat (length d).
Proof. intros Hi. unfold wr_range. case_bool_decide; naive_solver lia. Qed.

(** A write just past a prefix extends the prefix. *)
Lemma wr_range_app p b d :
  (length d ≤ length b)%nat →
  wr_range (p ++ b) (Z.of_nat (length p)) d = Some (p ++ d ++ drop (length d) b).
Proof.
  intros Hd. unfold wr_range. rewrite bool_decide_eq_true_2.
  { rewrite length_app. lia. }
  rewrite Nat2Z.id take_app_length drop_app_add. done.
Qed.
End arrays.

#[export] Hint Resolve s16_range u16_range ntohs_range low_byte_ok : cmds.
