(* ===== verification/Mem.v ===== *)
(** The C heap: malloc, free, loads and stores over cells of any type. The
    addresses malloc picks are the allocator's choice, an interface given by
    the class [Malloc]: all a program may rely on is that a block is new. *)

From S2P Require Import Prelude.

(** Addresses, and pointers with [NULL]. *)
Abbreviation loc := positive (only parsing).
Abbreviation ptr := (option positive) (only parsing).
Abbreviation NULL := (@None positive) (only parsing).

(** The allocator: what the [n]-th malloc returns when [live] are the addresses
    in use, [None] when there is no memory. *)
Class Malloc : Type := {
  malloc_pick : nat → gset loc → ptr;
  malloc_pick_new n live l : malloc_pick n live = Some l → l ∉ live;
}.

(** An allocator that never fails, and one that fails from the [k]-th call on. *)
#[export] Instance bump_malloc : Malloc :=
  {| malloc_pick _ live := Some (fresh live);
     malloc_pick_new _ live l H :=
       eq_ind (fresh live) (λ l, l ∉ live) (is_fresh live) l (Some_inj _ _ H) |}.

Definition limited_pick (k n : nat) (live : gset loc) : ptr :=
  if bool_decide (n < k)%nat then Some (fresh live) else None.

Lemma limited_pick_new k n live l : limited_pick k n live = Some l → l ∉ live.
Proof.
  unfold limited_pick. case_bool_decide; [|done]. intros [= <-]. apply is_fresh.
Qed.

Definition limited_malloc (k : nat) : Malloc :=
  {| malloc_pick := limited_pick k; malloc_pick_new := limited_pick_new k |}.

(** The cells in use, by address, and how many times malloc was called. *)
Record mem (V : Type) := Mem { cells : gmap loc V; calls : nat }.
Arguments Mem {V} _ _.
Arguments cells {V} _.
Arguments calls {V} _.

Definition empty_mem {V} : mem V := Mem ∅ 0.

Section operations.
Context {MA : Malloc} {V : Type}.

(** malloc of a block that holds [v] until it is written. *)
Definition malloc (v : V) : cmd (mem V) ptr := λ h,
  match malloc_pick (calls h) (dom (cells h)) with
  | Some l => (Done (Some l), Mem (<[l := v]> (cells h)) (S (calls h)))
  | None => (Done NULL, Mem (cells h) (S (calls h)))
  end.

Definition load (p : ptr) : cmd (mem V) V := λ h,
  match p with
  | None => (Undefined NullDeref, h)
  | Some l => match cells h !! l with
              | Some v => (Done v, h)
              | None => (Undefined Dangling, h)
              end
  end.

Definition store (p : ptr) (v : V) : cmd (mem V) unit := λ h,
  match p with
  | None => (Undefined NullDeref, h)
  | Some l => match cells h !! l with
              | Some _ => (Done (), Mem (<[l := v]> (cells h)) (calls h))
              | None => (Undefined Dangling, h)
              end
  end.

(** free(NULL) does nothing; freeing what is not a live block is undefined. *)
Definition free (p : ptr) : cmd (mem V) unit := λ h,
  match p with
  | None => (Done (), h)
  | Some l => match cells h !! l with
              | Some _ => (Done (), Mem (delete l (cells h)) (calls h))
              | None => (Undefined BadFree, h)
              end
  end.
End operations.

Section laws.
Context {MA : Malloc} {V : Type}.
Implicit Types (h : mem V) (l : loc) (v : V).

Lemma malloc_cases v h :
  (∃ l, cells h !! l = None ∧ malloc_pick (calls h) (dom (cells h)) = Some l ∧
        malloc v h = (Done (Some l), Mem (<[l := v]> (cells h)) (S (calls h))))
  ∨ malloc_pick (calls h) (dom (cells h)) = None ∧
    malloc v h = (Done NULL, Mem (cells h) (S (calls h))).
Proof.
  unfold malloc. destruct (malloc_pick _ _) as [l|] eqn:Hp; [left|by right].
  exists l. split_and!; [|done..].
  by apply not_elem_of_dom, (malloc_pick_new _ _ _ Hp).
Qed.

(** Memory never runs out. *)
Definition malloc_total : Prop := ∀ n live, is_Some (malloc_pick n live).

Lemma malloc_new v h :
  malloc_total →
  ∃ l, cells h !! l = None ∧
       malloc v h = (Done (Some l), Mem (<[l := v]> (cells h)) (S (calls h))).
Proof.
  intros Ht. destruct (malloc_cases v h) as [(l & ? & _ & ?)|[Hp _]]; [eauto|].
  destruct (Ht (calls h) (dom (cells h))). congruence.
Qed.

Lemma load_live h l v : cells h !! l = Some v → load (Some l) h = (Done v, h).
Proof. unfold load. by intros ->. Qed.

Lemma store_live h l v v' :
  cells h !! l = Some v →
  store (Some l) v' h = (Done (), Mem (<[l := v']> (cells h)) (calls h)).
Proof. unfold store. by intros ->. Qed.

Lemma free_live h l v :
  cells h !! l = Some v →
  free (Some l) h = (Done (), Mem (delete l (cells h)) (calls h)).
Proof. unfold free. by intros ->. Qed.

Lemma free_dead h l : cells h !! l = None → free (Some l) h = (Undefined BadFree, h).
Proof. unfold free. by intros ->. Qed.
End laws.

Lemma bump_malloc_total : malloc_total (MA:=bump_malloc).
Proof. intros n live. by eexists. Qed.

(** Runs a load, store or free whose block is known to be live. *)
Ltac mem_step :=
  first
    [ erewrite bind_done by (apply load_live; simplify_map_eq; eauto)
    | erewrite bind_done by (eapply store_live; simplify_map_eq; eauto)
    | erewrite bind_done by (eapply free_live; simplify_map_eq; eauto)
    | rewrite bind_ret_l ];
  cbn [cells calls] in *.

Create HintDb mem.
#[export] Hint Resolve load_live store_live free_live free_dead : mem.
