(* ===== verification/Concurrency.v ===== *)
(** Code that several threads run at once, for the classes of
    src/gtest/include/gtest/internal/gtest-port.h that use POSIX threads.

    The code of a thread is a tree of its accesses to the memory it shares with others,
    in program order; between two of them the other threads may run. Memory that is only
    accessed under a mutex is sequentially consistent; a member that some threads read
    without the mutex under which others write it is a [location], with the values it has
    had, of which such a read may give an old one. The calls of pthreads are the class [Pthreads]; what the code
    relies on of them is [PthreadLaws]. *)

From S2P Require Import Prelude.
#[local] Open Scope Z_scope.

(** * Code of a thread *)

Section code.
Context {S : Type}.

(** [Access m k] does [m] in one step and goes on with its result; it waits as long as
    [m] gives no result. [Until body k] is [for (;;) { if (body) break; }] before [k]. *)
Inductive code (A : Type) : Type :=
  | Finished (a : A)
  | Access {X : Type} (m : S → option (outcome X * S)) (k : X → code A)
  | Until (body : code bool) (k : code A).
Arguments Finished {A} _.
Arguments Access {A X} _ _.
Arguments Until {A} _ _.

Fixpoint code_bind {A B} (c : code A) (k : A → code B) : code B :=
  match c with
  | Finished a => k a
  | Access m f => Access m (λ x, code_bind (f x) k)
  | Until body c => Until body (code_bind c k)
  end.

#[export] Instance code_ret : MRet code := λ A a, Finished a.
#[export] Instance code_mbind : MBind code := λ A B k c, code_bind c k.

(** One step: a finished thread has none, and a waiting one has none for now. *)
Definition code_step {A} (c : code A) (s : S) : option (outcome (code A) * S) :=
  match c with
  | Finished _ => None
  | Access m k =>
      match m s with
      | Some (r, s') =>
          Some (match r with
                | Done x => Done (k x)
                | Exited z => Exited z
                | Aborted => Aborted
                | Undefined w => Undefined w
                | Thrown e => Thrown e
                | Unfinished => Unfinished
                end, s')
      | None => None
      end
  | Until body k => Some (Done (code_bind body (λ b, if b : bool then k else Until body k)), s)
  end.

(** A command done in one step. *)
Definition atomically {X} (m : cmd S X) : code X := Access (λ s, Some (m s)) Finished.
Definition read {X} (f : S → X) : code X := atomically (gets f).
Definition write (f : S → S) : code unit := atomically (modify f).
Definition crash {X} : code X := atomically abort.
End code.
Arguments code _ _ : clear implicits.
Arguments Finished {S A} _.
Arguments Access {S A X} _ _.
Arguments Until {S A} _ _.

(** Code on a part of the state. *)
Fixpoint zoom_code {S T A} (view : S → T) (put : T → S → S) (c : code T A) : code S A :=
  match c with
  | Finished a => Finished a
  | Access m k => Access (λ s, '(r, t) ← m (view s); Some (r, put t s)) (λ x, zoom_code view put (k x))
  | Until body k => Until (zoom_code view put body) (zoom_code view put k)
  end.

(** GTEST_CHECK_, which aborts the program when the condition is false, and
    GTEST_CHECK_POSIX_SUCCESS_, when the call did not return 0. *)
Definition GTEST_CHECK_ {S} (condition : bool) : code S unit := if condition then mret () else crash.
Definition GTEST_CHECK_POSIX_SUCCESS_ {S} (gtest_error : Z) : code S unit :=
  if bool_decide (gtest_error = 0) then mret () else crash.

(** * Mutexes of pthreads *)

(** A thread is its pthread_self(). *)
Definition pthread_t : Set := Z.
Definition pthread_equal (t u : pthread_t) : bool := bool_decide (t = u).

(** The calls on a mutex give a result and the mutex afterwards; the call that locks waits
    while there is none. [holder] is the thread that has a mutex locked. *)
Class Pthreads : Type := {
  pthread_mutex_t : Type;
  holder : pthread_mutex_t → option pthread_t;
  PTHREAD_MUTEX_INITIALIZER : pthread_mutex_t;
  pthread_mutex_init : Z * pthread_mutex_t;
  pthread_mutex_lock : pthread_t → pthread_mutex_t → option (Z * pthread_mutex_t);
  pthread_mutex_unlock : pthread_t → pthread_mutex_t → Z * pthread_mutex_t;
  pthread_mutex_destroy : pthread_mutex_t → Z * pthread_mutex_t;
}.

(** A new mutex is not locked; a mutex that is not locked can be locked, by one thread,
    and others wait until that thread unlocks it; a mutex that is not locked can be
    destroyed. Nothing is assumed of a thread that locks
    a mutex twice, or unlocks one it does not hold. *)
Class PthreadLaws `{Pthreads} : Prop := {
  initializer_free : holder PTHREAD_MUTEX_INITIALIZER = None;
  init_free : fst pthread_mutex_init = 0 ∧ holder (snd pthread_mutex_init) = None;
  lock_free t m : holder m = None → ∃ m', pthread_mutex_lock t m = Some (0, m') ∧ holder m' = Some t;
  lock_waits t u m : holder m = Some u → t ≠ u → pthread_mutex_lock t m = None;
  unlock_held t m : holder m = Some t → ∃ m', pthread_mutex_unlock t m = (0, m') ∧ holder m' = None;
  destroy_free m : holder m = None → fst (pthread_mutex_destroy m) = 0 ∧ holder (snd (pthread_mutex_destroy m)) = None;
}.

Lemma lock_some `{PthreadLaws} t m r m' :
  pthread_mutex_lock t m = Some (r, m') → holder m ≠ Some t → holder m = None ∧ r = 0 ∧ holder m' = Some t.
Proof.
  intros Hl Hn. destruct (holder m) as [u|] eqn:Hm.
  - rewrite (lock_waits t u) // in Hl. congruence.
  - destruct (lock_free t m Hm) as (m'' & He & Hh). rewrite Hl in He. by simplify_eq.
Qed.

(** A mutex that is just its holder. *)
#[local] Instance simple_pthreads : Pthreads := {
  pthread_mutex_t := option pthread_t;
  holder m := m;
  PTHREAD_MUTEX_INITIALIZER := None;
  pthread_mutex_init := (0, None);
  pthread_mutex_lock t m := match m with None => Some (0, Some t) | Some _ => None end;
  pthread_mutex_unlock t m := (if bool_decide (m = Some t) then 0 else 1, if bool_decide (m = Some t) then None else m);
  pthread_mutex_destroy m := (if m then 16 else 0, m);
}.

#[local] Instance simple_pthread_laws : PthreadLaws.
Proof.
  split; cbn; try done.
  - intros t m ->. by exists (Some t).
  - by intros t u m ->.
  - intros t m ->. rewrite bool_decide_true //. by exists None.
  - by intros m ->.
Qed.

(** * Members that are read without the mutex *)

(** A location: its first value and those written to it since, and, as numbers of writes, what
    each thread and the mutex of the location have seen of them. *)
Record location (A : Type) : Type := Location {
  initially : A;
  written : list A;
  seen : pthread_t → nat;
  published : nat;
}.
Arguments Location {A} _ _ _ _.
Arguments initially {A} _.
Arguments written {A} _.
Arguments seen {A} _ _.
Arguments published {A} _.

Section locations.
Context {A : Type}.
Implicit Types (l : location A) (t u : pthread_t) (h : option pthread_t).

Definition new_location (a : A) : location A := Location a [] (λ _, 0%nat) 0.

Definition latest l : nat := length (written l).
Definition value_at (k : nat) l : A := nth k (initially l :: written l) (initially l).
Definition current l : A := value_at (latest l) l.

Definition see t (k : nat) l : location A :=
  Location (initially l) (written l) (λ u, if decide (u = t) then (seen l t `max` k)%nat else seen l u) (published l).

(** A read gives the value that is [age] writes old, unless the thread has seen a newer one; once
    it has read a value, it reads no older one. *)
Definition read_location t (age : nat) l : A * location A :=
  let k := (seen l t `max` (latest l - age))%nat in (value_at k l, see t k l).

(** A thread sees what it writes. *)
Definition write_location t (a : A) l : location A :=
  see t (S (latest l)) (Location (initially l) (written l ++ [a]) (seen l) (published l)).

(** Locking the mutex makes visible what was when it was unlocked. *)
Definition acquire t l : location A := see t (published l) l.
Definition publish t l : location A :=
  Location (initially l) (written l) (seen l) (published l `max` seen l t)%nat.

(** The thread that has the mutex, or the mutex when no one has it, has seen everything. *)
Definition synchronised h l : Prop :=
  (∀ t, (seen l t ≤ latest l)%nat) ∧ (published l ≤ latest l)%nat ∧
  match h with Some t => seen l t = latest l | None => published l = latest l end.

Lemma synchronised_new a : synchronised None (new_location a).
Proof. by split_and!; cbn. Qed.

Lemma synchronised_see h t k l : (k ≤ latest l)%nat → synchronised h l → synchronised h (see t k l).
Proof.
  unfold latest. intros Hk (Hs & Hp & Hh). unfold latest in *. split_and!; cbn; [|done|].
  - intros u. specialize (Hs u). case_decide; [|done]. subst. lia.
  - destruct h as [u|]; [|done]. cbn in Hh. case_decide; [|done]. subst. unfold latest in *. cbn. lia.
Qed.

Lemma synchronised_read h t age l : synchronised h l → synchronised h (snd (read_location t age l)).
Proof. intros Hl. apply synchronised_see; [|done]. pose proof (proj1 Hl t). lia. Qed.

Lemma synchronised_write t a l : synchronised (Some t) l → synchronised (Some t) (write_location t a l).
Proof.
  intros (Hs & Hp & Hh). unfold latest in *. split_and!; cbn; rewrite ?length_app /= /latest; [|lia|].
  - intros u. specialize (Hs u). case_decide; subst; lia.
  - rewrite decide_True //. lia.
Qed.

Lemma synchronised_acquire t l : synchronised None l → synchronised (Some t) (acquire t l).
Proof.
  intros (Hs & Hp & Hh). unfold latest in *. split_and!; cbn; [|done|].
  - intros u. specialize (Hs u). case_decide; [subst; lia|done].
  - rewrite decide_True //. specialize (Hs t). lia.
Qed.

Lemma synchronised_publish t l : synchronised (Some t) l → synchronised None (publish t l).
Proof. intros (Hs & Hp & Hh). unfold latest in *. split_and!; cbn; [done|lia|lia]. Qed.

Lemma current_see t k l : current (see t k l) = current l.
Proof. done. Qed.

Lemma current_write t a l : current (write_location t a l) = a.
Proof.
  unfold current, value_at, latest, write_location. cbn [see initially written].
  rewrite length_app Nat.add_comm. exact (nth_middle (initially l :: written l) [] a (initially l)).
Qed.

(** The thread that has the mutex reads the current value, and so does one that reads no old
    values. *)
Lemma read_holder t age l : synchronised (Some t) l → fst (read_location t age l) = current l.
Proof.
  intros (_ & _ & Hh). cbn in Hh. unfold read_location, current. cbn [fst]. rewrite Hh. f_equal. lia.
Qed.
Lemma read_latest h t l : synchronised h l → fst (read_location t 0 l) = current l.
Proof.
  intros (Hs & _ & _). unfold read_location, current. cbn [fst]. specialize (Hs t). f_equal. lia.
Qed.

(** Any read gives a value the location has had. *)
Lemma read_had h t age l :
  synchronised h l → fst (read_location t age l) = initially l ∨ fst (read_location t age l) ∈ written l.
Proof.
  intros (Hs & _ & _). specialize (Hs t). unfold read_location, value_at. cbn [fst].
  set (k := (_ `max` _)%nat). assert (k ≤ latest l)%nat as Hk by lia.
  destruct k as [|k]; [by left|right]. cbn. apply list_elem_of_In, nth_In. unfold latest in Hk. lia.
Qed.
End locations.
#[global] Arguments current : simpl never.
#[global] Arguments value_at : simpl never.
#[global] Arguments read_location : simpl never.
