(* ===== verification/Mutexes.v ===== *)
(** The mutexes of the test library on pthreads, MutexBase, Mutex and GTestMutexLock
    (src/gtest/include/gtest/internal/gtest-port.h), with the threads that call them
    interleaved at every access to a member. AssertHeld reads has_owner_ and owner_
    without the mutex, so they are locations of Concurrency.v: such a read may give an
    old value. *)

From S2P Require Import Prelude Concurrency.
#[local] Open Scope Z_scope.

Section mutex.
Context `{Pthreads}.

Record MutexBase : Type := MkMutexBase {
  mutex_ : pthread_mutex_t;
  has_owner_ : location bool;
  owner_ : location pthread_t;
}.

Definition set_mutex (m : pthread_mutex_t) (mu : MutexBase) : MutexBase := MkMutexBase m (has_owner_ mu) (owner_ mu).
Definition set_has_owner (b : location bool) (mu : MutexBase) : MutexBase := MkMutexBase (mutex_ mu) b (owner_ mu).
Definition set_owner (t : location pthread_t) (mu : MutexBase) : MutexBase := MkMutexBase (mutex_ mu) (has_owner_ mu) t.

(** What thread [t] assigns to the two members, and what it sees of them when it has locked the
    mutex; what it leaves to the next thread when it unlocks it. *)
Definition assign_has_owner (t : pthread_t) (b : bool) (mu : MutexBase) : MutexBase :=
  set_has_owner (write_location t b (has_owner_ mu)) mu.
Definition assign_owner (t : pthread_t) (u : pthread_t) (mu : MutexBase) : MutexBase :=
  set_owner (write_location t u (owner_ mu)) mu.
Definition acquire_members (t : pthread_t) (mu : MutexBase) : MutexBase :=
  MkMutexBase (mutex_ mu) (acquire t (has_owner_ mu)) (acquire t (owner_ mu)).
Definition publish_members (t : pthread_t) (mu : MutexBase) : MutexBase :=
  MkMutexBase (mutex_ mu) (publish t (has_owner_ mu)) (publish t (owner_ mu)).

(** GTEST_DEFINE_STATIC_MUTEX_; [zero] is pthread_t(). *)
Definition GTEST_DEFINE_STATIC_MUTEX_ (zero : pthread_t) : MutexBase :=
  MkMutexBase PTHREAD_MUTEX_INITIALIZER (new_location false) (new_location zero).

(** Mutex::Mutex: what owner_ holds before is not set. *)
Definition new_Mutex (indeterminate : pthread_t) : option MutexBase :=
  if bool_decide (fst pthread_mutex_init = 0)
  then Some (MkMutexBase (snd pthread_mutex_init) (new_location false) (new_location indeterminate)) else None.

(** Mutex::~Mutex. *)
Definition delete_Mutex : code MutexBase unit :=
  r ← Access (λ mu, let '(r, m) := pthread_mutex_destroy (mutex_ mu) in Some (Done r, set_mutex m mu)) Finished;
  GTEST_CHECK_POSIX_SUCCESS_ r.

(** MutexBase::Lock, called by thread [t]. *)
Definition Lock (t : pthread_t) : code MutexBase unit :=
  r ← Access (λ mu, '(r, m) ← pthread_mutex_lock t (mutex_ mu);
                    Some (Done r, acquire_members t (set_mutex m mu))) Finished;
  GTEST_CHECK_POSIX_SUCCESS_ r;;
  write (assign_owner t t);;
  write (assign_has_owner t true).

(** MutexBase::Unlock. *)
Definition Unlock (t : pthread_t) : code MutexBase unit :=
  write (assign_has_owner t false);;
  r ← Access (λ mu, let '(r, m) := pthread_mutex_unlock t (mutex_ mu) in
                    Some (Done r, publish_members t (set_mutex m mu))) Finished;
  GTEST_CHECK_POSIX_SUCCESS_ r.

(** The reads of the two members, at an age. *)
Definition read_has_owner (age : nat) (t : pthread_t) : code MutexBase bool :=
  Access (λ mu, let r := read_location t age (has_owner_ mu) in
                Some (Done (fst r), set_has_owner (snd r) mu)) Finished.
Definition read_owner (age : nat) (t : pthread_t) : code MutexBase pthread_t :=
  Access (λ mu, let r := read_location t age (owner_ mu) in
                Some (Done (fst r), set_owner (snd r) mu)) Finished.

(** MutexBase::AssertHeld, whose reads give values of the ages [i] and [j]. *)
Definition AssertHeld (i j : nat) (t : pthread_t) : code MutexBase unit :=
  has_owner ← read_has_owner i t;
  held ← (if has_owner : bool then
            owner ← read_owner j t;
            mret (pthread_equal owner t)
          else mret false);
  GTEST_CHECK_ held.

(** GTestMutexLock: its constructor and its destructor. *)
Definition GTestMutexLock (t : pthread_t) : code MutexBase unit := Lock t.
Definition delete_GTestMutexLock (t : pthread_t) : code MutexBase unit := Unlock t.

(** * Threads that use a mutex *)

(** Whether a thread has the mutex, as its program sees it: from the return of Lock to
    the call of Unlock. *)
Inductive phase : Set := Outside | Inside.

#[export] Instance phase_eq_dec : EqDecision phase.
Proof. solve_decision. Defined.

(** The calls a thread makes, and in which phase: a thread locks a mutex it does not
    have and unlocks one it has, but it may ask AssertHeld at any time; the reads of
    AssertHeld may give old values when the memory is [weak]. *)
Inductive call (weak : bool) : phase → phase → (pthread_t → code MutexBase unit) → Prop :=
  | call_Lock : call weak Outside Inside Lock
  | call_Unlock : call weak Inside Outside Unlock
  | call_AssertHeld p i j :
      (weak = false → i = 0%nat ∧ j = 0%nat) → call weak p p (AssertHeld i j).

(** A thread is between two calls, in a call that leads from one phase to another, or it
    has aborted the program in such a call. *)
Inductive thread : Type :=
  | Between (p : phase)
  | Calling (p q : phase) (c : code MutexBase unit)
  | Crashed (p q : phase).

Record config : Type := Config { mu : MutexBase; threads : gmap pthread_t thread }.

Definition crashed (th : thread) : bool := match th with Crashed _ _ => true | _ => false end.
Definition running (cfg : config) : Prop := map_Forall (λ _ th, crashed th = false) (threads cfg).

(** A step of thread [t]. Nothing runs after an abort. *)
Inductive step (weak : bool) (t : pthread_t) (cfg : config) : config → Prop :=
  | step_call p q f :
      running cfg → threads cfg !! t = Some (Between p) → call weak p q f →
      step weak t cfg (Config (mu cfg) (<[t := Calling p q (f t)]> (threads cfg)))
  | step_access p q c c' mu' :
      running cfg → threads cfg !! t = Some (Calling p q c) → code_step c (mu cfg) = Some (Done c', mu') →
      step weak t cfg (Config mu' (<[t := Calling p q c']> (threads cfg)))
  | step_crash p q c mu' :
      running cfg → threads cfg !! t = Some (Calling p q c) → code_step c (mu cfg) = Some (Aborted, mu') →
      step weak t cfg (Config mu' (<[t := Crashed p q]> (threads cfg)))
  | step_return p q :
      running cfg → threads cfg !! t = Some (Calling p q (Finished ())) →
      step weak t cfg (Config (mu cfg) (<[t := Between q]> (threads cfg))).

(** The threads take their steps in any order. *)
Definition reachable (weak : bool) : config → config → Prop := rtc (λ cfg cfg', ∃ t, step weak t cfg cfg').

(** Any threads, none of which has called yet. *)
Definition initial (mu0 : MutexBase) (ts : gset pthread_t) : config :=
  Config mu0 (gset_to_gmap (Between Outside) ts).

(** A mutex as a program gets it. *)
Definition fresh (mu0 : MutexBase) : Prop :=
  (∃ zero, mu0 = GTEST_DEFINE_STATIC_MUTEX_ zero) ∨ ∃ indeterminate, new_Mutex indeterminate = Some mu0.

(** Thread [t] is where its program may rely on having the mutex. *)
Definition inside (cfg : config) (t : pthread_t) : Prop :=
  threads cfg !! t = Some (Between Inside) ∨
  ∃ c, threads cfg !! t = Some (Calling Inside Inside c) ∨
       c = Finished () ∧ threads cfg !! t = Some (Calling Outside Inside c).

(** * The invariant *)

(** What a thread knows of the mutex while it has it, and while it does not. *)
Definition has (t : pthread_t) (mu : MutexBase) : Prop :=
  holder (mutex_ mu) = Some t ∧ current (owner_ mu) = t ∧ current (has_owner_ mu) = true.
Definition apart (t : pthread_t) (mu : MutexBase) : Prop := holder (mutex_ mu) ≠ Some t.
Definition in_phase (p : phase) : pthread_t → MutexBase → Prop :=
  match p with Outside => apart | Inside => has end.

(** The thread was once written to owner_, or was there from the start. *)
Definition was_owner (t : pthread_t) (mu : MutexBase) : Prop :=
  t = initially (owner_ mu) ∨ t ∈ written (owner_ mu).

(** The rest of a call after each of its steps, and what holds there. *)
Definition lock_owner (t : pthread_t) : code MutexBase unit :=
  write (assign_owner t t);; write (assign_has_owner t true).
Definition unlock_call (t : pthread_t) : code MutexBase unit :=
  r ← Access (λ mu, let '(r, m) := pthread_mutex_unlock t (mutex_ mu) in
                    Some (Done r, publish_members t (set_mutex m mu))) Finished;
  GTEST_CHECK_POSIX_SUCCESS_ r.
Definition assert_owner (j : nat) (t : pthread_t) : code MutexBase unit :=
  owner ← read_owner j t; GTEST_CHECK_ (pthread_equal owner t).

Inductive point (weak : bool) (t : pthread_t) : phase → phase → code MutexBase unit → (MutexBase → Prop) → Prop :=
  | at_lock : point weak t Outside Inside (Lock t) (apart t)
  | at_lock_owner : point weak t Outside Inside (lock_owner t) (λ mu, holder (mutex_ mu) = Some t)
  | at_lock_has_owner : point weak t Outside Inside (write (assign_has_owner t true))
      (λ mu, holder (mutex_ mu) = Some t ∧ current (owner_ mu) = t)
  | at_locked : point weak t Outside Inside (Finished ()) (has t)
  | at_unlock : point weak t Inside Outside (Unlock t) (has t)
  | at_unlock_call : point weak t Inside Outside (unlock_call t)
      (λ mu, holder (mutex_ mu) = Some t ∧ current (has_owner_ mu) = false)
  | at_unlocked : point weak t Inside Outside (Finished ()) (apart t)
  | at_assert p i j : (weak = false → i = 0%nat ∧ j = 0%nat) →
      point weak t p p (AssertHeld i j t) (in_phase p t)
  | at_assert_owner p j : (weak = false → j = 0%nat) →
      point weak t p p (assert_owner j t)
        (λ mu, in_phase p t mu ∧ (weak = false → p = Outside → current (owner_ mu) ≠ t))
  | at_assert_fails : point weak t Outside Outside crash (apart t)
  | at_asserted : point weak t Inside Inside (Finished ()) (has t)
  | at_passed : point weak t Outside Outside (Finished ())
      (λ mu, apart t mu ∧ weak = true ∧ was_owner t mu).

Record mu_ok (mu : MutexBase) : Prop := MuOk {
  ok_owner : current (has_owner_ mu) = true → holder (mutex_ mu) = Some (current (owner_ mu));
  ok_has_owner_seen : synchronised (holder (mutex_ mu)) (has_owner_ mu);
  ok_owner_seen : synchronised (holder (mutex_ mu)) (owner_ mu);
}.

Definition thread_ok (weak : bool) (t : pthread_t) (mu : MutexBase) (th : thread) : Prop :=
  match th with
  | Between p => in_phase p t mu
  | Calling p q c => ∃ P, point weak t p q c P ∧ P mu
  | Crashed p q => p = Outside ∧ q = Outside
  end.

Record inv (weak : bool) (cfg : config) : Prop := Inv {
  inv_mu : mu_ok (mu cfg);
  inv_threads t th : threads cfg !! t = Some th → thread_ok weak t (mu cfg) th;
  inv_holder t : holder (mutex_ (mu cfg)) = Some t → is_Some (threads cfg !! t);
}.

(** The writes to owner_ that a step may make. *)
Definition owner_grows (t : pthread_t) (mu mu' : MutexBase) : Prop :=
  initially (owner_ mu') = initially (owner_ mu) ∧
  (written (owner_ mu') = written (owner_ mu) ∨
   written (owner_ mu') = written (owner_ mu) ++ [t] ∧ holder (mutex_ mu) = Some t).

(** What thread [u] may expect of the steps of others. *)
Definition rely (u : pthread_t) (mu mu' : MutexBase) : Prop :=
  (holder (mutex_ mu) = Some u → holder (mutex_ mu') = Some u ∧
     current (owner_ mu') = current (owner_ mu) ∧ current (has_owner_ mu') = current (has_owner_ mu)) ∧
  (holder (mutex_ mu) ≠ Some u → holder (mutex_ mu') ≠ Some u) ∧
  (current (owner_ mu) ≠ u → current (owner_ mu') ≠ u) ∧
  (was_owner u mu → was_owner u mu').

Lemma rely_refl u mu : rely u mu mu.
Proof. by split_and!. Qed.

Lemma grows_was_owner t u mu mu' : owner_grows t mu mu' → was_owner u mu → was_owner u mu'.
Proof.
  unfold was_owner. intros (-> & [->|[-> _]]) [?|?]; [by left|by right|by left|right].
  apply elem_of_app. by left.
Qed.

Lemma phase_rely u p mu mu' : rely u mu mu' → in_phase p u mu → in_phase p u mu'.
Proof.
  intros (Hh & Ha & _ & _). destruct p; cbn; [apply Ha|]. intros (Hm & Ho & Hb).
  destruct (Hh Hm) as (? & ? & ?). split_and!; congruence.
Qed.

Lemma point_rely weak u p q c P mu mu' : rely u mu mu' → point weak u p q c P → P mu → P mu'.
Proof.
  intros Hr Hp. pose proof Hr as (Hh & Ha & Ho & Hw). destruct Hp; cbn; try by eauto.
  - intros Hm. by destruct (Hh Hm).
  - intros [Hm ?]. destruct (Hh Hm) as (? & ? & ?). split; congruence.
  - by apply (phase_rely u Inside).
  - by apply (phase_rely u Inside).
  - intros [Hm ?]. destruct (Hh Hm) as (? & ? & ?). split; congruence.
  - by apply phase_rely.
  - intros [Hm Hn]. split; [by eapply phase_rely|auto].
  - by apply (phase_rely u Inside).
  - intros (? & ? & ?). split_and!; [by apply Ha|done|by apply Hw].
Qed.

Context `{!PthreadLaws}.

(** What a read of a member changes: what its reader has seen of it. *)
Lemma see_has_owner t k (mu : MutexBase) :
  (k ≤ latest (has_owner_ mu))%nat → mu_ok mu → mu_ok (set_has_owner (see t k (has_owner_ mu)) mu).
Proof. intros Hk [? ? ?]. split; [done|by apply synchronised_see|done]. Qed.
Lemma see_owner t k (mu : MutexBase) :
  (k ≤ latest (owner_ mu))%nat → mu_ok mu → mu_ok (set_owner (see t k (owner_ mu)) mu).
Proof. intros Hk [? ? ?]. split; [done|done|by apply synchronised_see]. Qed.

(** What a call does with one member, or with the mutex. *)
Definition guarantee (t : pthread_t) (mu mu' : MutexBase) : Prop :=
  mu_ok mu' ∧ owner_grows t mu mu' ∧
  (holder (mutex_ mu') = holder (mutex_ mu) ∨ holder (mutex_ mu') = Some t ∨ holder (mutex_ mu') = None) ∧
  ∀ u, u ≠ t → rely u mu mu'.

Lemma guarantee_intro t mu mu' :
  mu_ok mu' → owner_grows t mu mu' →
  (holder (mutex_ mu') = holder (mutex_ mu) ∨ holder (mutex_ mu') = Some t ∨ holder (mutex_ mu') = None) →
  (∀ u, u ≠ t → holder (mutex_ mu) = Some u → holder (mutex_ mu') = Some u ∧
     current (owner_ mu') = current (owner_ mu) ∧ current (has_owner_ mu') = current (has_owner_ mu)) →
  (current (owner_ mu') = current (owner_ mu) ∨ current (owner_ mu') = t) →
  guarantee t mu mu'.
Proof.
  intros Hok Hg Hh Hr Ho. split_and!; [done..|]. intros u Hu. split_and!; [by apply Hr| | |].
  - destruct Hh as [->|[->| ->]]; [done|congruence|done].
  - destruct Ho as [->| ->]; [done|congruence].
  - by eapply grows_was_owner.
Qed.

Lemma lock_guarantee t m mu :
  mu_ok mu → holder (mutex_ mu) = None → holder m = Some t →
  guarantee t mu (acquire_members t (set_mutex m mu)).
Proof.
  intros [Ho H1 H2] Hn Hm. rewrite Hn in Ho, H1, H2. apply guarantee_intro; cbn; rewrite ?Hm ?Hn.
  - split; cbn; rewrite ?Hm; [|by apply synchronised_acquire..].
    intros Hb. by specialize (Ho Hb).
  - split; [done|by left].
  - auto.
  - done.
  - by left.
Qed.

Lemma owner_guarantee t mu :
  mu_ok mu → holder (mutex_ mu) = Some t → guarantee t mu (assign_owner t t mu).
Proof.
  intros [Ho H1 H2] Hm. rewrite Hm in Ho, H1, H2. apply guarantee_intro; cbn; rewrite ?Hm ?current_write.
  - split; cbn; rewrite ?Hm ?current_write; [done|done|by apply synchronised_write].
  - split; [done|]. by right.
  - auto.
  - intros u Hu [= ->]. done.
  - by right.
Qed.

Lemma has_owner_guarantee t b mu :
  mu_ok mu → holder (mutex_ mu) = Some t → (b = true → current (owner_ mu) = t) →
  guarantee t mu (assign_has_owner t b mu).
Proof.
  intros [Ho H1 H2] Hm Hb. rewrite Hm in Ho, H1, H2. apply guarantee_intro; cbn; rewrite ?Hm ?current_write.
  - split; cbn; rewrite ?Hm ?current_write; [|by apply synchronised_write|done].
    intros ->. by rewrite Hb.
  - split; [done|by left].
  - auto.
  - intros u Hu [= ->]. done.
  - by left.
Qed.

Lemma unlock_guarantee t m mu :
  mu_ok mu → holder (mutex_ mu) = Some t → holder m = None → current (has_owner_ mu) = false →
  guarantee t mu (publish_members t (set_mutex m mu)).
Proof.
  intros [Ho H1 H2] Hm Hn Hb. rewrite Hm in H1, H2. apply guarantee_intro; cbn; rewrite ?Hm ?Hn.
  - split; cbn; rewrite ?Hn; [|by apply synchronised_publish..]. change (current (publish t (has_owner_ mu))) with (current (has_owner_ mu)).
    congruence.
  - split; [done|by left].
  - auto.
  - intros u Hu [= ->]. done.
  - by left.
Qed.

Lemma read_guarantee t mu mu' :
  mu_ok mu' → mutex_ mu' = mutex_ mu → owner_grows t mu mu' →
  current (owner_ mu') = current (owner_ mu) → current (has_owner_ mu') = current (has_owner_ mu) →
  guarantee t mu mu'.
Proof. intros Hok Hm Hg Ho Hb. apply guarantee_intro; rewrite ?Hm; auto. Qed.

(** The reads of AssertHeld: by the thread that has the mutex, and by another one. *)
Lemma has_owner_read weak t p i mu :
  mu_ok mu → in_phase p t mu → (weak = false → i = 0%nat) →
  let b := fst (read_location t i (has_owner_ mu)) in
  (p = Inside → b = true) ∧ (weak = false → p = Outside → b = true → current (owner_ mu) ≠ t).
Proof.
  intros [Ho H1 _] Hp Hi b. split.
  - intros ->. destruct Hp as (Hm & _ & Hb). rewrite Hm in H1. unfold b. by rewrite (read_holder t i) //.
  - intros -> -> Hb Ht. apply Hp. rewrite Ho ?Ht //.
    rewrite /b Hi // (read_latest _ _ _ H1) in Hb. exact Hb.
Qed.

Lemma owner_read weak t p j mu :
  mu_ok mu → in_phase p t mu → (weak = false → j = 0%nat) →
  (weak = false → p = Outside → current (owner_ mu) ≠ t) →
  let u := fst (read_location t j (owner_ mu)) in
  (p = Inside → u = t) ∧ (p = Outside → u = t → weak = true ∧ was_owner t mu).
Proof.
  intros [_ _ H2] Hp Hj Hn u. split.
  - intros ->. destruct Hp as (Hm & Ho & _). rewrite Hm in H2. unfold u. by rewrite (read_holder t j) //.
  - intros -> Hu. destruct weak.
    + split; [done|]. destruct (read_had _ t j _ H2) as [He|He]; fold u in He; rewrite Hu in He; [by left|by right].
    + rewrite /u Hj // (read_latest _ _ _ H2) in Hu. by destruct Hn.
Qed.

(** A step within a call: it keeps what is known, and disturbs no other thread. *)
Lemma point_step weak t p q c P mu c' mu' :
  point weak t p q c P → P mu → mu_ok mu → code_step c mu = Some (Done c', mu') →
  (∃ P', point weak t p q c' P' ∧ P' mu') ∧ guarantee t mu mu'.
Proof.
  intros Hp HP Hmu. pose proof Hmu as [Hown Hsb Hso].
  destruct Hp as [| | | | | | |p i j Hij|p j Hj| | |]; cbn; intros Hs; try by simplify_eq.
  - destruct (pthread_mutex_lock t (mutex_ mu)) as [[r m]|] eqn:Hl; [|done]. cbn in Hs. simplify_eq.
    destruct (lock_some _ _ _ _ Hl HP) as (Hn & -> & Hh).
    split; [by eexists; split; [apply at_lock_owner|]|by apply lock_guarantee].
  - simplify_eq. split; [|by apply owner_guarantee].
    eexists. split; [apply at_lock_has_owner|]. cbn. by rewrite current_write.
  - simplify_eq. destruct HP as [Hh Ho]. split; [|by apply has_owner_guarantee].
    eexists. split; [apply at_locked|]. split_and!; cbn; rewrite ?current_write //.
  - simplify_eq. destruct HP as (Hh & Ho & Hb). split; [|by apply has_owner_guarantee].
    eexists. split; [apply at_unlock_call|]. cbn. by rewrite current_write.
  - destruct HP as [Hh Hb]. destruct (unlock_held _ _ Hh) as (m' & Hu & Hm'). rewrite Hu in Hs. simplify_eq.
    split; [|by apply unlock_guarantee]. eexists. split; [apply at_unlocked|]. unfold apart. cbn. by rewrite Hm'.
  - destruct (has_owner_read weak t p i mu) as [Hin Hout]; [done|done|intros Hw; by apply Hij|].
    assert (mu_ok (set_has_owner (snd (read_location t i (has_owner_ mu))) mu)) as Hmu'
      by (split; [done|by apply synchronised_read|done]).
    unfold read_location in *. cbn [fst snd] in *. simplify_eq.
    split; [|apply read_guarantee; by [|split; [|left]]].
    destruct (value_at _ _) eqn:Hb.
    + eexists. split; [apply at_assert_owner; intros Hw; by apply Hij|]. split; [by destruct p|].
      intros Hw Hp. by apply Hout.
    + destruct p; [by eexists; split; [apply at_assert_fails|]|]. by specialize (Hin eq_refl).
  - destruct HP as [HP Hn]. destruct (owner_read weak t p j mu) as [Hin Hout]; [done..|].
    assert (mu_ok (set_owner (snd (read_location t j (owner_ mu))) mu)) as Hmu'
      by (split; [done|done|by apply synchronised_read]).
    unfold read_location in *. cbn [fst snd] in *. simplify_eq.
    split; [|apply read_guarantee; by [|split; [|left]]].
    unfold GTEST_CHECK_, pthread_equal. case_bool_decide as Ho.
    + destruct p; [|by eexists; split; [apply at_asserted|]].
      destruct (Hout eq_refl Ho). by eexists; split; [apply at_passed|].
    + destruct p; [by eexists; split; [apply at_assert_fails|]|]. by specialize (Hin eq_refl).
Qed.

(** The checks of Lock and Unlock pass; the one of AssertHeld fails for a thread that does
    not have the mutex only. *)
Lemma point_crash weak t p q c P mu r mu' :
  point weak t p q c P → P mu → mu_ok mu → code_step c mu = Some (r, mu') →
  (∃ c', r = Done c') ∨ r = Aborted ∧ p = Outside ∧ q = Outside ∧ c = crash ∧ mu' = mu.
Proof.
  intros Hp HP Hmu. destruct Hp; cbn; intros Hs; simplify_eq; try by eauto.
  - destruct (pthread_mutex_lock t (mutex_ mu)) as [[r' m]|] eqn:Hl; [|done]. cbn in Hs. simplify_eq. eauto.
  - destruct (pthread_mutex_unlock t (mutex_ mu)) as [r' m]. simplify_eq. eauto.
  - right. by split_and!.
Qed.

(** A call that has not returned can go on, unless it waits for another thread. *)
Lemma point_progress weak t p q c P mu :
  point weak t p q c P → P mu → mu_ok mu →
  c = Finished () ∨ is_Some (code_step c mu) ∨ ∃ u, u ≠ t ∧ holder (mutex_ mu) = Some u ∧ p = Outside.
Proof.
  intros Hp HP Hmu. destruct Hp; cbn; eauto.
  - destruct (holder (mutex_ mu)) as [u|] eqn:Hh.
    + right. right. exists u. split_and!; [|done..]. intros ->. by apply HP.
    + destruct (lock_free t _ Hh) as (m' & -> & _). right. left. by eexists.
  - right. left. destruct (pthread_mutex_unlock t (mutex_ mu)). by eexists.
Qed.

Lemma in_phase_call weak t p q f mu :
  call weak p q f → in_phase p t mu → ∃ P, point weak t p q (f t) P ∧ P mu.
Proof. intros [] Hp; eexists; (split; [by constructor|done]). Qed.

Lemma point_return weak t p q P mu : point weak t p q (Finished ()) P → P mu → in_phase q t mu.
Proof. intros Hp. inversion Hp; subst; try done. by intros [? _]. Qed.

Lemma mutex_inv_update weak cfg t th mu' :
  inv weak cfg → is_Some (threads cfg !! t) → thread_ok weak t mu' th →
  guarantee t (mu cfg) mu' → inv weak (Config mu' (<[t := th]> (threads cfg))).
Proof.
  intros [Hm Ht Hh] [th0 Hth0] Hth (Hmu' & _ & Hhold & Hr). split; cbn; [done| |].
  - intros u th'. rewrite lookup_insert_Some. intros [[<- <-]|[Hne Hu]]; [done|].
    apply Ht in Hu. specialize (Hr u ltac:(congruence)). destruct th' as [p|p q c|p q]; cbn in *.
    + by eapply phase_rely.
    + destruct Hu as (P & Hp & HP). exists P. split; [done|by eapply point_rely].
    + done.
  - intros u Hu. rewrite lookup_insert_is_Some'. destruct Hhold as [He|[He|He]]; rewrite He in Hu.
    + by auto.
    + by simplify_eq; left.
    + done.
Qed.

Lemma mutex_inv_step weak t cfg cfg' : inv weak cfg → step weak t cfg cfg' → inv weak cfg' ∧ guarantee t (mu cfg) (mu cfg').
Proof.
  intros Hi Hs. assert (guarantee t (mu cfg) (mu cfg)) as Hrefl.
  { apply read_guarantee; [apply Hi|done| |done..]. split; [done|by left]. }
  destruct Hs as [p q f _ Ht Hc|p q c c' mu' _ Ht Hc|p q c mu' _ Ht Hc|p q _ Ht];
    pose proof (inv_threads _ _ Hi _ _ Ht) as Hok; cbn in Hok |- *.
  - split; [|done]. apply mutex_inv_update; [done|by eexists|by eapply in_phase_call|done].
  - destruct Hok as (P & Hp & HP).
    destruct (point_step _ _ _ _ _ _ _ _ _ Hp HP (inv_mu _ _ Hi) Hc) as (HP' & Hg).
    split; [|done]. apply mutex_inv_update; [done|by eexists|done..].
  - destruct Hok as (P & Hp & HP).
    destruct (point_crash _ _ _ _ _ _ _ _ _ Hp HP (inv_mu _ _ Hi) Hc) as [[c' ?]|(_ & -> & -> & _ & ->)]; [done|].
    split; [|done]. apply mutex_inv_update; [done|by eexists|done|done].
  - destruct Hok as (P & Hp & HP). split; [|done].
    apply mutex_inv_update; [done|by eexists|by eapply point_return|done].
Qed.

Lemma fresh_free mu0 : fresh mu0 →
  holder (mutex_ mu0) = None ∧ current (has_owner_ mu0) = false ∧ mu_ok mu0 ∧ written (owner_ mu0) = [].
Proof.
  assert (∀ m x, holder m = None → let mu := MkMutexBase m (new_location false) (new_location x) in mu_ok mu) as Hok.
  { intros m x Hm. split; cbn; rewrite ?Hm; [done|apply synchronised_new..]. }
  intros [[zero ->]|[x Hx]].
  - split_and!; [apply initializer_free|done| |done]. apply Hok, initializer_free.
  - unfold new_Mutex in Hx. rewrite bool_decide_true in Hx; [apply init_free|]. simplify_eq.
    split_and!; [apply init_free|done| |done]. apply Hok, init_free.
Qed.

Lemma mutex_inv_initial weak mu0 ts : fresh mu0 → inv weak (initial mu0 ts).
Proof.
  intros (Hh & Hb & Hok & _)%fresh_free. split; cbn; [done| |].
  - intros t th. rewrite lookup_gset_to_gmap_Some. intros [_ <-]. cbn. unfold apart. by rewrite Hh.
  - by rewrite Hh.
Qed.

(** Every thread that was written to owner_ had the mutex before. *)
Definition owners_had_it (weak : bool) (start cfg : config) : Prop :=
  initially (owner_ (mu cfg)) = initially (owner_ (mu start)) ∧
  ∀ t, t ∈ written (owner_ (mu cfg)) →
    ∃ cfg0, reachable weak start cfg0 ∧ reachable weak cfg0 cfg ∧ holder (mutex_ (mu cfg0)) = Some t.

Lemma mutex_inv_reachable weak mu0 ts cfg :
  fresh mu0 → reachable weak (initial mu0 ts) cfg → inv weak cfg ∧ owners_had_it weak (initial mu0 ts) cfg.
Proof.
  intros Hf. revert cfg. apply (rtc_ind_r (λ cfg, inv weak cfg ∧ owners_had_it weak (initial mu0 ts) cfg)).
  { split; [by apply mutex_inv_initial|]. split; [done|]. destruct (fresh_free _ Hf) as (_ & _ & _ & Hw).
    cbn. rewrite Hw. by intros t ?%elem_of_nil. }
  intros x y Hr [t Hs] [Hi [Hini Hown]]. destruct (mutex_inv_step _ _ _ _ Hi Hs) as [Hi' (_ & (Hg1 & Hg2) & _ & _)]. split; [done|].
  split; [congruence|]. intros u Hu.
  assert (reachable weak x y) as Hxy by (apply rtc_once; by exists t).
  assert (u ∈ written (owner_ (mu x)) ∨ u = t ∧ holder (mutex_ (mu x)) = Some t) as [Hin|[-> Hh]].
  { destruct Hg2 as [He|[He Hh]]; rewrite He in Hu; [by left|].
    apply elem_of_app in Hu as [?|?%list_elem_of_singleton]; [by left|by right]. }
  - destruct (Hown u Hin) as (cfg0 & H1 & H2 & H3). exists cfg0. split_and!; [done| |done].
    by etrans.
  - by exists x.
Qed.

Lemma inside_has weak cfg t : inv weak cfg → inside cfg t → has t (mu cfg).
Proof.
  intros Hi [Ht|(c & [Ht|[-> Ht]])]; pose proof (inv_threads _ _ Hi _ _ Ht) as Hok; cbn in Hok; [done| |].
  - destruct Hok as (P & Hp & HP). inversion Hp; subst; try done. by apply HP.
  - destruct Hok as (P & Hp & HP). by eapply (point_return weak t Outside Inside).
Qed.

(** A thread in a call can take a step of it. *)
Definition goes_on (weak : bool) (cfg : config) (t : pthread_t) : Prop :=
  ∃ p q c cfg', threads cfg !! t = Some (Calling p q c) ∧ step weak t cfg cfg'.

Lemma calling_goes_on weak cfg t p q c :
  inv weak cfg → running cfg → threads cfg !! t = Some (Calling p q c) →
  goes_on weak cfg t ∨ ∃ u, u ≠ t ∧ holder (mutex_ (mu cfg)) = Some u ∧ p = Outside.
Proof.
  intros Hi Hrun Ht. pose proof (inv_threads _ _ Hi _ _ Ht) as (P & Hp & HP).
  destruct (point_progress _ _ _ _ _ _ _ Hp HP (inv_mu _ _ Hi)) as [->|[[[r mu'] Hc]|?]]; [| |by right].
  - left. do 4 eexists. split; [done|by eapply step_return].
  - left. destruct (point_crash _ _ _ _ _ _ _ _ _ Hp HP (inv_mu _ _ Hi) Hc) as [[c' ->]|(-> & _)].
    + do 4 eexists. split; [done|by eapply step_access].
    + do 4 eexists. split; [done|by eapply step_crash].
Qed.

(** No deadlock: some call can go on, or the thread that has the mutex is between two calls. *)
Lemma mutex_inv_progress weak cfg t p q c :
  inv weak cfg → running cfg → threads cfg !! t = Some (Calling p q c) →
  (∃ u, goes_on weak cfg u) ∨ ∃ u, threads cfg !! u = Some (Between Inside).
Proof.
  intros Hi Hrun Ht. destruct (calling_goes_on _ _ _ _ _ _ Hi Hrun Ht) as [?|(u & _ & Hu & _)]; [by eauto|].
  destruct (inv_holder _ _ Hi _ Hu) as [th Hth]. pose proof (inv_threads _ _ Hi _ _ Hth) as Hok.
  destruct th as [[]|p' q' c'|p' q']; cbn in Hok; [done|by eauto| |by apply Hrun in Hth].
  destruct (calling_goes_on _ _ _ _ _ _ Hi Hrun Hth) as [?|(u' & Hne & Hu' & _)]; [by eauto|congruence].
Qed.

(** C15. MutexBase keeps what it promises to threads that lock a mutex before they unlock it,
    whatever the order of their steps: at most one thread is between the return of Lock
    and the call of Unlock; AssertHeld returns for the thread that has the mutex, and no
    other call aborts. AssertHeld reads the members without the mutex, so for a thread that
    does not have it the reads may give old values, and it does not always abort: it returns only
    when the reads are not of the current values and the thread had the mutex before, or
    is the value that owner_ began with. While calls are waiting some thread can go on with its
    call, unless the thread that has the mutex is busy elsewhere. *)
Theorem mutex_keeps_promise weak mu0 ts cfg :
  fresh mu0 → reachable weak (initial mu0 ts) cfg →
  (∀ t u, inside cfg t → inside cfg u → t = u) ∧
  (∀ t p q, threads cfg !! t = Some (Crashed p q) → p = Outside ∧ q = Outside) ∧
  (∀ t, threads cfg !! t = Some (Calling Outside Outside (Finished ())) →
    weak = true ∧
    (t = initially (owner_ mu0) ∨
     ∃ cfg0, reachable weak (initial mu0 ts) cfg0 ∧ reachable weak cfg0 cfg ∧
       holder (mutex_ (mu cfg0)) = Some t)) ∧
  (∀ t p q c, running cfg → threads cfg !! t = Some (Calling p q c) →
    (∃ u, goes_on weak cfg u) ∨ ∃ u, threads cfg !! u = Some (Between Inside)).
Proof.
  intros Hf Hr. destruct (mutex_inv_reachable _ _ _ _ Hf Hr) as [Hi [Hini Hown]]. split_and!.
  - intros t u Ht Hu. destruct (inside_has _ _ _ Hi Ht), (inside_has _ _ _ Hi Hu). congruence.
  - intros t p q Ht. exact (inv_threads _ _ Hi _ _ Ht).
  - intros t Ht. destruct (inv_threads _ _ Hi _ _ Ht) as (P & Hp & HP). inversion Hp; subst.
    destruct HP as (_ & Hw & [Ho|Ho]); [by split; [|left; rewrite Ho Hini]|by split; [|right; apply Hown]].
  - intros t p q c. by apply mutex_inv_progress.
Qed.
End mutex.

(** * A run of two threads *)

(** The next step of a thread: the given call between two calls, and the next access or
    the return within one. *)
Definition advance `{Pthreads} (t : pthread_t) (p q : phase) (f : pthread_t → code MutexBase unit) (cfg : config)
    : option config :=
  th ← threads cfg !! t;
  match th with
  | Between _ => Some (Config (mu cfg) (<[t := Calling p q (f t)]> (threads cfg)))
  | Calling p q c =>
      match c, code_step c (mu cfg) with
      | Finished _, _ => Some (Config (mu cfg) (<[t := Between q]> (threads cfg)))
      | _, Some (Done c', mu') => Some (Config mu' (<[t := Calling p q c']> (threads cfg)))
      | _, Some (Aborted, mu') => Some (Config mu' (<[t := Crashed p q]> (threads cfg)))
      | _, _ => None
      end
  | Crashed _ _ => None
  end.

Definition at_phase `{Pthreads} (t : pthread_t) (p : phase) (cfg : config) : Prop :=
  match threads cfg !! t with Some (Between p') => p' = p | Some (Calling _ _ _) => True | _ => False end.

Lemma advance_step `{Pthreads} weak t p q f cfg cfg' :
  call weak p q f → at_phase t p cfg → running cfg → advance t p q f cfg = Some cfg' → step weak t cfg cfg'.
Proof.
  unfold advance, at_phase. intros Hf Hp Hrun. destruct (threads cfg !! t) as [th|] eqn:Ht; [|done]. cbn.
  destruct th as [p'|p' q' c|p' q']; [| |done].
  - intros [= <-]. subst p'. by eapply step_call.
  - destruct c as [[]|X m k|body k].
    + intros [= <-]. by eapply step_return.
    + destruct (m (mu cfg)) as [[[x| | | | |] mu']|] eqn:Hm; intros [= <-].
      * eapply step_access; [done|exact Ht|]. by rewrite /= Hm.
      * eapply step_crash; [done|exact Ht|]. by rewrite /= Hm.
    + intros [= <-]. by eapply step_access.
Qed.

#[local] Existing Instance simple_pthreads.
#[local] Existing Instance simple_pthread_laws.

(** Thread 1 locks the mutex while thread 2 asks whether it has it. *)
Definition two_threads : config := initial (GTEST_DEFINE_STATIC_MUTEX_ 0) {[ 1; 2 ]}.

Ltac go t p q f := eapply rtc_l; [exists t; apply (advance_step _ t p q f); [by constructor|vm_compute; exact I || reflexivity|vm_decide|vm_compute; reflexivity]|].
Ltac locks t := do 5 (go t Outside Inside constr:(Lock)).
Ltac unlocks t := do 4 (go t Inside Outside constr:(Unlock)).

Lemma one_locks_other_asks :
  ∃ cfg, reachable false two_threads cfg ∧ threads cfg !! 1 = Some (Between Inside) ∧
    threads cfg !! 2 = Some (Crashed Outside Outside).
Proof.
  eexists. split.
  - go 1 Outside Inside Lock. go 2 Outside Outside (AssertHeld 0 0). go 1 Outside Inside Lock.
    go 1 Outside Inside Lock. go 1 Outside Inside Lock. go 2 Outside Outside (AssertHeld 0 0).
    go 1 Outside Inside Lock. go 2 Outside Outside (AssertHeld 0 0). go 2 Outside Outside (AssertHeld 0 0).
    apply rtc_refl.
  - by vm_compute.
Defined.

(** Thread 2 had the mutex before thread 1, and still reads its own number from owner_: its
    AssertHeld passes. *)
Lemma stale_assert_passes :
  ∃ cfg, reachable true two_threads cfg ∧ threads cfg !! 1 = Some (Between Inside) ∧
    threads cfg !! 2 = Some (Calling Outside Outside (Finished ())).
Proof.
  eexists. split.
  - locks 2. unlocks 2. locks 1. do 3 (go 2 Outside Outside (AssertHeld 0 1)). apply rtc_refl.
  - by vm_compute.
Defined.

Lemma mutex_keeps_promise_witness :
  (∃ cfg, reachable false two_threads cfg ∧ inside cfg 1 ∧ ¬ inside cfg 2 ∧
     threads cfg !! 2 = Some (Crashed Outside Outside)) ∧
  ∃ cfg, reachable true two_threads cfg ∧ inside cfg 1 ∧
    threads cfg !! 2 = Some (Calling Outside Outside (Finished ())) ∧
    (2 = 0 ∨ ∃ cfg0, reachable true two_threads cfg0 ∧ reachable true cfg0 cfg ∧
       holder (mutex_ (mu cfg0)) = Some 2).
Proof.
  assert (fresh (GTEST_DEFINE_STATIC_MUTEX_ 0)) as Hf by (left; by eexists). split.
  - destruct one_locks_other_asks as (cfg & Hr & H1 & H2).
    exists cfg. assert (inside cfg 1) as Hi by by left. split_and!; [done|done| |done]. intros Hi2.
    destruct (mutex_keeps_promise _ _ _ _ Hf Hr) as (Hexcl & _). by specialize (Hexcl _ _ Hi Hi2).
  - destruct stale_assert_passes as (cfg & Hr & H1 & H2).
    exists cfg. split_and!; [done|by left|done|].
    destruct (mutex_keeps_promise _ _ _ _ Hf Hr) as (_ & _ & Hpass & _). by destruct (Hpass _ H2) as [_ ?].
Defined.
