(* ===== verification/Threads.v ===== *)
(** Threads of the test library on pthreads, ThreadWithParam, and the Notification that
    holds them back (src/gtest/include/gtest/internal/gtest-port.h): a controller makes
    threads, notifies them and joins them, while the steps of all interleave. *)

From S2P Require Import Prelude Concurrency.
#[local] Open Scope Z_scope.

(** * Notification *)

Section notification.
Context `{Pthreads}.

Record Notification : Type := MkNotification {
  mutex_ : pthread_mutex_t;
  notified_ : bool;
}.

Definition set_mutex (m : pthread_mutex_t) (n : Notification) : Notification := MkNotification m (notified_ n).
Definition set_notified (b : bool) (n : Notification) : Notification := MkNotification (mutex_ n) b.

(** The constructor, if pthread_mutex_init succeeds. *)
Definition new_Notification : option Notification :=
  if bool_decide (fst pthread_mutex_init = 0) then Some (MkNotification (snd pthread_mutex_init) false) else None.

(** The results of these calls are not looked at. *)
Definition mutex_lock (t : pthread_t) : code Notification Z :=
  Access (λ n, '(r, m) ← pthread_mutex_lock t (mutex_ n); Some (Done r, set_mutex m n)) Finished.
Definition mutex_unlock (t : pthread_t) : code Notification Z :=
  Access (λ n, let '(r, m) := pthread_mutex_unlock t (mutex_ n) in Some (Done r, set_mutex m n)) Finished.

Definition delete_Notification : code Notification unit :=
  _ ← Access (λ n, let '(r, m) := pthread_mutex_destroy (mutex_ n) in Some (Done r, set_mutex m n)) Finished;
  mret ().

(** Notify, called by thread [t]. *)
Definition Notify (t : pthread_t) : code Notification unit :=
  _ ← mutex_lock t;
  write (set_notified true);;
  _ ← mutex_unlock t;
  mret ().

(** A pause of the thread, in which nothing else of it happens. *)
Definition SleepMilliseconds : code Notification unit := write id.

(** The body of the loop, with the result whether it breaks. *)
Definition wait_body (t : pthread_t) : code Notification bool :=
  _ ← mutex_lock t;
  notified ← read notified_;
  _ ← mutex_unlock t;
  if notified : bool then mret true else SleepMilliseconds;; mret false.

Definition WaitForNotification (t : pthread_t) : code Notification unit := Until (wait_body t) (mret ()).
End notification.

(** * ThreadWithParam *)

(** pthread_create, given the threads there were: its result and the new thread. *)
Class PthreadCreate : Type := {
  main_thread : pthread_t;
  pthread_create : list pthread_t → Z * pthread_t;
}.

(** There are always resources for another thread. *)
Class PthreadCreateLaws `{PthreadCreate} : Prop :=
  create_new ts : fst (pthread_create ts) = 0 ∧ snd (pthread_create ts) ∉ main_thread :: ts.

Section threads.
Context `{Pthreads, PthreadCreate} {F T : Type}.

Record ThreadWithParam : Type := MkThreadWithParam {
  func_ : F;
  param_ : T;
  thread_can_start_ : bool;             (* whether it is the notification, or NULL *)
  finished_ : bool;
  thread_ : option pthread_t;           (* not initialised before pthread_create *)
}.

(** func_(param_) of an object starts, and returns. *)
Inductive event : Type :=
  | Started (i : nat) (func : F) (param : T)
  | Returned (i : nat) (func : F) (param : T).

(** The notification, the ThreadWithParam objects, the threads that were created, each
    with the object it runs, those that have ended, and the calls of user functions. *)
Record world : Type := World {
  notification : Notification;
  objects : list ThreadWithParam;
  created : list (pthread_t * nat);
  exited : list pthread_t;
  calls : list event;
}.

Definition set_notification n w : world := World n (objects w) (created w) (exited w) (calls w).
Definition set_objects f w : world := World (notification w) (f (objects w)) (created w) (exited w) (calls w).
Definition add_created t i w : world := World (notification w) (objects w) (created w ++ [(t, i)]) (exited w) (calls w).
Definition add_exited t w : world := World (notification w) (objects w) (created w) (t :: exited w) (calls w).
Definition add_call e w : world := World (notification w) (objects w) (created w) (exited w) (calls w ++ [e]).

Definition on_notification {A} (c : code Notification A) : code world A := zoom_code notification set_notification c.

(** The members of the object at index [i]. *)
Definition object (i : nat) : code world ThreadWithParam := atomically (λ w, or_ub Dangling (objects w !! i) w).

(** func_(param_), as far as this code sees it. *)
Definition call_func (i : nat) (o : ThreadWithParam) : code world unit :=
  write (add_call (Started i (func_ o) (param_ o)));;
  write (add_call (Returned i (func_ o) (param_ o))).

(** ThreadWithParam::Run in thread [t]. *)
Definition Run (t : pthread_t) (i : nat) : code world unit :=
  o ← object i;
  (if thread_can_start_ o then on_notification (WaitForNotification t) else mret ());;
  call_func i o.

Definition ThreadFuncWithCLinkage (t : pthread_t) (i : nat) : code world unit := Run t i.

(** pthread_create(&thread_, 0, &ThreadFuncWithCLinkage, base). *)
Definition create_thread (i : nat) : code world Z :=
  Access (λ w,
    let '(r, t) := pthread_create (created w).*1 in
    Some (Done r, if bool_decide (r = 0) then
                    add_created t i (set_objects (alter (λ o, MkThreadWithParam (func_ o) (param_ o)
                      (thread_can_start_ o) (finished_ o) (Some t)) i) w)
                  else w)) Finished.

(** The constructor, of the object that gets index [i]. *)
Definition new_ThreadWithParam (i : nat) (func : F) (param : T) (thread_can_start : bool) : code world unit :=
  write (set_objects (λ os, os ++ [MkThreadWithParam func param thread_can_start false None]));;
  r ← create_thread i;
  GTEST_CHECK_POSIX_SUCCESS_ r.

(** pthread_join waits for the end of the thread. *)
Definition pthread_join (t : pthread_t) : code world Z :=
  Access (λ w, if bool_decide (t ∈ exited w) then Some (Done 0, w) else None) Finished.

Definition Join (i : nat) : code world unit :=
  o ← object i;
  if finished_ o then mret () else
    t ← atomically (or_ub Indeterminate (thread_ o));
    r ← pthread_join t;
    GTEST_CHECK_POSIX_SUCCESS_ r;;
    write (set_objects (alter (λ o, MkThreadWithParam (func_ o) (param_ o) (thread_can_start_ o) true (thread_ o)) i)).

Definition delete_ThreadWithParam (i : nat) : code world unit := Join i.

(** * A controller and its threads *)

(** The use the comments show, for any number of threads: make them with the
    notification, notify them, and destroy everything in reverse order. *)
Fixpoint create_all (i : nat) (ps : list (F * T)) : code world unit :=
  match ps with
  | [] => mret ()
  | (func, param) :: ps => new_ThreadWithParam i func param true;; create_all (S i) ps
  end.

Fixpoint destroy_all (k : nat) : code world unit :=
  match k with O => mret () | S k => delete_ThreadWithParam k;; destroy_all k end.

Definition controller_main (ps : list (F * T)) : code world unit :=
  create_all 0 ps;;
  on_notification (Notify main_thread);;
  destroy_all (length ps);;
  on_notification delete_Notification.

(** The controller, and the code of the threads that have begun. *)
Record config : Type := Config {
  controller : code world unit;
  workers : gmap pthread_t (code world unit);
  shared : world;
}.

Inductive step (cfg : config) : config → Prop :=
  | step_controller c w :
      code_step (controller cfg) (shared cfg) = Some (Done c, w) →
      step cfg (Config c (workers cfg) w)
  | step_begin t i :
      (t, i) ∈ created (shared cfg) → workers cfg !! t = None →
      step cfg (Config (controller cfg) (<[t := ThreadFuncWithCLinkage t i]> (workers cfg)) (shared cfg))
  | step_worker t c c' w :
      workers cfg !! t = Some c → code_step c (shared cfg) = Some (Done c', w) →
      step cfg (Config (controller cfg) (<[t := c']> (workers cfg)) w)
  | step_exit t :
      workers cfg !! t = Some (Finished ()) → t ∉ exited (shared cfg) →
      step cfg (Config (controller cfg) (workers cfg) (add_exited t (shared cfg))).

(** Some code aborts the program or is undefined. *)
Definition fails (cfg : config) : Prop :=
  ∃ c r w, (c = controller cfg ∨ ∃ t, workers cfg !! t = Some c) ∧
    code_step c (shared cfg) = Some (r, w) ∧ ∀ c', r ≠ Done c'.

Definition start (n : Notification) (ps : list (F * T)) : config := Config (controller_main ps) ∅ (World n [] [] [] []).

(** * A thread that waits *)

Context `{!PthreadLaws, !PthreadCreateLaws} (ps : list (F * T)).
Implicit Types (w : world) (t u : pthread_t) (i j : nat) (o : ThreadWithParam).

Definition event_object (e : event) : nat := match e with Started i _ _ | Returned i _ _ => i end.

(** The calls made for the object at index [i]. *)
Definition log i w : list event := filter (λ e, event_object e = i) (calls w).

Definition holds t w : Prop := holder (mutex_ (notification w)) = Some t.
Definition apart t w : Prop := holder (mutex_ (notification w)) ≠ Some t.
Definition notified w : Prop := notified_ (notification w) = true.

(** The object was made for this function and parameter, with the notification. *)
Definition given (func : F) (param : T) o : Prop := func_ o = func ∧ param_ o = param ∧ thread_can_start_ o = true.

(** The rest of a turn of the loop after each of its steps. *)
Definition body_read t : code Notification bool :=
  notified ← read notified_;
  _ ← mutex_unlock t;
  if notified : bool then mret true else SleepMilliseconds;; mret false.
Definition body_unlock t (notified : bool) : code Notification bool :=
  _ ← mutex_unlock t;
  if notified then mret true else SleepMilliseconds;; mret false.
Definition body_sleep : code Notification bool := SleepMilliseconds;; mret false.

Definition waiting t i o : code world unit := Until (on_notification (wait_body t)) (call_func i o).
Definition turn t i o (c : code Notification bool) : code world unit :=
  b ← on_notification c;
  if b : bool then call_func i o else waiting t i o.

(** Where thread [t] may be in Run of object [i], what it knows there, and a number that
    gets smaller with each step once the notification has happened. *)
Inductive at_worker t i (func : F) (param : T) : nat → code world unit → (world → Prop) → Prop :=
  | at_run : at_worker t i func param 20 (Run t i)
      (λ w, apart t w ∧ log i w = [] ∧ ∃ o, objects w !! i = Some o ∧ given func param o)
  | at_loop o : given func param o →
      at_worker t i func param 10 (waiting t i o) (λ w, apart t w ∧ log i w = [])
  | at_lock o : given func param o →
      at_worker t i func param 9 (turn t i o (wait_body t)) (λ w, apart t w ∧ log i w = [])
  | at_read o : given func param o →
      at_worker t i func param 8 (turn t i o (body_read t)) (λ w, holds t w ∧ log i w = [])
  | at_unlock o (b : bool) : given func param o →
      at_worker t i func param (if b then 7%nat else 12%nat) (turn t i o (body_unlock t b))
        (λ w, holds t w ∧ log i w = [] ∧ (b = true → notified w))
  | at_sleep o : given func param o →
      at_worker t i func param 11 (turn t i o body_sleep) (λ w, apart t w ∧ log i w = [])
  | at_call o : given func param o →
      at_worker t i func param 6 (call_func i o) (λ w, apart t w ∧ log i w = [] ∧ notified w)
  | at_return :
      at_worker t i func param 5 (write (add_call (Returned i func param)))
        (λ w, apart t w ∧ log i w = [Started i func param] ∧ notified w)
  | at_end :
      at_worker t i func param 4 (Finished ())
        (λ w, apart t w ∧ log i w = [Started i func param; Returned i func param] ∧ notified w).

(** How one thread may change the mutex of the notification. *)
Definition mutex_change t w w' : Prop :=
  holder (mutex_ (notification w')) = holder (mutex_ (notification w)) ∨
  holder (mutex_ (notification w)) = None ∧ holds t w' ∨
  holds t w ∧ holder (mutex_ (notification w')) = None.

(** What a step of thread [t] of object [i] may do to what others know. *)
Record worker_change t i w w' : Prop := WorkerChange {
  wc_mutex : mutex_change t w w';
  wc_notified : notified_ (notification w') = notified_ (notification w);
  wc_objects : objects w' = objects w;
  wc_created : created w' = created w;
  wc_exited : exited w' = exited w;
  wc_log j : j ≠ i → log j w' = log j w;
}.

Lemma same_change t i w : worker_change t i w w.
Proof. split; try done. by left. Qed.

Lemma notification_change t i w n :
  mutex_change t w (set_notification n w) → notified_ n = notified_ (notification w) →
  worker_change t i w (set_notification n w).
Proof. by intros; split. Qed.

Lemma log_add_call e w : log (event_object e) (add_call e w) = log (event_object e) w ++ [e].
Proof. unfold log. cbn. by rewrite filter_app filter_cons_True. Qed.

Lemma log_add_other e w j : j ≠ event_object e → log j (add_call e w) = log j w.
Proof. intros Hj. unfold log. cbn. rewrite filter_app filter_cons_False; [done|]. by rewrite app_nil_r. Qed.

Lemma call_change t e w : worker_change t (event_object e) w (add_call e w).
Proof. split; try done; [by left|]. intros j Hj. by apply log_add_other. Qed.

(** A step of a thread, unless it waits for the mutex. *)
Lemma worker_step t i func param k c P w r w' :
  at_worker t i func param k c P → P w → code_step c w = Some (r, w') →
  ∃ c' k' P', r = Done c' ∧ at_worker t i func param k' c' P' ∧ P' w' ∧ (notified w → (k' < k)%nat) ∧
    worker_change t i w w'.
Proof.
  intros Hc HP Hs. destruct Hc as [|o Ho|o Ho|o Ho|o b Ho|o Ho|o Ho| |]; cbn in Hs.
  - destruct HP as (Ha & Hl & o & Hi & Hf & Hp & Hcs). rewrite Hi /= Hcs in Hs. simplify_eq.
    eexists _, 10%nat, _. split; [done|]. split; [by apply (at_loop _ _ _ _ o)|].
    split_and!; [done..|lia|apply same_change].
  - simplify_eq. eexists _, 9%nat, _. split; [done|]. split; [by apply (at_lock _ _ _ _ o)|].
    split_and!; [by destruct HP..|lia|apply same_change].
  - destruct HP as [Ha Hl]. destruct (pthread_mutex_lock _ _) as [[z m]|] eqn:Hm; [|done]. cbn in Hs. simplify_eq.
    destruct (lock_some _ _ _ _ Hm Ha) as (Hn & _ & Hh).
    eexists _, 8%nat, _. split; [done|]. split; [by apply (at_read _ _ _ _ o)|].
    split_and!; [done..|lia|]. apply notification_change; [|done]. right. left. by split.
  - simplify_eq. destruct HP as [Hh Hl]. set (b := notified_ (notification w)).
    eexists _, (if b then 7 else 12)%nat, _. split; [done|]. split; [by apply (at_unlock _ _ _ _ o b)|].
    split_and!; [done..|by intros Hn; unfold b; rewrite Hn; lia|].
    apply notification_change; [by left|done].
  - destruct HP as (Hh & Hl & Hb). destruct (unlock_held _ _ Hh) as (m & Hm & Hm'). rewrite Hm /= in Hs. simplify_eq.
    assert (worker_change t i w (set_notification (set_mutex m (notification w)) w)) as Hch.
    { apply notification_change; [|done]. right. right. by split. }
    assert (apart t (set_notification (set_mutex m (notification w)) w)) as Ha by (unfold apart; cbn; by rewrite Hm').
    destruct b; cbn.
    + eexists _, 6%nat, _. split; [done|]. split; [by apply (at_call _ _ _ _ o)|]. by split_and!; auto.
    + eexists _, 11%nat, _. split; [done|]. split; [by apply (at_sleep _ _ _ _ o)|]. by split_and!; [..|lia|].
  - simplify_eq. eexists _, 10%nat, _. split; [done|]. split; [by apply (at_loop _ _ _ _ o)|].
    split_and!; [by destruct HP..|lia|]. apply notification_change; [by left|done].
  - simplify_eq. destruct HP as (Ha & Hl & Hn). destruct Ho as (<- & <- & _).
    eexists _, 5%nat, _. split; [done|]. split; [apply at_return|].
    split_and!; [done| |done|lia|apply (call_change t (Started i (func_ o) (param_ o)))].
    by rewrite (log_add_call (Started i (func_ o) (param_ o))) Hl.
  - simplify_eq. destruct HP as (Ha & Hl & Hn).
    eexists _, 4%nat, _. split; [done|]. split; [apply at_end|].
    split_and!; [done| |done|lia|apply (call_change t (Returned i func param))].
    by rewrite (log_add_call (Returned i func param)) Hl.
  - done.
Qed.

(** A thread in the middle of Run waits only for a mutex that another one holds. *)
Lemma worker_progress t i func param k c P w :
  at_worker t i func param k c P → P w →
  c = Finished () ∨ is_Some (code_step c w) ∨ ∃ u, u ≠ t ∧ holds u w ∧ apart t w.
Proof.
  intros Hc HP. destruct Hc as [|o Ho|o Ho|o Ho|o b Ho|o Ho|o Ho| |]; cbn;
    try (by left); try (right; left; by eexists).
  - right. left. destruct (or_ub _ _ _). by eexists.
  - destruct HP as [Ha _]. destruct (holder (mutex_ (notification w))) as [u|] eqn:Hh.
    + right. right. exists u. split_and!; [intros ->; by apply Ha|done..].
    + destruct (lock_free t _ Hh) as (m' & -> & _). right. left. by eexists.
  - right. left. destruct (pthread_mutex_unlock t _). by eexists.
Qed.

(** What a thread knows survives the steps of other threads and of the controller. *)
Definition rely t i w w' : Prop :=
  (holds t w → holds t w') ∧ (apart t w → apart t w') ∧ (notified w → notified w') ∧ log i w' = log i w ∧
  ∀ func param o, objects w !! i = Some o → given func param o → ∃ o', objects w' !! i = Some o' ∧ given func param o'.

Lemma worker_rely t i func param k c P w w' :
  at_worker t i func param k c P → rely t i w w' → P w → P w'.
Proof.
  intros Hc (Hh & Ha & Hn & Hl & Ho) HP. destruct Hc; cbn in *; rewrite ?Hl; naive_solver.
Qed.

Lemma mutex_rely t u w w' : mutex_change t w w' → u ≠ t → (holds u w → holds u w') ∧ (apart u w → apart u w').
Proof. unfold mutex_change, holds, apart. intros Hc Hu. naive_solver congruence. Qed.

Lemma worker_change_rely t i u j w w' : worker_change t i w w' → u ≠ t → j ≠ i → rely u j w w'.
Proof.
  intros [Hm Hn Ho _ _ Hl] Hu Hj. destruct (mutex_rely _ _ _ _ Hm Hu). split_and!; [done..| | |].
  - unfold notified. by rewrite Hn.
  - by apply Hl.
  - rewrite Ho. eauto.
Qed.

(** * The controller *)

Notation n := (length ps).

(** The rest of controller_main from its steps on. *)
Definition tail : code world unit := destroy_all n;; on_notification delete_Notification.
Definition rest : code world unit := on_notification (Notify main_thread);; tail.
Definition create_one (i : nat) : code world unit := r ← create_thread i; GTEST_CHECK_POSIX_SUCCESS_ r.
Definition join_thread j o : code world unit :=
  t ← atomically (or_ub Indeterminate (thread_ o));
  r ← pthread_join t;
  GTEST_CHECK_POSIX_SUCCESS_ r;;
  write (set_objects (alter (λ o, MkThreadWithParam (func_ o) (param_ o) (thread_can_start_ o) true (thread_ o)) j)).
Definition join_wait j t : code world unit :=
  r ← pthread_join t;
  GTEST_CHECK_POSIX_SUCCESS_ r;;
  write (set_objects (alter (λ o, MkThreadWithParam (func_ o) (param_ o) (thread_can_start_ o) true (thread_ o)) j)).
Definition join_write j : code world unit :=
  write (set_objects (alter (λ o, MkThreadWithParam (func_ o) (param_ o) (thread_can_start_ o) true (thread_ o)) j)).
Definition destroying (c : code world unit) j : code world unit :=
  (c;; destroy_all j);; on_notification delete_Notification.

(** [k] objects and [m] threads have been made, and nobody is notified yet. *)
Definition making (k m : nat) w : Prop :=
  apart main_thread w ∧ ¬ notified w ∧ length (objects w) = k ∧ length (created w) = m.

(** The threads of the objects from [j] on have ended. *)
Definition joined j w : Prop :=
  notified w ∧ apart main_thread w ∧ length (created w) = n ∧
  ∀ t i, created w !! i = Some (t, i) → (j ≤ i)%nat → t ∈ exited w.

Inductive at_controller : nat → code world unit → (world → Prop) → Prop :=
  | at_push k func param ps' : drop k ps = (func, param) :: ps' →
      at_controller (4 * n + 6 + 2 * length ps') (create_all k ((func, param) :: ps');; rest) (making k k)
  | at_create k func param ps' : drop k ps = (func, param) :: ps' →
      at_controller (4 * n + 5 + 2 * length ps') ((create_one k;; create_all (S k) ps');; rest) (making (S k) k)
  | at_notify : at_controller (4 * n + 4) rest (making n n)
  | at_notify_write :
      at_controller (4 * n + 3)
        (on_notification (write (set_notified true);; _ ← mutex_unlock main_thread; mret ());; tail)
        (λ w, holds main_thread w ∧ ¬ notified w ∧ length (created w) = n)
  | at_notify_unlock :
      at_controller (4 * n + 2) (on_notification (_ ← mutex_unlock main_thread; mret ());; tail)
        (λ w, holds main_thread w ∧ notified w ∧ length (created w) = n)
  | at_join j : (j < n)%nat →
      at_controller (4 * j + 5) (destroy_all (S j);; on_notification delete_Notification) (joined (S j))
  | at_join_thread j o : (j < n)%nat →
      at_controller (4 * j + 4) (destroying (join_thread j o) j)
        (λ w, joined (S j) w ∧ ∃ t, thread_ o = Some t ∧ created w !! j = Some (t, j))
  | at_join_wait j t : (j < n)%nat →
      at_controller (4 * j + 3) (destroying (join_wait j t) j)
        (λ w, joined (S j) w ∧ created w !! j = Some (t, j))
  | at_join_write j : (j < n)%nat →
      at_controller (4 * j + 2) (destroying (join_write j) j) (joined j)
  | at_delete : at_controller 1 (on_notification delete_Notification) (joined 0)
  | at_done : at_controller 0 (Finished ()) (joined 0).

(** What holds of the world whoever runs. *)
Record world_ok w : Prop := WorldOk {
  ok_created i t j : created w !! i = Some (t, j) → i = j ∧ ∃ o, objects w !! i = Some o ∧ thread_ o = Some t;
  ok_objects i o : objects w !! i = Some o → ∃ func param, ps !! i = Some (func, param) ∧ given func param o ∧
    (finished_ o = true → ∃ t, created w !! i = Some (t, i) ∧ t ∈ exited w);
  ok_threads : NoDup (main_thread :: (created w).*1);
  ok_exited t : t ∈ exited w → t ∈ (created w).*1;
  ok_log i : (length (created w) ≤ i)%nat → log i w = [];
  ok_holder t : holds t w → t ∈ main_thread :: (created w).*1;
  ok_apart t : t ∈ exited w → apart t w;
}.

(** What a step of the controller may do to what the threads know. *)
Record controller_change w w' : Prop := ControllerChange {
  cc_mutex : mutex_change main_thread w w';
  cc_notified : notified w → notified w';
  cc_calls : calls w' = calls w;
  cc_exited : exited w' = exited w;
  cc_objects i func param o : objects w !! i = Some o → given func param o →
    ∃ o', objects w' !! i = Some o' ∧ given func param o';
  cc_created : created w' = created w ∨
    ¬ notified w ∧ ∃ t, created w' = created w ++ [(t, length (created w))] ∧ t ∉ main_thread :: (created w).*1;
}.

Lemma controller_change_rely t i w w' : controller_change w w' → t ≠ main_thread → rely t i w w'.
Proof.
  intros [Hm Hn Hc _ Ho _] Ht. destruct (mutex_rely _ _ _ _ Hm Ht). split_and!; [done..| |by eauto].
  unfold log. by rewrite Hc.
Qed.

Lemma controller_rely rc c P t i w w' :
  at_controller rc c P → worker_change t i w w' → t ≠ main_thread → P w → P w'.
Proof.
  intros Hc [Hm Hn Ho Hcr He _] Ht. destruct (mutex_rely _ main_thread _ _ Hm ltac:(done)) as [Hh Ha].
  destruct Hc; unfold making, joined, notified in *; rewrite ?Hn ?Ho ?Hcr ?He; naive_solver.
Qed.

Lemma controller_exit rc c P t w : at_controller rc c P → P w → P (add_exited t w).
Proof.
  assert (∀ j, joined j w → joined j (add_exited t w)) as Hj.
  { intros j (? & ? & ? & Hex). split_and!; [done..|]. intros u i Hu Hi. right. by eapply Hex. }
  destruct 1; cbn; try done; naive_solver.
Qed.

Lemma drop_lookup k func param (ps' : list (F * T)) :
  drop k ps = (func, param) :: ps' → ps !! k = Some (func, param) ∧ drop (S k) ps = ps' ∧ (k < n)%nat.
Proof.
  intros Hd. assert (ps !! k = Some (func, param)) as Hk by by rewrite -(Nat.add_0_r k) -lookup_drop Hd.
  split_and!; [done| |by eapply lookup_lt_Some]. by rewrite -Nat.add_1_r -drop_drop Hd.
Qed.

(** The code that makes the objects from [k] on, or notifies when there are none. *)
Lemma at_create_all k ps' : drop k ps = ps' → (k ≤ n)%nat → ∃ rc P,
  at_controller rc (create_all k ps';; rest) P ∧ (rc ≤ 4 * n + 4 + 2 * length ps')%nat ∧ (∀ w, making k k w → P w).
Proof.
  intros Hd Hk. destruct ps' as [|[func param] ps'].
  - assert (k = n) as -> by (apply (f_equal length) in Hd; rewrite length_drop /= in Hd; lia).
    eexists _, _. split; [apply at_notify|]. cbn. split; [lia|done].
  - eexists _, _. split; [by apply at_push|]. cbn. split; [lia|done].
Qed.

(** The code that destroys the objects below [j], or the notification. *)
Lemma at_destroy_all j : (j ≤ n)%nat → ∃ rc P,
  at_controller rc (destroy_all j;; on_notification delete_Notification) P ∧ (rc ≤ 4 * j + 1)%nat ∧ (∀ w, joined j w → P w).
Proof.
  intros Hj. destruct j as [|j].
  - eexists _, _. split; [apply at_delete|]. split; [lia|done].
  - eexists _, _. split; [by apply at_join|]. split; [lia|done].
Qed.

Lemma ok_push w k func param :
  world_ok w → length (objects w) = k → ps !! k = Some (func, param) →
  world_ok (set_objects (λ os, os ++ [MkThreadWithParam func param true false None]) w).
Proof.
  intros [Hc Ho Ht He Hl Hh Hx] Hlen Hk. split; cbn; try done.
  - intros i t j Hi. destruct (Hc _ _ _ Hi) as (-> & o & Hoi & Hto). split; [done|].
    exists o. split; [|done]. by apply lookup_app_l_Some.
  - intros i o [Hi|[Hle Hi]]%lookup_app_Some; [by apply Ho|].
    apply list_lookup_singleton_Some in Hi as [Hi <-]. assert (i = k) as -> by lia. by exists func, param.
Qed.

Lemma ok_create w k t o :
  world_ok w → length (created w) = k → objects w !! k = Some o → t ∉ main_thread :: (created w).*1 →
  world_ok (add_created t k (set_objects (alter (λ o, MkThreadWithParam (func_ o) (param_ o)
    (thread_can_start_ o) (finished_ o) (Some t)) k) w)).
Proof.
  intros [Hc Ho Ht He Hl Hh Hx] Hlen Hk Hnew. split; cbn.
  - intros i u j [Hi|[Hi Hi']]%lookup_app_Some.
    + destruct (Hc _ _ _ Hi) as (-> & o' & Hoi & Hto). split; [done|]. exists o'. split; [|done].
      rewrite list_lookup_alter_ne //. apply lookup_lt_Some in Hi. lia.
    + apply list_lookup_singleton_Some in Hi' as [Hi' [= <- <-]]. split; [lia|]. assert (i = k) as -> by lia.
      rewrite list_lookup_alter_eq Hk. by eexists.
  - intros i o' Hi. destruct (decide (k = i)) as [->|Hne].
    + rewrite list_lookup_alter_eq Hk in Hi. injection Hi as <-.
      destruct (Ho _ _ Hk) as (func & param & Hps & Hg & Hfin). exists func, param. split_and!; [done..|].
      cbn. intros (u & Hu & _)%Hfin. apply lookup_lt_Some in Hu. lia.
    + rewrite list_lookup_alter_ne // in Hi. destruct (Ho _ _ Hi) as (func & param & Hps & Hg & Hfin).
      exists func, param. split_and!; [done..|]. intros (u & Hu & Hex)%Hfin. exists u. split; [|done].
      by apply lookup_app_l_Some.
  - rewrite fmap_app /=. rewrite app_comm_cons NoDup_app. split_and!; [done| |apply NoDup_singleton].
    intros u Hu ->%list_elem_of_singleton. done.
  - intros u Hu. rewrite fmap_app elem_of_app. left. by apply He.
  - intros i. rewrite length_app /=. intros Hi. apply Hl. lia.
  - intros u Hu. rewrite fmap_app app_comm_cons elem_of_app. left. by apply Hh.
  - done.
Qed.

Lemma exited_not_main w t : world_ok w → t ∈ exited w → t ≠ main_thread.
Proof.
  intros Hok Ht%(ok_exited _ Hok) ->. by destruct (NoDup_cons_1_1 _ _ (ok_threads _ Hok)).
Qed.

Lemma ok_notification w m :
  world_ok w → mutex_change main_thread w (set_notification m w) → world_ok (set_notification m w).
Proof.
  intros Hok Hm. pose proof Hok as [Hc Ho Ht He Hl Hh Hx]. split; try done.
  - intros t Hht. destruct Hm as [Hm|[[_ Hm]|[_ Hm]]]; unfold holds in *; cbn in *.
    + apply Hh. congruence.
    + assert (t = main_thread) as -> by congruence. set_solver.
    + congruence.
  - intros t Htx. destruct (mutex_rely _ t _ _ Hm (exited_not_main _ _ Hok Htx)) as [_ Ha]. by apply Ha, Hx.
Qed.

Lemma ok_finish w j t :
  world_ok w → created w !! j = Some (t, j) → t ∈ exited w →
  world_ok (set_objects (alter (λ o, MkThreadWithParam (func_ o) (param_ o) (thread_can_start_ o) true (thread_ o)) j) w).
Proof.
  intros [Hc Ho Ht He Hl Hh Hx] Hj Hex. split; cbn; try done.
  - intros i u k Hi. destruct (Hc _ _ _ Hi) as (-> & o & Hoi & Hto). split; [done|].
    destruct (decide (j = k)) as [->|Hne]; [rewrite list_lookup_alter_eq|rewrite list_lookup_alter_ne //]; rewrite Hoi; by eexists.
  - intros i o Hi. destruct (decide (j = i)) as [->|Hne].
    + rewrite list_lookup_alter_eq in Hi. apply fmap_Some in Hi as (o' & Ho' & ->).
      destruct (Ho _ _ Ho') as (func & param & Hps & Hg & _). exists func, param. split_and!; [done..|]. eauto.
    + rewrite list_lookup_alter_ne // in Hi. by apply Ho.
Qed.

(** A step of the controller went well: it leads to the next point, with a smaller rank. *)
Definition advances (rc : nat) w (r : outcome (code world unit)) w' : Prop :=
  ∃ c' rc' P', r = Done c' ∧ at_controller rc' c' P' ∧ P' w' ∧ (rc' < rc)%nat ∧ world_ok w' ∧ controller_change w w'.

Lemma notification_controller_change w m :
  mutex_change main_thread w (set_notification m w) → (notified w → notified_ m = true) →
  controller_change w (set_notification m w).
Proof. intros Hm Hn. split; cbn; try done; [by eauto|by left]. Qed.

Lemma objects_controller_change w f :
  (∀ i func param o, objects w !! i = Some o → given func param o →
    ∃ o', f (objects w) !! i = Some o' ∧ given func param o') →
  controller_change w (set_objects f w).
Proof. intros Hf. split; cbn; try done; by left. Qed.

Lemma alter_given (os : list ThreadWithParam) (f : ThreadWithParam → ThreadWithParam) j i func param o :
  (∀ o, given func param o → given func param (f o)) →
  os !! i = Some o → given func param o → ∃ o', alter f j os !! i = Some o' ∧ given func param o'.
Proof.
  intros Hf Hi Hg. destruct (decide (j = i)) as [->|Hne].
  - rewrite list_lookup_alter_eq Hi. eexists. by split; [|apply Hf].
  - rewrite list_lookup_alter_ne // Hi. by eexists.
Qed.

Lemma push_step k func param ps' w :
  drop k ps = (func, param) :: ps' → making k k w → world_ok w →
  advances (4 * n + 6 + 2 * length ps') w (Done ((create_one k;; create_all (S k) ps');; rest))
    (set_objects (λ os, os ++ [MkThreadWithParam func param true false None]) w).
Proof.
  intros Hd (Ha & Hn & Ho & Hcr) Hok. destruct (drop_lookup _ _ _ _ Hd) as (Hk & _ & _).
  eexists _, _, _. split; [done|]. split; [by apply (at_create _ _ _ _ Hd)|]. split_and!; [|lia| |].
  - split_and!; [done..| |done]. by rewrite /= length_app Ho Nat.add_1_r.
  - by apply (ok_push _ k).
  - apply objects_controller_change. intros i f p o Hi Hg. exists o. split; [|done]. by apply lookup_app_l_Some.
Qed.

Lemma create_step k func param ps' w r w' :
  drop k ps = (func, param) :: ps' → making (S k) k w → world_ok w →
  code_step ((create_one k;; create_all (S k) ps');; rest) w = Some (r, w') →
  advances (4 * n + 5 + 2 * length ps') w r w'.
Proof.
  intros Hd (Ha & Hn & Ho & Hcr) Hok Hs. destruct (drop_lookup _ _ _ _ Hd) as (Hk & Hd' & Hlt).
  destruct (lookup_lt_is_Some_2 (objects w) k) as [o Hko]; [lia|].
  cbn in Hs. destruct (create_new (created w).*1) as [Hz Hnew].
  destruct (pthread_create (created w).*1) as [z t]. cbn in Hz, Hnew. subst z.
  rewrite bool_decide_true //= in Hs. injection Hs as <- <-.
  destruct (at_create_all (S k) ps' Hd' ltac:(lia)) as (rc & P & Hat & Hrc & HP).
  eexists _, _, _. split; [done|]. split; [exact Hat|]. split_and!; [|lia|by eapply ok_create|].
  - apply HP. split_and!; [done..| |].
    + by rewrite /= length_alter.
    + rewrite /= length_app /=. lia.
  - split; cbn; try done; [by left| |].
    + intros i f p o' Hi Hg. eapply alter_given; [by intros ? (? & ? & ?)|done..].
    + right. split; [done|]. exists t. by rewrite Hcr.
Qed.

Lemma notify_step w r w' :
  making n n w → world_ok w → code_step rest w = Some (r, w') → advances (4 * n + 4) w r w'.
Proof.
  intros (Ha & Hn & Ho & Hcr) Hok Hs. cbn in Hs.
  destruct (pthread_mutex_lock _ _) as [[z m]|] eqn:Hm; [|done]. cbn in Hs. simplify_eq.
  destruct (lock_some _ _ _ _ Hm Ha) as (Hf & _ & Hh).
  eexists _, _, _. split; [done|]. split; [apply at_notify_write|]. split_and!; [done..|lia| |].
  - apply ok_notification; [done|]. right. left. by split.
  - apply notification_controller_change; [right; left; by split|done].
Qed.

Lemma notify_write_step w :
  holds main_thread w → length (created w) = n → world_ok w →
  advances (4 * n + 3) w (Done (on_notification (_ ← mutex_unlock main_thread; mret ());; tail))
    (set_notification (set_notified true (notification w)) w).
Proof.
  intros Hh Hcr Hok. eexists _, _, _. split; [done|]. split; [apply at_notify_unlock|]. split_and!; [done..|lia| |].
  - apply ok_notification; [done|]. by left.
  - apply notification_controller_change; [by left|done].
Qed.

Lemma notify_unlock_step w r w' :
  holds main_thread w → notified w → length (created w) = n → world_ok w →
  code_step (on_notification (_ ← mutex_unlock main_thread; mret ());; tail) w = Some (r, w') →
  advances (4 * n + 2) w r w'.
Proof.
  intros Hh Hn Hcr Hok Hs. cbn in Hs. destruct (unlock_held _ _ Hh) as (m & Hm & Hm'). rewrite Hm /= in Hs. simplify_eq.
  destruct (at_destroy_all n ltac:(done)) as (rc & P & Hat & Hrc & HP).
  eexists _, _, _. split; [done|]. split; [exact Hat|]. split_and!; [|lia| |].
  - apply HP. split_and!; [done| |done|].
    + unfold apart. cbn. by rewrite Hm'.
    + intros t i Hi%lookup_lt_Some Hle. cbn in Hi. lia.
  - apply ok_notification; [done|]. right. right. by split.
  - apply notification_controller_change; [right; right; by split|done].
Qed.

Lemma join_step j w r w' :
  (j < n)%nat → joined (S j) w → world_ok w →
  code_step (destroy_all (S j);; on_notification delete_Notification) w = Some (r, w') →
  advances (4 * j + 5) w r w'.
Proof.
  intros Hj (Hn & Ha & Hcr & Hex) Hok Hs. destruct (lookup_lt_is_Some_2 (created w) j) as [[t i] Ht]; [lia|].
  destruct (ok_created _ Hok _ _ _ Ht) as (<- & o & Ho & Hto). cbn in Hs. rewrite Ho /= in Hs.
  assert (controller_change w w) as Hch.
  { split; try done; [by left|eauto|by left]. }
  destruct (finished_ o) eqn:Hfin; injection Hs as <- <-.
  - destruct (at_destroy_all j ltac:(lia)) as (rc & P & Hat & Hrc & HP).
    eexists _, _, _. split; [done|]. split; [exact Hat|]. split_and!; [|lia|done|done].
    apply HP. split_and!; [done..|]. intros u i Hu Hi. destruct (decide (i = j)) as [->|Hne]; [|apply (Hex u i Hu); lia].
    destruct (ok_objects _ Hok _ _ Ho) as (func & param & _ & _ & Hf). destruct (Hf Hfin) as (u' & Hu' & He). congruence.
  - eexists _, _, _. split; [done|]. split; [by apply (at_join_thread j o)|]. split_and!; [by split_and!|by exists t|lia|done..].
Qed.

Lemma join_wait_step j t w r w' :
  (j < n)%nat → joined (S j) w → created w !! j = Some (t, j) → world_ok w →
  code_step (destroying (join_wait j t) j) w = Some (r, w') → advances (4 * j + 3) w r w'.
Proof.
  intros Hj (Hn & Ha & Hcr & Hex) Ht Hok Hs. cbn in Hs. case_bool_decide as Hexit; [|done]. injection Hs as <- <-.
  eexists _, _, _. split; [done|]. split; [by apply (at_join_write j)|]. split_and!; [|lia|done|].
  - split_and!; [done..|]. intros u i Hu Hi. destruct (decide (i = j)) as [->|Hne]; [congruence|apply (Hex u i Hu); lia].
  - split; try done; [by left|eauto|by left].
Qed.

Lemma join_write_step j w :
  (j < n)%nat → joined j w → world_ok w →
  advances (4 * j + 2) w (Done (destroy_all j;; on_notification delete_Notification))
    (set_objects (alter (λ o, MkThreadWithParam (func_ o) (param_ o) (thread_can_start_ o) true (thread_ o)) j) w).
Proof.
  intros Hj (Hn & Ha & Hcr & Hex) Hok. destruct (lookup_lt_is_Some_2 (created w) j) as [[t i] Ht]; [lia|].
  destruct (ok_created _ Hok _ _ _ Ht) as (<- & o & Ho & Hto).
  destruct (at_destroy_all j ltac:(lia)) as (rc & P & Hat & Hrc & HP).
  eexists _, _, _. split; [done|]. split; [exact Hat|]. split_and!; [by apply HP|lia| |].
  - apply (ok_finish _ _ t); [done..|]. by apply (Hex t j).
  - apply objects_controller_change. intros i func param o' Hi Hg. eapply alter_given; [by intros ? (? & ? & ?)|done..].
Qed.

(** When all threads have ended nobody has the mutex. *)
Lemma joined_free w : joined 0 w → world_ok w → holder (mutex_ (notification w)) = None.
Proof.
  intros (_ & Ha & _ & Hex) Hok. destruct (holder (mutex_ (notification w))) as [t|] eqn:Hh; [|done].
  destruct (proj1 (elem_of_cons _ _ _) (ok_holder _ Hok t Hh)) as [->|Ht]; [done|].
  apply list_elem_of_fmap in Ht as ([u i] & -> & [k Hk]%list_elem_of_lookup_1).
  destruct (ok_created _ Hok _ _ _ Hk) as [-> _]. by destruct (ok_apart _ Hok u (Hex _ _ Hk ltac:(lia))).
Qed.

Lemma delete_step w r w' :
  joined 0 w → world_ok w → code_step (on_notification delete_Notification) w = Some (r, w') → advances 1 w r w'.
Proof.
  intros Hj Hok Hs. pose proof (joined_free _ Hj Hok) as Hf. destruct (destroy_free _ Hf) as [_ Hf'].
  cbn in Hs. destruct (pthread_mutex_destroy _) as [z m]. cbn in Hs, Hf'. injection Hs as <- <-.
  assert (mutex_change main_thread w (set_notification (set_mutex m (notification w)) w)) as Hm.
  { left. cbn. congruence. }
  eexists _, _, _. split; [done|]. split; [apply at_done|]. split_and!; [|lia| |].
  - destruct Hj as (? & Ha & ? & ?). split_and!; [done| |done..]. unfold apart. cbn. by rewrite Hf'.
  - by apply ok_notification.
  - by apply notification_controller_change.
Qed.

Lemma controller_step rc c P w r w' :
  at_controller rc c P → P w → world_ok w → code_step c w = Some (r, w') → advances rc w r w'.
Proof.
  intros Hc HP Hok Hs. destruct Hc as [k func param ps' Hd|k func param ps' Hd| | | |j Hj|j o Hj|j t Hj|j Hj| |].
  - cbn in Hs. injection Hs as <- <-. by apply push_step.
  - by eapply create_step.
  - by eapply notify_step.
  - cbn in Hs. injection Hs as <- <-. destruct HP as (? & _ & ?). by apply notify_write_step.
  - destruct HP as (? & ? & ?). by eapply notify_unlock_step.
  - by eapply join_step.
  - destruct HP as (HP & t & Ht & Hcr). cbn in Hs. rewrite Ht /= in Hs. injection Hs as <- <-.
    eexists _, _, _. split; [done|]. split; [by apply (at_join_wait j t)|]. split_and!; [done..|lia|done|].
    split; try done; [by left|eauto|by left].
  - destruct HP. by eapply join_wait_step.
  - cbn in Hs. injection Hs as <- <-. by apply join_write_step.
  - by eapply delete_step.
  - done.
Qed.

(** The controller waits for the mutex, when it notifies, or for a thread, when it joins. *)
Lemma controller_progress rc c P w :
  at_controller rc c P → P w → world_ok w →
  c = Finished () ∨ is_Some (code_step c w) ∨
  c = rest ∧ (∃ u, u ≠ main_thread ∧ holds u w) ∨
  notified w ∧ apart main_thread w ∧ ∃ t i, created w !! i = Some (t, i) ∧ t ∉ exited w.
Proof.
  intros Hc HP Hok. destruct Hc as [k func param ps' Hd|k func param ps' Hd| | | |j Hj|j o Hj|j t Hj|j Hj| |]; cbn;
    try (by left); try (right; left; by eexists).
  - right. left. destruct (pthread_create _). by eexists.
  - destruct HP as (Ha & Hn & _). destruct (holder (mutex_ (notification w))) as [u|] eqn:Hh.
    + right. right. left. split; [done|]. exists u. split; [|done]. intros ->. by apply Ha.
    + right. left. destruct (lock_free main_thread _ Hh) as (m & -> & _). by eexists.
  - right. left. destruct (pthread_mutex_unlock _ _). by eexists.
  - right. left. destruct (or_ub _ _ _). by eexists.
  - right. left. destruct (or_ub _ _ _). by eexists.
  - destruct HP as ((Hn & Ha & _) & Ht). case_bool_decide; [right; left; by eexists|].
    right. right. right. split_and!; [done..|]. by exists t, j.
  - right. left. destruct (pthread_mutex_destroy _). by eexists.
Qed.

(** * All threads together *)

(** A created thread, not yet begun, in Run, or ended. *)
Definition worker_ok w t i (oc : option (code world unit)) (rank : nat) : Prop :=
  match oc with
  | None => rank = 21%nat ∧ apart t w ∧ log i w = [] ∧ t ∉ exited w
  | Some c => ∃ func param k P, ps !! i = Some (func, param) ∧ at_worker t i func param k c P ∧ P w ∧
      if decide (t ∈ exited w) then c = Finished () ∧ rank = 0%nat else rank = k
  end.

Record inv (cfg : config) (rc : nat) (ranks : nat → nat) : Prop := Inv {
  inv_controller : ∃ P, at_controller rc (controller cfg) P ∧ P (shared cfg);
  inv_world : world_ok (shared cfg);
  inv_worker i t : created (shared cfg) !! i = Some (t, i) → worker_ok (shared cfg) t i (workers cfg !! t) (ranks i);
  inv_known t c : workers cfg !! t = Some c → t ∈ (created (shared cfg)).*1;
}.

Definition set_rank i k (ranks : nat → nat) : nat → nat := λ j, if decide (j = i) then k else ranks j.

Lemma worker_ok_rely w w' t i oc rank :
  rely t i w w' → (t ∈ exited w' ↔ t ∈ exited w) → worker_ok w t i oc rank → worker_ok w' t i oc rank.
Proof.
  intros Hr He. destruct oc as [c|]; cbn.
  - intros (func & param & k & P & Hps & Hc & HP & Hk). exists func, param, k, P.
    split_and!; [done..|by eapply worker_rely|]. by destruct (decide (t ∈ exited w)), (decide (t ∈ exited w')); try tauto.
  - destruct Hr as (_ & Ha & _ & Hl & _). intros (? & ? & ? & ?). rewrite Hl. naive_solver.
Qed.

Lemma created_lookup w t : world_ok w → t ∈ (created w).*1 → ∃ i, created w !! i = Some (t, i).
Proof.
  intros Hok ([u i] & -> & [k Hk]%list_elem_of_lookup_1)%list_elem_of_fmap.
  destruct (ok_created _ Hok _ _ _ Hk) as [-> _]. by exists i.
Qed.

Lemma created_same w t i j : world_ok w → created w !! i = Some (t, i) → created w !! j = Some (t, j) → i = j.
Proof.
  intros Hok Hi Hj. apply (NoDup_lookup (created w).*1 i j t); [|by rewrite list_lookup_fmap ?Hi ?Hj..].
  by apply NoDup_cons_1_2 with (x := main_thread), ok_threads.
Qed.

Lemma created_not_main w t i : world_ok w → created w !! i = Some (t, i) → t ≠ main_thread.
Proof.
  intros Hok Hi ->. destruct (NoDup_cons_1_1 _ _ (ok_threads _ Hok)). apply list_elem_of_fmap.
  exists (main_thread, i). split; [done|]. by eapply list_elem_of_lookup_2.
Qed.

Lemma ok_worker t i w w' :
  worker_change t i w w' → created w !! i = Some (t, i) → t ∉ exited w → world_ok w → world_ok w'.
Proof.
  intros [Hm Hn Ho Hcr He Hlog] Hi Hte Hok. pose proof Hok as [Hc Hob Ht Hex Hl Hh Hx].
  split; rewrite ?Ho ?Hcr ?He; try done.
  - intros j Hj. rewrite Hlog; [|by apply Hl]. intros ->. apply lookup_lt_Some in Hi. lia.
  - intros u Hu. destruct Hm as [Hm|[[_ Hm]|[_ Hm]]]; unfold holds in *.
    + apply Hh. congruence.
    + assert (u = t) as -> by congruence. apply list_elem_of_further, list_elem_of_fmap. exists (t, i).
      split; [done|]. by eapply list_elem_of_lookup_2.
    + congruence.
  - intros u Hu. eapply (mutex_rely _ u); [exact Hm| |by apply Hx]. by intros ->.
Qed.

(** A step of one thread, or of its surroundings, keeps what the others are. *)
Lemma inv_update cfg rc ranks t i oc w k :
  inv cfg rc ranks → created (shared cfg) !! i = Some (t, i) →
  created w = created (shared cfg) → world_ok w →
  (∃ P, at_controller rc (controller cfg) P ∧ P w) →
  (∀ u j, u ≠ t → j ≠ i → rely u j (shared cfg) w) → (∀ u, u ≠ t → u ∈ exited w ↔ u ∈ exited (shared cfg)) →
  worker_ok w t i (Some oc) k → inv (Config (controller cfg) (<[t := oc]> (workers cfg)) w) rc (set_rank i k ranks).
Proof.
  intros [Hc Hok Hw Hk] Hi Hcr Hok' Hc' Hr He Hnew. split; cbn; [done|done| |].
  - intros j u. rewrite Hcr. intros Hj. unfold set_rank. case_decide as Hji.
    + subst j. assert (u = t) as -> by congruence. by rewrite lookup_insert_eq.
    + assert (u ≠ t) as Hut by (intros ->; by apply Hji, (created_same _ _ _ _ Hok Hj)).
      rewrite lookup_insert_ne //. eapply worker_ok_rely; [by apply Hr|by apply He|by apply Hw].
  - intros u c. rewrite Hcr lookup_insert_Some. intros [[<- _]|[_ Hu]]; [|by eapply Hk].
    apply list_elem_of_fmap. exists (t, i). split; [done|]. by eapply list_elem_of_lookup_2.
Qed.

Lemma inv_begin cfg rc ranks t i :
  inv cfg rc ranks → created (shared cfg) !! i = Some (t, i) → workers cfg !! t = None →
  ranks i = 21%nat ∧
  inv (Config (controller cfg) (<[t := ThreadFuncWithCLinkage t i]> (workers cfg)) (shared cfg)) rc (set_rank i 20 ranks).
Proof.
  intros Hinv Hi Hn. pose proof (inv_worker _ _ _ Hinv _ _ Hi) as Hw. rewrite Hn in Hw. destruct Hw as (Hr & Ha & Hl & He).
  split; [done|]. pose proof (inv_world _ _ _ Hinv) as Hok.
  apply inv_update; [done..|apply Hinv|by intros; split_and!; eauto|done|].
  destruct (ok_created _ Hok _ _ _ Hi) as (_ & o & Ho & _).
  destruct (ok_objects _ Hok _ _ Ho) as (func & param & Hps & Hg & _).
  exists func, param, 20%nat. eexists. split; [done|]. split; [apply at_run|].
  split; [split_and!; [done..|by exists o]|]. by rewrite decide_False.
Qed.

Lemma inv_worker_step cfg rc ranks t i c r w :
  inv cfg rc ranks → created (shared cfg) !! i = Some (t, i) → workers cfg !! t = Some c →
  code_step c (shared cfg) = Some (r, w) →
  ∃ c' k, r = Done c' ∧ (notified (shared cfg) → notified w ∧ k < ranks i)%nat ∧ created w = created (shared cfg) ∧
    inv (Config (controller cfg) (<[t := c']> (workers cfg)) w) rc (set_rank i k ranks).
Proof.
  intros Hinv Hi Hc Hs. pose proof (inv_worker _ _ _ Hinv _ _ Hi) as Hw. rewrite Hc in Hw.
  destruct Hw as (func & param & k & P & Hps & Hat & HP & Hk).
  destruct (worker_step _ _ _ _ _ _ _ _ _ _ Hat HP Hs) as (c' & k' & P' & -> & Hat' & HP' & Hlt & Hch).
  destruct (decide (t ∈ exited (shared cfg))) as [|He]; [destruct Hk as [-> _]; done|]. subst k.
  pose proof (inv_world _ _ _ Hinv) as Hok. pose proof (created_not_main _ _ _ Hok Hi) as Hm.
  exists c', k'. split; [done|]. split; [|split; [apply Hch|]].
  { intros Hn. split; [|by apply Hlt]. unfold notified. by rewrite (wc_notified _ _ _ _ Hch). }
  apply inv_update; [done|done|apply Hch|by eapply ok_worker| |by intros; eapply worker_change_rely|by rewrite (wc_exited _ _ _ _ Hch)|].
  - destruct (inv_controller _ _ _ Hinv) as (Q & Hcat & HQ). exists Q. split; [done|]. by eapply controller_rely.
  - exists func, param, k', P'. split_and!; [done..|]. by rewrite decide_False // (wc_exited _ _ _ _ Hch).
Qed.

Lemma inv_exit cfg rc ranks t i :
  inv cfg rc ranks → created (shared cfg) !! i = Some (t, i) → workers cfg !! t = Some (Finished ()) →
  t ∉ exited (shared cfg) →
  ranks i = 4%nat ∧ inv (Config (controller cfg) (workers cfg) (add_exited t (shared cfg))) rc (set_rank i 0 ranks).
Proof.
  intros Hinv Hi Hc He. pose proof (inv_worker _ _ _ Hinv _ _ Hi) as Hw. rewrite Hc in Hw.
  destruct Hw as (func & param & k & P & Hps & Hat & HP & Hk). rewrite decide_False // in Hk. subst k.
  inversion Hat as [| | | | | | | |Hr HPe]; subst. split; [done|]. cbn in HP.
  pose proof (inv_world _ _ _ Hinv) as Hok.
  rewrite -(insert_id (workers cfg) t (Finished ())) //.
  apply inv_update; [done|done|done| | |by intros; split_and!; eauto| |].
  - destruct Hok as [Hcr Hob Hnd Hexc Hlg Hho Hap]. split; cbn; try done.
    + intros j o (f & p & ? & ? & Hf)%Hob. exists f, p. split_and!; [done..|]. intros (u & ? & ?)%Hf. exists u. split; [done|by right].
    + intros u [->|?]%elem_of_cons; [|by apply Hexc]. apply list_elem_of_fmap. exists (t, i).
      split; [done|]. by eapply list_elem_of_lookup_2.
    + intros u [->|?]%elem_of_cons; [by destruct HP|by apply Hap].
  - destruct (inv_controller _ _ _ Hinv) as (Q & Hcat & HQ). exists Q. split; [done|]. by eapply controller_exit.
  - intros u Hu. cbn. rewrite elem_of_cons. naive_solver.
  - exists func, param, 4%nat. eexists. split; [done|]. split; [apply at_end|]. split; [done|].
    rewrite decide_True //. by left.
Qed.

Lemma inv_controller_step cfg rc ranks r w :
  inv cfg rc ranks → code_step (controller cfg) (shared cfg) = Some (r, w) →
  ∃ c rc' ranks', r = Done c ∧ (rc' < rc)%nat ∧ inv (Config c (workers cfg) w) rc' ranks' ∧
    (notified (shared cfg) → notified w ∧ ranks' = ranks ∧ created w = created (shared cfg)).
Proof.
  intros Hinv Hs. destruct (inv_controller _ _ _ Hinv) as (P & Hat & HP). pose proof (inv_world _ _ _ Hinv) as Hok.
  destruct (controller_step _ _ _ _ _ _ Hat HP Hok Hs) as (c & rc' & P' & -> & Hat' & HP' & Hlt & Hok' & Hch).
  assert (∀ i t rank, created (shared cfg) !! i = Some (t, i) → worker_ok (shared cfg) t i (workers cfg !! t) rank →
    worker_ok w t i (workers cfg !! t) rank) as Hold.
  { intros i t rank Hi. apply worker_ok_rely; [|by rewrite (cc_exited _ _ Hch)].
    apply controller_change_rely; [done|exact (created_not_main _ _ _ Hok Hi)]. }
  destruct (cc_created _ _ Hch) as [Hcr|(Hn & t & Hcr & Hnew)].
  - exists c, rc', ranks. split_and!; [done..| |intros Hn; split_and!; [by apply Hch|done..]].
    split; cbn; [by exists P'|done| |].
    + intros i u. rewrite Hcr. intros Hi. by apply Hold, (inv_worker _ _ _ Hinv).
    + intros u c0. rewrite Hcr. by apply (inv_known _ _ _ Hinv).
  - exists c, rc', (set_rank (length (created (shared cfg))) 21 ranks). split_and!; [done..| |done].
    split; cbn; [by exists P'|done| |].
    + intros i u. rewrite Hcr. intros [Hi|[Hle Hi]]%lookup_app_Some.
      * unfold set_rank. rewrite decide_False; [intros ->; apply lookup_lt_Some in Hi; lia|].
        by apply Hold, (inv_worker _ _ _ Hinv).
      * apply list_lookup_singleton_Some in Hi as [_ [= <- <-]]. unfold set_rank. rewrite decide_True //.
        destruct (workers cfg !! t) as [c0|] eqn:Hc0.
        { apply (inv_known _ _ _ Hinv) in Hc0. by destruct Hnew; right. }
        cbn. unfold log. rewrite (cc_calls _ _ Hch) (cc_exited _ _ Hch). split_and!; [done| | |].
        -- intros Hh. destruct (mutex_rely _ t _ _ (cc_mutex _ _ Hch)) as [_ Ha]; [by intros ->; destruct Hnew; left|].
           revert Hh. apply Ha. by intros Hh%(ok_holder _ Hok).
        -- by apply (ok_log _ Hok).
        -- intros He%(ok_exited _ Hok). by destruct Hnew; right.
    + intros u c0 Hu%(inv_known _ _ _ Hinv). rewrite Hcr fmap_app elem_of_app. by left.
Qed.

Definition total (ranks : nat → nat) (m : nat) : nat := sum_list_with ranks (seq 0 m).

Lemma total_set i k ranks m : (i < m)%nat → (k < ranks i)%nat → (total (set_rank i k ranks) m < total ranks m)%nat.
Proof.
  intros Hi Hk. unfold total.
  assert (∀ l, i ∉ l → sum_list_with (set_rank i k ranks) l = sum_list_with ranks l) as Hout.
  { induction l as [|j l IH]; intros Hl; [done|]. cbn. rewrite IH; [set_solver|].
    f_equal. unfold set_rank. case_decide; [set_solver|done]. }
  replace m with (i + S (m - S i))%nat by lia. rewrite seq_app /= !sum_list_with_app /= !Hout.
  - rewrite elem_of_seq. lia.
  - rewrite elem_of_seq. lia.
  - unfold set_rank. rewrite decide_True //. lia.
Qed.

(** The invariant is kept, and after the notification every step brings the end nearer. *)
Lemma inv_step cfg cfg' rc ranks :
  inv cfg rc ranks → step cfg cfg' →
  ∃ rc' ranks', inv cfg' rc' ranks' ∧
    (notified (shared cfg) → notified (shared cfg') ∧
      rc' + total ranks' (length (created (shared cfg'))) < rc + total ranks (length (created (shared cfg))))%nat.
Proof.
  intros Hinv Hs. pose proof (inv_world _ _ _ Hinv) as Hok.
  destruct Hs as [c w Hs|t i Hi Hn|t c c' w Hc Hs|t Hc He].
  - destruct (inv_controller_step _ _ _ _ _ Hinv Hs) as (c' & rc' & ranks' & [= <-] & Hlt & Hinv' & Hn).
    exists rc', ranks'. split; [done|]. intros (? & -> & Hcr)%Hn. cbn. rewrite Hcr. split; [done|lia].
  - apply list_elem_of_lookup_1 in Hi as [j Hi]. destruct (ok_created _ Hok _ _ _ Hi) as [-> _].
    destruct (inv_begin _ _ _ _ _ Hinv Hi Hn) as [Hr Hinv']. eexists _, _. split; [exact Hinv'|].
    intros Hnt. split; [done|]. cbn. apply Nat.add_lt_mono_l, total_set; [by eapply lookup_lt_Some|lia].
  - destruct (created_lookup _ t Hok) as [i Hi]; [by eapply (inv_known _ _ _ Hinv)|].
    destruct (inv_worker_step _ _ _ _ _ _ _ _ Hinv Hi Hc Hs) as (c0 & k & [= <-] & Hn & Hcr & Hinv').
    eexists _, _. split; [exact Hinv'|]. intros [Hn' Hlt]%Hn. split; [done|]. cbn. rewrite Hcr.
    apply Nat.add_lt_mono_l, total_set; [by eapply lookup_lt_Some|lia].
  - destruct (created_lookup _ t Hok) as [i Hi]; [by eapply (inv_known _ _ _ Hinv)|].
    destruct (inv_exit _ _ _ _ _ Hinv Hi Hc He) as [Hr Hinv']. eexists _, _. split; [exact Hinv'|].
    intros Hnt. split; [done|]. cbn. apply Nat.add_lt_mono_l, total_set; [by eapply lookup_lt_Some|lia].
Qed.

(** * From the start to the end *)

Lemma inv_start n0 : new_Notification = Some n0 → ∃ rc ranks, inv (start n0 ps) rc ranks.
Proof.
  unfold new_Notification. intros Hn. rewrite bool_decide_true in Hn; [apply init_free|]. injection Hn as <-.
  destruct init_free as [_ Hf].
  destruct (at_create_all 0 ps (drop_0 _) ltac:(lia)) as (rc & P & Hat & _ & HP).
  exists rc, (λ _, 0%nat). split; cbn; try done.
  - exists P. split; [done|]. apply HP. split_and!; [|done..]. unfold apart. cbn. by rewrite Hf.
  - split; cbn; try done; [apply NoDup_singleton| |].
    + intros t Ht. unfold holds in Ht. cbn in Ht. congruence.
    + intros t Ht. by apply elem_of_nil in Ht.
Qed.

Lemma inv_reachable n0 cfg : new_Notification = Some n0 → rtc step (start n0 ps) cfg → ∃ rc ranks, inv cfg rc ranks.
Proof.
  intros Hn Hr. apply (rtc_keeps step (λ c, ∃ rc ranks, inv c rc ranks) _ _) in Hr; [done| |by apply inv_start].
  intros a b (rc & ranks & Hi) Hs. destruct (inv_step _ _ _ _ Hi Hs) as (rc' & ranks' & Hi' & _). by exists rc', ranks'.
Qed.

(** The thread that has the mutex unlocks it in at most two steps. *)
Lemma worker_releases t i func param k c P w :
  at_worker t i func param k c P → P w → holds t w →
  ∃ c1 w1, code_step c w = Some (Done c1, w1) ∧ (holder (mutex_ (notification w1)) = None ∨
    ∃ c2 w2, code_step c1 w1 = Some (Done c2, w2) ∧ holder (mutex_ (notification w2)) = None).
Proof.
  intros Hat HP Hh. destruct (unlock_held _ _ Hh) as (m & Hm & Hm').
  destruct Hat as [|o Ho|o Ho|o Ho|o b Ho|o Ho|o Ho| |]; cbn in *; try by destruct HP.
  - do 2 eexists. split; [done|]. right. cbn. rewrite Hm /=. by do 2 eexists.
  - rewrite Hm /=. do 2 eexists. split; [done|]. by left.
Qed.

Lemma worker_step_cfg cfg rc ranks t i c c' w :
  inv cfg rc ranks → created (shared cfg) !! i = Some (t, i) → workers cfg !! t = Some c →
  code_step c (shared cfg) = Some (Done c', w) →
  created w = created (shared cfg) ∧
  ∃ ranks', inv (Config (controller cfg) (<[t := c']> (workers cfg)) w) rc ranks'.
Proof.
  intros Hinv Hi Hc Hs. destruct (inv_worker_step _ _ _ _ _ _ _ _ Hinv Hi Hc Hs) as (c0 & k & [= <-] & _ & Hcr & Hinv').
  split; [done|]. by eexists.
Qed.

Lemma mutex_released cfg rc ranks u :
  inv cfg rc ranks → u ≠ main_thread → holds u (shared cfg) →
  ∃ cfg' ranks', rtc step cfg cfg' ∧ inv cfg' rc ranks' ∧ controller cfg' = controller cfg ∧
    holder (mutex_ (notification (shared cfg'))) = None.
Proof.
  intros Hinv Hu Hh. pose proof (inv_world _ _ _ Hinv) as Hok.
  destruct (proj1 (elem_of_cons _ _ _) (ok_holder _ Hok _ Hh)) as [|Hcr]; [done|].
  destruct (created_lookup _ _ Hok Hcr) as [i Hi]. pose proof (inv_worker _ _ _ Hinv _ _ Hi) as Hw.
  destruct (workers cfg !! u) as [c|] eqn:Hc; [|by destruct Hw as (_ & ? & _)].
  destruct Hw as (func & param & k & P & Hps & Hat & HP & _).
  destruct (worker_releases _ _ _ _ _ _ _ _ Hat HP Hh) as (c1 & w1 & Hs1 & Hrel).
  destruct (worker_step_cfg _ _ _ _ _ _ _ _ Hinv Hi Hc Hs1) as (Hcr1 & ranks1 & Hinv1).
  destruct Hrel as [Hn|(c2 & w2 & Hs2 & Hn)].
  - do 2 eexists. split; [by apply rtc_once, (step_worker _ u c)|]. by split_and!.
  - destruct (worker_step_cfg _ _ _ u i c1 c2 w2 Hinv1) as (_ & ranks2 & Hinv2); cbn;
      [by rewrite Hcr1|apply lookup_insert_eq|done|].
    do 2 eexists. split; [|by split_and!]. eapply rtc_l; [by apply (step_worker _ u c)|].
    apply rtc_once, (step_worker _ u c1); [apply lookup_insert_eq|done].
Qed.

(** Before the notification the controller is always able to come nearer to it. *)
Lemma controller_comes_nearer cfg rc ranks :
  inv cfg rc ranks → ¬ notified (shared cfg) →
  ∃ cfg' rc' ranks', rtc step cfg cfg' ∧ inv cfg' rc' ranks' ∧ (rc' < rc)%nat.
Proof.
  assert (∀ cfg ranks, inv cfg rc ranks → is_Some (code_step (controller cfg) (shared cfg)) →
    ∃ cfg' rc' ranks', rtc step cfg cfg' ∧ inv cfg' rc' ranks' ∧ (rc' < rc)%nat) as Hgo.
  { intros cfg0 ranks0 Hinv [[r w] Hs].
    destruct (inv_controller_step _ _ _ _ _ Hinv Hs) as (c & rc' & ranks' & -> & Hlt & Hinv' & _).
    eexists _, rc', ranks'. by split; [apply rtc_once, step_controller|]. }
  intros Hinv Hn. destruct (inv_controller _ _ _ Hinv) as (P & Hat & HP).
  destruct (controller_progress _ _ _ _ Hat HP (inv_world _ _ _ Hinv)) as [Hf|[Hs|[(Hc & u & Hu & Hh)|(Hn' & _)]]]; [| | |done].
  - rewrite Hf in Hat. inversion Hat; subst. by destruct HP.
  - by eapply Hgo.
  - destruct (mutex_released _ _ _ _ Hinv Hu Hh) as (cfg1 & ranks1 & Hr1 & Hinv1 & Hc1 & Hf1).
    destruct (Hgo _ _ Hinv1) as (cfg2 & rc' & ranks' & Hr2 & Hinv2 & Hlt).
    { rewrite Hc1 Hc. cbn. destruct (lock_free main_thread _ Hf1) as (m & -> & _). by eexists. }
    exists cfg2, rc', ranks'. split_and!; [by etrans|done..].
Qed.

Lemma notification_possible cfg rc ranks : inv cfg rc ranks → ∃ cfg', rtc step cfg cfg' ∧ notified (shared cfg').
Proof.
  revert cfg ranks. induction (lt_wf rc) as [rc _ IH]; intros cfg ranks Hinv.
  destruct (notified_ (notification (shared cfg))) eqn:Hn; [by exists cfg|].
  destruct (controller_comes_nearer _ _ _ Hinv) as (cfg1 & rc1 & ranks1 & Hr & Hinv1 & Hlt); [by unfold notified; rewrite Hn|].
  destruct (IH _ Hlt _ _ Hinv1) as (cfg2 & Hr2 & Hn2). exists cfg2. split; [by etrans|done].
Qed.

(** After the notification there is no infinite run. *)
Lemma run_ends cfg rc ranks : inv cfg rc ranks → notified (shared cfg) → sn step cfg.
Proof.
  remember (rc + total ranks (length (created (shared cfg))))%nat as m eqn:Hm. revert cfg rc ranks Hm.
  induction (lt_wf m) as [m _ IH]; intros cfg rc ranks -> Hinv Hn. constructor. intros cfg' Hs.
  destruct (inv_step _ _ _ _ Hinv Hs) as (rc' & ranks' & Hinv' & Hlt). destruct (Hlt Hn) as [Hn' Hlt'].
  by eapply (IH _ Hlt').
Qed.

(** A thread that has not ended can take a step, or the one that has the mutex can. *)
Lemma worker_not_stuck cfg rc ranks t i :
  inv cfg rc ranks → apart main_thread (shared cfg) → created (shared cfg) !! i = Some (t, i) →
  t ∉ exited (shared cfg) → ∃ cfg', step cfg cfg'.
Proof.
  intros Hinv Hmain Hi He. pose proof (inv_world _ _ _ Hinv) as Hok.
  destruct (workers cfg !! t) as [c|] eqn:Hc.
  - pose proof (inv_worker _ _ _ Hinv _ _ Hi) as Hw. rewrite Hc in Hw.
    destruct Hw as (func & param & k & P & Hps & Hat & HP & _).
    destruct (worker_progress _ _ _ _ _ _ _ _ Hat HP) as [->|[[[r w] Hs]|(u & Hu & Hh & _)]].
    + eexists. by eapply step_exit.
    + destruct (inv_worker_step _ _ _ _ _ _ _ _ Hinv Hi Hc Hs) as (c' & k' & -> & _). eexists. by eapply step_worker.
    + destruct (mutex_released _ _ _ u Hinv) as (cfg' & ranks' & Hr & _ & _ & Hf); [by intros ->|done|].
      destruct Hr as [cfg'|x y z Hs _]; [unfold holds in Hh; congruence|by exists y].
  - eexists. eapply step_begin; [by eapply list_elem_of_lookup_2|done].
Qed.

Lemma not_stuck cfg rc ranks : inv cfg rc ranks → controller cfg = Finished () ∨ ∃ cfg', step cfg cfg'.
Proof.
  intros Hinv. destruct (inv_controller _ _ _ Hinv) as (P & Hat & HP). pose proof (inv_world _ _ _ Hinv) as Hok.
  destruct (controller_progress _ _ _ _ Hat HP Hok) as [Hf|[[[r w] Hs]|[(_ & u & Hu & Hh)|(_ & Ha & t & i & Hi & Ht)]]];
    [by left|right..].
  - destruct (inv_controller_step _ _ _ _ _ Hinv Hs) as (c & rc' & ranks' & -> & _). eexists. by apply step_controller.
  - destruct (mutex_released _ _ _ _ Hinv Hu Hh) as (cfg' & ranks' & Hr & _ & _ & Hf).
    destruct Hr as [cfg'|x y z Hs _]; [unfold holds in Hh; congruence|]. by exists y.
  - by eapply worker_not_stuck.
Qed.

Lemma end_possible cfg rc ranks :
  inv cfg rc ranks → ∃ cfg', rtc step cfg cfg' ∧ controller cfg' = Finished ().
Proof.
  assert (∀ m cfg rc ranks, (rc + total ranks (length (created (shared cfg))) = m)%nat →
    inv cfg rc ranks → notified (shared cfg) → ∃ cfg', rtc step cfg cfg' ∧ controller cfg' = Finished ()) as Hend.
  { intros m. induction (lt_wf m) as [m _ IH]. intros cfg0 rc0 ranks0 <- Hinv Hn.
    destruct (not_stuck _ _ _ Hinv) as [Hf|[cfg1 Hs]]; [by exists cfg0|].
    destruct (inv_step _ _ _ _ Hinv Hs) as (rc1 & ranks1 & Hinv1 & Hlt). destruct (Hlt Hn) as [Hn1 Hlt1].
    destruct (IH _ Hlt1 _ _ _ eq_refl Hinv1 Hn1) as (cfg2 & Hr & Hf). exists cfg2. split; [by eapply rtc_l|done]. }
  intros Hinv. destruct (notification_possible _ _ _ Hinv) as (cfg1 & Hr1 & Hn1).
  assert (∃ rc1 ranks1, inv cfg1 rc1 ranks1) as (rc1 & ranks1 & Hinv1).
  { refine (rtc_keeps step (λ c, ∃ rc ranks, inv c rc ranks) _ _ _ Hr1 _); [|by eauto].
    intros a b (rc0 & ranks0 & Hi) Hs. destruct (inv_step _ _ _ _ Hi Hs) as (rc' & ranks' & Hi' & _). by exists rc', ranks'. }
  destruct (Hend _ _ _ _ eq_refl Hinv1 Hn1) as (cfg2 & Hr2 & Hf). exists cfg2. split; [by etrans|done].
Qed.

Lemma never_fails cfg rc ranks : inv cfg rc ranks → ¬ fails cfg.
Proof.
  intros Hinv (c & r & w & [->|[t Hc]] & Hs & Hr).
  - destruct (inv_controller_step _ _ _ _ _ Hinv Hs) as (c' & rc' & ranks' & -> & _). by destruct (Hr c').
  - destruct (created_lookup _ t (inv_world _ _ _ Hinv)) as [i Hi]; [by eapply (inv_known _ _ _ Hinv)|].
    destruct (inv_worker_step _ _ _ _ _ _ _ _ Hinv Hi Hc Hs) as (c' & k & -> & _). by destruct (Hr c').
Qed.

(** What a finished controller knows. *)
Lemma finished_calls cfg rc ranks i func param :
  inv cfg rc ranks → controller cfg = Finished () → ps !! i = Some (func, param) →
  log i (shared cfg) = [Started i func param; Returned i func param].
Proof.
  intros Hinv Hf Hps. destruct (inv_controller _ _ _ Hinv) as (P & Hat & HP). pose proof (inv_world _ _ _ Hinv) as Hok.
  rewrite Hf in Hat. inversion Hat; subst. destruct HP as (_ & _ & Hlen & Hex).
  destruct (lookup_lt_is_Some_2 (created (shared cfg)) i) as [[t j] Hi]; [rewrite Hlen; by eapply lookup_lt_Some|].
  destruct (ok_created _ Hok _ _ _ Hi) as [<- _]. pose proof (Hex _ _ Hi ltac:(lia)) as Hte.
  pose proof (inv_worker _ _ _ Hinv _ _ Hi) as Hw. destruct (workers cfg !! t) as [c|]; [|by destruct Hw as (_ & _ & _ & ?)].
  destruct Hw as (func' & param' & k & Q & Hps' & Hw & HQ & Hd). rewrite decide_True // in Hd. destruct Hd as [-> _].
  rewrite Hps in Hps'. injection Hps' as <- <-. inversion Hw; subst. by destruct HQ as (_ & ? & _).
Qed.

(** A function that was called was called after the notification. *)
Lemma called_notified cfg rc ranks : inv cfg rc ranks → calls (shared cfg) ≠ [] → notified (shared cfg).
Proof.
  intros Hinv Hne. pose proof (inv_world _ _ _ Hinv) as Hok. destruct (calls (shared cfg)) as [|e es] eqn:Hcs; [done|].
  assert (log (event_object e) (shared cfg) ≠ []) as Hl.
  { unfold log. rewrite Hcs filter_cons_True //. }
  destruct (lookup_lt_is_Some_2 (created (shared cfg)) (event_object e)) as [[t j] Hi].
  { apply not_le. intros Hle. by destruct Hl; apply (ok_log _ Hok). }
  destruct (ok_created _ Hok _ _ _ Hi) as [<- _]. pose proof (inv_worker _ _ _ Hinv _ _ Hi) as Hw.
  destruct (workers cfg !! t) as [c|]; [|by destruct Hw as (_ & _ & ? & _)].
  destruct Hw as (func & param & k & P & _ & Hat & HP & _). destruct Hat; cbn in HP; naive_solver.
Qed.

(** C13. Threads made with a Notification, notified and joined, in any interleaving with
    their controller: nothing aborts or is undefined; no thread calls its function before
    the notification; when the controller has ended, each function has been called with
    its parameter, exactly once, and has returned; the controller can always get to its
    end; and once the threads are notified it does, however they are scheduled: no run
    goes on for ever, and none stops before the controller is finished. *)
Theorem threads_wait_for_notification n0 cfg :
  new_Notification = Some n0 → rtc step (start n0 ps) cfg →
  ¬ fails cfg ∧
  (calls (shared cfg) ≠ [] → notified (shared cfg)) ∧
  (controller cfg = Finished () → ∀ i func param, ps !! i = Some (func, param) →
    log i (shared cfg) = [Started i func param; Returned i func param]) ∧
  (∃ cfg', rtc step cfg cfg' ∧ controller cfg' = Finished ()) ∧
  (notified (shared cfg) → sn step cfg ∧ (nf step cfg → controller cfg = Finished ())).
Proof.
  intros Hn Hr. destruct (inv_reachable _ _ Hn Hr) as (rc & ranks & Hinv). split_and!.
  - by eapply never_fails.
  - by eapply called_notified.
  - intros Hf i func param Hps. by eapply finished_calls.
  - by eapply end_possible.
  - intros Hnt. split; [by eapply run_ends|]. intros Hnf. destruct (not_stuck _ _ _ Hinv); [done|by destruct Hnf].
Qed.
End threads.

(** * Two threads *)

#[local] Existing Instance simple_pthreads.
#[local] Existing Instance simple_pthread_laws.

(** Threads numbered in the order they are made. *)
#[local] Instance counting_create : PthreadCreate := {
  main_thread := 0;
  pthread_create ts := (0, foldr Z.max 0 ts + 1);
}.

#[local] Instance counting_create_laws : PthreadCreateLaws.
Proof.
  intros ts. split; [done|]. cbn. rewrite elem_of_cons.
  assert (0 ≤ foldr Z.max 0 ts) by (induction ts; cbn; lia).
  assert (∀ t, t ∈ ts → t ≤ foldr Z.max 0 ts) as Hmax.
  { intros t Ht. clear -Ht. induction Ht as [t ts|t u ts _ IH]; cbn; lia. }
  intros [?|Ht]; [lia|]. specialize (Hmax _ Ht). lia.
Qed.

Definition a_notification : Notification := MkNotification None false.

Lemma threads_wait_for_notification_witness :
  ∃ cfg, rtc step (start a_notification [(true, 7); (false, 9)]) cfg ∧ controller cfg = Finished () ∧
    log 0 (shared cfg) = [Started 0 true 7; Returned 0 true 7] ∧ log 1 (shared cfg) = [Started 1 false 9; Returned 1 false 9].
Proof.
  destruct (threads_wait_for_notification [(true, 7); (false, 9)] a_notification
    (start a_notification [(true, 7); (false, 9)]) eq_refl (rtc_refl _ _)) as (_ & _ & _ & (cfg & Hr & Hf) & _).
  exists cfg. split; [exact Hr|]. split; [exact Hf|].
  destruct (threads_wait_for_notification [(true, 7); (false, 9)] a_notification cfg eq_refl Hr) as (_ & _ & Hl & _).
  split; by apply Hl.
Defined.
