(* ===== verification/ThreadLocals.v ===== *)
(** scoped_ptr and the thread-local variables of the test library on pthreads, class
    ThreadLocal (src/gtest/include/gtest/internal/gtest-port.h).

    A ThreadLocal reads and writes the slots that pthreads keeps for its key and the
    calling thread only, so an operation is one step of the program; the thread-specific
    data of pthreads is the class [ThreadSpecific]. *)

From S2P Require Import Prelude Mem Concurrency.
#[local] Open Scope Z_scope.

(** * Thread-specific data of pthreads *)

Class ThreadSpecific : Type := {
  specific : Type;
  pthread_key_t : Type;
  live_key : pthread_key_t → specific → Prop;
  pthread_key_create : specific → Z * pthread_key_t * specific;
  pthread_key_delete : pthread_key_t → specific → Z * specific;
  pthread_getspecific : pthread_key_t → pthread_t → specific → ptr;
  pthread_setspecific : pthread_key_t → pthread_t → ptr → specific → Z * specific;
}.

(** A created key is new, and NULL for every thread; a live key can be set, for the calling
    thread only; operations on a key leave the other keys alone. *)
Class ThreadSpecificLaws `{ThreadSpecific} : Prop := {
  key_create s : ∃ k s', pthread_key_create s = (0, k, s') ∧ ¬ live_key k s ∧ live_key k s' ∧
    (∀ t, pthread_getspecific k t s' = NULL) ∧
    ∀ j, live_key j s → live_key j s' ∧ ∀ t, pthread_getspecific j t s' = pthread_getspecific j t s;
  key_set k t p s : live_key k s → ∃ s', pthread_setspecific k t p s = (0, s') ∧
    pthread_getspecific k t s' = p ∧ (∀ u, u ≠ t → pthread_getspecific k u s' = pthread_getspecific k u s) ∧
    (∀ j, live_key j s' ↔ live_key j s) ∧
    ∀ j u, j ≠ k → pthread_getspecific j u s' = pthread_getspecific j u s;
  key_delete k s : live_key k s → ∃ s', pthread_key_delete k s = (0, s') ∧ ¬ live_key k s' ∧
    ∀ j, j ≠ k → live_key j s → live_key j s' ∧ ∀ t, pthread_getspecific j t s' = pthread_getspecific j t s;
}.

(** * scoped_ptr *)

(** A scoped_ptr is its member ptr_; an operation that changes it gives the new one. *)
Section scoped_ptr.
Context {V : Type}.

Record scoped_ptr : Set := MkScopedPtr { ptr_ : ptr }.

Definition get (p : scoped_ptr) : ptr := ptr_ p.

(** operator*, operator->. *)
Definition deref (p : scoped_ptr) : cmd (mem V) V := load (ptr_ p).

Definition release (p : scoped_ptr) : ptr * scoped_ptr := (ptr_ p, MkScopedPtr NULL).

(** IsTrue(sizeof(T) > 0) holds for every complete type. *)
Definition reset (q : ptr) (p : scoped_ptr) : cmd (mem V) scoped_ptr :=
  if bool_decide (q ≠ ptr_ p) then
    free (ptr_ p);;
    mret (MkScopedPtr q)
  else mret p.

Definition delete_scoped_ptr (p : scoped_ptr) : cmd (mem V) scoped_ptr := reset NULL p.

Definition swap (a b : scoped_ptr) : scoped_ptr * scoped_ptr := (MkScopedPtr (ptr_ b), MkScopedPtr (ptr_ a)).
End scoped_ptr.

(** * ThreadLocal *)

Section thread_local.
Context `{Malloc, ThreadSpecific} {T : Type}.
Context (value_init : T).

(** The objects a ThreadLocal makes: holders of values, and the factory of holders. *)
Inductive object : Type :=
  | ValueHolder (value_ : T)
  | DefaultValueHolderFactory
  | InstanceValueHolderFactory (value_ : T).

Record env : Type := Env { tls : specific; memory : mem object }.

Record ThreadLocal : Type := MkThreadLocal {
  key_ : pthread_key_t;
  default_factory_ : scoped_ptr;
}.

Definition on_memory {A} (m : cmd (mem object) A) : cmd env A := zoom memory (λ h s, Env (tls s) h) m.

(** A call of pthreads, with its result. *)
Definition on_tls {A} (f : specific → A * specific) : cmd env A :=
  zoom tls (λ d s, Env d (memory s)) (λ d, let '(r, d') := f d in (Done r, d')).

Definition check_success (gtest_error : Z) : cmd env unit := assert_ (bool_decide (gtest_error = 0)).

(** new of an object; the program ends when there is no memory. *)
Definition new_object (o : object) : cmd env ptr :=
  p ← on_memory (malloc o);
  if p is Some _ then mret p else abort.

(** delete static_cast<ThreadLocalValueHolderBase*>(value_holder). *)
Definition DeleteThreadLocalValue (value_holder : ptr) : cmd env unit := on_memory (free value_holder).

Definition CreateKey : cmd env pthread_key_t :=
  '(r, key) ← on_tls pthread_key_create;
  check_success r;;
  mret key.

(** The two constructors. *)
Definition new_ThreadLocal : cmd env ThreadLocal :=
  key ← CreateKey;
  factory ← new_object DefaultValueHolderFactory;
  mret (MkThreadLocal key (MkScopedPtr factory)).

Definition new_ThreadLocal_value (value : T) : cmd env ThreadLocal :=
  key ← CreateKey;
  factory ← new_object (InstanceValueHolderFactory value);
  mret (MkThreadLocal key (MkScopedPtr factory)).

(** The destructor, called by thread [t]; the members are destroyed last. *)
Definition delete_ThreadLocal (t : pthread_t) (tl : ThreadLocal) : cmd env unit :=
  holder ← gets (λ s, pthread_getspecific (key_ tl) t (tls s));
  DeleteThreadLocalValue holder;;
  r ← on_tls (pthread_key_delete (key_ tl));
  check_success r;;
  _ ← on_memory (delete_scoped_ptr (default_factory_ tl));
  mret ().

(** ValueHolderFactory::MakeNewHolder of the object a factory pointer points to. *)
Definition MakeNewHolder (factory : scoped_ptr) : cmd env ptr :=
  o ← on_memory (deref factory);
  match o with
  | DefaultValueHolderFactory => new_object (ValueHolder value_init)
  | InstanceValueHolderFactory value => new_object (ValueHolder value)
  | ValueHolder _ => undefined Dangling
  end.

(** CheckedDowncastToActualType<ValueHolder>: the object has to be a ValueHolder. *)
Definition CheckedDowncastToActualType (base : ptr) : cmd env ptr :=
  o ← on_memory (load base);
  assert_ (if o is ValueHolder _ then true else false);;
  mret base.

(** A pointer to value_ is the pointer to its holder. *)
Definition GetOrCreateValue (t : pthread_t) (tl : ThreadLocal) : cmd env ptr :=
  holder ← gets (λ s, pthread_getspecific (key_ tl) t (tls s));
  if holder is Some _ then CheckedDowncastToActualType holder
  else
    new_holder ← MakeNewHolder (default_factory_ tl);
    r ← on_tls (pthread_setspecific (key_ tl) t new_holder);
    check_success r;;
    mret new_holder.

Definition pointer (t : pthread_t) (tl : ThreadLocal) : cmd env ptr := GetOrCreateValue t tl.

Definition ThreadLocal_get (t : pthread_t) (tl : ThreadLocal) : cmd env T :=
  p ← pointer t tl;
  o ← on_memory (load p);
  if o is ValueHolder value then mret value else undefined Dangling.

Definition ThreadLocal_set (t : pthread_t) (value : T) (tl : ThreadLocal) : cmd env unit :=
  p ← pointer t tl;
  on_memory (store p (ValueHolder value)).

(** The end of thread [t]: pthreads calls DeleteThreadLocalValue on its value of the key. *)
Definition exit_thread (t : pthread_t) (tl : ThreadLocal) : cmd env unit :=
  holder ← gets (λ s, pthread_getspecific (key_ tl) t (tls s));
  if holder is Some _ then
    _ ← on_tls (pthread_setspecific (key_ tl) t NULL);
    DeleteThreadLocalValue holder
  else mret ().

(** * What a thread-local variable means *)

(** What a thread does with the variable. *)
Inductive request : Type := Get | Set_ (value : T) | Exit.

Definition run_request (tl : ThreadLocal) (r : pthread_t * request) : cmd env (option T) :=
  match r.2 with
  | Get => x ← ThreadLocal_get r.1 tl; mret (Some x)
  | Set_ value => ThreadLocal_set r.1 value tl;; mret None
  | Exit => exit_thread r.1 tl;; mret None
  end.

Fixpoint run_requests (tl : ThreadLocal) (rs : list (pthread_t * request)) : cmd env (list (option T)) :=
  match rs with
  | [] => mret []
  | r :: rs =>
      x ← run_request tl r;
      xs ← run_requests tl rs;
      mret (x :: xs)
  end.

(** Each thread has a value of its own, [init] until it sets another one. *)
Definition answer (init : T) (f : gmap pthread_t T) (r : pthread_t * request) : option T :=
  match r.2 with Get => Some (default init (f !! r.1)) | _ => None end.

Definition after (init : T) (r : pthread_t * request) (f : gmap pthread_t T) : gmap pthread_t T :=
  match r.2 with
  | Get => <[r.1 := default init (f !! r.1)]> f
  | Set_ value => <[r.1 := value]> f
  | Exit => delete r.1 f
  end.

Fixpoint answers (init : T) (f : gmap pthread_t T) (rs : list (pthread_t * request)) : list (option T) :=
  match rs with [] => [] | r :: rs => answer init f r :: answers init (after init r f) rs end.

Definition after_all (init : T) (f : gmap pthread_t T) (rs : list (pthread_t * request)) : gmap pthread_t T :=
  foldl (λ f r, after init r f) f rs.

(** The value a factory gives to new holders. *)
Definition factory_value (o : object) : option T :=
  match o with
  | DefaultValueHolderFactory => Some value_init
  | InstanceValueHolderFactory value => Some value
  | ValueHolder _ => None
  end.

(** The variable, with its factory at [fl] and the holders at [locs], on a heap that held
    [base] before it was made. *)
Record represents (tl : ThreadLocal) (fac : object) (base : gmap loc object) (fl : loc)
    (locs : gmap pthread_t loc) (f : gmap pthread_t T) (s : env) : Prop := Represents {
  rep_key : live_key (key_ tl) (tls s);
  rep_factory : ptr_ (default_factory_ tl) = Some fl;
  rep_dom t : is_Some (locs !! t) ↔ is_Some (f !! t);
  rep_slot t : pthread_getspecific (key_ tl) t (tls s) = locs !! t;
  rep_inj t u l : locs !! t = Some l → locs !! u = Some l → t = u;
  rep_fresh t l : locs !! t = Some l → l ≠ fl ∧ base !! l = None;
  rep_base : base !! fl = None;
  rep_cells l o : cells (memory s) !! l = Some o ↔
    base !! l = Some o ∨ l = fl ∧ o = fac ∨ ∃ t x, locs !! t = Some l ∧ f !! t = Some x ∧ o = ValueHolder x;
}.

Context `{!ThreadSpecificLaws} (memory_total : malloc_total).
Implicit Types (tl : ThreadLocal) (s : env) (t : pthread_t).

Lemma on_memory_done {A} (m : cmd (mem object) A) s a h :
  m (memory s) = (Done a, h) → on_memory m s = (Done a, Env (tls s) h).
Proof. apply (zoom_done memory (λ h s, Env (tls s) h)). Qed.

Lemma on_tls_done {A} (f : specific → A * specific) s a d :
  f (tls s) = (a, d) → on_tls f s = (Done a, Env d (memory s)).
Proof. unfold on_tls, zoom. by intros ->. Qed.

Lemma new_holder_done o s :
  ∃ l n, cells (memory s) !! l = None ∧
    new_object o s = (Done (Some l), Env (tls s) (Mem (<[l := o]> (cells (memory s))) n)).
Proof.
  destruct (malloc_new o (memory s) memory_total) as (l & Hl & Hm). eexists l, _. split; [done|].
  unfold new_object. by rewrite (bind_done _ _ _ _ _ (on_memory_done _ _ _ _ Hm)).
Qed.

Section operations.
Context {tl : ThreadLocal} {fac : object} {base : gmap loc object} {fl : loc} {init : T}.
Context (Hfac : factory_value fac = Some init).
Notation rep := (represents tl fac base fl).

Lemma rep_holder locs f s t l : rep locs f s → locs !! t = Some l →
  ∃ x, f !! t = Some x ∧ cells (memory s) !! l = Some (ValueHolder x).
Proof.
  intros Hr Hl. destruct (proj1 (rep_dom _ _ _ _ _ _ _ Hr t)) as [x Hx]; [by eexists|].
  exists x. split; [done|]. apply (rep_cells _ _ _ _ _ _ _ Hr). right. right. by exists t, x.
Qed.

(** A holder that is new, or one whose value changes. *)
Lemma rep_insert locs f s t l x d n :
  rep locs f s →
  locs !! t = Some l ∨ locs !! t = None ∧ cells (memory s) !! l = None →
  live_key (key_ tl) d → (∀ u, pthread_getspecific (key_ tl) u d = <[t := l]> locs !! u) →
  rep (<[t := l]> locs) (<[t := x]> f) (Env d (Mem (<[l := ValueHolder x]> (cells (memory s))) n)).
Proof.
  intros Hr Hl Hk Hs.
  assert (l ≠ fl ∧ base !! l = None ∧ ∀ u, u ≠ t → locs !! u ≠ Some l) as (Hfl & Hb & Hu).
  { destruct Hl as [Hl|[Ht Hl]].
    - split_and!; [by eapply (rep_fresh _ _ _ _ _ _ _ Hr)..|].
      intros u Hne Hu. by apply Hne, (rep_inj _ _ _ _ _ _ _ Hr _ _ l).
    - assert (∀ o, ¬ (base !! l = Some o ∨ l = fl ∧ o = fac ∨
        ∃ t x, locs !! t = Some l ∧ f !! t = Some x ∧ o = ValueHolder x)) as Hno.
      { intros o. rewrite -(rep_cells _ _ _ _ _ _ _ Hr). by rewrite Hl. }
      split_and!.
      + intros ->. by apply (Hno fac); auto.
      + destruct (base !! l) as [o|] eqn:Ho; [|done]. by destruct (Hno o); auto.
      + intros u _ Hu. destruct (rep_holder _ _ _ _ _ Hr Hu) as (y & Hy & _).
        apply (Hno (ValueHolder y)). naive_solver. }
  split; cbn; [done|apply Hr| |done| | |apply Hr|].
  - intros u. rewrite !lookup_insert_is_Some'. by rewrite (rep_dom _ _ _ _ _ _ _ Hr).
  - intros u v k. rewrite !lookup_insert_Some.
    intros [[<- <-]|[? Hu1]] [[<- ?]|[? Hv1]]; subst; try done.
    + by destruct (Hu v).
    + by destruct (Hu u).
    + by apply (rep_inj _ _ _ _ _ _ _ Hr _ _ k).
  - intros u k. rewrite lookup_insert_Some. intros [[<- <-]|[_ ?]]; [done|by eapply (rep_fresh _ _ _ _ _ _ _ Hr)].
  - intros k o. rewrite lookup_insert_Some (rep_cells _ _ _ _ _ _ _ Hr). split.
    + intros [[<- <-]|(Hne & [?|[?|(u & y & Hu1 & Hy & ->)]])]; [| |by auto|].
      * right. right. exists t, x. by rewrite !lookup_insert_eq.
      * by auto.
      * right. right. exists u, y. destruct (decide (u = t)) as [->|Hut].
        -- destruct Hl as [?|[? _]]; congruence.
        -- by rewrite !lookup_insert_ne.
    + intros [?|[[-> ->]|(u & y & Hu1 & Hy & ->)]].
      * right. split; [congruence|by auto].
      * right. split; [congruence|by auto].
      * revert Hu1 Hy. rewrite !lookup_insert_Some. intros [[<- <-]|[Hne Hu1]] [[? Hxy]|[Hne' Hy]]; subst; try done.
        -- by auto.
        -- right. split; [intros ->; by destruct (Hu u)|]. right. right. by exists u, y.
Qed.

Lemma rep_pointer locs f s t :
  rep locs f s →
  ∃ l s', pointer t tl s = (Done (Some l), s') ∧
    rep (<[t := l]> locs) (<[t := default init (f !! t)]> f) s'.
Proof.
  intros Hr. unfold pointer, GetOrCreateValue. run_step. rewrite (rep_slot _ _ _ _ _ _ _ Hr).
  destruct (locs !! t) as [l|] eqn:Hl.
  - destruct (rep_holder _ _ _ _ _ Hr Hl) as (x & Hx & Hc). exists l, s.
    unfold CheckedDowncastToActualType. erewrite bind_done; [|apply on_memory_done, (load_live _ _ _ Hc)].
    rewrite Hx /= insert_id // insert_id //. by destruct s as [d [? ?]].
  - assert (f !! t = None) as Hf.
    { apply eq_None_not_Some. rewrite -(rep_dom _ _ _ _ _ _ _ Hr) Hl. by intros [? ?]. }
    unfold MakeNewHolder, deref. rewrite (rep_factory _ _ _ _ _ _ _ Hr).
    assert (cells (memory s) !! fl = Some fac) as Hc by (apply (rep_cells _ _ _ _ _ _ _ Hr); auto).
    rewrite bind_assoc. erewrite bind_done; [|apply on_memory_done, (load_live _ _ _ Hc)].
    replace (Env (tls s) (memory s)) with s by by destruct s. rewrite Hf /=.
    destruct (new_holder_done (ValueHolder init) s) as (l & n & Hl0 & Hnew).
    destruct (key_set (key_ tl) t (Some l) (tls s) (rep_key _ _ _ _ _ _ _ Hr))
      as (d & Hset & Hgt & Hgu & Hlive & _).
    exists l, (Env d (Mem (<[l := ValueHolder init]> (cells (memory s))) n)). split.
    + assert (match fac with
        | ValueHolder _ => undefined Dangling
        | DefaultValueHolderFactory => new_object (ValueHolder value_init)
        | InstanceValueHolderFactory value => new_object (ValueHolder value)
        end = new_object (ValueHolder init)) as -> by (destruct fac; by simplify_eq/=).
      rewrite (bind_done _ _ _ _ _ Hnew). cbn beta. by erewrite bind_done; [|apply on_tls_done, Hset].
    + apply rep_insert; [done|by auto|by apply Hlive; apply Hr|].
      intros u. destruct (decide (u = t)) as [->|Hu]; [by rewrite lookup_insert_eq|].
      rewrite lookup_insert_ne // Hgu // (rep_slot _ _ _ _ _ _ _ Hr) //.
Qed.

Lemma rep_known locs f s t x l : rep locs (<[t := x]> f) s → locs !! t = Some l →
  cells (memory s) !! l = Some (ValueHolder x).
Proof.
  intros Hr Hl. destruct (rep_holder _ _ _ _ _ Hr Hl) as (y & Hy & Hc).
  rewrite lookup_insert_eq in Hy. by simplify_eq.
Qed.

Lemma rep_get locs f s t :
  rep locs f s →
  ∃ locs' s', ThreadLocal_get t tl s = (Done (default init (f !! t)), s') ∧
    rep locs' (<[t := default init (f !! t)]> f) s'.
Proof.
  intros Hr. destruct (rep_pointer _ _ _ t Hr) as (l & s' & Hp & Hr').
  pose proof (rep_known _ _ _ _ _ _ Hr' (lookup_insert_eq _ _ _)) as Hc.
  exists (<[t := l]> locs), s'. split; [|done]. unfold ThreadLocal_get. rewrite (bind_done _ _ _ _ _ Hp).
  erewrite bind_done; [|apply on_memory_done, (load_live _ _ _ Hc)]. by destruct s'.
Qed.

Lemma rep_set locs f s t x :
  rep locs f s →
  ∃ locs' s', ThreadLocal_set t x tl s = (Done (), s') ∧ rep locs' (<[t := x]> f) s'.
Proof.
  intros Hr. destruct (rep_pointer _ _ _ t Hr) as (l & s' & Hp & Hr').
  pose proof (rep_known _ _ _ _ _ _ Hr' (lookup_insert_eq _ _ _)) as Hc.
  exists (<[t := l]> (<[t := l]> locs)). eexists. unfold ThreadLocal_set. rewrite (bind_done _ _ _ _ _ Hp). split.
  - by apply on_memory_done, (store_live _ _ _ (ValueHolder x) Hc).
  - rewrite -(insert_insert_eq f t x (default init (f !! t))). apply rep_insert; [done|left; apply lookup_insert_eq|apply Hr'|].
    intros u. rewrite (rep_slot _ _ _ _ _ _ _ Hr') insert_insert_eq //.
Qed.

Lemma rep_exit locs f s t :
  rep locs f s →
  ∃ locs' s', exit_thread t tl s = (Done (), s') ∧ rep locs' (delete t f) s'.
Proof.
  intros Hr. unfold exit_thread. run_step. rewrite (rep_slot _ _ _ _ _ _ _ Hr).
  destruct (locs !! t) as [l|] eqn:Hl.
  - destruct (rep_holder _ _ _ _ _ Hr Hl) as (x & Hx & Hc).
    destruct (key_set (key_ tl) t NULL (tls s) (rep_key _ _ _ _ _ _ _ Hr)) as (d & Hset & Hgt & Hgu & Hlive & _).
    exists (delete t locs). eexists. erewrite bind_done; [|apply on_tls_done, Hset]. split.
    + by apply on_memory_done, (free_live _ _ _ Hc).
    + split; cbn; [by apply Hlive; apply Hr|apply Hr| | | | |apply Hr|].
      * intros u. destruct (decide (u = t)) as [->|Hu]; [by rewrite !lookup_delete_eq|].
        by rewrite !lookup_delete_ne // (rep_dom _ _ _ _ _ _ _ Hr).
      * intros u. destruct (decide (u = t)) as [->|Hu]; [by rewrite lookup_delete_eq|].
        rewrite lookup_delete_ne // Hgu // (rep_slot _ _ _ _ _ _ _ Hr) //.
      * intros u v k. rewrite !lookup_delete_Some. intros [_ ?] [_ ?]. by eapply (rep_inj _ _ _ _ _ _ _ Hr).
      * intros u k. rewrite lookup_delete_Some. intros [_ ?]. by eapply (rep_fresh _ _ _ _ _ _ _ Hr).
      * intros k o. rewrite lookup_delete_Some (rep_cells _ _ _ _ _ _ _ Hr).
        pose proof (rep_fresh _ _ _ _ _ _ _ Hr _ _ Hl) as [Hne Hb]. split.
        -- intros (Hk & [?|[?|(u & y & Hu & Hy & ->)]]); [by auto|by auto|].
           right. right. exists u, y. rewrite !lookup_delete_ne //; congruence.
        -- intros [?|[[-> ->]|(u & y & Hu & Hy & ->)]]; [split; [congruence|by auto]|by auto|].
           apply lookup_delete_Some in Hu as [Hut Hu]. apply lookup_delete_Some in Hy as [_ Hy]. split.
           ++ intros ->. by apply Hut, (rep_inj _ _ _ _ _ _ _ Hr _ _ k).
           ++ right. right. by exists u, y.
  - exists locs, s. split; [done|]. rewrite delete_id //.
    apply eq_None_not_Some. rewrite -(rep_dom _ _ _ _ _ _ _ Hr) Hl. by intros [? ?].
Qed.

Lemma rep_request locs f s r :
  rep locs f s →
  ∃ locs' s', run_request tl r s = (Done (answer init f r), s') ∧ rep locs' (after init r f) s'.
Proof.
  intros Hr. destruct r as [t [|x|]]; cbn.
  - destruct (rep_get _ _ _ t Hr) as (locs' & s' & Hrun & Hr'). exists locs', s'. split; [|done].
    unfold run_request. cbn. by rewrite (bind_done _ _ _ _ _ Hrun).
  - destruct (rep_set _ _ _ t x Hr) as (locs' & s' & Hrun & Hr'). exists locs', s'. split; [|done].
    unfold run_request. cbn. by rewrite (bind_done _ _ _ _ _ Hrun).
  - destruct (rep_exit _ _ _ t Hr) as (locs' & s' & Hrun & Hr'). exists locs', s'. split; [|done].
    unfold run_request. cbn. by rewrite (bind_done _ _ _ _ _ Hrun).
Qed.

Lemma rep_requests rs locs f s :
  rep locs f s →
  ∃ locs' s', run_requests tl rs s = (Done (answers init f rs), s') ∧ rep locs' (after_all init f rs) s'.
Proof.
  revert locs f s. induction rs as [|r rs IH]; intros locs f s Hr; [by exists locs, s|].
  destruct (rep_request _ _ _ r Hr) as (locs' & s' & Hrun & Hr').
  destruct (IH _ _ _ Hr') as (locs'' & s'' & Hrun' & Hr'').
  exists locs'', s''. split; [|done]. cbn. by rewrite (bind_done _ _ _ _ _ Hrun) (bind_done _ _ _ _ _ Hrun').
Qed.

(** delete of the holder of thread [t], or of NULL. *)
Lemma rep_free_holder locs f s t :
  rep locs f s →
  ∃ h, free (locs !! t) (memory s) = (Done (), h) ∧
    ∀ l o, cells h !! l = Some o ↔ base !! l = Some o ∨ l = fl ∧ o = fac ∨
      ∃ u x, u ≠ t ∧ locs !! u = Some l ∧ f !! u = Some x ∧ o = ValueHolder x.
Proof.
  intros Hr. destruct (locs !! t) as [k|] eqn:Hk.
  - destruct (rep_holder _ _ _ _ _ Hr Hk) as (y & _ & Hc). eexists. split; [by rewrite (free_live _ _ _ Hc)|].
    pose proof (rep_fresh _ _ _ _ _ _ _ Hr _ _ Hk) as [Hfl Hb].
    intros l o. cbn. rewrite lookup_delete_Some (rep_cells _ _ _ _ _ _ _ Hr). split.
    + intros (Hne & [?|[?|(u & x & Hu & Hx & ->)]]); [by auto|by auto|].
      right. right. exists u, x. split; [|done]. intros ->. congruence.
    + intros [?|[[-> ->]|(u & x & Hut & Hu & Hx & ->)]]; [split; [congruence|by auto]|by auto|]. split.
      * intros ->. by apply Hut, (rep_inj _ _ _ _ _ _ _ Hr _ _ l).
      * right. right. by exists u, x.
  - eexists. split; [done|]. intros l o. rewrite (rep_cells _ _ _ _ _ _ _ Hr).
    split; [intros [?|[?|(u & x & Hu & ?)]]|naive_solver]; [by auto..|].
    right. right. exists u, x. split; [|done]. intros ->. congruence.
Qed.

(** Destruction leaves the holders of the other threads. *)
Lemma rep_destroy locs f s t :
  rep locs f s →
  ∃ s', delete_ThreadLocal t tl s = (Done (), s') ∧
    ∀ l o, cells (memory s') !! l = Some o ↔
      base !! l = Some o ∨ ∃ u x, u ≠ t ∧ locs !! u = Some l ∧ f !! u = Some x ∧ o = ValueHolder x.
Proof.
  intros Hr. destruct (rep_free_holder _ _ _ t Hr) as (h & Hfree & Hcells).
  assert (cells h !! fl = Some fac) as Hfl by (apply Hcells; auto).
  destruct (key_delete _ _ (rep_key _ _ _ _ _ _ _ Hr)) as (d & Hdel & _).
  exists (Env d (Mem (delete fl (cells h)) (Mem.calls h))). split.
  - unfold delete_ThreadLocal. run_step. rewrite (rep_slot _ _ _ _ _ _ _ Hr).
    unfold DeleteThreadLocalValue. erewrite bind_done; [|apply on_memory_done, Hfree].
    erewrite bind_done; [|apply on_tls_done, Hdel]. cbn beta iota.
    unfold check_success. rewrite bool_decide_true //. erewrite bind_done; [|reflexivity].
    unfold delete_scoped_ptr, reset. rewrite (rep_factory _ _ _ _ _ _ _ Hr) bool_decide_true //.
    erewrite bind_done; [reflexivity|]. apply on_memory_done. by rewrite (bind_done _ _ _ _ _ (free_live _ _ _ Hfl)).
  - intros l o. cbn. rewrite lookup_delete_Some Hcells. split.
    + intros (Hne & [?|[[? _]|?]]); [by auto|by destruct Hne|by auto].
    + intros [Hb|(u & x & Hut & Hu & Hx & ->)].
      * split; [|by auto]. intros ->. by rewrite (rep_base _ _ _ _ _ _ _ Hr) in Hb.
      * split; [by destruct (rep_fresh _ _ _ _ _ _ _ Hr _ _ Hu)|]. right. right. by exists u, x.
Qed.
End operations.

(** ThreadLocal(), or ThreadLocal(value). *)
Definition construct (value : option T) : cmd env ThreadLocal :=
  match value with None => new_ThreadLocal | Some value => new_ThreadLocal_value value end.

Lemma construct_represents value s :
  ∃ tl fac fl s', construct value s = (Done tl, s') ∧ factory_value fac = Some (default value_init value) ∧
    represents tl fac (cells (memory s)) fl ∅ ∅ s'.
Proof.
  set (fac := if value is Some value then InstanceValueHolderFactory value else DefaultValueHolderFactory).
  destruct (key_create (tls s)) as (k & d & Hk & Hnew & Hlive & Hnull & _).
  destruct (new_holder_done fac (Env d (memory s))) as (l & n & Hl & Hn). cbn in Hl, Hn.
  assert (CreateKey s = (Done k, Env d (memory s))) as Hck.
  { unfold CreateKey. by erewrite bind_done; [|apply on_tls_done, Hk]. }
  exists (MkThreadLocal k (MkScopedPtr (Some l))), fac, l, (Env d (Mem (<[l := fac]> (cells (memory s))) n)).
  split_and!.
  - destruct value as [value|]; cbn; unfold new_ThreadLocal, new_ThreadLocal_value;
      rewrite (bind_done _ _ _ _ _ Hck) (bind_done _ _ _ _ _ Hn) //.
  - by destruct value.
  - split; cbn; [done|done| | |done|done|done|].
    + intros t. rewrite !lookup_empty. split; by intros [? ?].
    + intros t. by rewrite Hnull.
    + intros l' o. rewrite lookup_insert_Some. split.
      * intros [[? ?]|[_ ?]]; auto.
      * intros [?|[[-> ->]|(? & ? & ? & _)]]; [right; split; [congruence|done]|by auto|by simplify_map_eq].
Qed.

(** C16. A ThreadLocal<T> is one variable of type T per thread: whatever threads get, set
    and exit, in any order, each get answers what the same thread last set, or the initial
    value. Its destructor, called by one thread, succeeds, and gives back all the memory
    the variable used but the values of the other threads that are still there. *)
Theorem thread_local_refines value rs t s :
  let init := default value_init value in
  let f := after_all init ∅ rs in
  ∃ tl s1 s2 s3 (locs : gmap pthread_t loc),
    construct value s = (Done tl, s1) ∧ run_requests tl rs s1 = (Done (answers init ∅ rs), s2) ∧
    delete_ThreadLocal t tl s2 = (Done (), s3) ∧ (∀ u, is_Some (locs !! u) ↔ is_Some (f !! u)) ∧
    ∀ l o, cells (memory s3) !! l = Some o ↔ cells (memory s) !! l = Some o ∨
      ∃ u x, u ≠ t ∧ locs !! u = Some l ∧ f !! u = Some x ∧ o = ValueHolder x.
Proof.
  intros init f. destruct (construct_represents value s) as (tl & fac & fl & s1 & Hc & Hfac & Hr).
  destruct (rep_requests Hfac rs _ _ _ Hr) as (locs & s2 & Hrun & Hr2).
  destruct (rep_destroy _ _ _ t Hr2) as (s3 & Hd & Hcells).
  exists tl, s1, s2, s3, locs. split_and!; [done..|apply Hr2|done].
Qed.
End thread_local.

(** * Without threads *)

(** ThreadLocal where threads are not supported: its member value_. *)
Record PlainThreadLocal (T : Type) : Type := MkPlainThreadLocal { plain_value : T }.
Arguments MkPlainThreadLocal {T} _.
Arguments plain_value {T} _.

Definition plain_get {T} (tl : PlainThreadLocal T) : T := plain_value tl.
Definition plain_set {T} (value : T) (tl : PlainThreadLocal T) : PlainThreadLocal T := MkPlainThreadLocal value.

Definition plain_request {T} (r : request) (tl : PlainThreadLocal T) : option T * PlainThreadLocal T :=
  match r with
  | Get => (Some (plain_get tl), tl)
  | Set_ value => (None, plain_set value tl)
  | Exit => (None, tl)
  end.

Fixpoint plain_requests {T} (rs : list request) (tl : PlainThreadLocal T) : list (option T) :=
  match rs with
  | [] => []
  | r :: rs => let '(x, tl) := plain_request r tl in x :: plain_requests rs tl
  end.

(** A program with one thread sees no difference between the two classes. *)
Lemma one_thread_plain {T} (init : T) (t : pthread_t) (rs : list request) (f : gmap pthread_t T) :
  Forall (λ r, r ≠ Exit) rs →
  answers init f (pair t <$> rs) = plain_requests rs (MkPlainThreadLocal (default init (f !! t))).
Proof.
  intros Hrs. revert f. induction Hrs as [|r rs Hr _ IH]; intros f; [done|].
  cbn. rewrite IH. destruct r as [|x|]; cbn; [| |done]; by rewrite lookup_insert_eq.
Qed.

(** * A thread that exits *)

(** Thread-specific data as a table for each key. *)
#[local] Instance table_specific : ThreadSpecific := {
  specific := gmap positive (gmap pthread_t positive);
  pthread_key_t := positive;
  live_key k s := k ∈ dom s;
  pthread_key_create s := let k := fresh (dom s) in (0, k, <[k := ∅]> s);
  pthread_key_delete k s := (0, delete k s);
  pthread_getspecific k t s := s !! k ≫= lookup t;
  pthread_setspecific k t p s := (0, alter (partial_alter (λ _, p) t) k s);
}.

#[local] Instance table_specific_laws : ThreadSpecificLaws.
Proof.
  split; cbn.
  - intros s. set (k := fresh (dom s)). pose proof (is_fresh (dom s)) as Hk. fold k in Hk.
    eexists _, _. split; [done|]. split_and!; [done|set_solver|by intros t; rewrite lookup_insert_eq|].
    intros j Hj. split; [set_solver|]. intros t. rewrite lookup_insert_ne //. by intros ->.
  - intros k t p s [m Hm]%elem_of_dom. eexists. split; [done|]. split_and!.
    + by rewrite lookup_alter_eq Hm /= lookup_partial_alter_eq.
    + intros u Hu. by rewrite lookup_alter_eq Hm /= lookup_partial_alter_ne.
    + intros j. by rewrite dom_alter_L.
    + intros j u Hj. by rewrite lookup_alter_ne.
  - intros k s _. eexists. split; [done|]. split; [set_solver|].
    intros j Hj. split; [set_solver|]. intros t. by rewrite lookup_delete_ne.
Qed.

Lemma thread_local_refines_witness :
  ∃ tl s1 s2, construct (Some 7) (Env ∅ empty_mem) = (Done tl, s1) ∧
    run_requests 0 tl [(1, Get); (1, Set_ 5); (2, Get); (1, Get); (1, Exit); (1, Get)] s1 =
      (Done [Some 7; None; Some 7; Some 5; None; Some 7], s2).
Proof.
  destruct (thread_local_refines 0 bump_malloc_total (Some 7)
    [(1, Get); (1, Set_ 5); (2, Get); (1, Get); (1, Exit); (1, Get)] 1 (Env ∅ empty_mem))
    as (tl & s1 & s2 & s3 & locs & Hc & Hrun & _). by exists tl, s1, s2.
Defined.
