(* ===== verification/RegistryThreadLocals.v ===== *)
(** The thread-local variables of the test library on Windows: class ThreadLocal over a
    registry of all variables (src/gtest/include/gtest/internal/gtest-port.h).

    A variable is known by its address; the registry maps a thread and a variable to the
    holder of the value that the variable has on the thread, and deletes holders when a
    thread or a variable ends. Its functions are only declared in the header and are an
    interface (ThreadLocalRegistry, RegistryLaws). *)

From S2P Require Import Prelude Mem Concurrency ThreadLocals.
#[local] Open Scope Z_scope.

Section thread_locals.
Context `{Malloc} {T : Type}.
Context (value_init : T).

(** * The objects of the variables *)

Inductive object : Type :=
  | ValueHolder (value_ : T)
  | DefaultValueHolderFactory
  | InstanceValueHolderFactory (value_ : T).

(** The state: the registry, the member default_factory_ of each variable by the variable's
    address, and the heap. *)
Record env (R : Type) : Type := Env {
  registry : R;
  variables : gmap loc scoped_ptr;
  memory : mem object;
}.
Arguments Env {R} _ _ _.
Arguments registry {R} _.
Arguments variables {R} _.
Arguments memory {R} _.

(** GetValueOnCurrentThread of a thread, a variable and the variable's virtual function
    NewValueForCurrentThread; OnThreadLocalDestroyed; what is done when a thread exits. *)
Class ThreadLocalRegistry (R : Type) : Type := {
  GetValueOnCurrentThread : pthread_t → loc → cmd (env R) ptr → cmd (env R) ptr;
  OnThreadLocalDestroyed : loc → cmd (env R) unit;
  OnThreadExit : pthread_t → cmd (env R) unit;
}.

Section class_ThreadLocal.
Context {R : Type} `{!ThreadLocalRegistry R}.
Implicit Types (s : env R) (this : loc) (t : pthread_t).

Definition on_memory {A} (m : cmd (mem object) A) : cmd (env R) A :=
  zoom memory (λ h s, Env (registry s) (variables s) h) m.

(** The member of the variable at an address. *)
Definition default_factory_ this : cmd (env R) scoped_ptr :=
  vs ← gets variables; or_ub Dangling (vs !! this).

Definition set_variable this (p : option scoped_ptr) : cmd (env R) unit :=
  modify (λ s, Env (registry s) (partial_alter (λ _, p) this (variables s)) (memory s)).

(** new; the program ends when there is no memory. *)
Definition new_object (o : object) : cmd (env R) ptr :=
  p ← on_memory (malloc o);
  if p is Some _ then mret p else abort.

(** * class ThreadLocal *)

(** ThreadLocal() and ThreadLocal(value) at the address [this]. *)
Definition new_ThreadLocal this : cmd (env R) unit :=
  factory ← new_object DefaultValueHolderFactory;
  set_variable this (Some (MkScopedPtr factory)).

Definition new_ThreadLocal_value this (value : T) : cmd (env R) unit :=
  factory ← new_object (InstanceValueHolderFactory value);
  set_variable this (Some (MkScopedPtr factory)).

(** The members are destroyed after the body of the destructor. *)
Definition delete_ThreadLocal this : cmd (env R) unit :=
  OnThreadLocalDestroyed this;;
  p ← default_factory_ this;
  _ ← on_memory (delete_scoped_ptr p);
  set_variable this None.

(** MakeNewHolder of the factory. *)
Definition MakeNewHolder (factory : scoped_ptr) : cmd (env R) ptr :=
  o ← on_memory (deref factory);
  match o with
  | DefaultValueHolderFactory => new_object (ValueHolder value_init)
  | InstanceValueHolderFactory value => new_object (ValueHolder value)
  | ValueHolder _ => undefined Dangling
  end.

Definition NewValueForCurrentThread this : cmd (env R) ptr :=
  p ← default_factory_ this; MakeNewHolder p.

(** A pointer to value_ is the pointer to its holder. *)
Definition GetOrCreateValue t this : cmd (env R) ptr :=
  GetValueOnCurrentThread t this (NewValueForCurrentThread this).

Definition pointer t this : cmd (env R) ptr := GetOrCreateValue t this.

Definition ThreadLocal_get t this : cmd (env R) T :=
  p ← pointer t this;
  o ← on_memory (load p);
  if o is ValueHolder value then mret value else undefined Dangling.

Definition ThreadLocal_set t this (value : T) : cmd (env R) unit :=
  p ← pointer t this;
  on_memory (store p (ValueHolder value)).

(** * Programs *)

Inductive action : Type :=
  | Construct (this : loc) (value : option T)
  | Get (t : pthread_t) (this : loc)
  | Set_ (t : pthread_t) (this : loc) (value : T)
  | Exit (t : pthread_t)
  | Destroy (this : loc).

Definition run_action (a : action) : cmd (env R) (option T) :=
  match a with
  | Construct this None => new_ThreadLocal this;; mret None
  | Construct this (Some value) => new_ThreadLocal_value this value;; mret None
  | Get t this => x ← ThreadLocal_get t this; mret (Some x)
  | Set_ t this value => ThreadLocal_set t this value;; mret None
  | Exit t => OnThreadExit t;; mret None
  | Destroy this => delete_ThreadLocal this;; mret None
  end.

Fixpoint run_actions (rs : list action) : cmd (env R) (list (option T)) :=
  match rs with
  | [] => mret []
  | a :: rs => x ← run_action a; xs ← run_actions rs; mret (x :: xs)
  end.
End class_ThreadLocal.

(** ** What they mean *)

(** The variables that live, with the argument of their constructor, and the values. *)
Record meaning : Type := Meaning {
  vars : gmap loc (option T);
  vals : gmap (pthread_t * loc) T;
}.
Implicit Types (m : meaning) (this : loc) (t : pthread_t).

(** The value of the variable on the thread. *)
Definition value_on m t this : T :=
  default (default value_init (default None (vars m !! this))) (vals m !! (t, this)).

Definition answer m (a : action) : option T :=
  match a with Get t this => Some (value_on m t this) | _ => None end.

Definition after m (a : action) : meaning :=
  match a with
  | Construct this value => Meaning (<[this := value]> (vars m)) (vals m)
  | Get t this => Meaning (vars m) (<[(t, this) := value_on m t this]> (vals m))
  | Set_ t this value => Meaning (vars m) (<[(t, this) := value]> (vals m))
  | Exit t => Meaning (vars m) (filter (λ kv, kv.1.1 ≠ t) (vals m))
  | Destroy this => Meaning (delete this (vars m)) (filter (λ kv, kv.1.2 ≠ this) (vals m))
  end.

Fixpoint answers m (rs : list action) : list (option T) :=
  match rs with [] => [] | a :: rs => answer m a :: answers (after m a) rs end.
Definition after_all m (rs : list action) : meaning := foldl after m rs.

(** At most one thread has a value of the variable. *)
Definition one_user m this : Prop :=
  map_Forall (λ j _, map_Forall (λ k _, j.2 = this → k.2 = this → j.1 = k.1) (vals m)) (vals m).
#[local] Instance one_user_dec m this : Decision (one_user m this).
Proof. unfold one_user. apply _. Defined.

(** Variables are constructed where there is none and used while they live; as the comment of
    the class asks, all but one of the threads that used a variable have exited when it is
    destroyed. *)
Definition allowed m (a : action) : bool :=
  match a with
  | Construct this _ => bool_decide (vars m !! this = None)
  | Get _ this | Set_ _ this _ => bool_decide (is_Some (vars m !! this))
  | Exit _ => true
  | Destroy this => bool_decide (is_Some (vars m !! this) ∧ one_user m this)
  end.
Fixpoint well_formed m (rs : list action) : bool :=
  match rs with [] => true | a :: rs => allowed m a && well_formed (after m a) rs end.

(** * What the registry promises *)

Section laws.
Context {R : Type} `{!ThreadLocalRegistry R}.
Implicit Types (s : env R) (h : mem object).

(** From [s] to [s'] the registry deletes the holders of the keys in [P] and forgets them;
    the holders are the values of a map. *)
Record removes (holders : R → gmap (pthread_t * loc) loc) (P : pthread_t * loc → Prop) s s' : Prop := Removes {
  removes_variables : variables s' = variables s;
  removes_kept k : ¬ P k → holders (registry s') !! k = holders (registry s) !! k;
  removes_forgotten k : P k → holders (registry s') !! k = None;
  removes_deleted k l : P k → holders (registry s) !! k = Some l → cells (memory s') !! l = None;
  removes_cells l : (∀ k, P k → holders (registry s) !! k ≠ Some l) → cells (memory s') !! l = cells (memory s) !! l;
}.

(** The holders of the registry are distinct objects that live. *)
Definition holders_live (holders : gmap (pthread_t * loc) loc) h : Prop :=
  (∀ k l, holders !! k = Some l → is_Some (cells h !! l)) ∧
  ∀ j k l, holders !! j = Some l → holders !! k = Some l → j = k.

(** A thread that has no value of a variable gets the one that NewValueForCurrentThread
    makes, and keeps it. The holders of a thread go when it exits, and those of a variable
    when it is destroyed, if no more than one thread has one then: the comment of class
    ThreadLocal promises nothing when several threads that used the variable still live. *)
Class RegistryLaws : Type := {
  holders : R → gmap (pthread_t * loc) loc;
  registry_known t this new s l : holders (registry s) !! (t, this) = Some l →
    GetValueOnCurrentThread t this new s = (Done (Some l), s);
  registry_new t this new s l s' : holders (registry s) !! (t, this) = None →
    new s = (Done (Some l), s') → registry s' = registry s →
    ∃ d, GetValueOnCurrentThread t this new s = (Done (Some l), Env d (variables s') (memory s')) ∧
      holders d = <[(t, this) := l]> (holders (registry s));
  registry_destroyed this s : holders_live (holders (registry s)) (memory s) →
    (∀ t u, is_Some (holders (registry s) !! (t, this)) → is_Some (holders (registry s) !! (u, this)) → t = u) →
    ∃ s', OnThreadLocalDestroyed this s = (Done (), s') ∧ removes holders (λ k, k.2 = this) s s';
  registry_exited t s : holders_live (holders (registry s)) (memory s) →
    ∃ s', OnThreadExit t s = (Done (), s') ∧ removes holders (λ k, k.1 = t) s s';
}.

(** * The heap of the variables *)

(** What an allocated object is for, and what it then is. *)
Inductive role : Type := FactoryOf (this : loc) | HolderOf (k : pthread_t * loc).
#[local] Instance role_eq_dec : EqDecision role.
Proof. solve_decision. Defined.

Definition factory_object (value : option T) : object :=
  match value with None => DefaultValueHolderFactory | Some value => InstanceValueHolderFactory value end.

Definition content m (r : role) : option object :=
  match r with
  | FactoryOf this => factory_object <$> vars m !! this
  | HolderOf k => ValueHolder <$> vals m !! k
  end.

Implicit Types (own : gmap loc role) (base : gmap loc object) (r : role) (l : loc) (o : object).

(** The heap is [base] and an object for each role, which [own] locates. *)
Record heap_of base own m h : Prop := HeapOf {
  heap_role l r : own !! l = Some r → is_Some (content m r);
  heap_located r : is_Some (content m r) → ∃ l, own !! l = Some r;
  heap_fresh l r : own !! l = Some r → base !! l = None;
  heap_cells l : cells h !! l = match own !! l with Some r => content m r | None => base !! l end;
}.

(** [m'] is [m] with [o] for the role [r]. *)
Definition content_with m m' r o : Prop :=
  content m' r = Some o ∧ ∀ r', r' ≠ r → content m' r' = content m r'.

Lemma heap_new base own m m' h l r o n :
  heap_of base own m h → cells h !! l = None → content m r = None → content_with m m' r o →
  heap_of base (<[l := r]> own) m' (Mem (<[l := o]> (cells h)) n).
Proof.
  intros Hh Hl Hr [Ho Hothers].
  assert (own !! l = None) as Hown.
  { destruct (own !! l) as [r'|] eqn:Hl'; [|done]. destruct (heap_role _ _ _ _ Hh _ _ Hl') as [o' Ho'].
    pose proof (heap_cells _ _ _ _ Hh l) as Hc. rewrite Hl' in Hc. congruence. }
  assert (∀ l' r', own !! l' = Some r' → r' ≠ r) as Hne.
  { intros l' r' Hl' ->. destruct (heap_role _ _ _ _ Hh _ _ Hl') as [? ?]. congruence. }
  split.
  - intros l' r'. rewrite lookup_insert_Some. intros [[<- <-]|[_ Hl']]; [by rewrite Ho|].
    rewrite Hothers; [by eapply Hne|]. by eapply (heap_role _ _ _ _ Hh).
  - intros r' Hr'. destruct (decide (r' = r)) as [->|Hrr]; [exists l; by rewrite lookup_insert_eq|].
    rewrite Hothers // in Hr'. destruct (heap_located _ _ _ _ Hh _ Hr') as (l' & Hl'). exists l'.
    rewrite lookup_insert_ne //. congruence.
  - intros l' r'. rewrite lookup_insert_Some. intros [[<- <-]|[_ Hl']]; [|by eapply (heap_fresh _ _ _ _ Hh)].
    pose proof (heap_cells _ _ _ _ Hh l) as Hc. rewrite Hown in Hc. congruence.
  - intros l'. cbn. destruct (decide (l' = l)) as [->|Hll]; [by rewrite !lookup_insert_eq Ho|].
    rewrite !lookup_insert_ne // (heap_cells _ _ _ _ Hh). destruct (own !! l') as [r'|] eqn:Hl'; [|done].
    by rewrite Hothers; [eapply Hne|].
Qed.

Lemma heap_write base own m m' h l r o n :
  heap_of base own m h → own !! l = Some r → (∀ l', own !! l' = Some r → l' = l) → content_with m m' r o →
  heap_of base own m' (Mem (<[l := o]> (cells h)) n).
Proof.
  intros Hh Hl Hunique [Ho Hothers]. split.
  - intros l' r' Hl'. destruct (decide (r' = r)) as [->|Hne]; [by rewrite Ho|].
    rewrite Hothers //. by eapply (heap_role _ _ _ _ Hh).
  - intros r' Hr'. destruct (decide (r' = r)) as [->|Hne]; [by exists l|].
    rewrite Hothers // in Hr'. by eapply (heap_located _ _ _ _ Hh).
  - apply (heap_fresh _ _ _ _ Hh).
  - intros l'. cbn. destruct (decide (l' = l)) as [->|Hll]; [by rewrite lookup_insert_eq Hl Ho|].
    rewrite lookup_insert_ne // (heap_cells _ _ _ _ Hh). destruct (own !! l') as [r'|] eqn:Hl'; [|done].
    rewrite Hothers //. intros ->. by apply Hll, Hunique.
Qed.

(** The objects of some roles are deleted. *)
Lemma heap_remove (P : role → Prop) `{∀ r, Decision (P r)} base own m m' h h' :
  heap_of base own m h →
  (∀ r, content m' r = if decide (P r) then None else content m r) →
  (∀ l r, own !! l = Some r → P r → cells h' !! l = None) →
  (∀ l, (∀ r, own !! l = Some r → ¬ P r) → cells h' !! l = cells h !! l) →
  heap_of base (filter (λ lr, ¬ P lr.2) own) m' h'.
Proof.
  intros Hh Hm Hdeleted Hkept. split.
  - intros l r [Hl HP]%map_lookup_filter_Some. rewrite Hm decide_False //. by eapply (heap_role _ _ _ _ Hh).
  - intros r. rewrite Hm. case_decide as HP; [by intros []|]. intros Hr.
    destruct (heap_located _ _ _ _ Hh _ Hr) as (l & Hl). exists l. by apply map_lookup_filter_Some.
  - intros l r [Hl _]%map_lookup_filter_Some. by eapply (heap_fresh _ _ _ _ Hh).
  - intros l. destruct (own !! l) as [r|] eqn:Hl.
    + destruct (decide (P r)) as [HP|HP].
      * rewrite (map_lookup_filter_None_2 _ _ l); [by right; intros r' Hr' Hn; simplify_eq; apply Hn|].
        rewrite (Hdeleted _ _ Hl HP). symmetry. by eapply (heap_fresh _ _ _ _ Hh).
      * rewrite (map_lookup_filter_Some_2 _ _ l r) // Hm decide_False //.
        rewrite Hkept; [by intros r' Hr'; simplify_eq|]. by rewrite (heap_cells _ _ _ _ Hh) Hl.
    + rewrite (map_lookup_filter_None_2 _ _ l); [by left|]. rewrite Hkept; [by intros r; rewrite Hl|].
      by rewrite (heap_cells _ _ _ _ Hh) Hl.
Qed.

(** * The variables refine their meaning *)

Context {registry_laws : RegistryLaws} (memory_total : malloc_total).

Section refinement.
Context {base : gmap loc object}.

Record represents own m s : Prop := Represents {
  rep_heap : heap_of base own m (memory s);
  rep_var this q : variables s !! this = Some (MkScopedPtr q) ↔ ∃ l, q = Some l ∧ own !! l = Some (FactoryOf this);
  rep_holder k l : holders (registry s) !! k = Some l ↔ own !! l = Some (HolderOf k);
}.

Lemma rep_unique own m s l l' r : represents own m s → own !! l = Some r → own !! l' = Some r → l = l'.
Proof.
  intros Hr Hl Hl'. destruct r as [this|k].
  - assert (variables s !! this = Some (MkScopedPtr (Some l))) by (apply (rep_var _ _ _ Hr); eauto).
    assert (variables s !! this = Some (MkScopedPtr (Some l'))) by (apply (rep_var _ _ _ Hr); eauto). congruence.
  - apply (rep_holder _ _ _ Hr) in Hl, Hl'. congruence.
Qed.

Lemma rep_live own m s l r : represents own m s → own !! l = Some r → cells (memory s) !! l = content m r.
Proof. intros Hr Hl. by rewrite (heap_cells _ _ _ _ (rep_heap _ _ _ Hr)) Hl. Qed.

Lemma rep_holders_live own m s : represents own m s → holders_live (holders (registry s)) (memory s).
Proof.
  intros Hr. split.
  - intros k l Hk%(rep_holder _ _ _ Hr). rewrite (rep_live _ _ _ _ _ Hr Hk).
    by apply (heap_role _ _ _ _ (rep_heap _ _ _ Hr) l).
  - intros j k l Hj%(rep_holder _ _ _ Hr) Hk%(rep_holder _ _ _ Hr). congruence.
Qed.

Lemma on_memory_finish {A} (c : cmd (mem object) A) s a h :
  c (memory s) = (Done a, h) → on_memory c s = (Done a, Env (registry s) (variables s) h).
Proof. apply (zoom_done memory (λ h s, Env (registry s) (variables s) h)). Qed.

Lemma new_part_done o s :
  ∃ l n, cells (memory s) !! l = None ∧
    new_object o s = (Done (Some l), Env (registry s) (variables s) (Mem (<[l := o]> (cells (memory s))) n)).
Proof.
  destruct (malloc_new o (memory s) memory_total) as (l & Hl & Hm). eexists l, _. split; [done|].
  unfold new_object. by rewrite (bind_done _ _ _ _ _ (on_memory_finish _ _ _ _ Hm)).
Qed.

(** ** Construction *)

Lemma rep_construct own m s this value :
  represents own m s → vars m !! this = None →
  ∃ own' s', run_action (Construct this value) s = (Done None, s') ∧ represents own' (after m (Construct this value)) s'.
Proof.
  intros Hr Hv. destruct (new_part_done (factory_object value) s) as (l & n & Hl & Hn).
  exists (<[l := FactoryOf this]> own).
  exists (Env (registry s) (partial_alter (λ _, Some (MkScopedPtr (Some l))) this (variables s))
            (Mem (<[l := factory_object value]> (cells (memory s))) n)). split.
  - destruct value; cbn [factory_object] in Hn; unfold run_action, new_ThreadLocal, new_ThreadLocal_value;
      by rewrite bind_assoc (bind_done _ _ _ _ _ Hn).
  - assert (own !! l = None) as Hown.
    { destruct (own !! l) as [r|] eqn:Ho; [|done]. pose proof (rep_live _ _ _ _ _ Hr Ho) as Hc.
      destruct (heap_role _ _ _ _ (rep_heap _ _ _ Hr) _ _ Ho). congruence. }
    split; cbn.
    + apply (heap_new _ _ m); [apply Hr|done|cbn; by rewrite Hv|]. split; [cbn; by rewrite lookup_insert_eq|].
      intros [that|k] Hne; cbn; [|done]. rewrite lookup_insert_ne //. congruence.
    + intros that q. destruct (decide (that = this)) as [->|Hne].
      * rewrite lookup_partial_alter_eq. split; [intros [= <-]; exists l; by rewrite lookup_insert_eq|].
        intros (l' & -> & [[<- _]|[_ Hl']]%lookup_insert_Some); [done|].
        destruct (heap_role _ _ _ _ (rep_heap _ _ _ Hr) _ _ Hl') as [? Hc]. cbn in Hc. by rewrite Hv in Hc.
      * rewrite lookup_partial_alter_ne // (rep_var _ _ _ Hr).
        split; intros (l' & -> & Hl'); exists l'; (split; [done|]).
        -- rewrite lookup_insert_ne //. congruence.
        -- apply lookup_insert_Some in Hl' as [[_ [= ?]]|[_ ?]]; congruence.
    + intros k l'. rewrite (rep_holder _ _ _ Hr) lookup_insert_Some. split; [|naive_solver].
      intros Hk. right. split; [congruence|done].
Qed.

(** ** The value of the current thread *)

(** The factory of a variable makes a holder with the initial value. *)
Lemma new_value_done own m s this value :
  represents own m s → vars m !! this = Some value →
  ∃ l n, cells (memory s) !! l = None ∧ NewValueForCurrentThread this s =
    (Done (Some l), Env (registry s) (variables s)
                      (Mem (<[l := ValueHolder (default value_init value)]> (cells (memory s))) n)).
Proof.
  intros Hr Hv. destruct (heap_located _ _ _ _ (rep_heap _ _ _ Hr) (FactoryOf this)) as (fl & Hfl); [by rewrite /= Hv|].
  assert (cells (memory s) !! fl = Some (factory_object value)) as Hc
    by by rewrite (rep_live _ _ _ _ _ Hr Hfl) /= Hv.
  assert (default_factory_ this s = (Done (MkScopedPtr (Some fl)), s)) as Hf.
  { unfold default_factory_. assert (variables s !! this = Some (MkScopedPtr (Some fl))) as Hvar
      by (apply (rep_var _ _ _ Hr); eauto). by rewrite /mbind /cmd_bind /gets Hvar. }
  destruct (new_part_done (ValueHolder (default value_init value)) s) as (l & n & Hl & Hn).
  exists l, n. split; [done|]. unfold NewValueForCurrentThread, MakeNewHolder. rewrite (bind_done _ _ _ _ _ Hf).
  rewrite (bind_done _ _ _ _ _ (on_memory_finish _ _ _ _ (load_live _ _ _ Hc))).
  replace (Env (registry s) (variables s) (memory s)) with s by by destruct s. by destruct value.
Qed.

(** The meaning in which the thread has a value of the variable. *)
Definition with_value m t this x : meaning := Meaning (vars m) (<[(t, this) := x]> (vals m)).

Lemma content_with_value m t this x : content_with m (with_value m t this x) (HolderOf (t, this)) (ValueHolder x).
Proof.
  split; [cbn; by rewrite lookup_insert_eq|]. intros [that|k] Hne; cbn; [done|].
  rewrite lookup_insert_ne //. congruence.
Qed.

Lemma registry_rep_pointer own m s t this :
  represents own m s → is_Some (vars m !! this) →
  ∃ own' l s', pointer t this s = (Done (Some l), s') ∧ own' !! l = Some (HolderOf (t, this)) ∧
    represents own' (with_value m t this (value_on m t this)) s'.
Proof.
  intros Hr [value Hv]. unfold pointer, GetOrCreateValue.
  destruct (holders (registry s) !! (t, this)) as [l|] eqn:Hk.
  - exists own, l, s. pose proof (proj1 (rep_holder _ _ _ Hr _ _) Hk) as Hl. split_and!; [by apply registry_known|done|].
    destruct (heap_role _ _ _ _ (rep_heap _ _ _ Hr) _ _ Hl) as [o Ho]. cbn in Ho.
    destruct (vals m !! (t, this)) as [x|] eqn:Hx; [|done].
    replace (with_value m t this (value_on m t this)) with m; [done|].
    destruct m. unfold with_value, value_on. cbn in *. by rewrite Hx /= insert_id.
  - destruct (new_value_done _ _ _ _ _ Hr Hv) as (l & n & Hl & Hn).
    destruct (registry_new t this _ _ _ _ Hk Hn eq_refl) as (d & Hget & Hd). cbn [variables memory registry] in *.
    assert (vals m !! (t, this) = None) as Hx.
    { destruct (vals m !! (t, this)) as [x|] eqn:Hx; [|done].
      destruct (heap_located _ _ _ _ (rep_heap _ _ _ Hr) (HolderOf (t, this))) as (l' & Hl'); [by rewrite /= Hx|].
      apply (rep_holder _ _ _ Hr) in Hl'. congruence. }
    assert (own !! l = None) as Hown.
    { destruct (own !! l) as [r|] eqn:Ho; [|done]. pose proof (rep_live _ _ _ _ _ Hr Ho) as Hc.
      destruct (heap_role _ _ _ _ (rep_heap _ _ _ Hr) _ _ Ho). congruence. }
    assert (value_on m t this = default value_init value) as ->
      by (unfold value_on; by rewrite Hx Hv).
    exists (<[l := HolderOf (t, this)]> own), l. eexists. split_and!; [exact Hget|by rewrite lookup_insert_eq|].
    split; cbn.
    + apply (heap_new _ _ m); [apply Hr|done|cbn; by rewrite Hx|apply content_with_value].
    + intros that q. rewrite (rep_var _ _ _ Hr). split; intros (l' & -> & Hl'); exists l'; (split; [done|]).
      * rewrite lookup_insert_ne //. congruence.
      * by apply lookup_insert_Some in Hl' as [[_ [=]]|[_ ?]].
    + intros k l'. rewrite Hd !lookup_insert_Some (rep_holder _ _ _ Hr). split.
      * intros [[<- <-]|[_ Hl']]; [by auto|]. right. split; [congruence|done].
      * intros [[<- [= <-]]|[_ Hl']]; [by auto|]. right. split; [|done]. intros <-.
        apply (rep_holder _ _ _ Hr) in Hl'. congruence.
Qed.

Lemma registry_rep_get own m s t this :
  represents own m s → is_Some (vars m !! this) →
  ∃ own' s', run_action (Get t this) s = (Done (Some (value_on m t this)), s') ∧ represents own' (after m (Get t this)) s'.
Proof.
  intros Hr Hv. destruct (registry_rep_pointer _ _ _ t _ Hr Hv) as (own' & l & s' & Hp & Hl & Hr').
  exists own', s'. split; [|done]. pose proof (rep_live _ _ _ _ _ Hr' Hl) as Hc. cbn in Hc.
  rewrite lookup_insert_eq /= in Hc. unfold run_action, ThreadLocal_get.
  rewrite bind_assoc (bind_done _ _ _ _ _ Hp) bind_assoc.
  rewrite (bind_done _ _ _ _ _ (on_memory_finish _ _ _ _ (load_live _ _ _ Hc))). by destruct s'.
Qed.

Lemma registry_rep_set own m s t this x :
  represents own m s → is_Some (vars m !! this) →
  ∃ own' s', run_action (Set_ t this x) s = (Done None, s') ∧ represents own' (after m (Set_ t this x)) s'.
Proof.
  intros Hr Hv. destruct (registry_rep_pointer _ _ _ t _ Hr Hv) as (own' & l & s' & Hp & Hl & Hr').
  pose proof (rep_live _ _ _ _ _ Hr' Hl) as Hc. cbn in Hc. rewrite lookup_insert_eq /= in Hc.
  exists own', (Env (registry s') (variables s') (Mem (<[l := ValueHolder x]> (cells (memory s'))) (calls (memory s')))).
  split.
  - unfold run_action, ThreadLocal_set. rewrite bind_assoc (bind_done _ _ _ _ _ Hp).
    by rewrite (bind_done _ _ _ _ _ (on_memory_finish _ _ _ _ (store_live _ _ _ (ValueHolder x) Hc))).
  - split; cbn; [|apply Hr'..].
    replace (Meaning (vars m) (<[(t, this) := x]> (vals m)))
      with (with_value (with_value m t this (value_on m t this)) t this x)
      by (unfold with_value; cbn; by rewrite insert_insert_eq).
    eapply heap_write; [apply Hr'|exact Hl|intros l' Hl'; by eapply rep_unique|apply content_with_value].
Qed.

(** ** The ends of threads and variables *)

Definition holder_in (P : pthread_t * loc → Prop) (r : role) : Prop :=
  match r with FactoryOf _ => False | HolderOf k => P k end.
#[local] Instance holder_in_dec P `{∀ k, Decision (P k)} r : Decision (holder_in P r).
Proof. destruct r; cbn; apply _. Defined.

Lemma rep_removed (P : pthread_t * loc → Prop) `{∀ k, Decision (P k)} own m s s' :
  represents own m s → removes holders P s s' →
  represents (filter (λ lr, ¬ holder_in P lr.2) own) (Meaning (vars m) (filter (λ kv, ¬ P kv.1) (vals m))) s'.
Proof.
  intros Hr Hrem. split.
  - apply (heap_remove (holder_in P) _ _ m _ (memory s)); [apply Hr| | |].
    + intros [this|k]; [done|cbn]. destruct (decide (P k)) as [HP|HP].
      * by rewrite map_lookup_filter_None_2; [right; intros x _ Hn; by apply Hn|].
      * destruct (vals m !! k) as [x|] eqn:Hx; [by rewrite (map_lookup_filter_Some_2 _ _ k x)|].
        by rewrite map_lookup_filter_None_2; [left|].
    + intros l [this|k] Hl HP; cbn in HP; [done|]. apply (rep_holder _ _ _ Hr) in Hl.
      by eapply (removes_deleted _ _ _ _ Hrem).
    + intros l Hl. apply (removes_cells _ _ _ _ Hrem). intros k HP Hk%(rep_holder _ _ _ Hr).
      by apply (Hl _ Hk).
  - intros this q. rewrite (removes_variables _ _ _ _ Hrem) (rep_var _ _ _ Hr).
    split; intros (l & -> & Hl); exists l; (split; [done|]).
    + apply map_lookup_filter_Some. split; [done|]. by intros [].
    + by apply map_lookup_filter_Some in Hl as [? _].
  - intros k l. rewrite map_lookup_filter_Some. cbn. rewrite -(rep_holder _ _ _ Hr).
    destruct (decide (P k)) as [HP|HP].
    + rewrite (removes_forgotten _ _ _ _ Hrem) //. split; [done|by intros [_ []]].
    + rewrite (removes_kept _ _ _ _ Hrem) //. split; [done|by intros [? _]].
Qed.

Lemma registry_rep_exit own m s t :
  represents own m s →
  ∃ own' s', run_action (Exit t) s = (Done None, s') ∧ represents own' (after m (Exit t)) s'.
Proof.
  intros Hr. destruct (registry_exited t s (rep_holders_live _ _ _ Hr)) as (s' & Hs & Hrem).
  exists (filter (λ lr, ¬ holder_in (λ k, k.1 = t) lr.2) own), s'.
  split; [|exact (rep_removed (λ k, k.1 = t) _ _ _ _ Hr Hrem)].
  unfold run_action. by rewrite (bind_done _ _ _ _ _ Hs).
Qed.

Definition factory_of this (r : role) : Prop := r = FactoryOf this.
#[local] Instance factory_of_dec this r : Decision (factory_of this r) := decide (r = FactoryOf this).

(** delete of the factory, and the end of the variable. *)
Lemma rep_end own m s this :
  represents own m s → is_Some (vars m !! this) →
  ∃ own' s', (p ← default_factory_ this; _ ← on_memory (delete_scoped_ptr p); set_variable this None) s = (Done (), s') ∧
    represents own' (Meaning (delete this (vars m)) (vals m)) s'.
Proof.
  intros Hr [value Hv]. destruct (heap_located _ _ _ _ (rep_heap _ _ _ Hr) (FactoryOf this)) as (l & Hl); [by rewrite /= Hv|].
  assert (cells (memory s) !! l = Some (factory_object value)) as Hc
    by by rewrite (rep_live _ _ _ _ _ Hr Hl) /= Hv.
  assert (default_factory_ this s = (Done (MkScopedPtr (Some l)), s)) as Hf.
  { unfold default_factory_. assert (variables s !! this = Some (MkScopedPtr (Some l))) as Hvar
      by (apply (rep_var _ _ _ Hr); eauto). by rewrite /mbind /cmd_bind /gets Hvar. }
  exists (filter (λ lr, ¬ factory_of this lr.2) own),
    (Env (registry s) (delete this (variables s)) (Mem (delete l (cells (memory s))) (calls (memory s)))). split.
  - assert (delete_scoped_ptr (MkScopedPtr (Some l)) (memory s) =
      (Done (MkScopedPtr NULL), Mem (delete l (cells (memory s))) (calls (memory s)))) as Hd.
    { unfold delete_scoped_ptr, reset. cbn [ptr_]. rewrite bool_decide_true //.
      by rewrite (bind_done _ _ _ _ _ (free_live _ _ _ Hc)). }
    by rewrite (bind_done _ _ _ _ _ Hf) (bind_done _ _ _ _ _ (on_memory_finish _ _ _ _ Hd)).
  - split; cbn.
    + apply (heap_remove (factory_of this) _ _ m _ (memory s)); [apply Hr| | |].
      * intros [that|k]; [|done]. cbn [content vars]. case_decide as Heq.
        -- injection Heq as ->. by rewrite lookup_delete_eq.
        -- rewrite lookup_delete_ne //. congruence.
      * intros l' r Hl' ->. cbn. rewrite (rep_unique _ _ _ _ _ _ Hr Hl' Hl). by rewrite lookup_delete_eq.
      * intros l' Hl'. cbn. rewrite lookup_delete_ne //. intros ->. by apply (Hl' _ Hl).
    + intros that q. destruct (decide (that = this)) as [->|Hne].
      * rewrite lookup_delete_eq. split; [done|]. by intros (l' & _ & [_ []]%map_lookup_filter_Some).
      * rewrite lookup_delete_ne // (rep_var _ _ _ Hr). split; intros (l' & -> & Hl'); exists l'; (split; [done|]).
        -- apply map_lookup_filter_Some. split; [done|]. cbn. congruence.
        -- by apply map_lookup_filter_Some in Hl' as [? _].
    + intros k l'. rewrite (rep_holder _ _ _ Hr) map_lookup_filter_Some. unfold factory_of. cbn.
      split; [intros ?; split; [done|congruence]|by intros [? _]].
Qed.

(** The registry has a holder for each value. *)
Lemma rep_value own m s k : represents own m s → is_Some (holders (registry s) !! k) → is_Some (vals m !! k).
Proof.
  intros Hr [l Hl%(rep_holder _ _ _ Hr)]. destruct (heap_role _ _ _ _ (rep_heap _ _ _ Hr) _ _ Hl) as [o Ho].
  cbn in Ho. by destruct (vals m !! k).
Qed.

Lemma rep_delete own m s this :
  represents own m s → is_Some (vars m !! this) → one_user m this →
  ∃ own' s', run_action (Destroy this) s = (Done None, s') ∧ represents own' (after m (Destroy this)) s'.
Proof.
  intros Hr Hv Hone. destruct (registry_destroyed this s (rep_holders_live _ _ _ Hr)) as (s1 & Hs1 & Hrem).
  { intros t u [x Ht]%(rep_value _ _ _ _ Hr) [y Hu]%(rep_value _ _ _ _ Hr).
    by apply (Hone _ _ Ht _ _ Hu). }
  pose proof (rep_removed (λ k, k.2 = this) _ _ _ _ Hr Hrem) as Hr1.
  destruct (rep_end _ _ _ this Hr1 Hv) as (own' & s' & Hs' & Hr'). exists own', s'. split; [|exact Hr'].
  unfold run_action, delete_ThreadLocal. rewrite bind_assoc (bind_done _ _ _ _ _ Hs1).
  by rewrite (bind_done _ _ _ _ _ Hs').
Qed.

Lemma rep_action own m s a :
  represents own m s → allowed m a = true →
  ∃ own' s', run_action a s = (Done (answer m a), s') ∧ represents own' (after m a) s'.
Proof.
  intros Hr Ha. destruct a as [this value|t this|t this x|t|this]; cbn [allowed] in Ha;
    try apply bool_decide_eq_true in Ha; cbn [answer].
  - by eapply rep_construct.
  - by eapply registry_rep_get.
  - by eapply registry_rep_set.
  - by eapply registry_rep_exit.
  - destruct Ha. by eapply rep_delete.
Qed.

Lemma rep_actions rs own m s :
  represents own m s → well_formed m rs = true →
  ∃ own' s', run_actions rs s = (Done (answers m rs), s') ∧ represents own' (after_all m rs) s'.
Proof.
  revert own m s. induction rs as [|a rs IH]; intros own m s Hr Hw; [by exists own, s|].
  apply andb_prop in Hw as [Ha Hw]. destruct (rep_action _ _ _ _ Hr Ha) as (own1 & s1 & H1 & Hr1).
  destruct (IH _ _ _ Hr1 Hw) as (own2 & s2 & H2 & Hr2). exists own2, s2. split; [|done].
  cbn. by rewrite (bind_done _ _ _ _ _ H1) (bind_done _ _ _ _ _ H2).
Qed.

(** No value is left of a variable that is gone. *)
Definition no_orphans m : Prop := ∀ t this, is_Some (vals m !! (t, this)) → is_Some (vars m !! this).

Lemma after_no_orphans m a : no_orphans m → allowed m a = true → no_orphans (after m a).
Proof.
  intros Hm Ha. destruct a as [this value|t this|t this x|t|this]; cbn [allowed] in Ha;
    try apply bool_decide_eq_true in Ha; intros u that; cbn.
  - intros Hx. destruct (decide (that = this)) as [->|Hne]; [by rewrite lookup_insert_eq|].
    rewrite lookup_insert_ne //. by eapply Hm.
  - intros [y [[[= <- <-] _]|[_ Hy]]%lookup_insert_Some]; [done|]. by eapply Hm.
  - intros [y [[[= <- <-] _]|[_ Hy]]%lookup_insert_Some]; [done|]. by eapply Hm.
  - intros [y [Hy _]%map_lookup_filter_Some]. by eapply Hm.
  - intros [y [Hy Hne]%map_lookup_filter_Some]. cbn in Hne. rewrite lookup_delete_ne //. by eapply Hm.
Qed.

Lemma after_all_no_orphans rs m : no_orphans m → well_formed m rs = true → no_orphans (after_all m rs).
Proof.
  revert m. induction rs as [|a rs IH]; intros m Hm Hw; [done|]. apply andb_prop in Hw as [Ha Hw].
  by apply (IH (after m a)); [apply after_no_orphans|].
Qed.
End refinement.

Lemma nothing_represents s :
  holders (registry s) = ∅ → variables s = ∅ → represents (base:=cells (memory s)) ∅ (Meaning ∅ ∅) s.
Proof.
  intros Hh Hv. split; [split| |].
  - done.
  - intros [this|k] [o Ho]; by rewrite /= lookup_empty in Ho.
  - done.
  - done.
  - intros this q. rewrite Hv. split; [done|by intros (l & _ & ?)].
  - intros k l. by rewrite Hh.
Qed.

(** C17. Any number of ThreadLocal<T> variables, constructed, read and set by threads,
    destroyed and left by threads that exit, in any order in which each variable is used
    while it lives and destroyed when no more than one of the threads that used it lives:
    every get answers what the same thread last set for the same variable,
    or the variable's initial value, whatever the other threads and variables did; an
    exited thread and a variable constructed again at the same place start afresh. The heap is
    then what it was before, untouched, and one factory for each variable that lives and one
    holder for each value a living thread has of it, and nothing else: when no variable is left,
    it is as it was. *)
Theorem registry_thread_locals_refine (rs : list action) s :
  holders (registry s) = ∅ → variables s = ∅ → well_formed (Meaning ∅ ∅) rs = true →
  ∃ own s', run_actions rs s = (Done (answers (Meaning ∅ ∅) rs), s') ∧
    heap_of (cells (memory s)) own (after_all (Meaning ∅ ∅) rs) (memory s') ∧
    (∀ l l' r, own !! l = Some r → own !! l' = Some r → l = l') ∧
    (vars (after_all (Meaning ∅ ∅) rs) = ∅ → cells (memory s') = cells (memory s)).
Proof.
  intros Hh Hv Hw.
  destruct (rep_actions rs _ _ _ (nothing_represents s Hh Hv) Hw) as (own & s' & Hrun & Hr).
  exists own, s'. split_and!; [done|apply Hr|intros l l' r; by apply (rep_unique _ _ _ _ _ _ Hr)|]. intros Hvars.
  assert (no_orphans (after_all (Meaning ∅ ∅) rs)) as Ho
    by (apply after_all_no_orphans; [by intros t this [x Hx]|done]).
  apply map_eq. intros l. rewrite (heap_cells _ _ _ _ (rep_heap _ _ _ Hr)).
  destruct (own !! l) as [[this|[t this]]|] eqn:Hl; [..|done].
  - destruct (heap_role _ _ _ _ (rep_heap _ _ _ Hr) _ _ Hl) as [o Hc]. cbn in Hc. by rewrite Hvars in Hc.
  - destruct (heap_role _ _ _ _ (rep_heap _ _ _ Hr) _ _ Hl) as [o Hc]. cbn in Hc.
    destruct (vals (after_all (Meaning ∅ ∅) rs) !! (t, this)) as [x|] eqn:Hx; [|done].
    destruct (Ho t this) as [y Hy]; [by eexists|]. by rewrite Hvars in Hy.
Qed.
End laws.
End thread_locals.

(** * A registry *)

(** The registry as the map itself. *)
Section table.
Context {T : Type}.
Notation table := (gmap (pthread_t * loc) loc).
Implicit Types (s : env (T:=T) table).

Definition remove_all (P : pthread_t * loc → Prop) `{∀ k, Decision (P k)} s : env table :=
  let gone : gset loc := map_img (filter (λ kl, P kl.1) (registry _ s)) in
  Env _ (filter (λ kl, ¬ P kl.1) (registry _ s)) (variables _ s)
    (Mem (filter (λ lo, lo.1 ∉ gone) (cells (memory _ s))) (calls (memory _ s))).

#[local] Instance table_registry : ThreadLocalRegistry (T:=T) table := {|
  GetValueOnCurrentThread t this new s :=
    match registry _ s !! (t, this) with
    | Some l => (Done (Some l), s)
    | None =>
        match new s with
        | (Done (Some l), s') => (Done (Some l), Env _ (<[(t, this) := l]> (registry _ s')) (variables _ s') (memory _ s'))
        | r => r
        end
    end;
  OnThreadLocalDestroyed this s := (Done (), remove_all (λ k, k.2 = this) s);
  OnThreadExit t s := (Done (), remove_all (λ k, k.1 = t) s);
|}.

Lemma remove_all_removes (P : pthread_t * loc → Prop) `{∀ k, Decision (P k)} s :
  removes id P s (remove_all P s).
Proof.
  split; cbn.
  - done.
  - intros k HP. destruct (registry _ s !! k) as [l|] eqn:Hk.
    + by apply map_lookup_filter_Some_2.
    + apply map_lookup_filter_None_2. by left.
  - intros k HP. apply map_lookup_filter_None_2. right. intros l _ Hn. by apply Hn.
  - intros k l HP Hk. apply map_lookup_filter_None_2. right. intros o _ Hn. apply Hn. cbn.
    apply elem_of_map_img. exists k. by apply map_lookup_filter_Some_2.
  - intros l Hl. destruct (cells (memory _ s) !! l) as [o|] eqn:Ho.
    + apply map_lookup_filter_Some_2; [done|]. cbn.
      intros (k & [Hk HP]%map_lookup_filter_Some)%elem_of_map_img. by apply (Hl k).
    + apply map_lookup_filter_None_2. by left.
Qed.

#[local, refine] Instance table_laws : RegistryLaws (T:=T) (R:=table) := {| holders := id |}.
Proof.
  - intros t this new s l Hk. cbn in *. by rewrite Hk.
  - intros t this new s l s' Hk Hn Hreg. cbn in *. rewrite Hk Hn Hreg. by eexists.
  - intros this s _ _. eexists. split; [done|]. apply (remove_all_removes (λ k, k.2 = this)).
  - intros t s _. eexists. split; [done|]. apply (remove_all_removes (λ k, k.1 = t)).
Defined.
End table.

(** Two variables, two threads, and a variable made again at the place of another; thread 2 has
    exited whenever a variable is destroyed. *)
Definition sample_actions : list (action (T:=Z)) :=
  [Construct 1%positive (Some 100); Construct 2%positive None; Set_ 2 1%positive 150; Get 1 1%positive;
   Get 2 1%positive; Get 2 2%positive; Exit 2; Get 2 1%positive; Exit 2; Destroy 1%positive;
   Construct 1%positive None; Get 2 1%positive; Destroy 1%positive].

Lemma registry_thread_locals_refine_witness :
  ∃ own s', run_actions (ThreadLocalRegistry0:=table_registry) 0 sample_actions (Env _ ∅ ∅ empty_mem) =
      (Done [None; None; None; Some 100; Some 150; Some 0; None; Some 100; None; None; None; Some 0; None], s') ∧
    heap_of ∅ own (Meaning {[2%positive := None]} ∅) (memory _ s') ∧
    ∃ (own' : gmap loc role) s'', run_actions (ThreadLocalRegistry0:=table_registry) 0 (sample_actions ++ [Destroy 2%positive])
      (Env _ ∅ ∅ empty_mem) = (Done (answers 0 (Meaning ∅ ∅) (sample_actions ++ [Destroy 2%positive])), s'') ∧
    (∀ l l' r, own' !! l = Some r → own' !! l' = Some r → l = l') ∧ cells (memory _ s'') = ∅.
Proof.
  destruct (registry_thread_locals_refine (registry_laws:=table_laws) 0 bump_malloc_total sample_actions
    (Env _ ∅ ∅ empty_mem) eq_refl eq_refl ltac:(vm_compute; reflexivity)) as (own & s' & Hrun & Hheap & _).
  exists own, s'. split; [exact Hrun|].
  assert (after_all 0 (Meaning ∅ ∅) sample_actions = Meaning {[2%positive := None]} ∅) as Hm by (vm_compute; reflexivity).
  rewrite Hm in Hheap. split; [exact Hheap|].
  destruct (registry_thread_locals_refine (registry_laws:=table_laws) 0 bump_malloc_total
    (sample_actions ++ [Destroy 2%positive])
    (Env _ ∅ ∅ empty_mem) eq_refl eq_refl ltac:(vm_compute; reflexivity)) as (own' & s'' & Hrun' & _ & Hinj & Hcells).
  exists own', s''. split; [exact Hrun'|]. split; [exact Hinj|]. apply Hcells. vm_compute. reflexivity.
Defined.
