(* ===== verification/Tuples.v ===== *)
(** The tuples of the bundled test library
    (src/gtest/include/gtest/internal/gtest-tuple.h): construction, conversion,
    assignment, access to a field and comparison.

    A tuple<T0, ..., Tn-1> is a value of [tuple [T0; ...; Tn-1]]. The eleven class
    templates are one text repeated for each size; it is written here once over the
    list of field types ([tuple_class]), and the classes and functions of the header
    are its instances. What a field's type brings (its default value, conversions,
    assignment and comparison) is a class; [each1] and [each2] collect them for a
    list of types. Conversions and assignments may run code of the user, so they are
    commands over a state [S]. *)

From Stdlib Require Import JMeq.
From S2P Require Import Prelude.

(** * What field types bring *)

(** T(). *)
Class Default (T : Type) : Type := default_value : T.
(** The implicit conversion of a U to a T. *)
Class Convert (S U T : Type) : Type := convert : U → cmd S T.
#[global] Hint Mode Convert - + + : typeclass_instances.
(** T::operator=(U): the value of the object afterwards, from the one before. *)
Class Assign (S T U : Type) : Type := assign : T → U → cmd S T.
#[global] Hint Mode Assign - + + : typeclass_instances.
(** operator==(T, U). *)
Class Equality (T U : Type) : Type := equal : T → U → bool.

#[export] Instance convert_same S T : Convert S T T := λ t, mret t.
(** Assigning to an object of a type without an operator= of its own. *)
#[export] Instance assign_same S T : Assign S T T | 10 := λ _ u, mret u.
#[export] Instance equality_decide T `{!EqDecision T} : Equality T T | 10 := λ t u, bool_decide (t = u).

(** An instance of a class for every type of a list, and for the pairs of two lists. *)
Inductive each1 (C : Type → Type) : list Type → Type :=
  | each1_nil : each1 C []
  | each1_cons {T Ts} : C T → each1 C Ts → each1 C (T :: Ts).
Arguments each1_nil {C}.
Arguments each1_cons {C T Ts} _ _.
Existing Class each1.
#[export] Existing Instances each1_nil each1_cons.

Inductive each2 (C : Type → Type → Type) : list Type → list Type → Type :=
  | each2_nil : each2 C [] []
  | each2_cons {T U Ts Us} : C T U → each2 C Ts Us → each2 C (T :: Ts) (U :: Us).
Arguments each2_nil {C}.
Arguments each2_cons {C T U Ts Us} _ _.
Existing Class each2.
#[export] Existing Instances each2_nil each2_cons.

(** * The class template *)

Fixpoint default_tuple {Ts : list Type} (D : each1 Default Ts) : tuple Ts :=
  match D with each1_nil => () | each1_cons d D => (d, default_tuple D) end.

(** f0_(t.f0_), f1_(t.f1_), ... *)
Fixpoint convert_tuple {S : Type} {Us Ts : list Type} (C : each2 (Convert S) Us Ts)
    : tuple Us → cmd S (tuple Ts) :=
  match C with
  | each2_nil => λ _, mret ()
  | each2_cons c C => λ u, f ← c (fst u); fs ← convert_tuple C (snd u); mret (f, fs)
  end.

(** f0_ = t.f0_; f1_ = t.f1_; ... *)
Fixpoint CopyFrom {S : Type} {Ts Us : list Type} (A : each2 (Assign S) Ts Us)
    : tuple Ts → tuple Us → cmd S (tuple Ts) :=
  match A with
  | each2_nil => λ _ _, mret ()
  | each2_cons a A => λ t u, f ← a (fst t) (fst u); fs ← CopyFrom A (snd t) (snd u); mret (f, fs)
  end.

(** The members of tuple<T0, ..., Tn-1>. A member is a template, so what it needs of
    the types is its argument: [Us] are the types of the converted or assigned tuple. *)
Record tuple_members (Ts : list Type) : Type := TupleMembers {
  tuple_default : each1 Default Ts → tuple Ts;
  tuple_fields : curried Ts (tuple Ts);
  tuple_copy : tuple Ts → tuple Ts;
  tuple_convert : ∀ S Us, each2 (Convert S) Us Ts → tuple Us → cmd S (tuple Ts);
  tuple_assign : ∀ S, each2 (Assign S) Ts Ts → tuple Ts → tuple Ts → cmd S (tuple Ts);
  tuple_assign_from : ∀ S Us, each2 (Assign S) Ts Us → tuple Ts → tuple Us → cmd S (tuple Ts);
}.
Arguments TupleMembers {Ts} _ _ _ _ _ _.
Arguments tuple_default {Ts} _ {_}.
Arguments tuple_fields {Ts} _.
Arguments tuple_copy {Ts} _ _.
Arguments tuple_convert {Ts} _ {S Us _} _.
Arguments tuple_assign {Ts} _ {S _} _ _.
Arguments tuple_assign_from {Ts} _ {S Us _} _ _.

Definition tuple_class (Ts : list Type) : tuple_members Ts :=
  TupleMembers (@default_tuple Ts) (curry_tuple Ts id) id (λ S Us, convert_tuple)
    (λ S, CopyFrom) (λ S Us, CopyFrom).

(** The two members that only the pairs have: from and = a std::pair. *)
Definition tuple_of_pair {S T0 T1 U0 U1 : Type} `{!Convert S U0 T0, !Convert S U1 T1} (p : U0 * U1)
    : cmd S (tuple [T0; T1]) := f0 ← convert (fst p); f1 ← convert (snd p); mret (f0, (f1, ())).
Definition tuple_assign_pair {S T0 T1 U0 U1 : Type} `{!Assign S T0 U0, !Assign S T1 U1}
    (t : tuple [T0; T1]) (p : U0 * U1) : cmd S (tuple [T0; T1]) :=
  f0 ← assign (fst t) (fst p); f1 ← assign (fst (snd t)) (snd p); mret (f0, (f1, ())).

(** * Access *)

(** tuple_size<Tuple>::value. *)
Definition tuple_size (Ts : list Type) : nat := length Ts.

(** TupleElement<true, k, Tuple>::type; TupleElement<false, ...> is declared and not
    defined, so a program that asks for the field of a wrong index does not compile. *)
Fixpoint type_at (k : nat) (Ts : list Type) {struct Ts} : Type :=
  match Ts with
  | [] => unit
  | T :: Ts => match k with O => T | S k => type_at k Ts end
  end.

Definition tuple_element (k : nat) (Ts : list Type) : Type :=
  if bool_decide (k < tuple_size Ts)%nat then type_at k Ts else unit.

(** Get<k>::ConstField(t), the field f<k>_. *)
Fixpoint ConstField (k : nat) (Ts : list Type) {struct Ts} : tuple Ts → type_at k Ts :=
  match Ts with
  | [] => λ _, ()
  | T :: Ts => match k with O => λ t, fst t | S k => λ t, ConstField k Ts (snd t) end
  end.

(** The effect on the tuple of an assignment to the reference Get<k>::Field(t). *)
Fixpoint SetField (k : nat) (Ts : list Type) {struct Ts} : type_at k Ts → tuple Ts → tuple Ts :=
  match Ts with
  | [] => λ _ t, t
  | T :: Ts => match k with
               | O => λ v t, (v, snd t)
               | S k => λ v t, (fst t, SetField k Ts v (snd t))
               end
  end.

(** Get<k>: the constant field, and the field as an object to assign to. *)
Record Get (k : nat) (Ts : list Type) : Type := MkGet {
  Field : tuple Ts → type_at k Ts * (type_at k Ts → tuple Ts);
  CField : tuple Ts → type_at k Ts;
}.
Arguments MkGet {k Ts} _ _.
Arguments Field {k Ts} _ _.
Arguments CField {k Ts} _ _.

Definition get_class (k : nat) (Ts : list Type) : Get k Ts :=
  MkGet (λ t, (ConstField k Ts t, λ v, SetField k Ts v t)) (ConstField k Ts).

(** get<k>(t), for a constant and for a variable t. *)
Definition tuple_get (k : nat) {Ts : list Type} (t : tuple Ts) : type_at k Ts :=
  CField (get_class k Ts) t.
Definition tuple_get_field (k : nat) {Ts : list Type} (t : tuple Ts)
    : type_at k Ts * (type_at k Ts → tuple Ts) := Field (get_class k Ts) t.

(** The fields k0, k1, ... of a tuple, as a tuple. *)
Fixpoint select_tuple {Ts : list Type} (ks : list nat) (t : tuple Ts)
    : tuple (map (λ k, type_at k Ts) ks) :=
  match ks with [] => () | k :: ks => (tuple_get k t, select_tuple ks t) end.

(** * Comparison *)

(** get<k>(t1) == get<k>(t2). *)
Fixpoint equal_at {Ts Us : list Type} (E : each2 Equality Ts Us) (k : nat)
    : type_at k Ts → type_at k Us → bool :=
  match E with
  | each2_nil => λ _ _, true
  | each2_cons e E => match k with O => e | S k => equal_at E k end
  end.

(** SameSizeTuplePrefixComparator<k, k>::Eq. *)
Fixpoint PrefixEq {Ts Us : list Type} (E : each2 Equality Ts Us) (k : nat)
    (t1 : tuple Ts) (t2 : tuple Us) : bool :=
  match k with
  | O => true
  | S k => PrefixEq E k t1 t2 && equal_at E k (tuple_get k t1) (tuple_get k t2)
  end.

(** operator== and operator!=; tuples of different sizes do not compile. *)
Definition tuple_eq {Ts Us : list Type} {E : each2 Equality Ts Us} (t : tuple Ts) (u : tuple Us) : bool :=
  PrefixEq E (tuple_size Ts) t u.
Definition tuple_ne {Ts Us : list Type} {E : each2 Equality Ts Us} (t : tuple Ts) (u : tuple Us) : bool :=
  negb (tuple_eq t u).

(** * The classes and functions of the header *)

Section instances.
Context {T0 T1 T2 T3 T4 T5 T6 T7 T8 T9 : Type}.

Definition tuple0 := tuple_class [].
Definition tuple1 := tuple_class [T0].
Definition tuple2 := tuple_class [T0; T1].
Definition tuple3 := tuple_class [T0; T1; T2].
Definition tuple4 := tuple_class [T0; T1; T2; T3].
Definition tuple5 := tuple_class [T0; T1; T2; T3; T4].
Definition tuple6 := tuple_class [T0; T1; T2; T3; T4; T5].
Definition tuple7 := tuple_class [T0; T1; T2; T3; T4; T5; T6].
Definition tuple8 := tuple_class [T0; T1; T2; T3; T4; T5; T6; T7].
Definition tuple9 := tuple_class [T0; T1; T2; T3; T4; T5; T6; T7; T8].
Definition tuple10 := tuple_class [T0; T1; T2; T3; T4; T5; T6; T7; T8; T9].

Definition tuple_size0 : nat := tuple_size [].
Definition tuple_size1 : nat := tuple_size [T0].
Definition tuple_size2 : nat := tuple_size [T0; T1].
Definition tuple_size3 : nat := tuple_size [T0; T1; T2].
Definition tuple_size4 : nat := tuple_size [T0; T1; T2; T3].
Definition tuple_size5 : nat := tuple_size [T0; T1; T2; T3; T4].
Definition tuple_size6 : nat := tuple_size [T0; T1; T2; T3; T4; T5].
Definition tuple_size7 : nat := tuple_size [T0; T1; T2; T3; T4; T5; T6].
Definition tuple_size8 : nat := tuple_size [T0; T1; T2; T3; T4; T5; T6; T7].
Definition tuple_size9 : nat := tuple_size [T0; T1; T2; T3; T4; T5; T6; T7; T8].
Definition tuple_size10 : nat := tuple_size [T0; T1; T2; T3; T4; T5; T6; T7; T8; T9].
Definition TupleElement0 : Type := type_at 0 [T0; T1; T2; T3; T4; T5; T6; T7; T8; T9].
Definition TupleElement1 : Type := type_at 1 [T0; T1; T2; T3; T4; T5; T6; T7; T8; T9].
Definition TupleElement2 : Type := type_at 2 [T0; T1; T2; T3; T4; T5; T6; T7; T8; T9].
Definition TupleElement3 : Type := type_at 3 [T0; T1; T2; T3; T4; T5; T6; T7; T8; T9].
Definition TupleElement4 : Type := type_at 4 [T0; T1; T2; T3; T4; T5; T6; T7; T8; T9].
Definition TupleElement5 : Type := type_at 5 [T0; T1; T2; T3; T4; T5; T6; T7; T8; T9].
Definition TupleElement6 : Type := type_at 6 [T0; T1; T2; T3; T4; T5; T6; T7; T8; T9].
Definition TupleElement7 : Type := type_at 7 [T0; T1; T2; T3; T4; T5; T6; T7; T8; T9].
Definition TupleElement8 : Type := type_at 8 [T0; T1; T2; T3; T4; T5; T6; T7; T8; T9].
Definition TupleElement9 : Type := type_at 9 [T0; T1; T2; T3; T4; T5; T6; T7; T8; T9].

Definition make_tuple0 : tuple [] := tuple_fields tuple0.
Definition make_tuple1 (f0 : T0) : tuple [T0] :=
  tuple_fields tuple1 f0.
Definition make_tuple2 (f0 : T0) (f1 : T1) : tuple [T0; T1] :=
  tuple_fields tuple2 f0 f1.
Definition make_tuple3 (f0 : T0) (f1 : T1) (f2 : T2) : tuple [T0; T1; T2] :=
  tuple_fields tuple3 f0 f1 f2.
Definition make_tuple4 (f0 : T0) (f1 : T1) (f2 : T2) (f3 : T3) : tuple [T0; T1; T2; T3] :=
  tuple_fields tuple4 f0 f1 f2 f3.
Definition make_tuple5 (f0 : T0) (f1 : T1) (f2 : T2) (f3 : T3) (f4 : T4)
    : tuple [T0; T1; T2; T3; T4] :=
  tuple_fields tuple5 f0 f1 f2 f3 f4.
Definition make_tuple6 (f0 : T0) (f1 : T1) (f2 : T2) (f3 : T3) (f4 : T4) (f5 : T5)
    : tuple [T0; T1; T2; T3; T4; T5] :=
  tuple_fields tuple6 f0 f1 f2 f3 f4 f5.
Definition make_tuple7 (f0 : T0) (f1 : T1) (f2 : T2) (f3 : T3) (f4 : T4)
    (f5 : T5) (f6 : T6) : tuple [T0; T1; T2; T3; T4; T5; T6] :=
  tuple_fields tuple7 f0 f1 f2 f3 f4 f5 f6.
Definition make_tuple8 (f0 : T0) (f1 : T1) (f2 : T2) (f3 : T3) (f4 : T4)
    (f5 : T5) (f6 : T6) (f7 : T7) : tuple [T0; T1; T2; T3; T4; T5; T6; T7] :=
  tuple_fields tuple8 f0 f1 f2 f3 f4 f5 f6 f7.
Definition make_tuple9 (f0 : T0) (f1 : T1) (f2 : T2) (f3 : T3) (f4 : T4)
    (f5 : T5) (f6 : T6) (f7 : T7) (f8 : T8) : tuple [T0; T1; T2; T3; T4; T5; T6; T7; T8] :=
  tuple_fields tuple9 f0 f1 f2 f3 f4 f5 f6 f7 f8.
Definition make_tuple10 (f0 : T0) (f1 : T1) (f2 : T2) (f3 : T3) (f4 : T4)
    (f5 : T5) (f6 : T6) (f7 : T7) (f8 : T8) (f9 : T9)
    : tuple [T0; T1; T2; T3; T4; T5; T6; T7; T8; T9] :=
  tuple_fields tuple10 f0 f1 f2 f3 f4 f5 f6 f7 f8 f9.
End instances.

Definition Get0 (Ts : list Type) : Get 0 Ts := get_class 0 Ts.
Definition Get1 (Ts : list Type) : Get 1 Ts := get_class 1 Ts.
Definition Get2 (Ts : list Type) : Get 2 Ts := get_class 2 Ts.
Definition Get3 (Ts : list Type) : Get 3 Ts := get_class 3 Ts.
Definition Get4 (Ts : list Type) : Get 4 Ts := get_class 4 Ts.
Definition Get5 (Ts : list Type) : Get 5 Ts := get_class 5 Ts.
Definition Get6 (Ts : list Type) : Get 6 Ts := get_class 6 Ts.
Definition Get7 (Ts : list Type) : Get 7 Ts := get_class 7 Ts.
Definition Get8 (Ts : list Type) : Get 8 Ts := get_class 8 Ts.
Definition Get9 (Ts : list Type) : Get 9 Ts := get_class 9 Ts.

(** * Theorems *)

(** Access. *)
Lemma get_set_field k (Ts : list Type) (t : tuple Ts) (v : type_at k Ts) :
  (k < tuple_size Ts)%nat → tuple_get k (snd (tuple_get_field k t) v) = v.
Proof.
  revert k t v. induction Ts as [|T Ts IH]; intros [|k] t v Hk; unfold tuple_size in *; simpl in Hk;
    try lia; [done|].
  cbn. apply (IH k). lia.
Qed.

Lemma get_set_other j k (Ts : list Type) (t : tuple Ts) (v : type_at k Ts) :
  j ≠ k → tuple_get j (snd (tuple_get_field k t) v) = tuple_get j t.
Proof.
  revert j k t v. induction Ts as [|T Ts IH]; intros j k t v Hjk; [done|].
  destruct j as [|j], k as [|k]; simpl; try done. apply IH. lia.
Qed.

Lemma set_get_field k (Ts : list Type) (t : tuple Ts) :
  snd (tuple_get_field k t) (tuple_get k t) = t.
Proof.
  revert k t. induction Ts as [|T Ts IH]; intros [|k] t; try done; destruct t as [v t]; [done|].
  cbn. f_equal. apply (IH k t).
Qed.

Lemma tuple_element_at k (Ts : list Type) : (k < tuple_size Ts)%nat → tuple_element k Ts = type_at k Ts.
Proof. intros Hk. unfold tuple_element. by rewrite bool_decide_eq_true_2. Qed.

(** The fields of a tuple made of the first field and the rest. *)
Lemma tuple_get_cons k (T : Type) (Ts : list Type) (v : T) (t : tuple Ts) :
  tuple_get (Ts:=T :: Ts) (S k) (v, t) = tuple_get k t.
Proof. done. Qed.

(** Selected fields. *)
Lemma select_tuple_field {Ts : list Type} (ks : list nat) i k (t : tuple Ts) :
  ks !! i = Some k → JMeq (tuple_get i (select_tuple ks t)) (tuple_get k t).
Proof.
  revert i. induction ks as [|k' ks IH]; intros [|i] Hi; try done; [by injection Hi as ->|].
  apply (IH i Hi).
Qed.

Lemma curry_uncurry (Ts : list Type) (R : Type) (f : tuple Ts → R) t :
  uncurry_tuple Ts (curry_tuple Ts f) t = f t.
Proof.
  revert f t. induction Ts as [|T Ts IH]; intros f t; [by destruct t|].
  destruct t as [v t]. apply (IH (λ vs, f (v, vs)) t).
Qed.

(** The fields constructor and then get. *)
Lemma tuple_fields_all (Ts : list Type) (t : tuple Ts) :
  uncurry_tuple Ts (tuple_fields (tuple_class Ts)) t = t.
Proof. apply curry_uncurry. Qed.

(** Conversion and assignment. *)
Section copies.
Context {S : Type}.

(** Assigning [u] copies it, which gives [v], and does nothing else. *)
Fixpoint copying {Ts Us : list Type} (A : each2 (Assign S) Ts Us) : tuple Us → tuple Ts → Prop :=
  match A with
  | each2_nil => λ _ _, True
  | each2_cons a A => λ u v,
      (∀ t s, a t (fst u) s = (Done (fst v), s)) ∧ copying A (snd u) (snd v)
  end.

Lemma CopyFrom_copying {Ts Us} (A : each2 (Assign S) Ts Us) u v :
  copying A u v → ∀ t s, CopyFrom A t u s = (Done v, s).
Proof.
  induction A as [|T U Ts Us a A IH]; simpl; [by destruct v|].
  intros [Ha HA] t s. rewrite (bind_done _ _ _ _ _ (Ha _ s)) (bind_done _ _ _ _ _ (IH _ _ HA _ s)).
  by destruct v.
Qed.
End copies.

(** The comparison of two tuples of the same length from front to back. *)
Fixpoint fields_equal {Ts Us : list Type} (E : each2 Equality Ts Us) : tuple Ts → tuple Us → bool :=
  match E with
  | each2_nil => λ _ _, true
  | each2_cons e E => λ t u, e (fst t) (fst u) && fields_equal E (snd t) (snd u)
  end.

Lemma each2_length {C} {Ts Us : list Type} (E : each2 C Ts Us) : length Ts = length Us.
Proof. induction E as [|T U Ts Us e E IH]; [done|]. simpl. by rewrite IH. Qed.

Lemma PrefixEq_cons {T U Ts Us} (e : Equality T U) (E : each2 Equality Ts Us) k t u :
  PrefixEq (each2_cons e E) (S k) t u = e (fst t) (fst u) && PrefixEq E k (snd t) (snd u).
Proof.
  induction k as [|k IH]; [by rewrite /= andb_true_r|].
  transitivity (PrefixEq (each2_cons e E) (S k) t u &&
    equal_at E k (tuple_get k (snd t)) (tuple_get k (snd u))); [done|].
  by rewrite IH -andb_assoc.
Qed.

Lemma tuple_eq_fields {Ts Us} (E : each2 Equality Ts Us) t u : tuple_eq t u = fields_equal E t u.
Proof.
  unfold tuple_eq, tuple_size. induction E as [|T U Ts Us e E IH]; [done|].
  simpl length. by rewrite PrefixEq_cons IH.
Qed.

Lemma PrefixEq_true {Ts Us} (E : each2 Equality Ts Us) n t u :
  PrefixEq E n t u = true ↔
  ∀ k, (k < n)%nat → equal_at E k (tuple_get k t) (tuple_get k u) = true.
Proof.
  induction n as [|n IH]; [by split; [intros _ k; lia|]|].
  simpl. rewrite andb_true_iff IH. split.
  - intros [Hlt Hn] k Hk. destruct (decide (k = n)) as [->|]; [done|]. apply Hlt. lia.
  - intros H. split; [intros k Hk; apply H; lia|apply H; lia].
Qed.

(** Comparisons that decide the equality of values. *)
Inductive deciding : ∀ {Ts : list Type}, each2 Equality Ts Ts → Prop :=
  | deciding_nil : deciding each2_nil
  | deciding_cons {T Ts} (e : Equality T T) (E : each2 Equality Ts Ts) :
      (∀ t u, e t u = true ↔ t = u) → deciding E → deciding (each2_cons e E).

Lemma deciding_eq {Ts} (E : each2 Equality Ts Ts) : deciding E → ∀ t u, tuple_eq t u = true ↔ t = u.
Proof.
  intros HE t u. rewrite tuple_eq_fields. revert t u.
  induction HE as [|T Ts e E He _ IH]; intros t u; [by destruct t, u|].
  destruct t as [v t], u as [w u]. simpl. rewrite andb_true_iff He IH. naive_solver.
Qed.

(** The comparison of two tuples, which the code builds as a comparison of their
    prefixes from the last field down, is the one from front to back over the fields,
    and it is true exactly when every field compares equal; != is its negation. When
    the comparisons of the fields decide equality, so does that of the tuples, and
    after an assignment that copies the fields the two tuples are equal. *)
Theorem tuple_eq_pointwise {Ts Us : list Type} (E : each2 Equality Ts Us) (t : tuple Ts) (u : tuple Us) :
  tuple_eq t u = fields_equal E t u ∧
  (tuple_eq t u = true ↔ ∀ k, (k < tuple_size Ts)%nat →
     equal_at E k (tuple_get k t) (tuple_get k u) = true) ∧
  tuple_ne t u = negb (fields_equal E t u) ∧
  (∀ D : each2 Equality Ts Ts, deciding D →
     (∀ v w, tuple_eq (E:=D) v w = true ↔ v = w) ∧
     ∀ S (A : each2 (Assign S) Ts Us) v s, copying A u v →
       ∃ t', tuple_assign_from (tuple_class Ts) t u s = (Done t', s) ∧ tuple_eq (E:=D) t' v = true).
Proof.
  split_and!; [apply tuple_eq_fields|apply PrefixEq_true| |].
  - unfold tuple_ne. by rewrite tuple_eq_fields.
  - intros D HD. split; [by apply deciding_eq|]. intros S A v s HA. exists v.
    split; [by apply CopyFrom_copying|]. by apply (deciding_eq D HD).
Qed.

Example tuple_eq_pointwise_witness :
  tuple_eq (Ts:=[Z : Type; bool : Type]) (Us:=[Z : Type; bool : Type]) (3, (true, ())) (3, (false, ())) = false ∧
  ∃ t', tuple_assign_from (tuple_class [Z : Type; bool : Type]) (3, (true, ())) (make_tuple2 4 false) 7%nat = (Done t', 7%nat)
        ∧ tuple_eq t' (4, (false, ())) = true.
Proof.
  split; [reflexivity|].
  pose proof (tuple_eq_pointwise (Ts:=[Z : Type; bool : Type]) (Us:=[Z : Type; bool : Type]) _
    (3, (true, ())) (4, (false, ()))) as (_ & _ & _ & H).
  refine (proj2 (H _ _) nat _ (4, (false, ())) 7%nat _).
  - repeat (apply deciding_cons; [intros x y; apply bool_decide_eq_true|]). apply deciding_nil.
  - done.
Defined.
