(* ===== verification/NativeArrays.v ===== *)
(** Native arrays as containers: ArrayEq, ArrayAwareFind, CopyArray and class NativeArray
    of src/gtest/include/gtest/internal/gtest-internal.h, and the views of containers of
    src/gtest/include/gmock/internal/gmock-internal-utils.h that are made of them.

    An array of any number of dimensions is a row of scalars in an object on the heap; an
    element of type T[N1]...[Nk] is a block of N1 * ... * Nk of them. Scalars are compared
    with the operator== found for them and copied by assignment. *)

From S2P Require Import Prelude Mem Tuples.
#[local] Open Scope nat_scope.

(** * Memory *)

(** The scalars of an array, [None] where there is no value yet, and whether the array is
    one of new[]. *)
Record array_object (V : Type) : Type := ArrayObject { scalars : list (option V); of_new : bool }.
Arguments ArrayObject {V} _ _.
Arguments scalars {V} _.
Arguments of_new {V} _.

(** A pointer to the scalar at [offset]; the type of the elements it points to is kept
    apart. *)
Record element_pointer : Type := At { block : ptr; offset : nat }.
#[export] Instance element_pointer_eq_dec : EqDecision element_pointer.
Proof. solve_decision. Defined.

(** What default-initialization gives a scalar: nothing for the arithmetic types and
    pointers, the value of its default constructor for a class. *)
Class NewScalar (V : Type) : Type := new_scalar : option V.
#[global] Hint Mode NewScalar + : typeclass_instances.

(** The size in scalars of T[N1]...[Nk], for the dimensions N1, ..., Nk. *)
Definition extent (dims : list nat) : nat := foldr mult 1 dims.

(** p + i for a pointer to elements of a size; p[i] is what it points to. *)
Definition element (size : nat) (p : element_pointer) (i : nat) : element_pointer :=
  At (block p) (offset p + i * size).

Section memory.
Context {MA : Malloc} {V : Type} `{!NewScalar V}.
Notation heap := (mem (array_object V)).
Implicit Types (p : element_pointer) (v : V) (h : heap).

Definition load_scalar p : cmd heap V :=
  o ← load (block p);
  match scalars o !! offset p with
  | Some c => or_ub Indeterminate c
  | None => undefined OutOfBounds
  end.

(** *p = v; *)
Definition store_scalar p v : cmd heap unit :=
  o ← load (block p);
  if bool_decide (offset p < length (scalars o))
  then store (block p) (ArrayObject (<[offset p := Some v]> (scalars o)) (of_new o))
  else undefined OutOfBounds.

(** new Element[n]; nobody handles the std::bad_alloc. *)
Definition new_array (size n : nat) : cmd heap element_pointer :=
  p ← malloc (ArrayObject (replicate (n * size) new_scalar) true);
  match p with Some l => mret (At (Some l) 0) | None => abort end.

(** delete[] p; it takes NULL or what new[] gave. *)
Definition delete_array p : cmd heap unit :=
  match block p with
  | None => mret ()
  | Some l =>
      o ← (λ h, (Done (cells h !! l), h));
      match o with
      | Some o => if of_new o && bool_decide (offset p = 0) then free (Some l) else undefined BadFree
      | None => undefined BadFree
      end
  end.

(** * ArrayEq, ArrayAwareFind, CopyArray *)

Context `{!Equality V V}.

(** The loop of ArrayEq(lhs, size, rhs), from index i on with n to go. *)
Fixpoint array_eq_from (eq : element_pointer → element_pointer → cmd heap bool) (size : nat)
    (lhs rhs : element_pointer) (i n : nat) : cmd heap bool :=
  match n with
  | 0 => mret true
  | S n =>
      b ← eq (element size lhs i) (element size rhs i);
      if negb b then mret false else array_eq_from eq size lhs rhs (S i) n
  end.

(** ArrayEq(lhs, rhs) of two elements: the overload for k = 0 and the one for k >= 1. *)
Fixpoint ArrayEq (dims : list nat) (lhs rhs : element_pointer) : cmd heap bool :=
  match dims with
  | [] => l ← load_scalar lhs; r ← load_scalar rhs; mret (equal l r)
  | N :: dims => array_eq_from (ArrayEq dims) (extent dims) lhs rhs 0 N
  end.

(** ArrayEq(lhs, size, rhs) of two rows of elements. *)
Definition ArrayEq_row (dims : list nat) (lhs : element_pointer) (size : nat) (rhs : element_pointer) :
    cmd heap bool :=
  array_eq_from (ArrayEq dims) (extent dims) lhs rhs 0 size.

(** ArrayAwareFind(begin, end, elem), of the n elements from begin to end. *)
Fixpoint ArrayAwareFind (dims : list nat) (it : element_pointer) (n : nat) (elem : element_pointer) :
    cmd heap element_pointer :=
  match n with
  | 0 => mret it
  | S n =>
      b ← ArrayEq dims it elem;
      if (b : bool) then mret it else ArrayAwareFind dims (element (extent dims) it 1) n elem
  end.

Fixpoint copy_array_from (copy : element_pointer → element_pointer → cmd heap unit) (size : nat)
    (from to : element_pointer) (i n : nat) : cmd heap unit :=
  match n with
  | 0 => mret ()
  | S n => copy (element size from i) (element size to i);; copy_array_from copy size from to (S i) n
  end.

(** CopyArray(from, to) of an element. *)
Fixpoint CopyArray (dims : list nat) (from to : element_pointer) : cmd heap unit :=
  match dims with
  | [] => v ← load_scalar from; store_scalar to v
  | N :: dims => copy_array_from (CopyArray dims) (extent dims) from to 0 N
  end.

(** CopyArray(from, size, to) of a row of elements. *)
Definition CopyArray_row (dims : list nat) (from : element_pointer) (size : nat) (to : element_pointer) :
    cmd heap unit :=
  copy_array_from (CopyArray dims) (extent dims) from to 0 size.

(** * NativeArray<Element> *)

(** What clone_ points to. *)
Inductive initializer : Set := InitRef_ | InitCopy_.
#[export] Instance initializer_eq_dec : EqDecision initializer.
Proof. solve_decision. Defined.

Record NativeArray : Type := MkNativeArray { array_ : element_pointer; size_ : nat; clone_ : initializer }.

Definition InitCopy (dims : list nat) (array : element_pointer) (a_size : nat) : cmd heap NativeArray :=
  copy ← new_array (extent dims) a_size;
  CopyArray_row dims array a_size copy;;
  mret (MkNativeArray copy a_size InitCopy_).

Definition InitRef (array : element_pointer) (a_size : nat) : cmd heap NativeArray :=
  mret (MkNativeArray array a_size InitRef_).

(** The constructors, for the two relations to the source and for a copy. *)
Definition NativeArray_reference (array : element_pointer) (count : nat) : cmd heap NativeArray :=
  InitRef array count.
Definition NativeArray_copy (dims : list nat) (array : element_pointer) (count : nat) : cmd heap NativeArray :=
  InitCopy dims array count.
Definition NativeArray_clone (dims : list nat) (rhs : NativeArray) : cmd heap NativeArray :=
  match clone_ rhs with
  | InitRef_ => InitRef (array_ rhs) (size_ rhs)
  | InitCopy_ => InitCopy dims (array_ rhs) (size_ rhs)
  end.

(** ~NativeArray(). *)
Definition NativeArray_destroy (a : NativeArray) : cmd heap unit :=
  if bool_decide (clone_ a ≠ InitRef_) then delete_array (array_ a) else mret ().

Definition begin_ (a : NativeArray) : element_pointer := array_ a.
Definition end_ (dims : list nat) (a : NativeArray) : element_pointer :=
  element (extent dims) (array_ a) (size_ a).

Definition NativeArray_equal (dims : list nat) (a rhs : NativeArray) : cmd heap bool :=
  if bool_decide (size_ a = size_ rhs) then ArrayEq_row dims (begin_ a) (size_ a) (begin_ rhs)
  else mret false.

(** * StlContainerView *)

(** StlContainerView<RawContainer>: the container that a raw container is seen as, by a
    reference to it or as a copy. *)
Class StlContainerView (Raw : Type) : Type := {
  view_type : Type;
  ConstReference : Raw → cmd heap view_type;
  Copy : Raw → cmd heap view_type;
}.

(** The general template, for what is a container already. *)
Definition container_view (C : Type) : StlContainerView C :=
  {| view_type := C; ConstReference container := mret container; Copy container := mret container |}.

(** An lvalue of type Element[N]: where it begins. *)
Record array_of (dims : list nat) (N : nat) : Type := ArrayOf { first : element_pointer }.

Definition array_view (dims : list nat) (N : nat) : StlContainerView (array_of dims N) :=
  {| view_type := NativeArray;
     ConstReference array := NativeArray_reference (first dims N array) N;
     Copy array := NativeArray_copy dims (first dims N array) N |}.

(** tuple<ElementPointer, Size>. *)
Definition tuple_view (dims : list nat) : StlContainerView (tuple [element_pointer : Type; nat : Type]) :=
  {| view_type := NativeArray;
     ConstReference array := NativeArray_reference (fst array) (fst (snd array));
     Copy array := NativeArray_copy dims (fst array) (fst (snd array)) |}.
End memory.

(** * A program that uses views *)

(** What a program is given to make a view of: an lvalue of type Element[N], or a tuple of
    a pointer and a size. *)
Inductive raw_container : Set :=
  | RawArray (N : nat) (array : element_pointer)
  | RawTuple (p : element_pointer) (n : nat).

(** What it does: views with names, its own arrays, and what it does with a container. *)
Inductive request (V : Type) : Type :=
  | ViewReference (v : nat) (raw : raw_container)
  | ViewCopy (v : nat) (raw : raw_container)
  | ViewClone (v w : nat)
  | ViewDestroy (v : nat)
  | WriteScalar (p : element_pointer) (x : V)
  | CompareViews (v w : nat)
  | FindIn (v : nat) (elem : element_pointer)
  | ReadView (v : nat).
Arguments ViewReference {V} _ _.
Arguments ViewCopy {V} _ _.
Arguments ViewClone {V} _ _.
Arguments ViewDestroy {V} _.
Arguments WriteScalar {V} _ _.
Arguments CompareViews {V} _ _.
Arguments FindIn {V} _ _.
Arguments ReadView {V} _.

Inductive reply (V : Type) : Type :=
  | Nothing
  | Truth (b : bool)
  | Position (i : nat)
  | Values (xs : list V).
Arguments Nothing {V}.
Arguments Truth {V} _.
Arguments Position {V} _.
Arguments Values {V} _.

Record client (V : Type) : Type := Client { memory : mem (array_object V); views : gmap nat NativeArray }.
Arguments Client {V} _ _.
Arguments memory {V} _.
Arguments views {V} _.

Section clients.
Context {MA : Malloc} {V : Type} `{!NewScalar V, !Equality V V} (dims : list nat).
Notation heap := (mem (array_object V)).

Definition on_memory {A} (m : cmd heap A) : cmd (client V) A :=
  zoom memory (λ h c, Client h (views c)) m.
Definition set_view (v : nat) (a : NativeArray) : cmd (client V) unit :=
  modify (λ c, Client (memory c) (<[v := a]> (views c))).
Definition the_view (v : nat) : cmd (client V) NativeArray :=
  a ← gets (λ c, views c !! v); or_ub Dangling a.

Definition make_view (by_copy : bool) (raw : raw_container) : cmd heap NativeArray :=
  match raw with
  | RawArray N array =>
      if by_copy then Copy (StlContainerView := array_view dims N) (ArrayOf dims N array)
      else ConstReference (StlContainerView := array_view dims N) (ArrayOf dims N array)
  | RawTuple p n =>
      if by_copy then Copy (StlContainerView := tuple_view dims) ((p, (n, ())) : tuple [_ : Type; _ : Type])
      else ConstReference (StlContainerView := tuple_view dims) ((p, (n, ())) : tuple [_ : Type; _ : Type])
  end.

(** The scalars from a pointer on. *)
Fixpoint read_scalars (p : element_pointer) (n : nat) : cmd heap (list V) :=
  match n with
  | 0 => mret []
  | S n => x ← load_scalar p; xs ← read_scalars (At (block p) (S (offset p))) n; mret (x :: xs)
  end.

Definition run_request (r : request V) : cmd (client V) (reply V) :=
  match r with
  | ViewReference v raw => a ← on_memory (make_view false raw); set_view v a;; mret Nothing
  | ViewCopy v raw => a ← on_memory (make_view true raw); set_view v a;; mret Nothing
  | ViewClone v w =>
      a ← the_view w; b ← on_memory (NativeArray_clone dims a); set_view v b;; mret Nothing
  | ViewDestroy v =>
      a ← the_view v; on_memory (NativeArray_destroy a);;
      modify (λ c, Client (memory c) (delete v (views c)));; mret Nothing
  | WriteScalar p x => on_memory (store_scalar p x);; mret Nothing
  | CompareViews v w =>
      a ← the_view v; rhs ← the_view w;
      b ← on_memory (NativeArray_equal dims a rhs); mret (Truth b)
  | FindIn v elem =>
      a ← the_view v;
      it ← on_memory (ArrayAwareFind dims (begin_ a) (size_ a) elem);
      mret (Position (offset it - offset (begin_ a)))
  | ReadView v =>
      a ← the_view v;
      xs ← on_memory (read_scalars (begin_ a) (offset (end_ dims a) - offset (begin_ a)));
      mret (Values xs)
  end.

Fixpoint run_requests (rs : list (request V)) : cmd (client V) (list (reply V)) :=
  match rs with
  | [] => mret []
  | r :: rs => y ← run_request r; ys ← run_requests rs; mret (y :: ys)
  end.

(** ** What is promised *)

(** A view shows part of an array as it is now, or values of its own. *)
Inductive view : Type := Alias (p : element_pointer) (n : nat) | Own (xs : list V) (n : nat).

Record promise : Type := Promise { arrays : gmap loc (list V); seen : gmap nat view }.

(** The scalars of the n elements from p on. *)
Definition row (s : promise) (p : element_pointer) (n : nat) : option (list V) :=
  l ← block p; xs ← arrays s !! l;
  if bool_decide (offset p + n * extent dims ≤ length xs)
  then Some (take (n * extent dims) (drop (offset p) xs)) else None.

Definition view_size (w : view) : nat := match w with Alias _ n | Own _ n => n end.
Definition content (s : promise) (w : view) : option (list V) :=
  match w with Alias p n => row s p n | Own xs _ => Some xs end.

Definition raw_pointer (raw : raw_container) : element_pointer :=
  match raw with RawArray _ p | RawTuple p _ => p end.
Definition raw_size (raw : raw_container) : nat := match raw with RawArray n _ | RawTuple _ n => n end.

(** Two rows of the same length are equal scalar by scalar. *)
Fixpoint equal_all (xs ys : list V) : bool :=
  match xs, ys with x :: xs, y :: ys => equal x y && equal_all xs ys | _, _ => true end.

(** The scalars before the first of n elements that equals ys. *)
Fixpoint find_element (n : nat) (xs ys : list V) : nat :=
  match n with
  | 0 => 0
  | S n => if equal_all (take (extent dims) xs) ys then 0
           else extent dims + find_element n (drop (extent dims) xs) ys
  end.

Definition promise_request (s : promise) (r : request V) : option (reply V * promise) :=
  match r with
  | ViewReference v raw =>
      guard (seen s !! v = None);;
      _ ← row s (raw_pointer raw) (raw_size raw);
      Some (Nothing, Promise (arrays s) (<[v := Alias (raw_pointer raw) (raw_size raw)]> (seen s)))
  | ViewCopy v raw =>
      guard (seen s !! v = None);;
      xs ← row s (raw_pointer raw) (raw_size raw);
      Some (Nothing, Promise (arrays s) (<[v := Own xs (raw_size raw)]> (seen s)))
  | ViewClone v w =>
      guard (seen s !! v = None);;
      a ← seen s !! w; Some (Nothing, Promise (arrays s) (<[v := a]> (seen s)))
  | ViewDestroy v =>
      _ ← seen s !! v; Some (Nothing, Promise (arrays s) (delete v (seen s)))
  | WriteScalar p x =>
      l ← block p; xs ← arrays s !! l;
      guard (offset p < length xs);;
      Some (Nothing, Promise (<[l := <[offset p := x]> xs]> (arrays s)) (seen s))
  | CompareViews v w =>
      a ← seen s !! v; b ← seen s !! w; xs ← content s a; ys ← content s b;
      Some (Truth (bool_decide (view_size a = view_size b) && equal_all xs ys), s)
  | FindIn v elem =>
      a ← seen s !! v; xs ← content s a; ys ← row s elem 1;
      Some (Position (find_element (view_size a) xs ys), s)
  | ReadView v =>
      a ← seen s !! v; xs ← content s a; Some (Values xs, s)
  end.

Fixpoint promise_requests (s : promise) (rs : list (request V)) : option (list (reply V) * promise) :=
  match rs with
  | [] => Some ([], s)
  | r :: rs =>
      '(y, s) ← promise_request s r; '(ys, s) ← promise_requests s rs; Some (y :: ys, s)
  end.
End clients.
Arguments Promise {V} _ _.
Arguments arrays {V} _.
Arguments seen {V} _.
Arguments Alias {V} _ _.
Arguments Own {V} _ _.

(** * Reading and writing rows of scalars *)

Section rows.
Context {MA : Malloc} {V : Type} `{!NewScalar V, !Equality V V}.
Notation heap := (mem (array_object V)).
Implicit Types (p q : element_pointer) (h : heap) (xs ys : list V) (l : loc).

Definition shift (p : element_pointer) (n : nat) : element_pointer := At (block p) (offset p + n).

(** The scalars from p on begin with xs. *)
Definition reads h p xs : Prop :=
  ∃ l o rest, block p = Some l ∧ cells h !! l = Some o ∧
              drop (offset p) (scalars o) = (Some <$> xs) ++ rest.

Lemma shift_0 p : shift p 0 = p.
Proof. destruct p. by rewrite /shift Nat.add_0_r. Qed.

Lemma element_0 size p : element size p 0 = p.
Proof. exact (shift_0 p). Qed.

Lemma element_S size p i : element size p (S i) = shift (element size p i) size.
Proof. unfold element, shift. f_equal. simpl. lia. Qed.

Lemma equal_all_app xs xs' ys ys' :
  length xs = length ys → equal_all (xs ++ xs') (ys ++ ys') = equal_all xs ys && equal_all xs' ys'.
Proof.
  revert ys. induction xs as [|x xs IH]; intros [|y ys] Hl; try done. simpl in *.
  rewrite IH; [lia|]. by rewrite andb_assoc.
Qed.

Lemma reads_app h p xs ys : reads h p (xs ++ ys) → reads h p xs ∧ reads h (shift p (length xs)) ys.
Proof.
  intros (l & o & rest & Hp & Ho & Hdrop). rewrite fmap_app -app_assoc in Hdrop.
  split; exists l, o; [exists ((Some <$> ys) ++ rest)|exists rest]; split_and!; try done.
  simpl. rewrite -drop_drop Hdrop drop_app_length' ?length_fmap //.
Qed.

Lemma reads_take h p xs n : reads h p xs → reads h p (take n xs).
Proof. rewrite -{1}(take_drop n xs). by intros [? _]%reads_app. Qed.

Lemma reads_drop h p xs n : n ≤ length xs → reads h p xs → reads h (shift p n) (drop n xs).
Proof. intros Hn. rewrite -{1}(take_drop n xs). intros [_ Hr]%reads_app. by rewrite length_take_le in Hr. Qed.

Lemma load_scalar_reads h p x xs : reads h p (x :: xs) → load_scalar p h = (Done x, h).
Proof.
  intros (l & o & rest & Hp & Ho & Hdrop). unfold load_scalar. rewrite Hp.
  rewrite (bind_done _ _ _ _ _ (load_live _ _ _ Ho)).
  assert (scalars o !! offset p = Some (Some x)) as ->; [|done].
  by rewrite -(Nat.add_0_r (offset p)) -lookup_drop Hdrop.
Qed.

Lemma reads_insert_ne h p xs l o : block p ≠ Some l → reads h p xs → reads (Mem (<[l := o]> (cells h)) (calls h)) p xs.
Proof.
  intros Hne (l' & o' & rest & Hp & Ho & Hd). exists l', o', rest. split_and!; [done| |done].
  simpl. rewrite lookup_insert_ne //. congruence.
Qed.

(** An array of [n] blocks of a size, from block [i] on, is the first of them and the rest. *)
Lemma first_block {A} (size n : nat) (xs : list A) :
  length xs = S n * size → ∃ (xs1 xs2 : list A), xs = xs1 ++ xs2 ∧ length xs1 = size ∧ length xs2 = n * size.
Proof.
  intros Hl. exists (take size xs), (drop size xs). rewrite take_drop length_take length_drop.
  split_and!; [done|lia..].
Qed.

Section equality.
Context (size : nat) (eq : element_pointer → element_pointer → cmd heap bool) (h : heap).
Hypothesis eq_spec : ∀ p q xs ys, length xs = size → length ys = size → reads h p xs → reads h q ys →
  eq p q h = (Done (equal_all xs ys), h).

Lemma array_eq_from_spec n i p q xs ys :
  length xs = n * size → length ys = n * size →
  reads h (element size p i) xs → reads h (element size q i) ys →
  array_eq_from eq size p q i n h = (Done (equal_all xs ys), h).
Proof.
  revert i xs ys. induction n as [|n IH]; intros i xs ys Hxs Hys Hp Hq.
  - by destruct xs, ys.
  - destruct (first_block _ _ _ Hxs) as (xs1 & xs2 & -> & Hx1 & Hx2).
    destruct (first_block _ _ _ Hys) as (ys1 & ys2 & -> & Hy1 & Hy2).
    apply reads_app in Hp as [Hp1 Hp2]. apply reads_app in Hq as [Hq1 Hq2].
    rewrite Hx1 -element_S in Hp2. rewrite Hy1 -element_S in Hq2.
    rewrite equal_all_app; [lia|]. cbn [array_eq_from].
    rewrite (bind_done _ _ _ _ _ (eq_spec _ _ _ _ Hx1 Hy1 Hp1 Hq1)).
    destruct (equal_all xs1 ys1); simpl; [by apply IH|done].
Qed.
End equality.

Lemma ArrayEq_spec dims h p q xs ys :
  length xs = extent dims → length ys = extent dims → reads h p xs → reads h q ys →
  ArrayEq dims p q h = (Done (equal_all xs ys), h).
Proof.
  revert p q xs ys. induction dims as [|N dims IH]; intros p q xs ys Hxs Hys Hp Hq; simpl in *.
  - destruct xs as [|x []], ys as [|y []]; try done. cbn [equal_all].
    rewrite (bind_done _ _ _ _ _ (load_scalar_reads _ _ _ _ Hp)).
    rewrite (bind_done _ _ _ _ _ (load_scalar_reads _ _ _ _ Hq)). by rewrite andb_true_r.
  - by apply (array_eq_from_spec _ _ _ IH); rewrite ?element_0.
Qed.

Lemma ArrayEq_row_spec dims h p q n xs ys :
  length xs = n * extent dims → length ys = n * extent dims → reads h p xs → reads h q ys →
  ArrayEq_row dims p n q h = (Done (equal_all xs ys), h).
Proof.
  intros. apply (array_eq_from_spec (extent dims) _ h (ArrayEq_spec dims h)); by rewrite ?element_0.
Qed.

(** * Copies *)

(** The object at [l] has [xs] where it had [ys], after [a]. *)
Definition filled h l (a : list (option V)) xs c w : heap :=
  Mem (<[l := ArrayObject (a ++ (Some <$> xs) ++ c) w]> (cells h)) (calls h).

Section copying.
Context (size : nat) (copy : element_pointer → element_pointer → cmd heap unit).
Hypothesis copy_spec : ∀ h p xs l (a ys c : list (option V)) w,
  length xs = size → length ys = size → reads h p xs → block p ≠ Some l →
  cells h !! l = Some (ArrayObject (a ++ ys ++ c) w) →
  copy p (At (Some l) (length a)) h = (Done (), filled h l a xs c w).

Lemma copy_array_from_spec n i h p l k xs (a ys c : list (option V)) w :
  length xs = n * size → length ys = n * size → reads h (element size p i) xs → block p ≠ Some l →
  cells h !! l = Some (ArrayObject (a ++ ys ++ c) w) → length a = k + i * size →
  copy_array_from copy size p (At (Some l) k) i n h = (Done (), filled h l a xs c w).
Proof.
  revert i h xs a ys. induction n as [|n IH]; intros i h xs a ys Hxs Hys Hp Hne Hl Ha.
  - destruct xs, ys; try done. rewrite /filled insert_id //. by destruct h.
  - destruct (first_block _ _ _ Hxs) as (xs1 & xs2 & -> & Hx1 & Hx2).
    destruct (first_block _ _ _ Hys) as (ys1 & ys2 & -> & Hy1 & Hy2).
    apply reads_app in Hp as [Hp1 Hp2]. rewrite Hx1 -element_S in Hp2. cbn [copy_array_from].
    rewrite -app_assoc in Hl.
    assert (element size (At (Some l) k) i = At (Some l) (length a)) as -> by (unfold element; simpl; f_equal; lia).
    rewrite (bind_done _ _ _ _ _ (copy_spec _ _ _ _ _ _ _ _ Hx1 Hy1 Hp1 Hne Hl)).
    rewrite (IH (S i) _ xs2 (a ++ (Some <$> xs1)) ys2).
    + done.
    + done.
    + by apply reads_insert_ne.
    + done.
    + by rewrite lookup_insert_eq -app_assoc.
    + rewrite length_app length_fmap. lia.
    + by rewrite /filled /= insert_insert_eq fmap_app -!app_assoc.
Qed.
End copying.

Lemma CopyArray_spec dims h p xs l (a ys c : list (option V)) w :
  length xs = extent dims → length ys = extent dims → reads h p xs → block p ≠ Some l →
  cells h !! l = Some (ArrayObject (a ++ ys ++ c) w) →
  CopyArray dims p (At (Some l) (length a)) h = (Done (), filled h l a xs c w).
Proof.
  revert h p xs l a ys c w. induction dims as [|N dims IH]; intros h p xs l a ys c w Hxs Hys Hp Hne Hl; simpl in *.
  - destruct xs as [|x []], ys as [|y []]; try done.
    rewrite (bind_done _ _ _ _ _ (load_scalar_reads _ _ _ _ Hp)).
    unfold store_scalar. simpl. rewrite (bind_done _ _ _ _ _ (load_live _ _ _ Hl)). simpl.
    rewrite bool_decide_eq_true_2; [rewrite length_app /=; lia|].
    rewrite (store_live _ _ _ _ Hl). by rewrite insert_app_r_alt // Nat.sub_diag.
  - apply (copy_array_from_spec (extent dims) (CopyArray dims)) with (ys := ys); try done.
    by rewrite element_0.
Qed.

(** A new array that takes the values of a row. *)
Lemma InitCopy_spec dims h p n xs :
  malloc_total → length xs = n * extent dims → reads h p xs →
  ∃ l, cells h !! l = None ∧
    InitCopy dims p n h =
      (Done (MkNativeArray (At (Some l) 0) n InitCopy_),
       Mem (<[l := ArrayObject (Some <$> xs) true]> (cells h)) (S (calls h))).
Proof.
  intros Ht Hxs Hp. set (o := ArrayObject (replicate (n * extent dims) (new_scalar (V:=V))) true).
  destruct (malloc_new o h Ht) as (l & Hl & Hm). exists l. split; [done|].
  unfold InitCopy, new_array. rewrite bind_assoc (bind_done _ _ _ _ _ Hm) bind_ret_l.
  assert (block p ≠ Some l) as Hne by (destruct Hp as (l' & o' & _ & -> & Ho & _); congruence).
  set (h' := Mem (<[l := o]> (cells h)) (S (calls h))).
  assert (CopyArray_row dims p n (At (Some l) 0) h' = (Done (), filled h' l [] xs [] true)) as Hc.
  { apply (copy_array_from_spec (extent dims) (CopyArray dims)) with (ys := replicate (n * extent dims) (new_scalar (V:=V))).
    - intros h1 q zs l' a' ys' c' w'. exact (CopyArray_spec dims h1 q zs l' a' ys' c' w').
    - done.
    - by rewrite length_replicate.
    - rewrite element_0. exact (reads_insert_ne (Mem (cells h) (S (calls h))) p xs l o Hne Hp).
    - done.
    - by rewrite /= lookup_insert_eq app_nil_r.
    - done. }
  rewrite (bind_done _ _ _ _ _ Hc). by rewrite /filled /mret /cmd_ret /= app_nil_r insert_insert_eq.
Qed.
End rows.

(** * Views keep what is promised *)

Section refinement.
Context {MA : Malloc} {V : Type} `{!NewScalar V, !Equality V V} (dims : list nat).
Notation heap := (mem (array_object V)).
Implicit Types (p q : element_pointer) (h : heap) (xs ys : list V) (l : loc) (c : client V) (s : promise (V:=V)).

(** The object of an array of the program, and that of a copy. *)
Definition own_array xs : array_object V := ArrayObject (Some <$> xs) false.
Definition copied xs : array_object V := ArrayObject (Some <$> xs) true.

Lemma own_not_copied xs ys : own_array xs ≠ copied ys.
Proof. discriminate. Qed.

(** The copy at [l] belongs to the view [v]. *)
Definition owner c (v : nat) l : Prop := ∃ n, views c !! v = Some (MkNativeArray (At (Some l) 0) n InitCopy_).

Definition view_kept h (a : NativeArray) (w : view (V:=V)) : Prop :=
  match w with
  | Alias p n => a = MkNativeArray p n InitRef_
  | Own xs n => ∃ l, a = MkNativeArray (At (Some l) 0) n InitCopy_ ∧
                     cells h !! l = Some (copied xs) ∧ length xs = n * extent dims
  end.

(** The views are those promised, each copy belongs to one of them, and the heap holds
    nothing but the program's arrays and the copies. *)
Record keeps s c : Prop := {
  keeps_arrays l xs : arrays s !! l = Some xs → cells (memory c) !! l = Some (own_array xs);
  keeps_views v : option_relation (view_kept (memory c)) (λ _, False) (λ _, False) (views c !! v) (seen s !! v);
  keeps_apart v w l : owner c v l → owner c w l → v = w;
  keeps_only l : is_Some (cells (memory c) !! l) → is_Some (arrays s !! l) ∨ ∃ v, owner c v l;
}.

Lemma keeps_view s c v w : keeps s c → seen s !! v = Some w → ∃ a, views c !! v = Some a ∧ view_kept (memory c) a w.
Proof.
  intros Hk Hv. pose proof (keeps_views s c Hk v) as H. rewrite Hv in H.
  destruct (views c !! v) as [a|]; [by exists a|done].
Qed.

Lemma keeps_no_view s c v : keeps s c → seen s !! v = None → views c !! v = None.
Proof.
  intros Hk Hv. pose proof (keeps_views s c Hk v) as H. rewrite Hv in H. by destruct (views c !! v).
Qed.

Lemma row_reads s c p n xs :
  keeps s c → row dims s p n = Some xs → length xs = n * extent dims ∧ reads (memory c) p xs.
Proof.
  unfold row. intros Hk (l & Hp & (zs & Hl & Hrow)%bind_Some)%bind_Some. case_bool_decide as Hlen; [|done].
  injection Hrow as <-. split; [rewrite length_take length_drop; lia|].
  exists l, (own_array zs), (Some <$> drop (n * extent dims) (drop (offset p) zs)).
  split_and!; [done|by apply (keeps_arrays s c Hk)|].
  rewrite -fmap_app take_drop. by rewrite /own_array /= fmap_drop.
Qed.

Lemma content_reads s c v w xs :
  keeps s c → seen s !! v = Some w → content dims s w = Some xs →
  ∃ a, views c !! v = Some a ∧ size_ a = view_size w ∧ length xs = size_ a * extent dims ∧
       reads (memory c) (array_ a) xs.
Proof.
  intros Hk Hv Hc. destruct (keeps_view s c v w Hk Hv) as (a & Ha & Hkept). exists a. split; [done|].
  destruct w as [p n|zs n]; simpl in *.
  - subst a. split; [done|]. by apply (row_reads s c).
  - destruct Hkept as (l & -> & Hl & Hlen). injection Hc as ->. split_and!; [done..|].
    exists l, (copied xs), []. by rewrite app_nil_r.
Qed.

(** Reads do not change the state of a client. *)
Lemma on_memory_read {A} (m : cmd heap A) c (x : A) :
  m (memory c) = (Done x, memory c) → on_memory m c = (Done x, c).
Proof. intros Hm. rewrite /on_memory (zoom_done _ _ _ _ _ _ Hm). by destruct c. Qed.

Lemma the_view_run v a c : views c !! v = Some a → the_view v c = (Done a, c).
Proof. intros Hv. rewrite /the_view /mbind /cmd_bind /gets. by rewrite Hv. Qed.

Lemma read_scalars_spec h p xs : reads h p xs → read_scalars p (length xs) h = (Done xs, h).
Proof.
  revert p. induction xs as [|x xs IH]; intros p Hr; [done|]. cbn [length read_scalars].
  rewrite (bind_done _ _ _ _ _ (load_scalar_reads _ _ _ _ Hr)).
  assert (reads h (At (block p) (S (offset p))) xs) as Hr'.
  { pose proof (reads_drop h p (x :: xs) 1 ltac:(simpl; lia) Hr) as H. simpl in H.
    by rewrite /shift Nat.add_1_r drop_0 in H. }
  by rewrite (bind_done _ _ _ _ _ (IH _ Hr')).
Qed.

Lemma find_locates_first h p q n xs ys :
  length xs = n * extent dims → length ys = extent dims → reads h p xs → reads h q ys →
  ArrayAwareFind dims p n q h = (Done (shift p (find_element dims n xs ys)), h).
Proof.
  revert p xs. induction n as [|n IH]; intros p xs Hxs Hys Hp Hq; cbn [ArrayAwareFind find_element].
  - by rewrite shift_0.
  - assert (length (take (extent dims) xs) = extent dims) as Hlen by (rewrite length_take; lia).
    rewrite (bind_done _ _ _ _ _ (ArrayEq_spec dims h p q _ ys Hlen Hys (reads_take _ _ _ _ Hp) Hq)).
    destruct (equal_all _ ys); [by rewrite shift_0|].
    assert (element (extent dims) p 1 = shift p (extent dims)) as -> by (by rewrite /element /shift Nat.mul_1_l).
    rewrite (IH _ (drop (extent dims) xs)); [rewrite length_drop; lia|done|apply reads_drop; [lia|done]|done|].
    by rewrite /shift /= Nat.add_assoc.
Qed.

(** ** The requests that change the state *)

(** A new view of any kind. *)
Lemma keeps_new_alias s c v p n :
  keeps s c → seen s !! v = None →
  keeps (Promise (arrays s) (<[v := Alias p n]> (seen s)))
        (Client (memory c) (<[v := MkNativeArray p n InitRef_]> (views c))).
Proof.
  intros Hk Hv. pose proof (keeps_no_view s c v Hk Hv) as Hno.
  assert (∀ u l, owner (Client (memory c) (<[v := MkNativeArray p n InitRef_]> (views c))) u l ↔ owner c u l) as Howner.
  { intros u l. unfold owner. simpl. destruct (decide (u = v)) as [->|Hne].
    - rewrite lookup_insert_eq Hno. naive_solver.
    - by rewrite lookup_insert_ne. }
  split; simpl.
  - apply (keeps_arrays s c Hk).
  - intros u. destruct (decide (u = v)) as [->|Hne].
    + by rewrite !lookup_insert_eq.
    + rewrite !lookup_insert_ne //. apply (keeps_views s c Hk).
  - intros u w l. rewrite !Howner. apply (keeps_apart s c Hk).
  - intros l Hl. setoid_rewrite Howner. by apply (keeps_only s c Hk).
Qed.

Lemma keeps_new_copy s c v p n xs :
  malloc_total → keeps s c → seen s !! v = None → length xs = n * extent dims → reads (memory c) p xs →
  ∃ a h, InitCopy dims p n (memory c) = (Done a, h) ∧
    keeps (Promise (arrays s) (<[v := Own xs n]> (seen s))) (Client h (<[v := a]> (views c))).
Proof.
  intros Ht Hk Hv Hlen Hr. pose proof (keeps_no_view s c v Hk Hv) as Hno.
  destruct (InitCopy_spec dims (memory c) p n xs Ht Hlen Hr) as (l & Hl & Hrun).
  eexists _, _. split; [exact Hrun|]. set (a := MkNativeArray (At (Some l) 0) n InitCopy_).
  assert (∀ l' o, cells (memory c) !! l' = Some o →
    (<[l := ArrayObject (Some <$> xs) true]> (cells (memory c))) !! l' = Some o) as Hstay.
  { intros l' o Ho. rewrite lookup_insert_ne //. congruence. }
  assert (∀ u l', owner c u l' → is_Some (cells (memory c) !! l')) as Hlive.
  { intros u l' [m Hu]. pose proof (keeps_views s c Hk u) as H. rewrite Hu in H.
    destruct (seen s !! u) as [[|]|]; simpl in H; try done. destruct H as (? & ? & ? & ?). simplify_eq. eauto. }
  assert (∀ u l', owner (Client (Mem (<[l := copied xs]> (cells (memory c))) (S (calls (memory c))))
      (<[v := a]> (views c))) u l' ↔ (u = v ∧ l' = l) ∨ owner c u l') as Howner.
  { intros u l'. unfold owner. simpl. destruct (decide (u = v)) as [->|Hne].
    - rewrite lookup_insert_eq Hno. subst a. naive_solver.
    - rewrite lookup_insert_ne //. naive_solver. }
  split; simpl.
  - intros l' zs Hz. by apply Hstay, (keeps_arrays s c Hk).
  - intros u. destruct (decide (u = v)) as [->|Hne].
    + rewrite !lookup_insert_eq. exists l. split_and!; [done| |done]. by rewrite /= lookup_insert_eq.
    + rewrite !lookup_insert_ne //. pose proof (keeps_views s c Hk u) as H.
      destruct (views c !! u) as [b|], (seen s !! u) as [[]|]; simpl in *; try done.
      destruct H as (l' & -> & Hl' & ?). exists l'. naive_solver.
  - intros u w l'. rewrite !Howner. intros [[-> Heq]|Hu] [[-> Heq']|Hw]; subst; try done.
    + destruct (Hlive _ _ Hw). congruence.
    + destruct (Hlive _ _ Hu). congruence.
    + exact (keeps_apart s c Hk u w l' Hu Hw).
  - intros l' Hl'. setoid_rewrite Howner. destruct (decide (l' = l)) as [->|Hne].
    + right. exists v. by left.
    + rewrite lookup_insert_ne // in Hl'. destruct (keeps_only s c Hk l' Hl') as [|[u ?]]; [by left|]. eauto.
Qed.

Lemma keeps_destroy s c v w :
  keeps s c → seen s !! v = Some w →
  ∃ a h, views c !! v = Some a ∧ NativeArray_destroy a (memory c) = (Done (), h) ∧
    keeps (Promise (arrays s) (delete v (seen s))) (Client h (delete v (views c))).
Proof.
  intros Hk Hv. destruct (keeps_view s c v w Hk Hv) as (a & Ha & Hkept). exists a.
  set (gone := Client (memory c) (delete v (views c))).
  assert (∀ u l, owner gone u l ↔ u ≠ v ∧ owner c u l) as Howner.
  { intros u l. unfold owner. simpl. destruct (decide (u = v)) as [->|Hne].
    - rewrite lookup_delete_eq. naive_solver.
    - rewrite lookup_delete_ne //. naive_solver. }
  destruct w as [p n|xs n]; simpl in Hkept.
  - subst a. exists (memory c). split_and!; [done..|]. split; simpl.
    + apply (keeps_arrays s c Hk).
    + intros u. destruct (decide (u = v)) as [->|Hne]; [by rewrite !lookup_delete_eq|].
      rewrite !lookup_delete_ne //. apply (keeps_views s c Hk).
    + intros u w l [_ Hu]%Howner [_ Hw]%Howner. exact (keeps_apart s c Hk u w l Hu Hw).
    + intros l Hl. destruct (keeps_only s c Hk l Hl) as [|[u Hu]]; [by left|right; exists u].
      apply Howner. split; [|done]. intros ->. destruct Hu as [m Hu]. congruence.
  - destruct Hkept as (l & -> & Hl & Hlen). assert (owner c v l) as Hmine by (by exists n).
    exists (Mem (delete l (cells (memory c))) (calls (memory c))). split; [done|]. split.
    { unfold NativeArray_destroy, delete_array. cbn [clone_ array_ block].
      rewrite bool_decide_eq_true_2 // /mbind /cmd_bind Hl. cbn [of_new copied andb offset].
      rewrite bool_decide_eq_true_2 //. by apply free_live with (v := copied xs). }
    assert (∀ l' o, cells (memory c) !! l' = Some o → l' ≠ l → delete l (cells (memory c)) !! l' = Some o) as Hstay.
    { intros l' o Ho Hne. by rewrite lookup_delete_ne. }
    split; simpl.
    + intros l' zs Hz. pose proof (keeps_arrays s c Hk l' zs Hz). apply Hstay; [done|]. intros ->.
      apply (own_not_copied zs xs). congruence.
    + intros u. destruct (decide (u = v)) as [->|Hne]; [by rewrite !lookup_delete_eq|].
      rewrite !lookup_delete_ne //. pose proof (keeps_views s c Hk u) as H.
      destruct (views c !! u) as [b|] eqn:Hu, (seen s !! u) as [[]|]; simpl in *; try done.
      destruct H as (l' & -> & Hl' & ?). exists l'. split_and!; [done| |done].
      apply Hstay; [done|]. intros ->. apply Hne. apply (keeps_apart s c Hk u v l); [by eexists|done].
    + intros u w l' [_ Hu]%Howner [_ Hw]%Howner. exact (keeps_apart s c Hk u w l' Hu Hw).
    + intros l' [o [Hne Ho]%lookup_delete_Some]. destruct (keeps_only s c Hk l') as [|[u Hu]]; [by eexists|by left|].
      right. exists u. apply Howner. split; [|done]. intros ->.
      destruct Hu as [? Hu], Hmine as [? Hm]. congruence.
Qed.

Lemma keeps_write s c p l xs (x : V) :
  keeps s c → block p = Some l → arrays s !! l = Some xs → offset p < length xs →
  ∃ h, store_scalar p x (memory c) = (Done (), h) ∧
    keeps (Promise (<[l := <[offset p := x]> xs]> (arrays s)) (seen s)) (Client h (views c)).
Proof.
  intros Hk Hp Hl Hlt. pose proof (keeps_arrays s c Hk l xs Hl) as Hcell.
  exists (Mem (<[l := own_array (<[offset p := x]> xs)]> (cells (memory c))) (calls (memory c))). split.
  { unfold store_scalar. rewrite Hp (bind_done _ _ _ _ _ (load_live _ _ _ Hcell)).
    rewrite bool_decide_eq_true_2; [by rewrite /= length_fmap|].
    rewrite (store_live _ _ _ _ Hcell). by rewrite /own_array list_fmap_insert. }
  split; simpl.
  - intros l' zs. destruct (decide (l' = l)) as [->|Hne].
    + rewrite !lookup_insert_eq. naive_solver.
    + rewrite !lookup_insert_ne //. apply (keeps_arrays s c Hk).
  - intros v. pose proof (keeps_views s c Hk v) as H.
    destruct (views c !! v) as [b|], (seen s !! v) as [[]|]; simpl in *; try done.
    destruct H as (l' & -> & Hl' & ?). exists l'. split_and!; [done| |done].
    rewrite lookup_insert_ne //. intros ->. rewrite Hcell in Hl'. discriminate.
  - exact (keeps_apart s c Hk).
  - intros l' Hl'. destruct (decide (l' = l)) as [->|Hne]; [left; by rewrite lookup_insert_eq|].
    rewrite lookup_insert_ne // in Hl'. rewrite lookup_insert_ne //. exact (keeps_only s c Hk l' Hl').
Qed.

Lemma keeps_clone s c v w sv :
  malloc_total → keeps s c → seen s !! v = None → seen s !! w = Some sv →
  ∃ a b h, views c !! w = Some a ∧ NativeArray_clone dims a (memory c) = (Done b, h) ∧
    keeps (Promise (arrays s) (<[v := sv]> (seen s))) (Client h (<[v := b]> (views c))).
Proof.
  intros Ht Hk Hv Hw. destruct (keeps_view s c w sv Hk Hw) as (a & Ha & Hkept). exists a.
  destruct sv as [p n|xs n]; simpl in Hkept.
  - subst a. eexists _, (memory c). split_and!; [done..|]. by apply keeps_new_alias.
  - destruct (content_reads s c w (Own xs n) xs Hk Hw eq_refl) as (b & Hb & Hsize & Hlen & Hreads).
    rewrite Ha in Hb. injection Hb as <-. simpl in Hsize. rewrite Hsize in Hlen.
    destruct (keeps_new_copy s c v _ n xs Ht Hk Hv Hlen Hreads) as (b & h & Hrun & Hk').
    exists b, h. split_and!; [done| |done]. destruct Hkept as (l & -> & _). exact Hrun.
Qed.

Lemma make_view_pointer by_copy raw :
  make_view (V:=V) dims by_copy raw =
  if by_copy then InitCopy dims (raw_pointer raw) (raw_size raw) else InitRef (raw_pointer raw) (raw_size raw).
Proof. by destruct raw, by_copy. Qed.

Lemma make_and_keep (m : cmd heap NativeArray) c v a h :
  m (memory c) = (Done a, h) →
  (b ← on_memory m; set_view v b;; mret (Nothing (V:=V))) c = (Done Nothing, Client h (<[v := a]> (views c))).
Proof. intros Hm. rewrite /on_memory (bind_done _ _ _ _ _ (zoom_done _ _ _ _ _ _ Hm)). done. Qed.

Lemma run_request_keeps r s c y s' :
  malloc_total → keeps s c → promise_request dims s r = Some (y, s') →
  ∃ c', run_request dims r c = (Done y, c') ∧ keeps s' c'.
Proof.
  intros Ht Hk. destruct r as [v raw|v raw|v w|v|p x|v w|v elem|v]; cbn [promise_request run_request].
  - intros (Hv & _ & (xs & _ & [= <- <-])%bind_Some)%bind_Some.
    eexists. split; [apply make_and_keep; by rewrite make_view_pointer|]. by apply keeps_new_alias.
  - intros (Hv & _ & (xs & Hrow & [= <- <-])%bind_Some)%bind_Some.
    destruct (row_reads s c _ _ xs Hk Hrow) as [Hlen Hr].
    destruct (keeps_new_copy s c v _ _ _ Ht Hk Hv Hlen Hr) as (a & h & Hrun & Hk').
    eexists. split; [apply make_and_keep; by rewrite make_view_pointer|done].
  - intros (Hv & _ & (sv & Hw & [= <- <-])%bind_Some)%bind_Some.
    destruct (keeps_clone s c v w sv Ht Hk Hv Hw) as (a & b & h & Ha & Hrun & Hk').
    rewrite (bind_done _ _ _ _ _ (the_view_run w a c Ha)). eexists. split; [by apply make_and_keep|done].
  - intros (sv & Hv & [= <- <-])%bind_Some.
    destruct (keeps_destroy s c v sv Hk Hv) as (a & h & Ha & Hrun & Hk').
    eexists. split; [|exact Hk']. rewrite (bind_done _ _ _ _ _ (the_view_run v a c Ha)).
    by rewrite /on_memory (bind_done _ _ _ _ _ (zoom_done _ _ _ _ _ _ Hrun)).
  - intros (l & Hp & (xs & Hl & (Hlt & _ & [= <- <-])%bind_Some)%bind_Some)%bind_Some.
    destruct (keeps_write s c p l xs x Hk Hp Hl Hlt) as (h & Hrun & Hk').
    eexists. split; [|exact Hk']. by rewrite /on_memory (bind_done _ _ _ _ _ (zoom_done _ _ _ _ _ _ Hrun)).
  - intros (sv & Hv & (sw & Hw & (xs & Hxs & (ys & Hys & [= <- <-])%bind_Some)%bind_Some)%bind_Some)%bind_Some.
    exists c. split; [|done].
    destruct (content_reads s c v sv xs Hk Hv Hxs) as (a & Ha & Hsa & Hla & Hra).
    destruct (content_reads s c w sw ys Hk Hw Hys) as (b & Hb & Hsb & Hlb & Hrb).
    rewrite (bind_done _ _ _ _ _ (the_view_run v a c Ha)) (bind_done _ _ _ _ _ (the_view_run w b c Hb)).
    rewrite -Hsa -Hsb. erewrite bind_done; [|apply on_memory_read]; [done|]. unfold NativeArray_equal.
    case_bool_decide as Hs; [|done]. rewrite -Hs in Hlb. by apply ArrayEq_row_spec.
  - intros (sv & Hv & (xs & Hxs & (ys & Hys & [= <- <-])%bind_Some)%bind_Some)%bind_Some.
    exists c. split; [|done].
    destruct (content_reads s c v sv xs Hk Hv Hxs) as (a & Ha & Hsa & Hla & Hra).
    destruct (row_reads s c _ _ ys Hk Hys) as [Hl2 Hr2].
    rewrite (bind_done _ _ _ _ _ (the_view_run v a c Ha)).
    erewrite bind_done; [|apply on_memory_read, (find_locates_first _ _ _ _ xs ys); [exact Hla|lia|exact Hra|exact Hr2]].
    by rewrite -Hsa /shift /begin_ /= Nat.add_comm Nat.add_sub.
  - intros (sv & Hv & (xs & Hxs & [= <- <-])%bind_Some)%bind_Some.
    exists c. split; [|done].
    destruct (content_reads s c v sv xs Hk Hv Hxs) as (a & Ha & Hsa & Hla & Hra).
    rewrite (bind_done _ _ _ _ _ (the_view_run v a c Ha)).
    assert (offset (end_ dims a) - offset (begin_ a) = length xs) as -> by (unfold end_, begin_; simpl; lia).
    by rewrite (bind_done _ _ _ _ _ (on_memory_read _ c _ (read_scalars_spec _ _ _ Hra))).
Qed.

Lemma run_requests_keeps rs s c (ys : list (reply V)) s' :
  malloc_total → keeps s c → promise_requests dims s rs = Some (ys, s') →
  ∃ c', run_requests dims rs c = (Done ys, c') ∧ keeps s' c'.
Proof.
  intros Ht. revert s c ys. induction rs as [|r rs IH]; intros s c ys Hk Hrun; simpl in *.
  - injection Hrun as <- <-. by exists c.
  - apply bind_Some in Hrun as ([y s1] & Hr & ([ys1 s2] & Hrs & [= <- <-])%bind_Some).
    destruct (run_request_keeps r s c y s1 Ht Hk Hr) as (c1 & Hc1 & Hk1).
    destruct (IH s1 c1 ys1 Hk1 Hrs) as (c2 & Hc2 & Hk2). exists c2. split; [|done].
    by rewrite (bind_done _ _ _ _ _ Hc1) (bind_done _ _ _ _ _ Hc2).
Qed.

(** A program with arrays and no views. *)
Definition start (program_arrays : gmap loc (list V)) (n : nat) : client V :=
  Client (Mem (own_array <$> program_arrays) n) ∅.

Lemma start_keeps A n : keeps (Promise A ∅) (start A n).
Proof.
  split; simpl.
  - intros l xs Hl. by rewrite lookup_fmap Hl.
  - intros v. by rewrite !lookup_empty.
  - intros v w l [m Hv]. done.
  - intros l [o Ho]. left. rewrite lookup_fmap in Ho. destruct (A !! l); [by eexists|done].
Qed.

Lemma keeps_nothing_left s c : keeps s c → seen s = ∅ → views c = ∅ ∧ cells (memory c) = own_array <$> arrays s.
Proof.
  intros Hk Hs.
  assert (views c = ∅) as Hno.
  { apply map_empty. intros v. apply (keeps_no_view s c v Hk). by rewrite Hs. }
  split; [done|]. apply map_eq. intros l. rewrite lookup_fmap.
  destruct (arrays s !! l) as [xs|] eqn:Hl; simpl; [exact (keeps_arrays s c Hk l xs Hl)|].
  apply eq_None_not_Some. intros Hlive. destruct (keeps_only s c Hk l Hlive) as [[? ?]|[v [m Hv]]]; [congruence|].
  by rewrite Hno in Hv.
Qed.

(** C18. Whatever a program does with views of its arrays, by reference, by copy, or copies
    of views, of elements of any dimensions: as long as it names live views and stays
    inside its arrays, each request completes and answers as promised. A view by
    reference, and a copy of it, shows the array as it is now; a copy shows what was in
    it. The views are equal when they have as many elements and the scalars are equal,
    and the search finds the first equal element. When all views are destroyed the heap
    is the program's arrays and nothing else. *)
Theorem native_arrays_refine (A : gmap loc (list V)) n rs (ys : list (reply V)) s :
  malloc_total → promise_requests dims (Promise A ∅) rs = Some (ys, s) →
  ∃ c, run_requests dims rs (start A n) = (Done ys, c) ∧ keeps s c ∧
       (seen s = ∅ → views c = ∅ ∧ cells (memory c) = own_array <$> arrays s).
Proof.
  intros Ht Hrun. destruct (run_requests_keeps rs _ _ ys s Ht (start_keeps A n) Hrun) as (c & Hc & Hk).
  exists c. split_and!; [done..|]. by apply keeps_nothing_left.
Qed.
End refinement.

(** int a[3][2]: a view and a copy, a write that only the view shows, and both gone. *)
#[local] Instance int_scalars : NewScalar Z := None.

Definition views_of_a : list (request Z) :=
  let a := RawArray 3 (At (Some 1%positive) 0) in
  [ViewReference 0 a; ViewCopy 1 a; ViewClone 2 1; CompareViews 0 2; WriteScalar (At (Some 1%positive) 4) 7%Z;
   CompareViews 0 2; CompareViews 1 2; ReadView 0; ReadView 2; FindIn 0 (At (Some 1%positive) 4);
   ViewDestroy 1; ViewDestroy 0; ViewDestroy 2].

Lemma native_arrays_refine_witness :
  let A := {[1%positive := [1; 2; 3; 4; 5; 6]%Z]} in
  let A' := {[1%positive := [1; 2; 3; 4; 7; 6]%Z]} in
  ∃ c, run_requests (MA := bump_malloc) [2] views_of_a (start A 0) =
    (Done [Nothing; Nothing; Nothing; Truth true; Nothing; Truth false; Truth true;
           Values [1; 2; 3; 4; 7; 6]%Z; Values [1; 2; 3; 4; 5; 6]%Z; Position 4; Nothing; Nothing; Nothing], c) ∧
    cells (memory c) = own_array <$> A'.
Proof.
  intros A A'.
  destruct (native_arrays_refine (MA := bump_malloc) [2] A 0 views_of_a
    [Nothing; Nothing; Nothing; Truth true; Nothing; Truth false; Truth true;
     Values [1; 2; 3; 4; 7; 6]%Z; Values [1; 2; 3; 4; 5; 6]%Z; Position 4; Nothing; Nothing; Nothing]
    (Promise A' ∅)) as (c & Hc & _ & Hend).
  - apply bump_malloc_total.
  - vm_compute. reflexivity.
  - exists c. split; [exact Hc|]. apply Hend. reflexivity.
Defined.
