(* ===== verification/Printers.v ===== *)
(** The value printers of the bundled test library
    (src/gtest/include/gtest/gtest-printers.h).

    Printing writes to a stream, so a printer is a command over the text written so far.
    What the C++ compiler finds for a type, its operator<< or its PrintTo overload, is a
    class: [Streamable] and [UniversalPrinter]; the overloads of the header are instances.
    The printers of characters, strings and bytes, which the header only declares, and the
    text of a pointer are the fields of [printers_library]. *)

From stdpp Require Import vector.
From S2P Require Import Prelude Mem Tuples.
#[local] Open Scope Z_scope.

(** * Streams *)

(** *os << text *)
Definition out (text : string) : cmd string unit := modify (λ os, os +:+ text).

(** The text that a printer writes to a new stringstream, ss.str(). *)
Definition written (m : cmd string unit) : string := snd (m EmptyString).

(** *os << value: the text it writes. *)
Class Streamable (T : Type) : Type := stream_text : T → string.
#[global] Hint Mode Streamable + : typeclass_instances.

(** UniversalPrint(value, os), which is UniversalPrinter<T>::Print(value, os) and, by
    default, PrintTo(value, os): the text it writes. *)
Class UniversalPrinter (T : Type) : Type := UniversalPrint : T → string.
#[global] Hint Mode UniversalPrinter + : typeclass_instances.

(** UniversalTersePrint(value, os). *)
Class UniversalTersePrinter (T : Type) : Type := UniversalTersePrint : T → string.
#[global] Hint Mode UniversalTersePrinter + : typeclass_instances.

(** * Types with printers of their own *)

(** The character types, with a character as its code. *)
Inductive character : Set := plain_char | signed_char | unsigned_char | wide_char.
Inductive char_of (c : character) : Set := MkChar (code : Z).
Arguments MkChar {c} _.

(** std::wstring *)
Record wstring : Set := WString { wide_text : list Z }.

(** A pointer to the characters of a string that ends in NUL, or NULL: [const] says
    whether it is a pointer to const. *)
Definition string_type (c : character) : Set :=
  match c with wide_char => wstring | _ => string end.
Inductive char_pointer (const : bool) (c : character) : Set :=
  | NullString
  | StringAt (address : loc) (contents : string_type c).
Arguments NullString {const c}.
Arguments StringAt {const c} _ _.

(** static_cast<const void*>(s). *)
Definition void_pointer {const c} (s : char_pointer const c) : ptr :=
  match s with NullString => NULL | StringAt p _ => Some p end.
(** The pointer, to const. *)
Definition to_const {const c} (s : char_pointer const c) : char_pointer true c :=
  match s with NullString => NullString | StringAt p t => StringAt p t end.

(** T(&)[N] and T&: an object with its address. *)
Record array (T : Type) (N : nat) : Type := Array { array_address : loc; elements : vec T N }.
Arguments Array {T N} _ _.
Arguments array_address {T N} _.
Arguments elements {T N} _.
Record reference (T : Type) : Type := Reference { referent_address : loc; referent : T }.
Arguments Reference {T} _ _.
Arguments referent_address {T} _.
Arguments referent {T} _.

(** A pointer to a function, by its address. *)
Inductive function_pointer : Set := FunctionPointer (address : ptr).

(** What the header declares, or uses of streams. *)
Class printers_library : Type := {
  stream_pointer : loc → string;
  stream_BiggestInt : Z → string;
  PrintBytesInObjectTo : list Z → string;
  PrintTo_char : ∀ c, char_of c → string;
  PrintTo_string : ∀ c, char_pointer true c → string;
  PrintStringTo : string → string;
  PrintWideStringTo : wstring → string;
  UniversalPrintArray_char : ∀ c, list (char_of c) → string;
}.

(** * Values without a printer *)

Inductive TypeKind : Set := kProtobuf | kConvertibleToInteger | kOtherType.

(** What operator<< of internal2 finds out of a type. *)
Definition type_kind (IsAProtocolMessage ImplicitlyConvertible : bool) : TypeKind :=
  if IsAProtocolMessage then kProtobuf
  else if ImplicitlyConvertible then kConvertibleToInteger else kOtherType.

Definition kProtobufOneLinerMaxLength : nat := 50.

(** What TypeWithoutFormatter uses of a value of each kind: the debug strings of a
    protocol message, the integer, the bytes of the object. *)
Definition kind_view (kind : TypeKind) : Type :=
  match kind with kProtobuf => string * string | kConvertibleToInteger => Z | kOtherType => list Z end.

Definition newline : string := String (Ascii.ascii_of_nat 10) EmptyString.

Section without_formatter.
Context `{!printers_library}.

Definition PrintValue (kind : TypeKind) : kind_view kind → cmd string unit :=
  match kind with
  | kOtherType => λ obj_bytes, out (PrintBytesInObjectTo obj_bytes)
  | kProtobuf => λ '(ShortDebugString, DebugString),
      let pretty_str := if (kProtobufOneLinerMaxLength <? String.length ShortDebugString)%nat
                        then newline +:+ DebugString else ShortDebugString in
      out ("<" +:+ pretty_str +:+ ">")
  | kConvertibleToInteger => λ kBigInt, out (stream_BiggestInt kBigInt)
  end.
End without_formatter.

(** * Default printers *)

Inductive DefaultPrinterType : Set := kPrintContainer | kPrintPointer | kPrintFunctionPointer | kPrintOther.

(** The WrapPrinterType that PrintTo chooses for a type with these traits. *)
Definition printer_type (IsContainer IsRecursiveContainer is_pointer is_function : bool) : DefaultPrinterType :=
  if IsContainer && negb IsRecursiveContainer then kPrintContainer
  else if negb is_pointer then kPrintOther
  else if is_function then kPrintFunctionPointer else kPrintPointer.

Section containers.
Context {E : Type} `{!UniversalPrinter E}.

(** The loop from the iterator [it], and the count after it. *)
Fixpoint container_loop (kMaxCount : nat) (it : list E) (count : nat) : cmd string nat :=
  match it with
  | [] => mret count
  | x :: it =>
      let print_element := out " ";; out (UniversalPrint x);; container_loop kMaxCount it (S count) in
      if (0 <? count)%nat then
        out ",";; if (count =? kMaxCount)%nat then out " ...";; mret count else print_element
      else print_element
  end.

Definition DefaultPrintTo_container (container : list E) : cmd string unit :=
  let kMaxCount := 32%nat in
  out "{";; count ← container_loop kMaxCount container 0; when (0 <? count)%nat (out " ");; out "}".

(** PrintRawArrayTo(a, count, os), for the elements from a on. *)
Fixpoint raw_array_loop (fuel : nat) (a : list E) (i count : nat) : cmd string unit :=
  match fuel with
  | O => unfinished
  | S fuel =>
      if (i =? count)%nat then mret ()
      else out ", ";; x ← or_ub OutOfBounds (a !! i); out (UniversalPrint x);;
           raw_array_loop fuel a (S i) count
  end.

Definition PrintRawArrayTo (a : list E) (count : nat) : cmd string unit :=
  x ← or_ub OutOfBounds (a !! 0%nat); out (UniversalPrint x);; raw_array_loop (length a) a 1 count.

Definition UniversalPrintArray (begin : list E) (len : nat) : cmd string unit :=
  if (len =? 0)%nat then out "{}"
  else
    out "{ ";;
    let kThreshold := 18%nat in
    let kChunkSize := 8%nat in
    (if (len <=? kThreshold)%nat then PrintRawArrayTo begin len
     else PrintRawArrayTo begin kChunkSize;; out ", ..., ";;
          PrintRawArrayTo (drop (len - kChunkSize) begin) kChunkSize);;
    out " }".
End containers.

Section pointers.
Context `{!printers_library}.

Definition DefaultPrintTo_pointer (p : ptr) : cmd string unit :=
  match p with None => out "NULL" | Some p => out (stream_pointer p) end.

Definition DefaultPrintTo_function (p : function_pointer) : cmd string unit :=
  let '(FunctionPointer p) := p in
  match p with None => out "NULL" | Some p => out (stream_pointer p) end.
End pointers.

Definition DefaultPrintNonContainerTo {T} `{!Streamable T} (value : T) : cmd string unit :=
  out (stream_text value).

(** * PrintTo and UniversalPrinter *)

#[export] Instance print_other T `{!Streamable T} : UniversalPrinter T | 100 := λ value,
  written (DefaultPrintNonContainerTo value).
#[export] Instance print_container E `{!UniversalPrinter E} : UniversalPrinter (list E) := λ container,
  written (DefaultPrintTo_container container).
#[export] Instance print_pointer `{!printers_library} : UniversalPrinter ptr | 50 := λ p,
  written (DefaultPrintTo_pointer p).
#[export] Instance print_function `{!printers_library} : UniversalPrinter function_pointer := λ p,
  written (DefaultPrintTo_function p).

#[export] Instance print_char `{!printers_library} c : UniversalPrinter (char_of c) := λ '(MkChar x),
  match c with
  | plain_char => PrintTo_char unsigned_char (MkChar (x mod 2 ^ 8))
  | c => PrintTo_char c (MkChar x)
  end.
#[export] Instance print_bool : UniversalPrinter bool := λ x, if x then "true" else "false".
#[export] Instance print_string `{!printers_library} : UniversalPrinter string := PrintStringTo.
#[export] Instance print_wstring `{!printers_library} : UniversalPrinter wstring := PrintWideStringTo.
#[export] Instance print_c_string `{!printers_library} const c : UniversalPrinter (char_pointer const c) := λ s,
  match c with
  | signed_char | unsigned_char => UniversalPrint (void_pointer s)
  | plain_char | wide_char => PrintTo_string c (to_const s)
  end.

(** PrintTo(std::pair). *)
#[export] Instance print_pair A B `{!UniversalPrinter A, !UniversalPrinter B} : UniversalPrinter (A * B) := λ value,
  written (out "(";; out (UniversalPrint (fst value));; out ", ";; out (UniversalPrint (snd value));; out ")").

(** UniversalPrinter<T[N]>; the overloads of UniversalPrintArray for characters. *)
#[export] Instance print_array T N `{!UniversalPrinter T} : UniversalPrinter (array T N) | 10 := λ a,
  written (UniversalPrintArray (vec_to_list (elements a)) N).
#[export] Instance print_char_array `{!printers_library} N : UniversalPrinter (array (char_of plain_char) N) := λ a,
  UniversalPrintArray_char plain_char (elements a).
#[export] Instance print_wchar_array `{!printers_library} N : UniversalPrinter (array (char_of wide_char) N) := λ a,
  UniversalPrintArray_char wide_char (elements a).

(** UniversalPrinter<T&>. *)
#[export] Instance print_reference `{!printers_library} T `{!UniversalPrinter T} : UniversalPrinter (reference T) :=
  λ value, written (out "@";; out (stream_pointer (referent_address value));; out " ";;
                    out (UniversalPrint (referent value))).

(** * UniversalTersePrinter *)

#[export] Instance terse_print T `{!UniversalPrinter T} : UniversalTersePrinter T | 100 := UniversalPrint.
#[export] Instance terse_reference T `{!UniversalPrinter T} : UniversalTersePrinter (reference T) := λ value,
  UniversalPrint (referent value).
#[export] Instance terse_array T N `{!UniversalPrinter (array T N)} : UniversalTersePrinter (array T N) := λ value,
  UniversalPrint value.
#[export] Instance terse_const_char `{!printers_library} : UniversalTersePrinter (char_pointer true plain_char) :=
  λ str, match str with NullString => "NULL" | StringAt _ s => UniversalPrint (s : string) end.
#[export] Instance terse_char `{!printers_library} : UniversalTersePrinter (char_pointer false plain_char) := λ str,
  UniversalTersePrint (to_const str).
#[export] Instance terse_const_wchar `{!printers_library} : UniversalTersePrinter (char_pointer true wide_char) :=
  λ str, match str with NullString => "NULL" | StringAt _ s => UniversalPrint (s : wstring) end.
#[export] Instance terse_wchar `{!printers_library} : UniversalTersePrinter (char_pointer false wide_char) := λ str,
  UniversalTersePrint (to_const str).

Definition PrintToString {T} `{!UniversalTersePrinter T} (value : T) : string :=
  written (out (UniversalTersePrint value)).

(** * Tuples *)

(** The text of field k of a tuple, by its own printer. *)
Fixpoint field_text {C : Type → Type} (text : ∀ T, C T → T → string) {Ts : list Type} (P : each1 C Ts) (k : nat)
    : tuple Ts → string :=
  match P with
  | each1_nil => λ _, EmptyString
  | @each1_cons _ T _ p P =>
      match k with O => λ t, text T p (fst t) | S k => λ t, field_text text P k (snd t) end
  end.

(** TuplePrefixPrinter<N>. *)
Fixpoint PrintPrefixTo {Ts : list Type} (P : each1 UniversalPrinter Ts) (N : nat) (t : tuple Ts) : cmd string unit :=
  match N with
  | O => mret ()
  | S N =>
      PrintPrefixTo P N t;; when (1 <? S N)%nat (out ", ");;
      out (field_text (@UniversalPrint) P (S N - 1) t)
  end.

Fixpoint TersePrintPrefixToStrings {Ts : list Type} (P : each1 UniversalTersePrinter Ts) (N : nat) (t : tuple Ts)
    (strings : list string) : list string :=
  match N with
  | O => strings
  | S N =>
      let strings := TersePrintPrefixToStrings P N t strings in
      let ss := written (out (field_text (@UniversalTersePrint) P (S N - 1) t)) in
      strings ++ [ss]
  end.

Definition PrintTupleTo {Ts : list Type} {P : each1 UniversalPrinter Ts} (t : tuple Ts) : cmd string unit :=
  out "(";; PrintPrefixTo P (tuple_size Ts) t;; out ")".

Definition UniversalTersePrintTupleFieldsToStrings {Ts : list Type} {P : each1 UniversalTersePrinter Ts}
    (value : tuple Ts) : list string :=
  TersePrintPrefixToStrings P (tuple_size Ts) value [].

(** PrintTo(tuple<...>). *)
#[export] Instance print_tuple Ts {P : each1 UniversalPrinter Ts} : UniversalPrinter (tuple Ts) | 1 := λ t,
  written (PrintTupleTo t).

(** * Operands of comparisons *)

(** FormatForComparison<ToPrint, OtherOperand>::Format(value). *)
Class FormatForComparison (ToPrint OtherOperand : Type) : Type := Format : ToPrint → string.
#[global] Hint Mode FormatForComparison + + : typeclass_instances.
Arguments Format {ToPrint} OtherOperand {_} _.

#[export] Instance format_default T Other `{!UniversalTersePrinter T} : FormatForComparison T Other | 100 :=
  PrintToString.

Definition GTEST_IMPL_FORMAT_C_STRING_AS_POINTER_ `{!printers_library} {const c} (value : char_pointer const c)
    : string := PrintToString (void_pointer value).
Definition GTEST_IMPL_FORMAT_C_STRING_AS_STRING_ {CharType} `{!UniversalTersePrinter CharType} (value : CharType)
    : string := PrintToString value.

#[export] Instance format_char_pointer `{!printers_library} const Other :
  FormatForComparison (char_pointer const plain_char) Other | 20 := GTEST_IMPL_FORMAT_C_STRING_AS_POINTER_.
#[export] Instance format_wchar_pointer `{!printers_library} const Other :
  FormatForComparison (char_pointer const wide_char) Other | 20 := GTEST_IMPL_FORMAT_C_STRING_AS_POINTER_.
#[export] Instance format_char_string `{!printers_library} :
  FormatForComparison (char_pointer false plain_char) string | 10 := GTEST_IMPL_FORMAT_C_STRING_AS_STRING_.
#[export] Instance format_const_char_string `{!printers_library} :
  FormatForComparison (char_pointer true plain_char) string | 10 := GTEST_IMPL_FORMAT_C_STRING_AS_STRING_.
#[export] Instance format_wchar_string `{!printers_library} :
  FormatForComparison (char_pointer false wide_char) wstring | 10 := GTEST_IMPL_FORMAT_C_STRING_AS_STRING_.
#[export] Instance format_const_wchar_string `{!printers_library} :
  FormatForComparison (char_pointer true wide_char) wstring | 10 := GTEST_IMPL_FORMAT_C_STRING_AS_STRING_.

(** An array decays to a pointer to its first element; [P] is the type of that pointer. *)
Class Decay (T P : Type) : Type := decay : ∀ N, array T N → P.
#[export] Instance format_array T N P Other `{!Decay T P, !FormatForComparison P Other} :
  FormatForComparison (array T N) Other | 5 := λ value, Format Other (decay N value).

Definition FormatForComparisonFailureMessage {T1 T2} `{!FormatForComparison T1 T2} (value : T1) (other_operand : T2)
    : string := Format T2 value.

(** * Lemmas *)

(** A printer that ends with [a] and writes a text at the end of the stream. *)
Definition writes {A} (m : cmd string A) (a : A) (text : string) : Prop :=
  ∀ os, m os = (Done a, os +:+ text).

Lemma writes_written m text : writes m () text → written m = text.
Proof. intros Hm. unfold written. by rewrite Hm. Qed.

Lemma writes_ret {A} (a : A) : writes (mret a) a EmptyString.
Proof. intros os. by rewrite string_app_nil_r. Qed.

Lemma writes_out text : writes (out text) () text.
Proof. done. Qed.

Lemma writes_bind {A B} (m : cmd string A) (k : A → cmd string B) a b s t :
  writes m a s → writes (k a) b t → writes (m ≫= k) b (s +:+ t).
Proof. intros Hm Hk os. rewrite (bind_done _ _ _ _ _ (Hm os)) Hk. by rewrite string_app_assoc. Qed.

Lemma writes_read {E B} (a : list E) i x (k : E → cmd string B) b t :
  a !! i = Some x → writes (k x) b t → writes (y ← or_ub OutOfBounds (a !! i); k y) b t.
Proof. intros Hx Hk. by rewrite Hx. Qed.

#[local] Hint Resolve writes_ret writes_out : core.

(** Texts with commas between them. *)
Notation joined := (String.concat ", ").

Lemma joined_cons t ts :
  joined (t :: ts) = t +:+ match ts with [] => EmptyString | _ => ", " +:+ joined ts end.
Proof. destruct ts; [by rewrite string_app_nil_r|done]. Qed.

Lemma joined_app ts us : ts ≠ [] → us ≠ [] → joined (ts ++ us) = joined ts +:+ ", " +:+ joined us.
Proof.
  intros Hts Hus. induction ts as [|t ts IH]; [done|]. rewrite -app_comm_cons !joined_cons.
  destruct ts as [|t' ts].
  - destruct us; [done|]. by rewrite string_app_nil_r.
  - rewrite IH //. by rewrite !string_app_assoc.
Qed.

Section sequences.
Context {E : Type} `{!UniversalPrinter E}.
Implicit Types (xs a : list E).

(** What the loop over a container writes once it has written [count] elements. *)
Definition rest_text (kMaxCount count : nat) xs : string :=
  String.concat EmptyString ((λ t, ", " +:+ t) <$>
    ((UniversalPrint <$> take (kMaxCount - count) xs) ++ if (kMaxCount - count <? length xs)%nat then ["..."] else [])).

Lemma concat_empty_cons t ts : String.concat EmptyString (t :: ts) = t +:+ String.concat EmptyString ts.
Proof. destruct ts; [by rewrite string_app_nil_r|done]. Qed.

Lemma container_loop_rest kMaxCount count xs :
  (0 < count ≤ kMaxCount)%nat →
  ∃ n, (0 < n)%nat ∧ writes (container_loop kMaxCount xs count) n (rest_text kMaxCount count xs).
Proof.
  revert count. induction xs as [|x xs IH]; intros count Hc.
  { exists count. split; [lia|]. rewrite /rest_text take_nil. case_match; [|exact (writes_ret count)].
    rewrite ->Nat.ltb_lt in *. cbn in *. lia. }
  cbn [container_loop]. rewrite (proj2 (Nat.ltb_lt 0 count)); [lia|].
  destruct (count =? kMaxCount)%nat eqn:Hk.
  - apply Nat.eqb_eq in Hk as ->. exists kMaxCount. split; [lia|].
    rewrite /rest_text Nat.sub_diag. cbn -[String.append].
    apply (writes_bind _ _ () _ ","); [done|]. eapply (writes_bind _ _ () _ " ..." EmptyString); auto.
  - apply Nat.eqb_neq in Hk. destruct (IH (S count)) as (n & Hn & Hw); [lia|]. exists n. split; [done|].
    unfold rest_text. replace (kMaxCount - count)%nat with (S (kMaxCount - S count)) by lia.
    cbn [take fmap list_fmap app]. rewrite concat_empty_cons. cbn [length].
    replace (", " +:+ UniversalPrint x) with ("," +:+ " " +:+ UniversalPrint x) by done.
    rewrite -!string_app_assoc. do 3 (eapply writes_bind; [done|]). exact Hw.
Qed.

(** The texts after the first, each with a comma before it. *)
Definition continued (ts : list string) : string := String.concat EmptyString ((λ t, ", " +:+ t) <$> ts).

Lemma joined_continued t ts : joined (t :: ts) = t +:+ continued ts.
Proof.
  revert t. induction ts as [|u ts IH]; intros t; [by rewrite string_app_nil_r|].
  rewrite joined_cons IH /continued. cbn [fmap list_fmap]. by rewrite concat_empty_cons -string_app_assoc.
Qed.

Lemma raw_array_loop_writes fuel a i count :
  (i ≤ count ≤ length a)%nat → (count - i < fuel)%nat →
  writes (raw_array_loop fuel a i count) () (continued (UniversalPrint <$> take (count - i) (drop i a))).
Proof.
  revert i. induction fuel as [|fuel IH]; intros i Hi Hf; [lia|]. cbn [raw_array_loop].
  destruct (i =? count)%nat eqn:Hc.
  { apply Nat.eqb_eq in Hc as ->. rewrite Nat.sub_diag. exact (writes_ret ()). }
  apply Nat.eqb_neq in Hc. destruct (lookup_lt_is_Some_2 a i) as [x Hx]; [lia|].
  rewrite (drop_S a x i Hx). replace (count - i)%nat with (S (count - S i)) by lia.
  unfold continued. cbn [take fmap list_fmap]. rewrite concat_empty_cons -string_app_assoc.
  eapply writes_bind; [done|]. apply (writes_read _ _ _ _ _ _ Hx). eapply writes_bind; [done|]. apply IH; lia.
Qed.

Lemma PrintRawArrayTo_writes a count :
  (0 < count ≤ length a)%nat → writes (PrintRawArrayTo a count) () (joined (UniversalPrint <$> take count a)).
Proof.
  intros Hc. destruct a as [|x a]; cbn [length] in Hc; [lia|]. destruct count as [|count]; [lia|].
  cbn [take fmap list_fmap]. rewrite joined_continued. unfold PrintRawArrayTo.
  apply (writes_read _ _ x); [done|]. eapply writes_bind; [done|].
  pose proof (raw_array_loop_writes (length (x :: a)) (x :: a) 1 (S count)) as H.
  cbn [Nat.sub drop length] in H. rewrite Nat.sub_0_r in H. apply H; lia.
Qed.

(** What is shown of the elements of an array. *)
Definition shown_of_array (ts : list string) : list string :=
  if (length ts <=? 18)%nat then ts else take 8 ts ++ "..." :: drop (length ts - 8) ts.

Lemma UniversalPrintArray_writes a :
  writes (UniversalPrintArray a (length a)) ()
    (match a with [] => "{}" | _ => "{ " +:+ joined (shown_of_array (UniversalPrint <$> a)) +:+ " }" end).
Proof.
  destruct (decide (a = [])) as [->|Ha]; [done|].
  assert (0 < length a)%nat as Hl by (destruct a; [done|cbn; lia]).
  replace (match a with [] => _ | _ => _ end)
    with ("{ " +:+ joined (shown_of_array (UniversalPrint <$> a)) +:+ " }") by by destruct a.
  unfold UniversalPrintArray, shown_of_array. rewrite length_fmap (proj2 (Nat.eqb_neq _ 0)); [lia|].
  eapply writes_bind; [done|]. eapply writes_bind; [|done].
  destruct (length a <=? 18)%nat eqn:H18.
  - pose proof (PrintRawArrayTo_writes a (length a)) as H. rewrite firstn_all in H. apply H. lia.
  - apply Nat.leb_gt in H18. rewrite joined_app; [|done|].
    { rewrite -fmap_take. destruct a; [done|]. done. }
    rewrite joined_cons. destruct (drop (length a - 8) (UniversalPrint <$> a)) eqn:Hd.
    { apply (f_equal length) in Hd. rewrite length_drop length_fmap in Hd. cbn in Hd. lia. }
    rewrite -Hd -fmap_take -fmap_drop.
    eapply writes_bind; [apply PrintRawArrayTo_writes; lia|].
    rewrite (string_app_assoc _ "..." _) (string_app_assoc _ ", " _).
    eapply writes_bind; [done|].
    pose proof (PrintRawArrayTo_writes (drop (length a - 8) a) 8) as H. rewrite length_drop in H.
    rewrite (firstn_all2 (drop _ _)) ?length_drop in H; [lia|]. apply H. lia.
Qed.

(** What is shown of the elements of a container. *)
Definition shown_of_container (ts : list string) : list string :=
  take 32 ts ++ if (32 <? length ts)%nat then ["..."] else [].

Lemma DefaultPrintTo_container_writes xs :
  writes (DefaultPrintTo_container xs) ()
    (match xs with [] => "{}" | _ => "{ " +:+ joined (shown_of_container (UniversalPrint <$> xs)) +:+ " }" end).
Proof.
  destruct xs as [|x xs]; [by apply (writes_bind _ _ () () "{" "}")|]. unfold DefaultPrintTo_container. cbn [container_loop Nat.ltb Nat.leb].
  destruct (container_loop_rest 32 1 xs) as (n & Hn & Hw); [lia|].
  unfold shown_of_container. cbn [fmap list_fmap]. rewrite firstn_cons -app_comm_cons joined_continued.
  replace "{ " with ("{" +:+ " ") by done. rewrite -!string_app_assoc. eapply writes_bind; [done|].
  rewrite string_app_assoc. rewrite string_app_assoc. eapply writes_bind.
  - rewrite -string_app_assoc. do 2 (eapply writes_bind; [done|]).
    replace (continued _) with (rest_text 32 1 xs); [exact Hw|].
    unfold continued, rest_text. by rewrite fmap_take /= length_fmap.
  - destruct n as [|n]; [lia|]. by apply (writes_bind _ _ () () " " "}").
Qed.
End sequences.

Section tuples.
Context {C : Type → Type} (text : ∀ T, C T → T → string).

(** The texts of all fields. *)
Fixpoint field_texts {Ts : list Type} (P : each1 C Ts) : tuple Ts → list string :=
  match P with
  | each1_nil => λ _, []
  | @each1_cons _ T _ p P => λ t, text T p (fst t) :: field_texts P (snd t)
  end.

Lemma length_field_texts {Ts} (P : each1 C Ts) t : length (field_texts P t) = length Ts.
Proof. induction P as [|T Ts p P IH]; [done|]. cbn. by rewrite IH. Qed.

Lemma field_texts_lookup {Ts} (P : each1 C Ts) k t :
  (k < length Ts)%nat → field_texts P t !! k = Some (field_text text P k t).
Proof.
  revert k. induction P as [|T Ts p P IH]; intros k Hk; cbn in Hk; [lia|].
  destruct k as [|k]; [done|]. apply IH. lia.
Qed.

Lemma take_field_texts_S {Ts} (P : each1 C Ts) k t :
  (k < length Ts)%nat → take (S k) (field_texts P t) = take k (field_texts P t) ++ [field_text text P k t].
Proof. intros Hk. by rewrite (take_S_r _ _ _ (field_texts_lookup P k t Hk)). Qed.
End tuples.

Lemma PrintPrefixTo_writes {Ts} (P : each1 UniversalPrinter Ts) N t :
  (N ≤ length Ts)%nat →
  writes (PrintPrefixTo P N t) () (joined (take N (field_texts (@UniversalPrint) P t))).
Proof.
  induction N as [|N IH]; intros HN; [exact (writes_ret ())|]. cbn [PrintPrefixTo].
  replace (S N - 1)%nat with N by lia. rewrite take_field_texts_S; [lia|].
  assert (length (take N (field_texts (@UniversalPrint) P t)) = N) as Hlen
    by (rewrite length_take length_field_texts; lia).
  destruct N as [|N].
  - rewrite take_0. apply (writes_bind _ _ () () EmptyString); [by apply IH; lia|].
    exact (writes_out _).
  - rewrite joined_app; [by intros Hn; rewrite Hn in Hlen|done|].
    eapply writes_bind; [by apply IH; lia|]. by eapply writes_bind.
Qed.

Lemma TersePrintPrefix_strings {Ts} (P : each1 UniversalTersePrinter Ts) N t strings :
  (N ≤ length Ts)%nat →
  TersePrintPrefixToStrings P N t strings = strings ++ take N (field_texts (@UniversalTersePrint) P t).
Proof.
  induction N as [|N IH]; intros HN; [by rewrite app_nil_r|]. cbn [TersePrintPrefixToStrings].
  rewrite IH; [lia|]. replace (S N - 1)%nat with N by lia. rewrite take_field_texts_S; [lia|].
  by rewrite -app_assoc.
Qed.

(** * A sample *)

(** Characters as themselves, strings as they are, and every address the same. *)
Definition sample_texts : printers_library := {|
  stream_pointer _ := "0x1";
  stream_BiggestInt _ := "n";
  PrintBytesInObjectTo _ := "bytes";
  PrintTo_char _ _ := "c";
  PrintTo_string c s := match s with NullString => "NULL" | StringAt _ _ => "0x1 pointing to a string" end;
  PrintStringTo s := s;
  PrintWideStringTo _ := "wide";
  UniversalPrintArray_char _ _ := "chars";
|}.

(** * What is printed *)

(** A container prints as its first 32 elements between braces, with three dots for
    the others; an array of more than 18 elements as its first and its last eight, never
    reading outside it; a tuple as all of its fields between parentheses; and the terse
    strings of a tuple are those of its fields, in order. *)
Theorem printed_sequences {E : Type} `{!UniversalPrinter E} (xs : list E)
    {Ts : list Type} {P : each1 UniversalPrinter Ts} {Q : each1 UniversalTersePrinter Ts} (t : tuple Ts) :
  let texts := UniversalPrint <$> xs in
  writes (DefaultPrintTo_container xs) ()
    (if xs is [] then "{}" else
       "{ " +:+ joined (take 32 texts ++ if (32 <? length texts)%nat then ["..."] else []) +:+ " }") ∧
  writes (UniversalPrintArray xs (length xs)) ()
    (if xs is [] then "{}" else
       "{ " +:+ joined (if (length texts <=? 18)%nat then texts
                        else take 8 texts ++ "..." :: drop (length texts - 8) texts) +:+ " }") ∧
  writes (PrintTupleTo t) () ("(" +:+ joined (field_texts (@UniversalPrint) P t) +:+ ")") ∧
  UniversalTersePrintTupleFieldsToStrings t = field_texts (@UniversalTersePrint) Q t.
Proof.
  intros texts. split_and!.
  - apply DefaultPrintTo_container_writes.
  - apply UniversalPrintArray_writes.
  - eapply writes_bind; [done|]. eapply writes_bind; [|done].
    pose proof (PrintPrefixTo_writes P (length Ts) t) as H.
    rewrite firstn_all2 in H; [by rewrite length_field_texts|]. by apply H.
  - unfold UniversalTersePrintTupleFieldsToStrings. rewrite TersePrintPrefix_strings //.
    by rewrite firstn_all2; [rewrite length_field_texts|].
Qed.
