(* ===== verification/TypeTransforms.v ===== *)
(** Types as data, and what the test library computes of them at compile time: references and
    const taken from a type and added to it, containers and convertible types recognised, and
    with them the way a value of a type is printed
    (src/gtest/include/gtest/internal/gtest-internal.h and gtest-port.h, gtest-printers.h and
    gmock-internal-utils.h).

    A type is in its normal form: const of an array is const of its elements, const of a
    function type or of a reference is nothing, and a reference is the outermost part. What
    a class declares and the implicit conversions are interfaces, with the laws of the
    language that the theorems need. *)

From Equations Require Import Equations.
From S2P Require Import Prelude Printers.

(** * Types *)

(** Named: a class, an enum or a built-in type; volatile is not modelled. *)
Inductive object_type : Set :=
  | Void (const : bool)
  | Named (const : bool) (name : nat)
  | Pointer (const : bool) (pointee : object_type)
  | Array (element : object_type) (bound : option N)
  | Function (signature : nat)
  | Pair (const : bool) (K V : object_type).

(** T, T& and T&&. *)
Inductive cpp_type : Set := Obj (T : object_type) | LRef (T : object_type) | RRef (T : object_type).

#[export] Instance object_type_eq_dec : EqDecision object_type.
Proof. solve_decision. Defined.
#[export] Instance cpp_type_eq_dec : EqDecision cpp_type.
Proof. solve_decision. Defined.

(** T is [const U] for a U, that U, and const T. *)
Fixpoint is_const (T : object_type) : bool :=
  match T with
  | Void c | Named c _ | Pointer c _ | Pair c _ _ => c
  | Array E _ => is_const E
  | Function _ => false
  end.
Fixpoint set_const (c : bool) (T : object_type) : object_type :=
  match T with
  | Void _ => Void c
  | Named _ n => Named c n
  | Pointer _ P => Pointer c P
  | Array E b => Array (set_const c E) b
  | Function s => Function s
  | Pair _ K V => Pair c K V
  end.
Abbreviation unconst := (set_const false).

(** const T, T& and T*, None when there is no such type. *)
Definition add_const (T : cpp_type) : cpp_type := if T is Obj T then Obj (set_const true T) else T.
Definition reference_to (T : cpp_type) : option cpp_type :=
  match T with
  | Obj (Void _) => None
  | Obj T | LRef T | RRef T => Some (LRef T)
  end.
Definition pointer_to (T : cpp_type) : option cpp_type :=
  if T is Obj T then Some (Obj (Pointer false T)) else None.

Fixpoint depth (T : object_type) : nat := match T with Array E _ => S (depth E) | _ => 0 end.

Lemma depth_set_const c T : depth (set_const c T) = depth T.
Proof. by induction T; simpl; rewrite ?IHT. Qed.

Lemma set_const_set c d T : set_const c (set_const d T) = set_const c T.
Proof. induction T; simpl; by rewrite ?IHT. Qed.

Lemma is_const_unconst T : is_const (unconst T) = false.
Proof. by induction T. Qed.

Lemma unconst_id T : is_const T = false → unconst T = T.
Proof. induction T; simpl; intros; simplify_eq; by rewrite ?IHT. Qed.

(** * Type transformations *)

(** The first template matches T&& too. *)
Definition RemoveReference (T : cpp_type) : cpp_type := if T is LRef U then Obj U else T.

(** const T[N] is the most special template, then const T. *)
Equations RemoveConst_object (T : object_type) : object_type by wf (depth T) lt :=
  RemoveConst_object (Array E (Some N)) with is_const E => {
    | true => Array (RemoveConst_object (unconst E)) (Some N)
    | false => Array E (Some N) };
  RemoveConst_object T => if is_const T then unconst T else T.
Next Obligation. intros. rewrite depth_set_const. simpl. lia. Defined.

Definition RemoveConst (T : cpp_type) : cpp_type :=
  if T is Obj U then Obj (RemoveConst_object U) else T.

Definition GTEST_REMOVE_REFERENCE_AND_CONST_ (T : cpp_type) : cpp_type := RemoveConst (RemoveReference T).

Definition AddReference (T : cpp_type) : option cpp_type := if T is LRef U then Some T else reference_to T.

Definition GTEST_REFERENCE_TO_CONST_ (T : cpp_type) : option cpp_type :=
  AddReference (add_const (RemoveReference T)).

Definition is_same (T U : cpp_type) : bool := bool_decide (T = U).
Definition type_equals (T1 T2 : cpp_type) : bool := bool_decide (T1 = T2).

(** Complete for two types that are the same. *)
Definition CompileAssertTypesEqual (T1 T2 : cpp_type) : option unit := if decide (T1 = T2) then Some tt else None.

Definition EnableIf (Cond : bool) : option cpp_type := if Cond then Some (Obj (Void false)) else None.

(** T* matches a pointer that is not const itself. *)
Definition is_pointer (T : cpp_type) : bool := if T is Obj (Pointer false _) then true else false.

(** std::pair<const K, V>; a pair that is const itself does not match. *)
Definition RemoveConstFromKey (T : cpp_type) : cpp_type :=
  if T is Obj (Pair false K V) then if is_const K then Obj (Pair false (unconst K) V) else T else T.

(** * What classes declare, and implicit conversions *)

(** The member types of a class, by the name of the class. *)
Record members : Type := Members {
  iterator : option cpp_type;
  const_iterator : option cpp_type;
  value_type : option cpp_type;
  element_type : option cpp_type;
}.
Definition no_members : members := Members None None None None.

(** [lvalue_converts From To]: an lvalue of the object type From converts to To implicitly. *)
Class ProgramTypes : Type := {
  class_members : nat → members;
  lvalue_converts : object_type → cpp_type → bool;
  ProtocolMessage : nat;
  proto2_Message : nat;
}.

(** An lvalue binds to a reference to its own type; pointers to objects convert to const
    void*, pointers to functions do not. *)
Class ProgramTypesLaws `{ProgramTypes} : Prop := {
  lvalue_binds T : lvalue_converts T (LRef T) = true;
  object_pointer_converts c P : (if P is Function _ then false else true) = true →
    lvalue_converts (Pointer c P) (Obj (Pointer false (Void true))) = true;
  function_pointer_stays c s : lvalue_converts (Pointer c (Function s)) (Obj (Pointer false (Void true))) = false;
}.

Section types.
Context `{ProgramTypes}.

Definition members_of (C : cpp_type) : members :=
  if C is Obj (Named _ n) then class_members n else no_members.

(** ** IsContainer *)

(** The overload that IsContainerTest<C>(0) picks, by its result type. *)
Inductive container_test : Set := IsContainer | IsNotContainer.
Definition IsContainerTest (C : cpp_type) : container_test :=
  match iterator (members_of C) ≫= pointer_to, const_iterator (members_of C) ≫= pointer_to with
  | Some _, Some _ => IsContainer
  | _, _ => IsNotContainer
  end.
Definition is_container (C : cpp_type) : bool := if IsContainerTest C is IsContainer then true else false.

(** A T* has the value type T, a const T* too. *)
Definition IteratorTraits (Iterator : cpp_type) : option cpp_type :=
  match Iterator with
  | Obj (Pointer false P) => Some (Obj (if is_const P then unconst P else P))
  | _ => value_type (members_of Iterator)
  end.

(** None when a class does not compile. *)
Definition IsRecursiveContainerImpl (C : cpp_type) (b : bool) : option bool :=
  if b then
    it ← iterator (members_of C);
    v ← IteratorTraits it;
    Some (is_same v C)
  else Some false.
Definition IsRecursiveContainer (C : cpp_type) : option bool := IsRecursiveContainerImpl C (is_container C).

Definition PointeeOf (P : cpp_type) : option cpp_type :=
  if P is Obj (Pointer false T) then Some (Obj T) else element_type (members_of P).

(** ** ImplicitlyConvertible *)

(** The size of what Helper(x) gives, where x is of a reference type: Helper(To) is picked
    when x converts to To, else Helper(...). *)
Definition Helper_size (x : object_type) (To : cpp_type) : nat := if lvalue_converts x To then 1%nat else 2%nat.

(** The object type of MakeFrom(). *)
Definition MakeFrom (From : cpp_type) : option object_type :=
  T ← AddReference From; if T is LRef U then Some U else None.

Definition ImplicitlyConvertible (From To : cpp_type) : option bool :=
  x ← MakeFrom From; Some (bool_decide (Helper_size x To = 1%nat)).

Definition IsAProtocolMessage (T : cpp_type) : option bool :=
  p ← pointer_to (add_const T);
  a ← ImplicitlyConvertible p (Obj (Pointer false (Named true ProtocolMessage)));
  b ← ImplicitlyConvertible p (Obj (Pointer false (Named true proto2_Message)));
  Some (a || b).

(** ** The printer of a type *)

(** PrintTo without C++ 11: a pointer that does not convert to const void* is a function's. *)
Definition PrintTo_type (T : cpp_type) : option DefaultPrinterType :=
  r ← IsRecursiveContainer T;
  c ← ImplicitlyConvertible T (Obj (Pointer false (Void true)));
  Some (printer_type (is_container T) r (is_pointer T) (negb c)).

(** PrintTo in C++ 11. *)
Definition is_function_pointer (T : cpp_type) : bool :=
  if T is Obj (Pointer _ (Function _)) then true else false.
Definition PrintTo_type_cxx11 (T : cpp_type) : option DefaultPrinterType :=
  r ← IsRecursiveContainer T;
  Some (printer_type (is_container T) r (is_pointer T) (is_function_pointer T)).
End types.

(** * What the transformations compute *)

(** RemoveConst of [const int[3][4]], by the recursion of the template for arrays. *)
Example const_matrix :
  RemoveConst_object (Array (Array (Named true 0) (Some 4%N)) (Some 3%N)) =
  Array (Array (Named false 0) (Some 4%N)) (Some 3%N).
Proof. reflexivity. Qed.

Lemma unconst_if T : (if is_const T then unconst T else T) = unconst T.
Proof. destruct (is_const T) eqn:Hc; [done|]. by rewrite unconst_id. Qed.

Lemma RemoveConst_object_unconst T : RemoveConst_object T = unconst T.
Proof.
  funelim (RemoveConst_object T); simp RemoveConst_object; try apply unconst_if.
  - by rewrite H /= set_const_set.
  - by rewrite /= unconst_id.
Qed.

Lemma removed_cases T :
  GTEST_REMOVE_REFERENCE_AND_CONST_ T =
  match T with Obj U | LRef U => Obj (unconst U) | RRef U => RRef U end.
Proof. destruct T; rewrite /GTEST_REMOVE_REFERENCE_AND_CONST_ /=; by rewrite ?RemoveConst_object_unconst. Qed.

Lemma const_set_const T : is_const T = true → set_const true T = T.
Proof. induction T; simpl; intros; simplify_eq; by rewrite ?IHT. Qed.

(** U is the type that T is when a const or a reference is added to it. *)
Inductive added : relation cpp_type :=
  | added_reference T : added (Obj T) (LRef T)
  | added_const T : added (Obj T) (Obj (set_const true T)).

Lemma removed_added T U : added T U → GTEST_REMOVE_REFERENCE_AND_CONST_ T = GTEST_REMOVE_REFERENCE_AND_CONST_ U.
Proof. rewrite !removed_cases. intros []; by rewrite ?set_const_set. Qed.

Lemma removed_similar T : rtsc added (GTEST_REMOVE_REFERENCE_AND_CONST_ T) T.
Proof.
  assert (∀ U, rtsc added (Obj (unconst U)) (Obj U)) as Hobj.
  { intros U. destruct (is_const U) eqn:Hc; [|by rewrite unconst_id].
    apply rtc_once. left. rewrite -{2}(const_set_const U Hc) -(set_const_set true false U). constructor. }
  rewrite removed_cases. destruct T as [U|U|U]; [done| |done].
  etrans; [apply Hobj|]. apply rtc_once. left. constructor.
Qed.

(** C35. Two types are the same without their reference and const if and only if they differ by
    consts and (lvalue) references added and taken away: GTEST_REMOVE_REFERENCE_AND_CONST_
    turns const U&, U&, const U and U all into U, through arrays of any dimensions, and
    confuses no other types. *)
Theorem removed_iff_similar T U :
  GTEST_REMOVE_REFERENCE_AND_CONST_ T = GTEST_REMOVE_REFERENCE_AND_CONST_ U ↔ rtsc added T U.
Proof.
  split.
  - intros Heq. etrans; [symmetry; apply removed_similar|]. rewrite Heq. apply removed_similar.
  - induction 1 as [|T V U [HTV|HVT] _ IH]; [done|..]; rewrite -IH;
      by [apply removed_added|symmetry; apply removed_added].
Qed.

(** The table of the comment of GTEST_REFERENCE_TO_CONST_: every object type but void, and
    every lvalue reference, becomes a reference to the const type. *)
Theorem reference_to_const_adds T U :
  RemoveReference T = Obj U → reference_to (Obj U) ≠ None →
  GTEST_REFERENCE_TO_CONST_ T = Some (LRef (set_const true U)).
Proof.
  unfold GTEST_REFERENCE_TO_CONST_. intros -> Hv. simpl. by destruct U.
Qed.

(** An rvalue reference keeps its reference, and no const is added. *)
Lemma rvalue_references_stay U :
  RemoveReference (RRef U) = RRef U ∧ GTEST_REFERENCE_TO_CONST_ (RRef U) = Some (LRef U).
Proof. done. Qed.

Section printers.
Context `{ProgramTypesLaws}.

(** ImplicitlyConvertible asks for an lvalue: every type converts to a reference to it. *)
Theorem converts_to_own_reference T :
  reference_to (Obj T) ≠ None → ImplicitlyConvertible (Obj T) (LRef T) = Some true.
Proof.
  intros Hv. unfold ImplicitlyConvertible, MakeFrom, Helper_size. simpl.
  by destruct T; try done; simpl; rewrite lvalue_binds.
Qed.

Lemma MakeFrom_object T : reference_to (Obj T) ≠ None → MakeFrom (Obj T) = Some T.
Proof. by destruct T. Qed.

(** The two ways to tell a pointer to a function - it does not convert to const void*,
    std::is_function - choose the same printer for every type a value can have. *)
Theorem printer_same_in_cxx11 T :
  reference_to (Obj T) ≠ None → PrintTo_type (Obj T) = PrintTo_type_cxx11 (Obj T).
Proof.
  intros Hv. unfold PrintTo_type, PrintTo_type_cxx11, ImplicitlyConvertible. rewrite (MakeFrom_object T Hv).
  destruct (IsRecursiveContainer (Obj T)) as [r|]; [|done]. simpl. f_equal. unfold Helper_size.
  destruct T as [|c n|[] P|E b|s|c K V]; try (by destruct (lvalue_converts _ _)).
  unfold is_container. rewrite (_ : IsContainerTest (Obj (Pointer false P)) = IsNotContainer) //.
  destruct P; try by rewrite object_pointer_converts. by rewrite function_pointer_stays.
Qed.

(** What is printed as a container has elements of another type, so the printer of the
    elements is not the printer of the container. *)
Theorem containers_print_other_types T :
  PrintTo_type_cxx11 T = Some kPrintContainer →
  ∃ it v, iterator (members_of T) = Some it ∧ IteratorTraits it = Some v ∧ v ≠ T.
Proof.
  unfold PrintTo_type_cxx11, IsRecursiveContainer, IsRecursiveContainerImpl.
  destruct (is_container T); [|simpl; by destruct (is_pointer T), (is_function_pointer T)].
  destruct (iterator (members_of T)) as [it|] eqn:Hit; [|done]. simpl.
  destruct (IteratorTraits it) as [v|] eqn:Hv; [|done]. simpl. unfold is_same. case_bool_decide; simpl.
  - by destruct (is_pointer T), (is_function_pointer T).
  - intros _. by exists it, v.
Qed.
End printers.

(** * A program with a vector of class 3, and a path whose elements are paths *)

Definition sample_members (n : nat) : members :=
  match n with
  | 0%nat => Members (Some (Obj (Pointer false (Named false 3)))) (Some (Obj (Pointer false (Named true 3))))
           (Some (Obj (Named false 3))) None
  | 1%nat => Members (Some (Obj (Named false 2))) (Some (Obj (Named false 2))) None None
  | 2%nat => Members None None (Some (Obj (Named false 1))) None
  | _ => no_members
  end.

Definition sample_converts (x : object_type) (To : cpp_type) : bool :=
  bool_decide (To = LRef x) ||
  match x with
  | Pointer _ (Function _) => false
  | Pointer _ _ => bool_decide (To = Obj (Pointer false (Void true)))
  | _ => false
  end.

#[local] Instance sample_program : ProgramTypes :=
  {| class_members := sample_members; lvalue_converts := sample_converts;
     ProtocolMessage := 8; proto2_Message := 9 |}.

Lemma sample_program_laws : ProgramTypesLaws.
Proof.
  split.
  - intros T. simpl. unfold sample_converts. by rewrite bool_decide_true.
  - by intros c [].
  - done.
Qed.

Example sample_printers :
  PrintTo_type <$> [Obj (Named false 0); Obj (Named false 1); Obj (Named false 3);
    Obj (Pointer false (Named false 0)); Obj (Pointer false (Function 0))] =
  Some <$> [kPrintContainer; kPrintOther; kPrintOther; kPrintPointer; kPrintFunctionPointer].
Proof. reflexivity. Qed.
