(* ===== verification/Message.v ===== *)
(** Messages of the test library: class Message and StreamableToString of
    src/gtest/include/gtest/gtest-message.h.

    A message owns a stringstream on the heap, which is known by its text; a value that is
    streamed is known by the text it writes (manipulators that change a stream's format
    are not modelled). GetString and the default constructor are only declared: they are an
    interface (MessageText, MessageTextLaws). *)

From stdpp Require Import pretty.
From S2P Require Import ThreadLocals Prelude Mem Printers.
#[local] Open Scope string_scope.

(** * Interface *)

Definition nul : Ascii.ascii := Ascii.zero.

(** Each NUL replaced with a backslash and a zero. *)
Fixpoint replace_nul (s : string) : string :=
  match s with
  | EmptyString => EmptyString
  | String c s => if decide (c = nul) then "\0" +:+ replace_nul s else String c (replace_nul s)
  end.


(** * class Message *)

Section messages.
Context `{MA : Malloc, MT : MessageText}.

(** The streams, and the messages of a program by their names. *)
Record env : Type := Env { streams : mem string; messages : gmap nat scoped_ptr }.

Definition on_streams {A} (m : cmd (mem string) A) : cmd env A := zoom streams (λ h e, Env h (messages e)) m.

(** new of a stringstream with a text; the program ends when there is no memory. *)
Definition new_stringstream (text : string) : cmd env ptr :=
  p ← on_streams (malloc text); if p is Some _ then mret p else abort.

(** *ss_ << text. *)
Definition write (ss : scoped_ptr) (text : string) : cmd env unit :=
  s ← on_streams (deref ss); on_streams (store (ptr_ ss) (s +:+ text)).


Definition set_message (id : nat) (ss : option scoped_ptr) : cmd env unit :=
  modify (λ e, Env (streams e) (partial_alter (λ _, ss) id (messages e))).




(** Message(str); writing a NULL char pointer to a stream is undefined. *)
Definition new_Message_c_str (id : nat) (str : option string) : cmd env unit :=
  p ← new_stringstream EmptyString;
  text ← or_ub NullDeref str;
  write (MkScopedPtr p) text;;
  set_message id (Some (MkScopedPtr p)).



(** std::endl, std::ends and std::flush. *)
Inductive manipulator : Set := endl | ends | flush.
Definition manipulator_text (val : manipulator) : string :=
  match val with endl => String (Ascii.ascii_of_nat 10) EmptyString | ends => String nul EmptyString | flush => EmptyString end.

(** The text is a const char*, a pointer. *)
#[local] Instance c_string_text : Streamable string := id.




(** * Programs *)

Inductive op : Type :=
  | New (id : nat) | NewCopy (id msg : nat) | NewCStr (id : nat) (str : string)
  | Out (id : nat) (T : Type) (S : Streamable T) (val : T)
  | OutPointer (id : nat) (P : Type) (S : Streamable P) (pointer : option P)
  | OutManip (id : nat) (val : manipulator) | OutBool (id : nat) (b : bool) | OutMessage (id sb : nat)
  | GetText (id : nat) | ToText (T : Type) (S : Streamable T) (val : T) | Destroy (id : nat).



(** ** What they mean: a message is its text *)

Implicit Types (m : gmap nat string) (o : op).

Definition streamed {T} `{!Streamable T} (val : T) : string := replace_nul (stream_text val).
Definition append (id : nat) (text : string) m : gmap nat string := alter (λ s, s +:+ text) id m.

Definition after m o : gmap nat string :=
  match o with
  | New id => <[id := EmptyString]> m
  | NewCopy id msg => <[id := default EmptyString (m !! msg)]> m
  | NewCStr id str => <[id := replace_nul str]> m
  | Out id T St val => append id (streamed val) m
  | OutPointer id P St p => append id (match p with None => "(null)" | Some p => streamed p end) m
  | OutManip id val => append id (replace_nul (manipulator_text val)) m
  | OutBool id b => append id (if b then "true" else "false") m
  | OutMessage id sb => append id (default EmptyString (m !! sb)) m
  | GetText _ | ToText _ _ _ => m
  | Destroy id => delete id m
  end.

Definition answer m o : option string :=
  match o with
  | GetText id => m !! id
  | ToText T St val => Some (streamed val)
  | _ => None
  end.


Fixpoint answers m (os : list op) : list (option string) :=
  match os with [] => [] | o :: os => answer m o :: answers (after m o) os end.

(** * The texts of the messages of a program *)



(** The message [id] has the stream at [l]. *)
Abbreviation has_stream e id l := (messages e !! id = Some (MkScopedPtr (Some l))).

(** The message [id] has a stream, and its text is [t] with each NUL replaced. *)
Definition reads e id t : Prop :=
  ∃ l s, has_stream e id l ∧ cells (streams e) !! l = Some s ∧ replace_nul s = t.

(** Every message has its own stream with its text, and there are no other streams. *)
Record agrees m (e : env) : Prop := {
  agrees_dom id : is_Some (messages e !! id) ↔ is_Some (m !! id);
  agrees_text id t : m !! id = Some t → reads e id t;
  agrees_own id j l : has_stream e id l → has_stream e j l → id = j;
  agrees_owned l : is_Some (cells (streams e) !! l) → ∃ id, has_stream e id l;
}.

Context `{ML : !MessageTextLaws} (memory : malloc_total).
Implicit Types (e : env) (l : loc) (s t : string).

Lemma agrees_none m e id : agrees m e → m !! id = None → messages e !! id = None.
Proof. rewrite !eq_None_not_Some. intros [Hd _ _ _] Hm Hs. by apply Hm, Hd. Qed.




(** ** Every operation is that of the text *)

Lemma new_stringstream_done s e :
  ∃ l, cells (streams e) !! l = None ∧
    new_stringstream s e =
      (Done (Some l), Env (Mem (<[l := s]> (cells (streams e))) (S (calls (streams e)))) (messages e)).
Proof.
  destruct (malloc_new s (streams e) memory) as (l & Hl & Hm). exists l. split; [done|].
  unfold new_stringstream, on_streams. by rewrite (bind_done _ _ _ _ _ (zoom_done _ _ _ _ _ _ Hm)).
Qed.
















(** Message(NULL) is undefined: only operator<< treats a NULL pointer as "(null)". *)
Lemma null_c_string_undefined id e : ∃ e', new_Message_c_str id None e = (Undefined NullDeref, e').
Proof.
  destruct (new_stringstream_done EmptyString e) as (l & _ & Hnew). unfold new_Message_c_str.
  rewrite (bind_done _ _ _ _ _ Hnew). by eexists.
Qed.

End messages.



#[local] Instance nat_streamable : Streamable nat := pretty.

(** [foo << 1 << " != " << 2], of the comment of the class. *)
Definition sample_program : list op :=
  [New 0; Out 0 nat _ 1%nat; OutPointer 0 string id (Some " != "); Out 0 nat _ 2%nat; GetText 0;
   NewCStr 1 "a"; OutManip 1 ends; NewCopy 2 1; OutBool 2 true; OutMessage 2 0; OutPointer 2 string id None;
   Destroy 1; GetText 2; ToText nat _ 1%nat; Destroy 0; Destroy 2].

Example sample_answers :
  omap id (answers ∅ sample_program) = ["1 != 2"; "a\0true1 != 2(null)"; "1"].
Proof. vm_decide. Qed.

