(* ===== verification/Assertions.v ===== *)
(** Assertions of the bundled test library: AssertionResult and the comparison helpers of
    src/gtest/include/gtest/gtest.h, the predicate assertions of gtest_pred_impl.h for one
    to five arguments, and the statements EXPECT_..., ASSERT_..., FAIL and SUCCEED with the
    macros of internal/gtest-internal.h they expand to.

    A statement of a test body is a command that says whether the function goes on
    ([Next]) or returns. What the headers only declare is the class [gtest_library]; its
    documented behaviour is [gtest_laws]. *)

From stdpp Require Import pretty.
From S2P Require Import Prelude Tuples Printers.
#[local] Open Scope Z_scope.

(** * What types bring *)

(** The comparison operators that are found for two types. *)
Inductive operator : Set := OpEq | OpNe | OpLt | OpGt | OpLe | OpGe.
Class Operator (op : operator) (A B : Type) : Type := apply_operator : A → B → bool.
#[global] Hint Mode Operator + + + : typeclass_instances.

#[export] Instance int_eq : Operator OpEq Z Z := Z.eqb.
#[export] Instance int_ne : Operator OpNe Z Z := λ a b, negb (Z.eqb a b).
#[export] Instance int_lt : Operator OpLt Z Z := Z.ltb.
#[export] Instance int_gt : Operator OpGt Z Z := Z.gtb.
#[export] Instance int_le : Operator OpLe Z Z := Z.leb.
#[export] Instance int_ge : Operator OpGe Z Z := Z.geb.

(** * C strings *)

Definition NUL : Ascii.ascii := Ascii.zero.

(** The C string at s.c_str(): what comes before the first NUL. *)
Fixpoint c_str (s : string) : string :=
  match s with
  | EmptyString => EmptyString
  | String c s => if bool_decide (c = NUL) then EmptyString else String c (c_str s)
  end.

(** * AssertionResult *)

(** message_ is NULL or the text streamed so far. *)
Record AssertionResult : Type := MkAssertionResult {
  success_ : bool;
  message_ : option string;
}.

(** AssertionResult(success), for a bool. *)
Definition new_AssertionResult (success : bool) : AssertionResult := MkAssertionResult success None.

Definition message (r : AssertionResult) : string :=
  match message_ r with Some s => c_str s | None => EmptyString end.
Definition failure_message (r : AssertionResult) : string := message r.

(** What is declared in the headers: the text of a Message, the results, and the texts of
    failures. *)
Class gtest_library : Type := {
  GetString : string → string;
  AssertionSuccess : AssertionResult;
  AssertionFailure : AssertionResult;
  operator_not : AssertionResult → AssertionResult;
  EqFailure : string → string → string → string → bool → AssertionResult;
  GetBoolAssertionFailureMessage : AssertionResult → string → string → string → string;
}.

(** A Message has the text streamed to it, each NUL in it replaced; operator! negates;
    EqFailure and AssertionFailure fail. *)
Class gtest_laws `{!gtest_library} : Prop := {
  GetString_text s : c_str s = s → GetString s = s;
  AssertionSuccess_succeeds : success_ AssertionSuccess = true;
  AssertionFailure_fails : AssertionFailure = MkAssertionResult false None;
  operator_not_negates r : success_ (operator_not r) = negb (success_ r);
  EqFailure_fails e1 e2 v1 v2 c : success_ (EqFailure e1 e2 v1 v2 c) = false;
}.

Section results.
Context `{!gtest_library}.

(** AppendMessage(Message() << text). *)
Definition AppendMessage (r : AssertionResult) (a_message : string) : AssertionResult :=
  MkAssertionResult (success_ r) (Some (default EmptyString (message_ r) +:+ c_str (GetString a_message))).

(** r << x1 << x2 << ..., for the texts of x1, x2, ... *)
Definition stream_all (r : AssertionResult) (texts : list string) : AssertionResult :=
  fold_left AppendMessage texts r.

(** * Comparisons *)

Section compare.
Context {T1 T2 : Type} `{!FormatForComparison T1 T2, !FormatForComparison T2 T1}.

Definition CmpHelperEQFailure (lhs_expression rhs_expression : string) (lhs : T1) (rhs : T2) : AssertionResult :=
  EqFailure lhs_expression rhs_expression (FormatForComparisonFailureMessage lhs rhs)
    (FormatForComparisonFailureMessage rhs lhs) false.

Definition CmpHelperEQ `{!Operator OpEq T1 T2} (lhs_expression rhs_expression : string) (lhs : T1) (rhs : T2) :
    AssertionResult :=
  if apply_operator (op:=OpEq) lhs rhs then AssertionSuccess
  else CmpHelperEQFailure lhs_expression rhs_expression lhs rhs.

(** EqHelper<false>::Compare, and EqHelper<true>::Compare when the second argument is not
    a pointer. *)
Definition EqHelper_Compare `{!Operator OpEq T1 T2} (lhs_expression rhs_expression : string) (lhs : T1) (rhs : T2) :
    AssertionResult :=
  CmpHelperEQ lhs_expression rhs_expression lhs rhs.

Definition CmpHelperOpFailure (expr1 expr2 : string) (val1 : T1) (val2 : T2) (op : string) : AssertionResult :=
  stream_all AssertionFailure
    ["Expected: ("; expr1; ") "; op; " ("; expr2; "), actual: ";
     FormatForComparisonFailureMessage val1 val2; " vs "; FormatForComparisonFailureMessage val2 val1].

(** GTEST_IMPL_CMP_HELPER_(op_name, op). *)
Definition GTEST_IMPL_CMP_HELPER_ (op : operator) (op_text : string) `{!Operator op T1 T2}
    (expr1 expr2 : string) (val1 : T1) (val2 : T2) : AssertionResult :=
  if apply_operator (op:=op) val1 val2 then AssertionSuccess
  else CmpHelperOpFailure expr1 expr2 val1 val2 op_text.

Definition CmpHelperNE `{!Operator OpNe T1 T2} := GTEST_IMPL_CMP_HELPER_ OpNe "!=".
Definition CmpHelperLE `{!Operator OpLe T1 T2} := GTEST_IMPL_CMP_HELPER_ OpLe "<=".
Definition CmpHelperLT `{!Operator OpLt T1 T2} := GTEST_IMPL_CMP_HELPER_ OpLt "<".
Definition CmpHelperGE `{!Operator OpGe T1 T2} := GTEST_IMPL_CMP_HELPER_ OpGe ">=".
Definition CmpHelperGT `{!Operator OpGt T1 T2} := GTEST_IMPL_CMP_HELPER_ OpGt ">".
End compare.

(** EqHelper<true>::Compare, when the second argument is a pointer: the first is NULL. *)
Definition EqHelper_Compare_null {P : Type} `{!FormatForComparison (option P) (option P), !Operator OpEq (option P) (option P)}
    (lhs_expression rhs_expression : string) (rhs : option P) : AssertionResult :=
  CmpHelperEQ lhs_expression rhs_expression (None : option P) rhs.

(** * Predicates *)

Definition names (Ts : list Type) : list Type := map (λ _, string : Type) Ts.

Fixpoint names_list (Ts : list Type) : tuple (names Ts) → list string :=
  match Ts with [] => λ _, [] | T :: Ts => λ es, fst es :: names_list Ts (snd es) end.

Fixpoint value_texts {Ts : list Type} (P : each1 Streamable Ts) : tuple Ts → list string :=
  match P with each1_nil => λ _, [] | each1_cons p P => λ vs, p (fst vs) :: value_texts P (snd vs) end.

(** e1 << ", " << e2 << ... *)
Fixpoint separated (es : list string) : list string :=
  match es with [] => [] | [e] => [e] | e :: es => e :: ", " :: separated es end.

(** AssertPredNHelper(pred_text, e1, ..., en, pred, v1, ..., vn). *)
Definition assert_pred_helper (Ts : list Type) {P : each1 Streamable Ts} (pred_text : string)
    : curried (names Ts) (curried Ts bool → curried Ts AssertionResult) :=
  curry_tuple (names Ts) (λ es (pred : curried Ts bool), curry_tuple Ts (λ vs,
    if uncurry_tuple (R:=bool) Ts pred vs then AssertionSuccess
    else stream_all AssertionFailure
      (([pred_text; "("] : list string) ++ separated (names_list Ts es) ++
       [") evaluates to false, where"] ++
       concat (zip_with (λ e v : string, [newline; e; " evaluates to "; v])
                 (names_list Ts es) (value_texts P vs))))).
End results.

(** * Statements *)

(** TestPartResult::Type. *)
Inductive TestPartResult_Type : Set := kSuccess | kNonFatalFailure | kFatalFailure.
#[export] Instance test_part_type_eq_dec : EqDecision TestPartResult_Type.
Proof. solve_decision. Defined.

(** __FILE__ and __LINE__, and the text that the user streams to the statement. *)
Record site : Type := Site { site_file : string; site_line : Z; user_message : string }.
#[export] Instance site_eq_dec : EqDecision site.
Proof. solve_decision. Defined.

(** AssertHelper(type, file, line, message) = Message() << user_message, which tells the
    test that is running of a result. *)
Class TestRun (W : Type) : Type :=
  AssertHelper : TestPartResult_Type → site → string → cmd W unit.
#[global] Hint Mode TestRun + : typeclass_instances.

(** Whether the function goes on after a statement. *)
Inductive flow : Set := Next | Return.
Notation statement W := (cmd W flow).

(** s1; s2 *)
Definition seq {W} (s1 s2 : statement W) : statement W :=
  f ← s1; match f with Next => s2 | Return => mret Return end.
(** An expression statement. *)
Definition do_ {W A} (m : cmd W A) : statement W := m;; mret Next.

Infix ";>" := seq (at level 100, right associativity).

Section statements.
Context {W : Type} `{!TestRun W, !gtest_library}.
Implicit Types on_failure : string → statement W.

Definition GTEST_MESSAGE_AT_ (at_ : site) (message : string) (result_type : TestPartResult_Type) : cmd W unit :=
  AssertHelper result_type at_ message.
Definition GTEST_MESSAGE_ (at_ : site) := GTEST_MESSAGE_AT_ at_.
Definition GTEST_FATAL_FAILURE_ (at_ : site) (message : string) : statement W :=
  GTEST_MESSAGE_ at_ message kFatalFailure;; mret Return.
Definition GTEST_NONFATAL_FAILURE_ (at_ : site) (message : string) : statement W :=
  do_ (GTEST_MESSAGE_ at_ message kNonFatalFailure).
Definition GTEST_SUCCESS_ (at_ : site) (message : string) : statement W := do_ (GTEST_MESSAGE_ at_ message kSuccess).

Definition ADD_FAILURE (at_ : site) : statement W := GTEST_NONFATAL_FAILURE_ at_ "Failed".
Definition ADD_FAILURE_AT (at_ : site) : statement W := do_ (GTEST_MESSAGE_AT_ at_ "Failed" kNonFatalFailure).
Definition GTEST_FAIL (at_ : site) : statement W := GTEST_FATAL_FAILURE_ at_ "Failed".
Definition GTEST_SUCCEED (at_ : site) : statement W := GTEST_SUCCESS_ at_ "Succeeded".

(** GTEST_ASSERT_(expression, on_failure). *)
Definition GTEST_ASSERT_ (expression : cmd W AssertionResult) on_failure : statement W :=
  gtest_ar ← expression;
  if success_ gtest_ar then mret Next else on_failure (failure_message gtest_ar).

(** GTEST_TEST_BOOLEAN_(expression, text, actual, expected, fail). *)
Definition GTEST_TEST_BOOLEAN_ (expression : cmd W AssertionResult) (text actual expected : string)
    (fail : string → statement W) : statement W :=
  gtest_ar_ ← expression;
  if success_ gtest_ar_ then mret Next
  else fail (c_str (GetBoolAssertionFailureMessage gtest_ar_ text actual expected)).

(** A condition is a bool or an AssertionResult: what it makes of AssertionResult(c) and
    of AssertionResult(!c). *)
Class Condition (C : Type) : Type := {
  condition_result : C → AssertionResult;
  condition_not : C → AssertionResult;
}.
#[export] Instance bool_condition : Condition bool :=
  { condition_result b := new_AssertionResult b; condition_not b := new_AssertionResult (negb b) }.
#[export] Instance result_condition : Condition AssertionResult :=
  { condition_result r := r; condition_not r := operator_not r }.

Section boolean.
Context {C : Type} `{!Condition C}.
Implicit Types condition : cmd W C.

Definition EXPECT_TRUE (at_ : site) condition (text : string) : statement W :=
  GTEST_TEST_BOOLEAN_ (c ← condition; mret (condition_result c)) text "false" "true" (GTEST_NONFATAL_FAILURE_ at_).
Definition EXPECT_FALSE (at_ : site) condition (text : string) : statement W :=
  GTEST_TEST_BOOLEAN_ (c ← condition; mret (condition_not c)) text "true" "false" (GTEST_NONFATAL_FAILURE_ at_).
Definition ASSERT_TRUE (at_ : site) condition (text : string) : statement W :=
  GTEST_TEST_BOOLEAN_ (c ← condition; mret (condition_result c)) text "false" "true" (GTEST_FATAL_FAILURE_ at_).
Definition ASSERT_FALSE (at_ : site) condition (text : string) : statement W :=
  GTEST_TEST_BOOLEAN_ (c ← condition; mret (condition_not c)) text "true" "false" (GTEST_FATAL_FAILURE_ at_).
End boolean.

(** * Predicate assertions *)

Section predicates.
Context {Ts : list Type}.
Implicit Types (texts : tuple (names Ts)) (vs : cmd W (tuple Ts)).

(** GTEST_PRED_FORMATn_(pred_format, v1, ..., vn, on_failure); the texts are #v1, ..., and
    [vs] evaluates the arguments. *)
Definition GTEST_PRED_FORMAT_ (pred_format : curried (names Ts) (curried Ts AssertionResult)) texts vs
    on_failure : statement W :=
  GTEST_ASSERT_ (v ← vs; mret (uncurry_tuple Ts (uncurry_tuple (names Ts) pred_format texts) v)) on_failure.

(** GTEST_PREDn_(pred, v1, ..., vn, on_failure). *)
Definition GTEST_PRED_ {P : each1 Streamable Ts} (pred_text : string) (pred : curried Ts bool) texts vs
    on_failure : statement W :=
  GTEST_ASSERT_
    (v ← vs;
     mret (uncurry_tuple Ts (uncurry_tuple (names Ts) (assert_pred_helper Ts pred_text) texts pred) v))
    on_failure.
End predicates.

(** EXPECT_PRED_FORMATn, EXPECT_PREDn, ASSERT_PRED_FORMATn and ASSERT_PREDn. *)
Record pred_assertions (Ts : list Type) : Type := PredAssertions {
  EXPECT_PRED_FORMAT : site → curried (names Ts) (curried Ts AssertionResult) → tuple (names Ts) →
    cmd W (tuple Ts) → statement W;
  EXPECT_PRED : each1 Streamable Ts → site → string → curried Ts bool → tuple (names Ts) →
    cmd W (tuple Ts) → statement W;
  ASSERT_PRED_FORMAT : site → curried (names Ts) (curried Ts AssertionResult) → tuple (names Ts) →
    cmd W (tuple Ts) → statement W;
  ASSERT_PRED : each1 Streamable Ts → site → string → curried Ts bool → tuple (names Ts) →
    cmd W (tuple Ts) → statement W;
}.

Definition pred_macros (Ts : list Type) : pred_assertions Ts := {|
  EXPECT_PRED_FORMAT at_ pred_format texts vs :=
    GTEST_PRED_FORMAT_ pred_format texts vs (GTEST_NONFATAL_FAILURE_ at_);
  EXPECT_PRED P at_ pred_text pred texts vs :=
    GTEST_PRED_ pred_text pred texts vs (GTEST_NONFATAL_FAILURE_ at_);
  ASSERT_PRED_FORMAT at_ pred_format texts vs :=
    GTEST_PRED_FORMAT_ pred_format texts vs (GTEST_FATAL_FAILURE_ at_);
  ASSERT_PRED P at_ pred_text pred texts vs :=
    GTEST_PRED_ pred_text pred texts vs (GTEST_FATAL_FAILURE_ at_);
|}.
End statements.
Arguments EXPECT_PRED_FORMAT {W Ts} _ _ _ _ _.
Arguments EXPECT_PRED {W Ts} _ {_} _ _ _ _ _.
Arguments ASSERT_PRED_FORMAT {W Ts} _ _ _ _ _.
Arguments ASSERT_PRED {W Ts} _ {_} _ _ _ _ _.

(** The helpers and the macros of the header, for one to five arguments. *)
Section arities.
Context {W : Type} `{!TestRun W, !gtest_library} {T1 T2 T3 T4 T5 : Type}.

Definition AssertPred1Helper {P : each1 Streamable [T1] } := assert_pred_helper [T1].
Definition macros1 : pred_assertions (W:=W) [T1] := pred_macros [T1].
Definition AssertPred2Helper {P : each1 Streamable [T1; T2] } := assert_pred_helper [T1; T2].
Definition macros2 : pred_assertions (W:=W) [T1; T2] := pred_macros [T1; T2].
Definition AssertPred3Helper {P : each1 Streamable [T1; T2; T3] } := assert_pred_helper [T1; T2; T3].
Definition macros3 : pred_assertions (W:=W) [T1; T2; T3] := pred_macros [T1; T2; T3].
Definition AssertPred4Helper {P : each1 Streamable [T1; T2; T3; T4] } := assert_pred_helper [T1; T2; T3; T4].
Definition macros4 : pred_assertions (W:=W) [T1; T2; T3; T4] := pred_macros [T1; T2; T3; T4].
Definition AssertPred5Helper {P : each1 Streamable [T1; T2; T3; T4; T5] } := assert_pred_helper [T1; T2; T3; T4; T5].
Definition macros5 : pred_assertions (W:=W) [T1; T2; T3; T4; T5] := pred_macros [T1; T2; T3; T4; T5].
End arities.

(** * Comparison assertions *)

Section comparisons.
Context {W : Type} `{!TestRun W, !gtest_library} {T1 T2 : Type}
  `{!FormatForComparison T1 T2, !FormatForComparison T2 T1}.
Implicit Types vals : cmd W (tuple [T1; T2]).

(** EXPECT_EQ(val1, val2) and the others; [vals] evaluates the two arguments. *)
Definition EXPECT_EQ `{!Operator OpEq T1 T2} (at_ : site) (val1_text val2_text : string) vals : statement W :=
  EXPECT_PRED_FORMAT macros2 at_ EqHelper_Compare (val1_text, (val2_text, ())) vals.
Definition EXPECT_NE `{!Operator OpNe T1 T2} (at_ : site) (val1_text val2_text : string) vals : statement W :=
  EXPECT_PRED_FORMAT macros2 at_ CmpHelperNE (val1_text, (val2_text, ())) vals.
Definition EXPECT_LE `{!Operator OpLe T1 T2} (at_ : site) (val1_text val2_text : string) vals : statement W :=
  EXPECT_PRED_FORMAT macros2 at_ CmpHelperLE (val1_text, (val2_text, ())) vals.
Definition EXPECT_LT `{!Operator OpLt T1 T2} (at_ : site) (val1_text val2_text : string) vals : statement W :=
  EXPECT_PRED_FORMAT macros2 at_ CmpHelperLT (val1_text, (val2_text, ())) vals.
Definition EXPECT_GE `{!Operator OpGe T1 T2} (at_ : site) (val1_text val2_text : string) vals : statement W :=
  EXPECT_PRED_FORMAT macros2 at_ CmpHelperGE (val1_text, (val2_text, ())) vals.
Definition EXPECT_GT `{!Operator OpGt T1 T2} (at_ : site) (val1_text val2_text : string) vals : statement W :=
  EXPECT_PRED_FORMAT macros2 at_ CmpHelperGT (val1_text, (val2_text, ())) vals.

Definition GTEST_ASSERT_EQ `{!Operator OpEq T1 T2} (at_ : site) (val1_text val2_text : string) vals : statement W :=
  ASSERT_PRED_FORMAT macros2 at_ EqHelper_Compare (val1_text, (val2_text, ())) vals.
Definition GTEST_ASSERT_NE `{!Operator OpNe T1 T2} (at_ : site) (val1_text val2_text : string) vals : statement W :=
  ASSERT_PRED_FORMAT macros2 at_ CmpHelperNE (val1_text, (val2_text, ())) vals.
Definition GTEST_ASSERT_LE `{!Operator OpLe T1 T2} (at_ : site) (val1_text val2_text : string) vals : statement W :=
  ASSERT_PRED_FORMAT macros2 at_ CmpHelperLE (val1_text, (val2_text, ())) vals.
Definition GTEST_ASSERT_LT `{!Operator OpLt T1 T2} (at_ : site) (val1_text val2_text : string) vals : statement W :=
  ASSERT_PRED_FORMAT macros2 at_ CmpHelperLT (val1_text, (val2_text, ())) vals.
Definition GTEST_ASSERT_GE `{!Operator OpGe T1 T2} (at_ : site) (val1_text val2_text : string) vals : statement W :=
  ASSERT_PRED_FORMAT macros2 at_ CmpHelperGE (val1_text, (val2_text, ())) vals.
Definition GTEST_ASSERT_GT `{!Operator OpGt T1 T2} (at_ : site) (val1_text val2_text : string) vals : statement W :=
  ASSERT_PRED_FORMAT macros2 at_ CmpHelperGT (val1_text, (val2_text, ())) vals.
End comparisons.

(** ASSERT_EQ and the others, where GTEST_DONT_DEFINE_ASSERT_EQ, ... are not defined. *)
Notation ASSERT_EQ := GTEST_ASSERT_EQ.
Notation ASSERT_NE := GTEST_ASSERT_NE.
Notation ASSERT_LE := GTEST_ASSERT_LE.
Notation ASSERT_LT := GTEST_ASSERT_LT.
Notation ASSERT_GE := GTEST_ASSERT_GE.
Notation ASSERT_GT := GTEST_ASSERT_GT.

(** * Streamed messages *)

(** A text without NUL. *)
Definition plain (s : string) : Prop := c_str s = s.

Lemma c_str_plain s : plain (c_str s).
Proof.
  unfold plain. induction s as [|c s IH]; [done|]. simpl. case_bool_decide as Hc; [done|].
  simpl. by rewrite bool_decide_eq_false_2 // IH.
Qed.

Lemma c_str_app s t : plain s → c_str (s +:+ t) = s +:+ c_str t.
Proof.
  unfold plain. induction s as [|c s IH]; [done|]. simpl.
  case_bool_decide; [done|]. intros [= Hs]. by rewrite IH.
Qed.

#[local] Arguments String.append : simpl never.

Lemma plain_app s t : plain s → plain t → plain (s +:+ t).
Proof. intros Hs Ht. unfold plain. by rewrite c_str_app // Ht. Qed.

(** All texts, one after the other. *)
Fixpoint texts_of (texts : list string) : string :=
  match texts with [] => EmptyString | t :: texts => t +:+ texts_of texts end.

Lemma texts_of_plain texts : Forall plain texts → plain (texts_of texts).
Proof. induction 1; [done|]. by apply plain_app. Qed.

Lemma texts_of_app xs ys : texts_of (xs ++ ys) = texts_of xs +:+ texts_of ys.
Proof. induction xs as [|x xs IH]; [done|]. cbn. by rewrite IH string_app_assoc. Qed.

Section results.
Context `{!gtest_library, !gtest_laws}.

Lemma stream_all_success r texts : success_ (stream_all r texts) = success_ r.
Proof. revert r. induction texts as [|t texts IH]; intros r; [done|]. exact (IH (AppendMessage r t)). Qed.

Lemma stream_all_text r texts :
  texts ≠ [] → Forall plain texts →
  message_ (stream_all r texts) = Some (default EmptyString (message_ r) +:+ texts_of texts).
Proof.
  intros Hne Hp. revert r Hne. induction Hp as [|t texts Ht Hp IH]; intros r; [done|]. intros _.
  assert (AppendMessage r t = MkAssertionResult (success_ r) (Some (default EmptyString (message_ r) +:+ t))) as Ha.
  { unfold AppendMessage. by rewrite GetString_text // Ht. }
  destruct texts as [|u texts]; [cbn [stream_all fold_left]; unfold stream_all; cbn [fold_left]; by rewrite Ha /= string_app_nil_r|].
  change (stream_all r (t :: u :: texts)) with (stream_all (AppendMessage r t) (u :: texts)).
  by rewrite IH // Ha /= -string_app_assoc.
Qed.

(** A failure with a streamed text fails, and its message is that text. *)
Lemma failure_streamed texts :
  texts ≠ [] → Forall plain texts →
  success_ (stream_all AssertionFailure texts) = false ∧
  failure_message (stream_all AssertionFailure texts) = texts_of texts.
Proof.
  intros Hne Hp. split; [by rewrite stream_all_success AssertionFailure_fails|].
  unfold failure_message, message. rewrite stream_all_text // AssertionFailure_fails /=.
  by apply texts_of_plain.
Qed.
End results.

(** * Statements *)

(** What an assertion does: nothing when it holds, else it tells the test, and a fatal one
    makes the function return. *)
Definition report_unless {W} `{!TestRun W} (fatal ok : bool) (at_ : site) (msg : string) : statement W :=
  if ok then mret Next
  else AssertHelper (if fatal then kFatalFailure else kNonFatalFailure) at_ msg;;
       mret (if fatal then Return else Next).

Section statements.
Context {W : Type} `{!TestRun W, !gtest_library, !gtest_laws}.

(** The two ways to end GTEST_ASSERT_. *)
Definition on_failure_of (fatal : bool) (at_ : site) : string → statement W :=
  if fatal then GTEST_FATAL_FAILURE_ at_ else GTEST_NONFATAL_FAILURE_ at_.

Lemma on_failure_run fatal at_ msg w :
  on_failure_of fatal at_ msg w = report_unless fatal false at_ msg w.
Proof. by destruct fatal. Qed.

Lemma assert_run fatal at_ (e : cmd W AssertionResult) r w w' :
  e w = (Done r, w') →
  GTEST_ASSERT_ e (on_failure_of fatal at_) w = report_unless fatal (success_ r) at_ (failure_message r) w'.
Proof.
  intros He. unfold GTEST_ASSERT_. rewrite (bind_done _ _ _ _ _ He). unfold report_unless.
  destruct (success_ r); [done|]. by rewrite on_failure_run.
Qed.

Lemma pred_format_run {Ts} (fatal : bool) at_ (f : curried (names Ts) (curried Ts AssertionResult)) texts (vs : cmd W (tuple Ts)) v w w' :
  vs w = (Done v, w') →
  (if fatal then ASSERT_PRED_FORMAT (pred_macros Ts) else EXPECT_PRED_FORMAT (pred_macros Ts)) at_ f texts vs w =
  let r := uncurry_tuple Ts (uncurry_tuple (names Ts) f texts) v in
  report_unless fatal (success_ r) at_ (failure_message r) w'.
Proof.
  intros Hv. destruct fatal; cbn -[report_unless];
    [apply (assert_run true)|apply (assert_run false)]; by erewrite bind_done by done.
Qed.
End statements.

(** * Comparisons *)

Section comparison_lemmas.
Context {W : Type} `{!TestRun W, !gtest_library, !gtest_laws} {T1 T2 : Type}.
Context `{!FormatForComparison T1 T2, !FormatForComparison T2 T1}.

(** The text of a failed comparison. *)
Definition comparison_text (op e1 e2 : string) (a : T1) (b : T2) : string :=
  "Expected: (" +:+ e1 +:+ ") " +:+ op +:+ " (" +:+ e2 +:+ "), actual: " +:+
  Format T2 a +:+ " vs " +:+ Format T1 b.

Lemma cmp_helper_result op op_text `{!Operator op T1 T2} e1 e2 (a : T1) (b : T2) :
  Forall plain [op_text; e1; e2; Format T2 a; Format T1 b] →
  let r := GTEST_IMPL_CMP_HELPER_ op op_text e1 e2 a b in
  success_ r = apply_operator (op:=op) a b ∧
  (apply_operator (op:=op) a b = false → failure_message r = comparison_text op_text e1 e2 a b).
Proof.
  rewrite !Forall_cons. intros (Ho & H1 & H2 & Ha & Hb & _). unfold GTEST_IMPL_CMP_HELPER_.
  destruct (apply_operator a b); [split; [apply AssertionSuccess_succeeds|done]|].
  unfold CmpHelperOpFailure.
  match goal with |- context [stream_all _ ?t] => destruct (failure_streamed t) as [-> ->]; [done| |] end.
  { unfold FormatForComparisonFailureMessage. repeat constructor; done. }
  split; [done|]. intros _. cbn. by rewrite string_app_nil_r.
Qed.

Lemma report_unless_msg fatal ok at_ m1 m2 (w : W) :
  (ok = false → m1 = m2) → report_unless fatal ok at_ m1 w = report_unless fatal ok at_ m2 w.
Proof. intros Hm. destruct ok; [done|]. by rewrite Hm. Qed.

Lemma cmp_statement fatal op op_text `{!Operator op T1 T2} at_ e1 e2 (a : T1) (b : T2) (vals : cmd W (tuple [T1; T2])) w w' :
  vals w = (Done (a, (b, ())), w') →
  Forall plain [op_text; e1; e2; Format T2 a; Format T1 b] →
  (if (fatal : bool) then ASSERT_PRED_FORMAT macros2 else EXPECT_PRED_FORMAT macros2) at_
    (GTEST_IMPL_CMP_HELPER_ op op_text) (e1, (e2, ())) vals w =
  report_unless fatal (apply_operator (op:=op) a b) at_ (comparison_text op_text e1 e2 a b) w'.
Proof.
  intros Hv Hp. unfold macros2. rewrite (pred_format_run fatal at_ _ _ _ _ _ _ Hv). cbn [uncurry_tuple names map fst snd].
  destruct (cmp_helper_result op op_text e1 e2 a b Hp) as [-> Hm]. by apply report_unless_msg.
Qed.

Lemma eq_statement fatal `{!Operator OpEq T1 T2} at_ e1 e2 (a : T1) (b : T2) (vals : cmd W (tuple [T1; T2])) w w' :
  vals w = (Done (a, (b, ())), w') →
  (if (fatal : bool) then ASSERT_PRED_FORMAT macros2 else EXPECT_PRED_FORMAT macros2) at_
    EqHelper_Compare (e1, (e2, ())) vals w =
  report_unless fatal (apply_operator (op:=OpEq) a b) at_
    (failure_message (EqFailure e1 e2 (Format T2 a) (Format T1 b) false)) w'.
Proof.
  intros Hv. unfold macros2. rewrite (pred_format_run fatal at_ _ _ _ _ _ _ Hv). cbn [uncurry_tuple names map fst snd].
  unfold EqHelper_Compare, CmpHelperEQ, CmpHelperEQFailure, FormatForComparisonFailureMessage.
  destruct (apply_operator a b); [by rewrite AssertionSuccess_succeeds|by rewrite EqFailure_fails].
Qed.
End comparison_lemmas.

(** EXPECT_EQ, NE, LE, LT, GE and GT, and their ASSERT versions, evaluate their
    arguments once; when the operator holds they do nothing, else they tell the test of
    one failure, with the expressions and values of both sides, and only an ASSERT makes
    the function return. *)
Theorem comparison_assertions {W T1 T2 : Type} `{!TestRun W, !gtest_library, !gtest_laws}
    `{!FormatForComparison T1 T2, !FormatForComparison T2 T1}
    `{!Operator OpEq T1 T2, !Operator OpNe T1 T2, !Operator OpLe T1 T2, !Operator OpLt T1 T2,
      !Operator OpGe T1 T2, !Operator OpGt T1 T2}
    (at_ : site) (e1 e2 : string) (vals : cmd W (tuple [T1; T2])) (a : T1) (b : T2) w w' :
  vals w = (Done (a, (b, ())), w') →
  Forall plain [e1; e2; Format T2 a; Format T1 b] →
  let eq_text := failure_message (EqFailure e1 e2 (Format T2 a) (Format T1 b) false) in
  let expects ok msg := report_unless false ok at_ msg w' in
  let asserts ok msg := report_unless true ok at_ msg w' in
  EXPECT_EQ at_ e1 e2 vals w = expects (apply_operator (op:=OpEq) a b) eq_text ∧
  EXPECT_NE at_ e1 e2 vals w = expects (apply_operator (op:=OpNe) a b) (comparison_text "!=" e1 e2 a b) ∧
  EXPECT_LE at_ e1 e2 vals w = expects (apply_operator (op:=OpLe) a b) (comparison_text "<=" e1 e2 a b) ∧
  EXPECT_LT at_ e1 e2 vals w = expects (apply_operator (op:=OpLt) a b) (comparison_text "<" e1 e2 a b) ∧
  EXPECT_GE at_ e1 e2 vals w = expects (apply_operator (op:=OpGe) a b) (comparison_text ">=" e1 e2 a b) ∧
  EXPECT_GT at_ e1 e2 vals w = expects (apply_operator (op:=OpGt) a b) (comparison_text ">" e1 e2 a b) ∧
  ASSERT_EQ at_ e1 e2 vals w = asserts (apply_operator (op:=OpEq) a b) eq_text ∧
  ASSERT_NE at_ e1 e2 vals w = asserts (apply_operator (op:=OpNe) a b) (comparison_text "!=" e1 e2 a b) ∧
  ASSERT_LE at_ e1 e2 vals w = asserts (apply_operator (op:=OpLe) a b) (comparison_text "<=" e1 e2 a b) ∧
  ASSERT_LT at_ e1 e2 vals w = asserts (apply_operator (op:=OpLt) a b) (comparison_text "<" e1 e2 a b) ∧
  ASSERT_GE at_ e1 e2 vals w = asserts (apply_operator (op:=OpGe) a b) (comparison_text ">=" e1 e2 a b) ∧
  ASSERT_GT at_ e1 e2 vals w = asserts (apply_operator (op:=OpGt) a b) (comparison_text ">" e1 e2 a b).
Proof.
  intros Hv Hp eq_text expects asserts.
  assert (∀ op_text, plain op_text → Forall plain [op_text; e1; e2; Format T2 a; Format T1 b]) as Hop.
  { intros op_text Ho. by constructor. }
  split_and!;
    first [exact (eq_statement false at_ e1 e2 a b vals w w' Hv)
          |exact (eq_statement true at_ e1 e2 a b vals w w' Hv)
          |by apply (cmp_statement false), Hop|by apply (cmp_statement true), Hop].
Qed.

(** * Predicates *)

(** The text of a failed predicate assertion. *)
Definition predicate_text {Ts : list Type} {P : each1 Streamable Ts} (pred_text : string) (es : tuple (names Ts))
    (vs : tuple Ts) : string :=
  pred_text +:+ "(" +:+ String.concat ", " (names_list Ts es) +:+ ") evaluates to false, where" +:+
  texts_of (zip_with (λ e v, newline +:+ e +:+ " evaluates to " +:+ v) (names_list Ts es) (value_texts P vs)).

Lemma separated_text es : texts_of (separated es) = String.concat ", " es.
Proof.
  induction es as [|e [|f es] IH]; [done|apply string_app_nil_r|].
  cbn [separated texts_of String.concat] in *. by rewrite IH.
Qed.

Lemma separated_plain es : Forall plain es → Forall plain (separated es).
Proof.
  induction 1 as [|e es He Hes IH]; [done|]. destruct es as [|f es]; [by constructor|].
  by constructor; [|constructor].
Qed.

Lemma described_text es vs :
  texts_of (concat (zip_with (λ e v : string, [newline; e; " evaluates to "; v]) es vs)) =
  texts_of (zip_with (λ e v, newline +:+ e +:+ " evaluates to " +:+ v) es vs).
Proof.
  revert vs. induction es as [|e es IH]; intros [|v vs]; [done..|].
  cbn -[newline]. by rewrite IH -!string_app_assoc.
Qed.

Lemma described_plain es vs :
  Forall plain es → Forall plain vs →
  Forall plain (concat (zip_with (λ e v : string, [newline; e; " evaluates to "; v]) es vs)).
Proof.
  intros He. revert vs. induction He as [|e es He Hes IH]; intros [|v vs] Hv; [done..|].
  apply Forall_cons in Hv as [Hv Hvs]. cbn -[newline]. repeat (constructor; [done|]). by apply IH.
Qed.

Lemma predicate_failure `{!gtest_library, !gtest_laws} {Ts} {P : each1 Streamable Ts} pred_text es pred vs :
  plain pred_text → Forall plain (names_list Ts es) → Forall plain (value_texts P vs) →
  let r := uncurry_tuple Ts (uncurry_tuple (names Ts) (assert_pred_helper Ts pred_text) es pred) vs in
  success_ r = uncurry_tuple (R:=bool) Ts pred vs ∧
  (uncurry_tuple (R:=bool) Ts pred vs = false → failure_message r = predicate_text pred_text es vs).
Proof.
  intros Hp He Hv. unfold assert_pred_helper. rewrite curry_uncurry curry_uncurry.
  destruct (uncurry_tuple Ts pred vs); [split; [apply AssertionSuccess_succeeds|done]|].
  match goal with |- context [stream_all _ ?t] => destruct (failure_streamed t) as [-> ->]; [done| |] end.
  { repeat (constructor; [done|]). rewrite Forall_app. split; [by apply separated_plain|].
    constructor; [done|]. by apply described_plain. }
  split; [done|]. intros _. rewrite !texts_of_app separated_text described_text.
  unfold predicate_text. cbn [texts_of]. by rewrite !string_app_nil_r -!string_app_assoc.
Qed.

(** EXPECT_PREDn(pred, v1, ..., vn) and ASSERT_PREDn, for any number of arguments,
    do nothing when the predicate holds of the values, else tell the test of one failure
    that shows the call and, line by line, the value of each argument expression. *)
Theorem predicate_assertions {W : Type} `{!TestRun W, !gtest_library, !gtest_laws}
    {Ts : list Type} {P : each1 Streamable Ts} (at_ : site) (pred_text : string) (pred : curried Ts bool)
    (es : tuple (names Ts)) (args : cmd W (tuple Ts)) vs w w' :
  args w = (Done vs, w') →
  plain pred_text → Forall plain (names_list Ts es) → Forall plain (value_texts P vs) →
  let holds := uncurry_tuple (R:=bool) Ts pred vs in
  EXPECT_PRED (pred_macros Ts) at_ pred_text pred es args w =
    report_unless false holds at_ (predicate_text pred_text es vs) w' ∧
  ASSERT_PRED (pred_macros Ts) at_ pred_text pred es args w =
    report_unless true holds at_ (predicate_text pred_text es vs) w'.
Proof.
  intros Ha Hp He Hv holds. destruct (predicate_failure pred_text es pred vs Hp He Hv) as [Hr Hm].
  split; cbn -[report_unless]; unfold GTEST_PRED_;
    [rewrite (assert_run false at_ _ _ w w' (bind_done _ _ _ _ _ Ha))
    |rewrite (assert_run true at_ _ _ w w' (bind_done _ _ _ _ _ Ha))];
    rewrite Hr; by apply report_unless_msg.
Qed.

(** * A function of assertions *)

Notation part := (TestPartResult_Type * site * string)%type.

(** What a test run promises: a result is added to those of the test, and the program's
    own state is left alone. *)
Class TestRunLaws (W Pr : Type) `{!TestRun W} : Type := {
  run_parts : W → list part;
  run_program : W → Pr;
  AssertHelper_adds t at_ msg w : ∃ w', AssertHelper t at_ msg w = (Done (), w') ∧
    run_parts w' = run_parts w ++ [(t, at_, msg)] ∧ run_program w' = run_program w;
}.
#[global] Hint Mode TestRunLaws + - + : typeclass_instances.

(** An assertion with a given result: fatal or not. *)
Record assertion : Type := Assertion { fatal : bool; result : AssertionResult; at_site : site }.

Definition assertion_part (a : assertion) : part :=
  (if fatal a then kFatalFailure else kNonFatalFailure, at_site a, failure_message (result a)).

Section functions.
Context {W Pr : Type} `{!TestRun W, !gtest_library, !TestRunLaws W Pr}.

Definition assertion_statement (a : assertion) : statement W :=
  GTEST_ASSERT_ (mret (result a))
    (if fatal a then GTEST_FATAL_FAILURE_ (at_site a) else GTEST_NONFATAL_FAILURE_ (at_site a)).

(** The assertions that run: up to the first fatal one that fails. *)
Fixpoint executed (body : list assertion) : list assertion :=
  match body with
  | [] => []
  | a :: body => if fatal a && negb (success_ (result a)) then [a] else a :: executed body
  end.

Definition failing (a : assertion) : bool := negb (success_ (result a)).

Lemma report_unless_parts (is_fatal ok : bool) at_ msg (w : W) :
  ∃ w', report_unless is_fatal ok at_ msg w = (Done (if is_fatal && negb ok then Return else Next), w') ∧
    run_parts w' = run_parts w ++
      (if ok then [] else [(if is_fatal then kFatalFailure else kNonFatalFailure, at_, msg)]) ∧
    run_program w' = run_program w.
Proof.
  unfold report_unless. destruct ok; [by exists w; rewrite andb_false_r app_nil_r|].
  destruct (AssertHelper_adds (if is_fatal then kFatalFailure else kNonFatalFailure) at_ msg w) as (w' & Hw & Hp & Hr).
  exists w'. rewrite (bind_done _ _ _ _ _ Hw). by destruct is_fatal.
Qed.

(** A function that is a sequence of assertions tells the test of exactly the failing
    ones among those up to and including the first fatal failure, in order, and changes
    nothing else of the program; it returns early exactly when there is one. *)
Theorem assertions_in_order (body : list assertion) (w : W) :
  ∃ w', foldr (λ a rest, assertion_statement a ;> rest) (mret Next) body w =
      (Done (if existsb (λ a, fatal a && failing a) body then Return else Next), w') ∧
    run_parts w' = run_parts w ++ (assertion_part <$> List.filter failing (executed body)) ∧
    run_program w' = run_program w.
Proof.
  revert w. induction body as [|a body IH]; intros w; [by exists w; rewrite app_nil_r|]. cbn [foldr].
  destruct (report_unless_parts (fatal a) (success_ (result a)) (at_site a) (failure_message (result a)) w)
    as (w1 & Hw1 & Hp1 & Hr1).
  assert (assertion_statement a w = (Done (if fatal a && failing a then Return else Next), w1)) as Ha.
  { unfold assertion_statement. rewrite -Hw1. by apply assert_run. }
  unfold seq. rewrite (bind_done _ _ _ _ _ Ha). cbn [existsb executed]. fold (failing a).
  assert (success_ (result a) = negb (failing a)) as Hok by (unfold failing; by rewrite negb_involutive).
  rewrite Hok in Hp1. clear Hok. fold (assertion_part a) in Hp1.
  destruct (failing a) eqn:Hfl.
  - rewrite andb_true_r. destruct (fatal a) eqn:Hfa; cbn [orb].
    + exists w1. by rewrite Hp1 Hr1 /= Hfl.
    + destruct (IH w1) as (w2 & Hw2 & Hp2 & Hr2). exists w2.
      by rewrite Hw2 Hp2 Hp1 Hr2 Hr1 /= Hfl -app_assoc.
  - rewrite andb_false_r. destruct (IH w1) as (w2 & Hw2 & Hp2 & Hr2). exists w2.
    by rewrite Hw2 Hp2 Hp1 Hr2 Hr1 /= Hfl app_nil_r.
Qed.
End functions.

(** * A sample *)

(** A test run that keeps the results in a list. *)
Record sample_run (Pr : Type) : Type := SampleRun { sample_program : Pr; sample_parts : list part }.
Arguments SampleRun {Pr} _ _.
Arguments sample_program {Pr} _.
Arguments sample_parts {Pr} _.
#[export] Instance sample_test_run Pr : TestRun (sample_run Pr) := λ t at_ msg w,
  (Done (), SampleRun (sample_program w) (sample_parts w ++ [(t, at_, msg)])).
#[export, refine] Instance sample_run_laws Pr : TestRunLaws (sample_run Pr) Pr :=
  { run_parts := sample_parts; run_program := sample_program }.
Proof. intros t at_ msg w. by eexists. Defined.

Definition sample_gtest : gtest_library := {|
  GetString s := s;
  AssertionSuccess := new_AssertionResult true;
  AssertionFailure := new_AssertionResult false;
  operator_not r := new_AssertionResult (negb (success_ r));
  EqFailure e1 e2 v1 v2 _ := MkAssertionResult false (Some (e1 +:+ " is not " +:+ e2));
  GetBoolAssertionFailureMessage _ text actual _ := text +:+ " is " +:+ actual;
|}.
Lemma sample_gtest_laws : gtest_laws (H := sample_gtest).
Proof. by split. Defined.

#[local] Existing Instances sample_gtest sample_gtest_laws.
#[local] Instance stream_int : Streamable Z := pretty.

Definition sample_site : site := Site "a_test.cc" 7 EmptyString.

Lemma comparison_assertions_witness :
  EXPECT_LT sample_site "n" "2" (mret (3, (2, ()))) (SampleRun () []) =
    (Done Next, (SampleRun () [(kNonFatalFailure, sample_site, "Expected: (n) < (2), actual: 3 vs 2")])) ∧
  ASSERT_NE sample_site "n" "2" (mret (3, (2, ()))) (SampleRun () []) = (Done Next, (SampleRun () [])).
Proof.
  pose proof (comparison_assertions (W:=sample_run unit) sample_site "n" "2" (mret (3, (2, ()))) 3 2 (SampleRun () []) (SampleRun () [])
    eq_refl) as H.
  destruct H as (_ & _ & _ & H1 & _ & _ & _ & H2 & _); [by repeat constructor|].
  split; [rewrite H1|rewrite H2]; reflexivity.
Defined.

Lemma predicate_assertions_witness :
  ASSERT_PRED (pred_macros [Z : Type; Z : Type]) sample_site "Divides" (λ a b, (b mod a =? 0)) ("d", ("n", ()))
    (mret (4, (10, ()))) (SampleRun () []) =
  (Done Return, (SampleRun () [(kFatalFailure, sample_site,
    "Divides(d, n) evaluates to false, where" +:+ newline +:+ "d evaluates to 4" +:+ newline +:+ "n evaluates to 10")])).
Proof.
  pose proof (predicate_assertions (W:=sample_run unit) (Ts:=[Z : Type; Z : Type]) sample_site "Divides"
    (λ a b, (b mod a =? 0)) ("d", ("n", ())) (mret (4, (10, ()))) (4, (10, ())) (SampleRun () []) (SampleRun () [])
    eq_refl eq_refl) as H.
  destruct H as [_ ->]; [by repeat constructor..|]. reflexivity.
Defined.

Lemma assertions_in_order_witness :
  let body := [Assertion false (new_AssertionResult true) sample_site;
    Assertion false (MkAssertionResult false (Some "one")) sample_site;
    Assertion true (MkAssertionResult false (Some "two")) sample_site;
    Assertion false (MkAssertionResult false (Some "three")) sample_site] in
  ∃ w', foldr (λ a rest, assertion_statement a ;> rest) (mret Next) body (SampleRun 5 []) = (Done Return, w') ∧
    sample_parts w' = [(kNonFatalFailure, sample_site, "one"); (kFatalFailure, sample_site, "two")] ∧ sample_program w' = 5.
Proof.
  intros body. destruct (assertions_in_order (W:=sample_run Z) body (SampleRun 5 [])) as (w' & Hw & Hp & Hr).
  exists w'. by split_and!.
Defined.
