(* ===== verification/ThrowAssertions.v ===== *)
(** The assertions on exceptions and on fatal failures: GTEST_TEST_THROW_,
    GTEST_TEST_NO_THROW_, GTEST_TEST_ANY_THROW_ and GTEST_TEST_NO_FATAL_FAILURE_ of
    src/gtest/include/gtest/internal/gtest-internal.h, and the EXPECT and ASSERT macros of
    gtest.h that use them.

    A statement that may throw ends in one of three ways: it goes on, it returns from the
    function, or it throws. HasNewFatalFailureHelper of gtest-test-part.h, whose members
    the header only declares, is an interface: while a helper lives it notes the fatal
    failures that are reported. *)

From S2P Require Import Prelude Tuples Printers Assertions.
#[local] Open Scope Z_scope.

(** * Statements that may throw *)

(** The exceptions of a program and the types a handler is declared with; [catches t e]
    when a handler for t const& catches e. *)
Class Exceptions : Type := {
  exception : Type;
  exception_type : Type;
  catches : exception_type → exception → bool;
}.

Inductive ending `{!Exceptions} : Type := Went (f : flow) | Threw (e : exception).

(** The helpers that live, in the order of their construction, the last one first. *)
Class FatalFailureHelpers (W : Type) : Type := {
  helper : Type;
  new_helper : cmd W helper;
  delete_helper : helper → cmd W unit;
  has_new_fatal_failure : helper → cmd W bool;
}.
#[global] Hint Mode FatalFailureHelpers + : typeclass_instances.

Section statements.
Context {W : Type} `{!Exceptions, !TestRun W, !FatalFailureHelpers W}.
Notation throwing := (cmd W ending).

(** A statement that does not throw. *)
Definition nothrow (s : statement W) : throwing := f ← s; mret (Went f).

(** s1; s2 *)
Definition then_ (s1 s2 : throwing) : throwing :=
  r ← s1; match r with Went Next => s2 | _ => mret r end.

(** The call of a function with the given body. *)
Definition call (body : throwing) : throwing :=
  r ← body; match r with Went _ => mret (Went Next) | Threw e => mret (Threw e) end.

(** * The macros of gtest-internal.h *)

(** GTEST_TEST_THROW_(statement, expected_exception, fail); the texts are #statement and
    #expected_exception. *)
Definition GTEST_TEST_THROW_ (body : throwing) (text : string) (expected : exception_type)
    (expected_text : string) (fail : string → statement W) : throwing :=
  r ← body;
  match r with
  | Went Return => mret (Went Return)
  | Threw e =>
      if catches expected e then mret (Went Next)
      else nothrow (fail ("Expected: " +:+ text +:+ " throws an exception of type " +:+ expected_text +:+
                          "." +:+ newline +:+ "  Actual: it throws a different type."))
  | Went Next =>
      nothrow (fail ("Expected: " +:+ text +:+ " throws an exception of type " +:+ expected_text +:+
                     "." +:+ newline +:+ "  Actual: it throws nothing."))
  end.

Definition GTEST_TEST_NO_THROW_ (body : throwing) (text : string) (fail : string → statement W) : throwing :=
  r ← body;
  match r with
  | Went f => mret (Went f)
  | Threw _ =>
      nothrow (fail ("Expected: " +:+ text +:+ " doesn't throw an exception." +:+ newline +:+ "  Actual: it throws."))
  end.

Definition GTEST_TEST_ANY_THROW_ (body : throwing) (text : string) (fail : string → statement W) : throwing :=
  r ← body;
  match r with
  | Went Return => mret (Went Return)
  | Threw _ => mret (Went Next)
  | Went Next =>
      nothrow (fail ("Expected: " +:+ text +:+ " throws an exception." +:+ newline +:+ "  Actual: it doesn't."))
  end.

(** The helper is destroyed wherever the block that declares it is left: at its end, by
    the goto, by a return and by an exception. *)
Definition GTEST_TEST_NO_FATAL_FAILURE_ (body : throwing) (text : string) (fail : string → statement W) : throwing :=
  gtest_fatal_failure_checker ← new_helper;
  r ← body;
  match r with
  | Went Next =>
      failed ← has_new_fatal_failure gtest_fatal_failure_checker;
      delete_helper gtest_fatal_failure_checker;;
      if (failed : bool)
      then nothrow (fail ("Expected: " +:+ text +:+ " doesn't generate new fatal " +:+
                          "failures in the current thread." +:+ newline +:+ "  Actual: it does."))
      else mret (Went Next)
  | _ => delete_helper gtest_fatal_failure_checker;; mret r
  end.

(** * The macros of gtest.h *)

Definition EXPECT_THROW (at_ : site) body text expected expected_text : throwing :=
  GTEST_TEST_THROW_ body text expected expected_text (GTEST_NONFATAL_FAILURE_ at_).
Definition EXPECT_NO_THROW (at_ : site) body text : throwing :=
  GTEST_TEST_NO_THROW_ body text (GTEST_NONFATAL_FAILURE_ at_).
Definition EXPECT_ANY_THROW (at_ : site) body text : throwing :=
  GTEST_TEST_ANY_THROW_ body text (GTEST_NONFATAL_FAILURE_ at_).
Definition ASSERT_THROW (at_ : site) body text expected expected_text : throwing :=
  GTEST_TEST_THROW_ body text expected expected_text (GTEST_FATAL_FAILURE_ at_).
Definition ASSERT_NO_THROW (at_ : site) body text : throwing :=
  GTEST_TEST_NO_THROW_ body text (GTEST_FATAL_FAILURE_ at_).
Definition ASSERT_ANY_THROW (at_ : site) body text : throwing :=
  GTEST_TEST_ANY_THROW_ body text (GTEST_FATAL_FAILURE_ at_).
Definition ASSERT_NO_FATAL_FAILURE (at_ : site) body text : throwing :=
  GTEST_TEST_NO_FATAL_FAILURE_ body text (GTEST_FATAL_FAILURE_ at_).
Definition EXPECT_NO_FATAL_FAILURE (at_ : site) body text : throwing :=
  GTEST_TEST_NO_FATAL_FAILURE_ body text (GTEST_NONFATAL_FAILURE_ at_).
End statements.

(** * Test code *)

(** What a test body is made of here: statements and calls of functions, assertions with
    a given result, and the assertions on exceptions and fatal failures around any of it. *)
Inductive code `{!Exceptions} : Type :=
  | Skip
  | Seq (a b : code)
  | Leave
  | Raise (e : exception)
  | Call (body : code)
  | Holds (a : assertion)
  | Throws (fatal : bool) (at_ : site) (text : string) (body : code) (expected : exception_type) (expected_text : string)
  | NoThrow (fatal : bool) (at_ : site) (text : string) (body : code)
  | AnyThrow (fatal : bool) (at_ : site) (text : string) (body : code)
  | NoFatalFailure (fatal : bool) (at_ : site) (text : string) (body : code).

Section programs.
Context {W : Type} `{!Exceptions, !TestRun W, !gtest_library, !FatalFailureHelpers W}.

Fixpoint run_code (c : code) : cmd W ending :=
  match c with
  | Skip => mret (Went Next)
  | Seq a b => then_ (run_code a) (run_code b)
  | Leave => mret (Went Return)
  | Raise e => mret (Threw e)
  | Call body => call (run_code body)
  | Holds a => nothrow (assertion_statement a)
  | Throws f at_ text body expected expected_text =>
      (if f then ASSERT_THROW else EXPECT_THROW) at_ (run_code body) text expected expected_text
  | NoThrow f at_ text body => (if f then ASSERT_NO_THROW else EXPECT_NO_THROW) at_ (run_code body) text
  | AnyThrow f at_ text body => (if f then ASSERT_ANY_THROW else EXPECT_ANY_THROW) at_ (run_code body) text
  | NoFatalFailure f at_ text body =>
      (if f then ASSERT_NO_FATAL_FAILURE else EXPECT_NO_FATAL_FAILURE) at_ (run_code body) text
  end.

(** ** What it means *)

Definition is_fatal (p : part) : bool := bool_decide (p.1.1 = kFatalFailure).

(** One more failure at the end of what was reported. *)
Definition plus_failure (f : bool) (at_ : site) (msg : string) (ps : list part) : list part * ending :=
  (ps ++ [((if f then kFatalFailure else kNonFatalFailure, at_), msg)], Went (if f then Return else Next)).

(** What is reported, and how it ends. *)
Fixpoint meaning (c : code) : list part * ending :=
  match c with
  | Skip => ([], Went Next)
  | Seq a b =>
      let '(ps, r) := meaning a in
      match r with Went Next => let '(qs, r) := meaning b in (ps ++ qs, r) | _ => (ps, r) end
  | Leave => ([], Went Return)
  | Raise e => ([], Threw e)
  | Call body =>
      let '(ps, r) := meaning body in (ps, match r with Went _ => Went Next | Threw e => Threw e end)
  | Holds a =>
      if failing a then ([assertion_part a], Went (if fatal a then Return else Next)) else ([], Went Next)
  | Throws f at_ text body expected expected_text =>
      let '(ps, r) := meaning body in
      let failure what :=
        plus_failure f at_ ("Expected: " +:+ text +:+ " throws an exception of type " +:+ expected_text +:+
                            "." +:+ newline +:+ what) ps in
      match r with
      | Went Return => (ps, Went Return)
      | Went Next => failure "  Actual: it throws nothing."
      | Threw e => if catches expected e then (ps, Went Next) else failure "  Actual: it throws a different type."
      end
  | NoThrow f at_ text body =>
      let '(ps, r) := meaning body in
      match r with
      | Went g => (ps, Went g)
      | Threw _ => plus_failure f at_ ("Expected: " +:+ text +:+ " doesn't throw an exception." +:+ newline +:+
                                       "  Actual: it throws.") ps
      end
  | AnyThrow f at_ text body =>
      let '(ps, r) := meaning body in
      match r with
      | Went Return => (ps, Went Return)
      | Threw _ => (ps, Went Next)
      | Went Next => plus_failure f at_ ("Expected: " +:+ text +:+ " throws an exception." +:+ newline +:+
                                         "  Actual: it doesn't.") ps
      end
  | NoFatalFailure f at_ text body =>
      let '(ps, r) := meaning body in
      match r with
      | Went Next =>
          if existsb is_fatal ps
          then plus_failure f at_ ("Expected: " +:+ text +:+ " doesn't generate new fatal " +:+
                                   "failures in the current thread." +:+ newline +:+ "  Actual: it does.") ps
          else (ps, Went Next)
      | _ => (ps, r)
      end
  end.

(** Every throw is inside an assertion on exceptions. *)
Fixpoint exceptions_expected (c : code) : bool :=
  match c with
  | Raise _ => false
  | Seq a b => exceptions_expected a && exceptions_expected b
  | Call body | NoFatalFailure _ _ _ body => exceptions_expected body
  | _ => true
  end.
End programs.

(** * What a test run promises *)

(** The helpers that live and what each has noted, the innermost first: a new one has
    noted nothing, a fatal failure is noted by all of them, and they are destroyed in the
    reverse order. Helpers change nothing that is reported. *)
Class HelperLaws (W Pr : Type) `{!TestRun W, !FatalFailureHelpers W, !TestRunLaws W Pr} : Type := {
  noted : W → list (helper (W:=W) * bool);
  AssertHelper_noted t at_ msg w w' :
    AssertHelper t at_ msg w = (Done (), w') →
    noted w' = prod_map id (orb (bool_decide (t = kFatalFailure))) <$> noted w;
  new_helper_notes w : ∃ h w', new_helper w = (Done h, w') ∧ noted w' = (h, false) :: noted w ∧
    run_parts w' = run_parts w ∧ run_program w' = run_program w;
  has_new_fatal_failure_noted h b w rest :
    noted w = (h, b) :: rest → has_new_fatal_failure h w = (Done b, w);
  delete_helper_forgets h b w rest : noted w = (h, b) :: rest →
    ∃ w', delete_helper h w = (Done (), w') ∧ noted w' = rest ∧
      run_parts w' = run_parts w ∧ run_program w' = run_program w;
}.
#[global] Hint Mode HelperLaws + - - - + : typeclass_instances.

Section meaning.
Context {W Pr : Type} `{!Exceptions, !TestRun W, !gtest_library, !FatalFailureHelpers W}.
Context `{!TestRunLaws W Pr, !HelperLaws W Pr}.
Implicit Types (w : W) (ps qs : list part).

(** From [w] to [w'] exactly the results [ps] were reported, and every helper has noted
    the fatal ones. *)
Definition reported ps w w' : Prop :=
  run_parts w' = run_parts w ++ ps ∧
  noted w' = prod_map id (orb (existsb is_fatal ps)) <$> noted w ∧
  run_program w' = run_program w.

Lemma map_orb_id (l : list (helper (W:=W) * bool)) (b : bool) : b = false → prod_map id (orb b) <$> l = l.
Proof. intros ->. rewrite -{2}(list_fmap_id l). apply list_fmap_ext. by intros ? [] ?. Qed.

Lemma reported_nothing w : reported [] w w.
Proof. split_and!; [by rewrite app_nil_r|by rewrite map_orb_id|done]. Qed.

Lemma reported_app ps qs w1 w2 w3 : reported ps w1 w2 → reported qs w2 w3 → reported (ps ++ qs) w1 w3.
Proof.
  intros (Hp1 & Hn1 & Hr1) (Hp2 & Hn2 & Hr2). split_and!; [by rewrite Hp2 Hp1 app_assoc| |by rewrite Hr2].
  rewrite Hn2 Hn1 -list_fmap_compose existsb_app. apply list_fmap_ext. intros ? [h b] ?.
  by rewrite /compose /= orb_assoc (orb_comm (existsb is_fatal qs)).
Qed.

Lemma reported_one t at_ msg w : ∃ w', AssertHelper t at_ msg w = (Done (), w') ∧ reported [(t, at_, msg)] w w'.
Proof.
  destruct (AssertHelper_adds t at_ msg w) as (w' & Hw & Hp & Hr). exists w'. split; [done|].
  split_and!; [done| |done]. rewrite (AssertHelper_noted _ _ _ _ _ Hw). by rewrite /= orb_false_r.
Qed.

(** [fail] of an EXPECT or ASSERT macro, after [ps]. *)
Lemma fail_run (f : bool) at_ msg ps w0 w :
  reported ps w0 w →
  ∃ w', nothrow ((if f then GTEST_FATAL_FAILURE_ at_ else GTEST_NONFATAL_FAILURE_ at_) msg) w =
      (Done (snd (plus_failure f at_ msg ps)), w') ∧ reported (fst (plus_failure f at_ msg ps)) w0 w'.
Proof.
  intros Hps. destruct (reported_one (if f then kFatalFailure else kNonFatalFailure) at_ msg w) as (w' & Hw & Hone).
  exists w'. split; [|by apply (reported_app _ _ w0 w)]. unfold nothrow.
  destruct f; rewrite /GTEST_FATAL_FAILURE_ /GTEST_NONFATAL_FAILURE_ /do_ /GTEST_MESSAGE_ /GTEST_MESSAGE_AT_;
    by rewrite bind_assoc (bind_done _ _ _ _ _ Hw).
Qed.

(** [m] does what [d] says. *)
Definition does (m : cmd W ending) (d : list part * ending) : Prop :=
  ∀ w, ∃ w', m w = (Done (snd d), w') ∧ reported (fst d) w w'.

Lemma does_ret r : does (mret r) ([], r).
Proof. intros w. exists w. split; [done|apply reported_nothing]. Qed.

(** A command that goes on after [m] as its ending says. *)
Lemma does_bind (m : cmd W ending) d (k : ending → cmd W ending) d' :
  does m d →
  (∀ w0 w, reported (fst d) w0 w → ∃ w', k (snd d) w = (Done (snd d'), w') ∧ reported (fst d') w0 w') →
  does (m ≫= k) d'.
Proof.
  intros Hm Hk w. destruct (Hm w) as (w1 & Hw1 & Hr1). rewrite (bind_done _ _ _ _ _ Hw1). by apply Hk.
Qed.

(** The reports of [body] are those of [w0] to [w]; what follows adds to them. *)
Lemma does_nothing_more r ps w0 w :
  reported ps w0 w → ∃ w', (mret r : cmd W ending) w = (Done r, w') ∧ reported ps w0 w'.
Proof. intros Hr. by exists w. Qed.

Lemma assertion_does a : does (nothrow (assertion_statement a)) (meaning (Holds a)).
Proof.
  intros w. cbn [meaning]. unfold nothrow, assertion_statement, failing.
  destruct (success_ (result a)) eqn:Hok; cbn [negb].
  - exists w. rewrite bind_assoc bind_ret_l Hok. split; [done|apply reported_nothing].
  - destruct (reported_one (if fatal a then kFatalFailure else kNonFatalFailure) (at_site a)
      (failure_message (result a)) w) as (w' & Hw & Hone).
    exists w'. split; [|exact Hone]. rewrite bind_assoc bind_ret_l Hok.
    destruct (fatal a); rewrite /GTEST_FATAL_FAILURE_ /GTEST_NONFATAL_FAILURE_ /do_ /GTEST_MESSAGE_ /GTEST_MESSAGE_AT_;
      by rewrite bind_assoc (bind_done _ _ _ _ _ Hw).
Qed.

(** A helper around a body: at its end the helper has noted whether a fatal failure was
    reported, and it is gone. *)
Lemma no_fatal_failure_does (f : bool) at_ text body ps r :
  does body (ps, r) →
  does (GTEST_TEST_NO_FATAL_FAILURE_ body text (if f then GTEST_FATAL_FAILURE_ at_ else GTEST_NONFATAL_FAILURE_ at_))
    match r with
    | Went Next =>
        if existsb is_fatal ps
        then plus_failure f at_ ("Expected: " +:+ text +:+ " doesn't generate new fatal " +:+
                                 "failures in the current thread." +:+ newline +:+ "  Actual: it does.") ps
        else (ps, Went Next)
    | _ => (ps, r)
    end.
Proof.
  intros Hb w. destruct (new_helper_notes w) as (h & w1 & Hnew & Hn1 & Hp1 & Hr1).
  destruct (Hb w1) as (w2 & Hw2 & Hp2 & Hn2 & Hr2). simpl in Hw2, Hp2, Hn2.
  rewrite Hn1 in Hn2. cbn [fmap list_fmap] in Hn2. rewrite /= orb_false_r in Hn2.
  destruct (delete_helper_forgets _ _ _ _ Hn2) as (w3 & Hdel & Hn3 & Hp3 & Hr3).
  assert (reported ps w w3) as Hrep by (split_and!; congruence).
  unfold GTEST_TEST_NO_FATAL_FAILURE_. rewrite (bind_done _ _ _ _ _ Hnew) (bind_done _ _ _ _ _ Hw2).
  destruct r as [[]|e].
  - rewrite (bind_done _ _ _ _ _ (has_new_fatal_failure_noted _ _ _ _ Hn2)) (bind_done _ _ _ _ _ Hdel).
    destruct (existsb is_fatal ps); [by apply fail_run|by exists w3].
  - rewrite (bind_done _ _ _ _ _ Hdel). by exists w3.
  - rewrite (bind_done _ _ _ _ _ Hdel). by exists w3.
Qed.

(** The two macros of a kind differ in what [fail] is. *)
Ltac which_macro :=
  match goal with |- does ((if ?f then _ else _) ?at_ _ _ _ _) _ =>
    unfold ASSERT_THROW, EXPECT_THROW; destruct f
  | |- does ((if ?f then _ else _) ?at_ _ _) _ =>
    unfold ASSERT_NO_THROW, EXPECT_NO_THROW, ASSERT_ANY_THROW, EXPECT_ANY_THROW,
      ASSERT_NO_FATAL_FAILURE, EXPECT_NO_FATAL_FAILURE; destruct f
  end.

Lemma run_code_does c : does (run_code c) (meaning c).
Proof.
  induction c as [|a IHa b IHb| |e|body IH|a|f at_ text body IH expected expected_text|f at_ text body IH
                 |f at_ text body IH|f at_ text body IH]; cbn [run_code meaning]; try apply does_ret.
  - destruct (meaning a) as [ps r]. eapply (does_bind _ _ _ _ IHa). intros w0 w Hr. cbn [fst snd] in *.
    destruct r as [[]|e]; [|by apply does_nothing_more..].
    destruct (IHb w) as (w' & Hw' & Hr'). destruct (meaning b) as [qs r]. exists w'.
    split; [done|by apply (reported_app _ _ w0 w)].
  - destruct (meaning body) as [ps r]. eapply (does_bind _ _ _ _ IH). intros w0 w Hr.
    destruct r; by apply does_nothing_more.
  - apply assertion_does.
  - destruct (meaning body) as [ps r]. which_macro; eapply (does_bind _ _ _ _ IH); intros w0 w Hr; cbn [fst snd] in *;
      destruct r as [[]|e]; try destruct (catches expected e);
      first [by apply does_nothing_more|exact (fail_run true at_ _ ps w0 w Hr)|exact (fail_run false at_ _ ps w0 w Hr)].
  - destruct (meaning body) as [ps r]. which_macro; eapply (does_bind _ _ _ _ IH); intros w0 w Hr; cbn [fst snd] in *;
      destruct r as [[]|e]; first [by apply does_nothing_more|exact (fail_run true at_ _ ps w0 w Hr)|exact (fail_run false at_ _ ps w0 w Hr)].
  - destruct (meaning body) as [ps r]. which_macro; eapply (does_bind _ _ _ _ IH); intros w0 w Hr; cbn [fst snd] in *;
      destruct r as [[]|e]; first [by apply does_nothing_more|exact (fail_run true at_ _ ps w0 w Hr)|exact (fail_run false at_ _ ps w0 w Hr)].
  - destruct (meaning body) as [ps r].
    which_macro; [by apply (no_fatal_failure_does true)|by apply (no_fatal_failure_does false)].
Qed.
Lemma expected_no_throw c e : exceptions_expected c = true → snd (meaning c) ≠ Threw e.
Proof.
  induction c as [|a IHa b IHb| |e'|body IH|a|f at_ text body IH ex et|f at_ text body IH
                 |f at_ text body IH|f at_ text body IH]; cbn [exceptions_expected meaning]; intros Hc; try done.
  - apply andb_prop in Hc as [Ha Hb]. specialize (IHa Ha). specialize (IHb Hb).
    destruct (meaning a) as [ps [[]|]], (meaning b) as [qs r]; done.
  - specialize (IH Hc). by destruct (meaning body) as [ps []].
  - by destruct (failing a).
  - destruct (meaning body) as [ps [[]|e']]; try done. by destruct (catches ex e').
  - by destruct (meaning body) as [ps []].
  - by destruct (meaning body) as [ps [[]|]].
  - specialize (IH Hc). destruct (meaning body) as [ps [[]|]]; try done. by destruct (existsb is_fatal ps).
Qed.

(** C25. A test made of assertions, throws, returns, calls of functions and the assertions
    on exceptions and on fatal failures, nested in any way, tells the test of exactly the
    failures that its meaning lists, in order, and ends as its meaning says: a failure of
    an exception assertion follows what its statement reported; one on fatal failures
    fails exactly when a fatal failure was reported in its statement, however deep; a
    fatal failure and a return leave the innermost function. The helpers that lived
    before live on, each of them has noted these failures if one is fatal, and no other
    helper is left. No exception gets out when each is thrown inside an assertion on
    exceptions. *)
Theorem nested_assertions_report (c : code) w :
  ∃ w', run_code c w = (Done (snd (meaning c)), w') ∧
    run_parts w' = run_parts w ++ fst (meaning c) ∧
    noted w' = prod_map id (orb (existsb is_fatal (fst (meaning c)))) <$> noted w ∧
    run_program w' = run_program w ∧
    (exceptions_expected c = true → ∀ e, snd (meaning c) ≠ Threw e).
Proof.
  destruct (run_code_does c w) as (w' & Hw & Hp & Hn & Hr). exists w'. split_and!; [done..|].
  intros Hc e. by apply expected_no_throw.
Qed.
End meaning.

(** * A sample *)

(** A test run with a stack of helpers. *)
Record helped_run : Type := HelpedRun { the_parts : list part; the_helpers : list (nat * bool) }.

#[local] Instance helped_test_run : TestRun helped_run := λ t at_ msg w,
  (Done (), HelpedRun (the_parts w ++ [(t, at_, msg)])
              (prod_map id (orb (bool_decide (t = kFatalFailure))) <$> the_helpers w)).
#[local] Instance helped_helpers : FatalFailureHelpers helped_run := {|
  helper := nat;
  new_helper w := let h := length (the_helpers w) in (Done h, HelpedRun (the_parts w) ((h, false) :: the_helpers w));
  delete_helper h w :=
    match the_helpers w with
    | (_, _) :: rest => (Done (), HelpedRun (the_parts w) rest)
    | [] => (Undefined Dangling, w)
    end;
  has_new_fatal_failure h w :=
    match the_helpers w with (_, b) :: _ => (Done b, w) | [] => (Undefined Dangling, w) end;
|}.
#[local, refine] Instance helped_laws : TestRunLaws helped_run unit :=
  { run_parts := the_parts; run_program _ := () }.
Proof. intros t at_ msg w. by eexists. Defined.
#[local, refine] Instance helped_helper_laws : HelperLaws helped_run unit :=
  { noted := the_helpers }.
Proof.
  - intros t at_ msg w w' [= <-]. done.
  - intros w. by eexists _, _.
  - intros h b [ps hs] rest Hw. simpl in *. by rewrite Hw.
  - intros h b [ps hs] rest Hw. simpl in *. rewrite Hw. by eexists.
Defined.
#[local] Instance int_exceptions : Exceptions := {| exception := Z; exception_type := bool; catches t e := t |}.

(** EXPECT_NO_FATAL_FAILURE(f()), where f throws 1 inside an EXPECT_THROW, fails an
    ASSERT_TRUE and does not get to its throw. *)
Definition nested_test : code :=
  NoFatalFailure false (Site "t.cc" 9 EmptyString) "f()"
    (Call (Seq (Throws false (Site "t.cc" 3 EmptyString) "g()" (Call (Raise 1)) true "int")
          (Seq (Holds (Assertion true (new_AssertionResult false) (Site "t.cc" 4 EmptyString))) (Raise 2)))).

Lemma nested_assertions_report_witness :
  ∃ w', run_code nested_test (HelpedRun [] []) = (Done (Went Next), w') ∧
    map (λ p, (p.1.1, site_line p.1.2)) (the_parts w') = [(kFatalFailure, 4); (kNonFatalFailure, 9)] ∧
    the_helpers w' = [].
Proof.
  destruct (nested_assertions_report nested_test (HelpedRun [] [])) as (w' & Hw & Hp & Hn & _).
  exists w'. split; [exact Hw|]. cbn [the_parts run_parts helped_laws] in Hp. split; [by rewrite Hp|exact Hn].
Defined.
