(* ===== verification/Interception.v ===== *)
(** Tests of assertions: EXPECT_FATAL_FAILURE, EXPECT_NONFATAL_FAILURE and their variants
    for all threads of src/gtest/include/gtest/gtest-spi.h, with TestPartResult of
    gtest-test-part.h.

    The classes ScopedFakeTestPartResultReporter, SingleFailureChecker and
    TestPartResultArray, whose members the headers only declare, are an interface
    (FailureInterception); what the headers' comments say of them, and what the bundled
    libgtest.a does with the two modes, is InterceptionLaws. *)

From S2P Require Import Prelude Tuples Printers Assertions ThrowAssertions.
#[local] Open Scope Z_scope.

(** * TestPartResult *)

Record TestPartResult : Type := MkTestPartResult {
  type_ : TestPartResult_Type;
  file_name_ : string;
  line_number_ : Z;
  summary_ : string;
  message_ : string;
}.

Section results.
(** ExtractSummary is only declared. *)
Variable ExtractSummary : string → string.

Definition new_TestPartResult (a_type : TestPartResult_Type) (a_file_name : option string) (a_line_number : Z)
    (a_message : string) : TestPartResult :=
  MkTestPartResult a_type (match a_file_name with None => EmptyString | Some f => f end) a_line_number
    (ExtractSummary a_message) a_message.
End results.

Section methods.
Implicit Types (r : TestPartResult).

(** NULL is None. *)
Definition file_name r : option string :=
  if decide (file_name_ r = EmptyString) then None else Some (file_name_ r).
Definition line_number r : Z := line_number_ r.
Definition summary r : string := summary_ r.
Definition message r : string := message_ r.
Definition type r : TestPartResult_Type := type_ r.
Definition passed r : bool := bool_decide (type_ r = kSuccess).
Definition failed r : bool := bool_decide (type_ r ≠ kSuccess).
Definition nonfatally_failed r : bool := bool_decide (type_ r = kNonFatalFailure).
Definition fatally_failed r : bool := bool_decide (type_ r = kFatalFailure).

(** A result passed or failed in exactly one of two ways. *)
Lemma failed_ways r : failed r = negb (passed r) ∧ failed r = nonfatally_failed r || fatally_failed r ∧
  nonfatally_failed r && fatally_failed r = false.
Proof. by destruct r as [[]]. Qed.

(** The file name comes back, and an empty one comes back as NULL, as does NULL. *)
Lemma file_name_kept ex t f n m :
  file_name (new_TestPartResult ex t f n m) = (s ← f; if decide (s = EmptyString) then None else Some s).
Proof. destruct f as [s|]; by rewrite /file_name /=. Qed.
End methods.

(** * The interface *)

Inductive InterceptMode : Set := INTERCEPT_ONLY_CURRENT_THREAD | INTERCEPT_ALL_THREADS.

Class FailureInterception (W : Type) : Type := {
  TestPartResultArray : Type;
  new_TestPartResultArray : cmd W TestPartResultArray;
  delete_TestPartResultArray : TestPartResultArray → cmd W unit;
  SingleFailureChecker : Type;
  new_SingleFailureChecker : TestPartResultArray → TestPartResult_Type → string → cmd W SingleFailureChecker;
  delete_SingleFailureChecker : SingleFailureChecker → cmd W unit;
  ScopedFakeTestPartResultReporter : Type;
  new_ScopedFakeTestPartResultReporter :
    InterceptMode → TestPartResultArray → cmd W ScopedFakeTestPartResultReporter;
  delete_ScopedFakeTestPartResultReporter : ScopedFakeTestPartResultReporter → cmd W unit;
}.
#[global] Hint Mode FailureInterception + : typeclass_instances.

(** * The macros *)

Section macros.
Context {W : Type} `{!Exceptions, !FailureInterception W}.
Notation throwing := (cmd W ending).

(** The body of the loop that all the macros are: the objects are destroyed in the reverse
    order of their construction however the statement ends. *)
Definition expect_failure (mode : InterceptMode) (t : TestPartResult_Type) (body : throwing) (substr : string) :
    throwing :=
  gtest_failures ← new_TestPartResultArray;
  gtest_checker ← new_SingleFailureChecker gtest_failures t substr;
  gtest_reporter ← new_ScopedFakeTestPartResultReporter mode gtest_failures;
  r ← body;
  delete_ScopedFakeTestPartResultReporter gtest_reporter;;
  delete_SingleFailureChecker gtest_checker;;
  delete_TestPartResultArray gtest_failures;;
  mret r.

(** GTestExpectFatalFailureHelper::Execute() is a function with the statement as its body. *)
Definition EXPECT_FATAL_FAILURE (body : throwing) (substr : string) : throwing :=
  expect_failure INTERCEPT_ONLY_CURRENT_THREAD kFatalFailure (call body) substr.
Definition EXPECT_FATAL_FAILURE_ON_ALL_THREADS (body : throwing) (substr : string) : throwing :=
  expect_failure INTERCEPT_ALL_THREADS kFatalFailure (call body) substr.
Definition EXPECT_NONFATAL_FAILURE (body : throwing) (substr : string) : throwing :=
  expect_failure INTERCEPT_ONLY_CURRENT_THREAD kNonFatalFailure body substr.
Definition EXPECT_NONFATAL_FAILURE_ON_ALL_THREADS (body : throwing) (substr : string) : throwing :=
  expect_failure INTERCEPT_ALL_THREADS kNonFatalFailure body substr.
End macros.

(** * Tests of assertions *)

(** Test code, code after code, function calls, and the macros around any of it, as well as
    EXPECT_NO_FATAL_FAILURE and ASSERT_NO_FATAL_FAILURE. *)
Inductive spi_code `{!Exceptions} : Type :=
  | Plain (c : code)
  | Then (a b : spi_code)
  | InFunction (a : spi_code)
  | ExpectFatal (all_threads : bool) (a : spi_code) (substr : string)
  | ExpectNonFatal (all_threads : bool) (a : spi_code) (substr : string)
  | ExpectNoFatal (fatal : bool) (at_ : site) (text : string) (a : spi_code).

Section run.
Context {W : Type} `{!Exceptions, !TestRun W, !gtest_library, !FatalFailureHelpers W, !FailureInterception W}.

Fixpoint run_spi (s : spi_code) : cmd W ending :=
  match s with
  | Plain c => run_code c
  | Then a b => then_ (run_spi a) (run_spi b)
  | InFunction a => call (run_spi a)
  | ExpectFatal all a substr =>
      (if all then EXPECT_FATAL_FAILURE_ON_ALL_THREADS else EXPECT_FATAL_FAILURE) (run_spi a) substr
  | ExpectNonFatal all a substr =>
      (if all then EXPECT_NONFATAL_FAILURE_ON_ALL_THREADS else EXPECT_NONFATAL_FAILURE) (run_spi a) substr
  | ExpectNoFatal fatal at_ text a =>
      (if fatal then ASSERT_NO_FATAL_FAILURE else EXPECT_NO_FATAL_FAILURE) at_ (run_spi a) text
  end.
End run.

(** ** What they mean *)

Definition contains (substr s : string) : bool := bool_decide (is_Some (String.index 0 substr s)).

Section meaning.
Context `{!Exceptions, !gtest_library}.

(** What the library makes of what AssertHelper is given: the message of the result (with
    the user's message and the stack), and the failure a checker reports. *)
Variable recorded : part → string.
Variable complaint : TestPartResult_Type → string → list part → site * string.
Variable ExtractSummary : string → string.

(** The result that is recorded for a report. *)
Definition result_of (p : part) : TestPartResult :=
  new_TestPartResult ExtractSummary p.1.1 (Some (site_file p.1.2)) (site_line p.1.2) (recorded p).

(** Exactly one result, of the type and with the text. *)
Definition single_failure (t : TestPartResult_Type) (substr : string) (ps : list part) : bool :=
  match ps with
  | [p] => bool_decide (type (result_of p) = t) && contains substr (message (result_of p))
  | _ => false
  end.

(** What the checker reports. *)
Definition verdict (t : TestPartResult_Type) (substr : string) (ps : list part) : list part :=
  if single_failure t substr ps then [] else [(kNonFatalFailure, (complaint t substr ps).1, (complaint t substr ps).2)].

Definition leave_call (e : ending) : ending := match e with Went _ => Went Next | Threw e => Threw e end.

(** What a macro makes of what its statement reported: what is reported outside, and whether
    the helpers outside note a fatal failure. [caught] says that a reporter for the current
    thread is in place outside. The reporter of a macro for the current thread takes everything;
    that of a macro for all threads is asked last, after the helpers and only if no reporter for
    the current thread takes the results before. *)
Definition intercepted (all caught : bool) (t : TestPartResult_Type) (substr : string) (ps : list part)
    (noticed : bool) : list part * bool :=
  if all then
    (if caught then ps ++ verdict t substr [] else verdict t substr ps, noticed)
  else (verdict t substr ps, false).

(** What is reported outside, whether helpers there note a fatal failure, and how it ends. *)
Fixpoint spi_meaning (caught : bool) (s : spi_code) : list part * bool * ending :=
  match s with
  | Plain c => let '(ps, e) := meaning c in (ps, existsb is_fatal ps, e)
  | Then a b =>
      let '(ps, f, e) := spi_meaning caught a in
      match e with
      | Went Next => let '(qs, g, e) := spi_meaning caught b in (ps ++ qs, f || g, e)
      | _ => (ps, f, e)
      end
  | InFunction a => let '(ps, f, e) := spi_meaning caught a in (ps, f, leave_call e)
  | ExpectFatal all a substr =>
      let '(ps, f, e) := spi_meaning (if all then caught else true) a in
      (intercepted all caught kFatalFailure substr ps f, leave_call e)
  | ExpectNonFatal all a substr =>
      let '(ps, f, e) := spi_meaning (if all then caught else true) a in
      (intercepted all caught kNonFatalFailure substr ps f, e)
  | ExpectNoFatal fatal at_ text a =>
      let '(ps, f, e) := spi_meaning caught a in
      match e, f with
      | Went Next, true =>
          let '(qs, e) := plus_failure fatal at_ ("Expected: " +:+ text +:+ " doesn't generate new fatal " +:+
                            "failures in the current thread." +:+ newline +:+ "  Actual: it does.") ps in
          (qs, true, e)
      | _, _ => (ps, f, e)
      end
  end.
End meaning.

(** * What the library promises *)

(** The objects of the macros that live, the innermost first: an array with its results, a
    checker with its arguments, a reporter for the current thread with its array and what it has put
    aside, the results of the reporter before it and the helpers that live there, and a reporter for
    all threads with its array and, unless a reporter for the current thread comes before it, the
    results of the one it replaces. *)
Inductive scope (W : Type) `{!FatalFailureHelpers W, !FailureInterception W} : Type :=
  | ArrayScope (a : TestPartResultArray (W:=W)) (ps : list part)
  | CheckerScope (c : SingleFailureChecker (W:=W)) (a : TestPartResultArray (W:=W)) (t : TestPartResult_Type) (substr : string)
  | CurrentReporterScope (r : ScopedFakeTestPartResultReporter (W:=W)) (a : TestPartResultArray (W:=W))
      (ps : list part) (helpers : list (helper (W:=W) * bool))
  | GlobalReporterScope (r : ScopedFakeTestPartResultReporter (W:=W)) (a : TestPartResultArray (W:=W))
      (replaced : option (list part)).
Arguments ArrayScope {W _ _} _ _.
Arguments CheckerScope {W _ _} _ _ _ _.
Arguments CurrentReporterScope {W _ _} _ _ _ _.
Arguments GlobalReporterScope {W _ _} _ _ _.

(** A reporter for the current thread is in place. *)
Definition is_caught {W : Type} `{!FatalFailureHelpers W, !FailureInterception W} (scopes : list (scope W)) : bool :=
  existsb (λ o, if o is CurrentReporterScope _ _ _ _ then true else false) scopes.

(** A thread's reports go to its reporter: the helpers and the reporters for the current thread
    that were made there, the last first; a helper passes them on, a reporter appends them to its
    array. What gets through goes to the reporter of all threads, which a reporter for all
    threads replaces. The d'tor restores the previous reporter. The
    d'tor of a checker verifies that its array contains exactly one failure that has the
    given type and contains the given substring; if that is not the case, a non-fatal
    failure is generated. Reports are made and objects destroyed by the thread that made
    the objects. *)
Class InterceptionLaws (W : Type) `{!gtest_library, !TestRun W, !FatalFailureHelpers W, !FailureInterception W,
    !TestRunLaws W (list (scope W)), !HelperLaws W (list (scope W))} : Type := {
  recorded : part → string;
  complaint : TestPartResult_Type → string → list part → site * string;
  ExtractSummary : string → string;
  new_array_pushes (w : W) : ∃ a w', new_TestPartResultArray w = (Done a, w') ∧
    run_parts w' = run_parts w ∧ noted w' = noted w ∧ run_program w' = ArrayScope a [] :: run_program w;
  new_checker_pushes a t substr (w : W) : ∃ c w', new_SingleFailureChecker a t substr w = (Done c, w') ∧
    run_parts w' = run_parts w ∧ noted w' = noted w ∧ run_program w' = CheckerScope c a t substr :: run_program w;
  new_current_pushes a c t substr rest (w : W) :
    run_program w = CheckerScope c a t substr :: ArrayScope a [] :: rest →
    ∃ r w', new_ScopedFakeTestPartResultReporter INTERCEPT_ONLY_CURRENT_THREAD a w = (Done r, w') ∧
      run_parts w' = [] ∧ noted w' = [] ∧
      run_program w' = CurrentReporterScope r a (run_parts w) (noted w) :: run_program w;
  new_global_pushes a c t substr rest (w : W) :
    run_program w = CheckerScope c a t substr :: ArrayScope a [] :: rest →
    ∃ r w', new_ScopedFakeTestPartResultReporter INTERCEPT_ALL_THREADS a w = (Done r, w') ∧
      run_parts w' = (if is_caught (run_program w) then run_parts w else []) ∧ noted w' = noted w ∧
      run_program w' =
        GlobalReporterScope r a (if is_caught (run_program w) then None else Some (run_parts w)) :: run_program w;
  delete_current_restores r a ps hs c t substr rest (w : W) :
    run_program w = CurrentReporterScope r a ps hs :: CheckerScope c a t substr :: ArrayScope a [] :: rest →
    ∃ w', delete_ScopedFakeTestPartResultReporter r w = (Done (), w') ∧
      run_parts w' = ps ∧ noted w' = hs ∧
      run_program w' = CheckerScope c a t substr :: ArrayScope a (run_parts w) :: rest;
  delete_global_restores r a replaced c t substr rest (w : W) :
    run_program w = GlobalReporterScope r a replaced :: CheckerScope c a t substr :: ArrayScope a [] :: rest →
    ∃ w', delete_ScopedFakeTestPartResultReporter r w = (Done (), w') ∧
      run_parts w' = default (run_parts w) replaced ∧ noted w' = noted w ∧
      run_program w' =
        CheckerScope c a t substr :: ArrayScope a (if replaced is Some _ then run_parts w else []) :: rest;
  delete_checker_checks c a t substr ps rest (w : W) :
    run_program w = CheckerScope c a t substr :: ArrayScope a ps :: rest →
    Forall (λ p, p.1.1 ≠ kSuccess) ps →
    ∃ w', delete_SingleFailureChecker c w = (Done (), w') ∧
      run_parts w' = run_parts w ++ verdict recorded complaint ExtractSummary t substr ps ∧
      noted w' = noted w ∧ run_program w' = ArrayScope a ps :: rest;
  delete_array_pops a ps rest (w : W) :
    run_program w = ArrayScope a ps :: rest →
    ∃ w', delete_TestPartResultArray a w = (Done (), w') ∧
      run_parts w' = run_parts w ∧ noted w' = noted w ∧ run_program w' = rest;
}.
#[global] Hint Mode InterceptionLaws + - - - - - - : typeclass_instances.

Section laws.
Context {W : Type} `{!Exceptions, !gtest_library, !TestRun W, !FatalFailureHelpers W, !FailureInterception W}.
Context `{!TestRunLaws W (list (scope W)), !HelperLaws W (list (scope W)), !InterceptionLaws W}.
Implicit Types (w : W) (ps qs : list part).
Notation throwing := (cmd W ending).
Notation means := (spi_meaning (recorded (W:=W)) (complaint (W:=W)) (ExtractSummary (W:=W))).
Notation outside := (intercepted (recorded (W:=W)) (complaint (W:=W)) (ExtractSummary (W:=W))).
Notation judged := (verdict (recorded (W:=W)) (complaint (W:=W)) (ExtractSummary (W:=W))).

(** Only failures are reported. *)
Notation failures := (Forall (λ p : part, p.1.1 ≠ kSuccess)).

Lemma verdict_failures t substr ps : failures (judged t substr ps).
Proof. unfold verdict. destruct (single_failure _ _ _ _ _); by repeat constructor. Qed.

Lemma plus_failure_failures f at_ msg ps : failures ps → failures (plus_failure f at_ msg ps).1.
Proof. intros Hps. apply Forall_app. split; [done|]. destruct f; by repeat constructor. Qed.

Lemma meaning_failures c : failures (meaning c).1.
Proof.
  induction c as [|a IHa b IHb| |e|body IH|a|f at_ text body IH ex et|f at_ text body IH
                 |f at_ text body IH|f at_ text body IH]; cbn [meaning]; try (by constructor).
  - destruct (meaning a) as [ps [[]|]], (meaning b) as [qs r]; try done. by apply Forall_app.
  - by destruct (meaning body) as [ps []].
  - destruct (failing a); [|by constructor]. cbn. unfold assertion_part. destruct (fatal a); by repeat constructor.
  - destruct (meaning body) as [ps [[]|e]]; try destruct (catches ex e); try done; by apply plus_failure_failures.
  - destruct (meaning body) as [ps []]; try done; by apply plus_failure_failures.
  - destruct (meaning body) as [ps [[]|]]; try done; by apply plus_failure_failures.
  - destruct (meaning body) as [ps [[]|]]; try destruct (existsb is_fatal ps); try done; by apply plus_failure_failures.
Qed.

Lemma intercepted_failures all caught t substr ps f : failures ps → failures (outside all caught t substr ps f).1.
Proof.
  intros Hps. unfold intercepted. destruct all, caught; cbn [fst]; try apply verdict_failures.
  apply Forall_app. split; [done|apply verdict_failures].
Qed.

Lemma spi_meaning_failures s caught : failures (means caught s).1.1.
Proof.
  revert caught.
  induction s as [c|a IHa b IHb|a IH|all a IH substr|all a IH substr|fatal at_ text a IH]; intros caught; cbn [spi_meaning].
  - pose proof (meaning_failures c). by destruct (meaning c).
  - specialize (IHa caught). specialize (IHb caught).
    destruct (means caught a) as [[ps f] [[]|]], (means caught b) as [[qs g] r]; try done. by apply Forall_app.
  - specialize (IH caught). by destruct (means caught a) as [[] ].
  - specialize (IH (if all then caught else true)). destruct (means _ a) as [[ps f] e]. by apply intercepted_failures.
  - specialize (IH (if all then caught else true)). destruct (means _ a) as [[ps f] e]. by apply intercepted_failures.
  - specialize (IH caught). destruct (means caught a) as [[ps []] [[]|]]; try done.
    by apply plus_failure_failures.
Qed.

(** From [w] to [w'] exactly the results [ps] were reported, the helpers have noted a fatal failure
    if [f], and the objects are the same. *)
Definition told ps (f : bool) w w' : Prop :=
  run_parts w' = run_parts w ++ ps ∧ noted w' = prod_map id (orb f) <$> noted w ∧ run_program w' = run_program w.

Lemma told_nothing w : told [] false w w.
Proof. exact (reported_nothing w). Qed.

Lemma told_app ps qs f g w1 w2 w3 : told ps f w1 w2 → told qs g w2 w3 → told (ps ++ qs) (f || g) w1 w3.
Proof.
  intros (Hp1 & Hn1 & Hr1) (Hp2 & Hn2 & Hr2). split_and!; [by rewrite Hp2 Hp1 app_assoc| |by rewrite Hr2].
  rewrite Hn2 Hn1 -list_fmap_compose. apply list_fmap_ext. intros ? [h b] ?.
  by rewrite /compose /= orb_assoc (orb_comm g).
Qed.

(** What [body] does where the reporters are [caught]. *)
Definition tells (caught : bool) (body : throwing) (d : list part * bool * ending) : Prop :=
  ∀ w, is_caught (run_program w) = caught → ∃ w', body w = (Done d.2, w') ∧ told d.1.1 d.1.2 w w'.

Lemma told_caught ps f w w' : told ps f w w' → is_caught (run_program w') = is_caught (run_program w).
Proof. by intros (_ & _ & ->). Qed.

Lemma call_tells caught (body : throwing) ps f e :
  tells caught body (ps, f, e) → tells caught (call body) (ps, f, leave_call e).
Proof.
  intros Hb w Hw. destruct (Hb w Hw) as (w' & Hw' & Ht). exists w'. split; [|done].
  unfold call. rewrite (bind_done _ _ _ _ _ Hw'). by destruct e.
Qed.

(** The array and the checker of a macro are made around the reporter, which takes what the
    statement reports, or leaves it to another. *)
Lemma expect_failure_tells (all caught : bool) t (body : throwing) substr ps f e :
  tells (if all then caught else true) body (ps, f, e) → failures ps →
  tells caught (expect_failure (if all then INTERCEPT_ALL_THREADS else INTERCEPT_ONLY_CURRENT_THREAD) t body substr)
    (outside all caught t substr ps f, e).
Proof.
  intros Hb Hps w Hw. unfold expect_failure.
  destruct (new_array_pushes w) as (a & w1 & Ha & Hp1 & Hn1 & Hs1). rewrite (bind_done _ _ _ _ _ Ha).
  destruct (new_checker_pushes a t substr w1) as (c & w2 & Hc & Hp2 & Hn2 & Hs2). rewrite (bind_done _ _ _ _ _ Hc).
  rewrite Hs1 in Hs2.
  assert (is_caught (run_program w2) = caught) as Hcaught by by rewrite Hs2.
  assert (∃ r w3 w4 w5 qs, new_ScopedFakeTestPartResultReporter
      (if all then INTERCEPT_ALL_THREADS else INTERCEPT_ONLY_CURRENT_THREAD) a w2 = (Done r, w3) ∧
    body w3 = (Done e, w4) ∧ delete_ScopedFakeTestPartResultReporter r w4 = (Done (), w5) ∧
    run_parts w5 ++ judged t substr qs = run_parts w ++ (outside all caught t substr ps f).1 ∧
    noted w5 = prod_map id (orb (outside all caught t substr ps f).2) <$> noted w ∧ failures qs ∧
    run_program w5 = CheckerScope c a t substr :: ArrayScope a qs :: run_program w)
    as (r & w3 & w4 & w5 & qs & Hr & Hw4 & Hd5 & Hp5 & Hn5 & Hqs & Hs5).
  { destruct all; cbn [intercepted fst snd].
    - destruct (new_global_pushes _ _ _ _ _ _ Hs2) as (r & w3 & Hr & Hp3 & Hn3 & Hs3).
      rewrite Hcaught Hs2 in Hs3. rewrite Hcaught in Hp3.
      destruct (Hb w3) as (w4 & Hw4 & Hp4 & Hn4 & Hs4); [by rewrite Hs3 -Hs2|].
      rewrite Hs3 in Hs4. destruct (delete_global_restores _ _ _ _ _ _ _ _ Hs4) as (w5 & Hd5 & Hp5 & Hn5 & Hs5).
      exists r, w3, w4, w5. rewrite Hn5 Hn4 Hn3 Hn2 Hn1. cbn [fst snd] in *.
      destruct caught; cbn [default] in *; [exists []|exists ps]; split_and!; try done.
      + by rewrite Hp5 /= Hp4 Hp3 Hp2 Hp1 app_assoc.
      + by rewrite Hp5 /= Hp2 Hp1.
      + rewrite Hs5. by rewrite Hp4 Hp3.
    - destruct (new_current_pushes _ _ _ _ _ _ Hs2) as (r & w3 & Hr & Hp3 & Hn3 & Hs3). rewrite Hs2 in Hs3.
      destruct (Hb w3) as (w4 & Hw4 & Hp4 & _ & Hs4); [by rewrite Hs3|].
      rewrite Hs3 in Hs4. destruct (delete_current_restores _ _ _ _ _ _ _ _ _ Hs4) as (w5 & Hd5 & Hp5 & Hn5 & Hs5).
      exists r, w3, w4, w5, ps. rewrite Hp4 Hp3 in Hs5.
      split_and!; [done..|by rewrite Hp5 Hp2 Hp1| |done|done]. rewrite Hn5 Hn2 Hn1. by rewrite map_orb_id. }
  rewrite (bind_done _ _ _ _ _ Hr) (bind_done _ _ _ _ _ Hw4) (bind_done _ _ _ _ _ Hd5).
  destruct (delete_checker_checks _ _ _ _ _ _ _ Hs5 Hqs) as (w6 & Hd6 & Hp6 & Hn6 & Hs6).
  rewrite (bind_done _ _ _ _ _ Hd6).
  destruct (delete_array_pops _ _ _ _ Hs6) as (w7 & Hd7 & Hp7 & Hn7 & Hs7).
  rewrite (bind_done _ _ _ _ _ Hd7). exists w7. split; [done|]. cbn [fst snd]. split_and!; congruence.
Qed.

(** The helper of EXPECT_NO_FATAL_FAILURE around any of it. *)
Lemma no_fatal_tells (caught fatal : bool) at_ text (body : throwing) ps f e :
  tells caught body (ps, f, e) →
  tells caught ((if fatal then ASSERT_NO_FATAL_FAILURE else EXPECT_NO_FATAL_FAILURE) at_ body text)
    match e, f with
    | Went Next, true =>
        let '(qs, e) := plus_failure fatal at_ ("Expected: " +:+ text +:+ " doesn't generate new fatal " +:+
                          "failures in the current thread." +:+ newline +:+ "  Actual: it does.") ps in
        (qs, true, e)
    | _, _ => (ps, f, e)
    end.
Proof.
  intros Hb w Hw. destruct (new_helper_notes w) as (h & w1 & Hnew & Hn1 & Hp1 & Hr1).
  destruct (Hb w1) as (w2 & Hw2 & Hp2 & Hn2 & Hr2); [by rewrite Hr1|]. cbn [fst snd] in *.
  rewrite Hn1 in Hn2. cbn [fmap list_fmap] in Hn2. rewrite /= orb_false_r in Hn2.
  destruct (delete_helper_forgets _ _ _ _ Hn2) as (w3 & Hdel & Hn3 & Hp3 & Hr3).
  assert (told ps f w w3) as Htold by (split_and!; congruence).
  assert (((if fatal then ASSERT_NO_FATAL_FAILURE else EXPECT_NO_FATAL_FAILURE) at_ body text) =
    GTEST_TEST_NO_FATAL_FAILURE_ body text (if fatal then GTEST_FATAL_FAILURE_ at_ else GTEST_NONFATAL_FAILURE_ at_)) as ->
    by by destruct fatal.
  unfold GTEST_TEST_NO_FATAL_FAILURE_. rewrite (bind_done _ _ _ _ _ Hnew) (bind_done _ _ _ _ _ Hw2).
  destruct e as [[]|e].
  - rewrite (bind_done _ _ _ _ _ (has_new_fatal_failure_noted _ _ _ _ Hn2)) (bind_done _ _ _ _ _ Hdel).
    destruct f; [|by exists w3].
    destruct (fail_run fatal at_ ("Expected: " +:+ text +:+ " doesn't generate new fatal " +:+
      "failures in the current thread." +:+ newline +:+ "  Actual: it does.") [] w3 w3 (reported_nothing w3))
      as (w4 & Hw4 & Hrep). exists w4. split; [exact Hw4|].
    exact (told_app _ _ _ _ _ _ _ Htold Hrep).
  - rewrite (bind_done _ _ _ _ _ Hdel). by exists w3.
  - rewrite (bind_done _ _ _ _ _ Hdel). by exists w3.
Qed.

Lemma run_spi_tells s caught : tells caught (run_spi (W:=W) s) (means caught s).
Proof.
  revert caught.
  induction s as [c|a IHa b IHb|a IH|all a IH substr|all a IH substr|fatal at_ text a IH]; intros caught;
    cbn [run_spi spi_meaning].
  - intros w _. destruct (run_code_does c w) as (w' & Hw' & Hr). exists w'. by destruct (meaning c).
  - intros w Hw. destruct (IHa caught w Hw) as (w1 & Hw1 & Ht1). destruct (means caught a) as [[ps f] e].
    cbn [fst snd] in *. unfold then_. rewrite (bind_done _ _ _ _ _ Hw1). destruct e as [[]|e]; [|by exists w1..].
    destruct (IHb caught w1) as (w2 & Hw2 & Ht2); [by rewrite (told_caught _ _ _ _ Ht1)|].
    destruct (means caught b) as [[qs g] e]. exists w2. split; [done|by eapply told_app].
  - specialize (IH caught). destruct (means caught a) as [[ps f] e]. by apply call_tells.
  - pose proof (spi_meaning_failures a (if all then caught else true)) as Hf.
    specialize (IH (if all then caught else true)). destruct (means _ a) as [[ps f] e].
    apply (call_tells _ _ _ _ _) in IH.
    pose proof (expect_failure_tells all caught kFatalFailure _ substr _ _ _ IH Hf) as Hm. by destruct all.
  - pose proof (spi_meaning_failures a (if all then caught else true)) as Hf.
    specialize (IH (if all then caught else true)). destruct (means _ a) as [[ps f] e].
    pose proof (expect_failure_tells all caught kNonFatalFailure _ substr _ _ _ IH Hf) as Hm. by destruct all.
  - specialize (IH caught). destruct (means caught a) as [[ps f] e]. exact (no_fatal_tells _ _ _ _ _ _ _ _ IH).
Qed.

(** C26. EXPECT_FATAL_FAILURE, EXPECT_NONFATAL_FAILURE and their variants for all threads around
    test code, nested in any way among themselves and with the assertions on fatal failures, report
    what a reading of the code without reporters says. Of what the statement of a macro for
    the current thread reports, nothing gets out, not even to the helpers of
    EXPECT_NO_FATAL_FAILURE around it; if it is exactly one failure of the type and with the text
    expected, nothing is reported, and otherwise one non-fatal failure is, however the
    statement ends. A macro for all threads does the same, but the helpers around it do notice the
    fatal failures it expects, and inside a macro for the current thread it intercepts nothing: the
    results go out, and it complains that there were none. A return and a fatal failure leave
    no more than the function Execute of the fatal macros, and an exception passes through both
    kinds. Afterwards the reporters are those before, and the objects of the macros are gone. *)
Theorem expected_failures_intercepted (s : spi_code) w :
  let '(ps, f, e) := means (is_caught (run_program w)) s in
  ∃ w', run_spi s w = (Done e, w') ∧
    run_parts w' = run_parts w ++ ps ∧
    noted w' = prod_map id (orb f) <$> noted w ∧
    run_program w' = run_program w ∧
    Forall (λ p, failed (result_of (recorded (W:=W)) (ExtractSummary (W:=W)) p) = true) ps.
Proof.
  pose proof (spi_meaning_failures s (is_caught (run_program w))) as Hf.
  destruct (run_spi_tells s _ w eq_refl) as (w' & Hw & Hp & Hn & Hr).
  destruct (means _ s) as [[ps f] e]. exists w'. split_and!; [done..|].
  apply (Forall_impl _ _ _ Hf). intros p Hp'. by apply bool_decide_eq_true.
Qed.
End laws.

(** * A sample *)

(** The objects that live, and a test run with them: the results of the reporter that gets them
    and the helpers that notice them. *)
Inductive live : Type :=
  | LiveArray (a : nat) (ps : list part)
  | LiveChecker (c a : nat) (t : TestPartResult_Type) (substr : string)
  | LiveCurrent (r a : nat) (ps : list part) (hs : list (nat * bool))
  | LiveGlobal (r a : nat) (replaced : option (list part)).
Record spied_run : Type := SpiedRun {
  its_parts : list part; its_helpers : list (nat * bool); its_objects : list live;
}.

#[local] Instance sample_library : gtest_library := {|
  GetString s := s;
  AssertionSuccess := MkAssertionResult true None;
  AssertionFailure := MkAssertionResult false None;
  operator_not r := MkAssertionResult (negb (success_ r)) None;
  EqFailure _ _ _ _ _ := MkAssertionResult false (Some "not equal");
  GetBoolAssertionFailureMessage _ text actual expected := text;
|}.
#[local] Instance spied_test_run : TestRun spied_run := λ t at_ msg w,
  (Done (), SpiedRun (its_parts w ++ [(t, at_, msg)])
              (prod_map id (orb (bool_decide (t = kFatalFailure))) <$> its_helpers w) (its_objects w)).
#[local] Instance spied_helpers : FatalFailureHelpers spied_run := {|
  helper := nat;
  new_helper w :=
    let h := length (its_helpers w) in
    (Done h, SpiedRun (its_parts w) ((h, false) :: its_helpers w) (its_objects w));
  delete_helper h w :=
    match its_helpers w with
    | _ :: rest => (Done (), SpiedRun (its_parts w) rest (its_objects w))
    | [] => (Undefined Dangling, w)
    end;
  has_new_fatal_failure h w :=
    match its_helpers w with (_, b) :: _ => (Done b, w) | [] => (Undefined Dangling, w) end;
|}.

Definition sample_complaint (t : TestPartResult_Type) (substr : string) (ps : list part) : site * string :=
  (Site "gtest.cc" 0 EmptyString, "Expected: 1 failure containing " +:+ substr).
Definition sample_verdict := verdict snd sample_complaint id.

Definition live_caught (os : list live) : bool :=
  existsb (λ o, if o is LiveCurrent _ _ _ _ then true else false) os.

#[local] Instance spied_interception : FailureInterception spied_run := {|
  TestPartResultArray := nat;
  new_TestPartResultArray w :=
    let a := length (its_objects w) in
    (Done a, SpiedRun (its_parts w) (its_helpers w) (LiveArray a [] :: its_objects w));
  delete_TestPartResultArray a w :=
    (Done (), SpiedRun (its_parts w) (its_helpers w) (tail (its_objects w)));
  SingleFailureChecker := nat;
  new_SingleFailureChecker a t substr w :=
    let c := length (its_objects w) in
    (Done c, SpiedRun (its_parts w) (its_helpers w) (LiveChecker c a t substr :: its_objects w));
  delete_SingleFailureChecker c w :=
    match its_objects w with
    | LiveChecker _ _ t substr :: LiveArray a ps :: rest =>
        (Done (), SpiedRun (its_parts w ++ sample_verdict t substr ps) (its_helpers w) (LiveArray a ps :: rest))
    | _ => (Undefined Dangling, w)
    end;
  ScopedFakeTestPartResultReporter := nat;
  new_ScopedFakeTestPartResultReporter mode a w :=
    let r := length (its_objects w) in
    (Done r,
     match mode with
     | INTERCEPT_ONLY_CURRENT_THREAD =>
         SpiedRun [] [] (LiveCurrent r a (its_parts w) (its_helpers w) :: its_objects w)
     | INTERCEPT_ALL_THREADS =>
         if live_caught (its_objects w)
         then SpiedRun (its_parts w) (its_helpers w) (LiveGlobal r a None :: its_objects w)
         else SpiedRun [] (its_helpers w) (LiveGlobal r a (Some (its_parts w)) :: its_objects w)
     end);
  delete_ScopedFakeTestPartResultReporter r w :=
    match its_objects w with
    | LiveCurrent _ _ ps hs :: o :: LiveArray a _ :: rest =>
        (Done (), SpiedRun ps hs (o :: LiveArray a (its_parts w) :: rest))
    | LiveGlobal _ _ (Some ps) :: o :: LiveArray a _ :: rest =>
        (Done (), SpiedRun ps (its_helpers w) (o :: LiveArray a (its_parts w) :: rest))
    | LiveGlobal _ _ None :: rest => (Done (), SpiedRun (its_parts w) (its_helpers w) rest)
    | _ => (Undefined Dangling, w)
    end;
|}.

Definition scope_of (o : live) : scope spied_run :=
  match o with
  | LiveArray a ps => ArrayScope (W:=spied_run) a ps
  | LiveChecker c a t substr => CheckerScope (W:=spied_run) c a t substr
  | LiveCurrent r a ps hs => CurrentReporterScope (W:=spied_run) r a ps hs
  | LiveGlobal r a replaced => GlobalReporterScope (W:=spied_run) r a replaced
  end.

#[local, refine] Instance spied_laws : TestRunLaws spied_run (list (scope spied_run)) :=
  { run_parts := its_parts; run_program w := map scope_of (its_objects w) }.
Proof. intros t at_ msg w. by eexists. Defined.
#[local, refine] Instance spied_helper_laws : HelperLaws spied_run (list (scope spied_run)) :=
  { noted := its_helpers }.
Proof.
  - intros t at_ msg w w' [= <-]. done.
  - intros w. by eexists _, _.
  - intros h b [ps hs os] rest Hw. simpl in *. by rewrite Hw.
  - intros h b [ps hs os] rest Hw. simpl in *. rewrite Hw. by eexists.
Defined.

Ltac read_objects os :=
  repeat match goal with
  | H : map scope_of ?l = _ :: _ |- _ =>
      let o := fresh "o" in destruct l as [|o l]; [discriminate H|];
      let H1 := fresh "Ho" in injection H as H1 H; destruct o; try discriminate H1; injection H1 as ?; subst
  end.

Lemma live_caught_scopes os : is_caught (map scope_of os) = live_caught os.
Proof. induction os as [|[] os IH]; [done|exact IH..|done|exact IH]. Qed.

#[local, refine] Instance spied_interception_laws : InterceptionLaws spied_run :=
  { recorded := snd; complaint := sample_complaint; ExtractSummary := id }.
Proof.
  - intros w. by eexists _, _.
  - intros a t substr w. by eexists _, _.
  - intros a c t substr rest w _. by eexists _, _.
  - intros a c t substr rest w _. eexists _, _. split; [done|]. cbn [run_program spied_laws].
    rewrite live_caught_scopes. by destruct (live_caught (its_objects w)).
  - intros r a ps hs c t substr rest [qs gs os] Hw. cbn in Hw. read_objects os. cbn. by eexists.
  - intros r a replaced c t substr rest [qs gs os] Hw. cbn in Hw. read_objects os.
    destruct replaced; cbn; by eexists.
  - intros c a t substr ps rest [qs gs os] Hw _. cbn in Hw. read_objects os. cbn. by eexists.
  - intros a ps rest [qs gs os] Hw. cbn in Hw. read_objects os. cbn. by eexists.
Defined.
#[local] Instance no_exceptions : Exceptions := {| exception := Empty_set; exception_type := Empty_set; catches t e := false |}.

Definition odd_number (fatal : bool) (line : Z) : spi_code :=
  Plain (Holds (Assertion fatal (MkAssertionResult false (Some "odd number")) (Site "t.cc" line EmptyString))).

(** A failing ASSERT_TRUE is expected; a failing EXPECT_TRUE is taken for a fatal failure
    in a test of the macro itself, and then without one. Around a macro for all threads,
    EXPECT_NO_FATAL_FAILURE notices the failure; inside a macro for the current thread, one for all
    threads does not intercept it. *)
Definition self_test : spi_code :=
  Then (ExpectNoFatal false (Site "t.cc" 1 EmptyString) "f()" (ExpectFatal false (odd_number true 2) "odd"))
  (Then (ExpectNonFatal true (ExpectFatal false (odd_number false 3) "odd") "1 failure")
  (Then (ExpectFatal true (odd_number false 4) "odd")
  (Then (ExpectNoFatal false (Site "t.cc" 5 EmptyString) "g()" (ExpectFatal true (odd_number true 6) "odd"))
        (ExpectFatal false (ExpectFatal true (odd_number true 7) "odd") "odd")))).

Lemma expected_failures_intercepted_witness :
  ∃ w', run_spi self_test (SpiedRun [] [(0%nat, false)] []) = (Done (Went Next), w') ∧
    map (λ p, (p.1.1, site_file p.1.2, site_line p.1.2)) (its_parts w') =
      [(kNonFatalFailure, "gtest.cc", 0); (kNonFatalFailure, "t.cc", 5); (kNonFatalFailure, "gtest.cc", 0)] ∧
    its_helpers w' = [(0%nat, true)].
Proof.
  destruct (expected_failures_intercepted self_test (SpiedRun [] [(0%nat, false)] [])) as (w' & Hw & Hp & Hn & _).
  exists w'. split; [exact Hw|]. cbn [its_parts run_parts spied_laws] in Hp. split; [by rewrite Hp|exact Hn].
Defined.
