(* ===== verification/DeathTests.v ===== *)
(** Death tests: GTEST_DEATH_TEST_ and the macros around it, of
    src/gtest/include/gtest/internal/gtest-death-test-internal.h and gtest-death-test.h.

    A death test runs in two processes, each of which comes to the switch on the role that
    AssumeRole gives it: the one that oversees waits for the other, which executes the
    statement. Class DeathTest and its concrete classes, of which the header declares no
    body, are an interface (DeathTests); its comments are DeathTestLaws. A command that
    ends in [Exited] or [Aborted] is a process that died. *)

From S2P Require Import Prelude Tuples Printers Assertions ThrowAssertions.
#[local] Open Scope Z_scope.

(** * The interface *)

Inductive TestRole : Set := OVERSEE_TEST | EXECUTE_TEST.

Inductive AbortReason : Set := TEST_ENCOUNTERED_RETURN_STATEMENT | TEST_THREW_EXCEPTION | TEST_DID_NOT_DIE.

(** Create answers None for false, and Some None when it sets the pointer to NULL. [what]
    is the text of an exception that is derived from std::exception. *)
Class DeathTests (W : Type) `{!Exceptions} : Type := {
  RE : Type;
  DeathTest : Type;
  Create : string → RE → site → cmd W (option (option DeathTest));
  AssumeRole : DeathTest → cmd W TestRole;
  Wait : DeathTest → cmd W Z;
  Passed : DeathTest → bool → cmd W bool;
  Abort_ : DeathTest → AbortReason → cmd W unit;
  delete_DeathTest : DeathTest → cmd W unit;
  LastMessage : cmd W string;
  ExitedUnsuccessfully : Z → bool;
  FormatFileLocation : string → Z → string;
  what : exception → option string;
  print_stderr : string → cmd W unit;
  log_warning : string → cmd W unit;
}.
#[global] Hint Mode DeathTests + - : typeclass_instances.

(** * The macros *)

Section macros.
Context {W : Type} `{!Exceptions, !TestRun W, !DeathTests W}.
Notation throwing := (cmd W ending).

(** ~ReturnSentinel(). *)
Definition delete_ReturnSentinel (test_ : DeathTest (W:=W)) : cmd W unit :=
  Abort_ test_ TEST_ENCOUNTERED_RETURN_STATEMENT.

(** With exceptions enabled. *)
Definition GTEST_EXECUTE_DEATH_TEST_STATEMENT_ (at_ : site) (body : throwing) (death_test : DeathTest (W:=W)) : throwing :=
  r ← body;
  match r with
  | Went f => mret (Went f)
  | Threw e =>
      match what (W:=W) e with
      | Some text =>
          print_stderr (newline +:+ FormatFileLocation (W:=W) (site_file at_) (site_line at_) +:+
            ": Caught std::exception-derived exception escaping the " +:+
            "death test statement. Exception message: " +:+ text +:+ newline);;
          Abort_ death_test TEST_THREW_EXCEPTION;;
          mret (Went Next)
      | None => Abort_ death_test TEST_THREW_EXCEPTION;; mret (Went Next)
      end
  end.

(** The case EXECUTE_TEST: the sentinel is destroyed wherever its block is left. *)
Definition execute_test (at_ : site) (body : throwing) (gtest_dt : DeathTest (W:=W)) : throwing :=
  r ← GTEST_EXECUTE_DEATH_TEST_STATEMENT_ at_ body gtest_dt;
  match r with
  | Went Next =>
      Abort_ gtest_dt TEST_DID_NOT_DIE;;
      delete_ReturnSentinel gtest_dt;;
      mret (Went Next)
  | _ => delete_ReturnSentinel gtest_dt;; mret r
  end.

(** The label: fail(LastMessage()). *)
Definition death_test_failed (fail : string → statement W) : throwing :=
  message ← LastMessage; nothrow (fail message).

(** The goto out of the block of gtest_dt_ptr destroys the death test too. *)
Definition GTEST_DEATH_TEST_ (at_ : site) (body : throwing) (text : string) (predicate : Z → bool) (regex : RE (W:=W))
    (fail : string → statement W) : throwing :=
  created ← Create text regex at_;
  match created with
  | None => death_test_failed fail
  | Some None => mret (Went Next)
  | Some (Some gtest_dt) =>
      role ← AssumeRole gtest_dt;
      match role with
      | OVERSEE_TEST =>
          status ← Wait gtest_dt;
          passed ← Passed gtest_dt (predicate status);
          delete_DeathTest gtest_dt;;
          if (passed : bool) then mret (Went Next) else death_test_failed fail
      | EXECUTE_TEST =>
          r ← execute_test at_ body gtest_dt;
          delete_DeathTest gtest_dt;;
          mret r
      end
  end.

(** Without support for death tests: the statement is compiled and not executed. *)
Definition GTEST_UNSUPPORTED_DEATH_TEST_ (body : throwing) (text : string) (regex : RE (W:=W)) (terminator : flow) : throwing :=
  log_warning ("Death tests are not supported on this platform." +:+ newline +:+
               "Statement '" +:+ text +:+ "' cannot be verified.");;
  mret (Went Next).

(** The statement is executed and the regular expression ignored. *)
Definition GTEST_EXECUTE_STATEMENT_ (body : throwing) (regex : RE (W:=W)) : throwing := body.

Definition ASSERT_EXIT (at_ : site) body text predicate regex : throwing :=
  GTEST_DEATH_TEST_ at_ body text predicate regex (GTEST_FATAL_FAILURE_ at_).
Definition EXPECT_EXIT (at_ : site) body text predicate regex : throwing :=
  GTEST_DEATH_TEST_ at_ body text predicate regex (GTEST_NONFATAL_FAILURE_ at_).
Definition ASSERT_DEATH (at_ : site) body text regex : throwing :=
  ASSERT_EXIT at_ body text (ExitedUnsuccessfully (W:=W)) regex.
Definition EXPECT_DEATH (at_ : site) body text regex : throwing :=
  EXPECT_EXIT at_ body text (ExitedUnsuccessfully (W:=W)) regex.

(** Whether NDEBUG is defined. *)
Definition EXPECT_DEBUG_DEATH (NDEBUG : bool) (at_ : site) body text regex : throwing :=
  if NDEBUG then GTEST_EXECUTE_STATEMENT_ body regex else EXPECT_DEATH at_ body text regex.
Definition ASSERT_DEBUG_DEATH (NDEBUG : bool) (at_ : site) body text regex : throwing :=
  if NDEBUG then GTEST_EXECUTE_STATEMENT_ body regex else ASSERT_DEATH at_ body text regex.

(** Whether GTEST_HAS_DEATH_TEST holds. *)
Definition EXPECT_DEATH_IF_SUPPORTED (has_death_test : bool) (at_ : site) body text regex : throwing :=
  if has_death_test then EXPECT_DEATH at_ body text regex else GTEST_UNSUPPORTED_DEATH_TEST_ body text regex Next.
Definition ASSERT_DEATH_IF_SUPPORTED (has_death_test : bool) (at_ : site) body text regex : throwing :=
  if has_death_test then ASSERT_DEATH at_ body text regex else GTEST_UNSUPPORTED_DEATH_TEST_ body text regex Return.
End macros.

(** * InternalRunDeathTestFlag *)

Record InternalRunDeathTestFlag : Type := new_InternalRunDeathTestFlag {
  file : string;
  line : Z;
  index : Z;
  write_fd : Z;
}.

Section flag.
Context {W : Type}.
(** posix::Close. *)
Variable Close : Z → cmd W unit.

Definition delete_InternalRunDeathTestFlag (f : InternalRunDeathTestFlag) : cmd W unit :=
  if 0 <=? write_fd f then Close (write_fd f) else mret ().
End flag.

(** * What the library promises *)

(** Whether the system writes the core of a process that SIGABRT kills. *)
Class CoreDumps : Set := core_dumped : bool.

(** The exit status of a process that ends so, in the format of wait(2): exited with a
    code, killed by SIGABRT, with the bit for a core. *)
Definition exit_status `{!CoreDumps} {A} (o : outcome A) : option Z :=
  match o with
  | Exited code => Some (Z.shiftl (Z.land code 255) 8)
  | Aborted => Some (if core_dumped then 134 else 6)
  | _ => None
  end.

(** The statement goes on, returns, throws or dies, and its behaviour is defined. *)
Definition comes_to_an_end {A} (o : outcome A) : bool :=
  match o with Thrown _ | Undefined _ | Unfinished => false | _ => true end.

(** What the reasons are for. *)
Definition reason_of `{!Exceptions} (r : ending) : AbortReason :=
  match r with
  | Went Next => TEST_DID_NOT_DIE
  | Went Return => TEST_ENCOUNTERED_RETURN_STATEMENT
  | Threw _ => TEST_THREW_EXCEPTION
  end.

(** [child] is what the sub-process does from its copy of the state on: the case
    EXECUTE_TEST. Wait waits for the death test to finish and returns its status; Passed
    returns true if the test process exited during the test (it was not aborted), its exit
    status matches the predicate and its stderr output the regular expression; Abort
    signals that the death test did not die as expected and ends the process. Nothing of
    it is reported as a result of the test. *)
Class DeathTestLaws (W Pr : Type) `{!CoreDumps, !Exceptions, !TestRun W, !TestRunLaws W Pr, !DeathTests W}
    (child : DeathTest (W:=W) → cmd W ending) : Type := {
  matches : RE (W:=W) → string → bool;
  stderr_text : W → string;
  abort_reason : W → option AbortReason;
  regex_of : DeathTest (W:=W) → RE (W:=W);
  sub_process : DeathTest (W:=W) → W → option W;
  ended_process : DeathTest (W:=W) → W → option W;
  Create_keeps text re at_ (w : W) c w' : Create text re at_ w = (Done c, w') →
    run_parts w' = run_parts w ∧ run_program w' = run_program w ∧
    ∀ dt, c = Some (Some dt) → regex_of dt = re;
  AssumeRole_keeps dt (w : W) role w' : AssumeRole dt w = (Done role, w') →
    run_parts w' = run_parts w ∧ run_program w' = run_program w;
  print_stderr_done s (w : W) : ∃ w', print_stderr s w = (Done (), w');
  Abort_ends dt why (w : W) : ∃ code w', Abort_ dt why w = (Exited code, w') ∧ abort_reason w' = Some why;
  Wait_waits dt (w wc wc' : W) o st : sub_process dt w = Some wc → child dt wc = (o, wc') → exit_status o = Some st →
    ∃ w', Wait dt w = (Done st, w') ∧ ended_process dt w' = Some wc' ∧
      run_parts w' = run_parts w ∧ run_program w' = run_program w;
  Passed_judges dt ok (w wc' : W) : ended_process dt w = Some wc' →
    ∃ w', Passed dt ok w =
        (Done (bool_decide (abort_reason wc' = None) && ok && matches (regex_of dt) (stderr_text wc')), w') ∧
      run_parts w' = run_parts w ∧ run_program w' = run_program w;
  LastMessage_keeps (w : W) : ∃ msg w', LastMessage w = (Done msg, w') ∧
    run_parts w' = run_parts w ∧ run_program w' = run_program w;
  delete_DeathTest_keeps dt (w : W) : ∃ w', delete_DeathTest dt w = (Done (), w') ∧
    run_parts w' = run_parts w ∧ run_program w' = run_program w;
}.
#[global] Hint Mode DeathTestLaws + - - - - - - - : typeclass_instances.

Section laws.
Context {W Pr : Type} `{!CoreDumps, !Exceptions, !TestRun W, !TestRunLaws W Pr, !DeathTests W}.
Variables (at_ : site) (body : cmd W ending).
Context `{!DeathTestLaws W Pr (execute_test at_ body)}.
Implicit Types (w wc : W).

(** ** The process that executes the statement *)

(** Nothing after Abort is run. *)
Lemma abort_run {B} dt why (k : unit → cmd W B) w :
  ∃ code w', (Abort_ dt why ≫= k) w = (Exited code, w') ∧ abort_reason w' = Some why.
Proof.
  destruct (Abort_ends dt why w) as (code & w' & Ha & Hr). exists code, w'.
  by rewrite (bind_exited _ _ _ _ _ Ha).
Qed.

Lemma statement_aborts {B} dt (k : ending → cmd W B) wc e wc' :
  body wc = (Done (Threw e), wc') →
  ∃ code w', (GTEST_EXECUTE_DEATH_TEST_STATEMENT_ at_ body dt ≫= k) wc = (Exited code, w') ∧
    abort_reason w' = Some TEST_THREW_EXCEPTION.
Proof.
  intros Hb. unfold GTEST_EXECUTE_DEATH_TEST_STATEMENT_. rewrite bind_assoc (bind_done _ _ _ _ _ Hb).
  destruct (what e) as [text|].
  - match goal with |- context [print_stderr ?t] => destruct (print_stderr_done t wc') as (w & Hw) end.
    rewrite bind_assoc (bind_done _ _ _ _ _ Hw) bind_assoc. apply abort_run.
  - rewrite bind_assoc. apply abort_run.
Qed.

(** It never gets past the death test: it dies as the statement does, or it is aborted for
    the reason that the statement did not die. *)
Lemma executing_ends dt wc o wc' :
  body wc = (o, wc') → comes_to_an_end o = true →
  ∃ o' wc'', execute_test at_ body dt wc = (o', wc'') ∧ is_Some (exit_status o') ∧
    match o with
    | Done r => abort_reason wc'' = Some (reason_of r)
    | _ => o' = o ∧ wc'' = wc'
    end.
Proof.
  intros Hb Ho. unfold execute_test, delete_ReturnSentinel. destruct o as [[f|e]|code| | | |]; try discriminate Ho.
  - unfold GTEST_EXECUTE_DEATH_TEST_STATEMENT_. rewrite bind_assoc (bind_done _ _ _ _ _ Hb) bind_ret_l.
    destruct f.
    + destruct (abort_run dt TEST_DID_NOT_DIE (λ _, delete_ReturnSentinel dt;; mret (Went Next)) wc')
        as (c & w & Ha & Hr). by exists (Exited c), w.
    + destruct (abort_run dt TEST_ENCOUNTERED_RETURN_STATEMENT (λ _, mret (Went Return)) wc')
        as (c & w & Ha & Hr). by exists (Exited c), w.
  - match goal with |- context [_ ≫= ?k] => destruct (statement_aborts dt k _ _ _ Hb) as (c & w & Ha & Hr) end.
    by exists (Exited c), w.
  - exists (Exited code), wc'. rewrite bind_assoc. by rewrite (bind_exited _ _ _ _ _ Hb).
  - exists Aborted, wc'. by rewrite /mbind /cmd_bind /GTEST_EXECUTE_DEATH_TEST_STATEMENT_ /mbind /cmd_bind Hb.
Qed.

(** ** The process that oversees it *)

(** Whether the statement died as it should. *)
Definition died_well (predicate : Z → bool) (regex : RE (W:=W)) (o : outcome ending) wc' : bool :=
  match exit_status o with
  | Some status => predicate status && matches regex (stderr_text wc')
  | None => false
  end.

Definition exit_macro (f : bool) (text : string) (predicate : Z → bool) (regex : RE (W:=W)) : cmd W ending :=
  (if f then ASSERT_EXIT else EXPECT_EXIT) at_ body text predicate regex.

Lemma failed_run (f : bool) w w0 :
  run_parts w = run_parts w0 → run_program w = run_program w0 →
  ∃ msg w', death_test_failed (if f then GTEST_FATAL_FAILURE_ at_ else GTEST_NONFATAL_FAILURE_ at_) w =
      (Done (Went (if f then Return else Next)), w') ∧
    run_parts w' = run_parts w0 ++ [(if f then kFatalFailure else kNonFatalFailure, at_, msg)] ∧
    run_program w' = run_program w0.
Proof.
  intros Hp Hr. destruct (LastMessage_keeps w) as (msg & w1 & Hm & Hp1 & Hr1).
  destruct (AssertHelper_adds (if f then kFatalFailure else kNonFatalFailure) at_ msg w1) as (w2 & Hw2 & Hp2 & Hr2).
  exists msg, w2. split_and!; [|congruence..]. unfold death_test_failed, nothrow. rewrite (bind_done _ _ _ _ _ Hm).
  destruct f; rewrite /GTEST_FATAL_FAILURE_ /GTEST_NONFATAL_FAILURE_ /do_ /GTEST_MESSAGE_ /GTEST_MESSAGE_AT_;
    by rewrite bind_assoc (bind_done _ _ _ _ _ Hw2).
Qed.

(** What is waited for is judged as it died. *)
Lemma overseen (predicate : Z → bool) dt w wc o wc' :
  sub_process dt w = Some wc → body wc = (o, wc') → comes_to_an_end o = true → abort_reason wc' = None →
  ∃ status w1 w2, Wait dt w = (Done status, w1) ∧
    Passed dt (predicate status) w1 = (Done (died_well predicate (regex_of dt) o wc'), w2) ∧
    run_parts w2 = run_parts w ∧ run_program w2 = run_program w.
Proof.
  intros Hsub Hb Ho Hq. destruct (executing_ends dt _ _ _ Hb Ho) as (o' & wc'' & He & [status Hs] & Hd).
  destruct (Wait_waits _ _ _ _ _ _ Hsub He Hs) as (w1 & Hw1 & Hend & Hp1 & Hr1).
  destruct (Passed_judges _ (predicate status) _ _ Hend) as (w2 & Hw2 & Hp2 & Hr2).
  exists status, w1, w2. split_and!; [done| |congruence..]. rewrite Hw2. unfold died_well.
  destruct o as [r|code| | | |]; try discriminate Ho.
  - by rewrite Hd.
  - destruct Hd as [-> ->]. by rewrite Hq Hs.
  - destruct Hd as [-> ->]. by rewrite Hq Hs.
Qed.

(** Where there is nothing to oversee: Create failed, or the death test is skipped. *)
Lemma death_test_not_run (f : bool) text predicate regex w c w1 :
  Create text regex at_ w = (Done c, w1) →
  match c with
  | None => ∃ msg w', exit_macro f text predicate regex w = (Done (Went (if f then Return else Next)), w') ∧
      run_parts w' = run_parts w ++ [(if f then kFatalFailure else kNonFatalFailure, at_, msg)] ∧
      run_program w' = run_program w
  | Some None => exit_macro f text predicate regex w = (Done (Went Next), w1) ∧
      run_parts w1 = run_parts w ∧ run_program w1 = run_program w
  | Some (Some _) => True
  end.
Proof.
  intros Hc. destruct (Create_keeps _ _ _ _ _ _ Hc) as (Hp & Hr & _). destruct c as [[dt|]|]; [done| |].
  - split; [|done]. unfold exit_macro, ASSERT_EXIT, EXPECT_EXIT, GTEST_DEATH_TEST_.
    destruct f; by rewrite (bind_done _ _ _ _ _ Hc).
  - destruct (failed_run f w1 w Hp Hr) as (msg & w' & Hw' & Hrest). exists msg, w'. split; [|done].
    unfold exit_macro, ASSERT_EXIT, EXPECT_EXIT, GTEST_DEATH_TEST_.
    destruct f; rewrite (bind_done _ _ _ _ _ Hc); exact Hw'.
Qed.

(** C27. EXPECT_EXIT and ASSERT_EXIT, in the process that oversees the test: whatever the
    statement does in the other process - go on, return, throw or die - the test learns
    of no failure exactly if it dies, exits or is aborted by itself, with a status that
    satisfies the predicate and the regular expression found in what it wrote to stderr;
    otherwise there is one failure, at the macro, and the fatal macro leaves the
    function. Nothing that the statement does or reports is seen. The other process
    never gets past the macro. *)
Theorem death_test_verdict (f : bool) text predicate regex w dt w1 w2 wc o wc' :
  Create text regex at_ w = (Done (Some (Some dt)), w1) →
  AssumeRole dt w1 = (Done OVERSEE_TEST, w2) →
  sub_process dt w2 = Some wc →
  body wc = (o, wc') → comes_to_an_end o = true → abort_reason wc' = None →
  (∃ w' msg, run_program w' = run_program w ∧
    if died_well predicate regex o wc'
    then exit_macro f text predicate regex w = (Done (Went Next), w') ∧ run_parts w' = run_parts w
    else exit_macro f text predicate regex w = (Done (Went (if f then Return else Next)), w') ∧
      run_parts w' = run_parts w ++ [(if f then kFatalFailure else kNonFatalFailure, at_, msg)]) ∧
  ∃ o' wc'', execute_test at_ body dt wc = (o', wc'') ∧ is_Some (exit_status o') ∧
    match o with Done r => abort_reason wc'' = Some (reason_of r) | _ => o' = o ∧ wc'' = wc' end.
Proof.
  intros Hc Hrole Hsub Hb Ho Hq. split; [|by eapply executing_ends].
  destruct (Create_keeps _ _ _ _ _ _ Hc) as (Hp1 & Hr1 & Hre). specialize (Hre dt eq_refl).
  destruct (AssumeRole_keeps _ _ _ _ Hrole) as (Hp2 & Hr2).
  destruct (overseen predicate _ _ _ _ _ Hsub Hb Ho Hq) as (status & w3 & w4 & Hw3 & Hw4 & Hp4 & Hr4).
  destruct (delete_DeathTest_keeps dt w4) as (w5 & Hw5 & Hp5 & Hr5). rewrite Hre in Hw4.
  assert (exit_macro f text predicate regex w =
    (if died_well predicate regex o wc' then mret (Went Next)
     else death_test_failed (if f then GTEST_FATAL_FAILURE_ at_ else GTEST_NONFATAL_FAILURE_ at_)) w5) as Hmacro.
  { unfold exit_macro, ASSERT_EXIT, EXPECT_EXIT, GTEST_DEATH_TEST_.
    destruct f; rewrite (bind_done _ _ _ _ _ Hc) (bind_done _ _ _ _ _ Hrole) (bind_done _ _ _ _ _ Hw3)
      (bind_done _ _ _ _ _ Hw4) (bind_done _ _ _ _ _ Hw5); done. }
  rewrite Hmacro. destruct (died_well predicate regex o wc').
  - exists w5, EmptyString. split_and!; [congruence|done|congruence].
  - destruct (failed_run f w5 w) as (msg & w' & Hw' & Hp' & Hr'); [congruence..|]. by exists w', msg.
Qed.
End laws.

(** * A sample *)

(** A process: its results, what it wrote to stderr, why it was aborted, and the
    sub-process it waited for. *)
Inductive process : Type :=
  Process (its_parts : list part) (its_stderr : string) (its_abort : option AbortReason) (its_child : option process).
Definition its_parts '(Process ps _ _ _) := ps.
Definition its_stderr '(Process _ err _ _) := err.
Definition its_abort '(Process _ _ why _) := why.
Definition its_child '(Process _ _ _ c) := c.

#[local] Instance process_test_run : TestRun process := λ t at_ msg '(Process ps err why c),
  (Done (), Process (ps ++ [(t, at_, msg)]) err why c).
#[local, refine] Instance process_run_laws : TestRunLaws process unit :=
  { run_parts := its_parts; run_program _ := () }.
Proof. intros t at_ msg [ps err why c]. by eexists. Defined.
#[local] Instance text_exceptions : Exceptions := {| exception := string; exception_type := unit; catches _ _ := true |}.

Definition found (re s : string) : bool := bool_decide (is_Some (String.index 0 re s)).

(** The death test is its regular expression; only how Wait gets the status is open. *)
Definition death_tests_with (wait : string → cmd process Z) : DeathTests process := {|
  RE := string;
  DeathTest := string;
  Create _ re _ w := (Done (Some (Some re)), w);
  AssumeRole _ w := (Done OVERSEE_TEST, w);
  Wait := wait;
  Passed re ok w :=
    match its_child w with
    | Some wc => (Done (bool_decide (its_abort wc = None) && ok && found re (its_stderr wc)), w)
    | None => (Undefined Indeterminate, w)
    end;
  Abort_ _ why '(Process ps err _ c) := (Exited 1, Process ps err (Some why) c);
  delete_DeathTest _ w := (Done (), w);
  LastMessage w := (Done "Result: died but not as expected", w);
  ExitedUnsuccessfully status := negb (status =? 0);
  FormatFileLocation f _ := f;
  what e := Some e;
  print_stderr t '(Process ps err why c) := (Done (), Process ps (err +:+ t) why c);
  log_warning _ w := (Done (), w);
|}.

#[local] Instance no_core : CoreDumps := false.

Section waiting.
Variables (at_ : site) (body : cmd process ending).

(** It runs the statement in a process of its own. *)
Definition wait_for_child (re : string) : cmd process Z := λ w,
  let '(o, wc) :=
    execute_test (DeathTests0 := death_tests_with (λ _ w, (Unfinished, w))) at_ body re (Process [] EmptyString None None) in
  match exit_status o with
  | Some status => let '(Process ps err why _) := w in (Done status, Process ps err why (Some wc))
  | None => (Unfinished, w)
  end.

#[local] Instance waited : DeathTests process := death_tests_with wait_for_child.
#[local, refine] Instance waited_laws : DeathTestLaws process unit (execute_test at_ body) := {
  matches := found;
  stderr_text := its_stderr;
  abort_reason := its_abort;
  regex_of re := re;
  sub_process _ _ := Some (Process [] EmptyString None None);
  ended_process _ w := its_child w;
}.
Proof.
  - intros text re a w c w' [= <- <-]. split_and!; [done..|]. by intros dt [= ->].
  - intros dt w role w' [= <- <-]. done.
  - intros t [ps err why c]. by eexists.
  - intros dt why [ps err why' c]. by eexists _, _.
  - intros dt [ps err why c] wc wc' o st [= <-] He Hs. exists (Process ps err why (Some wc')).
    split_and!; [|done..]. change (Wait dt) with (wait_for_child dt). unfold wait_for_child.
    change (execute_test (DeathTests0 := death_tests_with _) at_ body dt) with (execute_test at_ body dt).
    by rewrite He Hs.
  - intros dt ok [ps err why c] wc Hc. cbn in Hc. subst c. by eexists.
  - intros w. by eexists _, _.
  - intros dt w. by eexists.
Defined.
End waiting.

(** exit(3) after an error message; the message is expected with that code, and with
    another. *)
Definition exit_with_message : cmd process ending := λ '(Process ps err why c),
  (Exited 3, Process ps (err +:+ "Invalid port number") why c).

Lemma death_test_verdict_witness :
  let at_ := Site "t.cc" 5 EmptyString in
  let run predicate :=
    exit_macro (DeathTests0 := waited at_ exit_with_message) at_ exit_with_message true "server.Send(56)" predicate "port"
      (Process [] EmptyString None None) in
  (∃ w', run (λ status, status =? 768) = (Done (Went Next), w') ∧ its_parts w' = []) ∧
  (∃ w' msg, run (λ status, status =? 0) = (Done (Went Return), w') ∧ its_parts w' = [(kFatalFailure, at_, msg)]).
Proof.
  split.
  - destruct (death_test_verdict (Site "t.cc" 5 EmptyString) exit_with_message
      (DeathTestLaws0 := waited_laws (Site "t.cc" 5 EmptyString) exit_with_message) true "server.Send(56)"
      (λ status, status =? 768) "port" (Process [] EmptyString None None) "port" _ _ _ _ _
      eq_refl eq_refl eq_refl eq_refl eq_refl eq_refl) as [(w' & msg & _ & Hw') _].
    exists w'. exact Hw'.
  - destruct (death_test_verdict (Site "t.cc" 5 EmptyString) exit_with_message
      (DeathTestLaws0 := waited_laws (Site "t.cc" 5 EmptyString) exit_with_message) true "server.Send(56)"
      (λ status, status =? 0) "port" (Process [] EmptyString None None) "port" _ _ _ _ _
      eq_refl eq_refl eq_refl eq_refl eq_refl eq_refl) as [(w' & msg & _ & Hw') _].
    exists w', msg. exact Hw'.
Defined.
