(* ===== verification/TftpList.v ===== *)
(** The session list of the TFTP server (src/tftp/list.c, list.h, session.h):
    a singly linked list with a dummy head node, on the heap of Mem.v. *)

From S2P Require Import Prelude Machine Mem.

(** * Data *)

(** [SESSION] of session.h. [FILE *] and [struct sockaddr *] are addresses. *)
Record SESSION : Type := MkSession {
  sock_fd : Z;
  pFile : ptr;
  cli_addr : ptr;
  cli_addr_len : Z;
}.

#[export] Instance session_eq_dec : EqDecision SESSION.
Proof. solve_decision. Defined.

(** [SESSION_LIST] of list.h; a field is [None] until it is assigned. *)
Record SESSION_LIST : Type := MkNode {
  value : option ptr;
  next : option ptr;
}.

#[export] Instance node_eq_dec : EqDecision SESSION_LIST.
Proof. solve_decision. Defined.

(** What malloc'ed blocks of the TFTP server hold. *)
Inductive cell : Type :=
  | CNode (n : SESSION_LIST)
  | CSession (s : SESSION)
  | CBytes (b : list Z).

#[export] Instance cell_eq_dec : EqDecision cell.
Proof. solve_decision. Defined.

(** * Operations *)

Section operations.
Context {MA : Malloc}.

Definition load_node (p : ptr) : cmd (mem cell) SESSION_LIST :=
  c ← load p;
  match c with CNode n => mret n | _ => undefined Dangling end.

Definition get_value (p : ptr) : cmd (mem cell) ptr :=
  n ← load_node p; or_ub Indeterminate (value n).

Definition get_next (p : ptr) : cmd (mem cell) ptr :=
  n ← load_node p; or_ub Indeterminate (next n).

Definition set_value (p : ptr) (v : ptr) : cmd (mem cell) unit :=
  n ← load_node p; store p (CNode (MkNode (Some v) (next n))).

Definition set_next (p : ptr) (q : ptr) : cmd (mem cell) unit :=
  n ← load_node p; store p (CNode (MkNode (value n) (Some q))).

Definition create_session_list : cmd (mem cell) ptr :=
  head ← malloc (CNode (MkNode None None));
  if bool_decide (head = NULL) then exit (-1) else
  set_value head NULL;;
  set_next head NULL;;
  mret head.

(** The loop of get_list_length. *)
Fixpoint length_loop (fuel : nat) (pIndex : ptr) (length : Z) : cmd (mem cell) Z :=
  match pIndex with
  | None => mret length
  | Some _ =>
    match fuel with
    | O => unfinished
    | S fuel =>
      if int_ok (length + 1)
      then pIndex' ← get_next pIndex; length_loop fuel pIndex' (length + 1)
      else undefined SignedOverflow
    end
  end.

(** A walk over distinct nodes visits at most as many as there are cells. *)
Definition walk_fuel (h : mem cell) : nat := size (cells h).

Definition get_list_length (head : ptr) : cmd (mem cell) Z :=
  if bool_decide (head = NULL) then mret 0 else
  pIndex ← get_next head;
  h ← get;
  length_loop (walk_fuel h) pIndex 0.

Definition insert_to_session_list (head session : ptr) : cmd (mem cell) unit :=
  newitem ← malloc (CNode (MkNode None None));
  nxt ← get_next head;
  set_next newitem nxt;;
  set_value newitem session;;
  set_next head newitem.

(** The loop of remove_from_list. *)
Fixpoint remove_loop (fuel : nat) (pprev pindex session : ptr) : cmd (mem cell) unit :=
  match pindex with
  | None => mret ()
  | Some _ =>
    match fuel with
    | O => unfinished
    | S fuel =>
      v ← get_value pindex;
      if bool_decide (v = session) then
        nxt ← get_next pindex;
        set_next pprev nxt;;
        v ← get_value pindex;
        free v;;
        free pindex
      else
        nxt ← get_next pindex;
        remove_loop fuel pindex nxt session
    end
  end.

Definition remove_from_list (head session : ptr) : cmd (mem cell) unit :=
  pindex ← get_next head;
  h ← get;
  remove_loop (walk_fuel h) head pindex session.
End operations.

(** * The list a head node represents *)

(** From [p] on, the nodes [xs], each with its address and its session. *)
Fixpoint chain (m : gmap loc cell) (p : ptr) (xs : list (loc * ptr)) : Prop :=
  match xs with
  | [] => p = NULL
  | (l, v) :: xs =>
    p = Some l ∧ ∃ q, m !! l = Some (CNode (MkNode (Some v) (Some q))) ∧ chain m q xs
  end.

(** [head] is the dummy node of a list of the nodes [xs]. *)
Definition list_nodes (m : gmap loc cell) (head : loc) (xs : list (loc * ptr)) : Prop :=
  ∃ p, m !! head = Some (CNode (MkNode (Some NULL) (Some p))) ∧ chain m p xs ∧ NoDup (head :: xs.*1).

(** [head] is the dummy node of a list of the sessions [vs]. *)
Definition is_list (m : gmap loc cell) (head : loc) (vs : list ptr) : Prop :=
  ∃ p xs, m !! head = Some (CNode (MkNode (Some NULL) (Some p))) ∧
          chain m p xs ∧ NoDup (head :: xs.*1) ∧ xs.*2 = vs.

(** [v] is a block that holds a session. *)
Definition is_session (m : gmap loc cell) (v : ptr) : Prop :=
  ∃ l s, v = Some l ∧ m !! l = Some (CSession s).

(** The pointers to the sessions of a sequence of sessions at their addresses. *)
Definition pointers (vs : list (loc * SESSION)) : list ptr := (λ v, Some v.1) <$> vs.

(** The blocks of a list: its dummy node, a node for each session, and the sessions. *)
Definition blocks (head : loc) (xs : list (loc * ptr)) (vs : list (loc * SESSION)) : list loc :=
  head :: xs.*1 ++ vs.*1.

(** The heap is the list of the sessions [vs], which are distinct blocks with their
    contents, and [frame] beside it: it has no other block. *)
Definition owns_list (frame m : gmap loc cell) (head : loc) (vs : list (loc * SESSION)) : Prop :=
  ∃ xs, list_nodes m head xs ∧ xs.*2 = pointers vs ∧
    NoDup vs.*1 ∧ Forall (λ '(l, s), m !! l = Some (CSession s)) vs ∧
    ∀ l, frame !! l = if decide (l ∈ blocks head xs vs) then None else m !! l.

Section chains.
Implicit Types (m : gmap loc cell) (l : loc) (p q v : ptr).

Lemma chain_frame m m' p xs :
  chain m p xs → (∀ l, l ∈ xs.*1 → m' !! l = m !! l) → chain m' p xs.
Proof.
  revert p. induction xs as [|[l v] xs IH]; intros p; [done|].
  intros (-> & q & Hl & Hq) Hm. split; [done|]. exists q. split.
  - rewrite Hm //. set_solver.
  - apply IH; [done|]. intros. apply Hm. set_solver.
Qed.

Lemma chain_node m p xs l :
  chain m p xs → l ∈ xs.*1 → ∃ n, m !! l = Some (CNode n).
Proof.
  revert p. induction xs as [|[k v] xs IH]; intros p; [set_solver|].
  intros (-> & q & Hl & Hq). rewrite fmap_cons elem_of_cons. intros [->|?]; eauto.
Qed.

Lemma chain_size m p xs : chain m p xs → NoDup xs.*1 → (length xs ≤ size m)%nat.
Proof.
  intros Hc Hnd. rewrite -(length_fmap fst) -(size_list_to_set (C:=gset loc)) //.
  rewrite -size_dom. apply subseteq_size. intros l.
  rewrite elem_of_list_to_set elem_of_dom => Hl.
  destruct (chain_node _ _ _ _ Hc Hl) as [n ->]. done.
Qed.

Lemma chain_insert_frame m p xs l c :
  chain m p xs → l ∉ xs.*1 → chain (<[l := c]> m) p xs.
Proof.
  intros Hc Hl. eapply chain_frame; [done|].
  intros k Hk. rewrite lookup_insert_ne //. set_solver.
Qed.

Lemma chain_delete_frame m p xs l :
  chain m p xs → l ∉ xs.*1 → chain (delete l m) p xs.
Proof.
  intros Hc Hl. eapply chain_frame; [done|].
  intros k Hk. rewrite lookup_delete_ne //. set_solver.
Qed.

Lemma session_not_node m p xs l s :
  chain m p xs → m !! l = Some (CSession s) → l ∉ xs.*1.
Proof. intros Hc Hl Hin. destruct (chain_node _ _ _ _ Hc Hin) as [n Hn]. congruence. Qed.
End chains.

#[export] Hint Resolve chain_insert_frame chain_delete_frame session_not_node : mem.

(** * Field accesses on live nodes *)

Section accesses.
Context {MA : Malloc}.
Implicit Types (h : mem cell) (l : loc) (n : SESSION_LIST).

Lemma load_node_live h l n :
  cells h !! l = Some (CNode n) → load_node (Some l) h = (Done n, h).
Proof. intros Hl. unfold load_node. by mem_step. Qed.

Lemma get_next_live h l v q :
  cells h !! l = Some (CNode (MkNode v (Some q))) → get_next (Some l) h = (Done q, h).
Proof. intros Hl. unfold get_next. by erewrite bind_done by by apply load_node_live. Qed.

Lemma get_value_live h l v q :
  cells h !! l = Some (CNode (MkNode (Some v) q)) → get_value (Some l) h = (Done v, h).
Proof. intros Hl. unfold get_value. by erewrite bind_done by by apply load_node_live. Qed.

Lemma set_next_live h l v q q' :
  cells h !! l = Some (CNode (MkNode v q)) →
  set_next (Some l) q' h =
    (Done (), Mem (<[l := CNode (MkNode v (Some q'))]> (cells h)) (calls h)).
Proof.
  intros Hl. unfold set_next. erewrite bind_done by by apply load_node_live.
  by eapply store_live.
Qed.

Lemma set_value_live h l v v' q :
  cells h !! l = Some (CNode (MkNode v q)) →
  set_value (Some l) v' h =
    (Done (), Mem (<[l := CNode (MkNode (Some v') q)]> (cells h)) (calls h)).
Proof.
  intros Hl. unfold set_value. erewrite bind_done by by apply load_node_live.
  by eapply store_live.
Qed.

Lemma set_next_null h q : set_next NULL q h = (Undefined NullDeref, h).
Proof. done. Qed.
End accesses.

(** Runs a field access, load, store or free of a live block. *)
Ltac list_step :=
  first
    [ erewrite bind_done by (eapply get_next_live; simplify_map_eq; eauto)
    | erewrite bind_done by (eapply get_value_live; simplify_map_eq; eauto)
    | erewrite bind_done by (eapply set_next_live; simplify_map_eq; eauto)
    | erewrite bind_done by (eapply set_value_live; simplify_map_eq; eauto)
    | mem_step ];
  cbn [cells calls value next] in *.

(** * What the operations do *)

Section specs.
Context {MA : Malloc}.
Implicit Types (h : mem cell) (m : gmap loc cell) (head : loc) (vs : list ptr).

Lemma length_loop_spec h p xs fuel n :
  chain (cells h) p xs → (length xs ≤ fuel)%nat → 0 ≤ n ≤ INT_MAX →
  length_loop fuel p n h =
    if bool_decide (n + Z.of_nat (length xs) ≤ INT_MAX)
    then (Done (n + Z.of_nat (length xs)), h) else (Undefined SignedOverflow, h).
Proof.
  revert p fuel n. induction xs as [|[l v] xs IH]; intros p fuel n Hc Hf Hn.
  { simpl in Hc. subst p. rewrite Z.add_0_r bool_decide_eq_true_2; [lia|].
    by destruct fuel. }
  destruct Hc as (-> & q & Hl & Hq), fuel as [|fuel]; simpl in Hf; [lia|].
  cbn [length_loop length]. unfold int_ok, INT_MIN in *.
  replace (n + Z.of_nat (S (length xs))) with (n + 1 + Z.of_nat (length xs)) by lia.
  case_bool_decide as Hok.
  - list_step. rewrite IH //; lia.
  - rewrite bool_decide_eq_false_2 //. lia.
Qed.

Lemma is_list_size m head p xs :
  m !! head = Some (CNode (MkNode (Some NULL) (Some p))) →
  chain m p xs → NoDup (head :: xs.*1) → (length xs ≤ size m)%nat.
Proof. intros _ Hc [_ Hnd]%NoDup_cons. by eapply chain_size. Qed.

Lemma get_list_length_run h head vs :
  is_list (cells h) head vs →
  get_list_length (Some head) h =
    if bool_decide (Z.of_nat (length vs) ≤ INT_MAX)
    then (Done (Z.of_nat (length vs)), h) else (Undefined SignedOverflow, h).
Proof.
  intros (p & xs & Hh & Hc & Hnd & <-). unfold get_list_length.
  rewrite bool_decide_eq_false_2 //. list_step.
  erewrite bind_done by reflexivity.
  rewrite (length_loop_spec _ _ xs) //; [by eapply is_list_size|].
  by rewrite length_fmap Z.add_0_l.
Qed.

(** Inserting, when malloc returns a block. *)
Lemma insert_nodes h head xs s l :
  list_nodes (cells h) head xs → malloc_pick (calls h) (dom (cells h)) = Some l →
  ∃ m', insert_to_session_list (Some head) s h = (Done (), Mem m' (S (calls h))) ∧
    list_nodes m' head ((l, s) :: xs) ∧ cells h !! l = None ∧
    (∀ k, k ≠ head → k ≠ l → m' !! k = cells h !! k).
Proof.
  intros (p & Hh & Hc & Hnd) Hpick.
  destruct (malloc_cases (CNode (MkNode None None)) h) as [(l' & Hl & Hp & Hm)|[Hp _]];
    [|congruence].
  assert (l' = l) as -> by congruence.
  assert (head ≠ l) by naive_solver.
  assert (l ∉ xs.*1).
  { intros Hin. destruct (chain_node _ _ _ _ Hc Hin). congruence. }
  unfold insert_to_session_list. erewrite bind_done by exact Hm. cbn beta.
  do 3 list_step. eexists. split; [etrans; [eapply set_next_live; simplify_map_eq; eauto|reflexivity]|].
  cbn [cells calls]. rewrite !insert_insert_eq. split_and!; [|done|].
  - exists (Some l). split_and!; [by simplify_map_eq|..].
    + split; [done|]. exists p. split; [by simplify_map_eq|].
      repeat (apply chain_insert_frame; [|set_solver]).
      apply NoDup_cons in Hnd as [? _]. by repeat apply chain_insert_frame.
    + rewrite fmap_cons /=. rewrite !NoDup_cons in Hnd |- *. set_solver.
  - intros k ??. by rewrite !lookup_insert_ne.
Qed.

(** Removing: the loop, when the session is not in the rest of the list. *)
Lemma remove_loop_absent h lp p xs fuel s :
  chain (cells h) p xs → s ∉ xs.*2 → (length xs ≤ fuel)%nat →
  remove_loop fuel lp p s h = (Done (), h).
Proof.
  revert lp p fuel. induction xs as [|[l v] xs IH]; intros lp p fuel Hc Hs Hf.
  { simpl in Hc. subst p. by destruct fuel. }
  destruct Hc as (-> & q & Hl & Hq), fuel as [|fuel]; simpl in Hf; [lia|].
  cbn [remove_loop]. list_step. rewrite fmap_cons /= in Hs.
  rewrite bool_decide_eq_false_2; [set_solver|]. list_step.
  apply IH; [done|set_solver|lia].
Qed.

(** The node that holds the session is unlinked and both blocks are freed. *)
Lemma remove_loop_found h lp vp p pre l ls s post fuel :
  cells h !! lp = Some (CNode (MkNode (Some vp) (Some p))) →
  chain (cells h) p (pre ++ (l, Some ls) :: post) →
  NoDup (lp :: (pre ++ (l, Some ls) :: post).*1) → Some ls ∉ pre.*2 →
  cells h !! ls = Some (CSession s) →
  (length (pre ++ (l, Some ls) :: post) ≤ fuel)%nat →
  ∃ m' p', remove_loop fuel (Some lp) p (Some ls) h = (Done (), Mem m' (calls h)) ∧
    m' !! lp = Some (CNode (MkNode (Some vp) (Some p'))) ∧
    chain m' p' (pre ++ post) ∧ m' !! l = None ∧ m' !! ls = None ∧
    dom m' = dom (cells h) ∖ {[l; ls]} ∧
    (∀ k, k ∉ lp :: l :: ls :: pre.*1 → m' !! k = cells h !! k).
Proof.
  revert lp vp p fuel. induction pre as [|[k v] pre IH]; intros lp vp p fuel Hlp Hc Hnd Hs Hls Hf;
    destruct Hc as (-> & q & Hl & Hq), fuel as [|fuel]; simpl in Hf; try lia;
    cbn [remove_loop]; list_step.
  - rewrite bool_decide_eq_true_2 //. list_step.
    csimpl in Hnd; rewrite !NoDup_cons in Hnd. destruct Hnd as (Hnl & Hnp & Hnd).
    assert (lp ≠ l) by set_solver. assert (ls ≠ lp) by congruence.
    assert (ls ≠ l) by congruence. assert (ls ∉ post.*1) by eauto with mem.
    do 3 list_step. eexists _, q. split; [etrans; [eapply free_live; simplify_map_eq; eauto|reflexivity]|].
    cbn [cells calls]. split_and!; [by simplify_map_eq| |by simplify_map_eq..| |].
    + repeat apply chain_delete_frame; [|set_solver..].
      apply chain_insert_frame; [done|set_solver].
    + rewrite !dom_delete_L dom_insert_lookup_L //. set_solver.
    + intros k Hk. rewrite !lookup_delete_ne ?lookup_insert_ne //; set_solver.
  - rewrite fmap_cons /= in Hs. rewrite bool_decide_eq_false_2; [set_solver|]. list_step.
    csimpl in Hnd; rewrite NoDup_cons in Hnd. destruct Hnd as [Hnk Hnd].
    destruct (IH k v q fuel) as (m' & p' & -> & Hk' & Hc' & Hl' & Hls' & Hdom & Hfr);
      [done..|set_solver|done|lia|].
    exists m', (Some k). split_and!; [done| | |done|done|done|].
    + rewrite Hfr //. rewrite !elem_of_cons.
      rewrite fmap_app in Hnk; csimpl in Hnk. assert (lp ≠ ls) by congruence. set_solver.
    + simpl. split; [done|]. by exists p'.
    + intros j Hj. apply Hfr. csimpl in Hj. rewrite !not_elem_of_cons in Hj |- *. tauto.
Qed.

(** A node whose session was freed before: the second free is undefined. *)
Lemma remove_loop_dead h lp vp p pre l ls post fuel :
  cells h !! lp = Some (CNode (MkNode (Some vp) (Some p))) →
  chain (cells h) p (pre ++ (l, Some ls) :: post) →
  NoDup (lp :: (pre ++ (l, Some ls) :: post).*1) → Some ls ∉ pre.*2 →
  cells h !! ls = None →
  (length (pre ++ (l, Some ls) :: post) ≤ fuel)%nat →
  ∃ h', remove_loop fuel (Some lp) p (Some ls) h = (Undefined BadFree, h').
Proof.
  revert lp vp p fuel. induction pre as [|[k v] pre IH]; intros lp vp p fuel Hlp Hc Hnd Hs Hls Hf;
    destruct Hc as (-> & q & Hl & Hq), fuel as [|fuel]; simpl in Hf; try lia;
    cbn [remove_loop]; list_step; csimpl in Hnd; rewrite !NoDup_cons in Hnd.
  - rewrite bool_decide_eq_true_2 //. list_step.
    assert (lp ≠ l) by set_solver. assert (ls ≠ lp) by congruence.
    do 2 list_step. eexists. erewrite bind_undefined; [done|].
    apply free_dead. cbn [cells]. by rewrite lookup_insert_ne.
  - rewrite fmap_cons /= in Hs. rewrite bool_decide_eq_false_2; [set_solver|]. list_step.
    eapply IH; [done..|rewrite NoDup_cons; tauto|set_solver|done|lia].
Qed.

(** A list split at the first occurrence of an element. *)
Lemma split_first (xs : list (loc * ptr)) s :
  s ∈ xs.*2 → ∃ pre l post, xs = pre ++ (l, s) :: post ∧ s ∉ pre.*2.
Proof.
  induction xs as [|[l v] xs IH]; [set_solver|].
  rewrite fmap_cons elem_of_cons /=. destruct (decide (v = s)) as [->|Hne].
  - intros _. exists [], l, xs. set_solver.
  - intros [?|(pre & k & post & -> & ?)%IH]; [done|].
    exists ((l, v) :: pre), k, post. split; [done|]. set_solver.
Qed.
End specs.

(** * The contract of the list *)

(** Removal of the first occurrence. *)
Fixpoint remove_first (s : ptr) (vs : list ptr) : list ptr :=
  match vs with
  | [] => []
  | v :: vs => if bool_decide (v = s) then vs else v :: remove_first s vs
  end.

Section contract.
Context {MA : Malloc}.
Implicit Types (h : mem cell) (m : gmap loc cell) (head : loc) (vs : list ptr).

Lemma remove_first_split s (pre post : list (loc * ptr)) l :
  s ∉ pre.*2 → remove_first s (pre ++ (l, s) :: post).*2 = (pre ++ post).*2.
Proof.
  induction pre as [|[k v] pre IH]; rewrite ?fmap_cons /=.
  - intros _. by rewrite bool_decide_eq_true_2.
  - intros Hs. rewrite bool_decide_eq_false_2; [set_solver|].
    by rewrite IH; [set_solver|].
Qed.

Lemma remove_first_absent s vs : s ∉ vs → remove_first s vs = vs.
Proof.
  induction vs as [|v vs IH]; intros Hs; simpl; [done|].
  rewrite bool_decide_eq_false_2; [set_solver|]. by rewrite IH; [set_solver|].
Qed.

Lemma remove_first_sublist s vs : remove_first s vs `sublist_of` vs.
Proof.
  induction vs as [|v vs IH]; simpl; [done|]. case_bool_decide.
  - by apply sublist_cons.
  - by apply sublist_skip.
Qed.

Lemma remove_first_gone s vs : NoDup vs → s ∉ remove_first s vs.
Proof.
  induction 1 as [|v vs Hv Hnd IH]; simpl; [set_solver|].
  case_bool_decide as Hvs; [by subst|]. set_solver.
Qed.

(** The node taken out, and what is left. *)
Lemma remove_nodes h head xs s ss :
  list_nodes (cells h) head xs → Some s ∈ xs.*2 → cells h !! s = Some (CSession ss) →
  ∃ m' pre l post, xs = pre ++ (l, Some s) :: post ∧ Some s ∉ pre.*2 ∧
    remove_from_list (Some head) (Some s) h = (Done (), Mem m' (calls h)) ∧
    list_nodes m' head (pre ++ post) ∧ m' !! l = None ∧ m' !! s = None ∧
    dom m' = dom (cells h) ∖ {[l; s]} ∧
    (∀ k, k ∉ head :: l :: s :: pre.*1 → m' !! k = cells h !! k).
Proof.
  intros (p & Hh & Hc & Hnd) Hin Hs.
  destruct (split_first _ _ Hin) as (pre & l & post & -> & Hpre).
  pose proof (is_list_size _ _ _ _ Hh Hc Hnd) as Hsz.
  destruct (remove_loop_found h head NULL p pre l s ss post (walk_fuel h))
    as (m' & p' & Hrun & Hh' & Hc' & Hl' & Hs' & Hdom & Hfr); [done..|].
  exists m', pre, l, post. do 2 (split; [done|]). split; [|split; [|done]].
  - unfold remove_from_list. list_step. by erewrite bind_done by reflexivity.
  - exists p'. split_and!; [done..|]. rewrite fmap_app in Hnd; csimpl in Hnd. rewrite fmap_app.
    eapply sublist_NoDup; [done|]. apply sublist_skip, sublist_app; [done|].
    by apply sublist_cons.
Qed.

Lemma remove_run h head vs s ss :
  is_list (cells h) head vs → Some s ∈ vs → cells h !! s = Some (CSession ss) →
  ∃ m', remove_from_list (Some head) (Some s) h = (Done (), Mem m' (calls h)) ∧
    is_list m' head (remove_first (Some s) vs) ∧ m' !! s = None ∧
    (∃ l, dom m' = dom (cells h) ∖ {[l; s]} ∧ l ≠ s ∧ l ∈ dom (cells h)) ∧
    (∀ k t, k ≠ s → cells h !! k = Some (CSession t) → m' !! k = Some (CSession t)).
Proof.
  intros (p & xs & Hh & Hc & Hnd & <-) Hin Hs.
  destruct (remove_nodes h head xs s ss) as (m' & pre & l & post & -> & Hpre & Hrun & (p' & Hh' & Hc' & Hnd') & _ & Hs' & Hdom & Hfr);
    [by exists p|done..|].
  assert (Hlin : l ∈ (pre ++ (l, Some s) :: post).*1) by (rewrite fmap_app; set_solver).
  destruct (chain_node _ _ _ _ Hc Hlin) as [n Hn].
  exists m'. split_and!; [done| |done| |].
  - exists p', (pre ++ post). split_and!; [done..|by rewrite remove_first_split].
  - exists l. split_and!; [done|congruence|]. by apply elem_of_dom_2 in Hn.
  - intros k t Hk Ht. rewrite Hfr //. pose proof (session_not_node _ _ _ _ _ Hc Ht) as Hkx.
    assert (k ≠ head) by congruence.
    rewrite fmap_app not_elem_of_app fmap_cons not_elem_of_cons in Hkx.
    rewrite !not_elem_of_cons. tauto.
Qed.
End contract.

(** * Clients of the list *)

(** What a client does: it allocates a session and inserts it, removes a
    session, or asks for the length (as list_test.cc does). *)
Inductive op : Type :=
  | OpNew (s : SESSION)
  | OpRemove (p : ptr)
  | OpLength.

(** What it sees: the session's address, nothing, or the length. *)
Inductive reply : Type :=
  | RNew (p : ptr)
  | RRemoved
  | RLength (n : Z).

Section clients.
Context {MA : Malloc}.

Definition run_op (head : ptr) (o : op) : cmd (mem cell) reply :=
  match o with
  | OpNew s => p ← malloc (CSession s); insert_to_session_list head p;; mret (RNew p)
  | OpRemove p => remove_from_list head p;; mret RRemoved
  | OpLength => n ← get_list_length head; mret (RLength n)
  end.

Fixpoint run_ops (head : ptr) (os : list op) : cmd (mem cell) (list reply) :=
  match os with
  | [] => mret []
  | o :: os => r ← run_op head o; rs ← run_ops head os; mret (r :: rs)
  end.

(** The specification: the list is the sequence of the sessions at their addresses, newest
    first. *)
Inductive op_spec : op → list (loc * SESSION) → reply → list (loc * SESSION) → Prop :=
  | spec_new s l vs : l ∉ vs.*1 → op_spec (OpNew s) vs (RNew (Some l)) ((l, s) :: vs)
  | spec_remove p vs : op_spec (OpRemove p) vs RRemoved (filter (λ v, Some v.1 ≠ p) vs)
  | spec_length vs : op_spec OpLength vs (RLength (Z.of_nat (length vs))) vs.

Inductive ops_spec : list op → list (loc * SESSION) → list reply → list (loc * SESSION) → Prop :=
  | specs_nil vs : ops_spec [] vs [] vs
  | specs_cons o os vs r vs' rs vs'' :
      op_spec o vs r vs' → ops_spec os vs' rs vs'' →
      ops_spec (o :: os) vs (r :: rs) vs''.

Lemma chain_grow m p xs l c :
  chain m p xs → m !! l = None → chain (<[l := c]> m) p xs.
Proof.
  intros Hc Hl. apply chain_insert_frame; [done|]. intros Hin.
  destruct (chain_node _ _ _ _ Hc Hin). congruence.
Qed.

Lemma remove_absent_run h head vs p :
  is_list (cells h) head vs → p ∉ vs →
  remove_from_list (Some head) p h = (Done (), h).
Proof.
  intros (q & xs & Hh & Hc & Hnd & <-) Hp. unfold remove_from_list. list_step.
  erewrite bind_done by reflexivity. eapply remove_loop_absent; [done..|].
  by eapply is_list_size.
Qed.

Lemma owns_is_list frame m head vs : owns_list frame m head vs → is_list m head (pointers vs).
Proof. intros (xs & (p & ? & ? & ?) & Hp & _). by exists p, xs. Qed.

Lemma elem_of_pointers l vs : Some l ∈ pointers vs ↔ l ∈ vs.*1.
Proof. unfold pointers. rewrite !list_elem_of_fmap. naive_solver. Qed.

(** The session at an address taken out of a sequence. *)
Lemma pointers_without vs pre post l :
  pre ++ Some l :: post = pointers vs → NoDup vs.*1 →
  ∃ vpre t vpost, vs = vpre ++ (l, t) :: vpost ∧ pre = pointers vpre ∧ post = pointers vpost ∧
    filter (λ v, Some v.1 ≠ Some l) vs = vpre ++ vpost.
Proof.
  intros Hp Hnd. symmetry in Hp. apply fmap_app_inv in Hp as (vpre & v & Hpre & Hv & ->).
  destruct v as [|[j t] vpost]; [done|]. injection Hv as -> ->. exists vpre, t, vpost.
  split_and!; [done..|]. rewrite fmap_app NoDup_app in Hnd. cbn in Hnd. rewrite NoDup_cons in Hnd.
  destruct Hnd as (_ & Hdis & Hl & _). rewrite filter_app filter_cons_False; [by intros []|].
  f_equal; apply filter_all; intros [k u] Hk [= Hkl];
    apply (list_elem_of_fmap_2 fst) in Hk; cbn in Hk, Hkl; rewrite Hkl in Hk; [|done].
  apply (Hdis j); [done|by left].
Qed.

(** A new session, allocated and inserted. *)
Lemma new_op_refines frame h head vs s :
  malloc_total → owns_list frame (cells h) head vs →
  ∃ r h' vs', run_op (Some head) (OpNew s) h = (Done r, h') ∧ op_spec (OpNew s) vs r vs' ∧
    owns_list frame (cells h') head vs'.
Proof.
  intros Hm (xs & Hn & Hp & Hnd & Hs & Hf). unfold run_op.
  destruct (malloc_new (CSession s) h Hm) as (l & Hnew & Hrun).
  erewrite bind_done by exact Hrun. cbn beta.
  assert (Hn' : list_nodes (<[l := CSession s]> (cells h)) head xs).
  { destruct Hn as (q & Hh & Hc & Hx). exists q. split_and!; [|by apply chain_grow|done].
    rewrite lookup_insert_ne //. congruence. }
  set (h1 := Mem (<[l := CSession s]> (cells h)) (S (calls h))) in *.
  destruct (Hm (calls h1) (dom (cells h1))) as [k Hk].
  destruct (insert_nodes h1 head xs (Some l) k Hn' Hk) as (m' & Hins & Hlm & Hk' & Hfr).
  erewrite bind_done by exact Hins. eexists _, _, ((l, s) :: vs).
  split; [done|]. cbn [cells h1] in *.
  assert (Hl : l ∉ vs.*1).
  { intros ([? t] & -> & Ht)%list_elem_of_fmap. rewrite Forall_forall in Hs.
    specialize (Hs _ Ht). cbn in *. congruence. }
  assert (Hkl : k ≠ l) by (intros ->; by rewrite lookup_insert_eq in Hk').
  rewrite lookup_insert_ne // in Hk'.
  assert (Hhead : ∃ n, cells h !! head = Some (CNode n)) by (destruct Hn as (q & ? & _); by eexists).
  assert (Hkeep : ∀ j t, cells h !! j = Some (CSession t) → m' !! j = Some (CSession t)).
  { intros j t Hj. destruct Hhead as [n Hn0]. rewrite Hfr ?lookup_insert_ne //; congruence. }
  split; [by constructor|]. exists ((k, Some l) :: xs). split_and!; [done|by rewrite fmap_cons Hp| | |].
  - by apply NoDup_cons.
  - constructor; [destruct Hhead as [n Hn0]; rewrite Hfr ?lookup_insert_eq //; congruence|].
    eapply Forall_impl; [exact Hs|]. intros [j t] Hj. by apply Hkeep.
  - intros j. rewrite Hf. unfold blocks. csimpl.
    destruct (decide (j ∈ head :: xs.*1 ++ vs.*1)) as [Hj|Hj]; cbn [fst].
    { rewrite decide_True //. set_solver. }
    destruct (decide (j = k)) as [->|Hjk]; [rewrite decide_True //; set_solver|].
    destruct (decide (j = l)) as [->|Hjl]; [rewrite decide_True //; set_solver|].
    rewrite decide_False; [set_solver|]. rewrite Hfr ?lookup_insert_ne //. set_solver.
Qed.

(** Taking out the session at an address that is in the list. *)
Lemma remove_op_refines frame h head vs l :
  owns_list frame (cells h) head vs → l ∈ vs.*1 →
  ∃ h', remove_from_list (Some head) (Some l) h = (Done (), h') ∧
    owns_list frame (cells h') head (filter (λ v, Some v.1 ≠ Some l) vs).
Proof.
  intros (xs & Hn & Hp & Hnd & Hs & Hf) Hl.
  assert (∃ t, cells h !! l = Some (CSession t)) as [t Ht].
  { apply list_elem_of_fmap in Hl as ([? t] & -> & Ht). rewrite Forall_forall in Hs. exists t. by apply Hs in Ht. }
  destruct (remove_nodes h head xs l t Hn) as (m' & pre & k & post & -> & Hpre & Hrun & Hn' & Hk & Hl' & Hdom & Hfr);
    [by rewrite Hp; apply elem_of_pointers|done|].
  rewrite fmap_app fmap_cons in Hp. destruct (pointers_without _ _ _ _ Hp Hnd) as (vpre & t' & vpost & -> & Hp1 & Hp2 & ->).
  destruct Hn as (q & Hh & Hc & Hx). eexists. split; [exact Hrun|].
  assert (Hkeep : ∀ j u, j ≠ l → cells h !! j = Some (CSession u) → m' !! j = Some (CSession u)).
  { intros j u Hj Hu. pose proof (session_not_node _ _ _ _ _ Hc Hu) as Hjx. rewrite Hfr //.
    assert (j ≠ head) by congruence. rewrite fmap_app in Hjx. csimpl in Hjx. set_solver. }
  rewrite fmap_app in Hnd. csimpl in Hnd.
  exists (pre ++ post). split_and!; [done|by rewrite fmap_app Hp1 Hp2 /pointers fmap_app| | |].
  - rewrite fmap_app. eapply sublist_NoDup; [exact Hnd|]. apply sublist_app; [done|by apply sublist_cons].
  - rewrite NoDup_app in Hnd. destruct Hnd as (_ & Hd1 & [Hd2 _]%NoDup_cons).
    rewrite Forall_forall in Hs. apply Forall_forall. intros [j u] Hj. cbn. apply Hkeep.
    + intros ->. apply elem_of_app in Hj as [Hj|Hj]; apply (list_elem_of_fmap_2 fst) in Hj; cbn in Hj; [|done].
      apply (Hd1 l); [done|by left].
    + apply (Hs (j, u)). apply elem_of_app in Hj as [Hj|Hj]; set_solver.
  - intros j. rewrite Hf. unfold blocks. rewrite !fmap_app. cbn [cells]. csimpl.
    destruct (decide (j = k)) as [->|Hjk]; [rewrite decide_True; [set_solver|]; by case_decide|].
    destruct (decide (j = l)) as [->|Hjl]; [rewrite decide_True; [set_solver|]; by case_decide|].
    destruct (decide (j ∈ head :: (pre.*1 ++ post.*1) ++ vpre.*1 ++ vpost.*1)) as [Hj|Hj].
    + rewrite decide_True //. set_solver.
    + rewrite decide_False; [set_solver|]. rewrite Hfr //. set_solver.
Qed.

(** One operation against its specification. *)
Lemma run_op_refines frame h head vs o :
  malloc_total →
  owns_list frame (cells h) head vs → Z.of_nat (length vs) ≤ INT_MAX →
  ∃ r h' vs', run_op (Some head) o h = (Done r, h') ∧ op_spec o vs r vs' ∧
    owns_list frame (cells h') head vs'.
Proof.
  intros Hm Hown Hlen. pose proof (owns_is_list _ _ _ _ Hown) as Hl.
  destruct o as [s|p|]; [by apply new_op_refines| |]; unfold run_op.
  - destruct (decide (p ∈ pointers vs)) as [Hin|Hin].
    + destruct p as [l|]; [|apply list_elem_of_fmap in Hin as (? & ? & _); done].
      destruct (remove_op_refines frame h head vs l Hown) as (h' & Hrun & Hown'); [by apply elem_of_pointers|].
      erewrite bind_done by exact Hrun. eexists _, _, _. split; [done|]. split; [constructor|done].
    + erewrite bind_done by by eapply remove_absent_run.
      eexists _, _, _. split; [done|]. split; [constructor|].
      rewrite filter_all //. intros v Hv Heq. apply Hin, list_elem_of_fmap. by exists v.
  - assert (length (pointers vs) = length vs) as Hpl by apply length_fmap.
    erewrite bind_done;
      [|by rewrite (get_list_length_run _ _ (pointers vs)) // Hpl bool_decide_eq_true_2].
    eexists _, _, _. split; [done|]. split; [constructor|done].
Qed.
End clients.

(** * Properties *)

Section properties.
Context {MA : Malloc}.

Fixpoint news (os : list op) : nat :=
  match os with
  | [] => 0
  | OpNew _ :: os => S (news os)
  | _ :: os => news os
  end.

Lemma op_spec_length o vs r vs' :
  op_spec o vs r vs' → (length vs' ≤ length vs + news [o])%nat.
Proof.
  destruct 1 as [s l vs|p vs|vs]; simpl; [lia| |lia].
  pose proof (length_filter (λ v : loc * SESSION, Some v.1 ≠ p) vs). lia.
Qed.

Lemma news_cons o os : news (o :: os) = (news [o] + news os)%nat.
Proof. by destruct o. Qed.

(** C1. Refinement: every client of list.c (allocate and insert, remove by
    address, ask the length) observes the replies of the abstract sequence of
    sessions, as long as malloc does not fail and the length fits an int; and
    the heap stays the disjoint union of what is beside the list, untouched, and
    of the list itself: the dummy node, one node for each session of the sequence,
    in its order, and the sessions with their contents. So a removal frees the node
    and the session, and nothing leaks. *)
Theorem session_list_refines frame h head vs os :
  malloc_total →
  owns_list frame (cells h) head vs → Z.of_nat (length vs + news os) ≤ INT_MAX →
  ∃ rs h' vs', run_ops (Some head) os h = (Done rs, h') ∧
    ops_spec os vs rs vs' ∧ owns_list frame (cells h') head vs'.
Proof.
  intros Hm. revert h vs. induction os as [|o os IH]; intros h vs Hown Hlen.
  { exists [], h, vs. split_and!; [done|constructor|done..]. }
  rewrite news_cons in Hlen.
  destruct (run_op_refines frame h head vs o) as (r & h1 & vs1 & Hrun & Ho & Hown1); [done..|lia|].
  pose proof (op_spec_length _ _ _ _ Ho).
  destruct (IH h1 vs1) as (rs & h2 & vs2 & Hrun2 & Hos & Hown2); [done|lia|].
  exists (r :: rs), h2, vs2. split_and!; [|by econstructor|done..].
  cbn [run_ops]. erewrite bind_done by exact Hrun.
  by erewrite bind_done by exact Hrun2.
Qed.

(** remove_from_list unlinks the first node that holds the session and
    frees exactly two blocks, that node and the session; every other session
    is untouched, and a session that is not in the list changes nothing. *)
Theorem remove_frees_two h head vs s :
  is_list (cells h) head vs → is_session (cells h) (Some s) →
  (Some s ∈ vs → ∃ m' l,
     remove_from_list (Some head) (Some s) h = (Done (), Mem m' (calls h)) ∧
     is_list m' head (remove_first (Some s) vs) ∧
     l ≠ s ∧ l ∈ dom (cells h) ∧ dom m' = dom (cells h) ∖ {[l; s]} ∧
     (∀ k t, k ≠ s → cells h !! k = Some (CSession t) → m' !! k = Some (CSession t))) ∧
  (Some s ∉ vs → remove_from_list (Some head) (Some s) h = (Done (), h)).
Proof.
  intros Hl (? & ss & [= <-] & Hs). split; [|by apply remove_absent_run].
  intros Hin. destruct (remove_run h head vs s ss) as (m' & ? & ? & ? & (l & ? & ? & ?) & ?);
    [done..|]. exists m', l. by split_and!.
Qed.

(** A session inserted twice is freed twice: remove_from_list frees the
    session but leaves the other node that points to it, and the next removal
    of that session frees it again, which is undefined. *)
Theorem double_insert_double_free h head vs s :
  is_list (cells h) head vs → is_session (cells h) (Some s) →
  Some s ∈ vs → Some s ∈ remove_first (Some s) vs →
  ∃ h', (remove_from_list (Some head) (Some s);; remove_from_list (Some head) (Some s)) h
        = (Undefined BadFree, h').
Proof.
  intros Hl (? & ss & [= <-] & Hs) Hin Hin2.
  destruct (remove_run h head vs s ss) as (m' & Hrun & Hl' & Hgone & _ & _); [done..|].
  erewrite bind_done by exact Hrun.
  destruct Hl' as (p & xs & Hh & Hc & Hnd & Hxs). rewrite -Hxs in Hin2.
  destruct (split_first _ _ Hin2) as (pre & l & post & -> & Hpre).
  unfold remove_from_list. list_step. erewrite bind_done by reflexivity.
  eapply (remove_loop_dead (Mem m' _)); [done..|]. by eapply (is_list_size m').
Qed.

(** get_list_length returns the number of sessions and changes nothing,
    exactly when that number fits an int; past INT_MAX its counter overflows. *)
Theorem get_list_length_counts h head vs :
  is_list (cells h) head vs →
  get_list_length (Some head) h =
    if bool_decide (Z.of_nat (length vs) ≤ INT_MAX)
    then (Done (Z.of_nat (length vs)), h) else (Undefined SignedOverflow, h).
Proof. apply get_list_length_run. Qed.

(** create_session_list ends the process when malloc fails, but
    insert_to_session_list does not test malloc's result: out of memory, it
    stores through NULL. *)
Theorem insert_out_of_memory h head vs s :
  is_list (cells h) head vs →
  malloc_pick (calls h) (dom (cells h)) = NULL →
  create_session_list h = (Exited (-1), Mem (cells h) (S (calls h))) ∧
  insert_to_session_list (Some head) s h =
    (Undefined NullDeref, Mem (cells h) (S (calls h))).
Proof.
  intros (p & xs & Hh & _) Hp.
  assert (Hm : malloc (CNode (MkNode None None)) h = (Done NULL, Mem (cells h) (S (calls h)))).
  { unfold malloc. by rewrite Hp. }
  split.
  - unfold create_session_list. by erewrite bind_done by exact Hm.
  - unfold insert_to_session_list. erewrite bind_done by exact Hm. by list_step.
Qed.
End properties.

(** * Witnesses *)

Section witnesses.

Definition demo_session : SESSION := MkSession 5 NULL NULL 16.

(** A head node at 1 and one session, at 2, held by the node at 3. *)
Definition demo_cells : gmap loc cell :=
  {[ 1%positive := CNode (MkNode (Some NULL) (Some (Some 3%positive)));
     2%positive := CSession demo_session;
     3%positive := CNode (MkNode (Some (Some 2%positive)) (Some NULL)) ]}.

(** The same session held by two nodes. *)
Definition twice_cells : gmap loc cell :=
  <[ 1%positive := CNode (MkNode (Some NULL) (Some (Some 4%positive))) ]>
  (<[ 4%positive := CNode (MkNode (Some (Some 2%positive)) (Some (Some 3%positive))) ]>
     demo_cells).

Lemma demo_is_list : is_list demo_cells 1 [Some 2%positive].
Proof.
  exists (Some 3%positive), [(3%positive, Some 2%positive)].
  split_and!; [done| |vm_decide|done].
  split; [done|]. by exists NULL.
Defined.

Lemma twice_is_list : is_list twice_cells 1 [Some 2%positive; Some 2%positive].
Proof.
  exists (Some 4%positive), [(4%positive, Some 2%positive); (3%positive, Some 2%positive)].
  split_and!; [done| |vm_decide|done].
  split; [done|]. exists (Some 3%positive). split; [done|].
  split; [done|]. by exists NULL.
Defined.

Lemma demo_is_session : is_session demo_cells (Some 2%positive).
Proof. by exists 2%positive, demo_session. Defined.

(** Beside the list there is a block of bytes. *)
Definition demo_frame : gmap loc cell := {[ 9%positive := CBytes [] ]}.

Lemma demo_owns_list : owns_list demo_frame (demo_cells ∪ demo_frame) 1 [(2%positive, demo_session)].
Proof.
  exists [(3%positive, Some 2%positive)]. split_and!; [|done|vm_decide| |].
  - exists (Some 3%positive). split_and!; [done| |vm_decide].
    split; [done|]. by exists NULL.
  - by repeat constructor.
  - intros l. unfold blocks. destruct (decide (l = 9%positive)) as [->|Hl]; [done|].
    rewrite /demo_frame lookup_singleton_ne //.
    case_decide as Hin; [done|]. symmetry. apply lookup_union_None. split; [|by rewrite lookup_singleton_ne].
    cbn in Hin. rewrite !not_elem_of_cons in Hin. unfold demo_cells.
    destruct Hin as (H1 & H3 & H2 & _). by rewrite !lookup_insert_ne ?lookup_singleton_ne.

Defined.

Lemma session_list_refines_witness :
  ∃ rs h' vs',
    run_ops (Some 1%positive) [OpNew demo_session; OpLength; OpRemove (Some 2%positive); OpLength]
      (Mem (demo_cells ∪ demo_frame) 0) = (Done rs, h') ∧
    ops_spec [OpNew demo_session; OpLength; OpRemove (Some 2%positive); OpLength]
      [(2%positive, demo_session)] rs vs' ∧ owns_list demo_frame (cells h') 1 vs'.
Proof.
  apply (session_list_refines demo_frame (Mem (demo_cells ∪ demo_frame) 0)); [|apply demo_owns_list|vm_decide].
  apply bump_malloc_total.
Defined.

Lemma remove_frees_two_witness :
  (Some 2%positive ∈ [Some 2%positive] → ∃ m' l,
     remove_from_list (Some 1%positive) (Some 2%positive) (Mem demo_cells 0) =
       (Done (), Mem m' 0) ∧
     is_list m' 1 [] ∧ l ≠ 2%positive ∧ l ∈ dom demo_cells ∧
     dom m' = dom demo_cells ∖ {[l; 2%positive]} ∧
     (∀ k t, k ≠ 2%positive → demo_cells !! k = Some (CSession t) →
             m' !! k = Some (CSession t))) ∧
  (Some 2%positive ∉ [Some 2%positive] →
     remove_from_list (Some 1%positive) (Some 2%positive) (Mem demo_cells 0) =
       (Done (), Mem demo_cells 0)).
Proof.
  apply (remove_frees_two (Mem demo_cells 0) 1 [Some 2%positive] 2).
  - apply demo_is_list.
  - apply demo_is_session.
Defined.

Lemma double_insert_double_free_witness :
  ∃ h', (remove_from_list (Some 1%positive) (Some 2%positive);;
         remove_from_list (Some 1%positive) (Some 2%positive)) (Mem twice_cells 0)
        = (Undefined BadFree, h').
Proof.
  apply (double_insert_double_free (Mem twice_cells 0) 1 [Some 2%positive; Some 2%positive]).
  - apply twice_is_list.
  - by exists 2%positive, demo_session.
  - vm_decide.
  - vm_decide.
Defined.

Lemma get_list_length_counts_witness :
  get_list_length (Some 1%positive) (Mem demo_cells 0) = (Done 1, Mem demo_cells 0).
Proof. apply (get_list_length_counts (Mem demo_cells 0) 1 [Some 2%positive]), demo_is_list. Defined.

Lemma insert_out_of_memory_witness :
  create_session_list (MA:=limited_malloc 0) (Mem demo_cells 7) =
    (Exited (-1), Mem demo_cells 8) ∧
  insert_to_session_list (MA:=limited_malloc 0) (Some 1%positive) (Some 2%positive)
    (Mem demo_cells 7) = (Undefined NullDeref, Mem demo_cells 8).
Proof.
  apply (insert_out_of_memory (MA:=limited_malloc 0) (Mem demo_cells 7) 1
           [Some 2%positive]); [apply demo_is_list|done].
Defined.

(** The test of list_test.cc: lengths 0, 1, 0. *)
Example operate_list :
  fst ((head ← create_session_list;
   n0 ← get_list_length head;
   p ← malloc (CSession demo_session);
   insert_to_session_list head p;;
   n1 ← get_list_length head;
   remove_from_list head p;;
   n2 ← get_list_length head;
   mret (n0, n1, n2)) empty_mem) = Done (0, 1, 0).
Proof. vm_compute. reflexivity. Qed.
End witnesses.
