(* ===== verification/ListTest.v ===== *)
(** The tests of the session list (src/tftp/list_test.cc): the program of TftpList.v run
    by the assertions of Assertions.v.

    The world of a test holds the heap of the program and what the test was told. The
    body of a TEST is a statement; InitGoogleTest and UnitTest::Run, which are not in the
    headers, are parameters of main. *)

From S2P Require Import Prelude Machine Mem Tuples Printers Assertions TftpList.

(** A test run in which the program's state can be changed. *)
Class ProgramRun (W Pr : Type) `{!TestRun W, !TestRunLaws W Pr} : Type := {
  with_program : Pr → W → W;
  with_program_program p w : run_program (with_program p w) = p;
  with_program_parts p w : run_parts (with_program p w) = run_parts w;
}.

Section tests.
Context {W : Type} `{!TestRun W, !TestRunLaws W (mem cell), !ProgramRun W (mem cell)} {gtest : gtest_library}.
Context {MA : Malloc} {printers : printers_library} {print_int : Streamable Z}.

#[export] Instance ptr_eq : Operator OpEq ptr ptr := λ p q, bool_decide (p = q).
#[export] Instance ptr_ne : Operator OpNe ptr ptr := λ p q, bool_decide (p ≠ q).

(** A call of the program under test. *)
Definition call {A} (m : cmd (mem cell) A) : cmd W A := zoom run_program with_program m.

Definition here (n : Z) : site := Site "list_test.cc" n EmptyString.

(** TEST(list_test, create_session_list). *)
Definition create_session_list_test : statement W :=
  plist ← call create_session_list;
  EXPECT_NE (here 9) "plist" "(SESSION_LIST*)NULL" (mret (plist, (NULL, ()))) ;>
  EXPECT_EQ (here 10) "plist->next" "(SESSION_LIST*)NULL" (n ← call (get_next plist); mret (n, (NULL, ()))) ;>
  EXPECT_EQ (here 11) "plist->value" "(SESSION*)NULL" (v ← call (get_value plist); mret (v, (NULL, ()))).

(** TEST(list_test, operate_list); [s] is what the new session holds before it is
    written. *)
Definition operate_list_test (s : SESSION) : statement W :=
  plist ← call create_session_list;
  ASSERT_EQ (here 17) "0" "get_list_length(plist)" (n ← call (get_list_length plist); mret (0, (n, ()))) ;>
  (psession ← call (malloc (CSession s));
   do_ (call (insert_to_session_list plist psession)) ;>
   ASSERT_EQ (here 21) "1" "get_list_length(plist)" (n ← call (get_list_length plist); mret (1, (n, ()))) ;>
   do_ (call (remove_from_list plist psession)) ;>
   ASSERT_EQ (here 24) "0" "get_list_length(plist)" (n ← call (get_list_length plist); mret (0, (n, ())))).

(** main, with what the tests are registered under. *)
Definition test_main (InitGoogleTest : cmd W unit) (Run : list (string * string * statement W) → cmd W Z)
    (s : SESSION) : cmd W Z :=
  InitGoogleTest;;
  Run [("list_test", "create_session_list", create_session_list_test);
       ("list_test", "operate_list", operate_list_test s)].

(** * Lemmas *)

Context {laws : gtest_laws}.
Implicit Types (w : W) (h : mem cell).

Lemma call_done {A} (m : cmd (mem cell) A) w a h' :
  m (run_program w) = (Done a, h') → call m w = (Done a, with_program h' w).
Proof. intros Hm. unfold call, zoom. by rewrite Hm. Qed.

(** An EXPECT_EQ, EXPECT_NE or ASSERT_EQ that holds. *)
Lemma seq_next (s1 s2 : statement W) w w' : s1 w = (Done Next, w') → (s1 ;> s2) w = s2 w'.
Proof. intros Hs. unfold seq. by rewrite (bind_done _ _ _ _ _ Hs). Qed.

Lemma assert_eq_holds {T} `{!FormatForComparison T T, !Operator OpEq T T} at_ e1 e2 (vals : cmd W (tuple [T; T])) a b w w' :
  vals w = (Done (a, (b, ())), w') → apply_operator (op:=OpEq) a b = true →
  ASSERT_EQ at_ e1 e2 vals w = (Done Next, w') ∧ EXPECT_EQ at_ e1 e2 vals w = (Done Next, w').
Proof.
  intros Hv Hab. split.
  - unfold ASSERT_EQ. by rewrite (eq_statement true at_ e1 e2 a b vals w w' Hv) Hab.
  - unfold EXPECT_EQ. by rewrite (eq_statement false at_ e1 e2 a b vals w w' Hv) Hab.
Qed.

Lemma expect_ne_holds at_ e1 e2 (vals : cmd W (tuple [ptr : Type; ptr : Type])) (a b : ptr) w w' :
  vals w = (Done (a, (b, ())), w') → a ≠ b → EXPECT_NE at_ e1 e2 vals w = (Done Next, w').
Proof.
  intros Hv Hab. unfold EXPECT_NE, macros2. rewrite (pred_format_run false at_ _ _ _ _ _ _ Hv) /=.
  unfold CmpHelperNE, GTEST_IMPL_CMP_HELPER_, apply_operator, ptr_ne.
  by rewrite bool_decide_eq_true_2 // AssertionSuccess_succeeds.
Qed.

(** * The operations the tests use *)

(** The head node of an empty list. *)
Definition empty_head : cell := CNode (MkNode (Some NULL) (Some NULL)).

Lemma create_list_run h :
  malloc_total →
  ∃ l, cells h !! l = None ∧
    create_session_list h = (Done (Some l), Mem (<[l := empty_head]> (cells h)) (S (calls h))).
Proof.
  intros Hm. destruct (malloc_new (CNode (MkNode None None)) h Hm) as (l & Hl & Hrun).
  exists l. split; [done|]. unfold create_session_list. rewrite (bind_done _ _ _ _ _ Hrun).
  rewrite bool_decide_eq_false_2 //. do 2 list_step. by rewrite !insert_insert_eq.
Qed.

Lemma empty_is_list (m : gmap loc cell) l : m !! l = Some empty_head → is_list m l [].
Proof. intros Hl. exists NULL, []. split_and!; [done..|apply NoDup_singleton|done]. Qed.

(** The heap after the insertion of the session at [sl] by the node at [n]. *)
Definition one_session (m : gmap loc cell) (l n sl : loc) (t : SESSION) : gmap loc cell :=
  <[l := CNode (MkNode (Some NULL) (Some (Some n)))]>
  (<[n := CNode (MkNode (Some (Some sl)) (Some NULL))]> (<[sl := CSession t]> m)).

Lemma insert_first h l sl t :
  malloc_total → cells h !! l = Some empty_head → cells h !! sl = Some (CSession t) →
  ∃ n, cells h !! n = None ∧
    insert_to_session_list (Some l) (Some sl) h =
      (Done (), Mem (one_session (cells h) l n sl t) (S (calls h))).
Proof.
  intros Hm Hl Hs. destruct (malloc_new (CNode (MkNode None None)) h Hm) as (n & Hn & Hrun).
  exists n. split; [done|]. assert (n ≠ l) by congruence.
  unfold insert_to_session_list. rewrite (bind_done _ _ _ _ _ Hrun). do 3 list_step.
  etrans; [eapply set_next_live; simplify_map_eq; eauto|]. cbn [cells calls].
  rewrite !insert_insert_eq. unfold one_session. by rewrite (insert_id (cells h) sl).
Qed.

Lemma one_session_list m l n sl t :
  l ≠ n → l ≠ sl → n ≠ sl → is_list (one_session m l n sl t) l [Some sl].
Proof.
  intros ???. unfold one_session. exists (Some n), [(n, Some sl)].
  split_and!; [by simplify_map_eq| |by rewrite NoDup_cons; set_solver by (eauto using NoDup_singleton)|done].
  split; [done|]. exists NULL. by simplify_map_eq.
Qed.

(** Removing it again leaves the empty list. *)
Lemma remove_only h l n sl t :
  cells h !! n = None → cells h !! sl = Some (CSession t) → cells h !! l = Some empty_head →
  ∀ c, remove_from_list (Some l) (Some sl) (Mem (one_session (cells h) l n sl t) c) =
    (Done (), Mem (delete sl (cells h)) c).
Proof.
  unfold empty_head. intros Hn Hs Hl c. assert (l ≠ n ∧ l ≠ sl ∧ n ≠ sl) as (? & ? & ?) by (split_and!; naive_solver).
  unfold remove_from_list, one_session. list_step. erewrite bind_done by reflexivity.
  destruct (walk_fuel _) as [|fuel] eqn:Hf.
  { apply map_size_empty_inv in Hf. cbn in Hf. by apply insert_non_empty in Hf. }
  cbn [remove_loop]. list_step. rewrite bool_decide_eq_true_2 //. do 4 list_step.
  etrans; [eapply free_live; simplify_map_eq; eauto|]. cbn [cells calls]. do 2 f_equal.
  apply map_eq. intros k.
  destruct (decide (k = l)) as [->|]; [by simplify_map_eq|].
  destruct (decide (k = n)) as [->|]; [by simplify_map_eq|].
  destruct (decide (k = sl)) as [->|]; by simplify_map_eq.
Qed.

(** The test has been told what it had been at [w0], and the heap is [h]. *)
Definition state_at (w0 : W) h w : Prop := run_parts w = run_parts w0 ∧ run_program w = h.

Lemma call_step {A} (m : cmd (mem cell) A) w0 h w a h' :
  state_at w0 h w → m h = (Done a, h') → ∃ w', call m w = (Done a, w') ∧ state_at w0 h' w'.
Proof.
  intros [Hp Hh] Hm. exists (with_program h' w). split; [apply call_done; by rewrite Hh|].
  split; [by rewrite with_program_parts|apply with_program_program].
Qed.

(** An equality of a value with the result of a call, that holds. *)
Lemma equal_step {T} `{!FormatForComparison T T, !Operator OpEq T T} at_ e1 e2 (m : cmd (mem cell) T)
    (vals : T → tuple [T; T]) a b c w0 h w h' :
  state_at w0 h w → m h = (Done a, h') → vals a = (b, (c, ())) → apply_operator (op:=OpEq) b c = true →
  ∃ w', ASSERT_EQ at_ e1 e2 (n ← call m; mret (vals n)) w = (Done Next, w') ∧
        EXPECT_EQ at_ e1 e2 (n ← call m; mret (vals n)) w = (Done Next, w') ∧ state_at w0 h' w'.
Proof.
  intros Hw Hm Hv Hab. destruct (call_step m w0 h w a h' Hw Hm) as (w' & Hc & Hw'). exists w'.
  destruct (assert_eq_holds at_ e1 e2 (n ← call m; mret (vals n)) b c w w') as [H1 H2]; [|done|done].
  rewrite (bind_done _ _ _ _ _ Hc). by rewrite Hv.
Qed.

Lemma create_test_passes w :
  malloc_total →
  ∃ l w', create_session_list_test w = (Done Next, w') ∧ cells (run_program w) !! l = None ∧
    state_at w (Mem (<[l := empty_head]> (cells (run_program w))) (S (calls (run_program w)))) w'.
Proof.
  intros Hm. destruct (create_list_run (run_program w) Hm) as (l & Hl & Hc). exists l.
  destruct (call_step _ w _ w _ _ (conj eq_refl eq_refl) Hc) as (w1 & R1 & Hs1).
  set (h1 := Mem _ _) in Hs1.
  assert (cells h1 !! l = Some empty_head) as Hl1 by (cbn; by simplify_map_eq).
  destruct (equal_step (here 10) "plist->next" "(SESSION_LIST*)NULL" (get_next (Some l)) (λ n, (n, (NULL, ())))
    NULL NULL NULL w h1 w1 h1 Hs1) as (w2 & _ & R2 & Hs2); [by eapply get_next_live|done..|].
  destruct (equal_step (here 11) "plist->value" "(SESSION*)NULL" (get_value (Some l)) (λ v, (v, (NULL, ())))
    NULL NULL NULL w h1 w2 h1 Hs2) as (w3 & _ & R3 & Hs3); [by eapply get_value_live|done..|].
  exists w3. split_and!; [|done|done]. unfold create_session_list_test.
  rewrite (bind_done _ _ _ _ _ R1).
  rewrite (seq_next _ _ _ w1); [by apply (expect_ne_holds _ _ _ _ (Some l) NULL)|].
  by rewrite (seq_next _ _ _ _ R2).
Qed.

Lemma operate_test_passes (s : SESSION) w :
  malloc_total →
  ∃ l w', operate_list_test s w = (Done Next, w') ∧ cells (run_program w) !! l = None ∧
    run_parts w' = run_parts w ∧ cells (run_program w') = <[l := empty_head]> (cells (run_program w)).
Proof.
  intros Hm. destruct (create_list_run (run_program w) Hm) as (l & Hl & Hc). exists l.
  destruct (call_step _ w _ w _ _ (conj eq_refl eq_refl) Hc) as (w1 & R1 & Hs1). set (h1 := Mem _ _) in Hs1.
  assert (cells h1 !! l = Some empty_head) as Hl1 by (cbn; by simplify_map_eq).
  destruct (equal_step (here 17) "0" "get_list_length(plist)" (get_list_length (Some l)) (λ n, (0, (n, ())))
    0 0 0 w h1 w1 h1 Hs1) as (w2 & R2 & _ & Hs2);
    [by rewrite (get_list_length_run _ _ [] (empty_is_list _ _ Hl1))|done..|].
  destruct (malloc_new (CSession s) h1 Hm) as (sl & Hsl & Hms).
  destruct (call_step _ w _ w2 _ _ Hs2 Hms) as (w3 & R3 & Hs3). set (h3 := Mem _ _) in Hs3.
  assert (l ≠ sl) by congruence.
  assert (cells h3 !! l = Some empty_head ∧ cells h3 !! sl = Some (CSession s)) as [Hl3 Hsl3]
    by (cbn [h3 cells] in *; by simplify_map_eq).
  destruct (insert_first h3 l sl s Hm Hl3 Hsl3) as (n & Hn & Hins).
  destruct (call_step _ w _ w3 _ _ Hs3 Hins) as (w4 & R4 & Hs4). set (h4 := Mem (one_session _ _ _ _ _) _) in Hs4.
  assert (l ≠ n ∧ n ≠ sl) as [? ?] by (split; congruence).
  destruct (equal_step (here 21) "1" "get_list_length(plist)" (get_list_length (Some l)) (λ n, (1, (n, ())))
    1 1 1 w h4 w4 h4 Hs4) as (w5 & R5 & _ & Hs5);
    [by rewrite (get_list_length_run h4 _ _ (one_session_list (cells h3) l n sl s _ _ _))|done..|].
  pose proof (remove_only h3 l n sl s Hn Hsl3 Hl3 (S (calls h3))) as Hrem.
  destruct (call_step _ w _ w5 _ _ Hs5 Hrem) as (w6 & R6 & Hs6). set (h6 := Mem (delete _ _) _) in Hs6.
  assert (cells h6 = cells h1) as Hh6 by (cbn [h6 h3 cells]; by rewrite delete_insert_id).
  assert (cells h6 !! l = Some empty_head) as Hl6 by by rewrite Hh6.
  destruct (equal_step (here 24) "0" "get_list_length(plist)" (get_list_length (Some l)) (λ n, (0, (n, ())))
    0 0 0 w h6 w6 h6 Hs6) as (w7 & R7 & _ & Hp7 & Hr7);
    [by rewrite (get_list_length_run _ _ [] (empty_is_list _ _ Hl6))|done..|].
  exists w7. split_and!; [|done|done|by rewrite Hr7 Hh6]. unfold operate_list_test, do_.
  rewrite (bind_done _ _ _ _ _ R1) (seq_next _ _ _ _ R2) (bind_done _ _ _ _ _ R3).
  rewrite (seq_next _ _ _ w4); [by rewrite (bind_done _ _ _ _ _ R4)|].
  rewrite (seq_next _ _ _ _ R5) (seq_next _ _ _ w6); [by rewrite (bind_done _ _ _ _ _ R6)|]. done.
Qed.

(** C10. The tests of list_test.cc pass on any heap, as long as malloc does not fail: every
    assertion holds, so the test is told of nothing, and the bodies run to their end; each
    leaves the head node of its list behind and everything else as it was. *)
Theorem list_tests_pass (s : SESSION) w :
  malloc_total →
  (∃ l w', create_session_list_test w = (Done Next, w') ∧ cells (run_program w) !! l = None ∧
     run_parts w' = run_parts w ∧ cells (run_program w') = <[l := empty_head]> (cells (run_program w))) ∧
  (∃ l w', operate_list_test s w = (Done Next, w') ∧ cells (run_program w) !! l = None ∧
     run_parts w' = run_parts w ∧ cells (run_program w') = <[l := empty_head]> (cells (run_program w))).
Proof.
  intros Hm. split; [|by apply operate_test_passes].
  destruct (create_test_passes w Hm) as (l & w' & Ht & Hl & Hp & Hr). exists l, w'.
  split_and!; [done..|]. by rewrite Hr.
Qed.
End tests.

(** * A sample *)

#[export, refine] Instance sample_program_run Pr : ProgramRun (sample_run Pr) Pr :=
  { with_program p w := SampleRun p (sample_parts w) }.
Proof. all: done. Defined.

Lemma list_tests_pass_witness :
  let w := SampleRun (Mem (V:=cell) ∅ 0) [] in
  let print_int : Streamable Z := λ _, "n" in
  ∃ l w', operate_list_test (gtest:=sample_gtest) demo_session w = (Done Next, w') ∧
    sample_parts w' = [] ∧ cells (sample_program w') = {[ l := empty_head ]}.
Proof.
  intros w print_int.
  destruct (list_tests_pass (gtest:=sample_gtest) (laws:=sample_gtest_laws) (printers:=sample_texts) demo_session w bump_malloc_total)
    as [_ (l & w' & Ht & _ & Hp & Hc)].
  by exists l, w'.
Defined.
