(* ===== verification/TftpServer.v ===== *)
(** The TFTP server (src/tftp/tftp_server.c): packet building and parsing, the
    read-request and acknowledgement handlers, and the epoll loop of main.

    The operating system is an interface: [Os] gives the files fopen can open,
    the socket and directory calls, and epoll's interest list with the law of
    its documentation that a registered descriptor cannot be added again.
    stdio streams are modelled here: a stream is the file's bytes and a
    position. *)

From S2P Require Import Prelude Machine Mem TftpList.

(** * Constants *)

Definition PORT : Z := 69.
Definition RRQ : Z := 1.
Definition WRQ : Z := 2.
Definition DATA : Z := 3.
Definition ACK : Z := 4.
Definition ERROR : Z := 5.
Definition BUF_SIZE : nat := 600.
Definition EXIT_FAILURE : Z := 1.
Definition MAX_EVENTS : nat := 10.

(** * The operating system *)

Class Os : Type := {
  (** the bytes of the file of this name, if it can be opened for reading *)
  os_file : list Z → option (list Z);
  (** the result of the [n]-th call of socket() *)
  os_socket : nat → Z;
  (** get_current_dir_name() *)
  os_cwd : option (list Z);
  (** whether bind() and epoll_create1() succeed *)
  os_bind : bool;
  os_epoll_create : bool;
  (** epoll instances: the interest list, EPOLL_CTL_ADD, None for an error *)
  epoll : Type;
  epoll_new : epoll;
  epoll_has : epoll → Z → bool;
  epoll_add : epoll → Z → option epoll;
  (** EEXIST: the descriptor is already registered *)
  epoll_add_twice e fd : epoll_has e fd = true → epoll_add e fd = None;
  epoll_add_has e fd e' : epoll_add e fd = Some e' → epoll_has e' fd = true;
}.

(** * State *)

(** An open stream: the file's bytes and the position of the next read. *)
Record FILE : Type := MkFile { f_data : list Z; f_pos : Z }.

(** The lines the handlers print. *)
Inductive line : Type :=
  | WarnRequest (req : Z)
  | RrqName (name : list Z) (len : Z)
  | RrqMode (mode : list Z)
  | OpenError (name cwd : list Z)
  | Fclose
  | GotData (seq : Z)
  | GotAck (seq : Z)
  | GotError (code : Z) (msg : list Z)
  | UnknownRequest (req : Z)
  | Perror (msg : string).

(** A datagram handed to sendto: socket, bytes, destination. *)
Record datagram : Type := Datagram { dg_fd : Z; dg_bytes : list Z; dg_addr : list Z }.

Record server : Type := MkServer {
  heap : mem cell;              (* malloc'ed sessions and addresses *)
  file : ptr;                   (* the global FILE *file *)
  streams : gmap loc FILE;      (* open streams, by FILE * *)
  sockets : nat;                (* calls of socket() so far *)
  stdout : list line;
  sent : list datagram;
}.

Definition set_heap (h : mem cell) (s : server) : server :=
  MkServer h (file s) (streams s) (sockets s) (stdout s) (sent s).
Definition set_file (f : ptr) (s : server) : server :=
  MkServer (heap s) f (streams s) (sockets s) (stdout s) (sent s).
Definition set_streams (m : gmap loc FILE) (s : server) : server :=
  MkServer (heap s) (file s) m (sockets s) (stdout s) (sent s).
Definition set_sockets (n : nat) (s : server) : server :=
  MkServer (heap s) (file s) (streams s) n (stdout s) (sent s).
Definition add_line (l : line) (s : server) : server :=
  MkServer (heap s) (file s) (streams s) (sockets s) (stdout s ++ [l]) (sent s).
Definition add_sent (d : datagram) (s : server) : server :=
  MkServer (heap s) (file s) (streams s) (sockets s) (stdout s) (sent s ++ [d]).

Definition on_heap {A} (m : cmd (mem cell) A) : cmd server A := zoom heap set_heap m.
Definition printf (l : line) : cmd server unit := modify (add_line l).

(** * The stdio and string functions the server calls *)

(** The characters of the string at [b + i], up to its terminator. *)
Fixpoint c_string (b : list Z) : option (list Z) :=
  match b with
  | [] => None
  | c :: b => if bool_decide (c = 0) then Some [] else cons c <$> c_string b
  end.

Section server.
Context {MA : Malloc} {OS : Os}.

Definition fopen (name : list Z) : cmd server ptr := λ s,
  match os_file name with
  | None => (Done NULL, s)
  | Some d =>
    let f := fresh (dom (streams s)) in
    (Done (Some f), set_streams (<[f := MkFile d 0]> (streams s)) s)
  end.

Definition stream (f : ptr) : cmd server FILE := λ s,
  match f with
  | None => (Undefined NullDeref, s)
  | Some l => match streams s !! l with
              | Some st => (Done st, s)
              | None => (Undefined Dangling, s)
              end
  end.

Definition set_stream (f : ptr) (st : FILE) : cmd server unit := λ s,
  match f with
  | None => (Undefined NullDeref, s)
  | Some l => (Done (), set_streams (<[l := st]> (streams s)) s)
  end.

(** fread(buf, 1, n, f): the bytes read; the position moves past them. *)
Definition fread (n : nat) (f : ptr) : cmd server (list Z) :=
  st ← stream f;
  let d := take n (drop (Z.to_nat (f_pos st)) (f_data st)) in
  set_stream f (MkFile (f_data st) (f_pos st + Z.of_nat (length d)));;
  mret d.

(** fseek(f, off, SEEK_SET): a negative offset is an error that moves nothing. *)
Definition fseek (f : ptr) (off : Z) : cmd server Z :=
  st ← stream f;
  if bool_decide (off < 0) then mret (-1)
  else set_stream f (MkFile (f_data st) off);; mret 0.

Definition fclose (f : ptr) : cmd server unit :=
  _ ← stream f;
  modify (λ s, match f with
               | Some l => set_streams (delete l (streams s)) s
               | None => s
               end).

Definition socket : cmd server Z :=
  n ← gets sockets; modify (set_sockets (S n));; mret (os_socket n).

(** The 16-bit object at [b + i]. *)
Definition load16_at {S} (b : list Z) (i : Z) : cmd S Z :=
  b0 ← or_ub OutOfBounds (rd b i);
  b1 ← or_ub OutOfBounds (rd b (i + 1));
  mret (load16 b0 b1).

(** * tftp_server.c *)

Definition send_error (error_code : Z) (error_msg : list Z) : cmd server unit := mret ().

(** The packet written to [dst_buf] and its length. *)
Definition make_data (dst_buf : list Z) (block : Z) (src_data_buf : list Z) (data_len : Z)
    : cmd server (list Z * Z) :=
  let index := 0 in
  let opcode := s16 (htons DATA) in
  dst_buf ← or_ub OutOfBounds (wr_range dst_buf index (bytes16 opcode));
  let index := index + 2 in
  let net_block := s16 (htons block) in
  dst_buf ← or_ub OutOfBounds (wr_range dst_buf index (bytes16 net_block));
  let index := index + 2 in
  src ← or_ub OutOfBounds (rd_range src_data_buf 0 data_len);
  dst_buf ← or_ub OutOfBounds (wr_range dst_buf index src);
  let index := index + data_len in
  mret (dst_buf, index).

(** An assignment to fields of [*sess]. *)
Definition set_session (sess : ptr) (f : SESSION → SESSION) : cmd (mem cell) unit :=
  c ← load sess;
  match c with CSession s => store sess (CSession (f s)) | _ => undefined Dangling end.

Definition load_session (sess : ptr) : cmd (mem cell) SESSION :=
  c ← load sess;
  match c with CSession s => mret s | _ => undefined Dangling end.

Definition load_bytes (p : ptr) : cmd (mem cell) (list Z) :=
  c ← load p;
  match c with CBytes b => mret b | _ => undefined Dangling end.

(** malloc's blocks hold zeros until the assignments that follow fill them. *)
Definition create_new_session (file : ptr) (addr : list Z) (addr_len : Z)
    : cmd server ptr :=
  sess ← on_heap (malloc (CSession (MkSession 0 NULL NULL 0)));
  fd ← socket;
  on_heap (set_session sess (λ s, MkSession fd (pFile s) (cli_addr s) (cli_addr_len s)));;
  on_heap (set_session sess (λ s, MkSession (sock_fd s) file (cli_addr s) (cli_addr_len s)));;
  p ← on_heap (malloc (CBytes (zeros (Z.to_nat addr_len))));
  on_heap (set_session sess (λ s, MkSession (sock_fd s) (pFile s) p (cli_addr_len s)));;
  s ← on_heap (load_session sess);
  b ← on_heap (load_bytes (cli_addr s));
  a ← or_ub OutOfBounds (rd_range addr 0 addr_len);
  b ← or_ub OutOfBounds (wr_range b 0 a);
  on_heap (store (cli_addr s) (CBytes b));;
  on_heap (set_session sess (λ s, MkSession (sock_fd s) (pFile s) (cli_addr s) addr_len));;
  mret sess.

Definition free_session (sess : ptr) : cmd server unit :=
  if bool_decide (sess = NULL) then mret () else
  s ← on_heap (load_session sess);
  on_heap (free (cli_addr s));;
  on_heap (free sess).

(** while( *pIndex != 0) *pDst++ = *pIndex++;  the index it stops at and [dst]. *)
Fixpoint copy_loop (fuel : nat) (in_buf : list Z) (pIndex : Z) (dst : list Z) (pDst : Z)
    : cmd server (Z * list Z) :=
  c ← or_ub OutOfBounds (rd in_buf pIndex);
  if bool_decide (c = 0) then mret (pIndex, dst) else
  match fuel with
  | O => unfinished
  | S fuel =>
    dst ← or_ub OutOfBounds (wr dst pDst c);
    copy_loop fuel in_buf (pIndex + 1) dst (pDst + 1)
  end.

(** sendto(sess->sock_fd, out_buf, len, 0, sess->cli_addr, ...). *)
Definition sendto (fd : Z) (buf : list Z) (len : Z) (addr : list Z) : cmd server unit :=
  b ← or_ub OutOfBounds (rd_range buf 0 len);
  modify (add_sent (Datagram fd b addr)).

(** The second half of handle_RRQ: open the file and send its first block. *)
Definition send_first_block (addr : list Z) (addr_len : Z) (file_name : list Z)
    : cmd server ptr :=
  f ← fopen file_name;
  modify (set_file f);;
  if bool_decide (f = NULL) then
    path ← or_ub NullDeref os_cwd;
    printf (OpenError file_name path);;
    mret NULL
  else
  d ← fread 512 f;
  let read_len := Z.of_nat (length d) in
  let buf := d ++ zeros (512 - length d) in
  '(out_buf, len) ← make_data (zeros 512) 1 buf read_len;
  sess ← create_new_session f addr addr_len;
  s ← on_heap (load_session sess);
  a ← on_heap (load_bytes (cli_addr s));
  sendto (sock_fd s) out_buf len a;;
  mret sess.

Definition handle_RRQ (addr : list Z) (addr_len : Z) (in_buf : list Z) : cmd server ptr :=
  let fuel := length in_buf in
  '(pIndex, file_name) ← copy_loop fuel in_buf 2 (zeros 512) 0;
  let pIndex := pIndex + 1 in
  '(_, mode) ← copy_loop fuel in_buf pIndex (zeros 512) 0;
  file_name ← or_ub OutOfBounds (c_string file_name);
  printf (RrqName file_name (Z.of_nat (length file_name)));;
  mode ← or_ub OutOfBounds (c_string mode);
  printf (RrqMode mode);;
  send_first_block addr addr_len file_name.

Definition handle_WRQ (in_buf : list Z) : cmd server Z := mret 0.

(** The switch falls through from RRQ to WRQ. *)
Definition handle_new_connection (addr : list Z) (addr_len : Z) (in_buf : list Z)
    : cmd server ptr :=
  w ← load16_at in_buf 0;
  let req := ntohs w in
  if bool_decide (req = RRQ) then
    sess ← handle_RRQ addr addr_len in_buf;
    _ ← handle_WRQ in_buf;
    mret sess
  else if bool_decide (req = WRQ) then
    _ ← handle_WRQ in_buf;
    mret NULL
  else
    printf (WarnRequest req);;
    mret NULL.

(** The length of the packet, and [out_buf] after it. *)
Definition handle_ACK (in_buf out_buf : list Z) : cmd server (Z * list Z) :=
  f ← gets file;
  if bool_decide (f = NULL) then mret (0, out_buf) else
  w ← load16_at in_buf 2;
  let block := s16 (ntohs (s16 w)) in
  _ ← fseek f (512 * block);
  d ← fread 512 f;
  let read_len := Z.of_nat (length d) in
  let buf := d ++ zeros (512 - length d) in
  when (bool_decide (read_len < 512))
    (printf Fclose;; fclose f;; modify (set_file NULL));;
  '(out_buf, len) ← make_data out_buf (s16 (block + 1)) buf read_len;
  mret (len, out_buf).

Definition handle_req (addr : list Z) (addr_len : Z) (in_buf out_buf : list Z)
    : cmd server (Z * list Z) :=
  w ← load16_at in_buf 0;
  let req := ntohs w in
  if bool_decide (req = DATA) then
    v ← load16_at in_buf 1;
    printf (GotData (s16 (htons v)));;
    mret (0, out_buf)
  else if bool_decide (req = ACK) then
    v ← load16_at in_buf 1;
    '(index, out_buf) ← handle_ACK in_buf out_buf;
    printf (GotAck (s16 (htons v)));;
    mret (index, out_buf)
  else if bool_decide (req = ERROR) then
    v ← load16_at in_buf 1;
    msg ← or_ub OutOfBounds (c_string (drop 3 in_buf));
    printf (GotError (htons v) msg);;
    mret (0, out_buf)
  else
    printf (UnknownRequest req);;
    mret (0, out_buf).
End server.

(** * main *)

Section main.
Context {MA : Malloc} {OS : Os}.

(** What recvfrom delivers: an error, or the sender's address and the bytes. *)
Definition recv : Type := option (list Z * list Z).

(** The variables of main, and what the rest of the world will do: the
    descriptors each epoll_wait reports (None for an error) and what each
    recvfrom delivers. *)
Record world : Type := MkWorld {
  srv : server;
  in_buf : list Z;
  out_buf : list Z;
  cliaddr : list Z;
  len : Z;
  interest : epoll;
  waits : list (option (list Z));
  grams : list recv;
}.

Definition set_srv (s : server) (w : world) : world :=
  MkWorld s (in_buf w) (out_buf w) (cliaddr w) (len w) (interest w) (waits w) (grams w).
Definition set_interest (e : epoll) (w : world) : world :=
  MkWorld (srv w) (in_buf w) (out_buf w) (cliaddr w) (len w) e (waits w) (grams w).
Definition set_waits (ws : list (option (list Z))) (w : world) : world :=
  MkWorld (srv w) (in_buf w) (out_buf w) (cliaddr w) (len w) (interest w) ws (grams w).
Definition set_received (b a : list Z) (n : Z) (gs : list recv) (w : world) : world :=
  MkWorld (srv w) b (out_buf w) a n (interest w) (waits w) gs.

Definition on_srv {A} (m : cmd server A) : cmd world A := zoom srv set_srv m.

(** Copies as much of [d] over the front of [b] as fits in the first [n] bytes. *)
Definition overwrite (n : nat) (d b : list Z) : list Z :=
  take n d ++ drop (length (take n d)) b.

(** recvfrom(serverfd, in_buf, sizeof(in_buf), 0, &cliaddr, &len): only the
    bytes of the datagram change, the rest of [in_buf] keeps its old bytes. *)
Definition recvfrom : cmd world Z := λ w,
  match grams w with
  | [] => (Done (-1), w)
  | None :: gs => (Done (-1), set_received (in_buf w) (cliaddr w) (len w) gs w)
  | Some (a, d) :: gs =>
    (Done (Z.of_nat (length (take (length (in_buf w)) d))),
     set_received (overwrite (length (in_buf w)) d (in_buf w))
       (overwrite (Z.to_nat (len w)) a (cliaddr w)) (Z.of_nat (length a)) gs w)
  end.

Definition epoll_wait : cmd world (option (list Z)) := λ w,
  match waits w with
  | [] => (Unfinished, w)
  | r :: ws => (Done (take MAX_EVENTS <$> r), set_waits ws w)
  end.

(** epoll_ctl(epollfd, EPOLL_CTL_ADD, fd, &ev): 0, or -1. *)
Definition epoll_ctl_add (fd : Z) : cmd world Z := λ w,
  match epoll_add (interest w) fd with
  | Some e => (Done 0, set_interest e w)
  | None => (Done (-1), w)
  end.

Definition perror_exit {A} (msg : string) : cmd world A :=
  on_srv (printf (Perror msg));; exit EXIT_FAILURE.

(** The body of the loop over the reported events. *)
Definition handle_event (serverfd fd : Z) : cmd world unit :=
  if bool_decide (fd = serverfd) then
    _ ← recvfrom;
    w ← get;
    sess ← on_srv (handle_new_connection (cliaddr w) (len w) (in_buf w));
    if bool_decide (sess ≠ NULL) then
      _ ← on_srv (on_heap (load_session sess));
      r ← epoll_ctl_add serverfd;
      if bool_decide (r ≠ 0) then perror_exit "epoll_ctl: server fd" else mret ()
    else mret ()
  else mret ().

Fixpoint handle_events (serverfd : Z) (fds : list Z) : cmd world unit :=
  match fds with
  | [] => mret ()
  | fd :: fds => handle_event serverfd fd;; handle_events serverfd fds
  end.

(** for (;;): one turn for each epoll_wait that returns. *)
Fixpoint main_loop (fuel : nat) (serverfd : Z) : cmd world unit :=
  match fuel with
  | O => unfinished
  | S fuel =>
    nfds ← epoll_wait;
    match nfds with
    | None => perror_exit "epoll_wait"
    | Some fds => handle_events serverfd fds;; main_loop fuel serverfd
    end
  end.

Definition tftp_main : cmd world unit :=
  serverfd ← on_srv socket;
  if bool_decide (serverfd < 0) then perror_exit "create socket error" else
  if negb os_bind then perror_exit "bind error" else
  if negb os_epoll_create then perror_exit "epoll_create1" else
  r ← epoll_ctl_add serverfd;
  if bool_decide (r ≠ 0) then perror_exit "epoll_ctl: server fd" else
  w ← get;
  main_loop (S (length (waits w))) serverfd.
End main.

(** * Packets *)

(** The DATA packet of RFC 1350: opcode 3, block number, payload. *)
Definition data_packet (block : Z) (d : list Z) : list Z :=
  [0; 3; u16 block `div` 256; u16 block `mod` 256] ++ d.

(** The read request: opcode 1, file name, mode, each NUL-terminated. *)
Definition rrq_packet (name mode : list Z) : list Z :=
  [0; 1] ++ name ++ [0] ++ mode ++ [0].

(** The acknowledgement: opcode 4, block number. *)
Definition ack_packet (block : Z) : list Z :=
  [0; 4; u16 block `div` 256; u16 block `mod` 256].

Definition no_nul (b : list Z) : Prop := Forall (λ c, c ≠ 0) b.

#[export] Instance no_nul_dec b : Decision (no_nul b).
Proof. unfold no_nul. apply _. Defined.

Lemma bytes16_s16 z : bytes16 (s16 z) = bytes16 z.
Proof. unfold bytes16. by rewrite u16_s16. Qed.

Lemma length_data_packet block d : length (data_packet block d) = (4 + length d)%nat.
Proof. done. Qed.

Section packets.
Context {MA : Malloc} {OS : Os}.
Implicit Types (s : server) (d : list Z).

Lemma wr_header_0 (x0 x1 x2 x3 a b : Z) dst :
  wr_range (x0 :: x1 :: x2 :: x3 :: dst) 0 [a; b] = Some (a :: b :: x2 :: x3 :: dst).
Proof. unfold wr_range. by rewrite bool_decide_eq_true_2; [simpl; lia|]. Qed.

Lemma wr_header_2 (x0 x1 x2 x3 a b : Z) dst :
  wr_range (x0 :: x1 :: x2 :: x3 :: dst) 2 [a; b] = Some (x0 :: x1 :: a :: b :: dst).
Proof. unfold wr_range. by rewrite bool_decide_eq_true_2; [simpl; lia|]. Qed.

Lemma wr_payload (x0 x1 x2 x3 : Z) dst d :
  wr_range (x0 :: x1 :: x2 :: x3 :: dst) 4 d =
    if bool_decide (length d ≤ length dst)%nat
    then Some (x0 :: x1 :: x2 :: x3 :: d ++ drop (length d) dst) else None.
Proof.
  unfold wr_range. rewrite (bool_decide_ext _ (length d ≤ length dst)%nat) //.
  simpl. lia.
Qed.

Lemma rd_front d pad : rd_range (d ++ pad) 0 (Z.of_nat (length d)) = Some d.
Proof.
  unfold rd_range. rewrite bool_decide_eq_true_2; [rewrite length_app; lia|].
  by rewrite Nat2Z.id /= drop_0 take_app_length.
Qed.

(** make_data writes a DATA packet, or past the end of [dst_buf]. *)
Lemma make_data_run dst block d pad s :
  (4 ≤ length dst)%nat →
  make_data dst block (d ++ pad) (Z.of_nat (length d)) s =
    if bool_decide (4 + length d ≤ length dst)%nat
    then (Done (data_packet block d ++ drop (4 + length d) dst, 4 + Z.of_nat (length d)), s)
    else (Undefined OutOfBounds, s).
Proof.
  intros Hdst. destruct dst as [|d0 [|d1 [|d2 [|d3 dst]]]]; simpl in Hdst; try lia.
  unfold make_data. rewrite !bytes16_s16 !bytes16_htons.
  change (u16 DATA `div` 256) with 0. change (u16 DATA `mod` 256) with 3.
  rewrite wr_header_0 bind_ret_l wr_header_2 bind_ret_l rd_front bind_ret_l wr_payload.
  cbn [length Nat.add]. rewrite (bool_decide_ext (S (S (S (S (length d)))) ≤ _)%nat
    (length d ≤ length dst)%nat); [lia|].
  by case_bool_decide.
Qed.

Lemma c_string_app d rest : no_nul d → c_string (d ++ 0 :: rest) = Some d.
Proof. induction 1 as [|c d Hc Hd IH]; simpl; [done|]. by rewrite bool_decide_eq_false_2 // IH. Qed.

(** The copy loops of handle_RRQ on a terminated string that fits. *)
Lemma copy_loop_run {fuel} pre txt rest p q s :
  no_nul txt → (length txt ≤ length q)%nat → (length txt ≤ fuel)%nat →
  copy_loop fuel (pre ++ txt ++ 0 :: rest) (Z.of_nat (length pre)) (p ++ q)
    (Z.of_nat (length p)) s
  = (Done (Z.of_nat (length pre + length txt), p ++ txt ++ drop (length txt) q), s).
Proof.
  intros Htxt. revert fuel pre p q. induction Htxt as [|c txt Hc Htxt IH]; intros fuel pre p q Hq Hf.
  { destruct fuel; cbn [copy_loop]; rewrite rd_nat list_lookup_middle //= Nat.add_0_r //. }
  destruct fuel as [|fuel]; simpl in *; [lia|]. destruct q as [|c' q]; simpl in Hq; [lia|].
  rewrite rd_nat list_lookup_middle //. cbn [or_ub]. rewrite bind_ret_l bool_decide_eq_false_2 //.
  rewrite wr_nat; [rewrite length_app /=; lia|]. cbn [or_ub]. rewrite bind_ret_l.
  rewrite -{1}(Nat.add_0_r (length p)) insert_app_r /=.
  replace (Z.of_nat (length pre) + 1) with (Z.of_nat (length (pre ++ [c]))) by (rewrite length_app /=; lia).
  replace (Z.of_nat (length p) + 1) with (Z.of_nat (length (p ++ [c]))) by (rewrite length_app /=; lia).
  replace (pre ++ c :: txt ++ 0 :: rest) with ((pre ++ [c]) ++ txt ++ 0 :: rest) by by rewrite -app_assoc.
  replace (p ++ c :: q) with ((p ++ [c]) ++ q) by by rewrite -app_assoc.
  rewrite IH; [lia..|]. rewrite -!app_assoc /=. do 3 f_equal. rewrite length_app /=. lia.
Qed.
End packets.

(** * The handlers *)

Section handlers.
Context {MA : Malloc} {OS : Os}.
Implicit Types (s : server) (d : list Z) (f : loc).

Lemma on_heap_done {A} (m : cmd (mem cell) A) s a h :
  m (heap s) = (Done a, h) → on_heap m s = (Done a, set_heap h s).
Proof. apply zoom_done. Qed.

Lemma set_session_live h l x g :
  cells h !! l = Some (CSession x) →
  set_session (Some l) g h = (Done (), Mem (<[l := CSession (g x)]> (cells h)) (calls h)).
Proof. intros Hl. unfold set_session. mem_step. by eapply store_live. Qed.

Lemma load_session_live h l x :
  cells h !! l = Some (CSession x) → load_session (Some l) h = (Done x, h).
Proof. intros Hl. unfold load_session. by mem_step. Qed.

Lemma load_bytes_live h l b :
  cells h !! l = Some (CBytes b) → load_bytes (Some l) h = (Done b, h).
Proof. intros Hl. unfold load_bytes. by mem_step. Qed.
End handlers.

(** Runs one heap command of the server on a live block. *)
Ltac heap_step :=
  erewrite bind_done by
    (apply on_heap_done; cbn [heap set_heap set_sockets cells calls];
     first [ eapply set_session_live; by simplify_map_eq
           | eapply load_session_live; by simplify_map_eq
           | eapply load_bytes_live; by simplify_map_eq
           | eapply store_live; by simplify_map_eq ]);
  cbn [cells calls sock_fd pFile cli_addr cli_addr_len].

Section sessions.
Context {MA : Malloc} {OS : Os}.
Implicit Types (s : server) (d : list Z) (f : loc).

(** create_new_session: a session on the next socket with its own copy of
    the client's address. *)
Lemma create_new_session_run s f addr addr_len :
  malloc_total → 0 ≤ addr_len ≤ Z.of_nat (length addr) →
  ∃ l k h', create_new_session (Some f) addr addr_len s =
      (Done (Some l), set_heap h' (set_sockets (S (sockets s)) s)) ∧
    l ≠ k ∧ cells (heap s) !! l = None ∧ cells (heap s) !! k = None ∧
    cells h' = <[k := CBytes (take (Z.to_nat addr_len) addr)]>
      (<[l := CSession (MkSession (os_socket (sockets s)) (Some f) (Some k) addr_len)]>
        (cells (heap s))).
Proof.
  intros Ht Hlen. destruct s as [h fl st n o sn]. cbn [heap sockets].
  destruct (malloc_new (CSession (MkSession 0 NULL NULL 0)) h Ht) as (l & Hl & Hm).
  unfold create_new_session.
  erewrite bind_done by (apply on_heap_done; exact Hm). cbn beta.
  unfold socket, gets, modify. rewrite bind_assoc.
  erewrite bind_done by reflexivity. rewrite bind_assoc.
  erewrite bind_done by reflexivity. rewrite bind_ret_l.
  do 2 heap_step.
  match goal with |- context [on_heap (malloc ?v) ≫= _] =>
    match goal with |- context [(_ ≫= _) ?s'] =>
      destruct (malloc_new v (heap s') Ht) as (k & Hk & Hm2) end end.
  cbn [heap set_heap set_sockets cells calls] in Hk, Hm2.
  rewrite !lookup_insert_None in Hk. destruct Hk as [[[Hk ?] _] _].
  erewrite bind_done by (apply on_heap_done; exact Hm2). cbn beta.
  cbn [heap set_heap set_sockets cells calls]. rewrite !insert_insert_eq.
  clear Hm Hm2. do 3 heap_step.
  assert (rd_range addr 0 addr_len = Some (take (Z.to_nat addr_len) addr)) as ->.
  { unfold rd_range. by rewrite bool_decide_eq_true_2; [lia|]. }
  rewrite bind_ret_l.
  assert (wr_range (zeros (Z.to_nat addr_len)) 0 (take (Z.to_nat addr_len) addr)
          = Some (take (Z.to_nat addr_len) addr)) as ->.
  { unfold wr_range, zeros. rewrite length_replicate length_take.
    rewrite bool_decide_eq_true_2; [lia|]. rewrite drop_ge; [rewrite length_replicate /=; lia|].
    by rewrite /= app_nil_r. }
  rewrite bind_ret_l. do 2 heap_step.
  eexists l, k, _. split; [reflexivity|]. cbn [cells set_heap].
  split_and!; [done..|]. apply map_eq. intros j.
  destruct (decide (j = k)) as [->|]; [by simplify_map_eq|].
  destruct (decide (j = l)) as [->|]; by simplify_map_eq.
Qed.

(** The state after the two lines handle_RRQ prints. *)
Definition rrq_lines (name mode : list Z) (s : server) : server :=
  add_line (RrqMode mode) (add_line (RrqName name (Z.of_nat (length name))) s).

Lemma zeros_split n k : (k < n)%nat → drop k (zeros n) = 0 :: zeros (n - S k).
Proof.
  intros Hk. unfold zeros. rewrite drop_replicate.
  replace (n - k)%nat with (S (n - S k)) by lia. done.
Qed.

Lemma handle_RRQ_parse addr addr_len name mode rest s :
  no_nul name → no_nul mode → (length name < 512)%nat → (length mode < 512)%nat →
  handle_RRQ addr addr_len (rrq_packet name mode ++ rest) s =
    send_first_block addr addr_len name (rrq_lines name mode s).
Proof.
  intros Hn Hm Hnl Hml. unfold handle_RRQ, rrq_packet.
  set (b := ([0; 1] ++ name ++ [0] ++ mode ++ [0]) ++ rest).
  assert (b = [0; 1] ++ name ++ 0 :: (mode ++ 0 :: rest)) as Hb1.
  { unfold b. by rewrite -!app_assoc. }
  assert (b = ([0; 1] ++ name ++ [0]) ++ mode ++ 0 :: rest) as Hb2.
  { unfold b. by rewrite -!app_assoc. }
  assert (length b = 4 + length name + length mode + length rest)%nat as Hlb.
  { rewrite Hb1 !length_app /= !length_app /=. lia. }
  pose proof (copy_loop_run (fuel:=length b) [0; 1] name (mode ++ 0 :: rest) [] (zeros 512) s Hn) as H1.
  pose proof (copy_loop_run (fuel:=length b) ([0; 1] ++ name ++ [0]) mode rest [] (zeros 512) s Hm) as H2.
  rewrite -Hb1 in H1. rewrite -Hb2 in H2. cbn [length app Z.of_nat] in H1, H2.
  erewrite bind_done by (apply H1; unfold zeros; rewrite ?length_replicate; lia). cbn beta iota.
  replace (Z.of_nat (2 + length name) + 1) with (Z.of_nat (S (S (length (name ++ [0])))))
    by (rewrite length_app /=; lia).
  erewrite bind_done by (apply H2; unfold zeros; rewrite ?length_replicate; lia). cbn beta iota.
  rewrite !zeros_split // !c_string_app //.
Qed.

Lemma fread_run s f c pos n :
  streams s !! f = Some (MkFile c pos) → 0 ≤ pos →
  fread n (Some f) s =
    (Done (take n (drop (Z.to_nat pos) c)),
     set_streams (<[f := MkFile c (pos + Z.of_nat (length (take n (drop (Z.to_nat pos) c))))]>
                    (streams s)) s).
Proof.
  intros Hf Hpos. unfold fread. erewrite bind_done; [|unfold stream; by rewrite Hf]. done.
Qed.

(** What handle_RRQ leaves behind when it has sent the whole of a file. *)
Definition rrq_served (s : server) (l k : loc) (c addr : list Z) (addr_len : Z)
    (s' : server) : Prop :=
  let f := fresh (dom (streams s)) in
  let a := take (Z.to_nat addr_len) addr in
  let fd := os_socket (sockets s) in
  cells (heap s') = <[k := CBytes a]>
      (<[l := CSession (MkSession fd (Some f) (Some k) addr_len)]> (cells (heap s))) ∧
  l ≠ k ∧ cells (heap s) !! l = None ∧ cells (heap s) !! k = None ∧
  file s' = Some f ∧
  streams s' = <[f := MkFile c (Z.of_nat (length c))]> (streams s) ∧
  sockets s' = S (sockets s) ∧ stdout s' = stdout s ∧
  sent s' = sent s ++ [Datagram fd (data_packet 1 c) a].

Lemma send_first_block_small s addr addr_len name c :
  malloc_total → 0 ≤ addr_len ≤ Z.of_nat (length addr) →
  os_file name = Some c → (length c ≤ 508)%nat →
  ∃ l k s', send_first_block addr addr_len name s = (Done (Some l), s') ∧
    rrq_served s l k c addr addr_len s'.
Proof.
  intros Ht Hal Hc Hlen. unfold send_first_block, fopen. set (f := fresh (dom (streams s))).
  erewrite bind_done by (rewrite Hc; reflexivity). cbn beta. fold f.
  erewrite bind_done by reflexivity. rewrite bool_decide_eq_false_2 //.
  erewrite bind_done by (apply fread_run with (c:=c) (pos:=0); [|done]; cbn; by simplify_map_eq).
  cbn [set_file set_streams streams heap sockets stdout sent file].
  rewrite drop_0 take_ge; [lia|]. cbn beta zeta.
  erewrite bind_done; [|rewrite make_data_run; [unfold zeros; rewrite length_replicate; lia|];
    rewrite bool_decide_eq_true_2; [unfold zeros; rewrite length_replicate; lia|reflexivity]].
  cbn beta iota. rewrite insert_insert_eq.
  match goal with |- context [_ ?s1] =>
    destruct (create_new_session_run s1 f addr addr_len Ht Hal)
      as (l & k & h' & Hrun & Hlk & Hl & Hk & Hcells) end.
  erewrite bind_done by exact Hrun. cbn beta.
  cbn [set_heap set_sockets heap sockets streams file stdout sent] in *.
  assert (cells h' !! l = Some (CSession (MkSession (os_socket (sockets s)) (Some f) (Some k) addr_len)))
    by (rewrite Hcells; by simplify_map_eq).
  assert (cells h' !! k = Some (CBytes (take (Z.to_nat addr_len) addr)))
    by (rewrite Hcells; by simplify_map_eq).
  do 2 heap_step. unfold sendto.
  replace (4 + Z.of_nat (length c)) with (Z.of_nat (length (data_packet 1 c)))
    by (rewrite length_data_packet; lia).
  rewrite rd_front. cbn [or_ub]. rewrite bind_assoc bind_ret_l.
  erewrite bind_done by reflexivity.
  eexists l, k, _. split; [reflexivity|]. unfold rrq_served. fold f.
  cbn [set_heap set_sockets heap sockets streams file stdout sent add_sent].
  by split_and!.
Qed.

Lemma send_first_block_large s addr addr_len name c :
  os_file name = Some c → (509 ≤ length c)%nat →
  ∃ s', send_first_block addr addr_len name s = (Undefined OutOfBounds, s') ∧
    sent s' = sent s.
Proof.
  intros Hc Hlen. unfold send_first_block, fopen. set (f := fresh (dom (streams s))).
  erewrite bind_done by (rewrite Hc; reflexivity). cbn beta. fold f.
  erewrite bind_done by reflexivity. rewrite bool_decide_eq_false_2 //.
  erewrite bind_done by (apply fread_run with (c:=c) (pos:=0); [|done]; cbn; by simplify_map_eq).
  rewrite drop_0. cbn beta zeta.
  eexists. split.
  - apply bind_undefined. rewrite make_data_run; [unfold zeros; rewrite length_replicate; lia|].
    rewrite bool_decide_eq_false_2; [|reflexivity].
    unfold zeros. rewrite length_replicate length_take. lia.
  - done.
Qed.

Lemma send_first_block_missing s addr addr_len name cwd :
  os_file name = None → os_cwd = Some cwd →
  send_first_block addr addr_len name s =
    (Done NULL, add_line (OpenError name cwd) (set_file NULL s)).
Proof.
  intros Hn Hcwd. unfold send_first_block, fopen.
  erewrite bind_done by (rewrite Hn; reflexivity). cbn beta.
  erewrite bind_done by reflexivity. rewrite bool_decide_eq_true_2 //.
  rewrite Hcwd. by erewrite bind_done by reflexivity.
Qed.

Lemma ack_block_number k :
  0 ≤ k < 65536 → s16 (ntohs (s16 (load16 (u16 k `div` 256) (u16 k `mod` 256)))) = s16 k.
Proof.
  intros Hk. unfold ntohs. rewrite u16_s16 -/(ntohs _).
  rewrite ntohs_load16; [by apply high_byte_ok, u16_range|apply low_byte_ok|].
  rewrite Z.mul_comm -Z.div_mod // u16_small //.
Qed.

(** Block numbers from 32768 on make the offset negative, and fseek fails. *)
Lemma fseek_block s f c pos k :
  streams s !! f = Some (MkFile c pos) → 0 ≤ k < 65536 →
  fseek (Some f) (512 * s16 k) s =
    (Done (if bool_decide (k < 32768) then 0 else -1),
     set_streams (<[f := MkFile c (if bool_decide (k < 32768) then 512 * k else pos)]>
                    (streams s)) s).
Proof.
  intros Hf Hk. unfold fseek. erewrite bind_done; [|unfold stream; by rewrite Hf].
  cbn beta. case_bool_decide as Hb; case_bool_decide as Hk'.
  - rewrite s16_small in Hb; lia.
  - rewrite insert_id //. by destruct s.
  - rewrite s16_small; [lia|]. done.
  - rewrite s16_high in Hb; lia.
Qed.

(** handle_ACK on an open stream that is at [pos]. *)
Lemma handle_ACK_run s f c pos k out_buf rest :
  file s = Some f → streams s !! f = Some (MkFile c pos) → 0 ≤ pos →
  (516 ≤ length out_buf)%nat → 0 ≤ k < 65536 →
  let off := if bool_decide (k < 32768) then 512 * k else pos in
  let d := take 512 (drop (Z.to_nat off) c) in
  handle_ACK (ack_packet k ++ rest) out_buf s =
    (Done (4 + Z.of_nat (length d), data_packet (k + 1) d ++ drop (4 + length d) out_buf),
     if bool_decide (length d < 512)%nat
     then set_file NULL (add_line Fclose (set_streams (delete f (streams s)) s))
     else set_streams (<[f := MkFile c (off + 512)]> (streams s)) s).
Proof.
  intros Hf Hs Hpos Hout Hk off d. unfold handle_ACK.
  erewrite bind_done by reflexivity. cbn beta.
  rewrite Hf bool_decide_eq_false_2 //.
  erewrite bind_done by reflexivity. cbn beta zeta.
  rewrite ack_block_number //.
  erewrite bind_done by (apply fseek_block; eassumption). cbn beta. fold off.
  erewrite bind_done by (apply fread_run with (c:=c) (pos:=off);
    [cbn; by simplify_map_eq|unfold off; case_bool_decide; lia]).
  cbn beta zeta. fold d. cbn [set_streams streams heap file sockets stdout sent].
  rewrite insert_insert_eq.
  rewrite (bool_decide_ext _ (length d < 512)%nat); [lia|].
  assert (length d ≤ 512)%nat as Hd by (unfold d; rewrite length_take; lia).
  assert (∀ s', make_data out_buf (s16 (s16 k + 1)) (d ++ zeros (512 - length d))
      (Z.of_nat (length d)) s' =
    (Done (data_packet (k + 1) d ++ drop (4 + length d) out_buf,
           4 + Z.of_nat (length d)), s')) as Hmk.
  { intros s'. rewrite make_data_run; [lia|]. rewrite bool_decide_eq_true_2; [lia|].
    by rewrite /data_packet u16_succ_s16. }
  case_bool_decide as Hlt; cbn [when].
  - unfold fclose. rewrite !bind_assoc. erewrite bind_done by reflexivity.
    rewrite !bind_assoc. erewrite bind_done; [|unfold stream; cbn; by simplify_map_eq].
    erewrite bind_done by reflexivity. erewrite bind_done by reflexivity.
    erewrite bind_done by apply Hmk. cbn. by rewrite delete_insert_eq.
  - erewrite bind_done by reflexivity. erewrite bind_done by apply Hmk. cbn.
    unfold set_streams; cbn. do 4 f_equal. lia.
Qed.
End sessions.

(** * Commands that send nothing *)

Definition keeps_sent {A} (m : cmd server A) : Prop :=
  ∀ s r s', m s = (r, s') → sent s' = sent s.

Create HintDb sends.

Section keeps_sent.
Context {MA : Malloc} {OS : Os}.

Lemma sends_keeps_bind {A B} (m : cmd server A) (k : A → cmd server B) :
  keeps_sent m → (∀ a, keeps_sent (k a)) → keeps_sent (m ≫= k).
Proof.
  intros Hm Hk s r s'. rewrite /mbind /cmd_bind.
  destruct (m s) as [[a|c| | |w|] t] eqn:Hs; pose proof (Hm _ _ _ Hs) as Ht;
    [intros Hr; rewrite (Hk _ _ _ _ Hr) //|naive_solver..].
Qed.

Lemma sends_keeps_ret {A} (a : A) : keeps_sent (mret a).
Proof. by intros s r s' [= <- <-]. Qed.
Lemma sends_keeps_or_ub {A} w (o : option A) : keeps_sent (or_ub w o).
Proof. by destruct o; intros s r s' [= <- <-]. Qed.
Lemma keeps_gets {A} (f : server → A) : keeps_sent (gets f).
Proof. by intros s r s' [= <- <-]. Qed.
Lemma keeps_on_heap {A} (m : cmd (mem cell) A) : keeps_sent (on_heap m).
Proof. intros s r s'. unfold on_heap, zoom. destruct (m (heap s)). by intros [= <- <-]. Qed.
Lemma keeps_printf l : keeps_sent (printf l).
Proof. by intros s r s' [= <- <-]. Qed.
Lemma keeps_set_file f : keeps_sent (modify (set_file f)).
Proof. by intros s r s' [= <- <-]. Qed.
Lemma keeps_fopen name : keeps_sent (fopen name).
Proof. intros s r s'. unfold fopen. destruct (os_file name); by intros [= <- <-]. Qed.
Lemma keeps_stream f : keeps_sent (stream f).
Proof. intros s r s'. unfold stream. repeat case_match; by intros [= <- <-]. Qed.
Lemma keeps_set_stream f st : keeps_sent (set_stream f st).
Proof. intros s r s'. unfold set_stream. case_match; by intros [= <- <-]. Qed.
Lemma keeps_socket : keeps_sent socket.
Proof. by intros s r s' [= <- <-]. Qed.
Lemma keeps_if {A} (b : bool) (m n : cmd server A) :
  keeps_sent m → keeps_sent n → keeps_sent (if b then m else n).
Proof. by destruct b. Qed.
Lemma keeps_unfinished {A} : keeps_sent (unfinished (A:=A)).
Proof. by intros s r s' [= <- <-]. Qed.

Lemma keeps_copy_loop fuel b i dst j : keeps_sent (copy_loop fuel b i dst j).
Proof.
  revert i dst j. induction fuel as [|fuel IH]; intros i dst j; cbn [copy_loop];
    (apply sends_keeps_bind; [apply sends_keeps_or_ub|]; intros c; apply keeps_if; [apply sends_keeps_ret|]).
  - apply keeps_unfinished.
  - apply sends_keeps_bind; [apply sends_keeps_or_ub|done].
Qed.
End keeps_sent.

#[export] Hint Resolve sends_keeps_ret sends_keeps_or_ub keeps_gets keeps_on_heap keeps_printf
  keeps_set_file keeps_fopen keeps_stream keeps_set_stream keeps_socket
  keeps_copy_loop : sends.

(** Shows that a command sends nothing, command by command. *)
Ltac keeps :=
  solve [repeat first
    [ progress intros
    | solve [auto with sends]
    | apply sends_keeps_bind | apply keeps_if
    | match goal with |- keeps_sent (let '(_, _) := ?p in _) => destruct p end ]].

Section sends.
Context {MA : Malloc} {OS : Os}.

(** A command that returns a session only if it sent one datagram, and
    otherwise sent none. *)
Definition sends_for_session (m : cmd server ptr) : Prop :=
  ∀ s r s', m s = (r, s') →
    (sent s' = sent s ∧ ∀ p, r = Done p → p = NULL) ∨
    (∃ d l x, sent s' = sent s ++ [d] ∧ r = Done (Some l) ∧
              load_session (Some l) (heap s') = (Done x, heap s')).

Lemma sends_bind {A} (m : cmd server A) (k : A → cmd server ptr) :
  keeps_sent m → (∀ a, sends_for_session (k a)) → sends_for_session (m ≫= k).
Proof.
  intros Hm Hk s r s'. rewrite /mbind /cmd_bind.
  destruct (m s) as [[a|c| | |w|] t] eqn:Hs; pose proof (Hm _ _ _ Hs) as Ht;
    [|by intros [= <- <-]; left..].
  intros Hr. destruct (Hk _ _ _ _ Hr) as [[??]|(d & l & x & ? & ?)]; [left|right].
  - split; [congruence|done].
  - exists d, l, x. split; [congruence|done].
Qed.

Lemma sends_none {A} (m : cmd server A) :
  keeps_sent m → sends_for_session (m ;; mret NULL).
Proof.
  intros Hm. apply sends_bind; [done|]. intros _ s r s' [= <- <-]. left.
  split; [done|]. by intros p [= <-].
Qed.

Lemma sends_ext (m m' : cmd server ptr) :
  (∀ s, m s = m' s) → sends_for_session m → sends_for_session m'.
Proof. intros Hm Hs s r s' Hr. apply Hs. by rewrite Hm. Qed.

Lemma load_session_keeps p h r h' : load_session p h = (r, h') → h' = h.
Proof.
  unfold load_session, mbind, cmd_bind, load.
  destruct p as [l|]; [destruct (cells h !! l) as [[]|]|]; by intros [= <- <-].
Qed.

Lemma load_bytes_keeps p h r h' : load_bytes p h = (r, h') → h' = h.
Proof.
  unfold load_bytes, mbind, cmd_bind, load.
  destruct p as [l|]; [destruct (cells h !! l) as [[]|]|]; by intros [= <- <-].
Qed.

(** The last commands of handle_RRQ. *)
Lemma sends_tail sess b n :
  sends_for_session (
    s ← on_heap (load_session sess);
    a ← on_heap (load_bytes (cli_addr s));
    sendto (sock_fd s) b n a;;
    mret sess).
Proof.
  intros s r s'. rewrite /mbind /cmd_bind. unfold on_heap, zoom.
  destruct (load_session sess (heap s)) as [o h] eqn:Hx.
  pose proof (load_session_keeps _ _ _ _ Hx) as ->.
  destruct o as [x|c| | |u|]; [|by intros [= <- <-]; left..].
  cbn [heap set_heap].
  destruct (load_bytes (cli_addr x) (heap s)) as [o h] eqn:Ha.
  pose proof (load_bytes_keeps _ _ _ _ Ha) as ->.
  destruct o as [a|c| | |u|]; [|by intros [= <- <-]; left..].
  unfold sendto. destruct (rd_range b 0 n) as [d|]; intros [= <- <-]; [right|by left].
  destruct sess as [l|]; [|done]. by eexists _, l, x.
Qed.

Lemma keeps_make_data dst b src n : keeps_sent (make_data dst b src n).
Proof. unfold make_data. keeps. Qed.

Lemma keeps_fread n f : keeps_sent (fread n f).
Proof. unfold fread. keeps. Qed.

Lemma keeps_create_new_session f addr n : keeps_sent (create_new_session f addr n).
Proof. unfold create_new_session. keeps. Qed.
Lemma keeps_WRQ b : keeps_sent (handle_WRQ b).
Proof. apply sends_keeps_ret. Qed.
#[local] Hint Resolve keeps_WRQ keeps_make_data keeps_fread keeps_create_new_session : sends.

Lemma sends_first_block addr n name : sends_for_session (send_first_block addr n name).
Proof.
  unfold send_first_block. apply sends_bind; [keeps|intros f].
  apply sends_bind; [keeps|intros _]. case_bool_decide.
  - apply sends_bind; [keeps|]. intros p. apply sends_none. keeps.
  - apply sends_bind; [keeps|intros d]. apply sends_bind; [keeps|intros [b m]].
    apply sends_bind; [keeps|intros sess]. apply sends_tail.
Qed.

Lemma sends_if (b : bool) (m m' : cmd server ptr) :
  sends_for_session m → sends_for_session m' → sends_for_session (if b then m else m').
Proof. by destruct b. Qed.

Lemma sends_RRQ addr n b : sends_for_session (handle_RRQ addr n b).
Proof.
  unfold handle_RRQ. apply sends_bind; [keeps|intros [i name]].
  apply sends_bind; [keeps|intros [j mode]].
  do 4 (apply sends_bind; [keeps|intros ?]). apply sends_first_block.
Qed.

Lemma sends_new_connection addr n b : sends_for_session (handle_new_connection addr n b).
Proof.
  unfold handle_new_connection, load16_at. apply sends_bind; [keeps|intros w].
  apply sends_if; [|apply sends_if; apply sends_none; keeps].
  apply (sends_ext (handle_RRQ addr n b)); [intros s; symmetry; apply bind_ret_r|].
  apply sends_RRQ.
Qed.

(** One event: nothing is sent and main goes on, or a datagram is sent and
    the process exits. *)
Definition sent_or_exit {A} (w : world) (r : outcome A) (w' : world) : Prop :=
  (sent (srv w') = sent (srv w) ∧ interest w' = interest w) ∨
  (∃ d, sent (srv w') = sent (srv w) ++ [d] ∧ r = Exited EXIT_FAILURE).

Lemma handle_event_sends serverfd fd w r w' :
  epoll_has (interest w) serverfd = true →
  handle_event serverfd fd w = (r, w') → sent_or_exit w r w'.
Proof.
  intros He. unfold handle_event. case_bool_decide; [|by intros [= <- <-]; left].
  destruct (recvfrom w) as [o w1] eqn:Hrecv.
  assert (∃ n, o = Done n ∧ srv w1 = srv w ∧ interest w1 = interest w) as (n & -> & Hsrv & Hint).
  { unfold recvfrom in Hrecv. repeat case_match; simplify_eq; by eexists. }
  erewrite bind_done by exact Hrecv. cbn beta. erewrite bind_done by reflexivity. cbn beta.
  destruct (handle_new_connection (cliaddr w1) (len w1) (in_buf w1) (srv w1)) as [o s1] eqn:Hh.
  assert (on_srv (handle_new_connection (cliaddr w1) (len w1) (in_buf w1)) w1
          = (o, set_srv s1 w1)) as Ho by (unfold on_srv, zoom; by rewrite Hh).
  destruct (sends_new_connection _ _ _ _ _ _ Hh) as [[Hs Hnull]|(d & l & x & Hs & -> & Hx)].
  - rewrite /mbind /cmd_bind Ho. destruct o as [p|c| | |u|].
    { rewrite (Hnull p) // bool_decide_eq_false_2; [naive_solver|].
      intros [= <- <-]. left. cbn. by rewrite Hs Hsrv. }
    all: intros [= <- <-]; left; cbn; by rewrite Hs Hsrv.
  - erewrite bind_done by exact Ho. rewrite bool_decide_eq_true_2 //.
    erewrite bind_done; [|apply zoom_done, on_heap_done; exact Hx]. cbn beta.
    erewrite bind_done; [|unfold epoll_ctl_add; cbn; by rewrite Hint epoll_add_twice].
    intros [= <- <-]. right. exists d. cbn. by rewrite Hs Hsrv.
Qed.

Lemma handle_events_sends serverfd fds w r w' :
  epoll_has (interest w) serverfd = true →
  handle_events serverfd fds w = (r, w') → sent_or_exit w r w'.
Proof.
  revert w. induction fds as [|fd fds IH]; intros w He; cbn [handle_events].
  { intros [= <- <-]. by left. }
  destruct (handle_event serverfd fd w) as [o w1] eqn:Hev.
  pose proof (handle_event_sends _ _ _ _ _ He Hev) as Hs1.
  rewrite /mbind /cmd_bind Hev. destruct Hs1 as [[Hs1 Hi1]|(d & Hs1 & ->)].
  - destruct o as [[]|c| | |u|]; [|by intros [= <- <-]; left..].
    intros Hr. destruct (IH w1) as [[Hs2 Hi2]|(d & Hs2 & Hr2)];
      [congruence|done|left; by rewrite Hs2 Hs1 Hi2 Hi1|right].
    exists d. by rewrite Hs2 Hs1.
  - intros [= <- <-]. right. by exists d.
Qed.

Lemma main_loop_sends fuel serverfd w r w' :
  epoll_has (interest w) serverfd = true →
  main_loop fuel serverfd w = (r, w') →
  sent (srv w') = sent (srv w) ∨
  (∃ d, sent (srv w') = sent (srv w) ++ [d] ∧ r = Exited EXIT_FAILURE).
Proof.
  revert w. induction fuel as [|fuel IH]; intros w He; cbn [main_loop].
  { intros [= <- <-]. by left. }
  unfold epoll_wait. rewrite {1}/mbind /cmd_bind.
  destruct (waits w) as [|[fds|] ws]; [by intros [= <- <-]; left| |by intros [= <- <-]; left].
  cbn [fmap option_fmap option_map].
  destruct (handle_events serverfd (take MAX_EVENTS fds) (set_waits ws w)) as [o w1] eqn:Hev.
  pose proof (handle_events_sends serverfd _ (set_waits ws w) _ _ He Hev) as Hs1.
  rewrite /mbind /cmd_bind Hev. destruct Hs1 as [[Hs1 Hi1]|(d & Hs1 & ->)].
  - destruct o as [[]|c| | |u|]; [|by intros [= <- <-]; left..].
    intros Hr. destruct (IH w1) as [Hs2|(d & Hs2 & Hr2)];
      [by rewrite Hi1|done|left; by rewrite Hs2 Hs1|right].
    exists d. by rewrite Hs2 Hs1.
  - intros [= <- <-]. right. by exists d.
Qed.

Lemma main_sends w r w' :
  tftp_main w = (r, w') →
  sent (srv w') = sent (srv w) ∨
  (∃ d, sent (srv w') = sent (srv w) ++ [d] ∧ r = Exited EXIT_FAILURE).
Proof.
  unfold tftp_main. erewrite bind_done by reflexivity. cbn beta.
  case_bool_decide; [by intros [= <- <-]; left|].
  destruct (negb os_bind); [by intros [= <- <-]; left|].
  destruct (negb os_epoll_create); [by intros [= <- <-]; left|].
  match goal with |- context [(_ ≫= _) ?w] => set (w1 := w) end.
  destruct (epoll_add (interest w1) (os_socket (sockets (srv w)))) as [e|] eqn:He.
  all: erewrite bind_done by (unfold epoll_ctl_add; rewrite He; reflexivity); cbn beta.
  2:{ by intros [= <- <-]; left. }
  rewrite bool_decide_eq_false_2; [by intros []|]. erewrite bind_done by reflexivity. cbn beta.
  intros Hr. apply epoll_add_has in He.
  destruct (main_loop_sends _ _ _ _ _ (He : epoll_has (interest (set_interest e _)) _ = true) Hr)
    as [Hs|(d & Hs & ?)]; [left|right; exists d]; by rewrite Hs.
Qed.
End sends.

(** * A whole transfer, block by block *)

Section transfer.
Context {MA : Malloc} {OS : Os}.
Implicit Types (s : server) (f : loc).

Lemma copy_loop_unterminated fuel pre txt dst j s :
  no_nul txt → (length txt ≤ fuel)%nat →
  copy_loop fuel (pre ++ txt) (Z.of_nat (length pre)) dst j s = (Undefined OutOfBounds, s).
Proof.
  intros Htxt. revert fuel pre dst j. induction Htxt as [|c txt Hc Htxt IH]; intros fuel pre dst j Hf.
  { rewrite app_nil_r. destruct fuel; cbn [copy_loop];
      by rewrite rd_nat lookup_ge_None_2. }
  destruct fuel as [|fuel]; simpl in Hf; [lia|]. cbn [copy_loop].
  rewrite rd_nat list_lookup_middle // bind_ret_l bool_decide_eq_false_2 //.
  destruct (wr dst j c) as [dst'|]; [|done]. rewrite bind_ret_l.
  replace (pre ++ c :: txt) with ((pre ++ [c]) ++ txt) by by rewrite -app_assoc.
  replace (Z.of_nat (length pre) + 1) with (Z.of_nat (length (pre ++ [c]))) by (rewrite length_app /=; lia).
  apply IH. lia.
Qed.

(** A string longer than the destination array. *)
Lemma copy_loop_overrun fuel a b txt rest dst s :
  no_nul txt → (length txt ≤ fuel)%nat → (length dst < length txt)%nat →
  copy_loop fuel (a :: b :: txt ++ rest) 2 dst 0 s = (Undefined OutOfBounds, s).
Proof.
  intros Htxt Hf Hlen.
  enough (∀ pre p q, (length q < length txt)%nat →
    copy_loop fuel (pre ++ txt ++ rest) (Z.of_nat (length pre)) (p ++ q) (Z.of_nat (length p)) s
    = (Undefined OutOfBounds, s)) as Hgen by by apply (Hgen [a; b] []).
  clear Hlen. revert fuel Hf. induction Htxt as [|c txt Hc Htxt IH]; intros fuel Hf pre p q Hq.
  { simpl in Hq. lia. }
  destruct fuel as [|fuel]; simpl in Hf; [lia|]. cbn [copy_loop app].
  rewrite rd_nat list_lookup_middle // bind_ret_l bool_decide_eq_false_2 //.
  destruct q as [|c' q].
  - assert (wr (p ++ []) (Z.of_nat (length p)) c = None) as ->; [|done].
    unfold wr. rewrite bool_decide_eq_false_2 // app_nil_r. lia.
  - rewrite wr_nat; [rewrite length_app /=; lia|]. cbn [or_ub]. rewrite bind_ret_l.
    rewrite -{1}(Nat.add_0_r (length p)) insert_app_r /=. simpl in Hq.
    replace (Z.of_nat (length pre) + 1) with (Z.of_nat (length (pre ++ [c]))) by (rewrite length_app /=; lia).
    replace (Z.of_nat (length p) + 1) with (Z.of_nat (length (p ++ [c]))) by (rewrite length_app /=; lia).
    replace (pre ++ c :: txt ++ rest) with ((pre ++ [c]) ++ txt ++ rest) by by rewrite -app_assoc.
    replace (p ++ c :: q) with ((p ++ [c]) ++ q) by by rewrite -app_assoc.
    apply IH; lia.
Qed.

(** The client acknowledges [n] blocks from block [k] on, through handle_req;
    the packets the server answers with. *)
Fixpoint ack_run (n : nat) (k : Z) (addr rest out_buf : list Z) : cmd server (list (list Z)) :=
  match n with
  | O => mret []
  | S n =>
    '(index, out_buf) ← handle_req addr 16 (ack_packet (k `mod` 65536) ++ rest) out_buf;
    ps ← ack_run n (k + 1) addr rest out_buf;
    mret (take (Z.to_nat index) out_buf :: ps)
  end.

(** Block [k + 1] of a file: the 512 bytes (or fewer, the last) from [512 k]. *)
Definition chunk (c : list Z) (k : Z) : list Z := take 512 (drop (Z.to_nat (512 * k)) c).

(** The packets for the blocks after [k], [n] of them. *)
Fixpoint chunk_packets (n : nat) (k : Z) (c : list Z) : list (list Z) :=
  match n with
  | O => []
  | S n => data_packet (k + 1) (chunk c k) :: chunk_packets n (k + 1) c
  end.

Lemma handle_req_ack s f c k out_buf rest addr :
  file s = Some f → streams s !! f = Some (MkFile c (512 * k)) →
  (516 ≤ length out_buf)%nat → 0 ≤ k < 65536 →
  let d := chunk c k in
  ∃ l, handle_req addr 16 (ack_packet (k `mod` 65536) ++ rest) out_buf s =
    (Done (4 + Z.of_nat (length d), data_packet (k + 1) d ++ drop (4 + length d) out_buf),
     add_line l
       (if bool_decide (length d < 512)%nat
        then set_file NULL (add_line Fclose (set_streams (delete f (streams s)) s))
        else set_streams (<[f := MkFile c (512 * (k + 1))]> (streams s)) s)).
Proof.
  intros Hf Hs Hout Hk d. rewrite Z.mod_small //. eexists. unfold handle_req.
  erewrite bind_done by reflexivity. cbn beta zeta.
  change (ntohs (load16 0 4)) with ACK. rewrite bool_decide_eq_false_2 // bool_decide_eq_true_2 //.
  erewrite bind_done by reflexivity. cbn beta.
  assert ((if bool_decide (k < 32768) then 512 * k else 512 * k) = 512 * k) as Hoff
    by by case_bool_decide.
  pose proof (handle_ACK_run s f c (512 * k) k out_buf rest Hf Hs ltac:(lia) Hout Hk) as Hrun.
  cbn zeta in Hrun. rewrite Hoff in Hrun. fold d in Hrun.
  erewrite bind_done by exact Hrun. cbn beta iota.
  replace (512 * (k + 1)) with (512 * k + 512) by lia.
  by erewrite bind_done by reflexivity.
Qed.

Lemma take_data_packet k d out_buf :
  take (Z.to_nat (4 + Z.of_nat (length d))) (data_packet k d ++ drop (4 + length d) out_buf)
  = data_packet k d.
Proof.
  replace (Z.to_nat (4 + Z.of_nat (length d))) with (length (data_packet k d))
    by (rewrite length_data_packet; lia).
  by rewrite take_app_length.
Qed.

Lemma data_packet_out k d out_buf :
  (4 + length d ≤ length out_buf)%nat →
  length (data_packet k d ++ drop (4 + length d) out_buf) = length out_buf.
Proof. intros. rewrite length_app length_data_packet length_drop. lia. Qed.

Lemma length_chunk c k :
  0 ≤ k → length (chunk c k) = (512 `min` (length c - Z.to_nat (512 * k)))%nat.
Proof. intros. by rewrite /chunk length_take length_drop. Qed.

Lemma ack_run_S n k addr rest out_buf :
  ack_run (S n) k addr rest out_buf =
    ('(index, out_buf) ← handle_req addr 16 (ack_packet (k `mod` 65536) ++ rest) out_buf;
     ps ← ack_run n (k + 1) addr rest out_buf;
     mret (take (Z.to_nat index) out_buf :: ps)).
Proof. done. Qed.

(** The whole chunks and the last one, from block [k] on. *)
Lemma ack_run_spec n s f c k out_buf rest addr :
  file s = Some f → streams s !! f = Some (MkFile c (512 * k)) →
  (516 ≤ length out_buf)%nat → 0 ≤ k →
  Z.of_nat (length c) `div` 512 = k + Z.of_nat n → k + Z.of_nat n < 65536 →
  ∃ s', ack_run (S n) k addr rest out_buf s = (Done (chunk_packets (S n) k c), s') ∧
    file s' = NULL ∧ streams s' = delete f (streams s).
Proof.
  revert s k out_buf. induction n as [|n IH]; intros s k out_buf Hf Hs Hout Hk Hdiv Hlt;
    pose proof (Z.div_mod (Z.of_nat (length c)) 512 ltac:(lia)) as Hdm;
    pose proof (Z.mod_pos_bound (Z.of_nat (length c)) 512 ltac:(lia));
    pose proof (length_chunk c k Hk) as Hlc;
    (destruct (handle_req_ack s f c k out_buf rest addr) as [l Hrun]; [done|done|done|lia|]);
    rewrite ack_run_S; erewrite bind_done by exact Hrun; cbn beta iota.
  - rewrite bool_decide_eq_true_2; [lia|]. eexists.
    erewrite bind_done by reflexivity. cbn beta. rewrite take_data_packet.
    split; [reflexivity|]. done.
  - rewrite bool_decide_eq_false_2; [lia|].
    match goal with |- context [ack_run (S n) _ _ _ ?o] => set (out' := o) end.
    assert (516 ≤ length out')%nat by (unfold out'; rewrite data_packet_out; lia).
    match goal with |- context [add_line l ?t] => set (s1 := add_line l t) end.
    destruct (IH s1 (k + 1) out') as (s' & Hrun' & Hf' & Hs'); [done| |done|lia..|].
    { cbn. by simplify_map_eq. }
    exists s'. split; [|split; [done|]].
    + erewrite bind_done by exact Hrun'. cbn beta. unfold out'. by rewrite take_data_packet.
    + rewrite Hs'. cbn. apply delete_insert_eq.
Qed.
End transfer.

(** * Properties *)

Section properties.
Context {MA : Malloc} {OS : Os}.
Implicit Types (s : server) (f : loc) (w : world).

Lemma chunk_packets_payload n k c :
  0 ≤ k → Z.of_nat (length c) `div` 512 = k + Z.of_nat n →
  concat (drop 4 <$> chunk_packets (S n) k c) = drop (Z.to_nat (512 * k)) c.
Proof.
  revert k. induction n as [|n IH]; intros k Hk Hdiv;
    pose proof (Z.div_mod (Z.of_nat (length c)) 512 ltac:(lia));
    pose proof (Z.mod_pos_bound (Z.of_nat (length c)) 512 ltac:(lia)).
  - simpl. rewrite app_nil_r /chunk. apply take_ge. rewrite length_drop. lia.
  - change (chunk_packets (S (S n)) k c)
      with (data_packet (k + 1) (chunk c k) :: chunk_packets (S n) (k + 1) c).
    rewrite fmap_cons. cbn [concat]. rewrite IH; [lia..|].
    change (drop 4 (data_packet (k + 1) (chunk c k))) with (chunk c k).
    unfold chunk. replace (Z.to_nat (512 * (k + 1))) with (Z.to_nat (512 * k) + 512)%nat by lia.
    by rewrite -drop_drop take_drop.
Qed.

(** handle_ACK when a full block follows. *)
Lemma handle_ACK_full s f c pos k out_buf rest :
  file s = Some f → streams s !! f = Some (MkFile c pos) → 0 ≤ pos →
  (516 ≤ length out_buf)%nat → 0 ≤ k < 65536 → k < 32768 ∨ pos = 512 * k →
  512 * (k + 1) ≤ Z.of_nat (length c) →
  ∃ out s', handle_ACK (ack_packet k ++ rest) out_buf s = (Done (516, out), s') ∧
    take 516 out = data_packet (k + 1) (chunk c k) ∧ length out = length out_buf ∧
    file s' = Some f ∧ streams s' !! f = Some (MkFile c (512 * (k + 1))).
Proof.
  intros Hf Hs Hpos Hout Hk Hor Hlen.
  pose proof (handle_ACK_run s f c pos k out_buf rest Hf Hs Hpos Hout Hk) as H1.
  assert ((if bool_decide (k < 32768) then 512 * k else pos) = 512 * k) as Hoff
    by (case_bool_decide; lia).
  cbn zeta in H1. rewrite Hoff in H1. fold (chunk c k) in H1.
  assert (length (chunk c k) = 512%nat) as Hl1 by (rewrite length_chunk; lia).
  rewrite bool_decide_eq_false_2 in H1; [lia|].
  eexists _, _. split; [rewrite H1; by replace (4 + Z.of_nat (length (chunk c k))) with 516 by lia|].
  split_and!.
  - pose proof (take_data_packet (k + 1) (chunk c k) out_buf) as Ht.
    by replace (Z.to_nat (4 + Z.of_nat (length (chunk c k)))) with 516%nat in Ht by lia.
  - rewrite data_packet_out //. lia.
  - done.
  - cbn. replace (512 * (k + 1)) with (512 * k + 512) by lia. by simplify_map_eq.
Qed.

(** C5. A well-formed read request for a file of at most 508 bytes is served:
    the two strings of the request are recovered from the packet (whatever
    bytes follow them in the buffer), and the server sends one DATA packet,
    block 1 with the whole file, from a new socket to the client's address,
    which it copies into the session it returns. *)
Theorem rrq_serves_small_file addr addr_len name mode rest c s :
  malloc_total → 0 ≤ addr_len ≤ Z.of_nat (length addr) →
  no_nul name → no_nul mode → (length name < 512)%nat → (length mode < 512)%nat →
  os_file name = Some c → (length c ≤ 508)%nat →
  ∃ l k s', handle_new_connection addr addr_len (rrq_packet name mode ++ rest) s
              = (Done (Some l), s') ∧
    rrq_served (rrq_lines name mode s) l k c addr addr_len s'.
Proof.
  intros Ht Hal Hn Hm Hnl Hml Hc Hlen.
  destruct (send_first_block_small (rrq_lines name mode s) addr addr_len name c)
    as (l & k & s' & Hrun & Hserved); [done..|].
  exists l, k, s'. split; [|done]. unfold handle_new_connection.
  erewrite bind_done by reflexivity. cbn beta zeta.
  change (ntohs (load16 0 1)) with RRQ. rewrite bool_decide_eq_true_2 //.
  erewrite bind_done; [|by rewrite handle_RRQ_parse]. done.
Qed.

(** C37. The output buffer of handle_RRQ is too small: for a file of 509 bytes
    or more the first block and its header do not fit the 512 bytes of
    [out_buf], and make_data writes past its end before anything is sent. *)
Theorem rrq_overflows_out_buf addr addr_len name mode rest c s :
  no_nul name → no_nul mode → (length name < 512)%nat → (length mode < 512)%nat →
  os_file name = Some c → (509 ≤ length c)%nat →
  ∃ s', handle_new_connection addr addr_len (rrq_packet name mode ++ rest) s
          = (Undefined OutOfBounds, s') ∧ sent s' = sent s.
Proof.
  intros Hn Hm Hnl Hml Hc Hlen.
  destruct (send_first_block_large (rrq_lines name mode s) addr addr_len name c)
    as (s' & Hrun & Hsent); [done..|].
  exists s'. split; [|by rewrite Hsent]. unfold handle_new_connection.
  erewrite bind_done by reflexivity. cbn beta zeta.
  change (ntohs (load16 0 1)) with RRQ. rewrite bool_decide_eq_true_2 //.
  apply bind_undefined. by rewrite handle_RRQ_parse.
Qed.

(** handle_RRQ trusts the packet to be terminated: if the buffer holds no
    NUL after the opcode, or only one, its copy loops run past the buffer. *)
Theorem rrq_unterminated_undefined addr addr_len a b txt name s :
  no_nul txt → no_nul name →
  handle_RRQ addr addr_len (a :: b :: txt) s = (Undefined OutOfBounds, s) ∧
  handle_RRQ addr addr_len (a :: b :: name ++ 0 :: txt) s = (Undefined OutOfBounds, s).
Proof.
  intros Ht Hn. unfold handle_RRQ. split.
  - apply bind_undefined. apply (copy_loop_unterminated _ [a; b]); [done|simpl; lia].
  - set (buf := a :: b :: name ++ 0 :: txt).
    assert (length buf = 3 + length name + length txt)%nat as Hl
      by (unfold buf; simpl; rewrite length_app /=; lia).
    destruct (decide (length name ≤ 512)%nat) as [Hfit|Hlong].
    + pose proof (copy_loop_run (fuel:=length buf) [a; b] name txt [] (zeros 512) s Hn) as H1.
      erewrite bind_done; [|apply H1; unfold zeros; rewrite ?length_replicate; lia].
      cbn beta iota zeta. apply bind_undefined.
      replace buf with ((a :: b :: name ++ [0]) ++ txt) by by rewrite /= -app_assoc.
      replace (Z.of_nat (length [a; b] + length name) + 1)
        with (Z.of_nat (length (a :: b :: name ++ [0]))) by (simpl; rewrite length_app /=; lia).
      apply copy_loop_unterminated; [done|]. rewrite /= !length_app /=. lia.
    + apply bind_undefined, (copy_loop_overrun _ a b name (0 :: txt)); [done|lia|unfold zeros; rewrite length_replicate; lia].
Qed.

(** C2. Acknowledging block after block transfers the rest of a file shorter
    than 32 MiB: from block [k] on, the acknowledgements of blocks [k] to the
    last full one are answered with the next blocks in order, each packet at
    most 516 bytes long, whose payloads concatenate to the rest of the file,
    and the last one closes the stream. Past block 32767 the offset handed to
    fseek is negative and only its failure keeps the transfer right. *)
Theorem ack_transfer_complete n s f c k out_buf rest addr :
  file s = Some f → streams s !! f = Some (MkFile c (512 * k)) →
  (516 ≤ length out_buf)%nat → 0 ≤ k →
  Z.of_nat (length c) `div` 512 = k + Z.of_nat n → k + Z.of_nat n < 65536 →
  ∃ ps s', ack_run (S n) k addr rest out_buf s = (Done ps, s') ∧
    ps = chunk_packets (S n) k c ∧
    concat (drop 4 <$> ps) = drop (Z.to_nat (512 * k)) c ∧
    Forall (λ p, (length p ≤ 516)%nat) ps ∧
    file s' = NULL ∧ streams s' = delete f (streams s).
Proof.
  intros Hf Hs Hout Hk Hdiv Hlt.
  destruct (ack_run_spec n s f c k out_buf rest addr) as (s' & Hrun & Hf' & Hs'); [done..|].
  exists (chunk_packets (S n) k c), s'. split_and!; [done..| | |done|done].
  - by apply chunk_packets_payload.
  - clear. generalize (S n). intros m. revert k.
    induction m as [|m IH]; intros k; constructor; [|apply IH].
    rewrite length_data_packet /chunk length_take. lia.
Qed.

(** C38. A file of 32 MiB or more is never finished: the packet after block
    65535 has block number 0, and its acknowledgement makes the server rewind
    and send block 1, the first 512 bytes, again. *)
Theorem ack_wraps_to_start s f c out_buf rest :
  file s = Some f → streams s !! f = Some (MkFile c (512 * 65535)) →
  (516 ≤ length out_buf)%nat → 512 * 65536 ≤ Z.of_nat (length c) →
  ∃ out1 s1 out2 s2,
    handle_ACK (ack_packet 65535 ++ rest) out_buf s = (Done (516, out1), s1) ∧
    take 516 out1 = data_packet 0 (chunk c 65535) ∧
    handle_ACK (ack_packet 0 ++ rest) out1 s1 = (Done (516, out2), s2) ∧
    take 516 out2 = data_packet 1 (chunk c 0) ∧ file s2 = Some f.
Proof.
  intros Hf Hs Hout Hlen.
  destruct (handle_ACK_full s f c (512 * 65535) 65535 out_buf rest) as [out1 (s1 & H1 & Hp1 & Hl1 & Hf1 & Hs1)];
    [done..|lia|done|lia|by right|lia|].
  destruct (handle_ACK_full s1 f c (512 * (65535 + 1)) 0 out1 rest) as [out2 (s2 & H2 & Hp2 & _ & Hf2 & _)];
    [done..|lia|lia|lia|by left|lia|].
  exists out1, s1, out2, s2. by split_and!.
Qed.

(** C11. main serves at most one request: in every run, whatever datagrams and
    events the outside world delivers, either nothing is sent, or exactly one
    datagram is sent and the process then exits with EXIT_FAILURE, because
    main registers the server socket, not the session's, a second time. *)
Theorem main_sends_at_most_one w r w' :
  tftp_main w = (r, w') →
  sent (srv w') = sent (srv w) ∨
  (∃ d, sent (srv w') = sent (srv w) ++ [d] ∧ r = Exited EXIT_FAILURE).
Proof. apply main_sends. Qed.
End properties.

(** * Witnesses *)

Section witnesses.

(** A system with one file, named "f", and epoll as a set of descriptors. *)
Definition demo_add (e : gset Z) (fd : Z) : option (gset Z) :=
  if decide (fd ∈ e) then None else Some ({[fd]} ∪ e).

Lemma demo_add_twice (e : gset Z) fd : bool_decide (fd ∈ e) = true → demo_add e fd = None.
Proof. intros H%bool_decide_eq_true. unfold demo_add. by rewrite decide_True. Qed.

Lemma demo_add_has (e : gset Z) fd e' :
  demo_add e fd = Some e' → bool_decide (fd ∈ e') = true.
Proof.
  unfold demo_add. case_decide; [done|]. intros [= <-].
  apply bool_decide_eq_true. set_solver.
Qed.

Definition demo_os (c : list Z) : Os := {|
  os_file name := if bool_decide (name = [102]) then Some c else None;
  os_socket n := 3 + Z.of_nat n;
  os_cwd := Some [47];
  os_bind := true;
  os_epoll_create := true;
  epoll := gset Z;
  epoll_new := ∅;
  epoll_has e fd := bool_decide (fd ∈ e);
  epoll_add := demo_add;
  epoll_add_twice := demo_add_twice;
  epoll_add_has := demo_add_has |}.

Definition idle_server : server := MkServer empty_mem NULL ∅ 0 [] [].
Definition reading_server (c : list Z) (pos : Z) : server :=
  MkServer empty_mem (Some 1%positive) {[1%positive := MkFile c pos]} 1 [] [].
Definition octet : list Z := [111; 99; 116; 101; 116].

Lemma rrq_serves_small_file_witness :
  ∃ l k s', handle_new_connection (OS:=demo_os [1; 2; 3]) (zeros 16) 16
      (rrq_packet [102] octet ++ zeros 10) idle_server = (Done (Some l), s') ∧
    rrq_served (OS:=demo_os [1; 2; 3]) (rrq_lines [102] octet idle_server) l k [1; 2; 3] (zeros 16) 16 s'.
Proof.
  apply (rrq_serves_small_file (OS:=demo_os [1; 2; 3]) (zeros 16) 16 [102] octet (zeros 10) [1; 2; 3]);
    [apply bump_malloc_total|vm_decide|vm_decide|vm_decide|vm_decide|vm_decide|done|vm_decide].
Defined.

Lemma rrq_overflows_out_buf_witness :
  ∃ s', handle_new_connection (OS:=demo_os (zeros 509)) (zeros 16) 16
      (rrq_packet [102] octet ++ zeros 10) idle_server = (Undefined OutOfBounds, s') ∧
    sent s' = [].
Proof.
  apply (rrq_overflows_out_buf (OS:=demo_os (zeros 509)) (zeros 16) 16 [102] octet (zeros 10) (zeros 509));
    [vm_decide|vm_decide|vm_decide|vm_decide|done|vm_decide].
Defined.

Lemma rrq_unterminated_undefined_witness :
  handle_RRQ (OS:=demo_os []) (zeros 16) 16 (0 :: 1 :: [97; 98]) idle_server
    = (Undefined OutOfBounds, idle_server) ∧
  handle_RRQ (OS:=demo_os []) (zeros 16) 16 (0 :: 1 :: [102] ++ 0 :: [97; 98]) idle_server
    = (Undefined OutOfBounds, idle_server).
Proof.
  apply (rrq_unterminated_undefined (OS:=demo_os []) (zeros 16) 16 0 1 [97; 98] [102] idle_server);
    vm_decide.
Defined.

(** A file of 1030 bytes whose first block has been sent. *)
Lemma ack_transfer_complete_witness :
  ∃ ps s', ack_run 2 1 (zeros 16) [] (zeros BUF_SIZE)
      (reading_server (replicate 1030 7) 512) = (Done ps, s') ∧
    ps = chunk_packets 2 1 (replicate 1030 7) ∧
    concat (drop 4 <$> ps) = drop 512 (replicate 1030 7) ∧
    Forall (λ p, (length p ≤ 516)%nat) ps ∧
    file s' = NULL ∧ streams s' = delete 1%positive {[1%positive := MkFile (replicate 1030 7) 512]}.
Proof.
  apply (ack_transfer_complete 1 (reading_server (replicate 1030 7) 512) 1
           (replicate 1030 7) 1 (zeros BUF_SIZE) [] (zeros 16));
    [done|done|vm_decide|lia|done|lia].
Defined.

Lemma ack_wraps_to_start_witness :
  let c := replicate (Z.to_nat (512 * 65536)) 7 in
  ∃ out1 s1 out2 s2,
    handle_ACK (ack_packet 65535 ++ []) (zeros BUF_SIZE)
      (reading_server c (512 * 65535)) = (Done (516, out1), s1) ∧
    take 516 out1 = data_packet 0 (chunk c 65535) ∧
    handle_ACK (ack_packet 0 ++ []) out1 s1 = (Done (516, out2), s2) ∧
    take 516 out2 = data_packet 1 (chunk c 0) ∧ file s2 = Some 1%positive.
Proof.
  intros c.
  apply (ack_wraps_to_start (reading_server c (512 * 65535)) 1 c
           (zeros BUF_SIZE) []).
  - reflexivity.
  - apply lookup_singleton_eq.
  - vm_decide.
  - unfold c. rewrite length_replicate. lia.
Defined.

(** A world that delivers one request for "f" and then another. *)
Definition demo_world (c : list Z) : world (OS:=demo_os c) :=
  let g := Some (zeros 16, rrq_packet [102] octet) in
  MkWorld (OS:=demo_os c) idle_server (zeros 512) (zeros BUF_SIZE) (zeros 16) 16 ∅
    [Some [3]; Some [3]] [g; g].

Lemma main_sends_at_most_one_witness :
  let p := tftp_main (OS:=demo_os [1; 2; 3]) (demo_world [1; 2; 3]) in
  sent (srv p.2) = [] ∨ (∃ d, sent (srv p.2) = [d] ∧ p.1 = Exited EXIT_FAILURE).
Proof.
  intros p.
  apply (main_sends_at_most_one (OS:=demo_os [1; 2; 3]) (demo_world [1; 2; 3]) p.1 p.2).
  apply surjective_pairing.
Defined.

(** In that run one DATA packet is sent, and the process exits. *)
Example main_serves_then_exits :
  let p := tftp_main (OS:=demo_os [1; 2; 3]) (demo_world [1; 2; 3]) in
  p.1 = Exited 1 ∧ (dg_bytes <$> sent (srv p.2)) = [[0; 3; 0; 1; 1; 2; 3]].
Proof. vm_compute. done. Qed.

(** The rest of an earlier, longer request is read as part of a later one that
    lacks its terminators: after "f" NUL "octet" NUL, the two bytes 0, 1 alone
    are a request for the old file. *)
Example stale_request :
  let b := overwrite 512 [0; 1] (rrq_packet [102] octet ++ zeros 503) in
  match fst (handle_new_connection (OS:=demo_os [1]) (zeros 16) 16 b idle_server) with
  | Done (Some _) => True
  | _ => False
  end.
Proof. vm_compute. done. Qed.
End witnesses.
