(* ===== verification/BlockSoft.v ===== *)
(** The hidden categories of src/go/custom/block_soft.go: getBlockedCates, which finds the
    categories all of whose software is blocked, initSoftMap, which reads the categories
    from a redis server, and main.

    A slice is a window on an array of the heap, so that removing an element in place, as
    getBlockedCates does, changes every slice on the same array. The order in which range
    visits a map is unspecified in Go: each loop over the map takes it as an argument. A
    panic, which nothing recovers, is [Aborted]. The redis server is the class [Redis], and
    the capacity that append chooses when it allocates the class [GoRuntime]. *)

From Stdlib Require Import Ascii.
From S2P Require Import Prelude.
#[local] Open Scope Z_scope.

(** * Slices of int64 *)

Record go_slice : Set := Slice { s_array : Z; s_offset : nat; s_len : nat; s_cap : nat }.

#[export] Instance go_slice_eq_dec : EqDecision go_slice.
Proof. solve_decision. Defined.

(** What is printed. *)
Inductive line : Type :=
  | PrintlnError (err : string)
  | PrintlnInts (xs : list Z).

Record world : Type := World {
  arrays : gmap Z (list Z);
  softMap : gmap Z go_slice;
  output : list line;
}.

Definition set_arrays (f : gmap Z (list Z) → gmap Z (list Z)) (w : world) : world :=
  World (f (arrays w)) (softMap w) (output w).
Definition set_softMap (f : gmap Z go_slice → gmap Z go_slice) (w : world) : world :=
  World (arrays w) (f (softMap w)) (output w).
Definition Println (l : line) : cmd world unit := λ w,
  (Done (), World (arrays w) (softMap w) (output w ++ [l])).

Definition panic {A} : cmd world A := abort.

(** The elements of a slice. *)
Definition contents (w : world) (s : go_slice) : list Z :=
  take (s_len s) (drop (s_offset s) (default [] (arrays w !! s_array s))).

(** s[i]. *)
Definition go_index (s : go_slice) (i : Z) : cmd world Z :=
  if (0 <=? i) && (i <? Z.of_nat (s_len s)) then
    xs ← gets (λ w, contents w s);
    match xs !! Z.to_nat i with Some x => mret x | None => panic end
  else panic.

(** s[lo:hi]. *)
Definition reslice (s : go_slice) (lo hi : Z) : cmd world go_slice :=
  if (0 <=? lo) && (lo <=? hi) && (hi <=? Z.of_nat (s_cap s)) then
    mret (Slice (s_array s) (s_offset s + Z.to_nat lo) (Z.to_nat (hi - lo)) (s_cap s - Z.to_nat lo))
  else panic.

(** [xs] with the elements from [k] on replaced by [ys], as far as they go. *)
Definition write_at (k : nat) (ys xs : list Z) : list Z := take k xs ++ ys ++ drop (k + length ys) xs.

(** A new array. *)
Definition new_array (a : list Z) : cmd world Z := λ w,
  let p := fresh (dom (arrays w)) in (Done p, set_arrays <[p := a]> w).

(** The capacity of the array that append allocates for a slice of the given capacity
    and the length that it needs; it is at least that length ([GoRuntimeLaws]). *)
Class GoRuntime : Type := growslice : nat → nat → nat.
Class GoRuntimeLaws `{GoRuntime} : Prop := growslice_enough cap needed : (needed ≤ growslice cap needed)%nat.

(** append(s, ys...): in place while the capacity lasts. The elements that are appended
    are read before any is written, as memmove does. *)
Definition append_elements `{GoRuntime} (s : go_slice) (ys : list Z) : cmd world go_slice :=
  let n := (s_len s + length ys)%nat in
  if (n <=? s_cap s)%nat then
    modify (set_arrays (alter (write_at (s_offset s + s_len s) ys) (s_array s)));;
    mret (Slice (s_array s) (s_offset s) n (s_cap s))
  else
    xs ← gets (λ w, contents w s);
    let cap := growslice (s_cap s) n in
    p ← new_array (xs ++ ys ++ replicate (cap - n) 0);
    mret (Slice p 0 n cap).

Definition append_slice `{GoRuntime} (s t : go_slice) : cmd world go_slice :=
  ys ← gets (λ w, contents w t); append_elements s ys.

(** * getBlockedCates *)

Section get_blocked_cates.
Context `{GoRuntime}.

(** The first loop: blockMap[v] = true. *)
Fixpoint block_map (blockedSofts : list Z) (blockMap : gmap Z bool) : gmap Z bool :=
  match blockedSofts with
  | [] => blockMap
  | v :: vs => block_map vs (<[v := true]> blockMap)
  end.

(** The loop over the software of a category, from index [i]. *)
Fixpoint remove_blocked (fuel : nat) (blockMap : gmap Z bool) (softs : go_slice) (i : Z) : cmd world go_slice :=
  match fuel with
  | O => unfinished
  | S fuel =>
    if i <? Z.of_nat (s_len softs) then
      x ← go_index softs i;
      match blockMap !! x with
      | Some _ =>
        front ← reslice softs 0 i;
        back ← reslice softs (i + 1) (Z.of_nat (s_len softs));
        softs ← append_slice front back;
        let i := i - 1 in
        remove_blocked fuel blockMap softs (i + 1)
      | None => remove_blocked fuel blockMap softs (i + 1)
      end
    else mret softs
  end.

(** for cate, softs := range softMap, visiting the categories of [order]. *)
Fixpoint filter_cates (blockMap : gmap Z bool) (order : list Z) : cmd world unit :=
  match order with
  | [] => mret ()
  | cate :: order =>
    m ← gets softMap;
    match m !! cate with
    | Some softs =>
      softs ← remove_blocked (S (s_len softs)) blockMap softs 0;
      modify (set_softMap <[cate := softs]>);;
      filter_cates blockMap order
    | None => filter_cates blockMap order
    end
  end.

(** The second loop over the map. *)
Fixpoint empty_cates (order : list Z) (blockedCates : list Z) : cmd world (list Z) :=
  match order with
  | [] => mret blockedCates
  | cate :: order =>
    m ← gets softMap;
    match m !! cate with
    | Some softs =>
      empty_cates order (if (s_len softs =? 0)%nat then blockedCates ++ [cate] else blockedCates)
    | None => empty_cates order blockedCates
    end
  end.

(** [order1] and [order2] are the orders of the two loops over softMap. *)
Definition getBlockedCates (order1 order2 : list Z) (blockedSofts : list Z) : cmd world (list Z) :=
  let blockMap := block_map blockedSofts ∅ in
  filter_cates blockMap order1;;
  empty_cates order2 [].
End get_blocked_cates.

(** * initSoftMap *)

(** strings.Split(s, sep) for a separator of one character. *)
Fixpoint split_from (sep : ascii) (s : string) (piece : string) : list string :=
  match s with
  | EmptyString => [piece]
  | String c s =>
    if bool_decide (c = sep) then piece :: split_from sep s EmptyString
    else split_from sep s (piece +:+ String c EmptyString)
  end.
Definition Split (s : string) (sep : ascii) : list string := split_from sep s EmptyString.

(** The digits of strconv.ParseInt(s, 10, ...). *)
Fixpoint parse_digits (s : string) (n : Z) : option Z :=
  match s with
  | EmptyString => Some n
  | String c s =>
    let d := Z.of_nat (nat_of_ascii c) - 48 in
    if (0 <=? d) && (d <=? 9) then parse_digits s (10 * n + d) else None
  end.

(** strconv.ParseInt(s, 10, bitSize): the number, unless there is an error. *)
Definition ParseInt (s : string) (bitSize : Z) : option Z :=
  let '(neg, digits) :=
    match s with
    | String "+" s => (false, s)
    | String "-" s => (true, s)
    | _ => (false, s)
    end in
  match digits with
  | EmptyString => None
  | _ =>
    n ← parse_digits digits 0;
    if neg then (if n <=? 2 ^ (bitSize - 1) then Some (- n) else None)
    else (if n <? 2 ^ (bitSize - 1) then Some n else None)
  end.

(** The redis server: connecting, KEYS and LRANGE key 0 -1, with an error or the reply. *)
Class Redis : Type := {
  connection : Type;
  Dial : string → string + connection;
  KEYS : connection → string → string + list string;
  LRANGE : connection → string → string + list Z;
}.

Section init_soft_map.
Context `{GoRuntime, Redis}.

(** The loop over the software of a category: each is appended to softMap[cateID]. *)
Fixpoint append_softs (cateID : Z) (softs : list Z) : cmd world unit :=
  match softs with
  | [] => mret ()
  | soft :: softs =>
    m ← gets softMap;
    s ← append_elements (default (Slice 0 0 0 0) (m !! cateID)) [soft];
    modify (set_softMap <[cateID := s]>);;
    append_softs cateID softs
  end.

Fixpoint read_keys (r : connection) (keys : list string) : cmd world unit :=
  match keys with
  | [] => mret ()
  | key :: keys =>
    let keyCate := Split key ":" in
    match keyCate !! 1%nat with
    | None => panic
    | Some cate =>
      match ParseInt cate 32 with
      | None => read_keys r keys
      | Some cateID =>
        match LRANGE r key with
        | inl err => Println (PrintlnError err)
        | inr softs =>
          p ← new_array [];
          modify (set_softMap <[cateID := Slice p 0 0 0]>);;
          append_softs cateID softs;;
          read_keys r keys
        end
      end
    end
  end.

Definition initSoftMap (redisConnStr : string) : cmd world unit :=
  modify (set_softMap (λ _, ∅));;
  match Dial redisConnStr with
  | inl err => Println (PrintlnError err)
  | inr r =>
    match KEYS r "cloud_cate_children:*" with
    | inl err => Println (PrintlnError err)
    | inr keys => read_keys r keys
    end
  end.

(** [order1] and [order2] give the orders of the loops over a map. *)
Definition main (order1 order2 : gmap Z go_slice → list Z) : cmd world unit :=
  initSoftMap "172.24.2.217:6378";;
  let blockedSofts := [103356856; 100114658; 10257] in
  m ← gets softMap;
  blockedCates ← getBlockedCates (order1 m) (order2 m) blockedSofts;
  Println (PrintlnInts blockedCates).
End init_soft_map.

(** * Heaps of slices *)

(** The array of a slice is there and has room for it. *)
Definition valid (w : world) (s : go_slice) : Prop :=
  (s_len s ≤ s_cap s)%nat ∧ ∃ a, arrays w !! s_array s = Some a ∧ (s_offset s + s_cap s ≤ length a)%nat.

(** No two categories share an array. *)
Definition separate (w : world) : Prop :=
  ∀ c d s t, softMap w !! c = Some s → softMap w !! d = Some t → s_array s = s_array t → c = d.

Definition well_formed (w : world) : Prop :=
  (∀ c s, softMap w !! c = Some s → valid w s) ∧ separate w.

(** The software of the categories. *)
Definition softs_of (w : world) : gmap Z (list Z) := contents w <$> softMap w.

(** * Lemmas on slices *)

(** A part of an array. *)
Definition window (a : list Z) (o n : nat) : list Z := take n (drop o a).

Lemma window_length a o n : (o + n ≤ length a)%nat → length (window a o n) = n.
Proof. intros Hn. rewrite length_take length_drop. lia. Qed.

Lemma window_lookup a o n i : (i < n)%nat → window a o n !! i = a !! (o + i)%nat.
Proof. intros Hi. by rewrite lookup_take_lt // lookup_drop. Qed.

Lemma window_window a o n i m : (i + m ≤ n)%nat → window a (o + i) m = take m (drop i (window a o n)).
Proof.
  intros Hm. unfold window. rewrite skipn_firstn_comm drop_drop take_take. f_equal. lia.
Qed.

Lemma write_at_length k ys a : (k + length ys ≤ length a)%nat → length (write_at k ys a) = length a.
Proof. intros Hk. rewrite /write_at !length_app length_take length_drop. lia. Qed.

Lemma window_write a o k ys :
  (o + k + length ys ≤ length a)%nat →
  window (write_at (o + k) ys a) o (k + length ys) = window a o k ++ ys.
Proof.
  intros Hk. unfold window, write_at.
  rewrite drop_app_le; [rewrite length_take; lia|].
  rewrite skipn_firstn_comm. replace (o + k - o)%nat with k by lia.
  rewrite take_app_ge; [rewrite length_take length_drop; lia|]. f_equal.
  rewrite length_take length_drop. replace (k + length ys - _)%nat with (length ys) by lia.
  by rewrite take_app_length.
Qed.

Section slices.
Context `{GoRuntime}.
Implicit Types (w : world) (s : go_slice).

Definition elements_of (a : list Z) s : list Z := window a (s_offset s) (s_len s).

Lemma contents_at w s a : arrays w !! s_array s = Some a → contents w s = elements_of a s.
Proof. intros Ha. unfold contents. by rewrite Ha. Qed.

Lemma contents_other w s p f : p ≠ s_array s → contents (set_arrays (alter f p) w) s = contents w s.
Proof. intros Hp. unfold contents. cbn. by rewrite lookup_alter_ne. Qed.

Lemma valid_length w s : valid w s → length (contents w s) = s_len s.
Proof. intros (Hl & a & Ha & Hc). rewrite (contents_at _ _ _ Ha). apply window_length. lia. Qed.

Lemma go_index_done w s i x :
  valid w s → contents w s !! i = Some x → go_index s (Z.of_nat i) w = (Done x, w).
Proof.
  intros Hv Hx. unfold go_index.
  assert (i < s_len s)%nat by (rewrite -(valid_length _ _ Hv); by eapply lookup_lt_Some).
  rewrite (proj2 (Z.leb_le 0 _)); [lia|]. rewrite (proj2 (Z.ltb_lt _ _)); [lia|].
  cbn [andb]. rewrite /mbind /cmd_bind /gets. by rewrite Nat2Z.id Hx.
Qed.
End slices.

Section removal.
Context `{GoRuntime}.
Implicit Types (w : world) (s : go_slice).

Lemma set_arrays_alter w p f a :
  arrays w !! p = Some a → set_arrays (alter f p) w = set_arrays <[p := f a]> w.
Proof.
  intros Ha. unfold set_arrays. f_equal. apply map_eq. intros q.
  destruct (decide (p = q)) as [<-|Hq]; [by rewrite lookup_alter_eq lookup_insert_eq Ha|].
  by rewrite lookup_alter_ne // lookup_insert_ne.
Qed.

Lemma set_arrays_twice w p a b : set_arrays <[p := b]> (set_arrays <[p := a]> w) = set_arrays <[p := b]> w.
Proof. unfold set_arrays. cbn. by rewrite insert_insert_eq. Qed.

Lemma set_arrays_same w p a : arrays w !! p = Some a → set_arrays <[p := a]> w = w.
Proof. intros Ha. destruct w. unfold set_arrays. cbn in *. by rewrite insert_id. Qed.

(** The slice without one element at its end. *)
Definition with_len s n : go_slice := Slice (s_array s) (s_offset s) n (s_cap s).

Lemma reslice_done s lo hi w :
  (lo ≤ hi ≤ s_cap s)%nat →
  reslice s (Z.of_nat lo) (Z.of_nat hi) w = (Done (Slice (s_array s) (s_offset s + lo) (hi - lo) (s_cap s - lo)), w).
Proof.
  intros Hlo. unfold reslice.
  rewrite (proj2 (Z.leb_le 0 _)); [lia|]. rewrite (proj2 (Z.leb_le (Z.of_nat lo) _)); [lia|].
  rewrite (proj2 (Z.leb_le (Z.of_nat hi) _)); [lia|]. cbn. by rewrite Nat2Z.id -Nat2Z.inj_sub ?Nat2Z.id; [lia|].
Qed.

(** append(s[:i], s[i+1:]...) removes element i in place. *)
Lemma append_removes w s a i x :
  (s_len s ≤ s_cap s)%nat → arrays w !! s_array s = Some a → (s_offset s + s_cap s ≤ length a)%nat →
  elements_of a s !! i = Some x →
  ∃ a', length a' = length a ∧ elements_of a' (with_len s (s_len s - 1)) = delete i (elements_of a s) ∧
    append_slice (Slice (s_array s) (s_offset s + 0) (i - 0) (s_cap s - 0))
      (Slice (s_array s) (s_offset s + (i + 1)) (s_len s - (i + 1)) (s_cap s - (i + 1))) w =
    (Done (with_len s (s_len s - 1)), set_arrays <[s_array s := a']> w).
Proof.
  intros Hl Ha Hc Hx.
  assert (length (elements_of a s) = s_len s) as Hlen by (apply window_length; lia).
  assert (i < s_len s)%nat as Hi by (rewrite -Hlen; by eapply lookup_lt_Some).
  set (ys := window a (s_offset s + (i + 1)) (s_len s - (i + 1))).
  assert (length ys = s_len s - (i + 1))%nat as Hys by (apply window_length; lia).
  exists (write_at (s_offset s + i) ys a). split_and!.
  - apply write_at_length. lia.
  - unfold elements_of. cbn [with_len s_offset s_len]. replace (s_len s - 1)%nat with (i + length ys)%nat by lia.
    rewrite window_write; [lia|].
    rewrite delete_take_drop. f_equal.
    + rewrite /window take_take. f_equal. lia.
    + unfold ys. rewrite (window_window _ _ (s_len s)); [lia|].
      rewrite take_ge; [rewrite length_drop Hlen; lia|]. by rewrite Nat.add_1_r.
  - unfold append_slice. erewrite bind_done; [|unfold gets; reflexivity].
    rewrite (contents_at _ _ a); [done|]. rewrite /elements_of -/ys /append_elements.
    cbn [s_array s_offset s_len s_cap]. rewrite Nat.add_0_r !Nat.sub_0_r Hys.
    rewrite (proj2 (Nat.leb_le _ _)); [lia|].
    erewrite bind_done; [|unfold modify; reflexivity].
    rewrite (set_arrays_alter _ _ _ a Ha). by replace (i + (s_len s - (i + 1)))%nat with (s_len s - 1)%nat by lia.
Qed.

Definition unblocked (bm : gmap Z bool) (xs : list Z) : list Z := filter (λ x, bm !! x = None) xs.

Lemma remove_blocked_done bm fuel i w s a :
  (s_len s ≤ s_cap s)%nat → arrays w !! s_array s = Some a → (s_offset s + s_cap s ≤ length a)%nat →
  unblocked bm (take i (elements_of a s)) = take i (elements_of a s) →
  (i ≤ s_len s)%nat → (s_len s - i < fuel)%nat →
  let kept := unblocked bm (elements_of a s) in
  ∃ a', length a' = length a ∧ elements_of a' (with_len s (length kept)) = kept ∧
    remove_blocked fuel bm s (Z.of_nat i) w =
    (Done (with_len s (length kept)), set_arrays <[s_array s := a']> w).
Proof.
  revert i w s a. induction fuel as [|fuel IH]; intros i w s a Hl Ha Hc Hpre Hi Hf; [lia|]. cbn [remove_blocked].
  assert (length (elements_of a s) = s_len s) as Hlen by (apply window_length; lia).
  destruct (Z.of_nat i <? Z.of_nat (s_len s)) eqn:Hlt; [apply Z.ltb_lt in Hlt|apply Z.ltb_ge in Hlt].
  2:{ exists a. rewrite take_ge in Hpre; [lia|]. cbv zeta. rewrite Hpre Hlen.
      split_and!; [done..|]. rewrite set_arrays_same //. by destruct s. }
  destruct (lookup_lt_is_Some_2 (elements_of a s) i) as [x Hx]; [lia|].
  erewrite bind_done; [|apply go_index_done; [by split; [|exists a]|by rewrite (contents_at _ _ _ Ha)]].
  destruct (bm !! x) as [b|] eqn:Hb.
  - erewrite bind_done; [|apply (reslice_done s 0 i); lia].
    replace (Z.of_nat i + 1) with (Z.of_nat (i + 1)) by lia.
    erewrite bind_done; [|apply reslice_done; lia].
    destruct (append_removes w s a i x Hl Ha Hc Hx) as (a1 & Hl1 & He1 & Hrun).
    erewrite bind_done; [|exact Hrun].
    destruct (IH i (set_arrays <[s_array s := a1]> w) (with_len s (s_len s - 1)) a1) as (a2 & Hl2 & He2 & Hrun2).
    + cbn. lia.
    + apply lookup_insert_eq.
    + cbn. lia.
    + rewrite He1 delete_take_drop take_app_le; [rewrite length_take; lia|]. by rewrite take_take Nat.min_id.
    + cbn. lia.
    + cbn. lia.
    + assert (unblocked bm (elements_of a1 (with_len s (s_len s - 1))) = unblocked bm (elements_of a s)) as Heq.
      { rewrite He1 delete_take_drop -{3}(take_drop_middle _ _ _ Hx) /unblocked !filter_app.
        by rewrite filter_cons_False // Hb. }
      cbv zeta in *. rewrite Heq in He2 Hrun2. exists a2. split_and!; [lia|exact He2|].
      replace (Z.of_nat i - 1 + 1) with (Z.of_nat i) by lia. rewrite Hrun2 set_arrays_twice. done.
  - replace (Z.of_nat i + 1) with (Z.of_nat (S i)) by lia.
    apply IH; try done; try lia.
    rewrite (take_S_r _ _ _ Hx) /unblocked filter_app. f_equal; [exact Hpre|].
    by rewrite filter_cons_True.
Qed.
End removal.

(** * The loops over the map *)

Section loops.
Context `{GoRuntime}.
Implicit Types (w : world) (s : go_slice).

Lemma softs_of_lookup w c : softs_of w !! c = contents w <$> softMap w !! c.
Proof. apply lookup_fmap. Qed.

Lemma update_softs w c s a a' n :
  well_formed w → softMap w !! c = Some s → arrays w !! s_array s = Some a → length a' = length a →
  (n ≤ s_cap s)%nat →
  let w' := set_softMap <[c := with_len s n]> (set_arrays <[s_array s := a']> w) in
  well_formed w' ∧ softs_of w' = <[c := elements_of a' (with_len s n)]> (softs_of w).
Proof.
  intros [Hv Hsep] Hc Ha Hl Hn w'.
  assert (∀ d t, d ≠ c → softMap w !! d = Some t → s_array t ≠ s_array s) as Hother.
  { intros d t Hd Ht Heq. apply Hd. by eapply Hsep. }
  split; [split|].
  - intros d t. cbn. rewrite lookup_insert_Some. intros [[<- <-]|[Hd Ht]].
    + destruct (Hv _ _ Hc) as (Hlc & b & Hb & Hcap). rewrite Ha in Hb. injection Hb as <-.
      split; [cbn; lia|]. exists a'. split; [apply lookup_insert_eq|cbn; lia].
    + destruct (Hv _ _ Ht) as (Hlc & b & Hb & Hcap). split; [done|]. exists b.
      split; [|done]. cbn. by rewrite lookup_insert_ne //; apply not_eq_sym, (Hother d).
  - intros d e t u. cbn. rewrite !lookup_insert_Some.
    intros [[<- <-]|[Hd Ht]] [[<- <-]|[He Hu]] Heq; try done.
    + exfalso. by eapply (Hother e).
    + exfalso. by eapply (Hother d).
    + by eapply Hsep.
  - apply map_eq. intros d. rewrite softs_of_lookup /=. destruct (decide (c = d)) as [<-|Hd].
    + rewrite !lookup_insert_eq /=. f_equal. apply contents_at. apply lookup_insert_eq.
    + rewrite !lookup_insert_ne // softs_of_lookup. destruct (softMap w !! d) as [t|] eqn:Ht; [|done]. cbn. f_equal.
      unfold contents. cbn. by rewrite lookup_insert_ne //; apply not_eq_sym, (Hother d).
Qed.

Lemma unblocked_twice bm xs : unblocked bm (unblocked bm xs) = unblocked bm xs.
Proof. unfold unblocked. rewrite list_filter_filter. apply list_filter_iff. tauto. Qed.

Lemma filter_cates_done bm order w :
  well_formed w →
  ∃ w', filter_cates bm order w = (Done (), w') ∧ well_formed w' ∧ output w' = output w ∧
    ∀ c, softs_of w' !! c = (if decide (c ∈ order) then unblocked bm else id) <$> softs_of w !! c.
Proof.
  revert w. induction order as [|c order IH]; intros w Hw.
  { exists w. split_and!; try done. intros d.
    destruct (decide _) as [Hd|_]; [by apply elem_of_nil in Hd|]. by rewrite option_fmap_id. }
  cbn [filter_cates]. erewrite bind_done; [|unfold gets; reflexivity].
  destruct (softMap w !! c) as [s|] eqn:Hs.
  - destruct Hw as [Hv Hsep]. destruct (Hv _ _ Hs) as (Hl & a & Ha & Hc).
    destruct (remove_blocked_done bm (S (s_len s)) 0 w s a) as (a' & Hl' & He & Hrun);
      [done..|lia|lia|]. cbv zeta in *.
    erewrite bind_done; [|exact Hrun]. erewrite bind_done; [|unfold modify; reflexivity].
    set (kept := unblocked bm (elements_of a s)) in *.
    assert (length kept ≤ s_len s)%nat as Hk.
    { rewrite -(window_length a (s_offset s) (s_len s)); [lia|]. apply length_filter. }
    destruct (update_softs w c s a a' (length kept)) as [Hw1 Heq]; [done..|lia|].
    destruct (IH _ Hw1) as (w' & Hrun' & Hw' & Ho & Hsofts). exists w'. split_and!; [done..|].
    intros d. rewrite Hsofts Heq He. destruct (decide (c = d)) as [<-|Hd].
    + rewrite lookup_insert_eq softs_of_lookup Hs /= (contents_at _ _ _ Ha) -/kept.
      destruct (decide (c ∈ c :: order)) as [_|Hn]; [|set_solver].
      by destruct (decide _); cbn; rewrite ?unblocked_twice.
    + rewrite lookup_insert_ne //. f_equal. repeat destruct (decide _); set_solver.
  - destruct (IH w Hw) as (w' & Hrun' & Hw' & Ho & Hsofts). exists w'. split_and!; [done..|].
    intros d. rewrite Hsofts. destruct (decide (c = d)) as [<-|Hd]; [by rewrite softs_of_lookup Hs|].
    f_equal. repeat destruct (decide _); set_solver.
Qed.

Lemma empty_cates_done order acc w :
  well_formed w →
  empty_cates order acc w = (Done (acc ++ filter (λ c, softs_of w !! c = Some []) order), w).
Proof.
  intros [Hv Hsep]. revert acc. induction order as [|c order IH]; intros acc; [by rewrite app_nil_r|].
  cbn [empty_cates]. erewrite bind_done; [|unfold gets; reflexivity].
  pose proof (softs_of_lookup w c) as Hc. destruct (softMap w !! c) as [s|] eqn:Hs; cbn in Hc.
  - rewrite IH. f_equal. f_equal. pose proof (valid_length _ _ (Hv _ _ Hs)) as Hl.
    destruct (s_len s =? 0)%nat eqn:H0.
    + apply Nat.eqb_eq in H0. rewrite H0 in Hl. apply nil_length_inv in Hl. rewrite Hl in Hc.
      by rewrite filter_cons_True // -app_assoc.
    + apply Nat.eqb_neq in H0. rewrite filter_cons_False //. rewrite Hc. intros [=Hn]. by rewrite Hn in Hl.
  - rewrite IH filter_cons_False //. by rewrite Hc.
Qed.

Lemma block_map_None vs bm x : block_map vs bm !! x = None ↔ x ∉ vs ∧ bm !! x = None.
Proof.
  revert bm. induction vs as [|v vs IH]; intros bm; cbn; [set_solver|].
  rewrite IH not_elem_of_cons lookup_insert_None. naive_solver.
Qed.

Lemma unblocked_filter vs xs : unblocked (block_map vs ∅) xs = filter (λ x, x ∉ vs) xs.
Proof. apply list_filter_iff. intros x. rewrite block_map_None. set_solver. Qed.

Lemma filter_ext_in {A} (P Q : A → Prop) `{!∀ x, Decision (P x), !∀ x, Decision (Q x)} (xs : list A) :
  (∀ x, x ∈ xs → P x ↔ Q x) → filter P xs = filter Q xs.
Proof.
  induction xs as [|x xs IH]; intros Hx; [done|].
  assert (filter P xs = filter Q xs) as Heq by (apply IH; intros y Hy; apply Hx; by right).
  pose proof (Hx x (list_elem_of_here _ _)) as Hxx.
  destruct (decide (P x)); [rewrite !filter_cons_True ?Heq //; tauto|rewrite !filter_cons_False ?Heq //; tauto].
Qed.

Lemma filter_nil_iff {A} (P : A → Prop) `{!∀ x, Decision (P x)} (xs : list A) :
  filter P xs = [] ↔ Forall (λ x, ¬ P x) xs.
Proof.
  induction xs as [|x xs IH]; [by split|]. rewrite Forall_cons -IH.
  destruct (decide (P x)); [rewrite filter_cons_True //|rewrite filter_cons_False //]; naive_solver.
Qed.
Lemma kept_all_blocked (vs xs : list Z) :
  Forall (λ x, x ∈ vs) (filter (λ x, x ∉ vs) xs) ↔ Forall (λ x, x ∈ vs) xs.
Proof.
  rewrite !Forall_forall. split.
  - intros Hall x Hx. destruct (decide (x ∈ vs)) as [|Hn]; [done|].
    apply Hall. by apply list_elem_of_filter.
  - intros Hall x [_ Hx]%list_elem_of_filter. by apply Hall.
Qed.
End loops.

Lemma blocked_categories_run `{GoRuntime} (order1 order2 blockedSofts : list Z) (w : world) :
  well_formed w →
  order1 ≡ₚ elements (dom (softMap w)) → order2 ≡ₚ elements (dom (softMap w)) →
  ∃ w',
    getBlockedCates order1 order2 blockedSofts w =
      (Done (filter (λ cate, Forall (λ soft, soft ∈ blockedSofts) (default [] (softs_of w !! cate))) order2), w') ∧
    softs_of w' = filter (λ soft, soft ∉ blockedSofts) <$> softs_of w ∧
    well_formed w' ∧ output w' = output w.
Proof.
  intros Hw H1 H2. unfold getBlockedCates.
  destruct (filter_cates_done (block_map blockedSofts ∅) order1 w Hw) as (w' & Hrun & Hw' & Ho & Hsofts).
  assert (softs_of w' = filter (λ soft, soft ∉ blockedSofts) <$> softs_of w) as Hall.
  { apply map_eq. intros c. rewrite Hsofts lookup_fmap. destruct (softs_of w !! c) as [xs|] eqn:Hc; [|done].
    destruct (decide _) as [_|Hn]; [by rewrite /= unblocked_filter|]. exfalso. apply Hn.
    rewrite H1 elem_of_elements elem_of_dom. rewrite softs_of_lookup in Hc. by destruct (softMap w !! c). }
  exists w'. split_and!; [|done..]. erewrite bind_done; [|exact Hrun]. rewrite empty_cates_done // app_nil_l.
  f_equal. f_equal. rewrite Hall. apply filter_ext_in. intros c Hc. rewrite lookup_fmap.
  rewrite H2 elem_of_elements elem_of_dom in Hc.
  assert (is_Some (softs_of w !! c)) as [xs Hxs] by by rewrite softs_of_lookup fmap_is_Some.
  rewrite Hxs /=. split.
  - intros [=Hn]. apply filter_nil_iff in Hn. eapply Forall_impl; [exact Hn|]. intros x Hx. by apply dec_stable.
  - intros Hf. f_equal. apply filter_nil_iff. eapply Forall_impl; [exact Hf|]. auto.
Qed.

(** * Reading the categories *)

Section reading.
Context `{GoRuntimeLaws}.
Implicit Types (w : world) (s : go_slice).

(** A slice on a new array. *)
Lemma place_softs w c a n cap :
  well_formed w → (n ≤ cap)%nat → (cap ≤ length a)%nat →
  let p := fresh (dom (arrays w)) in
  let w' := set_softMap <[c := Slice p 0 n cap]> (set_arrays <[p := a]> w) in
  well_formed w' ∧ softs_of w' = <[c := take n a]> (softs_of w).
Proof.
  intros [Hv Hsep] Hn Hcap p w'.
  assert (∀ d t, softMap w !! d = Some t → s_array t ≠ p) as Hother.
  { intros d t Ht Heq. destruct (Hv _ _ Ht) as (_ & b & Hb & _). rewrite Heq in Hb.
    apply (is_fresh (dom (arrays w))). by apply elem_of_dom_2 in Hb. }
  split; [split|].
  - intros d t. cbn. rewrite lookup_insert_Some. intros [[<- <-]|[Hd Ht]].
    + split; [done|]. exists a. by rewrite lookup_insert_eq.
    + destruct (Hv _ _ Ht) as (Hl & b & Hb & Hc). split; [done|]. exists b. split; [|done]. cbn.
      rewrite lookup_insert_ne //. by apply not_eq_sym, (Hother d).
  - intros d e t u. cbn. rewrite !lookup_insert_Some.
    intros [[<- <-]|[Hd Ht]] [[<- <-]|[He Hu]] Heq; try done.
    + exfalso. by apply (Hother e u Hu).
    + exfalso. by apply (Hother d t Ht).
    + by eapply Hsep.
  - apply map_eq. intros d. rewrite softs_of_lookup /=. destruct (decide (c = d)) as [<-|Hd].
    + rewrite !lookup_insert_eq /=. f_equal. unfold contents. cbn. by rewrite lookup_insert_eq.
    + rewrite !lookup_insert_ne // softs_of_lookup. destruct (softMap w !! d) as [t|] eqn:Ht; [|done]. cbn. f_equal.
      unfold contents. cbn. rewrite lookup_insert_ne //. by apply not_eq_sym, (Hother d).
Qed.

(** softMap[c] = append(softMap[c], x). *)
Lemma append_soft w c s x :
  well_formed w → softMap w !! c = Some s →
  ∃ t w', append_elements s [x] w = (Done t, w') ∧ output w' = output w ∧ softMap w' = softMap w ∧
    well_formed (set_softMap <[c := t]> w') ∧
    softs_of (set_softMap <[c := t]> w') = <[c := contents w s ++ [x]]> (softs_of w).
Proof.
  intros Hw Hs. destruct Hw as [Hv Hsep]. destruct (Hv _ _ Hs) as (Hl & a & Ha & Hc).
  unfold append_elements. cbn [length]. destruct (s_len s + 1 <=? s_cap s)%nat eqn:Hcap.
  - apply Nat.leb_le in Hcap.
    set (a' := write_at (s_offset s + s_len s) [x] a).
    destruct (update_softs w c s a a' (s_len s + 1)) as [Hw' Heq];
      [done|done|done|apply write_at_length; cbn; lia|lia|].
    exists (with_len s (s_len s + 1)), (set_arrays <[s_array s := a']> w). split_and!; try done.
    + erewrite bind_done; [|unfold modify; reflexivity]. by rewrite (set_arrays_alter _ _ _ a Ha).
    + rewrite Heq (contents_at _ _ _ Ha). do 2 f_equal. apply (window_write a (s_offset s) (s_len s) [x]). cbn. lia.
  - apply Nat.leb_gt in Hcap. pose proof (growslice_enough (s_cap s) (s_len s + 1)) as Hg.
    set (cap := growslice _ _) in *. set (a' := contents w s ++ [x] ++ replicate (cap - (s_len s + 1)) 0).
    pose proof (valid_length w s (Hv _ _ Hs)) as Hlen.
    destruct (place_softs w c a' (s_len s + 1) cap) as [Hw' Heq]; [done|done| |].
    { rewrite /a' !length_app length_replicate Hlen. cbn. lia. }
    eexists _, _. split; [|split_and!; [..|exact Hw'|]]; [|done..|].
    + erewrite bind_done; [|unfold gets; reflexivity]. by erewrite bind_done; [|unfold new_array; reflexivity].
    + rewrite Heq. f_equal. rewrite /a' app_assoc take_app_le; [rewrite length_app Hlen; cbn; lia|].
      apply take_ge. rewrite length_app Hlen. cbn. lia.
Qed.

Lemma append_softs_done c softs w xs :
  well_formed w → softs_of w !! c = Some xs →
  ∃ w', append_softs c softs w = (Done (), w') ∧ output w' = output w ∧ well_formed w' ∧
    softs_of w' = <[c := xs ++ softs]> (softs_of w).
Proof.
  revert w xs. induction softs as [|x softs IH]; intros w xs Hw Hxs.
  { exists w. split_and!; try done. by rewrite app_nil_r insert_id. }
  cbn [append_softs]. rewrite softs_of_lookup in Hxs.
  destruct (softMap w !! c) as [s|] eqn:Hs; [injection Hxs as Hxs|done].
  destruct (append_soft w c s x Hw Hs) as (t & w1 & Hrun & Ho & Hm & Hw1 & Heq).
  erewrite bind_done; [|unfold gets; reflexivity]. rewrite Hs. cbn [default].
  erewrite bind_done; [|exact Hrun]. erewrite bind_done; [|unfold modify; reflexivity].
  destruct (IH _ (xs ++ [x]) Hw1) as (w' & Hrun' & Ho' & Hw' & Heq').
  { by rewrite Heq Hxs lookup_insert_eq. }
  exists w'. split_and!; [done|by rewrite Ho'|done|]. by rewrite Heq' Heq insert_insert_eq -app_assoc.
Qed.

Context `{Redis}.

(** The category of a key, if it has one. *)
Definition category (key : string) : option Z := cate ← Split key ":" !! 1%nat; ParseInt cate 32.

(** The categories that are read before the first error, and the error. *)
Fixpoint replies (r : connection) (keys : list string) : list (Z * list Z) * list line :=
  match keys with
  | [] => ([], [])
  | key :: keys =>
    match category key with
    | None => replies r keys
    | Some cate =>
      match LRANGE r key with
      | inl err => ([], [PrintlnError err])
      | inr softs => let '(cs, out) := replies r keys in ((cate, softs) :: cs, out)
      end
    end
  end.

(** Later entries replace earlier ones. *)
Definition categories (cs : list (Z * list Z)) (m : gmap Z (list Z)) : gmap Z (list Z) :=
  foldl (λ m '(cate, softs), <[cate := softs]> m) m cs.

Lemma read_keys_done r keys w :
  well_formed w → Forall (λ key, is_Some (Split key ":" !! 1%nat)) keys →
  ∃ w', read_keys r keys w = (Done (), w') ∧ well_formed w' ∧
    output w' = output w ++ snd (replies r keys) ∧ softs_of w' = categories (fst (replies r keys)) (softs_of w).
Proof.
  intros Hw Hkeys. revert w Hw. induction Hkeys as [|key keys [piece Hp] Hkeys IH]; intros w Hw.
  { exists w. by rewrite app_nil_r. }
  cbn [read_keys replies]. unfold category. rewrite Hp. cbn [mbind option_bind].
  destruct (ParseInt piece 32) as [cate|]; [|by apply IH].
  destruct (LRANGE r key) as [err|softs].
  { eexists. split; [done|]. split; [exact Hw|]. by split. }
  destruct (place_softs w cate [] 0 0) as [Hw0 Heq0]; [done..|].
  destruct (append_softs_done cate softs _ [] Hw0) as (w1 & Hrun1 & Ho1 & Hw1 & Heq1).
  { by rewrite Heq0 lookup_insert_eq. }
  destruct (IH w1 Hw1) as (w' & Hrun & Hw' & Ho & Heq).
  erewrite bind_done; [|unfold new_array; reflexivity]. erewrite bind_done; [|unfold modify; reflexivity].
  erewrite bind_done; [|exact Hrun1]. exists w'. split; [exact Hrun|].
  destruct (replies r keys) as [cs out]. cbn in *. rewrite Ho Ho1 Heq Heq1 Heq0.
  split_and!; [done..|]. by rewrite insert_insert_eq.
Qed.
End reading.

(** * The program *)

Section program.
Context `{GoRuntimeLaws, Redis}.

(** What initSoftMap reads, and the error it prints. *)
Definition database (redisConnStr : string) : list (Z * list Z) * list line :=
  match Dial redisConnStr with
  | inl err => ([], [PrintlnError err])
  | inr r =>
    match KEYS r "cloud_cate_children:*" with
    | inl err => ([], [PrintlnError err])
    | inr keys => replies r keys
    end
  end.

(** The server only returns keys that match the pattern. *)
Definition keys_match (redisConnStr : string) : Prop :=
  ∀ r keys, Dial redisConnStr = inr r → KEYS r "cloud_cate_children:*" = inr keys →
    Forall (λ key, is_Some (Split key ":" !! 1%nat)) keys.

Lemma initSoftMap_done conn w :
  keys_match conn →
  ∃ w', initSoftMap conn w = (Done (), w') ∧ well_formed w' ∧
    output w' = output w ++ snd (database conn) ∧ softs_of w' = categories (fst (database conn)) ∅.
Proof.
  intros Hkeys. unfold initSoftMap, database. erewrite bind_done; [|unfold modify; reflexivity].
  set (w0 := set_softMap (λ _, ∅) w). assert (well_formed w0) as Hw0 by done.
  assert (softs_of w0 = ∅) as Hempty by apply fmap_empty.
  destruct (Dial conn) as [err|r] eqn:Hr; [by eexists|].
  destruct (KEYS r _) as [err|keys] eqn:Hk; [by eexists|].
  rewrite -Hempty. by apply (read_keys_done r keys w0 Hw0 (Hkeys r keys Hr Hk)).
Qed.

(** block_soft.go ends without a panic for every database whose keys match the pattern
    of the query: it prints the error that stops the reading, if there is one, and then,
    in some order and without repetition, the categories it read all of whose software is
    blocked. *)
Theorem main_prints_blocked (order1 order2 : gmap Z go_slice → list Z) (w : world) :
  keys_match "172.24.2.217:6378" →
  (∀ m, order1 m ≡ₚ elements (dom m)) → (∀ m, order2 m ≡ₚ elements (dom m)) →
  let '(read, errors) := database "172.24.2.217:6378" in
  let softMap := categories read ∅ in
  ∃ w' cates, main order1 order2 w = (Done (), w') ∧
    output w' = output w ++ errors ++ [PrintlnInts cates] ∧ NoDup cates ∧
    ∀ cate, cate ∈ cates ↔
      ∃ softs, softMap !! cate = Some softs ∧ ∀ soft, soft ∈ softs → soft ∈ [103356856; 100114658; 10257].
Proof.
  intros Hkeys Hp1 Hp2. destruct (initSoftMap_done _ w Hkeys) as (w1 & Hrun & Hw1 & Ho & Heq).
  destruct (database _) as [read errors]. cbn in *.
  destruct (blocked_categories_run (order1 (softMap w1)) (order2 (softMap w1)) [103356856; 100114658; 10257] w1)
    as (w2 & Hrun2 & _ & _ & Ho2); [done..|].
  eexists _, _. split.
  { unfold main. erewrite bind_done; [|exact Hrun]. erewrite bind_done; [|unfold gets; reflexivity].
    erewrite bind_done; [|exact Hrun2]. reflexivity. }
  cbn. split; [by rewrite Ho2 Ho -app_assoc|]. split.
  - apply NoDup_filter. rewrite Hp2. apply NoDup_elements.
  - intros cate. rewrite list_elem_of_filter Hp2 elem_of_elements -(dom_fmap_L (contents w1)) -/(softs_of w1) Heq elem_of_dom.
    rewrite Forall_forall. split.
    + intros [Hall [softs Hs]]. exists softs. rewrite Hs in Hall. by split.
    + intros (softs & Hs & Hall). rewrite Hs. by split.
Qed.
End program.

(** C12. getBlockedCates ends without a panic in categories that share no array: it
    returns, in the order of its second loop, the categories all of whose software is
    blocked, the empty ones included. It leaves in the map it was given only the software
    that is not blocked, in its old order; run again on that map, it returns the same
    categories. *)
Theorem blocked_categories `{GoRuntime} (order1 order2 order3 order4 blockedSofts : list Z) (w : world) :
  let keys := elements (dom (softMap w)) in
  well_formed w → order1 ≡ₚ keys → order2 ≡ₚ keys → order3 ≡ₚ keys → order4 ≡ₚ keys →
  let blocked := filter (λ cate, Forall (λ soft, soft ∈ blockedSofts) (default [] (softs_of w !! cate))) in
  ∃ w1 w2,
    getBlockedCates order1 order2 blockedSofts w = (Done (blocked order2), w1) ∧
    softs_of w1 = filter (λ soft, soft ∉ blockedSofts) <$> softs_of w ∧
    well_formed w1 ∧ output w1 = output w ∧
    getBlockedCates order3 order4 blockedSofts w1 = (Done (blocked order4), w2) ∧ softs_of w2 = softs_of w1.
Proof.
  intros keys Hw H1 H2 H3 H4 blocked.
  destruct (blocked_categories_run order1 order2 blockedSofts w Hw H1 H2) as (w1 & Hrun1 & Heq1 & Hw1 & Ho1).
  assert (dom (softMap w1) = dom (softMap w)) as Hdom.
  { rewrite -(dom_fmap_L (contents w1)) -/(softs_of w1) Heq1 dom_fmap_L. apply dom_fmap_L. }
  destruct (blocked_categories_run order3 order4 blockedSofts w1 Hw1) as (w2 & Hrun2 & Heq2 & _);
    [by rewrite Hdom|by rewrite Hdom|].
  exists w1, w2. split_and!; [done..| |].
  - rewrite Hrun2. f_equal. f_equal. apply filter_ext_in. intros cate _.
    rewrite Heq1 lookup_fmap. destruct (softs_of w !! cate) as [xs|]; [|done]. apply kept_all_blocked.
  - rewrite Heq2 Heq1 -map_fmap_compose. apply map_fmap_ext. intros c xs _. cbn.
    rewrite list_filter_filter. apply list_filter_iff. tauto.
Qed.

(** * Samples *)

#[local] Instance sample_growslice : GoRuntime := λ cap needed, Nat.max needed (2 * cap).
#[local] Instance sample_growslice_laws : GoRuntimeLaws.
Proof. intros cap needed. unfold growslice, sample_growslice. lia. Qed.

(** Two categories of the program's documentation, and one with its key written twice. *)
#[local] Instance sample_redis : Redis := {|
  connection := unit;
  Dial _ := inr ();
  KEYS _ _ := inr ["cloud_cate_children:1"; "cloud_cate_children:x"; "cloud_cate_children:2"; "cloud_cate_children:02"];
  LRANGE _ key := inr (if bool_decide (key = "cloud_cate_children:1") then [10257; 7]
                       else if bool_decide (key = "cloud_cate_children:2") then [10257; 8; 103356856]
                       else [103356856; 10257]);
|}.

Definition keys_of (m : gmap Z go_slice) : list Z := elements (dom m).

Lemma main_prints_blocked_witness :
  let w := World ∅ ∅ [] in
  ∃ w', main keys_of keys_of w = (Done (), w') ∧ ∃ cates, output w' = [PrintlnInts cates] ∧ 2 ∈ cates ∧ 1 ∉ cates.
Proof.
  intros w.
  assert (keys_match "172.24.2.217:6378") as Hk.
  { intros r keys _ [= <-]. repeat constructor; by eexists. }
  destruct (main_prints_blocked keys_of keys_of w Hk (λ m, Permutation_refl _) (λ m, Permutation_refl _))
    as (w' & cates & Hrun & Ho & _ & Hc).
  exists w'. split; [exact Hrun|]. exists cates. split; [exact Ho|].
  split; [apply Hc|rewrite Hc].
  - exists [103356856; 10257]. split; [by vm_compute|]. apply Forall_forall. vm_decide.
  - intros (softs & Hs & Hall). vm_compute in Hs. injection Hs as <-.
    assert (7 ∈ [10257; 7]) as H7 by vm_decide. apply Hall in H7. revert H7. vm_decide.
Defined.

(** Categories 1 and 2 of the documentation, on arrays of their own. *)
Definition two_categories : world :=
  World {[ 1 := [1; 2; 0]; 2 := [2; 3] ]} {[ 10 := Slice 1 0 2 3; 20 := Slice 2 0 2 2 ]} [].

Lemma blocked_categories_witness :
  ∃ w1 w2, getBlockedCates [20; 10] [10; 20] [2; 3; 4] two_categories = (Done [20], w1) ∧
    softs_of w1 !! 10 = Some [1] ∧ getBlockedCates [10; 20] [20; 10] [2; 3; 4] w1 = (Done [20], w2).
Proof.
  destruct (blocked_categories [20; 10] [10; 20] [10; 20] [20; 10] [2; 3; 4] two_categories)
    as (w1 & w2 & Hrun & Hs & _ & _ & Hrun2 & _).
  - split.
    + intros c s. cbn. rewrite !lookup_insert_Some lookup_empty.
      intros [[<- <-]|[_ [[<- <-]|[_ ?]]]]; [| |done].
      * split; [cbn; lia|]. exists [1; 2; 0]. by split.
      * split; [cbn; lia|]. exists [2; 3]. by split.
    + intros c d s t. cbn. rewrite !lookup_insert_Some !lookup_empty. naive_solver.
  - vm_compute. constructor.
  - reflexivity.
  - reflexivity.
  - vm_compute. constructor.
  - exists w1, w2. split; [exact Hrun|]. split; [|exact Hrun2]. rewrite Hs. reflexivity.
Defined.

(** Two categories on one array: software 5 is blocked, so category 20 is, but the removal
    of 5 from category 10 puts 6 into the array of category 20. *)
Example shared_arrays_mislead :
  let w := World {[ 1 := [5; 6] ]} {[ 10 := Slice 1 0 2 2; 20 := Slice 1 0 1 2 ]} [] in
  softs_of w !! 20 = Some [5] ∧
  fst (getBlockedCates [10; 20] [10; 20] [5] w) = Done [] ∧
  fst (getBlockedCates [20; 10] [20; 10] [5] w) = Done [20].
Proof. by vm_compute. Qed.
