(* ===== verification/BinaryTree.v ===== *)
(** The binary search tree (src/algorithm/binary-tree/normal/binary-tree.cpp):
    nodes on the heap, insertion through a [Node *&] reference, and the
    recursive print. *)

From stdpp Require Import pretty sorting.
From S2P Require Import Prelude Machine Mem.
#[local] Open Scope Z_scope.

(** * State *)

Record Node : Type := MkNode { value : Z; left : ptr; right : ptr }.

(** The tree object's [root] member, the heap, and what was printed. *)
Record state : Type := St { root : ptr; nodes : mem Node; cout : string }.

Definition set_nodes (h : mem Node) (s : state) : state := St (root s) h (cout s).
Definition set_root (p : ptr) (s : state) : state := St p (nodes s) (cout s).
Definition print (o : string) : cmd state unit :=
  modify (λ s, St (root s) (nodes s) (cout s +:+ o)).

Definition on_nodes {A} (m : cmd (mem Node) A) : cmd state A := zoom nodes set_nodes m.

(** What a parameter [Node *& root] can refer to: the member [root] of the
    tree, or the [left] or [right] member of a node. *)
Inductive slot : Type :=
  | RootSlot
  | LeftSlot (p : ptr)
  | RightSlot (p : ptr).

(** * Operations *)

Section operations.
Context {MA : Malloc}.

Definition read_slot (r : slot) : cmd state ptr :=
  match r with
  | RootSlot => gets root
  | LeftSlot p => n ← on_nodes (load p); mret (left n)
  | RightSlot p => n ← on_nodes (load p); mret (right n)
  end.

Definition write_slot (r : slot) (q : ptr) : cmd state unit :=
  match r with
  | RootSlot => modify (set_root q)
  | LeftSlot p => n ← on_nodes (load p); on_nodes (store p (MkNode (value n) q (right n)))
  | RightSlot p => n ← on_nodes (load p); on_nodes (store p (MkNode (value n) (left n) q))
  end.

(** new Node{...}: out of memory, std::bad_alloc is not caught. *)
Definition new_Node (n : Node) : cmd state ptr :=
  p ← on_nodes (malloc n);
  if bool_decide (p = NULL) then abort else mret p.

Fixpoint push_data_aux (fuel : nat) (r : slot) (pnode : ptr) : cmd state unit :=
  match fuel with
  | O => unfinished
  | S fuel =>
    assert_ (bool_decide (pnode ≠ NULL));;
    p ← read_slot r;
    if bool_decide (p = NULL) then write_slot r pnode else
    a ← on_nodes (load pnode);
    b ← on_nodes (load p);
    if bool_decide (value a < value b) then
      if bool_decide (left b = NULL) then write_slot (LeftSlot p) pnode
      else push_data_aux fuel (LeftSlot p) pnode
    else
      if bool_decide (right b = NULL) then write_slot (RightSlot p) pnode
      else push_data_aux fuel (RightSlot p) pnode
  end.

(** One call per level, and a tree has no more levels than nodes. *)
Definition tree_fuel (s : state) : nat := S (size (cells (nodes s))).

Definition push_data (v : Z) : cmd state unit :=
  pnode ← new_Node (MkNode v NULL NULL);
  s ← get;
  push_data_aux (tree_fuel s) RootSlot pnode.

Fixpoint preorder_print_aux (fuel : nat) (p : ptr) : cmd state unit :=
  if bool_decide (p = NULL) then mret () else
  match fuel with
  | O => unfinished
  | S fuel =>
    n ← on_nodes (load p);
    preorder_print_aux fuel (left n);;
    n ← on_nodes (load p);
    print (pretty (value n) +:+ " ");;
    n ← on_nodes (load p);
    preorder_print_aux fuel (right n)
  end.

Definition newline : string := String (Ascii.ascii_of_nat 10) EmptyString.

Definition preorder_print : cmd state unit :=
  s ← get;
  preorder_print_aux (tree_fuel s) (root s);;
  print newline.

(** BinaryTree btree; *)
Definition new_tree : state := St NULL empty_mem EmptyString.

Fixpoint push_all (vs : list Z) : cmd state unit :=
  match vs with
  | [] => mret ()
  | v :: vs => push_data v;; push_all vs
  end.

Definition main_array : list Z := [1; 3; 14; 32; 22; 31; 98; 5; 54; 23; 2].

Definition main : cmd state unit := push_all main_array;; preorder_print.
End operations.

(** * Trees *)

(** A tree of values, each with the address of its node. *)
Inductive tree : Type :=
  | Leaf
  | Branch (l : tree) (a : loc) (v : Z) (r : tree).

#[export] Instance tree_eq_dec : EqDecision tree.
Proof. solve_decision. Defined.

Fixpoint tree_at (m : gmap loc Node) (p : ptr) (t : tree) : Prop :=
  match t with
  | Leaf => p = NULL
  | Branch l a v r => p = Some a ∧ ∃ pl pr,
      m !! a = Some (MkNode v pl pr) ∧ tree_at m pl l ∧ tree_at m pr r
  end.

Fixpoint addrs (t : tree) : list loc :=
  match t with
  | Leaf => []
  | Branch l a v r => a :: addrs l ++ addrs r
  end.

Fixpoint inorder (t : tree) : list Z :=
  match t with
  | Leaf => []
  | Branch l a v r => inorder l ++ v :: inorder r
  end.

Fixpoint depth (t : tree) : nat :=
  match t with
  | Leaf => 0
  | Branch l a v r => S (depth l `max` depth r)
  end.

(** Where push_data puts a new node: equal values go to the right. *)
Fixpoint insert_node (a : loc) (v : Z) (t : tree) : tree :=
  match t with
  | Leaf => Branch Leaf a v Leaf
  | Branch l b w r =>
    if bool_decide (v < w) then Branch (insert_node a v l) b w r
    else Branch l b w (insert_node a v r)
  end.

(** Search-tree order: smaller values left, the others right. *)
Fixpoint ordered (t : tree) : Prop :=
  match t with
  | Leaf => True
  | Branch l a v r =>
    Forall (λ w, w < v) (inorder l) ∧ Forall (λ w, v ≤ w) (inorder r) ∧ ordered l ∧ ordered r
  end.

Section trees.
Implicit Types (t : tree) (m : gmap loc Node).

Lemma tree_at_frame m m' p t :
  tree_at m p t → (∀ a, a ∈ addrs t → m' !! a = m !! a) → tree_at m' p t.
Proof.
  revert p. induction t as [|l IHl a v r IHr]; intros p; [done|].
  intros (-> & pl & pr & Ha & Hl & Hr) Hm. split; [done|]. exists pl, pr.
  split_and!; [rewrite Hm //; set_solver|apply IHl|apply IHr]; set_solver.
Qed.

Lemma addrs_live m p t a : tree_at m p t → a ∈ addrs t → is_Some (m !! a).
Proof.
  revert p. induction t as [|l IHl b v r IHr]; intros p; [set_solver|].
  intros (-> & pl & pr & Hb & Hl & Hr). simpl.
  rewrite elem_of_cons elem_of_app. intros [->|[?|?]]; eauto.
Qed.

Lemma depth_addrs t : (depth t ≤ length (addrs t))%nat.
Proof. induction t; simpl; [done|]. rewrite length_app. lia. Qed.

Lemma depth_size m p t : tree_at m p t → NoDup (addrs t) → (depth t ≤ size m)%nat.
Proof.
  intros Ht Hnd. etrans; [apply depth_addrs|].
  rewrite -(size_list_to_set (C:=gset loc)) // -size_dom. apply subseteq_size.
  intros a. rewrite elem_of_list_to_set elem_of_dom. by eapply addrs_live.
Qed.

Lemma tree_at_null m t : tree_at m NULL t → t = Leaf.
Proof. destruct t; [done|]. by intros [? _]. Qed.

Lemma addrs_insert a v t : addrs (insert_node a v t) ≡ₚ a :: addrs t.
Proof.
  induction t as [|l IHl b w r IHr]; simpl; [done|]. case_bool_decide; simpl.
  - rewrite IHl. solve_Permutation.
  - rewrite IHr. solve_Permutation.
Qed.

Lemma inorder_insert a v t : inorder (insert_node a v t) ≡ₚ v :: inorder t.
Proof.
  induction t as [|l IHl b w r IHr]; simpl; [done|]. case_bool_decide; simpl.
  - rewrite IHl. solve_Permutation.
  - rewrite IHr. solve_Permutation.
Qed.

Lemma ordered_insert a v t : ordered t → ordered (insert_node a v t).
Proof.
  induction t as [|l IHl b w r IHr]; simpl; [by repeat constructor|].
  intros (Hl & Hr & Hol & Hor). case_bool_decide; simpl;
    (split_and!; [| |by eauto..]); rewrite ?inorder_insert; try done;
    constructor; [done|done|lia|done].
Qed.

Lemma ordered_sorted t : ordered t → StronglySorted Z.le (inorder t).
Proof.
  induction t as [|l IHl a v r IHr]; simpl; [constructor|].
  intros (Hl & Hr & Hol & Hor). rewrite !Forall_forall in Hl Hr.
  apply StronglySorted_app_2; [|by apply IHl|].
  - intros x y Hx. rewrite elem_of_cons. intros [->|Hy].
    + by apply Z.lt_le_incl, Hl.
    + pose proof (Hl _ Hx). pose proof (Hr _ Hy). lia.
  - constructor; [by apply IHr|]. by apply Forall_forall.
Qed.
End trees.

(** * What the operations do *)

Section specs.
Context {MA : Malloc}.
Implicit Types (s : state) (t : tree) (m : gmap loc Node) (a b c : loc).

Lemma on_nodes_done {A} (k : cmd (mem Node) A) s x h :
  k (nodes s) = (Done x, h) → on_nodes k s = (Done x, set_nodes h s).
Proof. apply zoom_done. Qed.

Lemma on_nodes_load s a n :
  cells (nodes s) !! a = Some n → on_nodes (load (Some a)) s = (Done n, s).
Proof.
  intros Ha. erewrite on_nodes_done by by eapply load_live. by destruct s.
Qed.

Lemma on_nodes_store s a n n' :
  cells (nodes s) !! a = Some n →
  on_nodes (store (Some a) n') s =
    (Done (), set_nodes (Mem (<[a := n']> (cells (nodes s))) (calls (nodes s))) s).
Proof. intros Ha. by erewrite on_nodes_done by by eapply store_live. Qed.

Lemma tree_at_leaf_insert m a v :
  m !! a = Some (MkNode v NULL NULL) → tree_at m (Some a) (insert_node a v Leaf).
Proof. intros Ha. split; [done|]. by exists NULL, NULL. Qed.

(** Insertion below a node that the reference already points to: the
    reference is only read, and no node outside the subtree changes. *)
Lemma push_aux_branch t fuel r s p a v :
  t ≠ Leaf → read_slot r s = (Done p, s) →
  tree_at (cells (nodes s)) p t → NoDup (addrs t) → a ∉ addrs t →
  cells (nodes s) !! a = Some (MkNode v NULL NULL) → (depth t ≤ fuel)%nat →
  ∃ m', push_data_aux fuel r (Some a) s =
      (Done (), set_nodes (Mem m' (calls (nodes s))) s) ∧
    tree_at m' p (insert_node a v t) ∧
    (∀ c, c ∉ addrs t → m' !! c = cells (nodes s) !! c).
Proof.
  revert fuel r p. induction t as [|l IHl b w rt IHr]; intros fuel r p Hne Hslot Ht Hnd Ha Hav Hf;
    [done|]. clear Hne. destruct Ht as (-> & pl & pr & Hb & Hl & Hr).
  simpl in Hnd, Ha, Hf. rewrite NoDup_cons NoDup_app in Hnd.
  destruct Hnd as (Hbn & Hndl & Hdis & Hndr). rewrite not_elem_of_app in Hbn.
  rewrite not_elem_of_cons not_elem_of_app in Ha. destruct Ha as (Hab & Hal & Har), Hbn as [Hbl Hbr].
  destruct fuel as [|fuel]; [lia|]. cbn [push_data_aux].
  rewrite bool_decide_eq_true_2 // bind_ret_l. erewrite bind_done by exact Hslot. cbn beta.
  rewrite bool_decide_eq_false_2 //.
  erewrite bind_done by by eapply on_nodes_load. cbn beta.
  erewrite bind_done by by eapply on_nodes_load. cbn beta. cbn [value left right insert_node].
  case_bool_decide as Hvw; case_bool_decide as Hnull; simplify_eq/=.
  - apply tree_at_null in Hl as ->. eexists. split.
    { erewrite bind_done by by eapply on_nodes_load. by eapply on_nodes_store. }
    cbn [left right value nodes set_nodes]. split.
    + split; [done|]. exists (Some a), pr. split_and!; [by simplify_map_eq| |].
      * apply tree_at_leaf_insert. by simplify_map_eq.
      * eapply tree_at_frame; [done|]. intros c Hc. rewrite lookup_insert_ne //. set_solver.
    + intros c Hc. rewrite lookup_insert_ne //. set_solver.
  - destruct (IHl fuel (LeftSlot (Some b)) pl) as (m' & Hrun & Ht' & Hfr);
      [by destruct l| |done|done|done|done|lia|].
    { unfold read_slot. by erewrite bind_done by by eapply on_nodes_load. }
    exists m'. split; [exact Hrun|]. split.
    + split; [done|]. exists pl, pr. split_and!; [by rewrite Hfr|done|].
      eapply tree_at_frame; [done|]. intros c Hc. apply Hfr. set_solver.
    + intros c Hc. apply Hfr. set_solver.
  - apply tree_at_null in Hr as ->. eexists. split.
    { erewrite bind_done by by eapply on_nodes_load. by eapply on_nodes_store. }
    cbn [left right value nodes set_nodes]. split.
    + split; [done|]. exists pl, (Some a). split_and!; [by simplify_map_eq| |].
      * eapply tree_at_frame; [done|]. intros c Hc. rewrite lookup_insert_ne //. set_solver.
      * apply tree_at_leaf_insert. by simplify_map_eq.
    + intros c Hc. rewrite lookup_insert_ne //. set_solver.
  - destruct (IHr fuel (RightSlot (Some b)) pr) as (m' & Hrun & Ht' & Hfr);
      [by destruct rt| |done|done|done|done|lia|].
    { unfold read_slot. by erewrite bind_done by by eapply on_nodes_load. }
    exists m'. split; [exact Hrun|]. split.
    + split; [done|]. exists pl, pr. split_and!; [by rewrite Hfr| |done].
      eapply tree_at_frame; [done|]. intros c Hc. apply Hfr. set_solver.
    + intros c Hc. apply Hfr. set_solver.
Qed.

(** More fuel than is needed changes nothing. *)
Lemma push_aux_fuel fuel fuel' r q s s' :
  push_data_aux fuel r q s = (Done (), s') → (fuel ≤ fuel')%nat →
  push_data_aux fuel' r q s = (Done (), s').
Proof.
  revert fuel' r s. induction fuel as [|fuel IH]; intros [|fuel'] r s Hrun Hf; [done|done|lia|].
  cbn [push_data_aux] in *. unfold mbind, cmd_bind in *.
  destruct (assert_ _ s) as [[] s1]; try done.
  destruct (read_slot r s1) as [[p| | | | |] s2]; try done.
  case_bool_decide; [done|].
  destruct (on_nodes (load q) s2) as [[x| | | | |] s3]; try done.
  destruct (on_nodes (load p) s3) as [[y| | | | |] s4]; try done.
  repeat case_bool_decide; try done; apply IH; (done || lia).
Qed.
End specs.

(** * The contract of the tree *)

(** The tree object holds [t]. *)
Definition holds (s : state) (t : tree) : Prop :=
  tree_at (cells (nodes s)) (root s) t ∧ NoDup (addrs t).

(** The text of a sequence of values: each in decimal and a blank. *)
Fixpoint render (vs : list Z) : string :=
  match vs with
  | [] => EmptyString
  | v :: vs => pretty v +:+ " " +:+ render vs
  end.

Lemma render_app vs ws : render (vs ++ ws) = render vs +:+ render ws.
Proof. induction vs as [|v vs IH]; [done|]. cbn [render app]. by rewrite IH !string_app_assoc. Qed.

Section contract.
Context {MA : Malloc}.
Implicit Types (s : state) (t : tree).

(** push_data with any bound on its recursion that the depth of the tree is within. *)
Lemma push_data_run s t v :
  malloc_total → holds s t →
  ∃ a s', push_data v s = (Done (), s') ∧
    (∀ fuel, (1 `max` depth t ≤ fuel)%nat →
       (pnode ← new_Node (MkNode v NULL NULL); push_data_aux fuel RootSlot pnode) s = (Done (), s')) ∧
    cells (nodes s) !! a = None ∧
    (∀ c, c ∉ a :: addrs t → cells (nodes s') !! c = cells (nodes s) !! c) ∧
    holds s' (insert_node a v t) ∧ cout s' = cout s.
Proof.
  intros Hm [Ht Hnd].
  destruct (malloc_new (MkNode v NULL NULL) (nodes s) Hm) as (a & Ha & Hrun).
  assert (a ∉ addrs t) as Hat.
  { intros Hin. destruct (addrs_live _ _ _ _ Ht Hin) as [n Hn]. congruence. }
  set (s1 := set_nodes (Mem (<[a := MkNode v NULL NULL]> (cells (nodes s))) (S (calls (nodes s)))) s).
  assert (new_Node (MkNode v NULL NULL) s = (Done (Some a), s1)) as Hnew.
  { unfold new_Node. erewrite bind_done by by apply on_nodes_done. cbn beta.
    by rewrite bool_decide_eq_false_2. }
  assert (tree_at (cells (nodes s1)) (root s1) t) as Ht1.
  { eapply tree_at_frame; [done|]. intros c Hc. cbn. rewrite lookup_insert_ne //. set_solver. }
  assert (cells (nodes s1) !! a = Some (MkNode v NULL NULL)) as Ha1 by (cbn; by simplify_map_eq).
  assert (1 `max` depth t ≤ tree_fuel s1)%nat as Hfuel.
  { unfold tree_fuel. pose proof (depth_size _ _ _ Ht1 Hnd). lia. }
  assert (∃ s', (∀ fuel, (1 `max` depth t ≤ fuel)%nat →
      push_data_aux fuel RootSlot (Some a) s1 = (Done (), s')) ∧
    (∀ c, c ∉ a :: addrs t → cells (nodes s') !! c = cells (nodes s) !! c) ∧
    holds s' (insert_node a v t) ∧ cout s' = cout s) as (s' & Haux & Hfr & Hh & Hc).
  2:{ exists a, s'. split_and!; [|intros fuel Hf|done..].
      - unfold push_data. erewrite bind_done by exact Hnew. cbn beta.
        erewrite bind_done by reflexivity. by apply Haux.
      - erewrite bind_done by exact Hnew. by apply Haux. }
  destruct (decide (t = Leaf)) as [->|Hne].
  - exists (set_root (Some a) s1). simpl in Ht1. split_and!; [|..|done].
    + intros [|fuel] Hf; [simpl in Hf; lia|]. cbn [push_data_aux].
      rewrite bool_decide_eq_true_2 // bind_ret_l.
      erewrite bind_done by reflexivity. cbn beta. by rewrite Ht1 bool_decide_eq_true_2.
    + intros c Hc. cbn. rewrite lookup_insert_ne //. set_solver.
    + split; [by apply tree_at_leaf_insert|]. apply NoDup_singleton.
  - destruct (push_aux_branch t (depth t) RootSlot s1 (root s1) a v) as (m' & Hr & Ht' & Hfr); [done..|].
    exists (set_nodes (Mem m' (calls (nodes s1))) s1). split_and!; [|..|done].
    + intros fuel Hf. apply (push_aux_fuel (depth t)); [done|lia].
    + intros c Hc. cbn. rewrite Hfr; [set_solver|]. cbn. rewrite lookup_insert_ne //. set_solver.
    + split; [done|]. rewrite addrs_insert. by constructor.
Qed.

Lemma print_aux_run t fuel p s :
  tree_at (cells (nodes s)) p t → (depth t ≤ fuel)%nat →
  preorder_print_aux fuel p s =
    (Done (), St (root s) (nodes s) (cout s +:+ render (inorder t))).
Proof.
  revert fuel p s. induction t as [|l IHl a v r IHr]; intros fuel p s Ht Hf.
  { simpl in Ht. subst p. rewrite string_app_nil_r. destruct s. by destruct fuel. }
  destruct Ht as (-> & pl & pr & Ha & Hl & Hr). simpl in Hf.
  destruct fuel as [|fuel]; [lia|]. cbn [preorder_print_aux].
  rewrite bool_decide_eq_false_2 //.
  erewrite bind_done by by eapply on_nodes_load. cbn beta. cbn [left].
  erewrite bind_done by (apply IHl; [done|lia]). cbn beta.
  erewrite bind_done by by eapply on_nodes_load. cbn beta. cbn [value].
  erewrite bind_done by reflexivity. cbn beta.
  erewrite bind_done by by eapply on_nodes_load. cbn beta. cbn [right].
  rewrite IHr; [done|lia|]. cbn [root nodes cout inorder].
  by rewrite render_app /= !string_app_assoc.
Qed.

Lemma push_all_run s t vs :
  malloc_total → holds s t → ordered t →
  ∃ s' t', push_all vs s = (Done (), s') ∧ holds s' t' ∧ ordered t' ∧
    inorder t' ≡ₚ vs ++ inorder t ∧ cout s' = cout s.
Proof.
  intros Hm. revert s t. induction vs as [|v vs IH]; intros s t Hh Ho.
  { exists s, t. by split_and!. }
  destruct (push_data_run s t v Hm Hh) as (a & s1 & Hrun & _ & _ & _ & Hh1 & Hc1).
  destruct (IH s1 _ Hh1 (ordered_insert a v t Ho)) as (s2 & t2 & Hrun2 & Hh2 & Ho2 & Hp & Hc2).
  exists s2, t2. split_and!; [|done..| |congruence].
  - cbn [push_all]. by erewrite bind_done by exact Hrun.
  - rewrite Hp inorder_insert. solve_Permutation.
Qed.
End contract.

(** * Properties *)

Section properties.
Context {MA : Malloc}.
Implicit Types (s : state) (t : tree).

(** C3. push_data refines insertion into a search tree, as long as malloc does
    not fail: run on the heap, with the reference parameter walking down the
    nodes, it completes, takes one block that was free, links the new node there
    exactly where ordered insertion puts the value, keeps the search order, and
    changes no block beside the tree. Its recursion is bounded by the depth of the
    tree: with any bound of at least one call and one for each level, it ends in the
    same state. *)
Theorem push_data_refines_insert s t v :
  malloc_total → holds s t → ordered t →
  ∃ a s', push_data v s = (Done (), s') ∧
    (∀ fuel, (1 `max` depth t ≤ fuel)%nat →
       (pnode ← new_Node (MkNode v NULL NULL); push_data_aux fuel RootSlot pnode) s = (Done (), s')) ∧
    cells (nodes s) !! a = None ∧ a ∉ addrs t ∧
    (∀ c, c ∉ a :: addrs t → cells (nodes s') !! c = cells (nodes s) !! c) ∧
    holds s' (insert_node a v t) ∧ ordered (insert_node a v t) ∧
    inorder (insert_node a v t) ≡ₚ v :: inorder t ∧ cout s' = cout s.
Proof.
  intros Hm Hh Ho. destruct (push_data_run s t v Hm Hh) as (a & s' & Hrun & Hd & Ha & Hfr & Hh' & Hc).
  exists a, s'. split_and!; [done..| |done|done|by apply ordered_insert|by apply inorder_insert|done].
  intros [n Hn]%(addrs_live _ _ _ _ (proj1 Hh)). congruence.
Qed.

(** C9. Pushing any values into a new tree and printing it sorts them: the
    text is the values in increasing order, duplicates kept, so
    preorder_print prints in order, not in preorder as its name says. *)
Theorem push_all_print_sorts vs :
  malloc_total →
  ∃ s', (push_all vs;; preorder_print) new_tree = (Done (), s') ∧
    cout s' = render (merge_sort Z.le vs) +:+ newline.
Proof.
  intros Hm.
  destruct (push_all_run new_tree Leaf vs Hm) as (s1 & t & Hrun & [Ht Hnd] & Ho & Hp & Hc).
  { split; [done|constructor]. }
  { done. }
  eexists. split.
  - erewrite bind_done by exact Hrun. cbn beta. unfold preorder_print.
    erewrite bind_done by reflexivity. cbn beta.
    erewrite bind_done; [|apply (print_aux_run t); [done|]].
    2:{ unfold tree_fuel. pose proof (depth_size _ _ _ Ht Hnd). lia. }
    reflexivity.
  - cbn [cout]. rewrite Hc. change (cout new_tree +:+ render (inorder t)) with (render (inorder t)).
    do 2 f_equal.
    apply (StronglySorted_unique Z.le); [by apply ordered_sorted|apply StronglySorted_merge_sort; apply _|].
    rewrite merge_sort_Permutation Hp. simpl. by rewrite app_nil_r.
Qed.
End properties.

(** * Witnesses *)

Section witnesses.

Lemma push_data_refines_insert_witness :
  ∃ a s', push_data 7 new_tree = (Done (), s') ∧
    (∀ fuel, (1 ≤ fuel)%nat →
       (pnode ← new_Node (MkNode 7 NULL NULL); push_data_aux fuel RootSlot pnode) new_tree = (Done (), s')) ∧
    cells (nodes new_tree) !! a = None ∧ a ∉ addrs Leaf ∧
    (∀ c, c ∉ a :: addrs Leaf → cells (nodes s') !! c = cells (nodes new_tree) !! c) ∧
    holds s' (insert_node a 7 Leaf) ∧ ordered (insert_node a 7 Leaf) ∧
    inorder (insert_node a 7 Leaf) ≡ₚ [7] ∧ cout s' = EmptyString.
Proof.
  apply (push_data_refines_insert new_tree Leaf 7); [apply bump_malloc_total| |done].
  split; [done|constructor].
Defined.

Lemma push_all_print_sorts_witness :
  ∃ s', (push_all [3; 1; 2; 1];; preorder_print) new_tree = (Done (), s') ∧
    cout s' = render [1; 1; 2; 3] +:+ newline.
Proof. apply (push_all_print_sorts [3; 1; 2; 1]), bump_malloc_total. Defined.

(** The program of the file. *)
Example main_prints :
  cout (snd (main new_tree)) = "1 2 3 5 14 22 23 31 32 54 98 " +:+ newline.
Proof. vm_compute. reflexivity. Qed.
End witnesses.
