(* ===== verification/EpollEcho.v ===== *)
(** The epoll echo server (src/echo/epoll/echo_server.cpp): per-connection
    queues of pending strings, the edge-triggered read loop and the write
    branch.

    The kernel side of the connections is an interface, the class [Net]: what
    read, write, accept and fcntl answer. The laws a theorem needs of it are
    separate classes. Two ghost maps record the bytes read from and written to
    each descriptor. *)

From S2P Require Import Prelude Machine.

(** * The system interface *)

(** What read() returns: -1 with EAGAIN or EWOULDBLOCK, -1 with another errno,
    or some bytes (none at the end of the stream). *)
Inductive read_result : Type :=
  | ReadAgain
  | ReadError
  | ReadData (d : list Z).

Class Net : Type := {
  env : Type;
  env_read : env → Z → read_result * env;       (* read(fd, _, 1024) *)
  env_write : env → Z → list Z → Z * env;       (* write(fd, data, size) *)
  env_accept : env → Z → Z * env;
  env_getfl : env → Z → Z * env;                (* fcntl(fd, F_GETFL) *)
  env_setfl : env → Z → Z → Z * env;            (* fcntl(fd, F_SETFL, flags) *)
  env_epoll_add : env → Z → Z * env;            (* EPOLLIN|EPOLLOUT|EPOLLET *)
}.

(** read() fills at most the 1024 bytes of its buffer; write() accepts a prefix
    or fails. *)
Class NetLaws `{Net} : Prop := {
  read_bound e fd d e' : env_read e fd = (ReadData d, e') → (length d ≤ 1024)%nat;
  write_bound e fd d n e' : env_write e fd d = (n, e') → -1 ≤ n ≤ Z.of_nat (length d);
}.

(** A network on which no read or write fails. *)
Class ReliableNet `{Net} : Prop := {
  read_no_error e fd : fst (env_read e fd) ≠ ReadError;
  write_no_error e fd d : fst (env_write e fd d) ≠ -1;
}.

(** A network whose remaining input is finite: [remaining] bounds the number of
    reads that still deliver data, which no other call increases. *)
Class FiniteNet `{Net} : Type := {
  remaining : env → nat;
  read_remaining e fd :
    (remaining (snd (env_read e fd)) +
       match fst (env_read e fd) with ReadData (_ :: _) => 1 | _ => 0 end ≤ remaining e)%nat;
  write_remaining e fd d : (remaining (snd (env_write e fd d)) ≤ remaining e)%nat;
  accept_remaining e fd : (remaining (snd (env_accept e fd)) ≤ remaining e)%nat;
  getfl_remaining e fd : (remaining (snd (env_getfl e fd)) ≤ remaining e)%nat;
  setfl_remaining e fd f : (remaining (snd (env_setfl e fd f)) ≤ remaining e)%nat;
  epoll_add_remaining e fd : (remaining (snd (env_epoll_add e fd)) ≤ remaining e)%nat;
}.

Definition O_NONBLOCK : Z := 2048.
Definition MAX_EVENTS : nat := 20.

(** * class session *)

(** The class session is declared but main keeps its queues in a map. *)
Record session : Type := Session { data_buf_ : list (list Z) }.

Definition push (s : session) (data : list Z) : session :=
  Session (data_buf_ s ++ [data]).

(** * State of main *)

Section server.
Context {N : Net}.

Record server : Type := Server {
  session_map : gmap Z (list (list Z));   (* fd -> data buffer *)
  readbuf : list Z;
  net : env;
  rcvd : gmap Z (list Z);                 (* ghost: bytes read *)
  wrtn : gmap Z (list Z);                 (* ghost: bytes written *)
}.

Definition set_map (m : gmap Z (list (list Z))) (s : server) : server :=
  Server m (readbuf s) (net s) (rcvd s) (wrtn s).
Definition set_net (e : env) (s : server) : server :=
  Server (session_map s) (readbuf s) e (rcvd s) (wrtn s).

(** The entry of a log, empty at first. *)
Definition log_of (m : gmap Z (list Z)) (fd : Z) : list Z := default [] (m !! fd).
Definition log_add (m : gmap Z (list Z)) (fd : Z) (d : list Z) : gmap Z (list Z) :=
  <[fd := log_of m fd ++ d]> m.

(** The pending strings of a connection. *)
Definition queue_of (s : server) (fd : Z) : list (list Z) := default [] (session_map s !! fd).

(** * System calls *)

Definition sys_read (fd : Z) : cmd server read_result := λ s,
  match env_read (net s) fd with
  | (ReadData d, e) =>
    (Done (ReadData d), Server (session_map s) (d ++ drop (length d) (readbuf s)) e
                          (log_add (rcvd s) fd d) (wrtn s))
  | (r, e) => (Done r, set_net e s)
  end.

Definition sys_write (fd : Z) (d : list Z) : cmd server Z := λ s,
  let '(n, e) := env_write (net s) fd d in
  (Done n, Server (session_map s) (readbuf s) e (rcvd s)
             (log_add (wrtn s) fd (take (Z.to_nat n) d))).

(** A call whose only effect is on the kernel's side. *)
Definition ask {A} (f : env → A * env) : cmd server A := λ s,
  let '(r, e) := f (net s) in (Done r, set_net e s).

Definition setfd_noblock (fd : Z) : cmd server Z :=
  fdflag ← ask (λ e, env_getfl e fd);
  if bool_decide (fdflag = -1) then mret (-1) else
  ask (λ e, env_setfl e fd (Z.lor fdflag O_NONBLOCK)).

(** * The event loop *)

(** session_map[fd].push(d): operator[] creates an empty queue first. *)
Definition map_push (fd : Z) (d : list Z) : cmd server unit :=
  modify (λ s, set_map (<[fd := queue_of s fd ++ [d]]> (session_map s)) s).

(** One read that returned [nread] bytes: echo half of it at once when nothing
    is pending yet, queue the rest. *)
Definition handle_data (fd nread : Z) : cmd server unit :=
  s ← get;
  match session_map s !! fd with
  | None =>
    half ← or_ub OutOfBounds (rd_range (readbuf s) 0 (nread `div` 2));
    nwrite ← sys_write fd half;
    if bool_decide (nwrite ≠ nread) then
      s ← get;
      d ← or_ub OutOfBounds (rd_range (readbuf s) nwrite (nread - nwrite));
      map_push fd d
    else mret ()
  | Some _ =>
    d ← or_ub OutOfBounds (rd_range (readbuf s) 0 nread);
    map_push fd d
  end.

(** The inner for (;;) of the EPOLLIN branch. *)
Fixpoint read_loop (fuel : nat) (fd : Z) : cmd server unit :=
  match fuel with
  | O => unfinished
  | S fuel =>
    r ← sys_read fd;
    match r with
    | ReadAgain => mret ()
    | ReadError =>
      modify (λ s, set_map (delete fd (session_map s)) s);;
      read_loop fuel fd
    | ReadData d =>
      let nread := Z.of_nat (length d) in
      if bool_decide (nread = 0) then mret () else
      handle_data fd nread;;
      read_loop fuel fd
    end
  end.

(** The EPOLLOUT branch: both arms of its for (;;) break. *)
Definition handle_out (fd : Z) : cmd server unit :=
  s ← get;
  match session_map s !! fd with
  | None => mret ()
  | Some [] => undefined EmptyFront
  | Some (out_data :: q) =>
    nwrite ← sys_write fd out_data;
    assert_ (bool_decide (nwrite ≤ 1024));;
    if bool_decide (size_t nwrite < Z.of_nat (length out_data))
    then modify (λ s, set_map (<[fd := drop (Z.to_nat nwrite) out_data :: q]> (session_map s)) s)
    else modify (λ s, set_map (<[fd := q]> (session_map s)) s)
  end.

(** The listening socket: [true] when the code goes on to the EPOLLOUT test,
    [false] for its [continue]. *)
Definition handle_accept (listenfd : Z) : cmd server bool :=
  clientfd ← ask (λ e, env_accept e listenfd);
  if bool_decide (clientfd > 0) then
    r ← setfd_noblock clientfd;
    if bool_decide (r = -1) then mret false else
    _ ← ask (λ e, env_epoll_add e clientfd);
    mret true
  else mret true.

Record event : Type := Event { ev_fd : Z; ev_in : bool; ev_out : bool }.

Definition handle_event (fuel : nat) (listenfd : Z) (ev : event) : cmd server unit :=
  go ← (if ev_in ev then
          if bool_decide (ev_fd ev = listenfd) then handle_accept listenfd
          else read_loop fuel (ev_fd ev);; mret true
        else mret true);
  if go && ev_out ev then handle_out (ev_fd ev) else mret ().

(** The events of one epoll_wait, then of several. *)
Fixpoint handle_events (fuel : nat) (listenfd : Z) (evs : list event) : cmd server unit :=
  match evs with
  | [] => mret ()
  | ev :: evs => handle_event fuel listenfd ev;; handle_events fuel listenfd evs
  end.

Fixpoint serve (fuel : nat) (listenfd : Z) (turns : list (list event)) : cmd server unit :=
  match turns with
  | [] => mret ()
  | evs :: turns => handle_events fuel listenfd evs;; serve fuel listenfd turns
  end.

(** The state when the loop starts: nothing is pending on any descriptor. *)
Definition start (buf : list Z) (e : env) : server := Server ∅ buf e ∅ ∅.
End server.

(** * The echo invariant *)

Section logs.
Implicit Types (m : gmap Z (list Z)) (fd : Z) (d : list Z).

Lemma log_of_add m fd d fd' :
  log_of (log_add m fd d) fd' = log_of m fd' ++ if decide (fd' = fd) then d else [].
Proof.
  unfold log_of, log_add. destruct (decide (fd' = fd)) as [->|Hne].
  - by rewrite lookup_insert_eq.
  - by rewrite lookup_insert_ne // app_nil_r.
Qed.
End logs.

(** Commands that do not increase the remaining input. *)
Section keeps.
Context {N : Net} {NF : FiniteNet}.
Implicit Types (s : server) (fd : Z) (d : list Z).

Definition keeps {A} (m : cmd server A) : Prop :=
  ∀ s, (remaining (net (snd (m s))) ≤ remaining (net s))%nat.

Lemma keeps_ret {A} (a : A) : keeps (mret a).
Proof. by intros s. Qed.

Lemma keeps_get : keeps get.
Proof. by intros s. Qed.

Lemma keeps_undefined {A} w : keeps (undefined (A := A) w).
Proof. by intros s. Qed.

Lemma keeps_map f : keeps (modify (λ s, set_map (f s) s)).
Proof. by intros s. Qed.

Lemma keeps_bind {A B} (m : cmd server A) (k : A → cmd server B) :
  keeps m → (∀ a, keeps (k a)) → keeps (m ≫= k).
Proof.
  intros Hm Hk s. specialize (Hm s). unfold mbind, cmd_bind.
  destruct (m s) as [[a| | | | |] s']; simpl in *; try done. specialize (Hk a s'). lia.
Qed.

Lemma keeps_or_ub {A} w (o : option A) : keeps (or_ub w o).
Proof. destruct o; [apply keeps_ret|apply keeps_undefined]. Qed.

Lemma keeps_assert b : keeps (assert_ b).
Proof. destruct b; by intros s. Qed.

Lemma keeps_ask {A} (f : env → A * env) :
  (∀ e, (remaining (snd (f e)) ≤ remaining e)%nat) → keeps (ask f).
Proof. intros Hf s. specialize (Hf (net s)). unfold ask. by destruct (f (net s)). Qed.

Lemma sys_write_keeps fd d : keeps (sys_write fd d).
Proof.
  intros s. pose proof (write_remaining (net s) fd d). unfold sys_write.
  by destruct (env_write (net s) fd d).
Qed.

Lemma sys_read_keeps fd s :
  (remaining (net (snd (sys_read fd s))) +
     match fst (sys_read fd s) with Done (ReadData (_ :: _)) => 1 | _ => 0 end
   ≤ remaining (net s))%nat.
Proof.
  pose proof (read_remaining (net s) fd). unfold sys_read.
  by destruct (env_read (net s) fd) as [[| |[|]] e].
Qed.

Ltac keep :=
  repeat first
    [ apply keeps_ret | apply keeps_get | apply keeps_undefined | apply keeps_or_ub
    | apply keeps_assert | apply sys_write_keeps | apply keeps_map
    | apply keeps_ask; intros ? | case_bool_decide
    | apply accept_remaining | apply getfl_remaining | apply setfl_remaining
    | apply epoll_add_remaining | apply keeps_bind; [|intros ?] ].

Lemma handle_data_keeps fd n : keeps (handle_data fd n).
Proof. unfold handle_data, map_push. keep. destruct (_ !! fd); keep. Qed.

Lemma handle_out_keeps fd : keeps (handle_out fd).
Proof. unfold handle_out. keep. destruct (_ !! fd) as [[|d q]|]; keep. Qed.

Lemma handle_accept_keeps fd : keeps (handle_accept fd).
Proof. unfold handle_accept, setfd_noblock. keep. Qed.

Lemma sys_read_keeps' fd : keeps (sys_read fd).
Proof. intros s. pose proof (sys_read_keeps fd s). lia. Qed.

Lemma read_loop_keeps fuel fd : keeps (read_loop fuel fd).
Proof.
  induction fuel as [|fuel IH]; cbn [read_loop]; [by intros s|].
  apply keeps_bind; [apply sys_read_keeps'|]. intros [| |d].
  - apply keeps_ret.
  - apply keeps_bind; [apply keeps_map|intros _; apply IH].
  - cbn zeta. case_bool_decide; [apply keeps_ret|].
    apply keeps_bind; [apply handle_data_keeps|intros _; apply IH].
Qed.
End keeps.

Section invariant.
Context {N : Net} {NL : NetLaws} {NR : ReliableNet} {NF : FiniteNet}.
Implicit Types (s : server) (fd : Z) (d : list Z).

(** Every byte received on a connection has been written back, in order, or
    is pending in its queue, in order. [extra] are bytes of [fd0] that have
    been read and not yet handled. *)
Definition balanced (fd0 : Z) (extra : list Z) (s : server) : Prop :=
  length (readbuf s) = 1024%nat ∧
  (∀ fd, Forall (λ c, (length c ≤ 1024)%nat) (queue_of s fd)) ∧
  ∀ fd, log_of (rcvd s) fd =
    log_of (wrtn s) fd ++ concat (queue_of s fd) ++ if decide (fd = fd0) then extra else [].

Definition echo_inv (s : server) : Prop :=
  length (readbuf s) = 1024%nat ∧
  (∀ fd, Forall (λ c, (length c ≤ 1024)%nat) (queue_of s fd)) ∧
  ∀ fd, log_of (rcvd s) fd = log_of (wrtn s) fd ++ concat (queue_of s fd).

Lemma queue_of_insert s fd q fd' :
  queue_of (set_map (<[fd := q]> (session_map s)) s) fd' =
    if decide (fd' = fd) then q else queue_of s fd'.
Proof.
  unfold queue_of, set_map. cbn [session_map]. destruct (decide (fd' = fd)) as [->|Hne].
  - by rewrite lookup_insert_eq.
  - by rewrite lookup_insert_ne.
Qed.

Lemma sys_read_inv fd s :
  echo_inv s →
  ∃ r s', sys_read fd s = (Done r, s') ∧ r ≠ ReadError ∧
    match r with
    | ReadData d => d `prefix_of` readbuf s' ∧ (length d ≤ 1024)%nat ∧ balanced fd d s'
    | _ => echo_inv s'
    end.
Proof.
  intros (Hb & Hq & Hl). unfold sys_read.
  pose proof (read_no_error (net s) fd) as Hne.
  destruct (env_read (net s) fd) as [[| |d] e] eqn:He; [|done|].
  - exists ReadAgain. eexists. by split_and!.
  - exists (ReadData d). eexists. split; [done|]. split; [done|].
    pose proof (read_bound _ _ _ _ He). split; [by eexists|]. split; [done|].
    split_and!; cbn.
    + rewrite length_app length_drop. lia.
    + done.
    + intros fd'. change (queue_of (Server _ _ _ _ _) fd') with (queue_of s fd').
      by rewrite log_of_add Hl -app_assoc.
Qed.

Lemma prefix_rd d b i n :
  d `prefix_of` b → 0 ≤ i → 0 ≤ n → i + n ≤ Z.of_nat (length d) →
  rd_range b i n = Some (take (Z.to_nat n) (drop (Z.to_nat i) d)).
Proof.
  intros [k ->] Hi Hn Hle. unfold rd_range.
  rewrite bool_decide_eq_true_2; [rewrite length_app; lia|].
  rewrite drop_app_le; [lia|]. rewrite take_app_le //. rewrite length_drop. lia.
Qed.

Lemma map_push_inv fd d s :
  balanced fd d s → (length d ≤ 1024)%nat →
  ∃ s', map_push fd d s = (Done (), s') ∧ echo_inv s'.
Proof.
  intros (Hb & Hq & Hl) Hd.
  eexists. split; [done|]. split_and!; [done|..]; intros fd'.
  - rewrite queue_of_insert. case_decide; [|done]. apply Forall_app; split; [done|].
    by constructor.
  - rewrite queue_of_insert. cbn. rewrite Hl. case_decide; [|by rewrite app_nil_r].
    subst. by rewrite concat_app /= app_nil_r.
Qed.

(** A write of a prefix [w ++ t] of the unhandled bytes. *)
Lemma sys_write_inv fd w t s :
  balanced fd (w ++ t) s →
  ∃ n s', sys_write fd w s = (Done n, s') ∧ 0 ≤ n ≤ Z.of_nat (length w) ∧
    readbuf s' = readbuf s ∧ session_map s' = session_map s ∧
    log_of (wrtn s') fd = log_of (wrtn s) fd ++ take (Z.to_nat n) w ∧
    (queue_of s fd = [] → balanced fd (drop (Z.to_nat n) w ++ t) s').
Proof.
  intros (Hb & Hq & Hl). unfold sys_write.
  pose proof (write_no_error (net s) fd w) as Hne.
  destruct (env_write (net s) fd w) as [n e] eqn:He.
  pose proof (write_bound _ _ _ _ _ He). simpl in Hne.
  exists n. eexists. split_and!; [done|lia|lia|done|done| |].
  - cbn. by rewrite log_of_add decide_True.
  - intros Hnil. split_and!; [done|done|]. intros fd'. cbn.
    change (queue_of (Server _ _ _ _ _) fd') with (queue_of s fd').
    rewrite log_of_add Hl. case_decide; [|by rewrite !app_nil_r]. subst.
    by rewrite Hnil /= -app_assoc (app_assoc (take _ _)) take_drop.
Qed.

Lemma handle_data_inv fd d s :
  balanced fd d s → d `prefix_of` readbuf s → (0 < length d ≤ 1024)%nat →
  ∃ s', handle_data fd (Z.of_nat (length d)) s = (Done (), s') ∧ echo_inv s'.
Proof.
  intros Hbal Hpre Hd. unfold handle_data. erewrite bind_done by reflexivity. cbn beta.
  destruct (session_map s !! fd) as [q|] eqn:Hm.
  - rewrite (prefix_rd d) //; [lia..|]. cbn [or_ub]. rewrite bind_ret_l drop_0 take_ge; [lia|].
    apply map_push_inv; [done|lia].
  - set (h := Z.of_nat (length d) `div` 2).
    assert (0 ≤ h < Z.of_nat (length d)) as Hh
      by (unfold h; split; [apply Z.div_pos; lia|apply Z.div_lt; lia]).
    rewrite (prefix_rd d) //; [lia..|]. cbn [or_ub]. rewrite bind_ret_l drop_0.
    set (w := take (Z.to_nat h) d).
    assert (queue_of s fd = []) as Hnil by by rewrite /queue_of Hm.
    destruct (sys_write_inv fd w (drop (Z.to_nat h) d) s)
      as (n & s1 & Hrun & Hn & Hbuf & Hmap & _ & Hbal1); [by rewrite take_drop|].
    assert (length w = Z.to_nat h) as Hw by (unfold w; rewrite length_take; lia).
    erewrite bind_done by exact Hrun. cbn beta.
    rewrite bool_decide_eq_true_2; [lia|]. erewrite bind_done by reflexivity. cbn beta.
    rewrite Hbuf (prefix_rd d) //; [lia..|]. cbn [or_ub]. rewrite bind_ret_l.
    assert (take (Z.to_nat (Z.of_nat (length d) - n)) (drop (Z.to_nat n) d)
            = drop (Z.to_nat n) w ++ drop (Z.to_nat h) d) as ->.
    { rewrite take_ge; [rewrite length_drop; lia|].
      rewrite -{1}(take_drop (Z.to_nat h) d) drop_app_le //. fold w. lia. }
    apply map_push_inv; [by apply Hbal1|]. rewrite length_app !length_drop. lia.
Qed.

Lemma read_loop_inv fuel fd s :
  echo_inv s → (remaining (net s) < fuel)%nat →
  ∃ s', read_loop fuel fd s = (Done (), s') ∧ echo_inv s'.
Proof.
  revert s. induction fuel as [|fuel IH]; intros s Hs Hfuel; [lia|]. cbn [read_loop].
  destruct (sys_read_inv fd s Hs) as (r & s1 & Hrun & Hne & Hr).
  pose proof (sys_read_keeps fd s) as Hk. rewrite Hrun in Hk. cbn in Hk.
  erewrite bind_done by exact Hrun. cbn beta. destruct r as [| |d]; [|done|].
  { by eexists. }
  destruct Hr as (Hpre & Hd & Hbal). case_bool_decide as Hz.
  - destruct d; [|simpl in Hz; lia]. eexists. split; [done|].
    destruct Hbal as (? & ? & Hl). split_and!; [done..|]. intros fd'. rewrite Hl.
    case_decide; by rewrite app_nil_r.
  - destruct (handle_data_inv fd d s1) as (s2 & Hrun2 & Hs2); [done|done|lia|].
    pose proof (handle_data_keeps fd (Z.of_nat (length d)) s1) as Hk2.
    rewrite Hrun2 in Hk2. cbn in Hk2.
    erewrite bind_done by exact Hrun2. apply IH; [done|]. destruct d; [done|]. lia.
Qed.

Lemma echo_balanced fd s : echo_inv s → balanced fd [] s.
Proof.
  intros (Hb & Hq & Hl). split_and!; [done..|]. intros fd'. rewrite Hl.
  case_decide; by rewrite app_nil_r.
Qed.

Lemma handle_out_inv fd s :
  echo_inv s →
  ∃ r s', handle_out fd s = (r, s') ∧ echo_inv s' ∧
    (r = Done () ∨ r = Undefined EmptyFront ∧ session_map s !! fd = Some []).
Proof.
  intros (Hb & Hq & Hl). unfold handle_out. erewrite bind_done by reflexivity. cbn beta.
  destruct (session_map s !! fd) as [[|d q]|] eqn:Hm.
  - eexists _, _. split; [done|]. split; [by split_and!|by right].
  - assert (queue_of s fd = d :: q) as Hqd by by rewrite /queue_of Hm.
    pose proof (Hq fd) as Hqf. rewrite Hqd in Hqf.
    apply Forall_cons in Hqf as [Hd Hqf]. cbn beta in Hd.
    pose proof (write_no_error (net s) fd d) as Hne.
    destruct (env_write (net s) fd d) as [n e] eqn:He. simpl in Hne.
    pose proof (write_bound _ _ _ _ _ He).
    erewrite bind_done by (unfold sys_write; rewrite He; reflexivity). cbn beta.
    rewrite (bool_decide_eq_true_2 (n ≤ 1024)); [lia|]. cbn [assert_]. rewrite bind_ret_l size_t_small; [lia|].
    set (s1 := Server _ _ _ _ _).
    assert (∀ q', Forall (λ c, (length c ≤ 1024)%nat) q' →
      take (Z.to_nat n) d ++ concat q' = concat (d :: q) →
      echo_inv (set_map (<[fd := q']> (session_map s1)) s1)) as Hinv.
    { intros q' Hq' Hcat. split_and!; [done|..]; intros fd'; rewrite queue_of_insert.
      - case_decide; [done|]. apply Hq.
      - cbn. rewrite log_of_add Hl. case_decide as Hfd; [|by rewrite app_nil_r].
        subst. by rewrite Hqd -Hcat -app_assoc. }
    case_bool_decide; eexists _, _; (split; [reflexivity|]); (split; [|by left]);
      apply Hinv; try done.
    + constructor; [|done]. rewrite length_drop. lia.
    + cbn. by rewrite app_assoc take_drop.
    + cbn. rewrite take_ge //. lia.
  - eexists _, _. split; [done|]. split; [by split_and!|by left].
Qed.

(** Calls on the kernel's side alone leave everything else as it is. *)
Lemma handle_accept_run lfd s :
  ∃ b e, handle_accept lfd s = (Done b, set_net e s).
Proof.
  unfold handle_accept, setfd_noblock, ask, mbind, cmd_bind, mret, cmd_ret.
  destruct (env_accept (net s) lfd) as [c e1]. case_bool_decide; [|by eexists _, _].
  cbn. destruct (env_getfl e1 c) as [f e2]. case_bool_decide; cbn.
  - by eexists _, _.
  - destruct (env_setfl e2 c _) as [g e3]. case_bool_decide; [by eexists _, _|].
    cbn. destruct (env_epoll_add e3 c) as [g' e4]. by eexists _, _.
Qed.

(** The event left the server in the invariant, or it asked for the front of
    an existing empty queue. *)
Definition echo_result {A} (n : nat) (p : outcome A * server) : Prop :=
  echo_inv (snd p) ∧ (remaining (net (snd p)) ≤ n)%nat ∧
  ((∃ a, fst p = Done a) ∨
   fst p = Undefined EmptyFront ∧ ∃ fd, session_map (snd p) !! fd = Some []).

Lemma echo_result_mono {A} n n' (p : outcome A * server) :
  (n ≤ n')%nat → echo_result n p → echo_result n' p.
Proof. intros ? (? & ? & ?). split_and!; [done|lia|done]. Qed.

Lemma echo_result_bind {A B} (m : cmd server A) (k : A → cmd server B) s n :
  echo_result n (m s) →
  (∀ a s', echo_inv s' → (remaining (net s') ≤ n)%nat → echo_result n (k a s')) →
  echo_result n ((m ≫= k) s).
Proof.
  intros (Hinv & Hn & Hr) Hk. unfold mbind, cmd_bind. destruct (m s) as [r s'].
  simpl in *. destruct Hr as [[a ->]|[-> Hfd]]; [by apply Hk|].
  split_and!; [done..|by right].
Qed.

Lemma handle_out_result fd s :
  echo_inv s → echo_result (remaining (net s)) (handle_out fd s).
Proof.
  intros Hs. pose proof (handle_out_keeps fd s) as Hk.
  destruct (handle_out_inv fd s Hs) as (r & s' & Hrun & Hs' & Hr).
  rewrite Hrun in Hk |- *. split_and!; [done..|]. cbn.
  destruct Hr as [->|[-> Hm]]; [by left; eexists|]. right. split; [done|].
  exists fd. unfold handle_out in Hrun. rewrite (bind_done _ _ s s s) // Hm in Hrun.
  by injection Hrun as <-.
Qed.

Lemma handle_event_result fuel lfd ev s :
  echo_inv s → (remaining (net s) < fuel)%nat →
  echo_result (remaining (net s)) (handle_event fuel lfd ev s).
Proof.
  intros Hs Hfuel. unfold handle_event. apply echo_result_bind.
  - destruct (ev_in ev); [|by split_and!; [| |left; eexists]]. case_bool_decide.
    + pose proof (handle_accept_keeps lfd s) as Hk.
      destruct (handle_accept_run lfd s) as (b & e & Hrun). rewrite Hrun in Hk |- *.
      by split_and!; [| |left; eexists].
    + pose proof (read_loop_keeps fuel (ev_fd ev) s) as Hk.
      destruct (read_loop_inv fuel (ev_fd ev) s Hs Hfuel) as (s' & Hrun & Hs').
      rewrite Hrun in Hk. erewrite bind_done by exact Hrun. cbn in *.
      by split_and!; [| |left; eexists].
  - intros b s' Hs' Hn. destruct (b && ev_out ev); [|by split_and!; [| |left; eexists]].
    by eapply echo_result_mono, handle_out_result.
Qed.

Lemma handle_events_result fuel lfd evs s :
  echo_inv s → (remaining (net s) < fuel)%nat →
  echo_result (remaining (net s)) (handle_events fuel lfd evs s).
Proof.
  revert s. induction evs as [|ev evs IH]; intros s Hs Hfuel; cbn [handle_events].
  { by split_and!; [| |left; eexists]. }
  apply echo_result_bind; [by apply handle_event_result|]. intros _ s' Hs' Hn.
  eapply echo_result_mono; [exact Hn|]. apply IH; [done|lia].
Qed.

Lemma serve_result fuel lfd turns s :
  echo_inv s → (remaining (net s) < fuel)%nat →
  echo_result (remaining (net s)) (serve fuel lfd turns s).
Proof.
  revert s. induction turns as [|evs turns IH]; intros s Hs Hfuel; cbn [serve].
  { by split_and!; [| |left; eexists]. }
  apply echo_result_bind; [by apply handle_events_result|]. intros _ s' Hs' Hn.
  eapply echo_result_mono; [exact Hn|]. apply IH; [done|lia].
Qed.

(** C4. On a network without errors and with finite input, every run of the
    event loop keeps each connection's bytes in order: what was read from it
    is what was written back to it followed by what is pending in its queue.
    The loop always gets to the end of its events, except for one undefined
    behaviour: the front of a queue that exists and is empty. *)
Theorem echo_order_preserved fuel lfd turns buf e :
  length buf = 1024%nat → (remaining e < fuel)%nat →
  ∃ r s, serve fuel lfd turns (start buf e) = (r, s) ∧
    (∀ fd, log_of (rcvd s) fd = log_of (wrtn s) fd ++ concat (queue_of s fd)) ∧
    (r = Done () ∨ r = Undefined EmptyFront ∧ ∃ fd, session_map s !! fd = Some []).
Proof.
  intros Hbuf Hfuel.
  destruct (serve_result fuel lfd turns (start buf e)) as ((_ & _ & Hl) & _ & Hr).
  { by split_and!; [|intros; constructor|]. }
  { done. }
  destruct (serve fuel lfd turns (start buf e)) as [r s]. cbn in *.
  eexists _, _. split; [done|]. split; [done|].
  destruct Hr as [[[] ->]|Hr]; auto.
Qed.
End invariant.

(** * Draining a queue, and errors *)

Section drain.
Context {N : Net}.
Implicit Types (s : server) (fd : Z) (d : list Z).

(** One EPOLLOUT whose write takes the whole chunk. *)
Lemma handle_out_full fd d q s e :
  session_map s !! fd = Some (d :: q) → (length d ≤ 1024)%nat →
  env_write (net s) fd d = (Z.of_nat (length d), e) →
  handle_out fd s =
    (Done (), Server (<[fd := q]> (session_map s)) (readbuf s) e (rcvd s)
                (log_add (wrtn s) fd d)).
Proof.
  intros Hm Hd Hw. unfold handle_out. erewrite bind_done by reflexivity. cbn beta.
  rewrite Hm. erewrite bind_done by (unfold sys_write; rewrite Hw; reflexivity). cbn beta.
  rewrite (bool_decide_eq_true_2 (_ ≤ 1024)); [lia|]. cbn [assert_].
  rewrite bind_ret_l size_t_small; [lia|]. rewrite bool_decide_eq_false_2; [lia|].
  rewrite Nat2Z.id take_ge //.
Qed.

Lemma handle_out_event fuel lfd fd :
  handle_event fuel lfd (Event fd false true) = handle_out fd.
Proof. done. Qed.

(** On a kernel that takes every write whole, n writable events send the n
    pending strings of a connection in the order they were queued, and the
    next one asks for the front of the empty queue that is left behind: the
    queue of a connection is never removed from the map. *)
Theorem drained_queue_front fuel lfd fd q s :
  (∀ e d, (length d ≤ 1024)%nat → fst (env_write e fd d) = Z.of_nat (length d)) →
  Forall (λ d, length d ≤ 1024)%nat q →
  session_map s !! fd = Some q →
  ∃ s', handle_events fuel lfd (replicate (S (length q)) (Event fd false true)) s
          = (Undefined EmptyFront, s') ∧
        log_of (wrtn s') fd = log_of (wrtn s) fd ++ concat q ∧ rcvd s' = rcvd s.
Proof.
  intros Hw. revert s. induction q as [|d q IH]; intros s Hq Hm.
  - exists s. cbn [replicate length handle_events concat]. rewrite handle_out_event.
    rewrite app_nil_r. split_and!; [|done..]. apply bind_undefined. unfold handle_out.
    by rewrite (bind_done _ _ s s s) // Hm.
  - apply Forall_cons in Hq as [Hd Hq].
    destruct (env_write (net s) fd d) as [n e] eqn:He.
    assert (n = Z.of_nat (length d)) as -> by (rewrite -(Hw (net s) d) ?He //).
    destruct (IH (Server (<[fd := q]> (session_map s)) (readbuf s) e (rcvd s)
                (log_add (wrtn s) fd d))) as (s' & Hrun & Hwr & Hrc).
    { done. } { apply lookup_insert_eq. }
    exists s'. cbn [length]. rewrite replicate_S. cbn [handle_events].
    rewrite handle_out_event (bind_done _ _ _ _ _ (handle_out_full _ _ _ _ _ Hm Hd He)).
    split_and!; [exact Hrun| |done]. rewrite Hwr. cbn [wrtn concat].
    by rewrite log_of_add decide_True // -app_assoc.
Qed.

(** When the write of a writable event fails, the -1 is compared with the
    string's size as an unsigned number, so the string counts as sent: it is
    taken off the queue although none of its bytes was written. *)
Theorem write_error_loses_chunk fuel lfd fd d q s e :
  session_map s !! fd = Some (d :: q) → Z.of_nat (length d) < 2 ^ 64 →
  env_write (net s) fd d = (-1, e) →
  ∃ s', handle_event fuel lfd (Event fd false true) s = (Done (), s') ∧
    queue_of s' fd = q ∧ log_of (wrtn s') fd = log_of (wrtn s) fd ∧
    (∀ fd', fd' ≠ fd → session_map s' !! fd' = session_map s !! fd').
Proof.
  intros Hm Hd Hw. rewrite handle_out_event. unfold handle_out.
  rewrite (bind_done _ _ s s s) // Hm.
  erewrite bind_done by (unfold sys_write; rewrite Hw; reflexivity). cbn beta.
  rewrite (bool_decide_eq_true_2 (_ ≤ 1024)); [lia|]. cbn [assert_]. rewrite bind_ret_l.
  change (size_t (-1)) with 18446744073709551615.
  rewrite bool_decide_eq_false_2; [lia|]. eexists. split; [done|].
  unfold queue_of. cbn. rewrite lookup_insert_eq. split_and!; [done|..].
  - by rewrite log_of_add decide_True // app_nil_r.
  - intros fd' Hne. by rewrite lookup_insert_ne.
Qed.

(** When the write that echoes the first bytes of a connection fails, the
    server reads the byte before its buffer. *)
Theorem first_write_error_undefined fuel fd d s e e' :
  session_map s !! fd = None → d ≠ [] → (length d ≤ 1024)%nat →
  env_read (net s) fd = (ReadData d, e) →
  env_write e fd (take (length d / 2)%nat d) = (-1, e') →
  ∃ s', read_loop (S fuel) fd s = (Undefined OutOfBounds, s').
Proof.
  intros Hm Hd Hlen Hr Hw. cbn [read_loop].
  erewrite bind_done by (unfold sys_read; rewrite Hr; reflexivity). cbn beta iota zeta.
  rewrite bool_decide_eq_false_2; [destruct d; [done|simpl; lia]|].
  eexists. apply bind_undefined. unfold handle_data.
  erewrite bind_done by reflexivity. cbn beta. cbn [session_map readbuf]. rewrite Hm.
  pose proof (Nat2Z.inj_div (length d) 2) as Hdiv.
  pose proof (Nat.Div0.div_le_upper_bound (length d) 2 (length d)).
  rewrite /rd_range bool_decide_eq_true_2; [rewrite length_app; lia|]. cbn [or_ub].
  rewrite bind_ret_l drop_0 take_app_le; [lia|]. rewrite -Hdiv Nat2Z.id.
  erewrite bind_done by (unfold sys_write; cbn [net]; rewrite Hw; reflexivity). cbn beta.
  rewrite bool_decide_eq_true_2; [lia|]. erewrite bind_done by reflexivity. cbn beta.
  rewrite bool_decide_eq_false_2; [lia|]. done.
Qed.

(** C39. While read keeps failing with an error other than EAGAIN, the read loop
    does not end, whatever number of turns it is given. *)
Theorem read_error_spins fuel fd s :
  (∀ e, fst (env_read e fd) = ReadError) →
  fst (read_loop fuel fd s) = Unfinished.
Proof.
  intros Hr. revert s. induction fuel as [|fuel IH]; intros s; cbn [read_loop]; [done|].
  pose proof (Hr (net s)) as Hrs. destruct (env_read (net s) fd) as [r e] eqn:He.
  simpl in Hrs. subst r.
  erewrite bind_done by (unfold sys_read; rewrite He; reflexivity). cbn beta iota.
  erewrite bind_done by reflexivity. apply IH.
Qed.
End drain.

(** * Concrete runs *)

(** A kernel that delivers the listed reads, whatever the descriptor, and takes
    at most [cap] bytes of each write. *)
#[local] Instance reliable_net (cap : nat) : Net := {|
  env := list (list Z);
  env_read e _ := match e with [] => (ReadAgain, []) | d :: e => (ReadData (take 1024 d), e) end;
  env_write e _ d := (Z.of_nat (length d `min` cap)%nat, e);
  env_accept e _ := (5, e);
  env_getfl e _ := (2, e);
  env_setfl e _ _ := (0, e);
  env_epoll_add e _ := (0, e);
|}.

#[local] Instance reliable_laws cap : NetLaws (H := reliable_net cap).
Proof.
  split.
  - intros [|d' e] fd d e'; cbn; [done|]. intros [= <- _]. rewrite length_take. lia.
  - intros e fd d n e'. cbn. intros [= <- _]. lia.
Qed.

#[local] Instance reliable_reliable cap : ReliableNet (H := reliable_net cap).
Proof. split; [by intros [|]|]. intros e fd d. cbn. lia. Qed.

#[local] Instance reliable_finite cap : FiniteNet (H := reliable_net cap).
Proof.
  refine {| remaining := length : env (Net := reliable_net cap) → nat |}; try done.
  intros [|d e] fd; [done|]. cbn. destruct (take 1024 d); cbn; lia.
Defined.

(** A kernel that delivers one read, and on which all other reads and writes fail. *)
Definition failing_net (first : list Z) : Net := {|
  env := bool;
  env_read e _ := if e then (ReadData first, false) else (ReadError, false);
  env_write e _ _ := (-1, e);
  env_accept e _ := (-1, e);
  env_getfl e _ := (-1, e);
  env_setfl e _ _ := (-1, e);
  env_epoll_add e _ := (-1, e);
|}.

Definition readbuf0 : list Z := replicate 1024 0.

(** A client connects, sends five bytes, then two; all are echoed, and one more
    writable event finds the queue empty. *)
Definition a_run : list (list event) :=
  [ [Event 3 true false]; [Event 5 true true]; [Event 5 true true]; [Event 5 false true] ].

Example echo_run :
  let p := serve (N := reliable_net 1024) 5 3 a_run (start (N := reliable_net 1024) readbuf0 [[1;2;3;4;5]; []; [6;7]; []]) in
  fst p = Undefined EmptyFront ∧ log_of (wrtn (snd p)) 5 = [1;2;3;4;5;6;7] ∧ queue_of (snd p) 5 = [].
Proof. vm_compute. done. Qed.

Lemma echo_order_preserved_witness :
  ∃ r s, serve (N := reliable_net 3) 5 3 a_run (start (N := reliable_net 3) readbuf0 [[1;2;3;4;5]; []; [6;7]; []]) = (r, s) ∧
    (∀ fd, log_of (rcvd s) fd = log_of (wrtn s) fd ++ concat (queue_of s fd)) ∧
    (r = Done () ∨ r = Undefined EmptyFront ∧ ∃ fd, session_map s !! fd = Some []).
Proof.
  apply (echo_order_preserved (N := reliable_net 3)); [vm_compute; reflexivity|cbn; lia].
Defined.

Definition with_queue {N : Net} (e : env) (q : list (list Z)) : server :=
  Server {[ 5 := q ]} readbuf0 e ∅ ∅.

Lemma drained_queue_front_witness :
  ∃ s', handle_events (N := reliable_net 1024) 5 3 (replicate 3 (Event 5 false true))
          (with_queue (N := reliable_net 1024) [] [[1;2];[3]]) = (Undefined EmptyFront, s') ∧
    log_of (wrtn s') 5 = [1;2;3] ∧ rcvd s' = ∅.
Proof.
  apply (drained_queue_front (N := reliable_net 1024) 5 3 5 [[1;2];[3]]
    (with_queue (N := reliable_net 1024) [] [[1;2];[3]])).
  - intros e d Hd. cbn. lia.
  - repeat constructor.
  - vm_compute. reflexivity.
Defined.

Lemma write_error_loses_chunk_witness :
  ∃ s', handle_event (N := failing_net []) 5 3 (Event 5 false true)
          (with_queue (N := failing_net []) false [[1;2];[3]]) = (Done (), s') ∧
    queue_of s' 5 = [[3]] ∧ log_of (wrtn s') 5 = [] ∧
    ∀ fd', fd' ≠ 5 → session_map s' !! fd' = (session_map (with_queue (N := failing_net []) false [[1;2];[3]])) !! fd'.
Proof.
  apply (write_error_loses_chunk (N := failing_net []) 5 3 5 [1;2] [[3]]
    (with_queue (N := failing_net []) false [[1;2];[3]]) false).
  - vm_compute. reflexivity.
  - vm_compute. reflexivity.
  - reflexivity.
Defined.

Lemma first_write_error_undefined_witness :
  ∃ s', read_loop (N := failing_net [1;2;3]) 4 5 (start (N := failing_net [1;2;3]) readbuf0 true)
          = (Undefined OutOfBounds, s').
Proof.
  apply (first_write_error_undefined (N := failing_net [1;2;3]) 3 5 [1;2;3]
    (start (N := failing_net [1;2;3]) readbuf0 true) false false).
  - reflexivity.
  - discriminate.
  - cbn. lia.
  - reflexivity.
  - reflexivity.
Defined.

(** A kernel on which every read fails. *)
Definition dead_net : Net := {|
  env := unit;
  env_read e _ := (ReadError, e);
  env_write e _ _ := (-1, e);
  env_accept e _ := (-1, e);
  env_getfl e _ := (-1, e);
  env_setfl e _ _ := (-1, e);
  env_epoll_add e _ := (-1, e);
|}.

Lemma read_error_spins_witness :
  fst (read_loop (N := dead_net) 100 5 (start (N := dead_net) readbuf0 ())) = Unfinished.
Proof.
  apply (read_error_spins (N := dead_net) 100 5 (start (N := dead_net) readbuf0 ())).
  intros e. reflexivity.
Defined.
