(* ===== verification/EpollMain.v ===== *)
(** main of the epoll echo server (src/echo/epoll/echo_server.cpp): the listening socket and
    the epoll instance, and then the event loop of EpollEcho.v.

    The calls that set a server up are the class [Sockets], beside the [Net] of its
    connections. The calls main makes are recorded with what they returned. *)

From S2P Require Import Prelude Machine EpollEcho.
#[local] Open Scope Z_scope.

Definition PORT : Z := 7890.

Class Sockets `{Net} : Type := {
  env_socket : env → Z * env;                 (* socket(PF_INET, SOCK_STREAM, 0) *)
  env_close : env → Z → Z * env;
  env_reuseaddr : env → Z → Z * env;          (* setsockopt(fd, SOL_SOCKET, SO_REUSEADDR, ...) *)
  env_bind : env → Z → Z → Z * env;           (* bind(fd, {AF_INET, sin_port, 0.0.0.0}, ...) *)
  env_listen : env → Z → Z → Z * env;
  env_epoll_create : env → Z * env;           (* epoll_create1(0) *)
  env_epoll_listen : env → Z → Z → Z * env;   (* epoll_ctl(epfd, EPOLL_CTL_ADD, fd, EPOLLIN) *)
}.

(** A call and its arguments. *)
Inductive syscall : Set :=
  | Socket
  | SetNonblock (fd : Z)
  | Close (fd : Z)
  | ReuseAddr (fd : Z)
  | Bind (fd sin_port : Z)
  | Listen (fd backlog : Z)
  | EpollCreate
  | EpollAdd (epfd fd : Z).

#[export] Instance syscall_eq_dec : EqDecision syscall.
Proof. solve_decision. Defined.

(** What main prints about an error. *)
Inductive report : Set :=
  | SetNonblockError | ReuseAddrFail | BindError | ListenError | CreateEpollError | EpollCtlError.

Section main.
Context `{Sockets}.

Record process : Type := Process {
  machine : server;
  calls : list (syscall * Z);
  reports : list report;
}.

Definition on_machine {A} (m : cmd server A) : cmd process A :=
  zoom machine (λ s p, Process s (calls p) (reports p)) m.

(** A call, recorded with its result. *)
Definition call (c : syscall) (m : cmd server Z) : cmd process Z :=
  r ← on_machine m;
  modify (λ p, Process (machine p) (calls p ++ [(c, r)]) (reports p));;
  mret r.

Definition print (x : report) : cmd process unit :=
  modify (λ p, Process (machine p) (calls p) (reports p ++ [x])).

(** main up to its loop: the listening socket and the epoll instance. *)
Definition set_up : cmd process (Z * Z) :=
  listenfd ← call Socket (ask env_socket);
  r ← call (SetNonblock listenfd) (setfd_noblock listenfd);
  (if bool_decide (r = -1) then
     _ ← call (Close listenfd) (ask (λ e, env_close e listenfd));
     print SetNonblockError
   else mret ());;
  let sin_port := htons PORT in
  r ← call (ReuseAddr listenfd) (ask (λ e, env_reuseaddr e listenfd));
  (if bool_decide (r = -1) then
     _ ← call (Close listenfd) (ask (λ e, env_close e listenfd));
     print ReuseAddrFail
   else mret ());;
  r ← call (Bind listenfd sin_port) (ask (λ e, env_bind e listenfd sin_port));
  when (bool_decide (r ≠ 0)) (print BindError);;
  r ← call (Listen listenfd 5) (ask (λ e, env_listen e listenfd 5));
  when (bool_decide (r ≠ 0)) (print ListenError);;
  epfd ← call EpollCreate (ask env_epoll_create);
  when (bool_decide (epfd = -1)) (print CreateEpollError);;
  r ← call (EpollAdd epfd listenfd) (ask (λ e, env_epoll_listen e epfd listenfd));
  when (bool_decide (r = -1)) (print EpollCtlError);;
  mret (listenfd, epfd).

(** The whole of main; [turns] gives the events that epoll_wait(epfd, ...) reports, turn
    by turn. *)
Definition epoll_main (fuel : nat) (turns : Z → list (list event)) : cmd process unit :=
  '(listenfd, epfd) ← set_up;
  on_machine (serve fuel listenfd (turns epfd)).

(** When main begins: its buffer is not initialised, and nothing was called. *)
Definition initial (buf : list Z) (e : env) : process := Process (start buf e) [] [].

(** * Theorems *)

(** A step of the set-up: it completes, whatever the calls answer, and leaves the sessions
    and the buffer alone. *)
Definition sets_up {A} (m : cmd process A) (Q : A → list (syscall * Z) → list report → Prop) : Prop :=
  ∀ p, ∃ a e cs rs,
    m p = (Done a, Process (set_net e (machine p)) (calls p ++ cs) (reports p ++ rs)) ∧ Q a cs rs.

Lemma sets_up_ret {A} (a : A) (Q : A → list (syscall * Z) → list report → Prop) :
  Q a [] [] → sets_up (mret a) Q.
Proof.
  intros HQ p. exists a, (net (machine p)), [], []. rewrite !app_nil_r. split; [|done].
  by destruct p as [[] ? ?].
Qed.

Lemma sets_up_bind {A B} (m : cmd process A) (k : A → cmd process B) (P : A → list (syscall * Z) → list report → Prop) Q :
  sets_up m P → (∀ a cs rs, P a cs rs → sets_up (k a) (λ b cs' rs', Q b (cs ++ cs') (rs ++ rs'))) →
  sets_up (m ≫= k) Q.
Proof.
  intros Hm Hk p. destruct (Hm p) as (a & e & cs & rs & Hrun & HP).
  destruct (Hk a cs rs HP (Process (set_net e (machine p)) (calls p ++ cs) (reports p ++ rs)))
    as (b & e' & cs' & rs' & Hrun' & HQ).
  exists b, e', (cs ++ cs'), (rs ++ rs'). split; [|done].
  rewrite (bind_done _ _ _ _ _ Hrun) Hrun'. cbn. by rewrite !app_assoc.
Qed.

Lemma ask_run {A} (f : env → A * env) (s : server) : ∃ a e, ask f s = (Done a, set_net e s).
Proof. unfold ask. destruct (f (net s)) as [a e]. by exists a, e. Qed.

Lemma setfd_noblock_run fd (s : server) : ∃ r e, setfd_noblock fd s = (Done r, set_net e s).
Proof.
  unfold setfd_noblock. destruct (ask_run (λ e, env_getfl e fd) s) as (fl & e & Hrun).
  rewrite (bind_done _ _ _ _ _ Hrun). case_bool_decide; [by exists (-1), e|].
  by destruct (ask_run (λ e, env_setfl e fd (Z.lor fl O_NONBLOCK)) (set_net e s)) as (r & e' & ->); exists r, e'.
Qed.

Lemma sets_up_call c (m : cmd server Z) :
  (∀ s, ∃ r e, m s = (Done r, set_net e s)) → sets_up (call c m) (λ r cs rs, cs = [(c, r)] ∧ rs = []).
Proof.
  intros Hm p. destruct (Hm (machine p)) as (r & e & Hrun). exists r, e, [(c, r)], [].
  split; [|done]. unfold call, on_machine. rewrite (bind_done _ _ _ _ _ (zoom_done _ _ _ _ _ _ Hrun)).
  by rewrite app_nil_r.
Qed.

Lemma sets_up_print x : sets_up (print x) (λ _ cs rs, cs = [] ∧ rs = [x]).
Proof.
  intros p. exists (), (net (machine p)), [], [x]. split; [|done]. rewrite app_nil_r.
  by destruct p as [[] ? ?].
Qed.

Lemma sets_up_mono {A} (m : cmd process A) (P Q : A → list (syscall * Z) → list report → Prop) :
  sets_up m P → (∀ a cs rs, P a cs rs → Q a cs rs) → sets_up m Q.
Proof. intros Hm HPQ p. destruct (Hm p) as (a & e & cs & rs & Hrun & HP). exists a, e, cs, rs. auto. Qed.

(** The two places where an error closes the socket. *)
Definition close_on_error (fd r c : Z) : list (syscall * Z) := if bool_decide (r = -1) then [(Close fd, c)] else [].
Definition reported (b : bool) (x : report) : list report := if b then [x] else [].

Lemma sets_up_close fd r x :
  sets_up (if bool_decide (r = -1) then _ ← call (Close fd) (ask (λ e, env_close e fd)); print x else mret ())
    (λ _ cs rs, ∃ c, cs = close_on_error fd r c ∧ rs = reported (bool_decide (r = -1)) x).
Proof.
  unfold close_on_error, reported. case_bool_decide; [|by apply sets_up_ret; exists 0].
  eapply sets_up_bind; [apply sets_up_call, ask_run|]. intros c cs rs [-> ->].
  eapply sets_up_mono; [apply sets_up_print|]. intros [] ? ? [-> ->]. by exists c.
Qed.

Lemma sets_up_when b x : sets_up (when b (print x)) (λ _ cs rs, cs = [] ∧ rs = reported b x).
Proof. unfold when. destruct b; [apply sets_up_print|by apply sets_up_ret]. Qed.

Ltac then_call := eapply sets_up_bind; [apply sets_up_call, ask_run|intros ? ? ? [-> ->]].
Ltac then_report := eapply sets_up_bind; [apply sets_up_when|intros [] ? ? [-> ->]].
Ltac then_close := eapply sets_up_bind; [apply sets_up_close|intros [] ? ? (? & -> & ->)].

(** The calls of the set-up with their results, and what it prints. *)
Definition set_up_calls (listenfd epfd r1 c1 r2 c2 r3 r4 r5 : Z) : list (syscall * Z) :=
  [(Socket, listenfd); (SetNonblock listenfd, r1)] ++ close_on_error listenfd r1 c1 ++
  [(ReuseAddr listenfd, r2)] ++ close_on_error listenfd r2 c2 ++
  [(Bind listenfd (htons PORT), r3); (Listen listenfd 5, r4); (EpollCreate, epfd); (EpollAdd epfd listenfd, r5)].
Definition set_up_reports (epfd r1 r2 r3 r4 r5 : Z) : list report :=
  reported (bool_decide (r1 = -1)) SetNonblockError ++ reported (bool_decide (r2 = -1)) ReuseAddrFail ++
  reported (bool_decide (r3 ≠ 0)) BindError ++ reported (bool_decide (r4 ≠ 0)) ListenError ++
  reported (bool_decide (epfd = -1)) CreateEpollError ++ reported (bool_decide (r5 = -1)) EpollCtlError.

Lemma set_up_run :
  sets_up set_up (λ '(listenfd, epfd) cs rs, ∃ r1 c1 r2 c2 r3 r4 r5,
    cs = set_up_calls listenfd epfd r1 c1 r2 c2 r3 r4 r5 ∧ rs = set_up_reports epfd r1 r2 r3 r4 r5).
Proof.
  unfold set_up. then_call.
  eapply sets_up_bind; [apply sets_up_call, setfd_noblock_run|intros ? ? ? [-> ->]].
  then_close. then_call. then_close. then_call. then_report. then_call. then_report. then_call. then_report.
  then_call. then_report. apply sets_up_ret. eexists _, _, _, _, _, _, _.
  split; [by rewrite /set_up_calls /= -?app_assoc|by rewrite /set_up_reports /= ?app_nil_r].
Qed.

(** The set-up of the epoll server never stops: whatever the calls answer, main reaches
    its loop with no session. An error is reported, and nothing else is done about it,
    except that a socket that cannot be made non-blocking, or reusable, is closed; the
    closed descriptor is then bound, listened on and watched all the same. *)
Theorem set_up_goes_on buf e :
  ∃ listenfd epfd e' r1 c1 r2 c2 r3 r4 r5,
    set_up (initial buf e) = (Done (listenfd, epfd), Process (start buf e')
      ([(Socket, listenfd); (SetNonblock listenfd, r1)] ++
       (if bool_decide (r1 = -1) then [(Close listenfd, c1)] else []) ++
       [(ReuseAddr listenfd, r2)] ++
       (if bool_decide (r2 = -1) then [(Close listenfd, c2)] else []) ++
       [(Bind listenfd (htons PORT), r3); (Listen listenfd 5, r4); (EpollCreate, epfd); (EpollAdd epfd listenfd, r5)])
      (reported (bool_decide (r1 = -1)) SetNonblockError ++ reported (bool_decide (r2 = -1)) ReuseAddrFail ++
       reported (bool_decide (r3 ≠ 0)) BindError ++ reported (bool_decide (r4 ≠ 0)) ListenError ++
       reported (bool_decide (epfd = -1)) CreateEpollError ++ reported (bool_decide (r5 = -1)) EpollCtlError)).
Proof.
  destruct (set_up_run (initial buf e))
    as ([listenfd epfd] & e' & cs & rs & Hrun & (r1 & c1 & r2 & c2 & r3 & r4 & r5 & -> & ->)).
  by exists listenfd, epfd, e', r1, c1, r2, c2, r3, r4, r5.
Qed.

(** The whole program, on a network without errors and with finite input: the bytes of
    every connection are echoed in order, as far as they are echoed. *)
Corollary epoll_main_echoes `{!NetLaws, !ReliableNet, !FiniteNet} fuel turns buf e :
  length buf = 1024%nat →
  (∀ r p, set_up (initial buf e) = (r, p) → (remaining (net (machine p)) < fuel)%nat) →
  ∃ r p, epoll_main fuel turns (initial buf e) = (r, p) ∧
    (∀ fd, log_of (rcvd (machine p)) fd = log_of (wrtn (machine p)) fd ++ concat (queue_of (machine p) fd)) ∧
    (r = Done () ∨ r = Undefined EmptyFront ∧ ∃ fd, session_map (machine p) !! fd = Some []).
Proof.
  intros Hbuf Hfuel.
  destruct (set_up_run (initial buf e)) as ([listenfd epfd] & e' & cs & rs & Hrun & _).
  specialize (Hfuel _ _ Hrun). unfold epoll_main. rewrite (bind_done _ _ _ _ _ Hrun). cbn beta iota.
  destruct (serve_result fuel listenfd (turns epfd) (start buf e')) as ((_ & _ & Hl) & _ & Hr);
    [by split_and!; [|intros; constructor|]|done|].
  unfold on_machine, zoom. cbn [machine]. destruct (serve _ _ _ _) as [r s]. cbn in *. eexists _, _. split; [done|].
  split; [done|]. destruct Hr as [[[] ->]|Hr]; auto.
Qed.
End main.
