(* ===== verification/FtpMain.v ===== *)
(** The FTP experiment (src/ftp/main.c): a TCP server that means to send the
    lines typed on its terminal to the client that is connected.

    The lines of standard input, the descriptors accept gives and what the
    socket calls answer are parameters of the run, and so is what sprintf does when it is
    asked to format the buffer into itself, which C leaves undefined. *)

From S2P Require Import Prelude Machine.

(** What the socket calls of main answer, and the bytes that sprintf of line 48 stores at the start
    of a buffer when the buffer is its argument too: the library may store any, or not come back
    ([None]). *)
Class Host : Type := {
  host_socket : Z;
  host_bind : Z;
  host_listen : Z;
  host_accept : nat → Z;              (* the n-th accept *)
  host_read : nat → list Z;           (* what the n-th read stores *)
  host_sprintf : list Z → option (list Z);
}.

Section main.
Context {H : Host}.

(** The state: what is left of standard input, as lines, the number of calls of
    accept and read, and the bytes written to each client. *)
Record console : Type := Console {
  stdin : list (list Z);
  accepts : nat;
  reads : nat;
  sent : list (Z * list Z);
}.

Definition buf_size : Z := 255.

(** gets(buf): the next line and its NUL, or nothing at the end of the input.
    The line is stored whatever its length. *)
Definition gets_line (buf : list Z) : cmd console (list Z) :=
  s ← get;
  match stdin s with
  | [] => mret buf
  | l :: rest =>
    modify (λ s, Console rest (accepts s) (reads s) (sent s));;
    or_ub OutOfBounds (wr_range buf 0 (l ++ [0]))
  end.

(** sprintf with the buffer as its destination and as its argument: C11 7.21.6.6 leaves copying
    between objects that overlap undefined, so that the library decides. *)
Definition sprintf_same (buf : list Z) : cmd console (list Z) :=
  d ← or_ub Overlap (host_sprintf buf);
  or_ub OutOfBounds (wr_range buf 0 d).

(** The bytes of a string: up to the first NUL of the array. *)
Fixpoint strlen (buf : list Z) : option nat :=
  match buf with
  | [] => None
  | c :: buf => if bool_decide (c = 0) then Some O else S <$> strlen buf
  end.

Definition write (fd : Z) (d : list Z) : cmd console unit :=
  modify (λ s, Console (stdin s) (accepts s) (reads s) (sent s ++ [(fd, d)])).

Definition read (fd : Z) (buf : list Z) : cmd console (list Z) :=
  s ← get;
  let d := take (Z.to_nat buf_size) (host_read (reads s)) in
  modify (λ s, Console (stdin s) (accepts s) (S (reads s)) (sent s));;
  or_ub OutOfBounds (wr_range buf 0 d).

(** One turn of the inner while (1). *)
Definition turn (clifd : Z) : cmd console unit :=
  let buf := zeros (Z.to_nat buf_size) in
  buf ← gets_line buf;
  buf ← sprintf_same buf;
  n ← or_ub OutOfBounds (strlen buf);
  write clifd (take n buf);;
  _ ← read clifd buf;
  mret ().

Fixpoint chat (fuel : nat) (clifd : Z) : cmd console unit :=
  match fuel with
  | O => unfinished
  | S fuel => turn clifd;; chat fuel clifd
  end.

(** The outer while (1): the inner loop has no exit. *)
Definition accept_loop (fuel : nat) : cmd console unit :=
  s ← get;
  let clifd := host_accept (accepts s) in
  modify (λ s, Console (stdin s) (S (accepts s)) (reads s) (sent s));;
  chat fuel clifd.

Definition EXIT_FAILURE : Z := 1.

Definition ftp_main (fuel : nat) : cmd console unit :=
  if bool_decide (host_socket < 0) then exit EXIT_FAILURE else
  if bool_decide (host_bind < 0) then exit EXIT_FAILURE else
  if bool_decide (host_listen < 0) then exit EXIT_FAILURE else
  accept_loop fuel.

(** * What a run does *)

(** [gets] overflows the buffer for a line of 255 bytes or more. *)
Lemma gets_line_run l rest a r o buf :
  length buf = Z.to_nat buf_size →
  gets_line buf (Console (l :: rest) a r o) =
    (if bool_decide (length l < 255)%nat
     then Done (l ++ [0] ++ drop (length l + 1) buf) else Undefined OutOfBounds,
     Console rest a r o).
Proof.
  intros Hb. unfold gets_line. erewrite bind_done by reflexivity. cbn beta.
  cbn [stdin]. erewrite bind_done by reflexivity. cbn [accepts reads sent].
  change (Z.to_nat buf_size) with 255%nat in Hb.
  case_bool_decide.
  - rewrite /wr_range bool_decide_eq_true_2; [rewrite length_app Hb; simpl; lia|].
    cbn [or_ub]. rewrite /mret /cmd_ret.
    by rewrite /= length_app -app_assoc.
  - rewrite (proj2 (wr_range_None _ _ _ _)) // Hb length_app. simpl. lia.
Qed.

(** The buffer after gets, given what is left of the input: zeros from the end of the line, or
    everywhere at the end of the input; nothing when the line does not fit. *)
Definition typed (input : list (list Z)) : option (list Z) :=
  match input with
  | [] => Some (zeros (Z.to_nat buf_size))
  | l :: _ => if bool_decide (length l < 255)%nat then Some (l ++ zeros (255 - length l)) else None
  end.

(** What a turn sends of it, as the library formats it, or how it goes wrong. *)
Definition turn_sends (input : list (list Z)) : ub + list Z :=
  match typed input with
  | None => inl OutOfBounds
  | Some buf =>
    match host_sprintf buf with
    | None => inl Overlap
    | Some d =>
      match wr_range buf 0 d with
      | None => inl OutOfBounds
      | Some b => match strlen b with None => inl OutOfBounds | Some n => inr (take n b) end
      end
    end
  end.

(** What a number of turns send, and how they end if one goes wrong. *)
Fixpoint turns_send (n : nat) (input : list (list Z)) : list (list Z) * option ub :=
  match n with
  | O => ([], None)
  | S n =>
    match turn_sends input with
    | inl w => ([], Some w)
    | inr d => let '(ds, w) := turns_send n (tail input) in (d :: ds, w)
    end
  end.

Lemma gets_typed input a r o :
  gets_line (zeros (Z.to_nat buf_size)) (Console input a r o) =
    (match typed input with Some b => Done b | None => Undefined OutOfBounds end, Console (tail input) a r o).
Proof.
  destruct input as [|l rest]; [done|]. rewrite gets_line_run //. cbn [typed tail].
  case_bool_decide as Hl; [|done].
  change (zeros (Z.to_nat buf_size)) with (replicate 255 0). rewrite drop_replicate.
  by replace (255 - length l)%nat with (S (255 - (length l + 1))) by lia.
Qed.

Lemma typed_length input b : typed input = Some b → length b = 255%nat.
Proof.
  destruct input as [|l rest]; cbn [typed]; [by intros [= <-]|].
  case_bool_decide; intros [= <-]. rewrite length_app length_replicate. lia.
Qed.

Lemma read_run fd b a r i o :
  length b = 255%nat → ∃ b', read fd b (Console i a r o) = (Done b', Console i a (S r) o).
Proof.
  intros Hb. set (d := take (Z.to_nat buf_size) (host_read r)).
  assert (length d ≤ 255)%nat as Hd by (unfold d; rewrite length_take; change (Z.to_nat buf_size) with 255%nat; lia).
  destruct (wr_range b 0 d) as [b'|] eqn:Hw.
  - exists b'. unfold read. rewrite (bind_done _ _ _ _ _ (eq_refl : get _ = _)). cbn [reads]. fold d.
    erewrite bind_done by reflexivity. by rewrite Hw.
  - apply wr_range_None in Hw; lia.
Qed.

Lemma sprintf_same_run buf s :
  sprintf_same buf s =
    (match host_sprintf buf with
     | None => Undefined Overlap
     | Some d => match wr_range buf 0 d with Some b => Done b | None => Undefined OutOfBounds end
     end, s).
Proof.
  unfold sprintf_same, mbind, cmd_bind. destruct (host_sprintf buf) as [d|]; [|done]. cbn.
  by destruct (wr_range buf 0 d).
Qed.

(** One turn. *)
Lemma turn_run fd input a r o :
  turn fd (Console input a r o) =
    match turn_sends input with
    | inl w => (Undefined w, Console (tail input) a r o)
    | inr d => (Done (), Console (tail input) a (S r) (o ++ [(fd, d)]))
    end.
Proof.
  pose proof (gets_typed input a r o) as Hg. unfold turn, turn_sends.
  destruct (typed input) as [buf|] eqn:Hty; [|by apply bind_undefined].
  apply typed_length in Hty. erewrite bind_done by exact Hg.
  pose proof (sprintf_same_run buf (Console (tail input) a r o)) as Hsp.
  destruct (host_sprintf buf) as [d|]; [|by apply bind_undefined].
  destruct (wr_range buf 0 d) as [b|] eqn:Hw; [|by apply bind_undefined].
  assert (length b = 255%nat) as Hb by by rewrite (wr_range_length _ _ _ _ Hw).
  erewrite bind_done by exact Hsp. destruct (strlen b) as [n|]; [|by apply bind_undefined].
  erewrite bind_done by reflexivity. erewrite bind_done by reflexivity. cbn [stdin accepts reads sent].
  destruct (read_run fd b a r (tail input) (o ++ [(fd, take n b)]) Hb) as [b' Hr].
  by erewrite bind_done by exact Hr.
Qed.

(** The turns of the inner loop. *)
Lemma chat_run n fd input a r o :
  let '(ds, w) := turns_send n input in
  ∃ rest, chat n fd (Console input a r o) =
    (match w with Some w => Undefined w | None => Unfinished end,
     Console rest a (r + length ds)%nat (o ++ map (pair fd) ds)).
Proof.
  revert input r o. induction n as [|n IH]; intros input r o; cbn [chat turns_send].
  { exists input. by rewrite /= Nat.add_0_r app_nil_r. }
  pose proof (turn_run fd input a r o) as Ht. destruct (turn_sends input) as [w|d].
  - exists (tail input). cbn [length map]. rewrite Nat.add_0_r app_nil_r. by apply bind_undefined.
  - specialize (IH (tail input) (S r) (o ++ [(fd, d)])). destruct (turns_send n (tail input)) as [ds w].
    destruct IH as [rest IH]. exists rest. erewrite bind_done by exact Ht. rewrite IH. cbn [length map].
    by rewrite Nat.add_succ_r -app_assoc.
Qed.

Lemma strlen_app l k : 0 ∉ l → strlen (l ++ 0 :: k) = Some (length l).
Proof.
  induction l as [|c l IH]; intros Hl; [done|]. cbn [strlen app length].
  rewrite bool_decide_eq_false_2; [intros ->; by apply Hl; left|]. by rewrite IH; [intros ?; apply Hl; right|].
Qed.

(** C40. When its socket calls succeed, the server accepts one client and no other, and whatever
    the client sends, each turn sends it the next line that was typed as the library formats it:
    the string that sprintf leaves in a buffer that held the line and zeros, whatever the turns
    before did. This goes on until a line of 255 bytes or more overflows
    the buffer, or until formatting the buffer into itself, which is undefined, goes outside it
    or does not come back; at the end of the input, the empty line goes on being sent. With a library
    that copies byte by byte, a line of up to 252 bytes is sent with CR LF after it, and
    one of 253 or 254 overflows the buffer. *)
Theorem ftp_sends_lines n input a :
  0 ≤ host_socket → 0 ≤ host_bind → 0 ≤ host_listen →
  (let '(ds, w) := turns_send n input in
   ∃ rest, ftp_main n (Console input a 0 []) =
     (match w with Some w => Undefined w | None => Unfinished end,
      Console rest (S a) (length ds) (map (pair (host_accept a)) ds))) ∧
  ((∀ buf k, strlen buf = Some k → host_sprintf buf = Some (take k buf ++ [13; 10; 0])) →
   ∀ l rest, 0 ∉ l →
     turn_sends (l :: rest) = if bool_decide (length l ≤ 252)%nat then inr (l ++ [13; 10]) else inl OutOfBounds).
Proof.
  intros Hs Hb Hl. split.
  - pose proof (chat_run n (host_accept a) input (S a) 0 []) as Hc. destruct (turns_send n input) as [ds w].
    destruct Hc as [rest Hc]. exists rest. unfold ftp_main. rewrite !bool_decide_eq_false_2; [lia..|].
    unfold accept_loop. erewrite bind_done by reflexivity. cbn beta.
    erewrite bind_done by reflexivity. cbn [stdin reads sent accepts]. exact Hc.
  - intros Hlib l rest Hl0. unfold turn_sends, typed. case_bool_decide as Hlen.
    2:{ by rewrite bool_decide_eq_false_2; [lia|]. }
    destruct (255 - length l)%nat as [|k] eqn:Hk; [lia|]. cbn [zeros replicate].
    change (zeros (S k)) with (0 :: replicate k 0).
    rewrite (Hlib _ (length l)); [by apply strlen_app|]. rewrite take_app_length. case_bool_decide as H252.
    + assert (∃ k', wr_range (l ++ 0 :: replicate k 0) 0 (l ++ [13; 10; 0]) = Some ((l ++ [13; 10]) ++ 0 :: k')) as [k' ->].
      { exists (drop 2 (replicate k 0)). rewrite /wr_range bool_decide_eq_true_2; [rewrite !length_app /= length_replicate; lia|].
        change (Z.to_nat 0) with 0%nat. rewrite take_0 app_nil_l Nat.add_0_l length_app drop_app_ge; [lia|].
        replace (_ - length l)%nat with 3%nat by (simpl; lia).
        by rewrite -!app_assoc. }
      rewrite strlen_app; [rewrite not_elem_of_app; split; [done|set_solver]|]. by rewrite take_app_length.
    + assert (wr_range (l ++ 0 :: replicate k 0) 0 (l ++ [13; 10; 0]) = None) as ->; [|done].
      apply wr_range_None; rewrite ?length_app /= ?length_replicate; lia.
Qed.
End main.

(** * A concrete run *)

(** A library that copies byte by byte. *)
Definition in_place (buf : list Z) : option (list Z) :=
  k ← strlen buf; Some (take k buf ++ [13; 10; 0]).

#[local] Instance a_host : Host := {|
  host_socket := 3;
  host_bind := 0;
  host_listen := 0;
  host_accept _ := 4;
  host_read _ := [];
  host_sprintf := in_place;
|}.

Lemma ftp_sends_lines_witness :
  (∃ rest, ftp_main 3 (Console [[104; 105]; []] 0 0 []) =
     (Unfinished, Console rest 1 3 [(4, [104; 105; 13; 10]); (4, [13; 10]); (4, [13; 10])])) ∧
  turn_sends [replicate 253 120] = inl OutOfBounds.
Proof.
  assert (0 ≤ host_socket ∧ 0 ≤ host_bind ∧ 0 ≤ host_listen) as (H1 & H2 & H3) by (by vm_compute).
  destruct (ftp_sends_lines 3 [[104; 105]; []] 0 H1 H2 H3) as [Hrun Hlib]. split; [exact Hrun|].
  apply (Hlib (λ buf k Hk, f_equal (λ o, k ← o; Some (take k buf ++ [13; 10; 0])) Hk) (replicate 253 120) []).
  by intros [? _]%elem_of_replicate.
Defined.
