(* ===== verification/LibeventEcho.v ===== *)
(** The libevent echo server and its client (src/echo/libevent2/echo_server.cpp
    and echo_client.cpp).

    libevent is an interface, the class [Libevent]: a bufferevent with the
    contents of its input and output buffers, and what event2/bufferevent.h
    documents of the calls the two programs make. The loop around a client and a
    server connection is a step relation: the kernel moves bytes from an output
    buffer to the wire and from the wire to an input buffer in any pieces, and
    libevent runs the callbacks. *)

From stdpp Require Import relations.
From S2P Require Import Prelude.

(** * The interface of libevent *)

Class Libevent : Type := {
  bufferevent : Type;
  evbuffer : Type;
  bev_input : bufferevent → list Z;
  bev_output : bufferevent → list Z;
  (** bufferevent_socket_new: NULL when the allocation fails *)
  bufferevent_socket_new : nat → option bufferevent;
  bufferevent_get_input : bufferevent → evbuffer;
  bufferevent_write_buffer : bufferevent → evbuffer → bufferevent;
  bufferevent_write : bufferevent → list Z → bufferevent;
}.

(** What event2/bufferevent.h documents: a new bufferevent is empty;
    bufferevent_write_buffer moves the data of an evbuffer, which it drains, to
    the output buffer; bufferevent_write appends to it. *)
Class LibeventLaws `{Libevent} : Prop := {
  new_empty n b : bufferevent_socket_new n = Some b → bev_input b = [] ∧ bev_output b = [];
  write_buffer_input b :
    bev_input (bufferevent_write_buffer b (bufferevent_get_input b)) = [];
  write_buffer_output b :
    bev_output (bufferevent_write_buffer b (bufferevent_get_input b)) =
      bev_output b ++ bev_input b;
  write_input b d : bev_input (bufferevent_write b d) = bev_input b;
  write_output b d : bev_output (bufferevent_write b d) = bev_output b ++ d;
}.

(** The bits of an event (event2/bufferevent.h). *)
Definition BEV_EVENT_READING : Z := 1.
Definition BEV_EVENT_WRITING : Z := 2.
Definition BEV_EVENT_EOF : Z := 16.
Definition BEV_EVENT_ERROR : Z := 32.
Definition BEV_EVENT_TIMEOUT : Z := 64.
Definition BEV_EVENT_CONNECTED : Z := 128.

Definition EV_READ : Z := 2.
Definition EV_PERSIST : Z := 16.

Definition MSG_SIZE : nat := 1024.
(** const char MSG[MSG_SIZE] = {}. *)
Definition MSG : list Z := replicate MSG_SIZE 0.

Inductive message : Type :=
  | MsgAccept
  | MsgConstructing            (* Error constructing bufferevent! *)
  | MsgClosed                  (* Connection closed *)
  | MsgError                   (* Some error occuerd *)
  | MsgConnected.              (* Client has successfully connected *)

#[export] Instance message_eq_dec : EqDecision message.
Proof. solve_decision. Defined.

Section programs.
Context {L : Libevent}.

(** A bufferevent with the callbacks bufferevent_setcb gave it and the events
    bufferevent_enable enabled. *)
Record conn : Type := Conn {
  bev : bufferevent;
  has_read_cb : bool;
  has_event_cb : bool;
  enabled : Z;
}.

(** A process: its connections, the number of bufferevents it asked for and
    what it printed. *)
Record process : Type := Process {
  conns : list conn;
  allocs : nat;
  printed : list message;
}.

Definition print (m : message) : cmd process unit :=
  modify (λ s, Process (conns s) (allocs s) (printed s ++ [m])).

Definition socket_new : cmd process (option bufferevent) :=
  s ← get;
  modify (λ s, Process (conns s) (S (allocs s)) (printed s));;
  mret (bufferevent_socket_new (allocs s)).

(** read_cb of both programs. *)
Definition read_cb (b : bufferevent) : bufferevent :=
  let input := bufferevent_get_input b in
  bufferevent_write_buffer b input.

(** * echo_server.cpp *)

(** A NULL bufferevent is reported and used all the same. *)
Definition listener_cb : cmd process unit :=
  print MsgAccept;;
  b ← socket_new;
  match b with
  | None => print MsgConstructing;; undefined NullDeref
  | Some b =>
    modify (λ s, Process (conns s ++ [Conn b true false EV_READ]) (allocs s) (printed s))
  end.

(** * echo_client.cpp *)

(** event_cb, with the contents of the message it writes. *)
Definition event_cb_sending (msg : list Z) (b : bufferevent) (event : Z) : cmd process bufferevent :=
  if bool_decide (Z.land event BEV_EVENT_EOF ≠ 0) then print MsgClosed;; mret b
  else if bool_decide (Z.land event BEV_EVENT_ERROR ≠ 0) then print MsgError;; mret b
  else if bool_decide (Z.land event BEV_EVENT_CONNECTED ≠ 0) then
    print MsgConnected;; mret (bufferevent_write b msg)
  else abort.

Definition event_cb : bufferevent → Z → cmd process bufferevent := event_cb_sending MSG.

(** echo_client::start *)
Definition start : cmd process unit :=
  b ← socket_new;
  match b with
  | None => undefined NullDeref
  | Some b =>
    modify (λ s, Process (conns s ++ [Conn b true true (Z.lor EV_READ EV_PERSIST)])
                   (allocs s) (printed s))
  end.

Fixpoint start_all (n : nat) : cmd process unit :=
  match n with
  | O => mret ()
  | S n => start;; start_all n
  end.

(** start_thread up to its event_base_dispatch: ten clients on one base. *)
Definition start_thread : cmd process unit := start_all 10.

(** * A client, a server and the wires between them *)

Record ring : Type := Ring {
  connected : bool;            (* the client's CONNECTED event has been run *)
  client : bufferevent;
  c2s : list Z;
  server : bufferevent;
  s2c : list Z;
}.

(** The kernel took the bytes [d] from a bufferevent's output buffer, or added
    them to its input buffer. *)
Definition sends (b : bufferevent) (d : list Z) (b' : bufferevent) : Prop :=
  bev_output b = d ++ bev_output b' ∧ bev_input b' = bev_input b.
Definition receives (b : bufferevent) (d : list Z) (b' : bufferevent) : Prop :=
  bev_input b' = bev_input b ++ d ∧ bev_output b' = bev_output b.

(** The ring around a client whose message is [msg]: every byte of the program's [MSG] is
    zero, and what happens to the bytes does not depend on their values. *)
Inductive step (msg : list Z) : ring → ring → Prop :=
  | step_connected c w1 s w2 p c' p' :
      event_cb_sending msg c BEV_EVENT_CONNECTED p = (Done c', p') →
      step msg (Ring false c w1 s w2) (Ring true c' w1 s w2)
  | step_client_send d c c' w1 s w2 f :
      sends c d c' → step msg (Ring f c w1 s w2) (Ring f c' (w1 ++ d) s w2)
  | step_server_receive d c w1 s s' w2 f :
      receives s d s' → step msg (Ring f c (d ++ w1) s w2) (Ring f c w1 s' w2)
  | step_server_read c w1 s w2 f :
      step msg (Ring f c w1 s w2) (Ring f c w1 (read_cb s) w2)
  | step_server_send d c w1 s s' w2 f :
      sends s d s' → step msg (Ring f c w1 s w2) (Ring f c w1 s' (w2 ++ d))
  | step_client_receive d c c' w1 s w2 f :
      receives c d c' → step msg (Ring f c w1 s (d ++ w2)) (Ring f c' w1 s w2)
  | step_client_read c w1 s w2 f :
      step msg (Ring f c w1 s w2) (Ring f (read_cb c) w1 s w2).

(** The bytes in the ring, the next to come back to the client first. *)
Definition in_flight (r : ring) : list Z :=
  bev_input (client r) ++ s2c r ++ bev_output (server r) ++ bev_input (server r) ++ c2s r ++
  bev_output (client r).

Definition ring_start (c s : bufferevent) : ring := Ring false c [] s [].

(** * What the programs do *)

Lemma start_all_run n s :
  (∀ k, (k < n)%nat → is_Some (bufferevent_socket_new (allocs s + k)%nat)) →
  ∃ s', start_all n s = (Done (), s') ∧ length (conns s') = (length (conns s) + n)%nat ∧
    allocs s' = (allocs s + n)%nat ∧ printed s' = printed s ∧
    ∀ c, c ∈ drop (length (conns s)) (conns s') →
      has_read_cb c = true ∧ has_event_cb c = true ∧ enabled c = 18.
Proof.
  revert s. induction n as [|n IH]; intros s Hn.
  { exists s. split_and!; [done|lia..|done|]. rewrite drop_ge //. by intros ? ?%elem_of_nil. }
  cbn [start_all]. destruct (Hn 0%nat) as [b Hb]; [lia|]. rewrite Nat.add_0_r in Hb.
  set (s1 := Process (conns s ++ [Conn b true true 18]) (S (allocs s)) (printed s)).
  assert (start s = (Done (), s1)) as Hrun.
  { unfold start, socket_new. erewrite bind_done by reflexivity. cbn beta. by rewrite Hb. }
  erewrite bind_done by exact Hrun.
  destruct (IH s1) as (s' & Hs' & Hlen & Hal & Hpr & Hcb).
  { intros k Hk. specialize (Hn (S k)). cbn. rewrite -Nat.add_succ_r. apply Hn. lia. }
  exists s'. split_and!; [done| | |done|].
  - rewrite Hlen length_app /=. lia.
  - rewrite Hal /=. lia.
  - intros c Hc. unfold s1 in Hcb. cbn [conns] in Hcb.
    assert (conns s ++ [Conn b true true 18] `prefix_of` conns s') as Hpre.
    { clear -Hs'. change (conns s ++ _) with (conns s1). revert Hs'. generalize s1. clear.
      induction n as [|n IH]; intros s Hs; [by injection Hs as <-|].
      cbn [start_all] in Hs. unfold start, socket_new, mbind, cmd_bind in Hs. cbn in Hs.
      destruct (bufferevent_socket_new _) as [b|]; [|done]. cbn in Hs.
      apply IH in Hs. cbn [conns] in Hs. etrans; [|exact Hs]. by eexists. }
    destruct Hpre as [k Hk]. rewrite Hk in Hc, Hcb.
    rewrite -app_assoc drop_app_length in Hc. rewrite drop_app_length in Hcb.
    apply elem_of_cons in Hc as [->|Hc]; [done|by apply Hcb].
Qed.

(** The client's thread starts ten clients when no allocation fails, each
    with both callbacks set and reading enabled; a failed allocation is not
    checked, and is used at once. *)
Theorem start_thread_starts_ten s :
  (∀ k, (k < 10)%nat → is_Some (bufferevent_socket_new (allocs s + k)%nat)) →
  conns s = [] →
  ∃ s', start_thread s = (Done (), s') ∧ length (conns s') = 10%nat ∧
    ∀ c, c ∈ conns s' → has_read_cb c = true ∧ has_event_cb c = true ∧ enabled c = 18.
Proof.
  intros Hn Hs. destruct (start_all_run 10 s Hn) as (s' & Hrun & Hlen & _ & _ & Hcb).
  rewrite Hs in Hlen Hcb. by exists s'.
Qed.

(** An event of a client is dispatched on its bits in the order EOF, ERROR,
    CONNECTED; only CONNECTED alone writes the message; an event with none of
    the three, such as a timeout, aborts the program. *)
Theorem event_cb_dispatch msg b event s :
  event_cb_sending msg b event s =
    (let eof := negb (Z.land event BEV_EVENT_EOF =? 0) in
     let err := negb (Z.land event BEV_EVENT_ERROR =? 0) in
     let con := negb (Z.land event BEV_EVENT_CONNECTED =? 0) in
     (if eof || err then Done b else if con then Done (bufferevent_write b msg) else Aborted,
      Process (conns s) (allocs s)
        (printed s ++ (if eof then [MsgClosed] else if err then [MsgError]
                       else if con then [MsgConnected] else [])))).
Proof.
  unfold event_cb_sending. destruct s as [cs al pr].
  destruct (Z.eqb_spec (Z.land event BEV_EVENT_EOF) 0) as [->|H1];
    [rewrite bool_decide_eq_false_2; [by intros []|] | by rewrite bool_decide_eq_true_2].
  destruct (Z.eqb_spec (Z.land event BEV_EVENT_ERROR) 0) as [->|H2];
    [rewrite bool_decide_eq_false_2; [by intros []|] | by rewrite bool_decide_eq_true_2].
  destruct (Z.eqb_spec (Z.land event BEV_EVENT_CONNECTED) 0) as [->|H3];
    [rewrite bool_decide_eq_false_2; [by intros []|] | by rewrite bool_decide_eq_true_2].
  by rewrite /= app_nil_r.
Qed.

Context {LL : LibeventLaws}.

Definition rotation {A} (l k : list A) : Prop := ∃ p q, l = p ++ q ∧ k = q ++ p.

Lemma rotation_refl {A} (l : list A) : rotation l l.
Proof. exists [], l. by rewrite app_nil_r. Qed.

Lemma rotation_app {A} (l d k : list A) : rotation l (d ++ k) → rotation l (k ++ d).
Proof.
  intros (p & q & -> & Hqp). destruct (decide (length d ≤ length q)%nat) as [Hd|Hd].
  - assert (d = take (length d) q) as Hdq.
    { by rewrite -(take_app_le q p) // -Hqp take_app_length. }
    assert (q = d ++ drop (length d) q) as Hq by by rewrite {1}Hdq take_drop.
    assert (k = drop (length d) q ++ p) as ->.
    { apply (app_inv_head d). by rewrite Hqp app_assoc -Hq. }
    exists (p ++ d), (drop (length d) q). by rewrite -!app_assoc -Hq.
  - assert (q = take (length q) d) as Hqd.
    { rewrite -(take_app_le d k); [lia|]. by rewrite Hqp take_app_length. }
    assert (d = q ++ drop (length q) d) as Hd' by by rewrite {1}Hqd take_drop.
    assert (p = drop (length q) d ++ k) as ->.
    { apply (app_inv_head q). by rewrite -Hqp app_assoc -Hd'. }
    exists (drop (length q) d), (k ++ q). by rewrite -!app_assoc -Hd'.
Qed.

(** What a reachable ring holds. *)
Definition ring_inv (msg : list Z) (r : ring) : Prop :=
  if connected r then rotation msg (in_flight r) else in_flight r = [].

Lemma ring_inv_rotate msg f c w1 s w2 c' w1' s' w2' d k :
  ring_inv msg (Ring f c w1 s w2) →
  in_flight (Ring f c w1 s w2) = d ++ k → in_flight (Ring f c' w1' s' w2') = k ++ d →
  ring_inv msg (Ring f c' w1' s' w2').
Proof.
  unfold ring_inv. cbn [connected]. intros Hinv H1 ->. rewrite H1 in Hinv.
  destruct f; [by apply rotation_app|]. by apply app_eq_nil in Hinv as [-> ->].
Qed.

Lemma ring_inv_step msg r r' : ring_inv msg r → step msg r r' → ring_inv msg r'.
Proof.
  intros Hinv Hst. destruct Hst as [c w1 s w2 p c' p' Hcb|d c c' w1 s w2 f [Ho Hi]
    |d c w1 s s' w2 f [Hi Ho]|c w1 s w2 f|d c w1 s s' w2 f [Ho Hi]|d c c' w1 s w2 f [Hi Ho]
    |c w1 s w2 f].
  - rewrite event_cb_dispatch in Hcb. vm_compute (Z.land _ _) in Hcb. injection Hcb as <- _.
    unfold ring_inv, in_flight in *. cbn in *. rewrite write_input write_output !app_assoc.
    rewrite !app_assoc in Hinv. rewrite Hinv. apply rotation_refl.
  - eapply ring_inv_rotate; [done|symmetry; apply app_nil_r|].
    unfold in_flight. cbn. by rewrite Ho Hi ?app_nil_r -?app_assoc.
  - eapply ring_inv_rotate; [done|symmetry; apply app_nil_r|].
    unfold in_flight. cbn. by rewrite Ho Hi ?app_nil_r -?app_assoc.
  - eapply ring_inv_rotate; [done|symmetry; apply app_nil_r|].
    unfold in_flight, read_cb. cbn.
    by rewrite write_buffer_input write_buffer_output ?app_nil_r -?app_assoc.
  - eapply ring_inv_rotate; [done|symmetry; apply app_nil_r|].
    unfold in_flight. cbn. by rewrite Ho Hi ?app_nil_r -?app_assoc.
  - eapply ring_inv_rotate; [done|symmetry; apply app_nil_r|].
    unfold in_flight. cbn. by rewrite Ho Hi ?app_nil_r -?app_assoc.
  - eapply ring_inv_rotate; [done|reflexivity|].
    unfold in_flight, read_cb. cbn.
    by rewrite write_buffer_input write_buffer_output -?app_assoc.
Qed.

Lemma reachable_inv msg na nb c s r :
  bufferevent_socket_new na = Some c → bufferevent_socket_new nb = Some s →
  rtc (step msg) (ring_start c s) r → ring_inv msg r.
Proof.
  intros [Hc1 Hc2]%new_empty [Hs1 Hs2]%new_empty Hsteps.
  assert (ring_inv msg (ring_start c s)) as H0.
  { unfold ring_inv, in_flight. cbn. by rewrite Hc1 Hc2 Hs1 Hs2. }
  clear -Hsteps H0 LL. induction Hsteps as [|x y z Hxy _ IH]; [done|].
  apply IH. by eapply ring_inv_step.
Qed.

Lemma rotation_length {A} (l k : list A) : rotation l k → length k = length l.
Proof. intros (p & q & -> & ->). rewrite !length_app. lia. Qed.

(** C7. Whatever pieces the kernel moves and whenever the callbacks run, the
    client's message, whatever its bytes are, circulates between the two programs:
    before the connection nothing is in flight, and afterwards the buffers and the
    wires hold, from the client's input backwards, the message's bytes in order up
    to a rotation; none is lost, duplicated or overtaken. *)
Theorem echo_ring_conserves msg na nb c s r :
  bufferevent_socket_new na = Some c → bufferevent_socket_new nb = Some s →
  rtc (step msg) (ring_start c s) r →
  if connected r then length (in_flight r) = length msg ∧ rotation msg (in_flight r)
  else in_flight r = [].
Proof.
  intros Hc Hs Hsteps. pose proof (reachable_inv _ _ _ _ _ _ Hc Hs Hsteps) as Hinv.
  unfold ring_inv in Hinv. destruct (connected r); [|done].
  split; [by apply rotation_length in Hinv|done].
Qed.

(** * Progress *)

(** What the kernel and the event loop can always do: take any first part of an output
    buffer, and add bytes to an input buffer. *)
Class LibeventIO : Prop := {
  drain_law b d k : bev_output b = d ++ k → ∃ b', sends b d b';
  fill_law b d : ∃ b', receives b d b';
}.

(** A step of a connected ring that moves bytes, with those the client's read_cb sends
    back. *)
Inductive moves : ring → list Z → ring → Prop :=
  | move_client_send d c c' w1 s w2 :
      d ≠ [] → sends c d c' → moves (Ring true c w1 s w2) [] (Ring true c' (w1 ++ d) s w2)
  | move_server_receive d c w1 s s' w2 :
      d ≠ [] → receives s d s' → moves (Ring true c (d ++ w1) s w2) [] (Ring true c w1 s' w2)
  | move_server_read c w1 s w2 :
      bev_input s ≠ [] → moves (Ring true c w1 s w2) [] (Ring true c w1 (read_cb s) w2)
  | move_server_send d c w1 s s' w2 :
      d ≠ [] → sends s d s' → moves (Ring true c w1 s w2) [] (Ring true c w1 s' (w2 ++ d))
  | move_client_receive d c c' w1 s w2 :
      d ≠ [] → receives c d c' → moves (Ring true c w1 s (d ++ w2)) [] (Ring true c' w1 s w2)
  | move_client_read c w1 s w2 :
      bev_input c ≠ [] → moves (Ring true c w1 s w2) (bev_input c) (Ring true (read_cb c) w1 s w2).

(** [n] such steps, with all the bytes that came back. *)
Inductive runs : nat → ring → list Z → ring → Prop :=
  | runs_none r : runs 0 r [] r
  | runs_move n r d r1 log r2 : moves r d r1 → runs n r1 log r2 → runs (S n) r (d ++ log) r2.

(** How far the bytes in flight are from the client's input buffer. *)
Definition distance (r : ring) : nat :=
  5 * length (bev_output (client r)) + 4 * length (c2s r) + 3 * length (bev_input (server r)) +
  2 * length (bev_output (server r)) + length (s2c r).

Lemma moves_step msg r d r' : moves r d r' → step msg r r' ∧ connected r' = true.
Proof. by destruct 1; (split; [constructor|]). Qed.

Lemma nonempty_length {A} (d : list A) : d ≠ [] → (0 < length d)%nat.
Proof. destruct d; [done|simpl; lia]. Qed.

(** A step brings the bytes nearer, but for those that have come back. *)
Lemma moves_distance r d r' :
  moves r d r' → (distance r' + 1 ≤ distance r + 6 * length d)%nat.
Proof.
  unfold distance. destruct 1 as [d c c' w1 s w2 Hd [Ho Hi]|d c w1 s s' w2 Hd [Hi Ho]|c w1 s w2 Hd
    |d c w1 s s' w2 Hd [Ho Hi]|d c c' w1 s w2 Hd [Hi Ho]|c w1 s w2 Hd];
    apply nonempty_length in Hd; simpl; unfold read_cb;
    rewrite ?Ho ?Hi ?write_buffer_input ?write_buffer_output ?length_app; simpl; lia.
Qed.

(** What has come back follows the order of the bytes in flight. *)
Lemma moves_order r d r' : moves r d r' → in_flight r ++ d = d ++ in_flight r'.
Proof.
  unfold in_flight. destruct 1 as [d c c' w1 s w2 Hd [Ho Hi]|d c w1 s s' w2 Hd [Hi Ho]|c w1 s w2 Hd
    |d c w1 s s' w2 Hd [Ho Hi]|d c c' w1 s w2 Hd [Hi Ho]|c w1 s w2 Hd];
    simpl; unfold read_cb; rewrite ?Ho ?Hi ?write_buffer_input ?write_buffer_output ?app_nil_r -?app_assoc //.
Qed.

Lemma runs_progress n r log r' :
  runs n r log r' → (n + distance r' ≤ distance r + 6 * length log)%nat ∧
    in_flight r ++ log = log ++ in_flight r'.
Proof.
  induction 1 as [r|n r d r1 log r2 Hm _ [IHn IHo]]; [by rewrite app_nil_r /=; split; [lia|]|].
  apply moves_distance in Hm as Hdist. apply moves_order in Hm. rewrite length_app. split; [lia|].
  by rewrite (app_assoc _ d log) Hm -(app_assoc d _ log) IHo (app_assoc d log).
Qed.

Lemma runs_steps msg n r log r' :
  connected r = true → runs n r log r' → rtc (step msg) r r' ∧ connected r' = true.
Proof.
  intros Hc. induction 1 as [r|n r d r1 log r2 Hm _ IH]; [by split; [apply rtc_refl|]|].
  apply (moves_step msg) in Hm as [Hst Hc1]. destruct (IH Hc1) as [Hr Hc2]. split; [|done]. by eapply rtc_l.
Qed.

Lemma distance_bound r : (distance r ≤ 5 * length (in_flight r))%nat.
Proof. unfold distance, in_flight. rewrite !length_app. lia. Qed.

(** While bytes are in flight, one of the six stages can move some. *)
Lemma moves_possible `{!LibeventIO} r :
  connected r = true → in_flight r ≠ [] → ∃ d r', moves r d r'.
Proof.
  destruct r as [f c w1 s w2]. simpl. intros -> Hne. unfold in_flight in Hne. simpl in Hne.
  destruct (decide (bev_input c = [])) as [H1|]; [|eexists _, _; by apply move_client_read].
  destruct (decide (w2 = [])) as [H2|Hd].
  2: { destruct (fill_law c w2) as [c' Hc']. exists [], (Ring true c' w1 s []).
       rewrite -{1}(app_nil_r w2). by apply move_client_receive. }
  destruct (decide (bev_output s = [])) as [H3|Hd].
  2: { destruct (drain_law s (bev_output s) []) as [s' Hs']; [by rewrite app_nil_r|].
       eexists _, _. by eapply move_server_send. }
  destruct (decide (bev_input s = [])) as [H4|]; [|eexists _, _; by apply move_server_read].
  destruct (decide (w1 = [])) as [H5|Hd].
  2: { destruct (fill_law s w1) as [s' Hs']. exists [], (Ring true c [] s' w2).
       rewrite -{1}(app_nil_r w1). by apply move_server_receive. }
  destruct (decide (bev_output c = [])) as [H6|Hd].
  { by rewrite H1 H2 H3 H4 H5 H6 in Hne. }
  destruct (drain_law c (bev_output c) []) as [c' Hc']; [by rewrite app_nil_r|].
  eexists _, _. by eapply move_client_send.
Qed.

(** C6. Once connected, the message, whatever its bytes are, keeps coming back to the
    client: bytes can always be moved, and of any run of steps that move some, all but
    five for each byte of the message are paid for by bytes that came back, at most six steps for each; so the whole
    message has come back after eleven times its length of such steps, in the order in
    which it was in flight, over and over. *)
Theorem message_keeps_returning `{!LibeventIO} msg na nb c s r :
  msg ≠ [] →
  bufferevent_socket_new na = Some c → bufferevent_socket_new nb = Some s →
  rtc (step msg) (ring_start c s) r → connected r = true →
  (∃ d r', moves r d r') ∧
  (∀ n log r', runs n r log r' →
     (n ≤ 5 * length msg + 6 * length log)%nat ∧ in_flight r ++ log = log ++ in_flight r' ∧
     ∃ d r'', moves r' d r'') ∧
  (∀ n log r', runs n r log r' → (11 * length msg ≤ n)%nat → in_flight r `prefix_of` log).
Proof.
  intros Hmsg Hc Hs Hr Hcon.
  assert (∀ r', rtc (step msg) r r' → connected r' = true → length (in_flight r') = length msg) as Hlen.
  { intros r' Hr' Hcon'. pose proof (reachable_inv msg na nb c s r' Hc Hs (transitivity Hr Hr')) as Hinv.
    unfold ring_inv in Hinv. rewrite Hcon' in Hinv. by apply rotation_length in Hinv. }
  assert (∀ r', rtc (step msg) r r' → connected r' = true → ∃ d r'', moves r' d r'') as Hmove.
  { intros r' Hr' Hcon'. apply moves_possible; [done|]. intros Hnil. specialize (Hlen _ Hr' Hcon').
    rewrite Hnil in Hlen. by destruct msg. }
  assert (∀ n log r', runs n r log r' →
    (n ≤ 5 * length msg + 6 * length log)%nat ∧ in_flight r ++ log = log ++ in_flight r') as Hruns.
  { intros n log r' Hrun. apply runs_progress in Hrun as [Hn Ho]. split; [|done].
    pose proof (distance_bound r) as Hb. pose proof (Hlen r (rtc_refl _ _) Hcon). lia. }
  split_and!; [apply Hmove; [apply rtc_refl|done]| |].
  - intros n log r' Hrun. destruct (Hruns _ _ _ Hrun) as [Hn Ho].
    destruct (runs_steps msg _ _ _ _ Hcon Hrun) as [Hr' Hcon']. split_and!; [done..|by apply Hmove].
  - intros n log r' Hrun Hn. destruct (Hruns _ _ _ Hrun) as [Hn' Ho].
    pose proof (Hlen r (rtc_refl _ _) Hcon) as Hl.
    apply (f_equal (take (length (in_flight r)))) in Ho.
    rewrite take_app_length take_app_le in Ho; [lia|].
    exists (drop (length (in_flight r)) log).
    transitivity (take (length (in_flight r)) log ++ drop (length (in_flight r)) log);
      [by rewrite take_drop|by rewrite -Ho].
Qed.
End programs.

(** * Concrete runs *)

(** Bufferevents as their two buffers; every allocation succeeds. *)
#[local] Instance plain_libevent : Libevent := {|
  bufferevent := list Z * list Z;
  evbuffer := unit;
  bev_input := fst;
  bev_output := snd;
  bufferevent_socket_new _ := Some ([], []);
  bufferevent_get_input _ := ();
  bufferevent_write_buffer b _ := ([], b.2 ++ b.1);
  bufferevent_write b d := (b.1, b.2 ++ d);
|}.

#[local] Instance plain_laws : LibeventLaws.
Proof. split; try done. by intros _ b [= <-]. Qed.

Definition bufs (i o : list Z) : bufferevent := (i, o).

Definition no_process : process := Process [] 0 [].

Lemma start_thread_starts_ten_witness :
  ∃ s', start_thread no_process = (Done (), s') ∧ length (conns s') = 10%nat ∧
    ∀ c, c ∈ conns s' → has_read_cb c = true ∧ has_event_cb c = true ∧ enabled c = 18.
Proof. apply (start_thread_starts_ten no_process); [intros k _; by eexists|reflexivity]. Defined.

Example timeout_aborts :
  fst (event_cb (bufs [] []) (Z.lor BEV_EVENT_TIMEOUT BEV_EVENT_READING) no_process) = Aborted.
Proof. reflexivity. Qed.

(** A message whose bytes tell their places. *)
Definition numbered : list Z := (λ k, k mod 256) <$> seqZ 0 1024.

(** The client connects and sends part of the message, which the server echoes. *)
Definition after_echo : ring :=
  Ring true (bufs [] (drop 500 numbered)) [] (bufs [] (take 500 numbered)) [].

Lemma after_echo_reachable : rtc (step numbered) (ring_start (bufs [] []) (bufs [] [])) after_echo.
Proof.
  eapply rtc_l.
  { by apply (step_connected numbered _ _ _ _ no_process (bufs [] numbered) (Process [] 0 [MsgConnected])). }
  eapply rtc_l.
  { by apply (step_client_send numbered (take 500 numbered) _ (bufs [] (drop 500 numbered))). }
  eapply rtc_l.
  { by apply (step_server_receive numbered (take 500 numbered) _ [] _ (bufs (take 500 numbered) [])). }
  eapply rtc_l; [apply step_server_read|]. apply rtc_refl.
Qed.

Lemma echo_ring_conserves_witness :
  if connected after_echo then length (in_flight after_echo) = length numbered ∧ rotation numbered (in_flight after_echo)
  else in_flight after_echo = [].
Proof.
  apply (echo_ring_conserves numbered 0 0 (bufs [] []) (bufs [] [])); [reflexivity..|].
  apply after_echo_reachable.
Defined.

#[local] Instance plain_io : LibeventIO.
Proof.
  split.
  - intros [i o] d k Hb. by exists (i, k).
  - intros [i o] d. by exists (i ++ d, o).
Qed.

Lemma message_keeps_returning_witness :
  (∃ d r', moves after_echo d r') ∧
  (∀ n log r', runs n after_echo log r' → (11 * length numbered ≤ n)%nat → in_flight after_echo `prefix_of` log).
Proof.
  pose proof (message_keeps_returning numbered 0 0 (bufs [] []) (bufs [] []) after_echo
    (ltac:(done)) eq_refl eq_refl
    after_echo_reachable eq_refl) as (Hmove & _ & Hback).
  split; [exact Hmove|exact Hback].
Defined.
