(* ===== verification/LibeventMain.v ===== *)
(** The main functions of the libevent echo server and client
    (src/echo/libevent2/echo_server.cpp, echo_client.cpp): event bases, the listener, the
    threads of the client, and what is released at the end.

    event_base_dispatch is libevent's: it runs the callbacks of LibeventEcho.v for the
    events that happen, which a run of a main function takes as a list. The two threads of
    the client share only the terminal, and each has a state of its own. *)

From S2P Require Import Prelude LibeventEcho.
#[local] Open Scope Z_scope.

Definition PORT : Z := 7890.

(** What may fail when a program starts: event_base_new, and evconnlistener_new_bind on a
    port. *)
Class EventBase : Type := {
  event_base_new : bool;
  evconnlistener_new_bind : Z → bool;
}.

Inductive main_message : Set := NoBase | NoListener | DoneMessage.

Section mains.
Context `{Libevent, EventBase}.

(** A program, or a thread of it: its connections, the event bases and listeners it has not
    freed, and what main printed. *)
Record program : Type := Program {
  proc : process;
  bases : nat;
  listeners : nat;
  said : list main_message;
}.

Definition say (m : main_message) : cmd program unit :=
  modify (λ p, Program (proc p) (bases p) (listeners p) (said p ++ [m])).
Definition on_process (m : cmd process unit) : cmd program unit :=
  zoom proc (λ s p, Program s (bases p) (listeners p) (said p)) m.
Definition set_bases (f : nat → nat) : cmd program unit :=
  modify (λ p, Program (proc p) (f (bases p)) (listeners p) (said p)).
Definition set_listeners (f : nat → nat) : cmd program unit :=
  modify (λ p, Program (proc p) (bases p) (f (listeners p)) (said p)).

Definition new_base : cmd program bool := when event_base_new (set_bases S);; mret event_base_new.
Definition new_listener : cmd program bool :=
  when (evconnlistener_new_bind PORT) (set_listeners S);; mret (evconnlistener_new_bind PORT).

(** * Dispatch *)

(** What happens on an event base: a connection to the listener, input on the connection
    with the given number, an event of it. *)
Inductive happening : Set :=
  | Accept
  | Readable (i : nat)
  | Event (i : nat) (event : Z).

#[export] Instance happening_eq_dec : EqDecision happening.
Proof. solve_decision. Defined.

(** A callback that changes the bufferevent of connection [i]. *)
Definition update_conn (i : nat) (f : conn → cmd process bufferevent) : cmd process unit :=
  s ← get;
  match conns s !! i with
  | Some c =>
    b ← f c;
    modify (λ s, Process (<[i := Conn b (has_read_cb c) (has_event_cb c) (enabled c)]> (conns s))
      (allocs s) (printed s))
  | None => mret ()
  end.

(** The callback of one event, if one is set. *)
Definition run_callback (h : happening) : cmd process unit :=
  match h with
  | Accept => listener_cb
  | Readable i => update_conn i (λ c,
      if has_read_cb c && negb (bool_decide (Z.land (enabled c) EV_READ = 0))
      then mret (read_cb (bev c)) else mret (bev c))
  | Event i event => update_conn i (λ c, if has_event_cb c then event_cb (bev c) event else mret (bev c))
  end.

Fixpoint event_base_dispatch (hs : list happening) : cmd process unit :=
  match hs with [] => mret () | h :: hs => run_callback h;; event_base_dispatch hs end.

(** * echo_server.cpp *)

Definition server_main (hs : list happening) : cmd program Z :=
  base ← new_base;
  if negb base then say NoBase;; mret 1 else
  listener ← new_listener;
  if negb listener then say NoListener;; mret 1 else
  on_process (event_base_dispatch hs);;
  set_listeners pred;;
  set_bases pred;;
  say DoneMessage;;
  mret 0.

(** * echo_client.cpp *)

(** start_thread: what LibeventEcho.v has of it, between the event base's creation and its
    end. *)
Definition client_thread (hs : list happening) : cmd program unit :=
  base ← new_base;
  if negb base then say NoBase else
  on_process start_thread;;
  on_process (event_base_dispatch hs);;
  set_bases pred.

(** main: the threads, with their states, and then its own. *)
Definition client_main (hs1 hs2 : list happening) : cmd (program * program * list main_message) Z :=
  zoom (λ s, fst (fst s)) (λ p s, (p, snd (fst s), snd s)) (client_thread hs1);;
  zoom (λ s, snd (fst s)) (λ p s, (fst (fst s), p, snd s)) (client_thread hs2);;
  modify (λ s, (fst s, snd s ++ [DoneMessage]));;
  mret 0.

(** * Theorems *)

Definition no_process : process := Process [] 0 [].
Definition idle : program := Program no_process 0 0 [].

Lemma update_conn_run i f s c b s1 :
  conns s !! i = Some c → f c s = (Done b, s1) → conns s1 = conns s →
  update_conn i f s =
    (Done (), Process (<[i := Conn b (has_read_cb c) (has_event_cb c) (enabled c)]> (conns s)) (allocs s1) (printed s1)).
Proof. intros Hc Hf Hs. unfold update_conn. rewrite (bind_done _ _ s s s) // Hc (bind_done _ _ _ _ _ Hf). by rewrite -Hs. Qed.

(** ** The server *)

(** All connections have the read callback only. *)
Definition server_conns (s : process) : Prop :=
  Forall (λ c, has_read_cb c = true ∧ has_event_cb c = false ∧ enabled c = EV_READ) (conns s).

Definition accepts (hs : list happening) : nat := length (filter (λ h, h = Accept) hs).

Lemma server_callback h s :
  server_conns s → is_Some (bufferevent_socket_new (allocs s)) →
  ∃ s', run_callback h s = (Done (), s') ∧ server_conns s' ∧
    let new := if bool_decide (h = Accept) then 1%nat else 0%nat in
    length (conns s') = (length (conns s) + new)%nat ∧ allocs s' = (allocs s + new)%nat.
Proof.
  intros Hs [b Hb].
  assert (∀ i f, (∀ c, has_event_cb c = false → f c s = (Done (bev c), s) ∨ f c s = (Done (read_cb (bev c)), s)) →
    ∃ s', update_conn i f s = (Done (), s') ∧ server_conns s' ∧ length (conns s') = length (conns s) ∧ allocs s' = allocs s) as Hup.
  { intros i f Hf. destruct (conns s !! i) as [c|] eqn:Hc.
    - pose proof (Forall_lookup_1 _ _ _ _ Hs Hc) as (H1 & H2 & H3).
      destruct (Hf c H2) as [Hfc|Hfc].
      all: rewrite (update_conn_run _ _ _ _ _ _ Hc Hfc); [done|].
      all: eexists; split; [done|]; cbn; rewrite length_insert.
      all: split; [|done]; by apply Forall_insert.
    - exists s. unfold update_conn. by rewrite (bind_done _ _ s s s) // Hc. }
  destruct h as [|i|i event]; cbn [run_callback].
  - rewrite bool_decide_eq_true_2 //. unfold listener_cb, socket_new.
    destruct s as [cs n out]. cbn in *. rewrite /mbind /cmd_bind /= Hb. eexists. split; [done|]. cbn.
    split; [|rewrite length_app /=; lia]. apply Forall_app. split; [done|]. by repeat constructor.
  - rewrite bool_decide_eq_false_2 // !Nat.add_0_r. apply Hup. intros c _. case_match; auto.
  - rewrite bool_decide_eq_false_2 // !Nat.add_0_r. apply Hup. intros c ->. auto.
Qed.

Lemma server_dispatch hs s :
  server_conns s → (∀ k, is_Some (bufferevent_socket_new k)) →
  ∃ s', event_base_dispatch hs s = (Done (), s') ∧ server_conns s' ∧
    length (conns s') = (length (conns s) + accepts hs)%nat.
Proof.
  intros Hs Hb. revert s Hs. induction hs as [|h hs IH]; intros s Hs.
  { exists s. rewrite Nat.add_0_r. by split_and!. }
  destruct (server_callback h s Hs (Hb _)) as (s1 & Hrun & Hs1 & Hl & _).
  destruct (IH s1 Hs1) as (s' & Hrun' & Hs' & Hl'). exists s'. split_and!; [|done|].
  - cbn [event_base_dispatch]. by rewrite (bind_done _ _ _ _ _ Hrun).
  - rewrite Hl' Hl. unfold accepts. case_bool_decide.
    + rewrite filter_cons_True //. cbn. lia.
    + rewrite filter_cons_False //. lia.
Qed.

(** echo_server.cpp returns 1 when it gets no event base, and when it gets no listener,
    in which case the base is never freed; otherwise, while libevent makes the
    bufferevents it asks for, it serves one connection per accepted client, with its read
    callback set, and returns 0 with the listener and the base freed. *)
Theorem server_main_ends hs :
  (∀ k, is_Some (bufferevent_socket_new k)) →
  if event_base_new then
    if evconnlistener_new_bind PORT then
      ∃ s, server_main hs idle = (Done 0, Program s 0 0 [DoneMessage]) ∧ length (conns s) = accepts hs ∧ server_conns s
    else server_main hs idle = (Done 1, Program no_process 1 0 [NoListener])
  else server_main hs idle = (Done 1, Program no_process 0 0 [NoBase]).
Proof.
  intros Hb. unfold server_main, new_base, new_listener.
  destruct event_base_new; [|done]. destruct (evconnlistener_new_bind PORT); [|done].
  destruct (server_dispatch hs no_process) as (s & Hrun & Hs & Hl); [by constructor|done|].
  exists s. split; [|by split]. unfold on_process, zoom, mbind, cmd_bind. cbn. by rewrite Hrun.
Qed.

(** ** The client *)

Definition client_conns (s : process) : Prop :=
  Forall (λ c, has_read_cb c = true ∧ has_event_cb c = true) (conns s) ∧ length (conns s) = 10%nat.

(** An event of one of the ten connections with none of the bits the client knows. *)
Definition unexpected (h : happening) : bool :=
  match h with
  | Event i event =>
    (i <? 10)%nat && (Z.land event BEV_EVENT_EOF =? 0) && (Z.land event BEV_EVENT_ERROR =? 0) &&
    (Z.land event BEV_EVENT_CONNECTED =? 0)
  | _ => false
  end.

Lemma client_update i f s c b s1 :
  client_conns s → conns s !! i = Some c → f c s = (Done b, s1) → conns s1 = conns s →
  ∃ s', update_conn i f s = (Done (), s') ∧ client_conns s'.
Proof.
  intros [Hs Hl] Hc Hf Hs1. rewrite (update_conn_run _ _ _ _ _ _ Hc Hf Hs1). eexists. split; [done|].
  split; cbn; [|by rewrite length_insert]. apply Forall_insert; [done|]. by apply (Forall_lookup_1 _ _ _ _ Hs Hc).
Qed.

Lemma client_callback h s :
  client_conns s → h ≠ Accept →
  if unexpected h then fst (run_callback h s) = Aborted
  else ∃ s', run_callback h s = (Done (), s') ∧ client_conns s'.
Proof.
  intros Hs Hh. destruct h as [|i|i event]; [done| |]; cbn [run_callback unexpected].
  - destruct (conns s !! i) as [c|] eqn:Hc.
    + apply (client_update i _ s c (if has_read_cb c && negb (bool_decide (Z.land (enabled c) EV_READ = 0))
        then read_cb (bev c) else bev c) s); [done..|by case_match|done].
    + exists s. split; [|done]. unfold update_conn. by rewrite (bind_done _ _ s s s) // Hc.
  - pose proof Hs as [Hcb Hl]. destruct (conns s !! i) as [c|] eqn:Hc.
    2:{ apply lookup_ge_None in Hc. rewrite (proj2 (Nat.ltb_ge i 10)); [lia|]. exists s. split; [|done].
        unfold update_conn. rewrite (bind_done _ _ s s s) //. by rewrite (proj2 (lookup_ge_None _ _) Hc). }
    pose proof (lookup_lt_Some _ _ _ Hc). rewrite (proj2 (Nat.ltb_lt i 10)); [lia|].
    destruct (Forall_lookup_1 _ _ _ _ Hcb Hc) as [_ He].
    assert (event_cb (bev c) event s = _) as Hrun by apply event_cb_dispatch.
    destruct (Z.land event BEV_EVENT_EOF =? 0), (Z.land event BEV_EVENT_ERROR =? 0),
      (Z.land event BEV_EVENT_CONNECTED =? 0); cbn -[event_cb MSG] in Hrun |- *.
    all: try (eapply client_update; [done|exact Hc|rewrite He; exact Hrun|done]).
    unfold update_conn. rewrite (bind_done _ _ s s s) // Hc. unfold mbind, cmd_bind. by rewrite He Hrun.
Qed.

Lemma client_dispatch hs s :
  client_conns s → Accept ∉ hs →
  if existsb unexpected hs then fst (event_base_dispatch hs s) = Aborted
  else ∃ s', event_base_dispatch hs s = (Done (), s') ∧ client_conns s'.
Proof.
  revert s. induction hs as [|h hs IH]; intros s Hs Hh; [by exists s|].
  apply not_elem_of_cons in Hh as [Hh Hhs]. cbn [existsb event_base_dispatch].
  pose proof (client_callback h s Hs (not_eq_sym Hh)) as Hc. destruct (unexpected h); cbn [orb].
  - unfold mbind, cmd_bind. destruct (run_callback h s) as [[]]; done.
  - destruct Hc as (s1 & Hrun & Hs1). specialize (IH s1 Hs1 Hhs). by rewrite (bind_done _ _ _ _ _ Hrun).
Qed.

Lemma client_thread_run hs :
  (∀ k, is_Some (bufferevent_socket_new k)) → event_base_new = true → Accept ∉ hs →
  if existsb unexpected hs then fst (client_thread hs idle) = Aborted
  else ∃ s, client_thread hs idle = (Done (), Program s 0 0 []) ∧ client_conns s.
Proof.
  intros Hb Hbase Hhs. destruct (start_all_run 10 no_process) as (s0 & Hrun & Hl & _ & _ & Hcb); [by intros|].
  assert (client_conns s0) as Hs0.
  { split; [|done]. apply Forall_forall. intros c Hc. destruct (Hcb c) as (H1 & H2 & _); [|by split].
    by rewrite drop_0. }
  pose proof (client_dispatch hs s0 Hs0 Hhs) as Hd.
  unfold client_thread, new_base. rewrite Hbase. unfold on_process, zoom, mbind, cmd_bind. cbn -[start_thread].
  rewrite (Hrun : start_thread no_process = _). cbn. destruct (existsb unexpected hs).
  - destruct (event_base_dispatch hs s0) as [[]]; try done.
  - destruct Hd as (s & -> & Hs). by exists s.
Qed.

(** echo_client.cpp with its two event bases and the bufferevents it asks for returns 0,
    with ten connections on each base and both bases freed, unless one of its connections
    gets an event that is neither EOF, ERROR nor CONNECTED: then it aborts. *)
Theorem client_main_ends hs1 hs2 :
  (∀ k, is_Some (bufferevent_socket_new k)) → event_base_new = true → Accept ∉ hs1 → Accept ∉ hs2 →
  if existsb unexpected hs1 || existsb unexpected hs2 then fst (client_main hs1 hs2 (idle, idle, [])) = Aborted
  else ∃ s1 s2, client_main hs1 hs2 (idle, idle, []) =
      (Done 0, (Program s1 0 0 [], Program s2 0 0 [], [DoneMessage])) ∧
    length (conns s1) = 10%nat ∧ length (conns s2) = 10%nat.
Proof.
  intros Hb Hbase H1 H2. pose proof (client_thread_run hs1 Hb Hbase H1) as Ht1.
  pose proof (client_thread_run hs2 Hb Hbase H2) as Ht2.
  unfold client_main, zoom, mbind, cmd_bind. cbn. destruct (existsb unexpected hs1); cbn [orb].
  { destruct (client_thread hs1 idle) as [[]]; done. }
  destruct Ht1 as (s1 & -> & _ & Hl1). cbn. destruct (existsb unexpected hs2).
  { destruct (client_thread hs2 idle) as [[]]; done. }
  destruct Ht2 as (s2 & -> & _ & Hl2). cbn. by exists s1, s2.
Qed.
End mains.

(** * Samples *)

(** Bufferevents as their two buffers; every allocation succeeds. *)
#[local] Instance plain_libevent : Libevent := {|
  bufferevent := list Z * list Z;
  evbuffer := unit;
  bev_input := fst;
  bev_output := snd;
  bufferevent_socket_new _ := Some ([], []);
  bufferevent_get_input _ := ();
  bufferevent_write_buffer b _ := ([], b.2 ++ b.1);
  bufferevent_write b d := (b.1, b.2 ++ d);
|}.
#[local] Instance plain_base : EventBase := {| event_base_new := true; evconnlistener_new_bind _ := true |}.

Lemma server_main_ends_witness :
  ∃ s, server_main [Accept; Readable 0; Accept] idle = (Done 0, Program s 0 0 [DoneMessage]) ∧
    length (conns s) = 2%nat.
Proof.
  destruct (server_main_ends [Accept; Readable 0; Accept]) as (s & Hrun & Hl & _); [intros k; by eexists|].
  exists s. split; [exact Hrun|exact Hl].
Defined.

Lemma client_main_ends_witness :
  fst (client_main [Event 3 BEV_EVENT_CONNECTED; Readable 3] [Event 0 BEV_EVENT_TIMEOUT] (idle, idle, [])) = Aborted ∧
  fst (client_main [Event 3 BEV_EVENT_CONNECTED; Readable 3] [Event 0 BEV_EVENT_EOF] (idle, idle, [])) = Done 0.
Proof.
  assert (∀ k, is_Some (bufferevent_socket_new k)) as Hb by (intros k; by eexists).
  pose proof (client_main_ends [Event 3 BEV_EVENT_CONNECTED; Readable 3] [Event 0 BEV_EVENT_TIMEOUT] Hb eq_refl) as H1.
  pose proof (client_main_ends [Event 3 BEV_EVENT_CONNECTED; Readable 3] [Event 0 BEV_EVENT_EOF] Hb eq_refl) as H2.
  split; [apply H1; vm_decide|].
  destruct H2 as (s1 & s2 & -> & _); [vm_decide|vm_decide|reflexivity].
Defined.
