(* ===== verification/EventTime.v ===== *)
(** Arithmetic on times in libevent: the macros evutil_timeradd, evutil_timersub,
    evutil_timerclear, evutil_timercmp and evutil_timerisset of
    src/echo/libevent2/libevent2-dist/include/event2/util.h. All but evutil_timercmp are here
    the definitions for a system that has no such macros; the bundled event-config.h, made
    on a system that has them, selects timeradd and its relatives of <sys/time.h> instead.

    The macros take pointers, any of which may be the same; time_t and suseconds_t have 64
    bits, and signed overflow is undefined. *)

From S2P Require Import Prelude Mem.
#[local] Open Scope Z_scope.

(** * struct timeval *)

Record timeval : Set := TimeVal { tv_sec : Z; tv_usec : Z }.

Definition INT64_MIN : Z := - 2 ^ 63.
Definition INT64_MAX : Z := 2 ^ 63 - 1.
Definition int64_ok (z : Z) : bool := (INT64_MIN <=? z) && (z <=? INT64_MAX).

Section macros.
Notation timed := (cmd (mem timeval)).

(** The value of an expression of a 64-bit signed type. *)
Definition int64 (z : Z) : timed Z := if int64_ok z then mret z else undefined SignedOverflow.

(** p->tv_sec, p->tv_usec and assignments to them. *)
Definition get_sec (p : ptr) : timed Z := tv ← load p; mret (tv_sec tv).
Definition get_usec (p : ptr) : timed Z := tv ← load p; mret (tv_usec tv).
Definition set_sec (p : ptr) (z : Z) : timed unit := tv ← load p; store p (TimeVal z (tv_usec tv)).
Definition set_usec (p : ptr) (z : Z) : timed unit := tv ← load p; store p (TimeVal (tv_sec tv) z).

(** * The macros *)

Definition evutil_timeradd (tvp uvp vvp : ptr) : timed unit :=
  a ← get_sec tvp; b ← get_sec uvp; c ← int64 (a + b); set_sec vvp c;;
  a ← get_usec tvp; b ← get_usec uvp; c ← int64 (a + b); set_usec vvp c;;
  c ← get_usec vvp;
  if 1000000 <=? c then
    s ← get_sec vvp; s ← int64 (s + 1); set_sec vvp s;;
    c ← get_usec vvp; c ← int64 (c - 1000000); set_usec vvp c
  else mret ().

Definition evutil_timersub (tvp uvp vvp : ptr) : timed unit :=
  a ← get_sec tvp; b ← get_sec uvp; c ← int64 (a - b); set_sec vvp c;;
  a ← get_usec tvp; b ← get_usec uvp; c ← int64 (a - b); set_usec vvp c;;
  c ← get_usec vvp;
  if c <? 0 then
    s ← get_sec vvp; s ← int64 (s - 1); set_sec vvp s;;
    c ← get_usec vvp; c ← int64 (c + 1000000); set_usec vvp c
  else mret ().

Definition evutil_timerclear (tvp : ptr) : timed unit := set_usec tvp 0;; set_sec tvp 0.

(** [cmp] is the relational operator. *)
Definition evutil_timercmp (tvp uvp : ptr) (cmp : Z → Z → bool) : timed bool :=
  a ← get_sec tvp; b ← get_sec uvp;
  if a =? b then
    a ← get_usec tvp; b ← get_usec uvp; mret (cmp a b)
  else
    a ← get_sec tvp; b ← get_sec uvp; mret (cmp a b).

Definition evutil_timerisset (tvp : ptr) : timed bool :=
  s ← get_sec tvp;
  if s =? 0 then c ← get_usec tvp; mret (negb (c =? 0)) else mret true.
End macros.

(** * Times as numbers *)

(** The number of microseconds, and the time of a number. *)
Definition micros (tv : timeval) : Z := tv_sec tv * 1000000 + tv_usec tv.
Definition time_of (n : Z) : timeval := TimeVal (n / 1000000) (n mod 1000000).

(** The microseconds are less than a second. *)
Definition normal (tv : timeval) : Prop := 0 ≤ tv_usec tv < 1000000.

(** Times that are away from the ends of time_t by a second. *)
Definition in_time (n : Z) : Prop := INT64_MIN < n / 1000000 < INT64_MAX.

Lemma time_of_micros tv : normal tv → time_of (micros tv) = tv.
Proof.
  destruct tv as [s u]. unfold normal, time_of, micros. cbn. intros Hu.
  rewrite Z.add_comm Z.div_add // Z.div_small // Z.mod_add // Z.mod_small //.
Qed.

Lemma micros_time_of n : micros (time_of n) = n.
Proof. unfold micros, time_of. cbn. pose proof (Z.div_mod n 1000000). lia. Qed.

Lemma time_of_normal n : normal (time_of n).
Proof. unfold normal. cbn. apply Z.mod_pos_bound. lia. Qed.

(** The time with these seconds and microseconds. *)
Lemma time_of_parts n s u : n = s * 1000000 + u → 0 ≤ u < 1000000 → time_of n = TimeVal s u.
Proof. intros -> Hu. by apply (time_of_micros (TimeVal s u)). Qed.

(** * The macros do arithmetic *)

Section laws.
Implicit Types (h : mem timeval) (p t u v : ptr) (x y z : timeval).

(** What [p] points to. *)
Definition at_time h p x : Prop := ∃ l, p = Some l ∧ cells h !! l = Some x.

(** [h] with [x] at [p]. *)
Definition set_time p x h : mem timeval :=
  match p with Some l => Mem (<[l := x]> (cells h)) (calls h) | None => h end.

Lemma at_time_live h p x : at_time h p x → load p h = (Done x, h).
Proof. intros (l & -> & Hl). by apply load_live. Qed.

Lemma at_set h p x y : at_time h p x → at_time (set_time p y h) p y.
Proof. intros (l & -> & Hl). exists l. split; [done|]. cbn. by rewrite lookup_insert_eq. Qed.

Lemma set_set p x y h : set_time p y (set_time p x h) = set_time p y h.
Proof. destruct p as [l|]; [|done]. cbn. by rewrite insert_insert_eq. Qed.

Lemma get_sec_run h p x : at_time h p x → get_sec p h = (Done (tv_sec x), h).
Proof. intros Hp. unfold get_sec. by rewrite (bind_done _ _ _ _ _ (at_time_live _ _ _ Hp)). Qed.

Lemma get_usec_run h p x : at_time h p x → get_usec p h = (Done (tv_usec x), h).
Proof. intros Hp. unfold get_usec. by rewrite (bind_done _ _ _ _ _ (at_time_live _ _ _ Hp)). Qed.

Lemma set_sec_run h p x s : at_time h p x → set_sec p s h = (Done (), set_time p (TimeVal s (tv_usec x)) h).
Proof.
  intros Hp. unfold set_sec. rewrite (bind_done _ _ _ _ _ (at_time_live _ _ _ Hp)).
  destruct Hp as (l & -> & Hl). by rewrite (store_live _ _ _ _ Hl).
Qed.

Lemma set_usec_run h p x c : at_time h p x → set_usec p c h = (Done (), set_time p (TimeVal (tv_sec x) c) h).
Proof.
  intros Hp. unfold set_usec. rewrite (bind_done _ _ _ _ _ (at_time_live _ _ _ Hp)).
  destruct Hp as (l & -> & Hl). by rewrite (store_live _ _ _ _ Hl).
Qed.

Lemma int64_run h n : int64_ok n = true → int64 n h = (Done n, h).
Proof. unfold int64. by intros ->. Qed.

(** An assignment to the seconds leaves all microseconds as they are. *)
Lemma usec_kept h p q x z s : at_time h p z → at_time h q x →
  ∃ x', at_time (set_time p (TimeVal s (tv_usec z)) h) q x' ∧ tv_usec x' = tv_usec x.
Proof.
  intros (l & -> & Hl) (k & -> & Hk). destruct (decide (k = l)) as [->|Hne].
  - exists (TimeVal s (tv_usec z)). split; [|by simplify_map_eq]. exists l. split; [done|]. cbn. by rewrite lookup_insert_eq.
  - exists x. split; [|done]. exists k. split; [done|]. cbn. by rewrite lookup_insert_ne.
Qed.

(** The first two assignments of both macros. *)
Lemma parts_run {B} (op : Z → Z → Z) (k : cmd (mem timeval) B) h t u v x y z :
  at_time h t x → at_time h u y → at_time h v z →
  int64_ok (op (tv_sec x) (tv_sec y)) = true → int64_ok (op (tv_usec x) (tv_usec y)) = true →
  (a ← get_sec t; b ← get_sec u; c ← int64 (op a b); set_sec v c;;
   a ← get_usec t; b ← get_usec u; c ← int64 (op a b); set_usec v c;; k) h =
  k (set_time v (TimeVal (op (tv_sec x) (tv_sec y)) (op (tv_usec x) (tv_usec y))) h).
Proof.
  intros Ht Hu Hv Hs Hc. rewrite (bind_done _ _ _ _ _ (get_sec_run _ _ _ Ht)) (bind_done _ _ _ _ _ (get_sec_run _ _ _ Hu)).
  rewrite (bind_done _ _ _ _ _ (int64_run _ _ Hs)) (bind_done _ _ _ _ _ (set_sec_run _ _ _ _ Hv)).
  destruct (usec_kept _ _ _ _ _ (op (tv_sec x) (tv_sec y)) Hv Ht) as (x' & Ht' & Hx).
  destruct (usec_kept _ _ _ _ _ (op (tv_sec x) (tv_sec y)) Hv Hu) as (y' & Hu' & Hy).
  rewrite (bind_done _ _ _ _ _ (get_usec_run _ _ _ Ht')) (bind_done _ _ _ _ _ (get_usec_run _ _ _ Hu')).
  rewrite Hx Hy (bind_done _ _ _ _ _ (int64_run _ _ Hc)).
  rewrite (bind_done _ _ _ _ _ (set_usec_run _ _ _ _ (at_set _ _ _ (TimeVal _ _) Hv))). by rewrite set_set.
Qed.

(** The carry of both macros. *)
Lemma carry_run h v s c ds dc :
  at_time h v (TimeVal s c) → int64_ok (s + ds) = true → int64_ok (c + dc) = true →
  (s ← get_sec v; s ← int64 (s + ds); set_sec v s;;
   c ← get_usec v; c ← int64 (c + dc); set_usec v c) h = (Done (), set_time v (TimeVal (s + ds) (c + dc)) h).
Proof.
  intros Hv Hs Hc. rewrite (bind_done _ _ _ _ _ (get_sec_run _ _ _ Hv)) (bind_done _ _ _ _ _ (int64_run _ _ Hs)).
  rewrite (bind_done _ _ _ _ _ (set_sec_run _ _ _ _ Hv)).
  pose proof (at_set _ _ _ (TimeVal (s + ds) c) Hv) as Hv'.
  rewrite (bind_done _ _ _ _ _ (get_usec_run _ _ _ Hv')) (bind_done _ _ _ _ _ (int64_run _ _ Hc)).
  by rewrite (set_usec_run _ _ _ _ Hv') set_set.
Qed.

Lemma int64_ok_iff n : int64_ok n = true ↔ INT64_MIN ≤ n ≤ INT64_MAX.
Proof. unfold int64_ok. rewrite andb_true_iff !Z.leb_le. done. Qed.

(** The second of a number of microseconds, from its parts. *)
Lemma in_time_second n s c : in_time n → n = s * 1000000 + c → -1000000 < c < 2000000 →
  INT64_MIN ≤ s ≤ INT64_MAX.
Proof.
  unfold in_time. intros Hn -> Hc. rewrite Z.add_comm Z.div_add // in Hn.
  assert (c / 1000000 = -1 ∨ c / 1000000 = 0 ∨ c / 1000000 = 1) as [H|[H|H]]; [|lia..].
  pose proof (Z.div_mod c 1000000 ltac:(lia)). pose proof (Z.mod_pos_bound c 1000000 ltac:(lia)). lia.
Qed.

Lemma timeradd_run h t u v x y z :
  at_time h t x → at_time h u y → at_time h v z → normal x → normal y → in_time (micros x + micros y) →
  evutil_timeradd t u v h = (Done (), set_time v (time_of (micros x + micros y)) h).
Proof.
  intros Ht Hu Hv Hx Hy Hn. unfold normal in Hx, Hy.
  assert (micros x + micros y = (tv_sec x + tv_sec y) * 1000000 + (tv_usec x + tv_usec y)) as Hsum
    by (unfold micros; lia).
  assert (int64_ok (tv_sec x + tv_sec y) = true) as Hs
    by (apply int64_ok_iff; eapply in_time_second; [exact Hn|exact Hsum|lia]).
  unfold evutil_timeradd. rewrite (parts_run _ _ _ _ _ _ _ _ _ Ht Hu Hv Hs).
  { apply int64_ok_iff. unfold INT64_MIN, INT64_MAX. lia. }
  set (c := tv_usec x + tv_usec y) in *. set (s := tv_sec x + tv_sec y) in *.
  pose proof (at_set _ _ _ (TimeVal s c) Hv) as Hv'.
  rewrite (bind_done _ _ _ _ _ (get_usec_run _ _ _ Hv')). cbn [tv_usec].
  destruct (Z.leb_spec 1000000 c) as [Hc|Hc].
  - rewrite (time_of_parts _ (s + 1) (c - 1000000)); [lia..|].
    change (c - 1000000) with (c + -1000000). setoid_rewrite (carry_run _ _ _ _ 1 (-1000000) Hv').
    + by rewrite set_set.
    + apply int64_ok_iff, (in_time_second _ _ (c - 1000000) Hn); lia.
    + apply int64_ok_iff. unfold INT64_MIN, INT64_MAX. lia.
  - by rewrite (time_of_parts _ s c); [lia..|].
Qed.

Lemma timersub_run h t u v x y z :
  at_time h t x → at_time h u y → at_time h v z → normal x → normal y → in_time (micros x - micros y) →
  evutil_timersub t u v h = (Done (), set_time v (time_of (micros x - micros y)) h).
Proof.
  intros Ht Hu Hv Hx Hy Hn. unfold normal in Hx, Hy.
  assert (micros x - micros y = (tv_sec x - tv_sec y) * 1000000 + (tv_usec x - tv_usec y)) as Hdiff
    by (unfold micros; lia).
  assert (int64_ok (tv_sec x - tv_sec y) = true) as Hs
    by (apply int64_ok_iff; eapply in_time_second; [exact Hn|exact Hdiff|lia]).
  unfold evutil_timersub. rewrite (parts_run _ _ _ _ _ _ _ _ _ Ht Hu Hv Hs).
  { apply int64_ok_iff. unfold INT64_MIN, INT64_MAX. lia. }
  set (c := tv_usec x - tv_usec y) in *. set (s := tv_sec x - tv_sec y) in *.
  pose proof (at_set _ _ _ (TimeVal s c) Hv) as Hv'.
  rewrite (bind_done _ _ _ _ _ (get_usec_run _ _ _ Hv')). cbn [tv_usec].
  destruct (Z.ltb_spec c 0) as [Hc|Hc].
  - rewrite (time_of_parts _ (s - 1) (c + 1000000)); [lia..|].
    change (s - 1) with (s + -1). setoid_rewrite (carry_run _ _ _ _ (-1) 1000000 Hv').
    + by rewrite set_set.
    + apply int64_ok_iff, (in_time_second _ _ (c + 1000000) Hn); lia.
    + apply int64_ok_iff. unfold INT64_MIN, INT64_MAX. lia.
  - by rewrite (time_of_parts _ s c); [lia..|].
Qed.

(** The operators that the macro is for, and what they mean on numbers. *)
Inductive relational : Set := EQ | LE | LT | GE | GT.
Definition compares (r : relational) : Z → Z → bool :=
  match r with EQ => Z.eqb | LE => Z.leb | LT => Z.ltb | GE => Z.geb | GT => Z.gtb end.

Lemma timercmp_run h t u x y r :
  at_time h t x → at_time h u y → normal x → normal y →
  evutil_timercmp t u (compares r) h = (Done (compares r (micros x) (micros y)), h).
Proof.
  intros Ht Hu Hx Hy. unfold normal in Hx, Hy. unfold evutil_timercmp.
  rewrite (bind_done _ _ _ _ _ (get_sec_run _ _ _ Ht)) (bind_done _ _ _ _ _ (get_sec_run _ _ _ Hu)).
  destruct (Z.eqb_spec (tv_sec x) (tv_sec y)) as [Heq|Hne].
  - rewrite (bind_done _ _ _ _ _ (get_usec_run _ _ _ Ht)) (bind_done _ _ _ _ _ (get_usec_run _ _ _ Hu)).
    unfold mret, cmd_ret. do 2 f_equal. unfold micros. apply eq_true_iff_eq.
    destruct r; cbn; rewrite ?Z.eqb_eq ?Z.leb_le ?Z.ltb_lt ?Z.geb_le ?Z.gtb_lt; lia.
  - rewrite (bind_done _ _ _ _ _ (get_sec_run _ _ _ Ht)) (bind_done _ _ _ _ _ (get_sec_run _ _ _ Hu)).
    unfold mret, cmd_ret. do 2 f_equal. unfold micros. apply eq_true_iff_eq.
    destruct r; cbn; rewrite ?Z.eqb_eq ?Z.leb_le ?Z.ltb_lt ?Z.geb_le ?Z.gtb_lt; lia.
Qed.

Lemma timerclear_run h t x : at_time h t x → evutil_timerclear t h = (Done (), set_time t (time_of 0) h).
Proof.
  intros Ht. unfold evutil_timerclear. rewrite (bind_done _ _ _ _ _ (set_usec_run _ _ _ _ Ht)).
  pose proof (at_set _ _ _ (TimeVal (tv_sec x) 0) Ht) as Ht'. by rewrite (set_sec_run _ _ _ _ Ht') set_set.
Qed.

Lemma timerisset_run h t x : at_time h t x → normal x →
  evutil_timerisset t h = (Done (negb (micros x =? 0)), h).
Proof.
  intros Ht Hx. unfold normal in Hx. unfold evutil_timerisset, micros.
  rewrite (bind_done _ _ _ _ _ (get_sec_run _ _ _ Ht)). destruct (Z.eqb_spec (tv_sec x) 0) as [->|Hne].
  - by rewrite (bind_done _ _ _ _ _ (get_usec_run _ _ _ Ht)).
  - unfold mret, cmd_ret. do 2 f_equal. symmetry. apply negb_true_iff, Z.eqb_neq. lia.
Qed.

(** A sum of seconds that time_t does not hold is undefined. *)
Lemma timeradd_overflows h t u v x y :
  at_time h t x → at_time h u y → INT64_MAX < tv_sec x + tv_sec y →
  evutil_timeradd t u v h = (Undefined SignedOverflow, h).
Proof.
  intros Ht Hu Hs. unfold evutil_timeradd.
  rewrite (bind_done _ _ _ _ _ (get_sec_run _ _ _ Ht)) (bind_done _ _ _ _ _ (get_sec_run _ _ _ Hu)).
  apply bind_undefined. unfold int64.
  destruct (int64_ok (tv_sec x + tv_sec y)) eqn:H; [|done]. apply int64_ok_iff in H. lia.
Qed.

(** With pointers to times whose microseconds are less than a second, any of them the
    same, and a result that time_t holds: evutil_timeradd and evutil_timersub put the sum
    and the difference in microseconds at the last pointer, as a time of the same kind, and
    change nothing else; evutil_timercmp compares the times as numbers of microseconds with
    each of its five operators, and evutil_timerisset tells whether the number is not zero.
    Adding into a time other than the second, and then subtracting the second, gives the first
    time back. *)
Theorem time_macros_compute h t u v x y z :
  at_time h t x → at_time h u y → at_time h v z → normal x → normal y →
  in_time (micros x + micros y) → in_time (micros x - micros y) →
  evutil_timeradd t u v h = (Done (), set_time v (time_of (micros x + micros y)) h) ∧
  evutil_timersub t u v h = (Done (), set_time v (time_of (micros x - micros y)) h) ∧
  (∀ r, evutil_timercmp t u (compares r) h = (Done (compares r (micros x) (micros y)), h)) ∧
  evutil_timerisset t h = (Done (negb (micros x =? 0)), h) ∧
  (u ≠ v → in_time (micros x) → (evutil_timeradd t u v;; evutil_timersub v u v) h = (Done (), set_time v x h)).
Proof.
  intros Ht Hu Hv Hx Hy Hadd Hsub. split_and!.
  - by eapply timeradd_run.
  - by eapply timersub_run.
  - intros r. by apply timercmp_run.
  - by apply timerisset_run.
  - intros Hne Hin. rewrite (bind_done _ _ _ _ _ (timeradd_run _ _ _ _ _ _ _ Ht Hu Hv Hx Hy Hadd)).
    set (w := time_of (micros x + micros y)).
    assert (micros w - micros y = micros x) as Hw by (unfold w; rewrite micros_time_of; lia).
    rewrite (timersub_run (set_time v w h) v u v w y w).
    + by eapply at_set.
    + destruct Hu as (k & -> & Hk), Hv as (l & -> & Hl). exists k. split; [done|]. cbn.
      rewrite lookup_insert_ne //. congruence.
    + by eapply at_set.
    + apply time_of_normal.
    + done.
    + by rewrite Hw.
    + by rewrite Hw time_of_micros // set_set.
Qed.
End laws.

(** 1.7 seconds and 0.6 seconds: the sum is stored over the first. *)
Lemma time_macros_compute_witness :
  let h := Mem (<[1%positive := TimeVal 1 700000]> (<[2%positive := TimeVal 0 600000]> ∅)) 0 in
  evutil_timeradd (Some 1%positive) (Some 2%positive) (Some 1%positive) h =
    (Done (), set_time (Some 1%positive) (TimeVal 2 300000) h) ∧
  evutil_timersub (Some 1%positive) (Some 2%positive) (Some 1%positive) h =
    (Done (), set_time (Some 1%positive) (TimeVal 1 100000) h).
Proof.
  destruct (time_macros_compute
    (Mem (<[1%positive := TimeVal 1 700000]> (<[2%positive := TimeVal 0 600000]> ∅)) 0)
    (Some 1%positive) (Some 2%positive) (Some 1%positive) (TimeVal 1 700000) (TimeVal 0 600000) (TimeVal 1 700000))
    as (Hadd & Hsub & _).
  - by exists 1%positive.
  - by exists 2%positive.
  - by exists 1%positive.
  - done.
  - done.
  - done.
  - done.
  - split; [exact Hadd|exact Hsub].
Defined.
