(* ===== verification/AsioEcho.v ===== *)
(** The Boost.Asio echo server (src/echo/boost-asio/echo_server.cpp, echo.h): its
    sessions, the handlers of its operations and main.

    The io_service is the list of operations that have been started and have not
    completed. What an operation may complete with is a parameter of the run,
    restricted to what Boost.Asio documents: async_read into a streambuf ends when the
    buffer is full or with an error (the end of the stream included), async_write ends
    when everything is written or with an error.

    A session asks boost::enable_shared_from_this for pointers to itself, but the
    pointers that own it are std::shared_ptr: they do not set the weak pointer of the
    Boost class, which is why the first session that starts ends the program. *)

From S2P Require Import Prelude.
#[local] Open Scope Z_scope.

(** * Interfaces *)

(** boost::enable_shared_from_this: what shared_from_this() throws, if anything, given
    whether a boost::shared_ptr owns the object, and so has set its weak pointer. *)
Class SharedFromThis : Type := {
  bad_weak_ptr : nat;
  shared_from_this_throws : bool → option nat;
}.

(** As boost/smart_ptr/enable_shared_from_this.hpp documents it. *)
Class SharedFromThisLaws `{SharedFromThis} : Prop := {
  owned_by_boost : shared_from_this_throws true = None;
  not_owned_by_boost : shared_from_this_throws false = Some bad_weak_ptr;
}.

(** * State *)

(** A started operation; its handler owns a shared pointer to the session. *)
Inductive op : Type :=
  | OpAccept (sess : nat)      (* acceptor_.async_accept *)
  | OpRead (sess : nat)        (* async_read(socket_, sbuf_, handle_read) *)
  | OpWrite (sess : nat).      (* async_write(socket_, sbuf_, handle_write) *)

#[export] Instance op_eq_dec : EqDecision op.
Proof. solve_decision. Defined.

Definition op_session (o : op) : nat :=
  match o with OpAccept n | OpRead n | OpWrite n => n end.

(** What an operation completed with: an error code, 0 for success, and the
    bytes transferred; for an accept also what remote_endpoint() throws. *)
Inductive completion : Type :=
  | Accepted (ec : Z) (endpoint_throws : option nat)
  | ReadDone (ec : Z) (d : list Z)
  | WriteDone (ec : Z) (n : nat).

#[export] Instance completion_eq_dec : EqDecision completion.
Proof. solve_decision. Defined.

(** What is printed: a destructor, the name of a function with the address of its
    session or alone, an accept. *)
Inductive line : Type :=
  | DestructOf (sess : nat)
  | StartOf (sess : nat)
  | HandleRead
  | HandleWrite
  | AcceptFrom (sess : nat).

#[export] Instance line_eq_dec : EqDecision line.
Proof. solve_decision. Defined.

(** A session: the weak pointer of its base class, set or not, its streambuf and, as
    ghosts, what its socket delivered and took. *)
Record session : Type := Session {
  weak_this_ : bool;
  sbuf : list Z;
  rcvd : list Z;
  sent : list Z;
}.

Record io : Type := Io {
  pending : list op;
  sessions : nat → session;
  created : nat;               (* sessions allocated so far *)
  printed : list line;
}.

(** std::shared_ptr<session>(new session(io_service_)): the constructor of the pointer
    looks for a base class std::enable_shared_from_this, which session does not have. *)
Definition new_session : session := Session false [] [] [].

Definition set_session (n : nat) (x : session) (s : io) : io :=
  Io (pending s) (λ k, if decide (k = n) then x else sessions s k) (created s) (printed s).

Definition start_op (o : op) : cmd io unit :=
  modify (λ s, Io (pending s ++ [o]) (sessions s) (created s) (printed s)).

Definition print (l : line) : cmd io unit :=
  modify (λ s, Io (pending s) (sessions s) (created s) (printed s ++ [l])).

Definition make_session : cmd io nat :=
  s ← get;
  modify (λ s, Io (pending s) (λ k, if decide (k = created s) then new_session else sessions s k)
                 (S (created s)) (printed s));;
  mret (created s).

Section server.
Context `{SharedFromThis}.

(** shared_from_this() of session [n]; the pointer itself is bound into the handler of the
    operation that is started next. *)
Definition shared_from_this (n : nat) : cmd io unit :=
  s ← get;
  match shared_from_this_throws (weak_this_ (sessions s n)) with
  | Some e => throw e
  | None => mret ()
  end.

(** * Handlers *)

(** session::start *)
Definition session_start (n : nat) : cmd io unit :=
  print (StartOf n);;
  shared_from_this n;;
  start_op (OpRead n).

(** session::handle_read: the error code is not looked at. *)
Definition handle_read (n : nat) (ec : Z) (bytes_transferred : nat) : cmd io unit :=
  print HandleRead;;
  shared_from_this n;;
  start_op (OpWrite n).

(** session::handle_write *)
Definition handle_write (n : nat) (ec : Z) (bytes_transferred : nat) : cmd io unit :=
  print HandleWrite;;
  shared_from_this n;;
  start_op (OpRead n).

(** echo_server::start *)
Definition server_start : cmd io unit :=
  n ← make_session;
  start_op (OpAccept n).

(** echo_server::handle_accept; the line is recorded when both of its calls of
    remote_endpoint() have returned. *)
Definition handle_accept (n : nat) (error : Z) (endpoint_throws : option nat) : cmd io unit :=
  if bool_decide (error ≠ 0) then mret () else
  match endpoint_throws with
  | Some e => throw e
  | None =>
    print (AcceptFrom n);;
    session_start n;;
    m ← make_session;
    start_op (OpAccept m)
  end.

(** * io_service::run *)

(** ~session, when the operation that completed owned the last pointer. *)
Definition release (n : nat) : cmd io unit :=
  s ← get;
  if bool_decide (n ∈ op_session <$> pending s) then mret () else print (DestructOf n).

(** The completion of an operation: its transfer of data, then its handler. *)
Definition complete (o : op) (c : completion) : cmd io unit :=
  match o, c with
  | OpAccept n, Accepted ec throws => handle_accept n ec throws
  | OpRead n, ReadDone ec d =>
    modify (λ s, let x := sessions s n in
      set_session n (Session (weak_this_ x) (sbuf x ++ d) (rcvd x ++ d) (sent x)) s);;
    handle_read n ec (length d)
  | OpWrite n, WriteDone ec k =>
    modify (λ s, let x := sessions s n in
      set_session n (Session (weak_this_ x) (drop k (sbuf x)) (rcvd x) (sent x ++ take k (sbuf x))) s);;
    handle_write n ec k
  | _, _ => mret ()
  end.

(** The completions an operation can have; a streambuf holds [max_size] bytes. *)
Definition may_complete (max_size : nat) (s : io) (o : op) (c : completion) : bool :=
  match o, c with
  | OpAccept _, Accepted _ _ => true
  | OpRead n, ReadDone ec d =>
    let k := (length (sbuf (sessions s n)) + length d)%nat in
    bool_decide (k ≤ max_size)%nat && (negb (ec =? 0) || bool_decide (k = max_size))
  | OpWrite n, WriteDone ec k =>
    let size := length (sbuf (sessions s n)) in
    bool_decide (k ≤ size)%nat && (negb (ec =? 0) || bool_decide (k = size))
  | _, _ => false
  end.

(** The operation at a place of the list completes; it is gone, with its pointer, when the
    handler has returned. A completion that cannot be is none. *)
Definition run_one (max_size : nat) (i : nat) (c : completion) : cmd io unit :=
  s ← get;
  match pending s !! i with
  | Some o =>
    if may_complete max_size s o c then
      modify (λ s, Io (delete i (pending s)) (sessions s) (created s) (printed s));;
      complete o c;;
      release (op_session o)
    else mret ()
  | None => mret ()
  end.

(** io_service::run over the completions that happen: it returns when no operation is left,
    and waits for the next one otherwise. *)
Fixpoint io_service_run (max_size : nat) (cs : list (nat * completion)) : cmd io unit :=
  s ← get;
  if bool_decide (pending s = []) then mret () else
  match cs with
  | [] => unfinished
  | (i, c) :: cs => run_one max_size i c;; io_service_run max_size cs
  end.

(** main: opening the acceptor may throw, and nothing catches an exception. *)
Definition asio_body (open_throws : option nat) (max_size : nat) (cs : list (nat * completion))
    : cmd io Z :=
  match open_throws with
  | Some e => throw e
  | None => server_start;; io_service_run max_size cs;; mret 0
  end.

Definition asio_main (open_throws : option nat) (max_size : nat) (cs : list (nat * completion))
    : cmd io Z :=
  λ s, match asio_body open_throws max_size cs s with
       | (Thrown _, s') => (Aborted, s')
       | r => r
       end.

Definition no_io : io := Io [] (λ _, new_session) 0 [].
End server.

(** * Properties *)

Section asio.
Context `{SharedFromThisLaws}.
Implicit Types s : io.

(** With a weak pointer that is set, a session starts its read; without, it throws. *)
Lemma session_start_run n s :
  session_start n s =
    let s' := Io (pending s) (sessions s) (created s) (printed s ++ [StartOf n]) in
    if weak_this_ (sessions s n)
    then (Done (), Io (pending s ++ [OpRead n]) (sessions s) (created s) (printed s ++ [StartOf n]))
    else (Thrown bad_weak_ptr, s').
Proof.
  unfold session_start, shared_from_this. unfold mbind, cmd_bind. cbn.
  destruct (weak_this_ (sessions s n)); [by rewrite owned_by_boost|by rewrite not_owned_by_boost].
Qed.

(** The state in which io_service::run starts: the accept of the first session. *)
Definition listening : io :=
  Io [OpAccept 0] (λ k, if decide (k = 0%nat) then new_session else new_session) 1 [].

(** What the accept completes with, the only operation there is. *)
Fixpoint first_accept (cs : list (nat * completion)) : option (Z * option nat) :=
  match cs with
  | [] => None
  | (0%nat, Accepted ec throws) :: _ => Some (ec, throws)
  | _ :: cs => first_accept cs
  end.

(** A completion of anything else cannot happen yet. *)
Lemma run_one_other max_size i c :
  first_accept [(i, c)] = None → run_one max_size i c listening = (Done (), listening).
Proof. by destruct i as [|i], c. Qed.

(** The completion of the accept. *)
Lemma run_one_accept max_size ec throws :
  run_one max_size 0 (Accepted ec throws) listening =
    (if bool_decide (ec ≠ 0)
     then (Done (), Io [] (sessions listening) 1 [DestructOf 0])
     else match throws with
          | Some e => (Thrown e, Io [] (sessions listening) 1 [])
          | None => (Thrown bad_weak_ptr, Io [] (sessions listening) 1 [AcceptFrom 0; StartOf 0])
          end).
Proof.
  unfold run_one, complete, handle_accept. unfold mbind, cmd_bind. cbn -[session_start].
  case_bool_decide; [done|]. destruct throws; [done|]. unfold mbind, cmd_bind. cbn -[session_start].
  by rewrite session_start_run.
Qed.

Lemma run_waits max_size cs s :
  pending s ≠ [] →
  io_service_run max_size cs s =
    match cs with
    | [] => (Unfinished, s)
    | (i, c) :: cs => (run_one max_size i c;; io_service_run max_size cs) s
    end.
Proof.
  intros Hp. destruct cs as [|[i c] cs]; cbn [io_service_run];
    rewrite (bind_done _ _ s s s) // bool_decide_eq_false_2 //.
Qed.

(** C8. The server never serves a client. Whatever happens once its acceptor is open, it
    creates one session and starts no operation but one accept, and no byte is received or
    sent: it waits until the accept completes; if that fails, the session is destroyed and main
    returns 0 without accepting again; if it succeeds, the program is terminated by an exception,
    that of remote_endpoint() or, after the session's start has printed its name, the bad_weak_ptr
    of shared_from_this(), since a std::shared_ptr owns a session that derives from
    boost::enable_shared_from_this. *)
Theorem first_client_ends_server max_size cs :
  ∃ s', asio_main None max_size cs no_io =
      (match first_accept cs with
       | None => Unfinished
       | Some (ec, _) => if bool_decide (ec ≠ 0) then Done 0 else Aborted
       end, s') ∧
    created s' = 1%nat ∧
    pending s' = match first_accept cs with None => [OpAccept 0] | Some _ => [] end ∧
    (∀ n, rcvd (sessions s' n) = [] ∧ sent (sessions s' n) = []) ∧
    printed s' =
      match first_accept cs with
      | None => []
      | Some (ec, throws) =>
        if bool_decide (ec ≠ 0) then [DestructOf 0]
        else match throws with Some _ => [] | None => [AcceptFrom 0; StartOf 0] end
      end.
Proof.
  assert (∀ n, rcvd (sessions listening n) = [] ∧ sent (sessions listening n) = []) as Hs.
  { intros n. cbn. by case_decide. }
  unfold asio_main, asio_body. rewrite (bind_done _ _ no_io () listening) //.
  induction cs as [|[i c] cs IH]; unfold mbind, cmd_bind; rewrite run_waits //.
  { by exists listening. }
  destruct (first_accept [(i, c)]) as [[ec throws]|] eqn:Hf.
  - assert (i = 0%nat ∧ c = Accepted ec throws) as [-> ->].
    { destruct i, c; try done. cbn in Hf. by injection Hf as -> ->. }
    cbn [first_accept]. unfold mbind, cmd_bind. rewrite run_one_accept.
    case_bool_decide.
    + destruct cs as [|[]]; eexists; by split_and!.
    + destruct throws; eexists; by split_and!.
  - rewrite (bind_done _ _ _ _ _ (run_one_other max_size i c Hf)).
    assert (first_accept ((i, c) :: cs) = first_accept cs) as -> by (by destruct i, c).
    exact IH.
Qed.

(** An acceptor that cannot be opened, for instance because the port is in use, ends the program
    as well. *)
Lemma open_fails e max_size cs s : asio_main (Some e) max_size cs s = (Aborted, s).
Proof. done. Qed.
End asio.

(** * Concrete runs *)

Section runs.

#[local] Instance boost_smart_ptr : SharedFromThis := {|
  bad_weak_ptr := 7;
  shared_from_this_throws owned := if owned then None else Some 7%nat;
|}.

#[local] Instance boost_laws : SharedFromThisLaws.
Proof. done. Qed.

(** The first client ends the program; the events after it are not looked at. *)
Lemma first_client_ends_server_witness :
  ∃ s', asio_main None 1000 [(1%nat, ReadDone 0 [1]); (0%nat, Accepted 0 None); (0%nat, ReadDone 2 [1; 2])]
      no_io = (Aborted, s') ∧
    created s' = 1%nat ∧ pending s' = [] ∧
    (∀ n, rcvd (sessions s' n) = [] ∧ sent (sessions s' n) = []) ∧
    printed s' = [AcceptFrom 0; StartOf 0].
Proof.
  apply (first_client_ends_server 1000
    [(1%nat, ReadDone 0 [1]); (0%nat, Accepted 0 None); (0%nat, ReadDone 2 [1; 2])]).
Defined.

Example failed_accept_returns :
  fst (asio_main None 1000 [(0%nat, Accepted 24 None); (0%nat, Accepted 0 None)] no_io) = Done 0.
Proof. reflexivity. Qed.

(** Were the session owned by a boost::shared_ptr, it would be started, read until the end of the
    stream, and write back what it read. *)
Example owned_session_echoes :
  let s0 := Io [] (λ _, Session true [] [] []) 1 [] in
  let (r, s1) := (session_start 0;; run_one 1000 0 (ReadDone 2 [1; 2; 3]);;
                  run_one 1000 0 (WriteDone 0 3)) s0 in
  r = Done () ∧ pending s1 = [OpRead 0] ∧ sent (sessions s1 0%nat) = [1; 2; 3].
Proof. done. Qed.
End runs.
