(* ===== verification/LinkedPtr.v ===== *)
(** The reference-linked smart pointer of the bundled test library
    (src/gtest/include/gtest/internal/gtest-linked_ptr.h): pointers that share an
    object form a circular list, and the last one to leave deletes the object. *)

From S2P Require Import Prelude Mem.

(** * State *)

(** A linked_ptr variable: its value and the next pointer of its link, not
    initialised before the link joins a circle. The link is identified with the
    variable it is a member of. *)
Record link : Type := Link { value_ : ptr; next_ : option loc }.

(** The linked_ptr variables, by address, the objects that are alive, and
    g_linked_ptr_mutex. *)
Record lstate : Type := LState {
  links : gmap loc link;
  objs : gset loc;
  locked : bool;
}.

Definition set_links (m : gmap loc link) (s : lstate) : lstate := LState m (objs s) (locked s).
Definition set_objs (o : gset loc) (s : lstate) : lstate := LState (links s) o (locked s).
Definition set_locked (b : bool) (s : lstate) : lstate := LState (links s) (objs s) b.

(** MutexLock lock(&g_linked_ptr_mutex), for the scope of [m]; a second lock
    by the same thread never returns. *)
Definition with_lock {A} (m : cmd lstate A) : cmd lstate A :=
  s ← get;
  if locked s then unfinished else
  modify (set_locked true);;
  a ← m;
  modify (set_locked false);;
  mret a.

(** * linked_ptr_internal *)

Definition get_next (p : loc) : cmd lstate loc :=
  s ← get;
  match links s !! p with
  | None => undefined Dangling
  | Some (Link _ None) => undefined Indeterminate
  | Some (Link _ (Some q)) => mret q
  end.

Definition set_next (p q : loc) : cmd lstate unit :=
  s ← get;
  match links s !! p with
  | None => undefined Dangling
  | Some (Link v _) => modify (set_links (<[p := Link v (Some q)]> (links s)))
  end.

Definition join_new (this : loc) : cmd lstate unit := set_next this this.

(** while (p->next_ != stop) { assert(p->next_ != bad); p = p->next_; } *)
Fixpoint find_before (fuel : nat) (p stop bad : loc) : cmd lstate loc :=
  match fuel with
  | O => unfinished
  | S fuel =>
    n ← get_next p;
    if bool_decide (n = stop) then mret p else
    assert_ (bool_decide (n ≠ bad));;
    find_before fuel n stop bad
  end.

(** A circle has at most as many members as there are links. *)
Definition ring_fuel (s : lstate) : nat := size (links s).

Definition join (this ptr : loc) : cmd lstate unit :=
  with_lock (
    s ← get;
    p ← find_before (ring_fuel s) ptr ptr this;
    set_next p this;;
    set_next this ptr).

Definition depart (this : loc) : cmd lstate bool :=
  with_lock (
    nxt ← get_next this;
    if bool_decide (nxt = this) then mret true else
    s ← get;
    p ← find_before (ring_fuel s) nxt this nxt;
    set_next p nxt;;
    mret false).

(** * linked_ptr *)

(** delete of an object; NULL is ignored. *)
Definition delete_object (v : ptr) : cmd lstate unit :=
  match v with
  | None => mret ()
  | Some v => s ← get;
    if bool_decide (v ∈ objs s) then modify (set_objs (objs s ∖ {[v]}))
    else undefined BadFree
  end.

Definition lp_get (p : loc) : cmd lstate ptr :=
  s ← get;
  match links s !! p with None => undefined Dangling | Some l => mret (value_ l) end.

(** The assignment to value_, in a variable that may be under construction. *)
Definition set_value (p : loc) (v : ptr) : cmd lstate unit :=
  modify (λ s, set_links (<[p := Link v (links s !! p ≫= next_)]> (links s)) s).

Definition lp_depart (this : loc) : cmd lstate unit :=
  last ← depart this;
  v ← lp_get this;
  if last : bool then delete_object v else mret ().

Definition lp_capture (this : loc) (v : ptr) : cmd lstate unit :=
  set_value this v;;
  join_new this.

Definition lp_copy (this ptr : loc) : cmd lstate unit :=
  v ← lp_get ptr;
  set_value this v;;
  if bool_decide (v ≠ NULL) then join this ptr else join_new this.

(** The constructors, the destructor, assignment and reset. *)
Definition lp_new (this : loc) (v : ptr) : cmd lstate unit := lp_capture this v.

Definition lp_copy_new (this ptr : loc) : cmd lstate unit :=
  assert_ (bool_decide (ptr ≠ this));;
  lp_copy this ptr.

Definition lp_destroy (this : loc) : cmd lstate unit :=
  lp_depart this;;
  modify (λ s, set_links (delete this (links s)) s).

Definition lp_assign (this ptr : loc) : cmd lstate unit :=
  if bool_decide (ptr ≠ this) then lp_depart this;; lp_copy this ptr else mret ().

Definition lp_reset (this : loc) (v : ptr) : cmd lstate unit :=
  lp_depart this;;
  lp_capture this v.

Definition lp_eq (p q : loc) : cmd lstate bool :=
  v ← lp_get p;
  w ← lp_get q;
  mret (bool_decide (v = w)).

(** * Clients *)

(** What a client does with linked pointers; the object given to a constructor
    or to reset is allocated for it. *)
Inductive lp_op : Type :=
  | Make (p : loc) (v : ptr)
  | CopyMake (p q : loc)
  | Assign (p q : loc)
  | Reset (p : loc) (v : ptr)
  | Destroy (p : loc).

Definition new_object (v : ptr) : cmd lstate unit :=
  match v with
  | None => mret ()
  | Some v => modify (λ s, set_objs ({[v]} ∪ objs s) s)
  end.

Definition run_lp (o : lp_op) : cmd lstate unit :=
  match o with
  | Make p v => new_object v;; lp_new p v
  | CopyMake p q => lp_copy_new p q
  | Assign p q => lp_assign p q
  | Reset p v => new_object v;; lp_reset p v
  | Destroy p => lp_destroy p
  end.

Fixpoint run_lps (os : list lp_op) : cmd lstate unit :=
  match os with
  | [] => mret ()
  | o :: os => run_lp o;; run_lps os
  end.

(** The specification: who points to what. *)
Definition fresh_object (a : gmap loc ptr) (v : ptr) : Prop :=
  ∀ p w, v = Some w → a !! p ≠ Some (Some w).

Definition lp_legal (a : gmap loc ptr) (o : lp_op) : Prop :=
  match o with
  | Make p v => a !! p = None ∧ fresh_object a v
  | CopyMake p q => a !! p = None ∧ is_Some (a !! q)
  | Assign p q => is_Some (a !! p) ∧ is_Some (a !! q)
  | Reset p v => is_Some (a !! p) ∧ fresh_object a v
  | Destroy p => is_Some (a !! p)
  end.

Definition lp_spec (a : gmap loc ptr) (o : lp_op) : gmap loc ptr :=
  match o with
  | Make p v | Reset p v => <[p := v]> a
  | CopyMake p q | Assign p q => match a !! q with Some v => <[p := v]> a | None => a end
  | Destroy p => delete p a
  end.

Fixpoint lp_legals (a : gmap loc ptr) (os : list lp_op) : Prop :=
  match os with [] => True | o :: os => lp_legal a o ∧ lp_legals (lp_spec a o) os end.

Definition lp_specs (a : gmap loc ptr) (os : list lp_op) : gmap loc ptr :=
  foldl lp_spec a os.

(** * Circles *)

(** [l] are the links from [p] on, and the next pointer of the last is [q]. *)
Fixpoint seg (m : gmap loc link) (p : loc) (l : list loc) (q : loc) : Prop :=
  match l with
  | [] => p = q
  | x :: l => p = x ∧ ∃ v n, m !! x = Some (Link v (Some n)) ∧ seg m n l q
  end.

Definition circle (m : gmap loc link) (p : loc) (l : list loc) : Prop :=
  NoDup (p :: l) ∧ seg m p (p :: l) p.

(** The pointers that share the object of [p]; a null pointer is alone. *)
Definition shares (a : gmap loc ptr) (p q : loc) : Prop :=
  match a !! p with
  | None => False
  | Some None => q = p
  | Some (Some v) => a !! q = Some (Some v)
  end.

(** Between operations, with an object [pend] that has no owner yet: the links
    of the pointers of [a] form one circle for each object, and the objects alive
    are those that are pointed to. *)
Definition lp_core (s : lstate) (a : gmap loc ptr) (pend : ptr) : Prop :=
  locked s = false ∧
  (∀ p v, a !! p = Some v → ∃ n, links s !! p = Some (Link v n)) ∧
  (∀ v, v ∈ objs s ↔ pend = Some v ∨ ∃ p, a !! p = Some (Some v)) ∧
  (∀ p, is_Some (a !! p) → ∃ l, circle (links s) p l ∧ ∀ q, q ∈ p :: l ↔ shares a p q).

Definition lp_inv (s : lstate) (a : gmap loc ptr) : Prop :=
  lp_core s a NULL ∧ dom (links s) = dom a.

Section circles.
Implicit Types (m : gmap loc link) (s : lstate) (p q x z : loc) (l : list loc).

Lemma seg_app m p l k q : seg m p (l ++ k) q ↔ ∃ r, seg m p l r ∧ seg m r k q.
Proof.
  revert p. induction l as [|x l IH]; intros p; simpl.
  - split; [by exists p|by intros (r & -> & ?)].
  - setoid_rewrite IH. naive_solver.
Qed.

Lemma seg_frame m m' p l q :
  (∀ x, x ∈ l → m' !! x = m !! x) → seg m p l q → seg m' p l q.
Proof.
  revert p. induction l as [|x l IH]; intros p Hfr; simpl; [done|].
  intros (-> & v & n & Hx & Hs). split; [done|]. exists v, n.
  split; [by rewrite Hfr; [apply list_elem_of_here|]|].
  apply IH; [|done]. intros y Hy. by apply Hfr, list_elem_of_further.
Qed.

Lemma seg_dom m p l q x : seg m p l q → x ∈ l → is_Some (m !! x).
Proof.
  revert p. induction l as [|y l IH]; intros p; simpl; [by intros _ ?%elem_of_nil|].
  intros (-> & v & n & Hy & Hs) [->|Hx]%elem_of_cons; [by eexists|by eapply IH].
Qed.

(** A circle can be read from any of its members. *)
Lemma circle_rotate m p l q :
  circle m p l → q ∈ p :: l →
  ∃ k, circle m q k ∧ ∀ x, x ∈ q :: k ↔ x ∈ p :: l.
Proof.
  intros [Hnd Hs] Hq. apply list_elem_of_split in Hq as (l1 & l2 & Hl).
  rewrite Hl in Hnd Hs |- *. exists (l2 ++ l1).
  assert (q :: l2 ++ l1 ≡ₚ l1 ++ q :: l2) as Hp.
  { rewrite (Permutation_app_comm l1) //. }
  split; [split; [by rewrite Hp|]|intros x; by rewrite Hp].
  apply seg_app in Hs as (r & Hs1 & Hs2). pose proof Hs2 as [-> _].
  change (q :: l2 ++ l1) with ((q :: l2) ++ l1). apply seg_app. by exists p.
Qed.

(** Some member points to the member that is read first. *)
Lemma circle_last m p l : circle m p l → ∃ k z v, p :: l = k ++ [z] ∧ seg m p k z ∧
  m !! z = Some (Link v (Some p)).
Proof.
  intros [_ Hs]. destruct (exists_last (l := p :: l)) as (k & z & Hkz); [done|].
  rewrite Hkz in Hs. apply seg_app in Hs as (r & Hk & -> & v & n & Hz & Hn).
  simpl in Hn. subst. by exists k, z, v.
Qed.

Lemma get_next_run s p v q :
  links s !! p = Some (Link v (Some q)) → get_next p s = (Done q, s).
Proof. intros Hp. unfold get_next. by rewrite (bind_done _ _ s s s) // Hp. Qed.

Lemma set_next_run s p (l : link) q :
  links s !! p = Some l →
  set_next p q s = (Done (), set_links (<[p := Link (value_ l) (Some q)]> (links s)) s).
Proof. intros Hp. unfold set_next. rewrite (bind_done _ _ s s s) // Hp. by destruct l. Qed.

Lemma find_before_run fuel s p k z v stop bad :
  seg (links s) p k z → links s !! z = Some (Link v (Some stop)) →
  stop ∉ tail (k ++ [z]) → bad ∉ tail (k ++ [z]) → (length k < fuel)%nat →
  find_before fuel p stop bad s = (Done z, s).
Proof.
  revert fuel p. induction k as [|x k IH]; intros [|fuel] p Hk Hz Hst Hbad Hfuel;
    cbn [length] in Hfuel; try lia; cbn [find_before].
  - simpl in Hk. subst p.
    rewrite (bind_done _ _ s stop s); [by apply get_next_run with v|].
    by rewrite bool_decide_eq_true_2.
  - destruct Hk as (-> & w & n & Hx & Hk). simpl in Hst, Hbad.
    rewrite (bind_done _ _ s n s); [by apply get_next_run with w|].
    assert (∃ t, k ++ [z] = n :: t) as [t Ht].
    { destruct k; simpl in *; [subst; by eexists|destruct Hk as [-> _]; by eexists]. }
    rewrite bool_decide_eq_false_2.
    { intros ->. apply Hst. rewrite Ht. apply list_elem_of_here. }
    rewrite bool_decide_eq_true_2.
    { intros ->. apply Hbad. rewrite Ht. apply list_elem_of_here. }
    cbn [assert_]. rewrite bind_ret_l. apply IH; [done|done| | |lia].
    + intros Hin. apply Hst. rewrite Ht in Hin |- *. by apply list_elem_of_further.
    + intros Hin. apply Hbad. rewrite Ht in Hin |- *. by apply list_elem_of_further.
Qed.

Lemma circle_fuel s p l : circle (links s) p l → (length l < ring_fuel s)%nat.
Proof.
  intros [Hnd Hs]. unfold ring_fuel. rewrite -size_dom.
  assert (list_to_set (p :: l) ⊆ dom (links s)) as Hsub%subseteq_size.
  { intros x Hx. apply elem_of_list_to_set in Hx. apply elem_of_dom. by eapply seg_dom. }
  by rewrite size_list_to_set in Hsub.
Qed.
End circles.

(** * join and depart *)

(** [m'] has the variables of [m], with the same values. *)
Definition same_values (m m' : gmap loc link) : Prop :=
  ∀ x, value_ <$> m' !! x = value_ <$> m !! x.

Section operations.
Implicit Types (m : gmap loc link) (s : lstate) (p q x z : loc) (l : list loc).

Lemma same_values_insert m x (l : link) n : m !! x = Some l → same_values m (<[x := Link (value_ l) n]> m).
Proof.
  intros Hx y. destruct (decide (y = x)) as [->|Hne].
  - by rewrite lookup_insert_eq Hx.
  - by rewrite lookup_insert_ne.
Qed.

Lemma same_values_trans m1 m2 m3 : same_values m1 m2 → same_values m2 m3 → same_values m1 m3.
Proof. intros H1 H2 x. by rewrite H2 H1. Qed.

Lemma same_values_some m m' x v n :
  same_values m m' → m !! x = Some (Link v n) → ∃ n', m' !! x = Some (Link v n').
Proof.
  intros Hsv Hx. specialize (Hsv x). rewrite Hx in Hsv.
  destruct (m' !! x) as [[v' n']|]; [|done]. injection Hsv as ->. by eexists.
Qed.

Lemma same_values_dom m m' : same_values m m' → dom m' = dom m.
Proof.
  intros Hsv. apply set_eq. intros x. rewrite !elem_of_dom. specialize (Hsv x).
  destruct (m' !! x), (m !! x); naive_solver.
Qed.

Lemma with_lock_run {A} (c : cmd lstate A) s a m :
  locked s = false →
  c (set_locked true s) = (Done a, set_links m (set_locked true s)) →
  with_lock c s = (Done a, set_links m s).
Proof.
  intros Hl Hc. unfold with_lock. rewrite (bind_done _ _ s s s) // Hl.
  erewrite bind_done by reflexivity. erewrite bind_done by exact Hc.
  erewrite bind_done by reflexivity. destruct s. simpl in *. by subst.
Qed.

Lemma join_circle s p l this lk :
  locked s = false → circle (links s) p l → this ∉ p :: l → links s !! this = Some lk →
  ∃ m, join this p s = (Done (), set_links m s) ∧ circle m p (l ++ [this]) ∧
    same_values (links s) m ∧ ∀ x, x ∉ p :: l → x ≠ this → m !! x = links s !! x.
Proof.
  intros Hlock Hc Hthis Hlk.
  destruct (circle_last _ _ _ Hc) as (k & z & v & Hl & Hk & Hz).
  pose proof (circle_fuel _ _ _ Hc) as Hfuel. destruct Hc as [Hnd _].
  pose proof Hnd as Hnd0. rewrite Hl in Hnd, Hthis.
  assert (z ≠ this) as Hzt by (intros ->; apply Hthis, elem_of_app; right; apply list_elem_of_here).
  set (m1 := <[z := Link v (Some this)]> (links s)).
  set (m2 := <[this := Link (value_ lk) (Some p)]> m1).
  exists m2. split_and!.
  - apply with_lock_run; [done|]. rewrite (bind_done _ _ (set_locked true s) (set_locked true s) (set_locked true s)) //.
    rewrite (bind_done _ _ _ z (set_locked true s)).
    { apply (find_before_run _ _ _ k z v); [done|done| | |].
      - rewrite -Hl. apply NoDup_cons in Hnd0 as [Hp _]. by rewrite /=.
      - rewrite -Hl /=. intros Hin. apply Hthis. rewrite -Hl. by apply list_elem_of_further.
      - change (ring_fuel (set_locked true s)) with (ring_fuel s).
        apply (f_equal length) in Hl. rewrite length_app /= in Hl. lia. }
    rewrite (bind_done _ _ _ () (set_links m1 (set_locked true s))).
    { by apply (set_next_run (set_locked true s) z (Link v (Some p))). }
    apply (set_next_run (set_links m1 (set_locked true s))). simpl.
    by rewrite /m1 lookup_insert_ne.
  - assert (p :: l ++ [this] = k ++ [z; this]) as Hl' by by rewrite app_comm_cons Hl -app_assoc.
    split.
    + rewrite app_comm_cons Hl. apply NoDup_app. split; [done|]. split; [|apply NoDup_singleton].
      intros x Hx ->%list_elem_of_singleton. done.
    + rewrite Hl'. apply seg_app. exists z. split.
      * eapply seg_frame; [|exact Hk]. intros x Hx.
        apply NoDup_app in Hnd as (_ & Hxz & _). specialize (Hxz x Hx).
        rewrite not_elem_of_app in Hthis.
        rewrite /m2 /m1 lookup_insert_ne; [intros <-; tauto|].
        rewrite lookup_insert_ne //. intros <-. apply Hxz, list_elem_of_here.
      * split; [done|]. exists v, this. rewrite /m2 lookup_insert_ne // /m1 lookup_insert_eq.
        split; [done|]. split; [done|]. exists (value_ lk), p. by rewrite lookup_insert_eq.
  - eapply same_values_trans; [apply (same_values_insert _ z (Link v (Some p))), Hz|].
    apply same_values_insert. by rewrite lookup_insert_ne.
  - intros x Hx Hxt. rewrite Hl not_elem_of_app list_elem_of_singleton in Hx.
    rewrite /m2 /m1 !lookup_insert_ne //; naive_solver.
Qed.

Lemma depart_alone s p :
  locked s = false → circle (links s) p [] → depart p s = (Done true, s).
Proof.
  intros Hlock [_ (_ & v & n & Hp & Hn)]. simpl in Hn. subst n.
  assert (s = set_links (links s) s) as Heta by by destruct s.
  rewrite {2}Heta. apply with_lock_run; [done|].
  erewrite bind_done by by eapply (get_next_run (set_locked true s)).
  by rewrite bool_decide_eq_true_2.
Qed.

Lemma depart_circle s p n l :
  locked s = false → circle (links s) p (n :: l) →
  ∃ m, depart p s = (Done false, set_links m s) ∧ circle m n l ∧
    same_values (links s) m ∧ ∀ x, x ∉ n :: l → m !! x = links s !! x.
Proof.
  intros Hlock Hc. pose proof (circle_fuel _ _ _ Hc) as Hfuel.
  destruct Hc as [[Hp Hnd]%NoDup_cons (_ & v & n' & Hpn & Hs)].
  assert (n' = n) as -> by by destruct Hs as [-> _].
  destruct (exists_last (l := n :: l)) as (k & z & Hl); [done|].
  pose proof Hs as Hs'. rewrite Hl in Hs'. apply seg_app in Hs' as (r & Hk & -> & vz & q & Hz & Hq).
  simpl in Hq. subst q. set (m := <[z := Link vz (Some n)]> (links s)).
  assert (p ≠ n) as Hpn' by (intros ->; apply Hp, list_elem_of_here).
  pose proof Hnd as [Hn _]%NoDup_cons.
  exists m. split_and!.
  - apply with_lock_run; [done|].
    erewrite bind_done by by eapply (get_next_run (set_locked true s)).
    rewrite bool_decide_eq_false_2; [congruence|].
    rewrite (bind_done _ _ (set_locked true s) (set_locked true s) (set_locked true s)) //.
    rewrite (bind_done _ _ _ z (set_locked true s)).
    { apply (find_before_run _ _ _ k z vz); [done|done| | |].
      - rewrite -Hl. intros Hin. apply Hp. by apply list_elem_of_further.
      - by rewrite -Hl.
      - change (ring_fuel (set_locked true s)) with (ring_fuel s).
        apply (f_equal length) in Hl. rewrite length_app /= in Hl. simpl in Hfuel. lia. }
    erewrite bind_done by by apply (set_next_run (set_locked true s) z (Link vz (Some p))). done.
  - split; [done|]. rewrite Hl. apply seg_app. exists z. split.
    + eapply seg_frame; [|exact Hk]. intros x Hx. rewrite Hl in Hnd.
      apply NoDup_app in Hnd as (_ & Hxz & _). specialize (Hxz x Hx).
      rewrite /m lookup_insert_ne //. intros <-. apply Hxz, list_elem_of_here.
    + split; [done|]. exists vz, n. by rewrite /m lookup_insert_eq.
  - by apply (same_values_insert _ z (Link vz (Some p))).
  - intros x Hx. rewrite Hl not_elem_of_app list_elem_of_singleton in Hx.
    rewrite /m lookup_insert_ne //. naive_solver.
Qed.
End operations.

(** * The operations keep the invariant *)

Section refinement.
Implicit Types (s : lstate) (a : gmap loc ptr) (p q x : loc) (v : ptr) (l : list loc).

Lemma circle_frame m m' p l :
  (∀ x, x ∈ p :: l → m' !! x = m !! x) → circle m p l → circle m' p l.
Proof. intros Hfr [Hnd Hs]. split; [done|]. by eapply seg_frame. Qed.

Lemma shares_self a p : is_Some (a !! p) → shares a p p.
Proof. unfold shares. intros [[v|] Hp]; by rewrite Hp. Qed.

Lemma shares_dom a p q : shares a p q → is_Some (a !! q).
Proof. unfold shares. destruct (a !! p) as [[v|]|] eqn:Hp; [by eexists|by intros ->|done]. Qed.

Lemma shares_value a p q w : a !! p = Some (Some w) → shares a p q ↔ a !! q = Some (Some w).
Proof. unfold shares. by intros ->. Qed.

Lemma shares_insert a p v q x :
  a !! p = None → fresh_object a v → q ≠ p → shares (<[p := v]> a) q x ↔ shares a q x.
Proof.
  intros Hp Hv Hq. unfold shares. rewrite lookup_insert_ne //.
  destruct (a !! q) as [[w|]|] eqn:Hqw; [|done..]. destruct (decide (x = p)) as [->|Hx].
  - rewrite lookup_insert_eq Hp. split; [|done]. intros [= ->]. by destruct (Hv q w).
  - by rewrite lookup_insert_ne.
Qed.

Lemma shares_delete a p q x :
  q ≠ p → shares (delete p a) q x ↔ shares a q x ∧ x ≠ p.
Proof.
  intros Hq. unfold shares. rewrite lookup_delete_ne //.
  destruct (a !! q) as [[w|]|] eqn:Hqw; [|naive_solver..].
  destruct (decide (x = p)) as [->|Hx].
  - rewrite lookup_delete_eq. naive_solver.
  - rewrite lookup_delete_ne //. naive_solver.
Qed.

Lemma lp_get_run s p v n : links s !! p = Some (Link v n) → lp_get p s = (Done v, s).
Proof. intros Hp. unfold lp_get. by rewrite (bind_done _ _ s s s) // Hp. Qed.

Lemma new_object_core s a v :
  lp_core s a NULL → ∃ s', new_object v s = (Done (), s') ∧ lp_core s' a v ∧ links s' = links s.
Proof.
  intros (Hl & Hval & Hobj & Hring). destruct v as [v|]; [|by exists s].
  exists (set_objs ({[v]} ∪ objs s) s). split; [done|]. split; [|done].
  split_and!; [done..| |done]. intros w. cbn. rewrite elem_of_union elem_of_singleton Hobj.
  naive_solver.
Qed.

Lemma capture_core s a v p :
  lp_core s a v → a !! p = None → fresh_object a v →
  ∃ s', lp_capture p v s = (Done (), s') ∧ lp_core s' (<[p := v]> a) NULL ∧
    dom (links s') = {[p]} ∪ dom (links s).
Proof.
  intros (Hl & Hval & Hobj & Hring) Hp Hv.
  set (n0 := links s !! p ≫= next_).
  set (m := <[p := Link v (Some p)]> (links s)).
  exists (set_links m s). split_and!.
  - unfold lp_capture. rewrite (bind_done _ _ _ () (set_links (<[p := Link v n0]> (links s)) s)) //.
    unfold join_new. erewrite set_next_run by (cbn; apply lookup_insert_eq).
    cbn. by rewrite insert_insert_eq.
  - split_and!; [done|..]; cbn.
    + intros q w Hq. destruct (decide (q = p)) as [->|Hne].
      * rewrite lookup_insert_eq in Hq. injection Hq as <-. rewrite lookup_insert_eq. by eexists.
      * rewrite lookup_insert_ne // in Hq. rewrite lookup_insert_ne //. by apply Hval.
    + intros w. rewrite Hobj. split.
      * intros [->|[q Hq]]; right; [exists p; by rewrite lookup_insert_eq|].
        exists q. rewrite lookup_insert_ne //. congruence.
      * intros [?|[q Hq]]; [done|]. destruct (decide (q = p)) as [->|Hne].
        -- rewrite lookup_insert_eq in Hq. left. by injection Hq.
        -- rewrite lookup_insert_ne // in Hq. right. by exists q.
    + intros q Hq. destruct (decide (q = p)) as [->|Hne].
      * exists []. split.
        -- split; [apply NoDup_singleton|]. split; [done|].
           exists v, p. by rewrite lookup_insert_eq.
        -- intros x. rewrite list_elem_of_singleton. unfold shares. rewrite lookup_insert_eq.
           destruct v as [w|]; [|done]. split; [intros ->; by rewrite lookup_insert_eq|].
           intros Hx. destruct (decide (x = p)) as [|Hxp]; [done|].
           rewrite lookup_insert_ne // in Hx. by destruct (Hv x w).
      * rewrite lookup_insert_ne // in Hq. destruct (Hring q Hq) as (l & Hc & Hmem).
        exists l. split; [|intros x; by rewrite Hmem shares_insert].
        eapply circle_frame; [|exact Hc]. intros x Hx%Hmem%shares_dom.
        rewrite lookup_insert_ne //. intros <-. rewrite Hp in Hx. by destruct Hx.
  - cbn. by rewrite dom_insert_L.
Qed.

(** The pointers that leave the circle of [p] alone keep their circles. *)
Lemma other_circle m m' a p q l l' w :
  a !! p = Some (Some w) → (∀ x, x ∈ p :: l ↔ shares a p x) →
  (∀ x, x ∉ p :: l → is_Some (a !! x) → m' !! x = m !! x) →
  circle m q l' → (∀ x, x ∈ q :: l' ↔ shares a q x) → a !! q ≠ Some (Some w) →
  circle m' q l'.
Proof.
  intros Hp Hmem Hfr Hc Hmem' Hq. eapply circle_frame; [|exact Hc].
  intros x Hx%Hmem'. apply Hfr; [|by eapply shares_dom].
  rewrite Hmem (shares_value _ _ _ _ Hp). unfold shares in Hx.
  destruct (a !! q) as [[w'|]|] eqn:Hqw; [|subst; congruence|done]. congruence.
Qed.

(** A pointer [p] to w that joined the circle [q :: l] of the pointers to w. *)
Lemma joined_core s a p q w l m n0 :
  let s1 := set_links (<[p := Link (Some w) n0]> (links s)) s in
  lp_core s a NULL → a !! p = None → a !! q = Some (Some w) → (∀ x, x ∈ q :: l ↔ shares a q x) →
  circle m q (l ++ [p]) → same_values (links s1) m →
  (∀ x, x ∉ q :: l → is_Some (a !! x) → m !! x = links s !! x) →
  lp_core (set_links m s1) (<[p := Some w]> a) NULL.
Proof.
  intros s1 (Hl & Hval & Hobj & Hring) Hp Hq Hmem Hc' Hsv Hfr.
  assert (∀ x, x ∈ q :: l ++ [p] ↔ <[p := Some w]> a !! x = Some (Some w)) as Hmem'.
  { intros x. rewrite app_comm_cons elem_of_app Hmem (shares_value _ _ _ _ Hq) list_elem_of_singleton.
    destruct (decide (x = p)) as [->|Hne]; [rewrite lookup_insert_eq|rewrite lookup_insert_ne //]; tauto. }
  split_and!; [done|..]; cbn.
  - intros x y Hx. destruct (decide (x = p)) as [->|Hne].
    + rewrite lookup_insert_eq in Hx. injection Hx as <-.
      eapply same_values_some; [exact Hsv|]. cbn. by rewrite lookup_insert_eq.
    + rewrite lookup_insert_ne // in Hx. destruct (Hval x y Hx) as [n Hn].
      eapply same_values_some; [exact Hsv|]. cbn. by rewrite lookup_insert_ne.
  - intros x. rewrite Hobj. split.
    + intros [?|[y Hy]]; [done|]. right. exists y. rewrite lookup_insert_ne //. congruence.
    + intros [?|[y Hy]]; [done|]. right. destruct (decide (y = p)) as [->|Hne].
      * rewrite lookup_insert_eq in Hy. injection Hy as <-. by exists q.
      * rewrite lookup_insert_ne // in Hy. by exists y.
  - intros x Hx. destruct (decide (<[p := Some w]> a !! x = Some (Some w))) as [Hxw|Hxw].
    + destruct (circle_rotate _ _ _ x Hc') as (k & Hck & Hk); [by apply Hmem'|].
      exists k. split; [done|]. intros y. by rewrite Hk Hmem' (shares_value _ _ _ _ Hxw).
    + assert (x ≠ p) as Hxp by (intros ->; by rewrite lookup_insert_eq in Hxw).
      rewrite lookup_insert_ne // in Hx Hxw. destruct (Hring x Hx) as (k & Hck & Hk).
      exists k. split; [by eapply other_circle|]. intros y. rewrite Hk. unfold shares.
      rewrite lookup_insert_ne //. destruct (a !! x) as [[w'|]|] eqn:Hxa; [|done..].
      destruct (decide (y = p)) as [->|Hyp]; [|by rewrite lookup_insert_ne].
      rewrite lookup_insert_eq Hp. split; [done|]. intros [= ->]. congruence.
Qed.

Lemma copy_core s a v p q :
  lp_core s a NULL → a !! p = None → a !! q = Some v →
  ∃ s', lp_copy p q s = (Done (), s') ∧ lp_core s' (<[p := v]> a) NULL ∧
    dom (links s') = {[p]} ∪ dom (links s).
Proof.
  intros Hcore Hp Hq. destruct (Hcore) as (Hl & Hval & _ & Hring).
  destruct (Hval q v Hq) as [nq Hlq]. unfold lp_copy.
  rewrite (bind_done _ _ s v s); [by eapply lp_get_run|].
  destruct v as [w|]; [|by apply (capture_core s a None p)].
  destruct (Hring q) as (l & Hc & Hmem); [by eexists|].
  set (n0 := links s !! p ≫= next_).
  set (s1 := set_links (<[p := Link (Some w) n0]> (links s)) s).
  rewrite (bind_done _ _ s () s1) //.
  assert (p ∉ q :: l) as Hpl.
  { rewrite Hmem. intros [? Hx]%shares_dom. congruence. }
  destruct (join_circle s1 q l p (Link (Some w) n0)) as (m & Hrun & Hc' & Hsv & Hfr); [done| |done|..].
  { eapply circle_frame; [|exact Hc]. intros x Hx. cbn. rewrite lookup_insert_ne //. by intros <-. }
  { cbn. by rewrite lookup_insert_eq. }
  exists (set_links m s1). split; [by rewrite bool_decide_eq_true_2|]. split.
  - apply (joined_core s a p q w l m n0); try done. intros x Hx [y Hy].
    rewrite Hfr //; [congruence|]. cbn. rewrite lookup_insert_ne //. congruence.
  - cbn. rewrite (same_values_dom _ _ Hsv). cbn. by rewrite dom_insert_L.
Qed.

Lemma delete_lookup a p x y : delete p a !! x = Some y → a !! x = Some y ∧ x ≠ p.
Proof.
  destruct (decide (x = p)) as [->|Hx]; [by rewrite lookup_delete_eq|]. by rewrite lookup_delete_ne.
Qed.

(** A pointer that is alone deletes its object. *)
Lemma depart_alone_core s a pend v p :
  lp_core s a pend → fresh_object a pend → a !! p = Some v →
  circle (links s) p [] → (∀ q, q ∈ [p] ↔ shares a p q) →
  ∃ s', lp_depart p s = (Done (), s') ∧ lp_core s' (delete p a) pend ∧
    dom (links s') = dom (links s).
Proof.
  intros (Hl & Hval & Hobj & Hring) Hpend Hp Hc Hmem. destruct (Hval p v Hp) as [np Hlp].
  unfold lp_depart. pose proof (delete_lookup a p) as Hdel.
  rewrite (bind_done _ _ s true s); [by apply depart_alone|].
  rewrite (bind_done _ _ s v s); [by eapply lp_get_run|].
  assert (∀ q w, v = Some w → delete p a !! q = Some (Some w) → False) as Hlast.
  { intros q w -> [Hq Hqp]%Hdel. apply Hqp. apply list_elem_of_singleton, Hmem.
    by rewrite (shares_value _ _ _ _ Hp). }
  set (s' := set_objs (match v with Some w => objs s ∖ {[w]} | None => objs s end) s).
  exists s'. split; [|split; [|done]].
  { unfold delete_object. destruct v as [w|]; [|by destruct s].
    rewrite (bind_done _ _ s s s) // bool_decide_eq_true_2 //. rewrite Hobj. right. by exists p. }
  split_and!; [done|..]; cbn.
  + intros x y [Hx _]%Hdel. by apply Hval.
  + intros w. assert (w ∈ objs s ∧ v ≠ Some w ↔ pend = Some w ∨ ∃ q, delete p a !! q = Some (Some w)) as <-.
    { rewrite Hobj. split.
      - intros [[?|[q Hq]] Hv]; [by left|right]. exists q. rewrite lookup_delete_ne //.
        intros <-. congruence.
      - intros [Hw|[q Hq]].
        + split; [by left|]. intros ->. by apply (Hpend p w).
        + split; [right; exists q; by apply Hdel in Hq as [? _]|]. intros ->. by eapply Hlast. }
    destruct v as [w'|]; [rewrite elem_of_difference elem_of_singleton|]; naive_solver.
  + intros q [y Hq]. pose proof (Hdel _ _ Hq) as [Hqa Hqp].
    destruct (Hring q) as (k & Hck & Hk); [by eexists|]. exists k. split; [done|].
    intros x. rewrite Hk shares_delete //. split; [|tauto]. intros Hx. split; [done|].
    intros ->. unfold shares in Hx. rewrite Hqa in Hx. destruct y as [w|]; [|done].
    rewrite Hp in Hx. injection Hx as ->. by eapply Hlast.
Qed.

(** A pointer that is not alone leaves the object to the others. *)
Lemma depart_shared_core s a pend v p n l :
  lp_core s a pend → a !! p = Some v →
  circle (links s) p (n :: l) → (∀ q, q ∈ p :: n :: l ↔ shares a p q) →
  ∃ s', lp_depart p s = (Done (), s') ∧ lp_core s' (delete p a) pend ∧
    dom (links s') = dom (links s).
Proof.
  intros (Hl & Hval & Hobj & Hring) Hp Hc Hmem. destruct (Hval p v Hp) as [np Hlp].
  unfold lp_depart. pose proof (delete_lookup a p) as Hdel.
  destruct (depart_circle s p n l) as (m & Hrun & Hc' & Hsv & Hfr); [done..|].
  rewrite (bind_done _ _ _ _ _ Hrun).
  assert (Hlp' := Hlp). destruct (same_values_some _ _ _ _ _ Hsv Hlp') as [n' Hmp].
  rewrite (bind_done _ _ _ v (set_links m s)); [by eapply lp_get_run|].
  exists (set_links m s). split; [done|]. destruct Hc as [[Hpl _]%NoDup_cons _].
  assert (n ≠ p) as Hnp by (intros ->; apply Hpl, list_elem_of_here).
  destruct v as [w|]; last first.
  { exfalso. apply Hnp. assert (n ∈ p :: n :: l) as Hn%Hmem
      by (apply list_elem_of_further, list_elem_of_here).
    unfold shares in Hn. by rewrite Hp in Hn. }
  assert (∀ x, x ∈ n :: l ↔ delete p a !! x = Some (Some w)) as Hmem'.
  { intros x. assert (x ∈ n :: l ↔ x ∈ p :: n :: l ∧ x ≠ p) as ->.
    { rewrite (elem_of_cons (n :: l)). split; [|tauto]. intros Hx. split; [by right|].
      by intros ->. }
    rewrite Hmem (shares_value _ _ _ _ Hp). destruct (decide (x = p)) as [->|Hx].
    - rewrite lookup_delete_eq. naive_solver.
    - rewrite lookup_delete_ne //. tauto. }
  assert (∀ x, x ∉ p :: n :: l → is_Some (a !! x) → m !! x = links s !! x) as Hfr'.
  { intros x Hx _. apply Hfr. contradict Hx. by apply list_elem_of_further. }
  split; [|by apply same_values_dom]. split_and!; [done|..]; cbn.
  + intros x y [Hx _]%Hdel. destruct (Hval x y Hx) as [nx Hnx]. by eapply same_values_some.
  + intros x. rewrite Hobj. split.
    * intros [?|[q Hq]]; [by left|right]. destruct (decide (q = p)) as [->|Hqp].
      -- exists n. assert (x = w) as -> by congruence. apply Hmem', list_elem_of_here.
      -- exists q. by rewrite lookup_delete_ne.
    * intros [?|[q [Hq _]%Hdel]]; [by left|right]. by exists q.
  + intros q [y Hq]. pose proof (Hdel _ _ Hq) as [Hqa Hqp].
    destruct (decide (delete p a !! q = Some (Some w))) as [Hqw|Hqw].
    * destruct (circle_rotate _ _ _ q Hc') as (k & Hck & Hk); [by apply Hmem'|].
      exists k. split; [done|]. intros x. by rewrite Hk Hmem' (shares_value _ _ _ _ Hqw).
    * assert (a !! q ≠ Some (Some w)) as Hqw' by (rewrite -(lookup_delete_ne a p) //).
      destruct (Hring q) as (k & Hck & Hk); [by eexists|]. exists k.
      split; [by eapply other_circle|]. intros x. rewrite Hk shares_delete //.
      split; [|tauto]. intros Hx. split; [done|]. intros ->.
      unfold shares in Hx. rewrite Hqa in Hx. destruct y as [w'|]; [|done].
      rewrite Hp in Hx. congruence.
Qed.

Lemma depart_core s a pend v p :
  lp_core s a pend → fresh_object a pend → a !! p = Some v →
  ∃ s', lp_depart p s = (Done (), s') ∧ lp_core s' (delete p a) pend ∧
    dom (links s') = dom (links s).
Proof.
  intros Hcore Hpend Hp. destruct (Hcore) as (_ & _ & _ & Hring).
  destruct (Hring p) as ([|n l] & Hc & Hmem); [by eexists|..].
  - by eapply depart_alone_core.
  - by eapply depart_shared_core.
Qed.

(** One operation, from the invariant. *)
Lemma run_lp_refines s a o :
  lp_inv s a → lp_legal a o →
  ∃ s', run_lp o s = (Done (), s') ∧ lp_inv s' (lp_spec a o).
Proof.
  intros [Hcore Hdom] Hleg. destruct o as [p v|p q|p q|p v|p]; cbn in Hleg |- *.
  - destruct Hleg as [Hp Hv].
    destruct (new_object_core s a v Hcore) as (s1 & Hr1 & Hc1 & Hl1).
    destruct (capture_core s1 a v p Hc1 Hp Hv) as (s2 & Hr2 & Hc2 & Hd2).
    exists s2. split; [by erewrite bind_done by exact Hr1|]. split; [done|].
    by rewrite Hd2 Hl1 Hdom dom_insert_L.
  - destruct Hleg as [Hp [v Hq]]. rewrite Hq.
    destruct (copy_core s a v p q Hcore Hp Hq) as (s2 & Hr2 & Hc2 & Hd2).
    exists s2. split; [|split; [done|by rewrite Hd2 Hdom dom_insert_L]].
    unfold lp_copy_new. rewrite bool_decide_eq_true_2 //. congruence.
  - destruct Hleg as [[u Hp] [v Hq]]. rewrite Hq. unfold lp_assign. case_bool_decide as Hqp.
    + destruct (depart_core s a NULL u p Hcore) as (s1 & Hr1 & Hc1 & Hd1); [done..|].
      destruct (copy_core s1 (delete p a) v p q Hc1) as (s2 & Hr2 & Hc2 & Hd2);
        [by rewrite lookup_delete_eq|by rewrite lookup_delete_ne|].
      exists s2. split; [by erewrite bind_done by exact Hr1|].
      rewrite insert_delete_eq in Hc2. split; [done|]. by rewrite Hd2 Hd1 Hdom dom_insert_L.
    + subst q. exists s. split; [done|]. by rewrite insert_id.
  - destruct Hleg as [[u Hp] Hv].
    destruct (new_object_core s a v Hcore) as (s0 & Hr0 & Hc0 & Hl0).
    destruct (depart_core s0 a v u p Hc0) as (s1 & Hr1 & Hc1 & Hd1); [done..|].
    destruct (capture_core s1 (delete p a) v p Hc1) as (s2 & Hr2 & Hc2 & Hd2).
    { by rewrite lookup_delete_eq. }
    { intros q w -> [Hq _]%delete_lookup. by apply (Hv q w). }
    exists s2. split; [erewrite bind_done by exact Hr0; unfold lp_reset; by erewrite bind_done by exact Hr1|].
    rewrite insert_delete_eq in Hc2. split; [done|].
    by rewrite Hd2 Hd1 Hl0 Hdom dom_insert_L.
  - destruct Hleg as [u Hp].
    destruct (depart_core s a NULL u p Hcore) as (s1 & Hr1 & (Hl1 & Hv1 & Ho1 & Hr) & Hd1); [done..|].
    exists (set_links (delete p (links s1)) s1).
    split; [unfold lp_destroy; by erewrite bind_done by exact Hr1|]. split; [|by rewrite /= !dom_delete_L Hd1 Hdom].
    split_and!; [done|..]; cbn.
    + intros q v Hq. rewrite lookup_delete_ne; [|by apply Hv1]. by apply delete_lookup in Hq as [_ ?].
    + done.
    + intros q Hq. destruct (Hr q Hq) as (l & Hc & Hmem). exists l. split; [|done].
      eapply circle_frame; [|exact Hc]. intros x Hx%Hmem%shares_dom.
      rewrite lookup_delete_ne //. intros <-. rewrite lookup_delete_eq in Hx. by destruct Hx.
Qed.

(** C14. Whatever a client does with linked pointers (construct from an object,
    copy, assign also to itself or to a sharer, reset, destroy), the walks around
    the circles end, no assertion fails and the mutex is free again; each pointer
    holds what the specification says; and the objects alive are exactly those
    that some pointer holds, so an object is deleted when its last pointer leaves
    it, neither earlier nor never, and never twice. *)
Theorem linked_ptrs_refine s a os :
  lp_inv s a → lp_legals a os →
  ∃ s', run_lps os s = (Done (), s') ∧ lp_inv s' (lp_specs a os) ∧
    value_ <$> links s' = lp_specs a os ∧
    ∀ v : loc, v ∈ objs s' ↔ ∃ p : loc, lp_specs a os !! p = Some (Some v).
Proof.
  revert s a. induction os as [|o os IH]; intros s a Hinv Hleg; cbn [run_lps].
  - exists s. split_and!; [done..| |]; destruct Hinv as [(_ & Hv & Ho & _) Hd].
    + change (lp_specs a []) with a. apply map_eq. intros p. rewrite lookup_fmap.
      destruct (a !! p) as [v|] eqn:Hp; [by destruct (Hv p v Hp) as [n ->]|].
      apply not_elem_of_dom in Hp. rewrite -Hd in Hp. by apply not_elem_of_dom in Hp as ->.
    + intros v. rewrite Ho. naive_solver.
  - destruct Hleg as [Ho Hos]. destruct (run_lp_refines s a o Hinv Ho) as (s1 & Hr1 & Hi1).
    erewrite bind_done by exact Hr1. by apply IH.
Qed.

(** Two linked pointers compare equal exactly when they hold the same
    object or are both null, and comparing changes nothing; two pointers to one
    object are always on the same circle. *)
Theorem linked_ptr_equality s a p q v w :
  lp_inv s a → a !! p = Some v → a !! q = Some w →
  lp_eq p q s = (Done (bool_decide (v = w)), s) ∧
  (v = w → v ≠ NULL → ∃ l, circle (links s) p l ∧ q ∈ p :: l).
Proof.
  intros [(_ & Hval & _ & Hring) _] Hp Hq.
  destruct (Hval p v Hp) as [np Hlp], (Hval q w Hq) as [nq Hlq]. split.
  - unfold lp_eq. rewrite (bind_done _ _ s v s); [by eapply lp_get_run|].
    by rewrite (bind_done _ _ s w s); [by eapply lp_get_run|].
  - intros -> Hw. destruct (Hring p) as (l & Hc & Hmem); [by eexists|]. exists l.
    split; [done|]. apply Hmem. unfold shares. rewrite Hp. by destruct w.
Qed.
End refinement.

(** * Concrete runs *)

Definition no_links : lstate := LState ∅ ∅ false.

Lemma no_links_inv : lp_inv no_links ∅.
Proof.
  split; [|done]. split_and!; [done|..].
  - intros p v Hp. by rewrite lookup_empty in Hp.
  - intros v. split; [by intros ?%elem_of_empty|]. intros [?|[p Hp]]; [done|].
    by rewrite lookup_empty in Hp.
  - intros p Hp. rewrite lookup_empty in Hp. by destruct Hp.
Qed.

(** Three sharers of the object 100; one is reset, one assigned, one destroyed. *)
Definition a_client : list lp_op :=
  [ Make 1 (Some 100%positive); CopyMake 2 1; CopyMake 3 2; Make 4 NULL; Assign 4 3;
    Reset 2 (Some 101%positive); Assign 1 2; Destroy 3; Assign 4 4 ].

Lemma linked_ptrs_refine_witness :
  ∃ s', run_lps a_client no_links = (Done (), s') ∧ lp_inv s' (lp_specs ∅ a_client) ∧
    value_ <$> links s' = lp_specs ∅ a_client ∧
    ∀ v : loc, v ∈ objs s' ↔ ∃ p : loc, lp_specs ∅ a_client !! p = Some (Some v).
Proof.
  apply (linked_ptrs_refine no_links ∅ a_client); [apply no_links_inv|].
  repeat split; try (intros p w [= <-]); try (by eexists); try done;
    repeat (destruct p as [p|p|]; try done).
Defined.

Example a_client_objects :
  objs (snd (run_lps a_client no_links)) = {[100%positive; 101%positive]}.
Proof. reflexivity. Qed.

Lemma linked_ptr_equality_witness :
  lp_eq 1 2 (snd (run_lps [Make 1 NULL; Make 2 NULL] no_links)) =
    (Done true, snd (run_lps [Make 1 NULL; Make 2 NULL] no_links)) ∧
  (NULL = NULL → NULL ≠ NULL → ∃ l, circle (links (snd (run_lps [Make 1 NULL; Make 2 NULL] no_links))) 1 l ∧ 2%positive ∈ 1%positive :: l).
Proof.
  destruct (run_lp_refines no_links ∅ (Make 1 NULL) no_links_inv) as (s1 & H1 & I1); [done|].
  destruct (run_lp_refines s1 _ (Make 2 NULL) I1) as (s2 & H2 & I2); [done|].
  injection H1 as <-. injection H2 as <-.
  by apply (linked_ptr_equality _ (lp_specs ∅ [Make 1 NULL; Make 2 NULL]) 1 2 NULL NULL).
Defined.
