(* ===== verification/FloatingPoint.v ===== *)
(** Almost-equality of floating-point numbers in the bundled test library (class
    FloatingPoint of src/gtest/include/gtest/internal/gtest-internal.h).

    A number is its bits, an unsigned integer of [kBitCount] bits; the class is a
    template over the two formats, a section over the two bit counts here. *)

From S2P Require Import Prelude Machine.

(** * The class *)

(** A floating-point type: the size of its object and the digits of its
    significand. *)
Class RawType : Type := {
  kBitCount : Z;
  kFractionBitCount : Z;
  fraction_pos : 0 < kFractionBitCount;
  exponent_pos : kFractionBitCount < kBitCount - 1;
}.

Section FloatingPoint.
Context {R : RawType}.

(** Unsigned arithmetic of the type Bits. *)
Definition to_bits (z : Z) : Z := z `mod` 2 ^ kBitCount.
Definition bits_not (z : Z) : Z := to_bits (Z.lnot z).

Definition kExponentBitCount : Z := kBitCount - 1 - kFractionBitCount.
Definition kSignBitMask : Z := to_bits (Z.shiftl 1 (kBitCount - 1)).
Definition kFractionBitMask : Z := Z.shiftr (bits_not 0) (kExponentBitCount + 1).
Definition kExponentBitMask : Z := bits_not (Z.lor kSignBitMask kFractionBitMask).
Definition kMaxUlps : Z := 4.

Definition Infinity : Z := kExponentBitMask.
(** FLT_MAX and DBL_MAX: the largest fraction under the largest finite exponent. *)
Definition Max : Z := kExponentBitMask - 1.

Definition exponent_bits (b : Z) : Z := Z.land kExponentBitMask b.
Definition fraction_bits (b : Z) : Z := Z.land kFractionBitMask b.
Definition sign_bit (b : Z) : Z := Z.land kSignBitMask b.

Definition is_nan (b : Z) : bool :=
  (exponent_bits b =? kExponentBitMask) && negb (fraction_bits b =? 0).

Definition SignAndMagnitudeToBiased (sam : Z) : Z :=
  if negb (Z.land kSignBitMask sam =? 0) then to_bits (bits_not sam + 1)
  else Z.lor kSignBitMask sam.

Definition DistanceBetweenSignAndMagnitudeNumbers (sam1 sam2 : Z) : Z :=
  let biased1 := SignAndMagnitudeToBiased sam1 in
  let biased2 := SignAndMagnitudeToBiased sam2 in
  if biased2 <=? biased1 then to_bits (biased1 - biased2) else to_bits (biased2 - biased1).

Definition AlmostEquals (b rhs : Z) : bool :=
  if is_nan b || is_nan rhs then false
  else DistanceBetweenSignAndMagnitudeNumbers b rhs <=? kMaxUlps.

(** * What the bits stand for *)

Definition bits_ok (b : Z) : Prop := 0 ≤ b < 2 ^ kBitCount.

(** The magnitude, and the position of the number on the line of all numbers of
    its format: both zeros are at 0. *)
Definition magnitude (b : Z) : Z := b `mod` 2 ^ (kBitCount - 1).
Definition negative (b : Z) : bool := 2 ^ (kBitCount - 1) <=? b.
Definition position (b : Z) : Z := if negative b then - magnitude b else magnitude b.

(** The value of a finite number, in units of the smallest positive one:
    subnormal numbers have exponent field 0 and no hidden bit. *)
Definition magnitude_value (m : Z) : Z :=
  let e := m `div` 2 ^ kFractionBitCount in
  let f := m `mod` 2 ^ kFractionBitCount in
  if e =? 0 then f else (2 ^ kFractionBitCount + f) * 2 ^ (e - 1).
Definition value (b : Z) : Z :=
  if negative b then - magnitude_value (magnitude b) else magnitude_value (magnitude b).

Definition finite (b : Z) : Prop := magnitude b < Infinity.

(** * The masks *)

Lemma kBitCount_big : 2 < kBitCount.
Proof. pose proof fraction_pos. pose proof exponent_pos. lia. Qed.

Lemma half_range : 2 ^ kBitCount = 2 * 2 ^ (kBitCount - 1).
Proof.
  pose proof kBitCount_big. rewrite -Z.pow_succ_r; [lia|]. f_equal. lia.
Qed.

Lemma half_pos : 0 < 2 ^ (kBitCount - 1).
Proof. pose proof kBitCount_big. apply Z.pow_pos_nonneg; lia. Qed.

Lemma fraction_half :
  2 ^ (kBitCount - 1) = 2 ^ kFractionBitCount * 2 ^ kExponentBitCount.
Proof.
  pose proof fraction_pos. pose proof exponent_pos. unfold kExponentBitCount.
  rewrite -Z.pow_add_r; [lia..|]. f_equal. lia.
Qed.

Lemma kSignBitMask_pow : kSignBitMask = 2 ^ (kBitCount - 1).
Proof.
  pose proof kBitCount_big. pose proof half_range. pose proof half_pos.
  rewrite /kSignBitMask /to_bits Z.shiftl_1_l Z.mod_small //. lia.
Qed.

Lemma kSignBitMask_shiftl : kSignBitMask = Z.shiftl 1 (kBitCount - 1).
Proof. by rewrite kSignBitMask_pow Z.shiftl_1_l. Qed.

Lemma bits_not_small z : bits_ok z → bits_not z = 2 ^ kBitCount - 1 - z.
Proof.
  intros Hz. unfold bits_not, to_bits, bits_ok in *. unfold Z.lnot.
  symmetry. apply (Z.mod_unique _ _ (-1)); lia.
Qed.

Lemma kFractionBitMask_ones : kFractionBitMask = Z.ones kFractionBitCount.
Proof.
  pose proof fraction_pos. pose proof exponent_pos. pose proof half_range. pose proof half_pos.
  rewrite /kFractionBitMask bits_not_small; [unfold bits_ok; lia|].
  replace (2 ^ kBitCount - 1 - 0) with (Z.ones kBitCount) by (rewrite Z.ones_equiv; lia).
  rewrite Z.shiftr_div_pow2; [unfold kExponentBitCount; lia|].
  rewrite Z.ones_div_pow2; [unfold kExponentBitCount; lia|]. f_equal. unfold kExponentBitCount. lia.
Qed.

Lemma kExponentBitMask_eq :
  kExponentBitMask = (2 ^ kExponentBitCount - 1) * 2 ^ kFractionBitCount.
Proof.
  pose proof fraction_pos as Hf. pose proof exponent_pos as He.
  pose proof half_range as Hw. pose proof half_pos as Hh. pose proof fraction_half as Hfh.
  assert (0 < 2 ^ kFractionBitCount) as Hfp by (apply Z.pow_pos_nonneg; lia).
  assert (2 ^ kFractionBitCount < 2 ^ (kBitCount - 1)) as Hlt by (apply Z.pow_lt_mono_r; lia).
  assert (Z.lor kSignBitMask kFractionBitMask =
          1 * 2 ^ (kBitCount - 1) + (2 ^ kFractionBitCount - 1)) as Hlor.
  { rewrite kSignBitMask_shiftl kFractionBitMask_ones lor_shiftl_add;
      rewrite ?Z.ones_equiv; lia. }
  rewrite /kExponentBitMask Hlor bits_not_small; [unfold bits_ok; lia|]. lia.
Qed.

Lemma land_shiftl a b n : 0 ≤ n → Z.land (Z.shiftl a n) b = Z.land a (b `div` 2 ^ n) * 2 ^ n.
Proof.
  intros Hn. rewrite -Z.shiftl_mul_pow2 // -Z.shiftr_div_pow2 //.
  apply Z.bits_inj'. intros i Hi. rewrite Z.land_spec.
  destruct (decide (i < n)) as [Hlt|Hge].
  - by rewrite !Z.shiftl_spec_low.
  - rewrite !Z.shiftl_spec ?Z.land_spec; [lia..|]. rewrite Z.shiftr_spec; [lia|].
    do 2 f_equal. lia.
Qed.

Lemma sign_land b : bits_ok b → (Z.land kSignBitMask b =? 0) = negb (negative b).
Proof.
  intros Hb. pose proof kBitCount_big. pose proof half_range. pose proof half_pos.
  unfold bits_ok, negative in *. rewrite kSignBitMask_shiftl land_shiftl; [lia|].
  destruct (Z.leb_spec (2 ^ (kBitCount - 1)) b) as [Hn|Hn]; simpl.
  - assert (b `div` 2 ^ (kBitCount - 1) = 1) as ->.
    { symmetry. apply (Z.div_unique _ _ _ (b - 2 ^ (kBitCount - 1))); lia. }
    apply Z.eqb_neq. change (Z.land 1 1) with 1. lia.
  - rewrite Z.div_small; [lia|done].
Qed.

Lemma position_small b : 0 ≤ b < 2 ^ (kBitCount - 1) → position b = b.
Proof.
  intros Hb. unfold position, negative, magnitude. destruct (Z.leb_spec (2 ^ (kBitCount - 1)) b); [lia|].
  by rewrite Z.mod_small.
Qed.

Lemma magnitude_neg b : bits_ok b → negative b = true → magnitude b = b - 2 ^ (kBitCount - 1).
Proof.
  intros Hb Hn%Z.leb_le. pose proof half_range. unfold bits_ok, magnitude in *.
  symmetry. apply (Z.mod_unique _ _ 1); lia.
Qed.

Lemma biased_position b :
  bits_ok b → SignAndMagnitudeToBiased b = 2 ^ (kBitCount - 1) + position b.
Proof.
  intros Hb. pose proof kBitCount_big. pose proof half_range. pose proof half_pos. unfold SignAndMagnitudeToBiased.
  rewrite sign_land // negb_involutive. unfold position. destruct (negative b) eqn:Hn.
  - rewrite magnitude_neg // bits_not_small //. apply Z.leb_le in Hn. unfold to_bits, bits_ok in *.
    rewrite Z.mod_small; lia.
  - apply Z.leb_gt in Hn. unfold bits_ok in Hb.
    rewrite kSignBitMask_shiftl lor_shiftl_add; [lia..|].
    rewrite /magnitude Z.mod_small; lia.
Qed.

Lemma magnitude_range b : 0 ≤ magnitude b < 2 ^ (kBitCount - 1).
Proof. apply Z.mod_pos_bound, half_pos. Qed.

Lemma position_range b : - 2 ^ (kBitCount - 1) < position b < 2 ^ (kBitCount - 1).
Proof. pose proof (magnitude_range b). pose proof half_pos. unfold position. destruct (negative b); lia. Qed.

(** The distance is the number of steps between the positions. *)
Lemma distance_position b c :
  bits_ok b → bits_ok c →
  DistanceBetweenSignAndMagnitudeNumbers b c = Z.abs (position b - position c).
Proof.
  intros Hb Hc. pose proof (position_range b). pose proof (position_range c).
  pose proof half_range. unfold DistanceBetweenSignAndMagnitudeNumbers.
  rewrite !biased_position //. destruct (Z.leb_spec (2 ^ (kBitCount - 1) + position c)
    (2 ^ (kBitCount - 1) + position b)); unfold to_bits; rewrite Z.mod_small; lia.
Qed.

(** The exponent and fraction fields. *)
Lemma exponent_bits_eq b :
  exponent_bits b = (magnitude b `div` 2 ^ kFractionBitCount) * 2 ^ kFractionBitCount.
Proof.
  pose proof fraction_pos. pose proof exponent_pos.
  rewrite /exponent_bits kExponentBitMask_eq /magnitude fraction_half.
  rewrite -Z.shiftl_mul_pow2; [lia|]. rewrite land_shiftl; [lia|]. f_equal.
  replace (2 ^ kExponentBitCount - 1) with (Z.ones kExponentBitCount) by (rewrite Z.ones_equiv; lia).
  rewrite Z.land_comm Z.land_ones; [unfold kExponentBitCount; lia|].
  assert (0 < 2 ^ kFractionBitCount) by (apply Z.pow_pos_nonneg; lia).
  assert (0 < 2 ^ kExponentBitCount)
    by (apply Z.pow_pos_nonneg; unfold kExponentBitCount; lia).
  rewrite Z.rem_mul_r; [lia..|]. rewrite (Z.mul_comm (2 ^ kFractionBitCount)) Z.div_add; [lia|].
  rewrite (Z.div_small (b `mod` 2 ^ kFractionBitCount)) //. by apply Z.mod_pos_bound.
Qed.

Lemma fraction_bits_eq b : fraction_bits b = magnitude b `mod` 2 ^ kFractionBitCount.
Proof.
  pose proof fraction_pos. pose proof exponent_pos.
  rewrite /fraction_bits kFractionBitMask_ones Z.land_comm Z.land_ones; [lia|].
  rewrite /magnitude fraction_half Z.mod_mod_divide //.
  by exists (2 ^ kExponentBitCount); rewrite Z.mul_comm.
Qed.

Lemma is_nan_magnitude b : is_nan b = (Infinity <? magnitude b).
Proof.
  pose proof fraction_pos. pose proof exponent_pos.
  pose proof (magnitude_range b) as Hm. rewrite fraction_half in Hm.
  rewrite /is_nan exponent_bits_eq fraction_bits_eq /Infinity kExponentBitMask_eq.
  set (P := 2 ^ kFractionBitCount) in *. set (Q := 2 ^ kExponentBitCount) in *.
  assert (0 < P) as HP by (apply Z.pow_pos_nonneg; lia).
  pose proof (Z.div_mod (magnitude b) P ltac:(lia)) as Hdm.
  pose proof (Z.mod_pos_bound (magnitude b) P HP) as Hr.
  set (e := magnitude b `div` P) in *. set (r := magnitude b `mod` P) in *.
  apply eq_true_iff_eq. rewrite andb_true_iff negb_true_iff Z.eqb_eq Z.eqb_neq Z.ltb_lt Hdm.
  split.
  - intros [He Hr0]. nia.
  - intros Hlt. assert (e < Q) by nia. assert (Q - 1 ≤ e) by nia. split; nia.
Qed.

(** * Values *)

Lemma magnitude_value_mono m n : 0 ≤ m → m < n → magnitude_value m < magnitude_value n.
Proof.
  intros Hm Hmn. pose proof fraction_pos. unfold magnitude_value.
  set (P := 2 ^ kFractionBitCount). assert (0 < P) as HP by (apply Z.pow_pos_nonneg; lia).
  pose proof (Z.div_mod m P ltac:(lia)) as Hdm. pose proof (Z.mod_pos_bound m P HP) as Hrm.
  pose proof (Z.div_mod n P ltac:(lia)) as Hdn. pose proof (Z.mod_pos_bound n P HP) as Hrn.
  pose proof (Z.div_pos m P ltac:(lia) HP) as He.
  set (e := m `div` P) in *. set (e' := n `div` P) in *.
  set (r := m `mod` P) in *. set (r' := n `mod` P) in *.
  assert (e ≤ e') as Hee by nia.
  destruct (Z.eqb_spec e 0) as [He0|He0], (Z.eqb_spec e' 0) as [He'|He'].
  - nia.
  - assert (0 < 2 ^ (e' - 1)) by (apply Z.pow_pos_nonneg; lia). nia.
  - lia.
  - assert (0 < 2 ^ (e - 1)) as Hp by (apply Z.pow_pos_nonneg; lia).
    destruct (decide (e = e')) as [<-|Hne]; [nia|].
    assert (2 ^ (e - 1) * 2 ≤ 2 ^ (e' - 1)) as Hpow.
    { transitivity (2 ^ e).
      - replace e with (Z.succ (e - 1)) at 2 by lia. rewrite Z.pow_succ_r; lia.
      - apply Z.pow_le_mono_r; lia. }
    nia.
Qed.

Lemma magnitude_value_zero : magnitude_value 0 = 0.
Proof. pose proof fraction_pos. unfold magnitude_value. rewrite Z.div_0_l ?Z.mod_0_l //; lia. Qed.

Definition signed_value (p : Z) : Z :=
  if p <? 0 then - magnitude_value (- p) else magnitude_value p.

Lemma value_position b : value b = signed_value (position b).
Proof.
  pose proof (magnitude_range b). unfold value, position, signed_value.
  destruct (negative b).
  - destruct (Z.ltb_spec (- magnitude b) 0) as [Hlt|Hge]; [by rewrite Z.opp_involutive|].
    replace (magnitude b) with 0 by lia. by rewrite Z.opp_0 magnitude_value_zero.
  - by destruct (Z.ltb_spec (magnitude b) 0); [lia|].
Qed.

Lemma signed_value_mono p q : p < q → signed_value p < signed_value q.
Proof.
  intros Hpq. pose proof magnitude_value_zero as H0. unfold signed_value.
  destruct (Z.ltb_spec p 0), (Z.ltb_spec q 0); [|..|by apply magnitude_value_mono]; [..|lia].
  - pose proof (magnitude_value_mono (- q) (- p)). lia.
  - pose proof (magnitude_value_mono 0 (- p)).
    destruct (decide (q = 0)) as [->|]; [lia|]. pose proof (magnitude_value_mono 0 q). lia.
Qed.

(** The order of the values is the order of the positions. *)
Lemma value_lt_position b c : value b < value c ↔ position b < position c.
Proof.
  rewrite !value_position. split; [|apply signed_value_mono]. intros Hv.
  destruct (decide (position b < position c)) as [|Hge]; [done|].
  destruct (decide (position b = position c)) as [He|Hne]; [rewrite He in Hv; lia|].
  pose proof (signed_value_mono (position c) (position b)). lia.
Qed.

Definition bits_at (p : Z) : Z := if p <? 0 then 2 ^ (kBitCount - 1) - p else p.

Lemma position_bits_at p :
  - 2 ^ (kBitCount - 1) < p < 2 ^ (kBitCount - 1) → bits_ok (bits_at p) ∧ position (bits_at p) = p.
Proof.
  intros Hp. pose proof half_range as Hh. unfold bits_at, bits_ok.
  destruct (Z.ltb_spec p 0) as [Hneg|Hpos].
  - split; [lia|]. assert (negative (2 ^ (kBitCount - 1) - p) = true) as Hn by (apply Z.leb_le; lia).
    rewrite /position Hn magnitude_neg //; unfold bits_ok; lia.
  - split; [lia|]. apply position_small. lia.
Qed.

(** The numbers whose value lies strictly between those of [b] and [c]. *)
Definition between (b c x : Z) : Prop :=
  bits_ok x ∧ (value b < value x < value c ∨ value c < value x < value b).

Lemma between_position b c x :
  between b c x ↔ bits_ok x ∧
    Z.min (position b) (position c) < position x < Z.max (position b) (position c).
Proof. unfold between. rewrite !value_lt_position. split; intros [? ?]; (split; [done|lia]). Qed.

Lemma NoDup_value_position l : NoDup (value <$> l) → NoDup (position <$> l).
Proof.
  assert (value <$> l = signed_value <$> (position <$> l)) as ->.
  { rewrite -list_fmap_compose. apply list_fmap_ext. intros i x _. apply value_position. }
  apply NoDup_fmap_1.
Qed.

Lemma between_few b c l :
  Forall (between b c) l → NoDup (value <$> l) →
  Z.of_nat (length l) ≤ Z.max 0 (Z.abs (position b - position c) - 1).
Proof.
  intros Hl Hnd%NoDup_value_position.
  set (lo := Z.min (position b) (position c)). set (hi := Z.max (position b) (position c)).
  assert (position <$> l ⊆+ seqZ (lo + 1) (hi - lo - 1)) as Hsub%submseteq_length.
  { apply NoDup_submseteq; [done|]. intros p (x & -> & Hx)%list_elem_of_fmap.
    rewrite Forall_forall in Hl. apply Hl in Hx. apply between_position in Hx.
    apply elem_of_seqZ. unfold lo, hi. lia. }
  rewrite length_fmap length_seqZ in Hsub. unfold lo, hi in *. lia.
Qed.

Lemma between_many b c n :
  Z.of_nat n < Z.abs (position b - position c) →
  ∃ l, length l = n ∧ Forall (between b c) l ∧ NoDup (value <$> l).
Proof.
  intros Hn. pose proof (position_range b). pose proof (position_range c).
  set (lo := Z.min (position b) (position c)).
  set (l := bits_at <$> seqZ (lo + 1) (Z.of_nat n)). exists l.
  assert (∀ p, p ∈ seqZ (lo + 1) (Z.of_nat n) → bits_ok (bits_at p) ∧ position (bits_at p) = p) as Hp.
  { intros p Hp%elem_of_seqZ. apply position_bits_at. lia. }
  split_and!.
  - unfold l. rewrite length_fmap length_seqZ. lia.
  - apply Forall_forall. intros x (p & -> & Hpin)%list_elem_of_fmap. apply between_position.
    destruct (Hp p Hpin) as [Hok ->]. split; [done|]. apply elem_of_seqZ in Hpin. lia.
  - assert (value <$> l = signed_value <$> seqZ (lo + 1) (Z.of_nat n)) as ->.
    { unfold l. rewrite -list_fmap_compose. apply list_fmap_ext.
      intros i p Hip. simpl. apply list_elem_of_lookup_2 in Hip.
      by rewrite value_position; destruct (Hp p Hip) as [_ ->]. }
    apply NoDup_fmap_2_strong; [|apply NoDup_seqZ]. intros p q _ _ Hpq.
    destruct (Z.lt_trichotomy p q) as [Hlt|[?|Hlt]]; [|done|];
      apply signed_value_mono in Hlt; lia.
Qed.

(** Two numbers are almost equal exactly when neither is a NaN and at most
    three numbers of their format have a value strictly between theirs: the
    distance of the biased representations counts the representable values. *)
Theorem almost_equals_between b c :
  bits_ok b → bits_ok c →
  AlmostEquals b c = true ↔
    is_nan b = false ∧ is_nan c = false ∧
    ∀ l, Forall (between b c) l → NoDup (value <$> l) → (length l ≤ 3)%nat.
Proof.
  intros Hb Hc. unfold AlmostEquals. rewrite distance_position //. unfold kMaxUlps.
  destruct (is_nan b); [naive_solver|]. destruct (is_nan c); [naive_solver|]. simpl.
  rewrite Z.leb_le. split.
  - intros Hd. split_and!; [done..|]. intros l Hl Hnd. pose proof (between_few b c l Hl Hnd). lia.
  - intros (_ & _ & Hl). destruct (decide (Z.abs (position b - position c) ≤ 4)) as [|Hgt]; [done|].
    destruct (between_many b c 4) as (l & Hlen & Hbt & Hnd); [lia|].
    specialize (Hl l Hbt Hnd). lia.
Qed.

(** The comparison is symmetric; a number is almost equal to itself unless it
    is a NaN; the two zeros are almost equal, and so are the largest finite number
    and infinity; a NaN is almost equal to nothing. *)
Theorem almost_equals_laws b c :
  bits_ok b → bits_ok c →
  AlmostEquals b c = AlmostEquals c b ∧
  AlmostEquals b b = negb (is_nan b) ∧
  (is_nan b = true → AlmostEquals b c = false) ∧
  AlmostEquals 0 kSignBitMask = true ∧ AlmostEquals Max Infinity = true.
Proof.
  intros Hb Hc. unfold AlmostEquals, kMaxUlps.
  pose proof half_range as Hh. pose proof half_pos as Hhp.
  assert (0 ≤ Infinity < 2 ^ (kBitCount - 1) ∧ 1 ≤ Infinity) as [Hinf Hinf1].
  { pose proof fraction_pos. pose proof exponent_pos. rewrite /Infinity kExponentBitMask_eq fraction_half.
    assert (2 ^ 1 ≤ 2 ^ kFractionBitCount) by (apply Z.pow_le_mono_r; lia).
    assert (2 ^ 1 ≤ 2 ^ kExponentBitCount) by (apply Z.pow_le_mono_r; unfold kExponentBitCount; lia).
    nia. }
  split_and!.
  - rewrite (distance_position b c) // (distance_position c b) // orb_comm. by replace (Z.abs (position c - position b)) with (Z.abs (position b - position c)) by lia.
  - rewrite distance_position // Z.sub_diag orb_diag. by destruct (is_nan b).
  - by intros ->.
  - rewrite distance_position; [unfold bits_ok; rewrite ?kSignBitMask_pow; lia..|].
    rewrite !is_nan_magnitude kSignBitMask_pow /magnitude Z.mod_0_l ?Z_mod_same_full; [lia|].
    rewrite (proj2 (Z.ltb_ge Infinity 0)); [lia|]. simpl.
    rewrite (position_small 0); [lia|]. unfold position, negative, magnitude.
    by rewrite Z_mod_same_full Z.leb_refl.
  - unfold Max. fold Infinity. rewrite distance_position; [unfold bits_ok; lia..|].
    rewrite !is_nan_magnitude /magnitude !Z.mod_small; [lia..|].
    rewrite (proj2 (Z.ltb_ge _ _)); [lia|]. rewrite Z.ltb_irrefl /=.
    rewrite !position_small; [lia..|]. apply Z.leb_le. lia.
Qed.
End FloatingPoint.

(** * The two formats *)

Definition Float : RawType.
Proof. refine {| kBitCount := 32; kFractionBitCount := 23 |}; lia. Defined.

Definition Double : RawType.
Proof. refine {| kBitCount := 64; kFractionBitCount := 52 |}; lia. Defined.

Example masks :
  kExponentBitMask (R := Float) = 2139095040 ∧ kFractionBitMask (R := Float) = 8388607 ∧
  Max (R := Double) = 9218868437227405311.
Proof. vm_compute. done. Qed.

(** 1.0f and the number four steps above it; five steps are too many; and
    almost-equality is not transitive. *)
Example not_transitive :
  AlmostEquals (R := Float) 1065353216 1065353220 = true ∧
  AlmostEquals (R := Float) 1065353220 1065353224 = true ∧
  AlmostEquals (R := Float) 1065353216 1065353224 = false.
Proof. vm_compute. done. Qed.

Lemma almost_equals_between_witness :
  AlmostEquals (R := Float) 1065353216 1065353220 = true ↔
    is_nan (R := Float) 1065353216 = false ∧ is_nan (R := Float) 1065353220 = false ∧
    ∀ l, Forall (between (R := Float) 1065353216 1065353220) l → NoDup (value (R := Float) <$> l) →
      (length l ≤ 3)%nat.
Proof. apply (almost_equals_between (R := Float)); split; vm_compute; congruence. Defined.

Lemma almost_equals_laws_witness :
  AlmostEquals (R := Double) 1 3 = AlmostEquals (R := Double) 3 1 ∧
  AlmostEquals (R := Double) 1 1 = negb (is_nan (R := Double) 1) ∧
  (is_nan (R := Double) 1 = true → AlmostEquals (R := Double) 1 3 = false) ∧
  AlmostEquals (R := Double) 0 (kSignBitMask (R := Double)) = true ∧
  AlmostEquals (R := Double) (Max (R := Double)) (Infinity (R := Double)) = true.
Proof. apply (almost_equals_laws (R := Double)); split; vm_compute; congruence. Defined.
