(* ===== verification/ParamGenerator.v ===== *)
(** Parameter generators of the bundled test library: the interface of
    generators and iterators, ranges and arrays of values
    (src/gtest/include/gtest/internal/gtest-param-util.h).

    An iterator belongs to its generator by its type, so the run-time check that
    two iterators have the same base generator is a typing rule here. [None] is
    the result of an operation the code must not be asked for: going past the end
    or reading there. *)

From S2P Require Import Prelude Machine.

(** * The interface *)

(** ParamGeneratorInterface<T> with the ParamIteratorInterface<T> of its
    iterators. [iterator_ok] is the invariant of its iterator class. *)
Record ParamGeneratorInterface (T : Type) : Type := Generator {
  iterator : Type;
  Begin : iterator;
  End : iterator;
  Advance : iterator → option iterator;
  Clone : iterator → iterator;
  Current : iterator → option T;
  Equals : iterator → iterator → bool;
  iterator_ok : iterator → Prop;
}.
Arguments iterator {T} _.
Arguments Begin {T} _.
Arguments End {T} _.
Arguments Advance {T} _ _.
Arguments Clone {T} _ _.
Arguments Current {T} _ _.
Arguments Equals {T} _ _ _.
Arguments iterator_ok {T} _ _.

Section ParamIterator.
Context {T : Type} (g : ParamGeneratorInterface T).

(** ParamIterator<T>: an owned iterator, copied by Clone. [same] tells that the
    two operands are one object. *)
Definition pi_copy (it : iterator g) : iterator g := Clone g it.
Definition pi_deref (it : iterator g) : option T := Current g it.
Definition pi_preincrement (it : iterator g) : option (iterator g) := Advance g it.
Definition pi_postincrement (it : iterator g) : option (iterator g * iterator g) :=
  let clone := Clone g it in
  it ← Advance g it; Some (it, clone).
Definition pi_eq (same : bool) (it other : iterator g) : bool := same || Equals g it other.
Definition pi_neq (same : bool) (it other : iterator g) : bool := negb (pi_eq same it other).

(** for (it = g.begin(); it != g.end(); ++it) visits [*it] for each element of
    the list. *)
Inductive enumerates : iterator g → list T → Prop :=
  | enumerates_end it : Equals g it (End g) = true → enumerates it []
  | enumerates_next it it' x l :
      Equals g it (End g) = false → Current g it = Some x → Advance g it = Some it' →
      enumerates it' l → enumerates it (x :: l).

Fixpoint collect (fuel : nat) (it : iterator g) : option (list T) :=
  if pi_neq false it (End g) then
    match fuel with
    | O => None
    | S fuel => x ← pi_deref it; it ← pi_preincrement it; l ← collect fuel it; Some (x :: l)
    end
  else Some [].
End ParamIterator.

(** What a generator promises: its elements, in order, from Begin; and clones
    that cannot be told from the original. *)
Class Yields {T} (g : ParamGeneratorInterface T) (l : list T) : Prop := {
  begin_enumerates : enumerates g (Begin g) l;
  begin_ok : iterator_ok g (Begin g);
  advance_ok it it' : iterator_ok g it → Advance g it = Some it' → iterator_ok g it';
  clone_ok it : iterator_ok g it → iterator_ok g (Clone g it);
  clone_enumerates it k :
    iterator_ok g it → enumerates g it k → enumerates g (Clone g it) k;
  clone_equals_l it it' : Equals g (Clone g it) it' = Equals g it it';
  clone_equals_r it it' : Equals g it (Clone g it') = Equals g it it';
  end_equals : Equals g (End g) (End g) = true;
}.

Section interface.
Context {T : Type} {g : ParamGeneratorInterface T}.

Lemma enumerates_det it l k : enumerates g it l → enumerates g it k → l = k.
Proof.
  intros Hl. revert k. induction Hl as [it He|it it' x l He Hx Hit _ IH]; intros k Hk;
    destruct Hk; try congruence.
  simplify_eq. f_equal. auto.
Qed.

Lemma enumerates_collect it l fuel :
  enumerates g it l → (length l ≤ fuel)%nat → collect g fuel it = Some l.
Proof.
  intros Hl. revert fuel. induction Hl as [it He|it it' x l He Hx Hit _ IH]; intros fuel Hf.
  - by destruct fuel; rewrite /= /pi_neq /pi_eq /= He.
  - destruct fuel as [|fuel]; [simpl in Hf; lia|].
    rewrite /= /pi_neq /pi_eq /= He /pi_deref Hx /= /pi_preincrement Hit /= IH //. simpl in Hf. lia.
Qed.

Lemma enumerates_cons_inv it x l :
  enumerates g it (x :: l) →
  Equals g it (End g) = false ∧ Current g it = Some x ∧
  ∃ it', Advance g it = Some it' ∧ enumerates g it' l.
Proof. inversion 1; subst. eauto 10. Qed.

Lemma enumerates_nil_inv it : enumerates g it [] → Equals g it (End g) = true.
Proof. by inversion 1. Qed.

Lemma enumerates_at_end it l :
  enumerates g it l → Equals g it (End g) = bool_decide (l = []).
Proof. by destruct 1; [rewrite bool_decide_eq_true_2|rewrite bool_decide_eq_false_2]. Qed.
End interface.

(** * RangeGenerator *)

(** A type with operator+(T, IncrementT), converted back to T, and operator<. *)
Class RangeOps (T IncrementT : Type) : Type := {
  range_add : T → IncrementT → T;
  range_lt : T → T → bool;
}.

Section RangeGenerator.
Context {T IncrementT : Type} {OPS : RangeOps T IncrementT}.

(** int ++. *)
Definition int_succ (n : Z) : option Z := if int_ok (n + 1) then Some (n + 1) else None.

(** The loop of CalculateEndIndex, from the value [i] and the count [end_index]. *)
Fixpoint end_index_loop (fuel : nat) (i end_ : T) (step : IncrementT) (end_index : Z)
    : outcome Z :=
  if range_lt i end_ then
    match fuel with
    | O => Unfinished
    | S fuel =>
      match int_succ end_index with
      | None => Undefined SignedOverflow
      | Some n => end_index_loop fuel (range_add i step) end_ step n
      end
    end
  else Done end_index.

Definition CalculateEndIndex (fuel : nat) (begin_ end_ : T) (step : IncrementT) : outcome Z :=
  end_index_loop fuel begin_ end_ step 0.

Record range_iterator : Type := RangeIterator { r_value : T; r_index : Z }.

Definition range_advance (step : IncrementT) (it : range_iterator) : option range_iterator :=
  n ← int_succ (r_index it); Some (RangeIterator (range_add (r_value it) step) n).

Definition range_equals (it other : range_iterator) : bool := r_index it =? r_index other.

(** The generator, with the end index its constructor computed. *)
Definition RangeGenerator (begin_ end_ : T) (step : IncrementT) (end_index : Z)
    : ParamGeneratorInterface T := {|
  iterator := range_iterator;
  Begin := RangeIterator begin_ 0;
  End := RangeIterator end_ end_index;
  Advance := range_advance step;
  Clone := λ it, it;
  Current := λ it, Some (r_value it);
  Equals := range_equals;
  iterator_ok _ := True;
|}.

Definition MakeRangeGenerator (fuel : nat) (begin_ end_ : T) (step : IncrementT)
    : outcome (ParamGeneratorInterface T) :=
  match CalculateEndIndex fuel begin_ end_ step with
  | Done n => Done (RangeGenerator begin_ end_ step n)
  | Undefined w => Undefined w
  | Exited c => Exited c
  | Aborted => Aborted
  | Thrown e => Thrown e
  | Unfinished => Unfinished
  end.

(** begin, begin + step, ... *)
Fixpoint range_values (n : nat) (i : T) (step : IncrementT) : list T :=
  match n with O => [] | S n => i :: range_values n (range_add i step) step end.

Fixpoint range_after (n : nat) (i : T) (step : IncrementT) : T :=
  match n with O => i | S n => range_after n (range_add i step) step end.

Lemma end_index_loop_done fuel i end_ step k n :
  end_index_loop fuel i end_ step k = Done n → INT_MIN ≤ k ≤ INT_MAX →
  k ≤ n ≤ INT_MAX ∧ Forall (λ x, range_lt x end_) (range_values (Z.to_nat (n - k)) i step) ∧
  range_lt (range_after (Z.to_nat (n - k)) i step) end_ = false.
Proof.
  revert i k. induction fuel as [|fuel IH]; intros i k; cbn [end_index_loop];
    destruct (range_lt i end_) eqn:Hlt; try done.
  - intros [= ->] Hk. rewrite Z.sub_diag. split_and!; [lia..|by constructor|done].
  - unfold int_succ, int_ok. case_bool_decide as Hok; [|done]. intros Hn Hk.
    apply IH in Hn as (Hle & Hall & Hend); [|done].
    replace (Z.to_nat (n - k)) with (S (Z.to_nat (n - (k + 1)))) by lia.
    split_and!; [lia..| |done]. constructor; [by rewrite Hlt|done].
  - intros [= ->] Hk. rewrite Z.sub_diag. split_and!; [lia..|by constructor|done].
Qed.

Lemma range_enumerates begin_ end_ step n m i :
  0 ≤ n ≤ INT_MAX → Z.of_nat m ≤ n →
  enumerates (RangeGenerator begin_ end_ step n) (RangeIterator i (n - Z.of_nat m))
    (range_values m i step).
Proof.
  intros Hn. revert i. induction m as [|m IH]; intros i Hm.
  - apply enumerates_end. apply Z.eqb_eq. cbn. lia.
  - eapply enumerates_next with (it' := RangeIterator (range_add i step) (n - Z.of_nat m)).
    + apply Z.eqb_neq. cbn. lia.
    + done.
    + cbn. unfold range_advance, int_succ, int_ok. cbn.
      rewrite bool_decide_eq_true_2; [unfold INT_MIN, INT_MAX in *; lia|].
      cbn. do 2 f_equal. lia.
    + apply IH. lia.
Qed.

#[export] Instance range_yields begin_ end_ step n :
  TCEq (bool_decide (0 ≤ n ≤ INT_MAX)) true →
  Yields (RangeGenerator begin_ end_ step n) (range_values (Z.to_nat n) begin_ step).
Proof.
  rewrite TCEq_eq bool_decide_eq_true. intros Hn. split; try done; [|by apply Z.eqb_eq].
  pose proof (range_enumerates begin_ end_ step n (Z.to_nat n) begin_ Hn) as He.
  rewrite Z2Nat.id in He; [lia|]. rewrite Z.sub_diag in He. apply He. lia.
Qed.
End RangeGenerator.

(** * ValuesInIteratorRangeGenerator *)

Section ValuesIn.
Context {T : Type}.

(** A position in the container and the cached value of the element there. *)
Record values_iterator : Type := ValuesIterator { v_pos : nat; v_cache : option T }.

Definition values_advance (container : list T) (it : values_iterator) : option values_iterator :=
  if bool_decide (v_pos it < length container)%nat
  then Some (ValuesIterator (S (v_pos it)) None) else None.

(** Current fills the cache; the position is where it reads. *)
Definition values_fill (container : list T) (it : values_iterator) : option values_iterator :=
  match v_cache it with
  | Some _ => Some it
  | None => x ← container !! v_pos it; Some (ValuesIterator (v_pos it) (Some x))
  end.
Definition values_current (container : list T) (it : values_iterator) : option T :=
  values_fill container it ≫= v_cache.

Definition values_equals (it other : values_iterator) : bool :=
  bool_decide (v_pos it = v_pos other).

(** The cache holds the element of its position. *)
Definition cache_ok (container : list T) (it : values_iterator) : Prop :=
  ∀ x, v_cache it = Some x → container !! v_pos it = Some x.

Definition ValuesIn (container : list T) : ParamGeneratorInterface T := {|
  iterator := values_iterator;
  Begin := ValuesIterator 0 None;
  End := ValuesIterator (length container) None;
  Advance := values_advance container;
  Clone := λ it, ValuesIterator (v_pos it) None;
  Current := values_current container;
  Equals := values_equals;
  iterator_ok := cache_ok container;
|}.

Lemma values_fill_current container it x :
  cache_ok container it → container !! v_pos it = Some x →
  ∃ it', values_fill container it = Some it' ∧ cache_ok container it' ∧
    v_pos it' = v_pos it ∧ values_current container it = Some x ∧
    values_current container it' = Some x.
Proof.
  intros Hc Hx. unfold values_current, values_fill. destruct (v_cache it) as [y|] eqn:Hy.
  - rewrite (Hc y Hy) in Hx. injection Hx as ->. exists it. by rewrite /= Hy.
  - rewrite Hx /=. eexists. split_and!; [done| |done..]. by intros z [= <-].
Qed.

Lemma values_enumerates container l k c :
  container = l ++ k → (∀ x, c = Some x → k !! 0%nat = Some x) →
  enumerates (ValuesIn container) (ValuesIterator (length l) c) k.
Proof.
  intros ->. revert l c. induction k as [|x k IH]; intros l c Hc.
  - apply enumerates_end. rewrite /= /values_equals bool_decide_eq_true_2 //=.
    by rewrite length_app Nat.add_0_r.
  - assert ((l ++ x :: k) !! length l = Some x) as Hx by by rewrite list_lookup_middle.
    eapply enumerates_next with (it' := ValuesIterator (S (length l)) None).
    + rewrite /= /values_equals bool_decide_eq_false_2 //=. rewrite length_app /=. lia.
    + destruct (values_fill_current (l ++ x :: k) (ValuesIterator (length l) c) x)
        as (_ & _ & _ & _ & H & _); [|done..].
      intros y Hy. apply Hc in Hy. by injection Hy as ->.
    + rewrite /= /values_advance bool_decide_eq_true_2 //=. rewrite length_app /=. lia.
    + rewrite cons_middle (app_assoc l [x] k). replace (S (length l)) with (length (l ++ [x])).
      * apply IH. done.
      * rewrite length_app /=. lia.
Qed.

#[export] Instance values_yields container : Yields (ValuesIn container) container.
Proof.
  split.
  - by apply (values_enumerates container [] container None).
  - done.
  - intros it it' _. cbn. unfold values_advance. case_bool_decide; [|done]. by intros [= <-].
  - done.
  - intros it k Hok Hk. destruct Hk as [it He|it it' x k He Hx Hit Hk].
    + by apply enumerates_end.
    + eapply enumerates_next; [done| |done|done].
      cbn in Hx |- *. unfold values_current, values_fill in *. cbn.
      destruct (v_cache it) as [y|] eqn:Hy; [|done]. rewrite /= Hy in Hx. by rewrite (Hok y Hy).
  - done.
  - done.
  - apply bool_decide_eq_true_2. done.
Qed.
End ValuesIn.

(** * Ranges and arrays *)

Section properties.
Context {T IncrementT : Type} {OPS : RangeOps T IncrementT}.

(** When the constructor of a range terminates, its generator yields begin,
    begin + step and so on, as long as the values are before the end, and stops at
    the first that is not; the index of the last iterator fits an int. *)
Theorem range_generator_values fuel begin_ end_ (step : IncrementT) (g : ParamGeneratorInterface T) :
  MakeRangeGenerator fuel begin_ end_ step = Done g →
  ∃ n : nat, Z.of_nat n ≤ INT_MAX ∧
    collect g n (Begin g) = Some (range_values n begin_ step) ∧
    Forall (λ x, range_lt x end_) (range_values n begin_ step) ∧
    range_lt (range_after n begin_ step) end_ = false.
Proof.
  unfold MakeRangeGenerator. destruct (CalculateEndIndex fuel begin_ end_ step) as [n| | | | |] eqn:Hn;
    try done.
  intros [= <-]. apply end_index_loop_done in Hn as (Hle & Hall & Hend); [|done].
  rewrite Z.sub_0_r in Hall, Hend. exists (Z.to_nat n). split_and!; [lia| |done..].
  assert (Yields (RangeGenerator begin_ end_ step n) (range_values (Z.to_nat n) begin_ step)) as HY.
  { apply range_yields. rewrite bool_decide_eq_true_2 //. }
  apply enumerates_collect; [apply begin_enumerates|].
  assert (∀ m i, length (range_values m i step) = m) as ->; [|done].
  intros m. induction m as [|m IH]; intros i; cbn; [done|]. by rewrite IH.
Qed.

(** An array generator yields the elements of its array in order; reading
    fills the cache of the iterator, which changes no later answer, and reading
    at the end of the array has no defined result. *)
Theorem values_in_array (container : list T) it :
  collect (ValuesIn container) (length container) (Begin (ValuesIn container)) = Some container ∧
  (iterator_ok (ValuesIn container) it →
   match values_fill container it with
   | Some it' => iterator_ok (ValuesIn container) it' ∧ values_equals it' it = true ∧
       Current (ValuesIn container) it' = Current (ValuesIn container) it ∧
       Current (ValuesIn container) it = container !! v_pos it
   | None => (length container ≤ v_pos it)%nat ∧ Current (ValuesIn container) it = None
   end).
Proof.
  split; [apply enumerates_collect; [apply begin_enumerates|done]|].
  intros Hok. cbn. unfold values_current, values_equals.
  destruct (container !! v_pos it) as [x|] eqn:Hx.
  - destruct (values_fill_current container it x Hok Hx) as (it' & Hf & Hok' & Hpos & Hc & Hc').
    rewrite Hf. split_and!; [done|by rewrite bool_decide_eq_true_2| |].
    + unfold values_current in Hc, Hc'. rewrite Hc' -Hc Hf //.
    + unfold values_current in Hc. by rewrite Hf in Hc.
  - unfold values_fill. destruct (v_cache it) as [y|] eqn:Hy.
    + apply Hok in Hy. congruence.
    + rewrite Hx /=. split; [by apply lookup_ge_None|done].
Qed.
End properties.

(** * Concrete ranges *)

(** Range over int, without wrap-around of the values. *)
#[local] Instance z_range : RangeOps Z Z := {|
  range_add x step := x + step;
  range_lt x y := bool_decide (x < y);
|}.

Lemma range_generator_values_witness :
  ∃ n : nat, Z.of_nat n ≤ INT_MAX ∧
    collect (RangeGenerator 1 10 4 3) n (Begin (RangeGenerator 1 10 4 3)) = Some (range_values n 1 4) ∧
    Forall (λ x, range_lt x 10) (range_values n 1 4) ∧ range_lt (range_after n 1 4) 10 = false.
Proof. apply (range_generator_values 10 1 10 4). reflexivity. Defined.

Lemma values_in_array_witness :
  collect (ValuesIn [4; 5]) 2 (Begin (ValuesIn [4; 5])) = Some [4; 5] ∧
  (iterator_ok (ValuesIn [4; 5]) (ValuesIterator 1 None) →
   match values_fill [4; 5] (ValuesIterator 1 None) with
   | Some it' => iterator_ok (ValuesIn [4; 5]) it' ∧ values_equals it' (ValuesIterator 1 None) = true ∧
       Current (ValuesIn [4; 5]) it' = Current (ValuesIn [4; 5]) (ValuesIterator 1 None) ∧
       Current (ValuesIn [4; 5]) (ValuesIterator 1 None) = [4; 5] !! 1%nat
   | None => (2 ≤ 1)%nat ∧ Current (ValuesIn [4; 5]) (ValuesIterator 1 None) = None
   end).
Proof. apply (values_in_array [4; 5] (ValuesIterator 1 None)). Defined.

(** A step that is not positive never reaches the end: the constructor hangs. *)
Example range_hangs fuel : MakeRangeGenerator fuel 0 10 (-1) = Unfinished ∨
  MakeRangeGenerator fuel 0 10 (-1) = Undefined SignedOverflow.
Proof.
  assert (∀ i k, i < 10 → end_index_loop fuel i 10 (-1) k = Unfinished ∨
    end_index_loop fuel i 10 (-1) k = Undefined SignedOverflow) as H.
  { induction fuel as [|fuel IH]; intros i k Hi; cbn [end_index_loop];
      (assert (range_lt i 10 = true) as -> by by apply bool_decide_eq_true_2); [by left|].
    destruct (int_succ k); [|by right]. apply IH. cbn. lia. }
  unfold MakeRangeGenerator, CalculateEndIndex.
  destruct (H 0 0) as [-> | ->]; [lia|by left|by right].
Qed.
