(* ===== verification/CartesianProduct.v ===== *)
(** The Cartesian products of generators of the bundled test library
    (src/gtest/include/gtest/internal/gtest-param-util-generated.h).

    The classes CartesianProductGenerator2 to 10 are generated from one template;
    here the template is a definition over a list of parameter types, and the
    classes are its instances. *)

From S2P Require Import Prelude ParamGenerator.

(** * Generators and tuples of a list of types *)

(** The generators g1_, ..., gn_: at least one. *)
Inductive gens : list Type → Type :=
  | gone {T : Type} : ParamGeneratorInterface T → gens [T]
  | gcons {T : Type} {Ts : list Type} : ParamGeneratorInterface T → gens Ts → gens (T :: Ts).

(** begin[i]_, end[i]_ and current[i]_. *)
Record component {T} (g : ParamGeneratorInterface T) : Type := Component {
  c_begin : iterator g;
  c_end : iterator g;
  c_current : iterator g;
}.
Arguments Component {T g} _ _ _.
Arguments c_begin {T g} _.
Arguments c_end {T g} _.
Arguments c_current {T g} _.

Fixpoint components {Ts} (gs : gens Ts) : Type :=
  match gs with
  | gone g => component g
  | gcons g gs => component g * components gs
  end.

(** * The class CartesianProductGenerator<N> *)

Section component.
Context {T : Type} {g : ParamGeneratorInterface T}.
Implicit Types c : component g.

(** One range of the constructor, whose parameter is [current]. *)
Definition new_component (current : iterator g) : component g :=
  Component (Begin g) (End g) (Clone g current).

Definition copy_component (c : component g) : component g :=
  Component (Clone g (c_begin c)) (Clone g (c_end c)) (Clone g (c_current c)).

Definition component_at_end (c : component g) : bool :=
  pi_eq g false (c_current c) (c_end c).

(** ++current[i]_. *)
Definition increment (c : component g) : option (component g) :=
  it ← pi_preincrement g (c_current c); Some (Component (c_begin c) (c_end c) it).

(** if (current[i]_ == end[i]_) { current[i]_ = begin[i]_; ... }: whether the
    range on its left is incremented. *)
Definition wrap (c : component g) : component g * bool :=
  if component_at_end c
  then (Component (c_begin c) (c_end c) (Clone g (c_begin c)), true) else (c, false).

Definition increment_if (b : bool) (c : component g) : option (component g) :=
  if b then increment c else Some c.
End component.

#[local] Arguments component_at_end : simpl never.
#[local] Arguments wrap : simpl never.
#[local] Arguments increment : simpl never.

Fixpoint begins {Ts} (gs : gens Ts) : components gs :=
  match gs with
  | gone g => new_component (Begin g)
  | gcons g gs => (new_component (Begin g), begins gs)
  end.

Fixpoint ends {Ts} (gs : gens Ts) : components gs :=
  match gs with
  | gone g => new_component (End g)
  | gcons g gs => (new_component (End g), ends gs)
  end.

Fixpoint copy_components {Ts} (gs : gens Ts) : components gs → components gs :=
  match gs with
  | gone g => copy_component
  | gcons g gs => λ cs, (copy_component (fst cs), copy_components gs (snd cs))
  end.

Fixpoint AtEnd {Ts} (gs : gens Ts) : components gs → bool :=
  match gs with
  | gone g => component_at_end
  | gcons g gs => λ cs, component_at_end (fst cs) || AtEnd gs (snd cs)
  end.

(** ParamType( *current1_, ..., *currentn_). *)
Fixpoint current_values {Ts} (gs : gens Ts) : components gs → option (tuple Ts) :=
  match gs with
  | gone g => λ c, x ← pi_deref g (c_current c); Some (x, ())
  | gcons g gs => λ cs,
    x ← pi_deref g (c_current (fst cs)); t ← current_values gs (snd cs); Some (x, t)
  end.

(** The increments of Advance to the right of the first range: the last range is
    incremented, and each range that reaches its end starts again and passes the
    increment to its left. *)
Fixpoint advance_tail {Ts} (gs : gens Ts) : components gs → option (components gs * bool) :=
  match gs with
  | gone g => λ c, c ← increment c; Some (wrap c)
  | gcons g gs => λ cs,
    '(cs', carry) ← advance_tail gs (snd cs);
    c ← increment_if carry (fst cs);
    let '(c, carry) := wrap c in Some ((c, cs'), carry)
  end.

(** The increments of Advance; the first range does not start again. *)
Definition advance_all {Ts} (gs : gens Ts) : components gs → option (components gs) :=
  match gs with
  | gone g => increment
  | gcons g gs => λ cs,
    '(cs', carry) ← advance_tail gs (snd cs);
    c ← increment_if carry (fst cs);
    Some (c, cs')
  end.

(** All currents are pairwise equal. *)
Fixpoint all_equal {Ts} (gs : gens Ts) : components gs → components gs → bool :=
  match gs with
  | gone g => λ c d, pi_eq g false (c_current c) (c_current d)
  | gcons g gs => λ cs ds,
    pi_eq g false (c_current (fst cs)) (c_current (fst ds)) && all_equal gs (snd cs) (snd ds)
  end.

Section product.
Context {Ts : list Type} (gs : gens Ts).

(** An iterator: its ranges and current_value_, which has no value before the
    first ComputeCurrentValue. *)
Record product_iterator : Type := ProductIterator {
  p_ranges : components gs;
  p_value : option (tuple Ts);
}.

(** An iterator whose current value was [old]; reading past an end is undefined. *)
Definition ComputeCurrentValue (cs : components gs) (old : option (tuple Ts)) : product_iterator :=
  if AtEnd gs cs then ProductIterator cs old
  else ProductIterator cs (current_values gs cs).

Definition product_advance (it : product_iterator) : option product_iterator :=
  if AtEnd gs (p_ranges it) then None     (* assert(!AtEnd()) *)
  else cs ← advance_all gs (p_ranges it); Some (ComputeCurrentValue cs (p_value it)).

Definition product_clone (it : product_iterator) : product_iterator :=
  ComputeCurrentValue (copy_components gs (p_ranges it)) None.

Definition product_equals (it other : product_iterator) : bool :=
  (AtEnd gs (p_ranges it) && AtEnd gs (p_ranges other)) ||
  all_equal gs (p_ranges it) (p_ranges other).
End product.
Arguments ProductIterator {Ts gs} _ _.
Arguments p_ranges {Ts gs} _.
Arguments p_value {Ts gs} _.

(** The invariant of the ranges of an iterator: ends that compare like the
    generator's, iterators that keep their own invariant, begins that still
    enumerate what the generator yields, and currents at some place of it. *)
Definition component_ok {T} {g : ParamGeneratorInterface T} (c : component g) : Prop :=
  iterator_ok g (c_begin c) ∧ iterator_ok g (c_current c) ∧
  (∀ it, Equals g it (c_end c) = Equals g it (End g)) ∧
  (∀ l, enumerates g (Begin g) l →
     enumerates g (c_begin c) l ∧ ∃ k, enumerates g (c_current c) k ∧ k `suffix_of` l).

Fixpoint components_ok {Ts} (gs : gens Ts) : components gs → Prop :=
  match gs with
  | gone g => component_ok
  | gcons g gs => λ cs, component_ok (fst cs) ∧ components_ok gs (snd cs)
  end.

Definition CartesianProduct {Ts} (gs : gens Ts) : ParamGeneratorInterface (tuple Ts) := {|
  iterator := product_iterator gs;
  Begin := ComputeCurrentValue gs (begins gs) None;
  End := ComputeCurrentValue gs (ends gs) None;
  Advance := product_advance gs;
  Clone := product_clone gs;
  Current := p_value;
  Equals := product_equals gs;
  iterator_ok it := components_ok gs (p_ranges it) ∧
    (AtEnd gs (p_ranges it) = false → p_value it = current_values gs (p_ranges it));
|}.

(** The generated classes. *)
Section instances.
Context {T1 T2 T3 T4 T5 T6 T7 T8 T9 T10 : Type}.
Context (g1 : ParamGeneratorInterface T1) (g2 : ParamGeneratorInterface T2)
  (g3 : ParamGeneratorInterface T3) (g4 : ParamGeneratorInterface T4)
  (g5 : ParamGeneratorInterface T5) (g6 : ParamGeneratorInterface T6)
  (g7 : ParamGeneratorInterface T7) (g8 : ParamGeneratorInterface T8)
  (g9 : ParamGeneratorInterface T9) (g10 : ParamGeneratorInterface T10).

Definition CartesianProductGenerator2 : ParamGeneratorInterface (tuple [T1; T2]) :=
  CartesianProduct (gcons g1 (gone g2)).
Definition CartesianProductGenerator3 : ParamGeneratorInterface (tuple [T1; T2; T3]) :=
  CartesianProduct (gcons g1 (gcons g2 (gone g3))).
Definition CartesianProductGenerator4 : ParamGeneratorInterface (tuple [T1; T2; T3; T4]) :=
  CartesianProduct (gcons g1 (gcons g2 (gcons g3 (gone g4)))).
Definition CartesianProductGenerator5 : ParamGeneratorInterface (tuple [T1; T2; T3; T4; T5]) :=
  CartesianProduct (gcons g1 (gcons g2 (gcons g3 (gcons g4 (gone g5))))).
Definition CartesianProductGenerator6 :
    ParamGeneratorInterface (tuple [T1; T2; T3; T4; T5; T6]) :=
  CartesianProduct (gcons g1 (gcons g2 (gcons g3 (gcons g4 (gcons g5 (gone g6)))))).
Definition CartesianProductGenerator7 :
    ParamGeneratorInterface (tuple [T1; T2; T3; T4; T5; T6; T7]) :=
  CartesianProduct (gcons g1 (gcons g2 (gcons g3 (gcons g4 (gcons g5 (gcons g6 (gone g7))))))).
Definition CartesianProductGenerator8 :
    ParamGeneratorInterface (tuple [T1; T2; T3; T4; T5; T6; T7; T8]) :=
  CartesianProduct
    (gcons g1 (gcons g2 (gcons g3 (gcons g4 (gcons g5 (gcons g6 (gcons g7 (gone g8)))))))).
Definition CartesianProductGenerator9 :
    ParamGeneratorInterface (tuple [T1; T2; T3; T4; T5; T6; T7; T8; T9]) :=
  CartesianProduct
    (gcons g1 (gcons g2 (gcons g3 (gcons g4 (gcons g5 (gcons g6 (gcons g7 (gcons g8
      (gone g9))))))))).
Definition CartesianProductGenerator10 :
    ParamGeneratorInterface (tuple [T1; T2; T3; T4; T5; T6; T7; T8; T9; T10]) :=
  CartesianProduct
    (gcons g1 (gcons g2 (gcons g3 (gcons g4 (gcons g5 (gcons g6 (gcons g7 (gcons g8
      (gcons g9 (gone g10)))))))))).
End instances.

(** * What a product yields *)

(** What each generator yields. *)
Fixpoint lists (Ts : list Type) : Type :=
  match Ts with [] => unit | T :: Ts => list T * lists Ts end.

Fixpoint product (Ts : list Type) : lists Ts → list (tuple Ts) :=
  match Ts with
  | [] => λ _, [()]
  | T :: Ts => λ ls, x ← fst ls; (λ t, (x, t)) <$> product Ts (snd ls)
  end.

Fixpoint all_yield {Ts} (gs : gens Ts) : lists Ts → Prop :=
  match gs with
  | gone g => λ ls, Yields g (fst ls)
  | gcons g gs => λ ls, Yields g (fst ls) ∧ all_yield gs (snd ls)
  end.

(** The tuples from the current one on, when range i has [ks] left of [ls]. *)
Fixpoint remaining (Ts : list Type) : lists Ts → lists Ts → list (tuple Ts) :=
  match Ts with
  | [] => λ _ _, [()]
  | T :: Ts => λ ks ls,
    match fst ks with
    | [] => []
    | x :: k => ((λ t, (x, t)) <$> remaining Ts (snd ks) (snd ls)) ++
                (y ← k; (λ t, (y, t)) <$> product Ts (snd ls))
    end
  end.

(** Range i has [ks] left; and none of the lists is empty. *)
Fixpoint left_over {Ts} (gs : gens Ts) : components gs → lists Ts → Prop :=
  match gs with
  | gone g => λ c ks, enumerates g (c_current c) (fst ks)
  | gcons g gs => λ cs ks,
    enumerates g (c_current (fst cs)) (fst ks) ∧ left_over gs (snd cs) (snd ks)
  end.

Fixpoint no_empty (Ts : list Type) : lists Ts → Prop :=
  match Ts with
  | [] => λ _, True
  | T :: Ts => λ ls, fst ls ≠ [] ∧ no_empty Ts (snd ls)
  end.

Section components.
Context {T : Type} {g : ParamGeneratorInterface T} {l : list T} {Y : Yields g l}.
Implicit Types c : component g.

Lemma component_at_end_eq c k :
  component_ok c → enumerates g (c_current c) k → component_at_end c = bool_decide (k = []).
Proof.
  intros (_ & _ & Hend & _) Hk. unfold component_at_end, pi_eq. rewrite orb_false_l Hend.
  by apply enumerates_at_end.
Qed.

Lemma increment_run c x k :
  component_ok c → enumerates g (c_current c) (x :: k) →
  ∃ c', increment c = Some c' ∧ component_ok c' ∧ enumerates g (c_current c') k ∧
    Current g (c_current c) = Some x.
Proof.
  intros (Hb & Hc & Hend & Hl) Hk. pose proof (enumerates_cons_inv _ _ _ Hk) as (He & Hx & it & Hit & Hk').
  unfold increment, pi_preincrement. rewrite Hit /=. eexists. split; [done|].
  split; [|done]. split_and!; cbn; [done|by eapply advance_ok|done|].
  intros l' Hl'. destruct (Hl l' Hl') as (Hbl & k' & Hk'' & Hsuf). split; [done|].
  exists k. split; [done|]. assert (k' = x :: k) as -> by by eapply enumerates_det.
  by eapply suffix_cons_l.
Qed.

Lemma wrap_run c k :
  component_ok c → enumerates g (c_current c) k → l ≠ [] →
  ∃ c' k', wrap c = (c', bool_decide (k = [])) ∧ component_ok c' ∧
    enumerates g (c_current c') k' ∧ k' = (if decide (k = []) then l else k).
Proof.
  intros Hok Hk Hl. unfold wrap. rewrite (component_at_end_eq _ _ Hok Hk).
  case_bool_decide as Hnil; case_decide; try done; [|by exists c, k].
  destruct Hok as (Hb & Hc & Hend & Hcl).
  destruct (Hcl l begin_enumerates) as (Hbl & _).
  assert (enumerates g (Clone g (c_begin c)) l) as Hcb by by apply clone_enumerates.
  eexists _, l. split; [done|]. split; [|done]. split_and!; cbn; [done|by apply clone_ok|done|].
  intros l' Hl'. assert (l' = l) as -> by (eapply enumerates_det; [done|apply begin_enumerates]).
  split; [done|]. by exists l.
Qed.

Lemma copy_component_ok c : component_ok c → component_ok (copy_component c).
Proof.
  intros (Hb & Hc & Hend & Hl). split_and!; cbn; [by apply clone_ok..| |].
  - intros it. by rewrite clone_equals_r.
  - intros l' Hl'. destruct (Hl l' Hl') as (Hbl & k & Hk & Hsuf).
    split; [by apply clone_enumerates|]. exists k. split; [|done]. by apply clone_enumerates.
Qed.

Lemma copy_component_left c k :
  component_ok c → enumerates g (c_current c) k →
  enumerates g (c_current (copy_component c)) k.
Proof. intros (_ & Hc & _) Hk. by apply clone_enumerates. Qed.

Lemma new_component_ok it k :
  iterator_ok g it → enumerates g it k → k `suffix_of` l → component_ok (new_component it).
Proof.
  intros Hit Hk Hsuf. split_and!; cbn; [apply begin_ok|by apply clone_ok|done|].
  intros l' Hl'. assert (l' = l) as -> by (eapply enumerates_det; [done|apply begin_enumerates]).
  split; [done|]. exists k. split; [|done]. by apply clone_enumerates.
Qed.

Lemma component_left c : component_ok c → ∃ k, enumerates g (c_current c) k ∧ k `suffix_of` l.
Proof. intros (_ & _ & _ & Hl). by destruct (Hl l begin_enumerates) as [_ ?]. Qed.
End components.

Section products.
Context {Ts : list Type}.

Lemma remaining_full (Us : list Type) (ls : lists Us) : remaining Us ls ls = product Us ls.
Proof.
  induction Us as [|U Us IH]; [done|]. destruct ls as [[|x l] ls]; [done|].
  cbn [remaining product fst snd]. by rewrite IH.
Qed.

Lemma no_empty_remaining (Us : list Type) (ks ls : lists Us) :
  no_empty Us ks → ∃ t r, remaining Us ks ls = t :: r.
Proof.
  revert ks ls. induction Us as [|U Us IH]; [by eexists _, _|].
  intros [[|x k] ks] [l ls] [Hk Hks]; [done|]. destruct (IH ks ls Hks) as (t & r & Hr).
  cbn [remaining fst snd]. rewrite Hr. by eexists _, _.
Qed.

Lemma product_empty (Us : list Type) (ls : lists Us) : ¬ no_empty Us ls → product Us ls = [].
Proof.
  induction Us as [|U Us IH]; [by intros []|]. destruct ls as [l ls]. cbn. intros Hne.
  destruct (decide (l = [])) as [->|Hl]; [done|].
  rewrite IH; [by intros ?; apply Hne|]. clear. by induction l.
Qed.
End products.

Lemma left_over_at_end {Ts} (gs : gens Ts) ls cs ks :
  all_yield gs ls → components_ok gs cs → left_over gs cs ks →
  AtEnd gs cs = true ↔ ¬ no_empty Ts ks.
Proof.
  induction gs as [T g|T Ts g gs IH]; cbn.
  - intros HY Hok Hk. rewrite (component_at_end_eq _ _ Hok Hk) bool_decide_eq_true. destruct (decide (fst ks = [])); tauto.
  - intros [HY Hgs] [Hok Hoks] [Hk Hks].
    rewrite orb_true_iff (component_at_end_eq _ _ Hok Hk) bool_decide_eq_true.
    rewrite (IH _ _ _ Hgs Hoks Hks). destruct (decide (fst ks = [])); tauto.
Qed.

Lemma no_empty_dec {Ts} (gs : gens Ts) ls cs ks :
  all_yield gs ls → components_ok gs cs → left_over gs cs ks →
  AtEnd gs cs = false → no_empty Ts ks.
Proof.
  induction gs as [T g|T Ts g gs IH]; cbn.
  - intros HY Hok Hk. rewrite (component_at_end_eq _ _ Hok Hk) bool_decide_eq_false. tauto.
  - intros [HY Hgs] [Hok Hoks] [Hk Hks] [H1 H2]%orb_false_iff.
    rewrite (component_at_end_eq _ _ Hok Hk) bool_decide_eq_false in H1.
    split; [done|]. by eapply IH.
Qed.

Lemma current_values_run {Ts} (gs : gens Ts) cs ks ls :
  left_over gs cs ks → no_empty Ts ks →
  ∃ t r, current_values gs cs = Some t ∧ remaining Ts ks ls = t :: r.
Proof.
  induction gs as [T g|T Ts g gs IH]; cbn [left_over no_empty current_values].
  - destruct ks as [[|x k] []]; cbn; intros Hk [Hne _]; [done|].
    apply enumerates_cons_inv in Hk as (_ & Hx & _). rewrite /pi_deref Hx /=. by eexists _, _.
  - destruct ks as [[|x k] ks]; cbn [fst snd]; intros [Hk Hks] [Hne Hnes]; [done|].
    destruct (IH (snd cs) ks (snd ls) Hks Hnes) as (t & r & Ht & Hr).
    apply enumerates_cons_inv in Hk as (_ & Hx & _).
    rewrite /pi_deref Hx /= Ht /=. cbn [remaining fst snd]. rewrite Hr. by eexists _, _.
Qed.

(** The increments right of the first range move to the next tuple, or back to
    the first one with a carry. *)
Lemma advance_tail_run {Ts} (gs : gens Ts) ls cs ks :
  all_yield gs ls → components_ok gs cs → left_over gs cs ks → no_empty Ts ks → no_empty Ts ls →
  ∃ cs' carry ks' t, advance_tail gs cs = Some (cs', carry) ∧ components_ok gs cs' ∧
    left_over gs cs' ks' ∧ no_empty Ts ks' ∧ (carry = true → ks' = ls) ∧
    remaining Ts ks ls = t :: (if carry then [] else remaining Ts ks' ls).
Proof.
  revert ls ks. induction gs as [T g|T Ts g gs IH].
  - intros [l []] [[|x k] []]; cbn; intros HY Hok Hk [Hne _] [Hl _]; [done|].
    destruct (increment_run _ _ _ Hok Hk) as (c & Hc & Hokc & Hkc & _). rewrite Hc /=.
    destruct (wrap_run _ _ Hokc Hkc Hl) as (c' & k' & Hw & Hok' & Hk' & Heq).
    rewrite Hw. exists c', (bool_decide (k = [])), (k', ()), (x, ()).
    split; [done|]. split; [done|]. split; [done|]. subst k'.
    case_decide as Hkn; (split; [done|]).
    + subst k. rewrite bool_decide_eq_true_2 //.
    + rewrite bool_decide_eq_false_2 //. split; [done|]. destruct k as [|y k]; done.
  - intros [l ls] [[|x k] ks]; cbn [left_over no_empty components_ok all_yield fst snd];
      intros [HY Hys] [Hok Hoks] [Hk Hks] [Hne Hnes] [Hl Hls]; [done|].
    destruct (IH (snd cs) ls ks) as (cs' & b & ks' & t & Hadv & Hok' & Hks' & Hne' & Hb & Hrem);
      [done..|].
    cbn [advance_tail]. rewrite Hadv /=. cbn [remaining fst snd]. rewrite Hrem. destruct b.
    + destruct (increment_run _ _ _ Hok Hk) as (c & Hc & Hokc & Hkc & _).
      rewrite /increment_if Hc /=.
      destruct (wrap_run _ _ Hokc Hkc Hl) as (c' & k' & Hw & Hokc' & Hkc' & Heq).
      rewrite Hw. specialize (Hb eq_refl). subst ks'.
      exists (c', cs'), (bool_decide (k = [])), (k', ls), (x, t). subst k'.
      split; [done|]. split; [done|]. split; [done|].
      case_decide as Hkn.
      * subst k. rewrite bool_decide_eq_true_2 //.
      * rewrite bool_decide_eq_false_2 //. split; [done|]. split; [done|].
        cbn [fst snd]. destruct k as [|y k]; [done|]. by rewrite remaining_full.
    + cbn [increment_if mbind option_bind].
      destruct (wrap_run _ _ Hok Hk Hl) as (c' & k' & Hw & Hokc' & Hkc' & Heq).
      rewrite Hw. exists (c', cs'), false, (x :: k, ks'), (x, t).
      simpl in Heq. subst k'. done.
Qed.

Lemma advance_all_run {Ts} (gs : gens Ts) ls cs ks :
  all_yield gs ls → components_ok gs cs → left_over gs cs ks → no_empty Ts ks → no_empty Ts ls →
  ∃ cs' ks' t, advance_all gs cs = Some cs' ∧ components_ok gs cs' ∧ left_over gs cs' ks' ∧
    remaining Ts ks ls = t :: (if AtEnd gs cs' then [] else remaining Ts ks' ls).
Proof.
  destruct gs as [T g|T Ts g gs].
  - destruct ls as [l []], ks as [[|x k] []]; cbn; intros HY Hok Hk [Hne _] [Hl _]; [done|].
    destruct (increment_run _ _ _ Hok Hk) as (c & Hc & Hokc & Hkc & _).
    exists c, (k, ()), (x, ()). rewrite Hc (component_at_end_eq _ _ Hokc Hkc).
    split_and!; [done..|]. by destruct k.
  - destruct ls as [l ls], ks as [[|x k] ks];
      cbn [left_over no_empty components_ok all_yield fst snd];
      intros [HY Hys] [Hok Hoks] [Hk Hks] [Hne Hnes] [Hl Hls]; [done|].
    destruct (advance_tail_run gs ls (snd cs) ks)
      as (cs' & b & ks' & t & Hadv & Hok' & Hks' & Hne' & Hb & Hrem); [done..|].
    cbn [advance_all AtEnd]. rewrite Hadv /=. cbn [remaining fst snd]. rewrite Hrem.
    assert (AtEnd gs cs' = false) as Hnend.
    { apply not_true_is_false. rewrite (left_over_at_end _ _ _ _ Hys Hok' Hks'). tauto. }
    destruct b.
    + destruct (increment_run _ _ _ Hok Hk) as (c & Hc & Hokc & Hkc & _).
      rewrite /increment_if Hc /=. specialize (Hb eq_refl). subst ks'.
      exists (c, cs'), (k, ls), (x, t). rewrite /= Hnend (component_at_end_eq _ _ Hokc Hkc) orb_false_r.
      split_and!; [done..|]. destruct k as [|y k]; [done|]. cbn. by rewrite remaining_full.
    + exists (fst cs, cs'), (x :: k, ks'), (x, t).
      rewrite /= Hnend (component_at_end_eq _ _ Hok Hk) orb_false_r. by split_and!.
Qed.

(** * The product of generators is a generator *)

Lemma at_end_ends {Ts} (gs : gens Ts) ls : all_yield gs ls → AtEnd gs (ends gs) = true.
Proof.
  assert (∀ T (g : ParamGeneratorInterface T) l, Yields g l →
    component_at_end (new_component (End g)) = true) as H.
  { intros T g l HY. unfold component_at_end, pi_eq. cbn. rewrite clone_equals_l.
    apply end_equals. }
  induction gs as [T g|T Ts g gs IH]; cbn; [apply H|]. intros [HY Hgs]. by rewrite (H _ _ _ HY).
Qed.

Lemma all_equal_ends {Ts} (gs : gens Ts) ls cs :
  all_yield gs ls → components_ok gs cs → all_equal gs cs (ends gs) = true → AtEnd gs cs = true.
Proof.
  assert (∀ T (g : ParamGeneratorInterface T) l (c : component g), Yields g l → component_ok c →
    Equals g (c_current c) (Clone g (End g)) = component_at_end c) as H.
  { intros T g l c HY (_ & _ & Hend & _). unfold component_at_end, pi_eq. cbn.
    by rewrite clone_equals_r Hend. }
  destruct gs as [T g|T Ts g gs]; cbn.
  - intros HY Hok. by rewrite (H _ _ _ _ HY Hok).
  - intros [HY _] [Hok _]. rewrite (H _ _ _ _ HY Hok). by destruct (component_at_end (fst cs)).
Qed.

Lemma components_left {Ts} (gs : gens Ts) ls cs :
  all_yield gs ls →
  components_ok gs cs → ∃ ks, left_over gs cs ks ∧ (no_empty Ts ks → no_empty Ts ls).
Proof.
  revert ls cs. induction gs as [T g|T Us g hs IH].
  - intros [l []] cs; cbn; intros HYg Hok. destruct (component_left _ Hok) as (k & Hk & Hsuf).
    exists (k, ()). split; [done|]. intros [Hne _]. split; [|done]. intros ->. cbn in *.
    apply suffix_nil_inv in Hsuf. done.
  - intros [l ms] cs; cbn; intros [HYg HYs] [Hok Hoks]. destruct (component_left _ Hok) as (k & Hk & Hsuf).
    destruct (IH ms (snd cs) HYs Hoks) as (ks & Hks & Hne). exists (k, ks).
    split; [done|]. intros [Hn Hns]. split; [|by apply Hne]. intros ->. cbn in *.
    apply suffix_nil_inv in Hsuf. done.
Qed.

Lemma begins_ok {Ts} (gs : gens Ts) ls :
  all_yield gs ls → components_ok gs (begins gs) ∧ left_over gs (begins gs) ls.
Proof.
  revert ls. induction gs as [T g|T Us g hs IH]; intros [l ms]; cbn.
  - intros HYg. split; [|apply clone_enumerates; [apply begin_ok|apply begin_enumerates]].
    eapply (new_component_ok (l := l)); [apply begin_ok|apply begin_enumerates|done].
  - intros [HYg HYs]. destruct (IH ms HYs) as [H1 H2]. split; (split; [|done]).
    + eapply (new_component_ok (l := l)); [apply begin_ok|apply begin_enumerates|done].
    + apply clone_enumerates; [apply begin_ok|apply begin_enumerates].
Qed.

Lemma copies_ok {Ts} (gs : gens Ts) ls cs :
  all_yield gs ls → components_ok gs cs → components_ok gs (copy_components gs cs).
Proof.
  revert ls cs. induction gs as [T g|T Us g hs IH]; intros [l ms] cs; cbn.
  - intros HYg. by apply (copy_component_ok (l := l)).
  - intros [HYg HYs] [H1 H2]. split; [by apply (copy_component_ok (l := l))|by eapply IH].
Qed.

Lemma copies_left {Ts} (gs : gens Ts) ls cs ks :
  all_yield gs ls →
  components_ok gs cs → left_over gs cs ks → left_over gs (copy_components gs cs) ks.
Proof.
  revert ls cs ks. induction gs as [T g|T Us g hs IH]; intros [l ms] cs ks; cbn.
  - intros HYg. by apply (copy_component_left (l := l)).
  - intros [HYg HYs] [H1 H2] [H3 H4].
    split; [by apply (copy_component_left (l := l))|by eapply IH].
Qed.

Lemma copies_at_end {Ts} (gs : gens Ts) ls cs :
  all_yield gs ls → AtEnd gs (copy_components gs cs) = AtEnd gs cs.
Proof.
  assert (∀ T (g : ParamGeneratorInterface T) l (c : component g), Yields g l →
    component_at_end (copy_component c) = component_at_end c) as H.
  { intros T g l c HYg. unfold component_at_end, pi_eq. cbn.
    by rewrite clone_equals_l clone_equals_r. }
  revert ls cs. induction gs as [T g|T Us g hs IH]; intros [l ms] cs; cbn.
  - apply H.
  - intros [HYg HYs]. by rewrite (H _ _ _ _ HYg) (IH _ _ HYs).
Qed.

Lemma copies_equal_l {Ts} (gs : gens Ts) ls cs ds :
  all_yield gs ls → all_equal gs (copy_components gs cs) ds = all_equal gs cs ds.
Proof.
  revert ls cs ds. induction gs as [T g|T Us g hs IH]; intros [l ms] cs ds; cbn.
  - intros HYg. unfold pi_eq. cbn. by rewrite clone_equals_l.
  - intros [HYg HYs]. unfold pi_eq. cbn. by rewrite clone_equals_l (IH _ _ _ HYs).
Qed.

Lemma copies_equal_r {Ts} (gs : gens Ts) ls cs ds :
  all_yield gs ls → all_equal gs cs (copy_components gs ds) = all_equal gs cs ds.
Proof.
  revert ls cs ds. induction gs as [T g|T Us g hs IH]; intros [l ms] cs ds; cbn.
  - intros HYg. unfold pi_eq. cbn. by rewrite clone_equals_r.
  - intros [HYg HYs]. unfold pi_eq. cbn. by rewrite clone_equals_r (IH _ _ _ HYs).
Qed.

Section yields.
Context {Ts : list Type} {gs : gens Ts} {ls : lists Ts} (HY : all_yield gs ls).

Lemma product_equals_end it :
  components_ok gs (p_ranges it) →
  product_equals gs it (End (CartesianProduct gs)) = AtEnd gs (p_ranges it).
Proof.
  intros Hok. unfold product_equals. cbn [End CartesianProduct].
  assert (p_ranges (ComputeCurrentValue gs (ends gs) None) = ends gs) as ->
    by (unfold ComputeCurrentValue; by destruct (AtEnd gs (ends gs))).
  rewrite (at_end_ends _ _ HY) andb_true_r.
  destruct (AtEnd gs (p_ranges it)) eqn:He; [done|]. apply not_true_is_false.
  intros Hall%(all_equal_ends _ _ _ HY Hok). congruence.
Qed.

Lemma product_enumerates n cs v ks :
  components_ok gs cs → left_over gs cs ks → (no_empty Ts ks → no_empty Ts ls) →
  (AtEnd gs cs = false → v = current_values gs cs) →
  (length (remaining Ts ks ls) ≤ n)%nat →
  enumerates (CartesianProduct gs) (ProductIterator cs v)
    (if AtEnd gs cs then [] else remaining Ts ks ls).
Proof.
  revert cs v ks. induction n as [|n IH]; intros cs v ks Hok Hks Hne Hv Hn;
    pose proof (product_equals_end (ProductIterator cs v) Hok) as Heq; cbn [p_ranges] in Heq;
    (destruct (AtEnd gs cs) eqn:He; [by apply enumerates_end|]);
    pose proof (no_empty_dec _ _ _ _ HY Hok Hks He) as Hnek;
    destruct (advance_all_run gs ls cs ks HY Hok Hks Hnek (Hne Hnek))
      as (cs' & ks' & t & Hadv & Hok' & Hks' & Hrem);
    rewrite Hrem in Hn; [simpl in Hn; lia|]. rewrite Hrem.
  destruct (current_values_run gs cs ks ls Hks Hnek) as (t' & r & Hcv & Hrem').
  rewrite Hrem in Hrem'. injection Hrem' as <- _.
  eapply enumerates_next; [exact Heq| | |].
  - cbn. by rewrite Hv.
  - cbn. unfold product_advance. cbn. by rewrite He Hadv.
  - unfold ComputeCurrentValue. destruct (AtEnd gs cs') eqn:He'.
    + apply enumerates_end. cbn. by rewrite product_equals_end.
    + specialize (IH cs' (current_values gs cs') ks'). rewrite He' in IH.
      apply IH; [done|done|by intros _; apply Hne|done|]. simpl in Hn. lia.
Qed.

Lemma advance_ok_tail cs :
  components_ok gs cs → AtEnd gs cs = false →
  ∃ cs', advance_all gs cs = Some cs' ∧ components_ok gs cs'.
Proof.
  intros Hok He. destruct (components_left _ _ cs HY Hok) as (ks & Hks & Hne).
  pose proof (no_empty_dec _ _ _ _ HY Hok Hks He) as Hnek.
  destruct (advance_all_run gs ls cs ks HY Hok Hks Hnek (Hne Hnek))
    as (cs' & _ & _ & Hadv & Hok' & _). by exists cs'.
Qed.

Lemma ranges_compute cs old : p_ranges (ComputeCurrentValue gs cs old) = cs.
Proof. unfold ComputeCurrentValue. by destruct (AtEnd gs cs). Qed.

Lemma value_compute cs old :
  AtEnd gs cs = false → p_value (ComputeCurrentValue gs cs old) = current_values gs cs.
Proof. unfold ComputeCurrentValue. by intros ->. Qed.

Lemma compute_enumerates cs old ks :
  components_ok gs cs → left_over gs cs ks → (no_empty Ts ks → no_empty Ts ls) →
  enumerates (CartesianProduct gs) (ComputeCurrentValue gs cs old)
    (if AtEnd gs cs then [] else remaining Ts ks ls).
Proof.
  intros Hok Hks Hne.
  assert (ComputeCurrentValue gs cs old =
    ProductIterator cs (p_value (ComputeCurrentValue gs cs old))) as ->.
  { unfold ComputeCurrentValue. by destruct (AtEnd gs cs). }
  eapply product_enumerates; [done..| |done]. apply value_compute.
Qed.

Lemma product_yields : Yields (CartesianProduct gs) (product Ts ls).
Proof.
  split.
  - destruct (begins_ok _ _ HY) as [Hok Hl].
    pose proof (compute_enumerates (begins gs) None ls Hok Hl) as He.
    destruct (AtEnd gs (begins gs)) eqn:Hend.
    + rewrite product_empty; [|by apply He]. by rewrite -(left_over_at_end _ _ _ _ HY Hok Hl).
    + rewrite -remaining_full. by apply He.
  - destruct (begins_ok _ _ HY) as [Hok Hl]. split; cbn; rewrite ranges_compute; [done|]. apply value_compute.
  - intros [cs v] it' [Hok Hv]. cbn. unfold product_advance. cbn in *.
    destruct (AtEnd gs cs) eqn:He; [done|].
    destruct (advance_ok_tail cs Hok He) as (cs' & -> & Hok'). intros [= <-].
    split; rewrite ranges_compute; [done|]. apply value_compute.
  - intros [cs v] [Hok Hv]. cbn in *. unfold product_clone.
    split; cbn; rewrite ranges_compute; [by eapply copies_ok|]. apply value_compute.
  - intros [cs v] k [Hok Hv] Hk. cbn in Hok, Hv.
    destruct (components_left _ _ cs HY Hok) as (ks & Hks & Hne).
    pose proof (product_enumerates _ cs v ks Hok Hks Hne Hv (le_n _)) as Hk'.
    rewrite (enumerates_det _ _ _ Hk Hk') -(copies_at_end _ _ _ HY). cbn. unfold product_clone.
    apply compute_enumerates; [by eapply copies_ok|by eapply copies_left|done].
  - intros [cs v] [ds w]. cbn. unfold product_equals, product_clone. cbn.
    by rewrite ranges_compute (copies_at_end _ _ _ HY) (copies_equal_l _ _ _ _ HY).
  - intros [cs v] [ds w]. cbn. unfold product_equals, product_clone. cbn.
    by rewrite ranges_compute (copies_at_end _ _ _ HY) (copies_equal_r _ _ _ _ HY).
  - cbn. unfold product_equals. by rewrite ranges_compute (at_end_ends _ _ HY).
Qed.
End yields.

(** The Cartesian product of generators is a generator: a loop over it visits
    every tuple of the components' values exactly as nested loops would, the last
    component fastest, and ends, also when a component is empty; a clone of any of
    its iterators visits what the original would. *)
Theorem cartesian_product_in_order {Ts : list Type} (gs : gens Ts) (ls : lists Ts) fuel it k :
  all_yield gs ls → (length (product Ts ls) ≤ fuel)%nat →
  iterator_ok (CartesianProduct gs) it → enumerates (CartesianProduct gs) it k →
  (length k ≤ fuel)%nat →
  collect (CartesianProduct gs) fuel (Begin (CartesianProduct gs)) = Some (product Ts ls) ∧
  collect (CartesianProduct gs) fuel (Clone (CartesianProduct gs) it) =
    collect (CartesianProduct gs) fuel it.
Proof.
  intros HY Hf Hok Hk Hkf. pose proof (product_yields HY) as Hp. split.
  - apply enumerates_collect; [apply begin_enumerates|done].
  - rewrite (enumerates_collect it k) //.
    rewrite (enumerates_collect (Clone (CartesianProduct gs) it) k) //. by apply clone_enumerates.
Qed.

(** * Concrete products *)

#[local] Instance int_range : RangeOps Z Z := {|
  range_add x step := x + step;
  range_lt x y := bool_decide (x < y);
|}.

Definition three_types : list Type := [Z : Type; bool : Type; Z : Type].

Definition three : gens three_types :=
  gcons (RangeGenerator 0 5 2 3) (gcons (ValuesIn [true; false]) (gone (ValuesIn [7]))).

Lemma cartesian_product_in_order_witness :
  collect (CartesianProduct three) 6 (Begin (CartesianProduct three)) =
    Some [(0, (true, (7, ()))); (0, (false, (7, ()))); (2, (true, (7, ())));
          (2, (false, (7, ()))); (4, (true, (7, ()))); (4, (false, (7, ())))] ∧
  collect (CartesianProduct three) 6 (Clone (CartesianProduct three) (Begin (CartesianProduct three))) =
    collect (CartesianProduct three) 6 (Begin (CartesianProduct three)).
Proof.
  assert (all_yield three ([0; 2; 4], ([true; false], ([7], ())))) as HY.
  { split; [|split; cbn; apply values_yields].
    exact (range_yields (OPS := int_range) 0 5 2 3 (TCEq_refl true)). }
  apply (cartesian_product_in_order three ([0; 2; 4], ([true; false], ([7], ()))) 6
    (Begin (CartesianProduct three)) (product three_types ([0; 2; 4], ([true; false], ([7], ()))))).
  - exact HY.
  - cbn. lia.
  - apply (begin_ok (Yields := product_yields HY)).
  - apply (begin_enumerates (Yields := product_yields HY)).
  - cbn. lia.
Defined.

(** One empty component makes the product empty. *)
Example empty_component :
  collect (CartesianProductGenerator3 (ValuesIn [1; 2]) (ValuesIn (T := Z) []) (ValuesIn [3])) 5
    (Begin (CartesianProductGenerator3 (ValuesIn [1; 2]) (ValuesIn (T := Z) []) (ValuesIn [3]))) = Some [].
Proof. reflexivity. Qed.
