(* ===== verification/ParamValues.v ===== *)
(** The functions that make parameter generators in the bundled test library:
    Range, ValuesIn, Values, Bool and Combine of
    src/gtest/include/gtest/gtest-param-test.h, with the classes ValueArray1 to 50
    and CartesianProductHolder2 to 10 of internal/gtest-param-util-generated.h.

    The fifty ValueArray classes are generated from one template, which is a
    definition over a list of types here; the classes and the overloads of Values
    are its instances. A static_cast between the types of the user is the class
    [StaticCast] of Prelude.v. *)

From S2P Require Import Prelude Machine ParamGenerator CartesianProduct.

(** * Conversions *)

(** static_cast<ParamGenerator<T> >(g) for a g of type G: a generator, or an object
    with a conversion operator. *)
Class ToGenerator (G T : Type) : Type := static_cast_generator : G → ParamGeneratorInterface T.
Definition to_generator {G} (T : Type) `{!ToGenerator G T} (g : G) : ParamGeneratorInterface T :=
  static_cast_generator g.

#[export] Instance generator_to_generator {T} : ToGenerator (ParamGeneratorInterface T) T := λ g, g.

(** A cast from each type of a list to one type. *)
Inductive StaticCasts (T : Type) : list Type → Type :=
  | casts_nil : StaticCasts T []
  | casts_cons {S : Type} {Ts : list Type} :
      StaticCast S T → StaticCasts T Ts → StaticCasts T (S :: Ts).
Existing Class StaticCasts.
#[export] Existing Instances casts_nil casts_cons.
Arguments casts_nil {T}.
Arguments casts_cons {T S Ts} _ _.

(** * Ranges and containers *)

Section ranges.
Context {T IncrementT : Type}.

(** Range(start, end, step) and Range(start, end), which counts by the int 1. *)
Definition Range `{!RangeOps T IncrementT} (fuel : nat) (start end_ : T) (step : IncrementT)
    : outcome (ParamGeneratorInterface T) := MakeRangeGenerator fuel start end_ step.
Definition Range1 `{!RangeOps T Z} (fuel : nat) (start end_ : T)
    : outcome (ParamGeneratorInterface T) := MakeRangeGenerator fuel start end_ 1.

(** ValuesIn(begin, end), for two positions of a sequence of values: the generator
    copies what is between them. *)
Definition ValuesIn_range (values : list T) (begin_ end_ : nat) : ParamGeneratorInterface T :=
  ValuesIn (take (end_ - begin_) (drop begin_ values)).

(** ValuesIn(array) and ValuesIn(container). *)
Definition ValuesIn_array (array : list T) : ParamGeneratorInterface T :=
  ValuesIn_range array 0 (length array).
Definition ValuesIn_container (container : list T) : ParamGeneratorInterface T :=
  ValuesIn_range container 0 (length container).
End ranges.

(** * The template of ValueArray *)

(** The members v1_, ..., vn_. *)
Record value_array (Ts : list Type) : Type := ValueArray { members : tuple Ts }.
Arguments ValueArray {Ts} _.
Arguments members {Ts} _.

(** The constructor: v1_(v1), ..., vn_(vn). *)
Definition new_value_array (Ts : list Type) : curried Ts (value_array Ts) :=
  curry_tuple Ts ValueArray.

(** {static_cast<T>(v1_), ..., static_cast<T>(vn_)}. *)
Fixpoint cast_members {T : Type} {Ts : list Type} (C : StaticCasts T Ts) : tuple Ts → list T :=
  match C with
  | casts_nil => λ _, []
  | casts_cons cast casts => λ vs, cast (fst vs) :: cast_members casts (snd vs)
  end.

(** operator ParamGenerator<T>(). *)
#[export] Instance value_array_to_generator {T} {Ts} {C : StaticCasts T Ts} :
    ToGenerator (value_array Ts) T := λ a, ValuesIn_array (cast_members C (members a)).

(** * The generated classes and functions *)

Section instances.
Context {T1 T2 T3 T4 T5 T6 T7 T8 T9 T10 T11 T12 T13 T14 T15 T16 T17 T18 T19 T20 T21 T22 T23 T24
  T25 T26 T27 T28 T29 T30 T31 T32 T33 T34 T35 T36 T37 T38 T39 T40 T41 T42 T43 T44 T45 T46 T47
  T48 T49 T50 : Type}.

Definition ValueArray1 : Type := value_array [T1].
Definition ValueArray2 : Type := value_array [T1; T2].
Definition ValueArray3 : Type := value_array [T1; T2; T3].
Definition ValueArray4 : Type := value_array [T1; T2; T3; T4].
Definition ValueArray5 : Type := value_array [T1; T2; T3; T4; T5].
Definition ValueArray6 : Type := value_array [T1; T2; T3; T4; T5; T6].
Definition ValueArray7 : Type := value_array [T1; T2; T3; T4; T5; T6; T7].
Definition ValueArray8 : Type := value_array [T1; T2; T3; T4; T5; T6; T7; T8].
Definition ValueArray9 : Type := value_array [T1; T2; T3; T4; T5; T6; T7; T8; T9].
Definition ValueArray10 : Type := value_array [T1; T2; T3; T4; T5; T6; T7; T8; T9; T10].
Definition ValueArray11 : Type := value_array [T1; T2; T3; T4; T5; T6; T7; T8; T9; T10; T11].
Definition ValueArray12 : Type := value_array [T1; T2; T3; T4; T5; T6; T7; T8; T9; T10; T11;
    T12].
Definition ValueArray13 : Type := value_array [T1; T2; T3; T4; T5; T6; T7; T8; T9; T10; T11;
    T12; T13].
Definition ValueArray14 : Type := value_array [T1; T2; T3; T4; T5; T6; T7; T8; T9; T10; T11;
    T12; T13; T14].
Definition ValueArray15 : Type := value_array [T1; T2; T3; T4; T5; T6; T7; T8; T9; T10; T11;
    T12; T13; T14; T15].
Definition ValueArray16 : Type := value_array [T1; T2; T3; T4; T5; T6; T7; T8; T9; T10; T11;
    T12; T13; T14; T15; T16].
Definition ValueArray17 : Type := value_array [T1; T2; T3; T4; T5; T6; T7; T8; T9; T10; T11;
    T12; T13; T14; T15; T16; T17].
Definition ValueArray18 : Type := value_array [T1; T2; T3; T4; T5; T6; T7; T8; T9; T10; T11;
    T12; T13; T14; T15; T16; T17; T18].
Definition ValueArray19 : Type := value_array [T1; T2; T3; T4; T5; T6; T7; T8; T9; T10; T11;
    T12; T13; T14; T15; T16; T17; T18; T19].
Definition ValueArray20 : Type := value_array [T1; T2; T3; T4; T5; T6; T7; T8; T9; T10; T11;
    T12; T13; T14; T15; T16; T17; T18; T19; T20].
Definition ValueArray21 : Type := value_array [T1; T2; T3; T4; T5; T6; T7; T8; T9; T10; T11;
    T12; T13; T14; T15; T16; T17; T18; T19; T20; T21].
Definition ValueArray22 : Type := value_array [T1; T2; T3; T4; T5; T6; T7; T8; T9; T10; T11;
    T12; T13; T14; T15; T16; T17; T18; T19; T20; T21; T22].
Definition ValueArray23 : Type := value_array [T1; T2; T3; T4; T5; T6; T7; T8; T9; T10; T11;
    T12; T13; T14; T15; T16; T17; T18; T19; T20; T21; T22; T23].
Definition ValueArray24 : Type := value_array [T1; T2; T3; T4; T5; T6; T7; T8; T9; T10; T11;
    T12; T13; T14; T15; T16; T17; T18; T19; T20; T21; T22; T23; T24].
Definition ValueArray25 : Type := value_array [T1; T2; T3; T4; T5; T6; T7; T8; T9; T10; T11;
    T12; T13; T14; T15; T16; T17; T18; T19; T20; T21; T22; T23; T24; T25].
Definition ValueArray26 : Type := value_array [T1; T2; T3; T4; T5; T6; T7; T8; T9; T10; T11;
    T12; T13; T14; T15; T16; T17; T18; T19; T20; T21; T22; T23; T24; T25; T26].
Definition ValueArray27 : Type := value_array [T1; T2; T3; T4; T5; T6; T7; T8; T9; T10; T11;
    T12; T13; T14; T15; T16; T17; T18; T19; T20; T21; T22; T23; T24; T25; T26; T27].
Definition ValueArray28 : Type := value_array [T1; T2; T3; T4; T5; T6; T7; T8; T9; T10; T11;
    T12; T13; T14; T15; T16; T17; T18; T19; T20; T21; T22; T23; T24; T25; T26; T27; T28].
Definition ValueArray29 : Type := value_array [T1; T2; T3; T4; T5; T6; T7; T8; T9; T10; T11;
    T12; T13; T14; T15; T16; T17; T18; T19; T20; T21; T22; T23; T24; T25; T26; T27; T28; T29].
Definition ValueArray30 : Type := value_array [T1; T2; T3; T4; T5; T6; T7; T8; T9; T10; T11;
    T12; T13; T14; T15; T16; T17; T18; T19; T20; T21; T22; T23; T24; T25; T26; T27; T28; T29;
    T30].
Definition ValueArray31 : Type := value_array [T1; T2; T3; T4; T5; T6; T7; T8; T9; T10; T11;
    T12; T13; T14; T15; T16; T17; T18; T19; T20; T21; T22; T23; T24; T25; T26; T27; T28; T29;
    T30; T31].
Definition ValueArray32 : Type := value_array [T1; T2; T3; T4; T5; T6; T7; T8; T9; T10; T11;
    T12; T13; T14; T15; T16; T17; T18; T19; T20; T21; T22; T23; T24; T25; T26; T27; T28; T29;
    T30; T31; T32].
Definition ValueArray33 : Type := value_array [T1; T2; T3; T4; T5; T6; T7; T8; T9; T10; T11;
    T12; T13; T14; T15; T16; T17; T18; T19; T20; T21; T22; T23; T24; T25; T26; T27; T28; T29;
    T30; T31; T32; T33].
Definition ValueArray34 : Type := value_array [T1; T2; T3; T4; T5; T6; T7; T8; T9; T10; T11;
    T12; T13; T14; T15; T16; T17; T18; T19; T20; T21; T22; T23; T24; T25; T26; T27; T28; T29;
    T30; T31; T32; T33; T34].
Definition ValueArray35 : Type := value_array [T1; T2; T3; T4; T5; T6; T7; T8; T9; T10; T11;
    T12; T13; T14; T15; T16; T17; T18; T19; T20; T21; T22; T23; T24; T25; T26; T27; T28; T29;
    T30; T31; T32; T33; T34; T35].
Definition ValueArray36 : Type := value_array [T1; T2; T3; T4; T5; T6; T7; T8; T9; T10; T11;
    T12; T13; T14; T15; T16; T17; T18; T19; T20; T21; T22; T23; T24; T25; T26; T27; T28; T29;
    T30; T31; T32; T33; T34; T35; T36].
Definition ValueArray37 : Type := value_array [T1; T2; T3; T4; T5; T6; T7; T8; T9; T10; T11;
    T12; T13; T14; T15; T16; T17; T18; T19; T20; T21; T22; T23; T24; T25; T26; T27; T28; T29;
    T30; T31; T32; T33; T34; T35; T36; T37].
Definition ValueArray38 : Type := value_array [T1; T2; T3; T4; T5; T6; T7; T8; T9; T10; T11;
    T12; T13; T14; T15; T16; T17; T18; T19; T20; T21; T22; T23; T24; T25; T26; T27; T28; T29;
    T30; T31; T32; T33; T34; T35; T36; T37; T38].
Definition ValueArray39 : Type := value_array [T1; T2; T3; T4; T5; T6; T7; T8; T9; T10; T11;
    T12; T13; T14; T15; T16; T17; T18; T19; T20; T21; T22; T23; T24; T25; T26; T27; T28; T29;
    T30; T31; T32; T33; T34; T35; T36; T37; T38; T39].
Definition ValueArray40 : Type := value_array [T1; T2; T3; T4; T5; T6; T7; T8; T9; T10; T11;
    T12; T13; T14; T15; T16; T17; T18; T19; T20; T21; T22; T23; T24; T25; T26; T27; T28; T29;
    T30; T31; T32; T33; T34; T35; T36; T37; T38; T39; T40].
Definition ValueArray41 : Type := value_array [T1; T2; T3; T4; T5; T6; T7; T8; T9; T10; T11;
    T12; T13; T14; T15; T16; T17; T18; T19; T20; T21; T22; T23; T24; T25; T26; T27; T28; T29;
    T30; T31; T32; T33; T34; T35; T36; T37; T38; T39; T40; T41].
Definition ValueArray42 : Type := value_array [T1; T2; T3; T4; T5; T6; T7; T8; T9; T10; T11;
    T12; T13; T14; T15; T16; T17; T18; T19; T20; T21; T22; T23; T24; T25; T26; T27; T28; T29;
    T30; T31; T32; T33; T34; T35; T36; T37; T38; T39; T40; T41; T42].
Definition ValueArray43 : Type := value_array [T1; T2; T3; T4; T5; T6; T7; T8; T9; T10; T11;
    T12; T13; T14; T15; T16; T17; T18; T19; T20; T21; T22; T23; T24; T25; T26; T27; T28; T29;
    T30; T31; T32; T33; T34; T35; T36; T37; T38; T39; T40; T41; T42; T43].
Definition ValueArray44 : Type := value_array [T1; T2; T3; T4; T5; T6; T7; T8; T9; T10; T11;
    T12; T13; T14; T15; T16; T17; T18; T19; T20; T21; T22; T23; T24; T25; T26; T27; T28; T29;
    T30; T31; T32; T33; T34; T35; T36; T37; T38; T39; T40; T41; T42; T43; T44].
Definition ValueArray45 : Type := value_array [T1; T2; T3; T4; T5; T6; T7; T8; T9; T10; T11;
    T12; T13; T14; T15; T16; T17; T18; T19; T20; T21; T22; T23; T24; T25; T26; T27; T28; T29;
    T30; T31; T32; T33; T34; T35; T36; T37; T38; T39; T40; T41; T42; T43; T44; T45].
Definition ValueArray46 : Type := value_array [T1; T2; T3; T4; T5; T6; T7; T8; T9; T10; T11;
    T12; T13; T14; T15; T16; T17; T18; T19; T20; T21; T22; T23; T24; T25; T26; T27; T28; T29;
    T30; T31; T32; T33; T34; T35; T36; T37; T38; T39; T40; T41; T42; T43; T44; T45; T46].
Definition ValueArray47 : Type := value_array [T1; T2; T3; T4; T5; T6; T7; T8; T9; T10; T11;
    T12; T13; T14; T15; T16; T17; T18; T19; T20; T21; T22; T23; T24; T25; T26; T27; T28; T29;
    T30; T31; T32; T33; T34; T35; T36; T37; T38; T39; T40; T41; T42; T43; T44; T45; T46; T47].
Definition ValueArray48 : Type := value_array [T1; T2; T3; T4; T5; T6; T7; T8; T9; T10; T11;
    T12; T13; T14; T15; T16; T17; T18; T19; T20; T21; T22; T23; T24; T25; T26; T27; T28; T29;
    T30; T31; T32; T33; T34; T35; T36; T37; T38; T39; T40; T41; T42; T43; T44; T45; T46; T47;
    T48].
Definition ValueArray49 : Type := value_array [T1; T2; T3; T4; T5; T6; T7; T8; T9; T10; T11;
    T12; T13; T14; T15; T16; T17; T18; T19; T20; T21; T22; T23; T24; T25; T26; T27; T28; T29;
    T30; T31; T32; T33; T34; T35; T36; T37; T38; T39; T40; T41; T42; T43; T44; T45; T46; T47;
    T48; T49].
Definition ValueArray50 : Type := value_array [T1; T2; T3; T4; T5; T6; T7; T8; T9; T10; T11;
    T12; T13; T14; T15; T16; T17; T18; T19; T20; T21; T22; T23; T24; T25; T26; T27; T28; T29;
    T30; T31; T32; T33; T34; T35; T36; T37; T38; T39; T40; T41; T42; T43; T44; T45; T46; T47;
    T48; T49; T50].

(** Values(v1, ..., vn). *)
Definition Values1 := new_value_array [T1].
Definition Values2 := new_value_array [T1; T2].
Definition Values3 := new_value_array [T1; T2; T3].
Definition Values4 := new_value_array [T1; T2; T3; T4].
Definition Values5 := new_value_array [T1; T2; T3; T4; T5].
Definition Values6 := new_value_array [T1; T2; T3; T4; T5; T6].
Definition Values7 := new_value_array [T1; T2; T3; T4; T5; T6; T7].
Definition Values8 := new_value_array [T1; T2; T3; T4; T5; T6; T7; T8].
Definition Values9 := new_value_array [T1; T2; T3; T4; T5; T6; T7; T8; T9].
Definition Values10 := new_value_array [T1; T2; T3; T4; T5; T6; T7; T8; T9; T10].
Definition Values11 := new_value_array [T1; T2; T3; T4; T5; T6; T7; T8; T9; T10; T11].
Definition Values12 := new_value_array [T1; T2; T3; T4; T5; T6; T7; T8; T9; T10; T11; T12].
Definition Values13 := new_value_array [T1; T2; T3; T4; T5; T6; T7; T8; T9; T10; T11; T12; T13].
Definition Values14 := new_value_array [T1; T2; T3; T4; T5; T6; T7; T8; T9; T10; T11; T12; T13;
    T14].
Definition Values15 := new_value_array [T1; T2; T3; T4; T5; T6; T7; T8; T9; T10; T11; T12; T13;
    T14; T15].
Definition Values16 := new_value_array [T1; T2; T3; T4; T5; T6; T7; T8; T9; T10; T11; T12; T13;
    T14; T15; T16].
Definition Values17 := new_value_array [T1; T2; T3; T4; T5; T6; T7; T8; T9; T10; T11; T12; T13;
    T14; T15; T16; T17].
Definition Values18 := new_value_array [T1; T2; T3; T4; T5; T6; T7; T8; T9; T10; T11; T12; T13;
    T14; T15; T16; T17; T18].
Definition Values19 := new_value_array [T1; T2; T3; T4; T5; T6; T7; T8; T9; T10; T11; T12; T13;
    T14; T15; T16; T17; T18; T19].
Definition Values20 := new_value_array [T1; T2; T3; T4; T5; T6; T7; T8; T9; T10; T11; T12; T13;
    T14; T15; T16; T17; T18; T19; T20].
Definition Values21 := new_value_array [T1; T2; T3; T4; T5; T6; T7; T8; T9; T10; T11; T12; T13;
    T14; T15; T16; T17; T18; T19; T20; T21].
Definition Values22 := new_value_array [T1; T2; T3; T4; T5; T6; T7; T8; T9; T10; T11; T12; T13;
    T14; T15; T16; T17; T18; T19; T20; T21; T22].
Definition Values23 := new_value_array [T1; T2; T3; T4; T5; T6; T7; T8; T9; T10; T11; T12; T13;
    T14; T15; T16; T17; T18; T19; T20; T21; T22; T23].
Definition Values24 := new_value_array [T1; T2; T3; T4; T5; T6; T7; T8; T9; T10; T11; T12; T13;
    T14; T15; T16; T17; T18; T19; T20; T21; T22; T23; T24].
Definition Values25 := new_value_array [T1; T2; T3; T4; T5; T6; T7; T8; T9; T10; T11; T12; T13;
    T14; T15; T16; T17; T18; T19; T20; T21; T22; T23; T24; T25].
Definition Values26 := new_value_array [T1; T2; T3; T4; T5; T6; T7; T8; T9; T10; T11; T12; T13;
    T14; T15; T16; T17; T18; T19; T20; T21; T22; T23; T24; T25; T26].
Definition Values27 := new_value_array [T1; T2; T3; T4; T5; T6; T7; T8; T9; T10; T11; T12; T13;
    T14; T15; T16; T17; T18; T19; T20; T21; T22; T23; T24; T25; T26; T27].
Definition Values28 := new_value_array [T1; T2; T3; T4; T5; T6; T7; T8; T9; T10; T11; T12; T13;
    T14; T15; T16; T17; T18; T19; T20; T21; T22; T23; T24; T25; T26; T27; T28].
Definition Values29 := new_value_array [T1; T2; T3; T4; T5; T6; T7; T8; T9; T10; T11; T12; T13;
    T14; T15; T16; T17; T18; T19; T20; T21; T22; T23; T24; T25; T26; T27; T28; T29].
Definition Values30 := new_value_array [T1; T2; T3; T4; T5; T6; T7; T8; T9; T10; T11; T12; T13;
    T14; T15; T16; T17; T18; T19; T20; T21; T22; T23; T24; T25; T26; T27; T28; T29; T30].
Definition Values31 := new_value_array [T1; T2; T3; T4; T5; T6; T7; T8; T9; T10; T11; T12; T13;
    T14; T15; T16; T17; T18; T19; T20; T21; T22; T23; T24; T25; T26; T27; T28; T29; T30; T31].
Definition Values32 := new_value_array [T1; T2; T3; T4; T5; T6; T7; T8; T9; T10; T11; T12; T13;
    T14; T15; T16; T17; T18; T19; T20; T21; T22; T23; T24; T25; T26; T27; T28; T29; T30; T31;
    T32].
Definition Values33 := new_value_array [T1; T2; T3; T4; T5; T6; T7; T8; T9; T10; T11; T12; T13;
    T14; T15; T16; T17; T18; T19; T20; T21; T22; T23; T24; T25; T26; T27; T28; T29; T30; T31;
    T32; T33].
Definition Values34 := new_value_array [T1; T2; T3; T4; T5; T6; T7; T8; T9; T10; T11; T12; T13;
    T14; T15; T16; T17; T18; T19; T20; T21; T22; T23; T24; T25; T26; T27; T28; T29; T30; T31;
    T32; T33; T34].
Definition Values35 := new_value_array [T1; T2; T3; T4; T5; T6; T7; T8; T9; T10; T11; T12; T13;
    T14; T15; T16; T17; T18; T19; T20; T21; T22; T23; T24; T25; T26; T27; T28; T29; T30; T31;
    T32; T33; T34; T35].
Definition Values36 := new_value_array [T1; T2; T3; T4; T5; T6; T7; T8; T9; T10; T11; T12; T13;
    T14; T15; T16; T17; T18; T19; T20; T21; T22; T23; T24; T25; T26; T27; T28; T29; T30; T31;
    T32; T33; T34; T35; T36].
Definition Values37 := new_value_array [T1; T2; T3; T4; T5; T6; T7; T8; T9; T10; T11; T12; T13;
    T14; T15; T16; T17; T18; T19; T20; T21; T22; T23; T24; T25; T26; T27; T28; T29; T30; T31;
    T32; T33; T34; T35; T36; T37].
Definition Values38 := new_value_array [T1; T2; T3; T4; T5; T6; T7; T8; T9; T10; T11; T12; T13;
    T14; T15; T16; T17; T18; T19; T20; T21; T22; T23; T24; T25; T26; T27; T28; T29; T30; T31;
    T32; T33; T34; T35; T36; T37; T38].
Definition Values39 := new_value_array [T1; T2; T3; T4; T5; T6; T7; T8; T9; T10; T11; T12; T13;
    T14; T15; T16; T17; T18; T19; T20; T21; T22; T23; T24; T25; T26; T27; T28; T29; T30; T31;
    T32; T33; T34; T35; T36; T37; T38; T39].
Definition Values40 := new_value_array [T1; T2; T3; T4; T5; T6; T7; T8; T9; T10; T11; T12; T13;
    T14; T15; T16; T17; T18; T19; T20; T21; T22; T23; T24; T25; T26; T27; T28; T29; T30; T31;
    T32; T33; T34; T35; T36; T37; T38; T39; T40].
Definition Values41 := new_value_array [T1; T2; T3; T4; T5; T6; T7; T8; T9; T10; T11; T12; T13;
    T14; T15; T16; T17; T18; T19; T20; T21; T22; T23; T24; T25; T26; T27; T28; T29; T30; T31;
    T32; T33; T34; T35; T36; T37; T38; T39; T40; T41].
Definition Values42 := new_value_array [T1; T2; T3; T4; T5; T6; T7; T8; T9; T10; T11; T12; T13;
    T14; T15; T16; T17; T18; T19; T20; T21; T22; T23; T24; T25; T26; T27; T28; T29; T30; T31;
    T32; T33; T34; T35; T36; T37; T38; T39; T40; T41; T42].
Definition Values43 := new_value_array [T1; T2; T3; T4; T5; T6; T7; T8; T9; T10; T11; T12; T13;
    T14; T15; T16; T17; T18; T19; T20; T21; T22; T23; T24; T25; T26; T27; T28; T29; T30; T31;
    T32; T33; T34; T35; T36; T37; T38; T39; T40; T41; T42; T43].
Definition Values44 := new_value_array [T1; T2; T3; T4; T5; T6; T7; T8; T9; T10; T11; T12; T13;
    T14; T15; T16; T17; T18; T19; T20; T21; T22; T23; T24; T25; T26; T27; T28; T29; T30; T31;
    T32; T33; T34; T35; T36; T37; T38; T39; T40; T41; T42; T43; T44].
Definition Values45 := new_value_array [T1; T2; T3; T4; T5; T6; T7; T8; T9; T10; T11; T12; T13;
    T14; T15; T16; T17; T18; T19; T20; T21; T22; T23; T24; T25; T26; T27; T28; T29; T30; T31;
    T32; T33; T34; T35; T36; T37; T38; T39; T40; T41; T42; T43; T44; T45].
Definition Values46 := new_value_array [T1; T2; T3; T4; T5; T6; T7; T8; T9; T10; T11; T12; T13;
    T14; T15; T16; T17; T18; T19; T20; T21; T22; T23; T24; T25; T26; T27; T28; T29; T30; T31;
    T32; T33; T34; T35; T36; T37; T38; T39; T40; T41; T42; T43; T44; T45; T46].
Definition Values47 := new_value_array [T1; T2; T3; T4; T5; T6; T7; T8; T9; T10; T11; T12; T13;
    T14; T15; T16; T17; T18; T19; T20; T21; T22; T23; T24; T25; T26; T27; T28; T29; T30; T31;
    T32; T33; T34; T35; T36; T37; T38; T39; T40; T41; T42; T43; T44; T45; T46; T47].
Definition Values48 := new_value_array [T1; T2; T3; T4; T5; T6; T7; T8; T9; T10; T11; T12; T13;
    T14; T15; T16; T17; T18; T19; T20; T21; T22; T23; T24; T25; T26; T27; T28; T29; T30; T31;
    T32; T33; T34; T35; T36; T37; T38; T39; T40; T41; T42; T43; T44; T45; T46; T47; T48].
Definition Values49 := new_value_array [T1; T2; T3; T4; T5; T6; T7; T8; T9; T10; T11; T12; T13;
    T14; T15; T16; T17; T18; T19; T20; T21; T22; T23; T24; T25; T26; T27; T28; T29; T30; T31;
    T32; T33; T34; T35; T36; T37; T38; T39; T40; T41; T42; T43; T44; T45; T46; T47; T48; T49].
Definition Values50 := new_value_array [T1; T2; T3; T4; T5; T6; T7; T8; T9; T10; T11; T12; T13;
    T14; T15; T16; T17; T18; T19; T20; T21; T22; T23; T24; T25; T26; T27; T28; T29; T30; T31;
    T32; T33; T34; T35; T36; T37; T38; T39; T40; T41; T42; T43; T44; T45; T46; T47; T48; T49;
    T50].
End instances.

(** Bool(). *)
#[export] Instance bool_cast : StaticCast bool bool := λ b, b.
Definition Bool : ParamGeneratorInterface bool := to_generator bool (Values2 false true).

(** CartesianProductHolder<N>, with the conversion to a generator of tuples, and
    Combine. *)
Section holders.
Context {G1 G2 G3 G4 G5 G6 G7 G8 G9 G10 T1 T2 T3 T4 T5 T6 T7 T8 T9 T10 : Type}.
Context {C1 : ToGenerator G1 T1} {C2 : ToGenerator G2 T2} {C3 : ToGenerator G3 T3}
  {C4 : ToGenerator G4 T4} {C5 : ToGenerator G5 T5} {C6 : ToGenerator G6 T6}
  {C7 : ToGenerator G7 T7} {C8 : ToGenerator G8 T8} {C9 : ToGenerator G9 T9}
  {C10 : ToGenerator G10 T10}.
Context (g1 : G1) (g2 : G2) (g3 : G3) (g4 : G4) (g5 : G5) (g6 : G6) (g7 : G7) (g8 : G8)
  (g9 : G9) (g10 : G10).

Definition CartesianProductHolder2 : ParamGeneratorInterface (tuple [T1; T2]) :=
  CartesianProductGenerator2 (to_generator T1 g1) (to_generator T2 g2).
Definition CartesianProductHolder3 : ParamGeneratorInterface (tuple [T1; T2; T3]) :=
  CartesianProductGenerator3 (to_generator T1 g1) (to_generator T2 g2) (to_generator T3 g3).
Definition CartesianProductHolder4 : ParamGeneratorInterface (tuple [T1; T2; T3; T4]) :=
  CartesianProductGenerator4 (to_generator T1 g1) (to_generator T2 g2) (to_generator T3 g3)
    (to_generator T4 g4).
Definition CartesianProductHolder5 : ParamGeneratorInterface (tuple [T1; T2; T3; T4; T5]) :=
  CartesianProductGenerator5 (to_generator T1 g1) (to_generator T2 g2) (to_generator T3 g3)
    (to_generator T4 g4) (to_generator T5 g5).
Definition CartesianProductHolder6 : ParamGeneratorInterface (tuple [T1; T2; T3; T4; T5; T6]) :=
  CartesianProductGenerator6 (to_generator T1 g1) (to_generator T2 g2) (to_generator T3 g3)
    (to_generator T4 g4) (to_generator T5 g5) (to_generator T6 g6).
Definition CartesianProductHolder7 :
    ParamGeneratorInterface (tuple [T1; T2; T3; T4; T5; T6; T7]) :=
  CartesianProductGenerator7 (to_generator T1 g1) (to_generator T2 g2) (to_generator T3 g3)
    (to_generator T4 g4) (to_generator T5 g5) (to_generator T6 g6) (to_generator T7 g7).
Definition CartesianProductHolder8 :
    ParamGeneratorInterface (tuple [T1; T2; T3; T4; T5; T6; T7; T8]) :=
  CartesianProductGenerator8 (to_generator T1 g1) (to_generator T2 g2) (to_generator T3 g3)
    (to_generator T4 g4) (to_generator T5 g5) (to_generator T6 g6) (to_generator T7 g7)
    (to_generator T8 g8).
Definition CartesianProductHolder9 :
    ParamGeneratorInterface (tuple [T1; T2; T3; T4; T5; T6; T7; T8; T9]) :=
  CartesianProductGenerator9 (to_generator T1 g1) (to_generator T2 g2) (to_generator T3 g3)
    (to_generator T4 g4) (to_generator T5 g5) (to_generator T6 g6) (to_generator T7 g7)
    (to_generator T8 g8) (to_generator T9 g9).
Definition CartesianProductHolder10 :
    ParamGeneratorInterface (tuple [T1; T2; T3; T4; T5; T6; T7; T8; T9; T10]) :=
  CartesianProductGenerator10 (to_generator T1 g1) (to_generator T2 g2) (to_generator T3 g3)
    (to_generator T4 g4) (to_generator T5 g5) (to_generator T6 g6) (to_generator T7 g7)
    (to_generator T8 g8) (to_generator T9 g9) (to_generator T10 g10).

Definition Combine2 : ParamGeneratorInterface (tuple [T1; T2]) := CartesianProductHolder2.
Definition Combine3 : ParamGeneratorInterface (tuple [T1; T2; T3]) := CartesianProductHolder3.
Definition Combine4 :
    ParamGeneratorInterface (tuple [T1; T2; T3; T4]) := CartesianProductHolder4.
Definition Combine5 :
    ParamGeneratorInterface (tuple [T1; T2; T3; T4; T5]) := CartesianProductHolder5.
Definition Combine6 :
    ParamGeneratorInterface (tuple [T1; T2; T3; T4; T5; T6]) := CartesianProductHolder6.
Definition Combine7 :
    ParamGeneratorInterface (tuple [T1; T2; T3; T4; T5; T6; T7]) := CartesianProductHolder7.
Definition Combine8 :
    ParamGeneratorInterface (tuple [T1; T2; T3; T4; T5; T6; T7; T8]) := CartesianProductHolder8.
Definition Combine9 :
    ParamGeneratorInterface (tuple [T1; T2; T3; T4; T5; T6; T7; T8; T9]) := CartesianProductHolder9.
Definition Combine10 :
    ParamGeneratorInterface (tuple [T1; T2; T3; T4; T5; T6; T7; T8; T9; T10]) := CartesianProductHolder10.
End holders.

(** * What they yield *)

Lemma uncurry_curry_tuple {R : Type} Ts (f : tuple Ts → R) vs :
  uncurry_tuple Ts (curry_tuple Ts f) vs = f vs.
Proof.
  revert f. induction Ts as [|T Ts IH]; intros f; [by destruct vs|].
  destruct vs as [v vs]. apply (IH vs (λ vs, f (v, vs))).
Qed.

Lemma members_new {Ts} (vs : tuple Ts) :
  members (uncurry_tuple Ts (new_value_array Ts) vs) = vs.
Proof. by rewrite uncurry_curry_tuple. Qed.

Lemma length_cast_members {T Ts} (C : StaticCasts T Ts) (vs : tuple Ts) :
  length (cast_members C vs) = length Ts.
Proof. induction C as [|S Ts cast C IH]; [done|]. destruct vs as [v vs]. cbn. by rewrite IH. Qed.

Section yields.
Context {T : Type}.
Implicit Types l : list T.

#[export] Instance range_slice_yields l b e : Yields (ValuesIn_range l b e) (take (e - b) (drop b l)).
Proof. apply values_yields. Qed.

#[export] Instance array_yields l : Yields (ValuesIn_array l) l.
Proof.
  unfold ValuesIn_array. pose proof (range_slice_yields l 0 (length l)) as H.
  by rewrite Nat.sub_0_r drop_0 firstn_all in H.
Qed.

#[export] Instance container_yields l : Yields (ValuesIn_container l) l.
Proof. apply array_yields. Qed.

#[export] Instance value_array_yields {Ts} (C : StaticCasts T Ts) (a : value_array Ts) :
  Yields (to_generator T a) (cast_members C (members a)).
Proof. apply array_yields. Qed.
End yields.

#[export] Instance bool_yields : Yields Bool [false; true].
Proof. apply (value_array_yields (casts_cons bool_cast (casts_cons bool_cast casts_nil))). Qed.

(** The rows of a product, one for each value of its first list. *)
Lemma product_length {T Ts} (l : list T) (ls : lists Ts) :
  length (product (T :: Ts) (l, ls)) = (length l * length (product Ts ls))%nat.
Proof. apply rows_length. intros x. by rewrite length_fmap. Qed.

Lemma product_lookup {T Ts} (l : list T) (ls : lists Ts) i j x t :
  l !! i = Some x → product Ts ls !! j = Some t →
  product (T :: Ts) (l, ls) !! (i * length (product Ts ls) + j)%nat = Some (x, t).
Proof.
  intros Hi Hj. cbn. rewrite (rows_lookup _ (length (product Ts ls)) _ _ _ x) //.
  - intros y. by rewrite length_fmap.
  - by apply lookup_lt_Some in Hj.
  - by rewrite list_lookup_fmap Hj.
Qed.

Section combine.
Context {T1 T2 T3 : Type}.
Context {G1 G2 G3} {C1 : ToGenerator G1 T1} {C2 : ToGenerator G2 T2} {C3 : ToGenerator G3 T3}.

Lemma combine3_yields (g1 : G1) (g2 : G2) (g3 : G3) l1 l2 l3 :
  Yields (to_generator T1 g1) l1 → Yields (to_generator T2 g2) l2 → Yields (to_generator T3 g3) l3 →
  Yields (Combine3 g1 g2 g3) (product [T1; T2; T3] (l1, (l2, (l3, ())))).
Proof. intros H1 H2 H3. by apply @product_yields. Qed.

Lemma product3_lookup (l1 : list T1) (l2 : list T2) (l3 : list T3) i j k x y z :
  l1 !! i = Some x → l2 !! j = Some y → l3 !! k = Some z →
  product [T1; T2; T3] (l1, (l2, (l3, ()))) !! ((i * length l2 + j) * length l3 + k)%nat =
    Some (x, (y, (z, ()))).
Proof.
  intros Hx Hy Hz.
  assert (product [T3] (l3, ()) !! k = Some (z, ())) as Hk.
  { pose proof (product_lookup (Ts := []) l3 () k 0 z () Hz eq_refl) as H. cbn [length product] in H.
    by rewrite Nat.mul_1_r Nat.add_0_r in H. }
  assert (length (product [T3] (l3, ())) = length l3) as Hlen by by rewrite (product_length (Ts := [])) Nat.mul_1_r.
  pose proof (product_lookup (Ts := [T3]) l2 (l3, ()) j k y (z, ()) Hy Hk) as Hjk.
  pose proof (product_lookup (Ts := [T2; T3]) l1 (l2, (l3, ())) i _ x _ Hx Hjk) as H.
  rewrite product_length Hlen in H. rewrite -H. f_equal. lia.
Qed.
End combine.

(** Values makes a generator of the values it is given, each cast to the
    parameter's type, in the order of the arguments; and Combine of three such
    lists makes every triple once, the triple of the i-th, j-th and k-th value at
    place (i * n2 + j) * n3 + k of n1 * n2 * n3. *)
Theorem combine_values_position {T1 T2 T3 : Type} {Ts1 Ts2 Ts3 : list Type}
    (C1 : StaticCasts T1 Ts1) (C2 : StaticCasts T2 Ts2) (C3 : StaticCasts T3 Ts3)
    (vs1 : tuple Ts1) (vs2 : tuple Ts2) (vs3 : tuple Ts3) :
  let a1 := uncurry_tuple Ts1 (new_value_array Ts1) vs1 in
  let a2 := uncurry_tuple Ts2 (new_value_array Ts2) vs2 in
  let a3 := uncurry_tuple Ts3 (new_value_array Ts3) vs3 in
  let g := Combine3 (T1 := T1) (T2 := T2) (T3 := T3) a1 a2 a3 in
  let '(n1, n2, n3) := (length Ts1, length Ts2, length Ts3) in
  collect (to_generator T1 a1) n1 (Begin (to_generator T1 a1)) = Some (cast_members C1 vs1) ∧
  ∃ l, collect g (n1 * n2 * n3) (Begin g) = Some l ∧ length l = (n1 * n2 * n3)%nat ∧
    ∀ i j k x y z,
      cast_members C1 vs1 !! i = Some x → cast_members C2 vs2 !! j = Some y →
      cast_members C3 vs3 !! k = Some z →
      l !! ((i * n2 + j) * n3 + k)%nat = Some (x, (y, (z, ()))).
Proof.
  intros a1 a2 a3 g.
  pose proof (value_array_yields C1 a1) as H1. pose proof (value_array_yields C2 a2) as H2.
  pose proof (value_array_yields C3 a3) as H3. unfold a1, a2, a3 in H1, H2, H3.
  rewrite members_new in H1. rewrite members_new in H2. rewrite members_new in H3.
  pose proof (combine3_yields _ _ _ _ _ _ H1 H2 H3) as Hg.
  split; [apply enumerates_collect; [apply begin_enumerates|by rewrite length_cast_members]|].
  set (l := product [T1; T2; T3] _) in Hg. exists l.
  assert (length l = (length Ts1 * length Ts2 * length Ts3)%nat) as Hlen.
  { unfold l. rewrite !product_length !length_cast_members /=. lia. }
  split; [apply enumerates_collect; [apply begin_enumerates|by rewrite Hlen]|].
  split; [done|]. intros i j k x y z Hx Hy Hz.
  rewrite -(length_cast_members C2 vs2) -(length_cast_members C3 vs3). by apply product3_lookup.
Qed.

(** * Concrete parameters *)

#[local] Instance z_cast : StaticCast Z Z := λ x, x.
#[local] Instance bool_z_cast : StaticCast bool Z := Z.b2z.

Definition mixed_types : list Type := [Z : Type; bool : Type; Z : Type].
Definition mixed_casts : StaticCasts Z mixed_types :=
  casts_cons z_cast (casts_cons bool_z_cast (casts_cons z_cast casts_nil)).

Example mixed_values :
  collect (to_generator Z (Values3 5 true 7)) 3 (Begin (to_generator Z (Values3 5 true 7))) =
    Some [5; 1; 7].
Proof. reflexivity. Qed.

Example combine_of_combine :
  let g := Combine2 (T1 := tuple [bool : Type; Z : Type]) (T2 := Z)
    (Combine2 (T1 := bool) (T2 := Z) Bool (Values2 1 2)) (ValuesIn_array [8; 9]) in
  collect g 8 (Begin g) = Some
    [((false, (1, ())), (8, ())); ((false, (1, ())), (9, ()));
     ((false, (2, ())), (8, ())); ((false, (2, ())), (9, ()));
     ((true, (1, ())), (8, ())); ((true, (1, ())), (9, ()));
     ((true, (2, ())), (8, ())); ((true, (2, ())), (9, ()))].
Proof. reflexivity. Qed.

Lemma combine_values_position_witness :
  let a1 := uncurry_tuple mixed_types (new_value_array mixed_types) (5, (true, (7, ()))) in
  let a2 := uncurry_tuple mixed_types (new_value_array mixed_types) (1, (false, (2, ()))) in
  let a3 := uncurry_tuple [Z : Type] (new_value_array [Z : Type]) (9, ()) in
  let g := Combine3 (T1 := Z) (T2 := Z) (T3 := Z) a1 a2 a3 in
  collect (to_generator Z a1) 3 (Begin (to_generator Z a1)) = Some [5; 1; 7] ∧
  ∃ l, collect g 9 (Begin g) = Some l ∧ length l = 9%nat ∧
    ∀ i j k x y z,
      [5; 1; 7] !! i = Some x → [1; 0; 2] !! j = Some y → [9] !! k = Some z →
      l !! ((i * 3 + j) * 1 + k)%nat = Some (x, (y, (z, ()))).
Proof.
  apply (combine_values_position mixed_casts mixed_casts (casts_cons z_cast casts_nil)
    (5, (true, (7, ()))) (1, (false, (2, ()))) (9, ())).
Defined.
