(* ===== verification/ParamRegister.v ===== *)
(** Registration of parameterized tests in the bundled test library
    (ParameterizedTestCaseInfo and ParameterizedTestCaseRegistry of
    src/gtest/include/gtest/internal/gtest-param-util.h).

    MakeAndRegisterTestInfo, whose code is in the library, is a call that is
    recorded; printing a parameter, the fixture's parameter type and the factories
    are parameters. *)

From stdpp Require Import pretty.
From S2P Require Import Prelude Machine ParamGenerator.
#[local] Open Scope Z_scope.

(** TestParamInfo<ParamType>. *)
Record TestParamInfo (P : Type) : Type := MkParamInfo { param : P; index : N }.
Arguments MkParamInfo {P} _ _.
Arguments param {P} _.
Arguments index {P} _.

(** * Names *)

(** isalnum in the C locale. *)
Definition isalnum (c : Ascii.ascii) : bool :=
  let n := Z.of_nat (Ascii.nat_of_ascii c) in
  bool_decide (48 ≤ n ≤ 57) || bool_decide (65 ≤ n ≤ 90) || bool_decide (97 ≤ n ≤ 122).

Definition underscore : Ascii.ascii := Ascii.ascii_of_nat 95.

Fixpoint all_chars (p : Ascii.ascii → bool) (s : string) : bool :=
  match s with EmptyString => true | String c s => p c && all_chars p s end.

Definition IsValidParamName (name : string) : bool :=
  match name with
  | EmptyString => false
  | _ => all_chars (λ c, isalnum c || bool_decide (c = underscore)) name
  end.

(** DefaultParamName: the index in decimal. *)
Definition DefaultParamName {P} (info : TestParamInfo P) : string := pretty (index info).

Section registration.
Context {P F : Type} (PrintToString : P → string).

(** PrintToStringParamName. *)
Definition PrintToStringParamName (info : TestParamInfo P) : string := PrintToString (param info).

(** TestInfo and InstantiationInfo. A meta-factory makes the factory of a
    parameter. *)
Record TestInfo : Type := MkTestInfo {
  test_case_base_name : string;
  test_base_name : string;
  test_meta_factory : P → F;
}.

Record InstantiationInfo : Type := MkInstantiation {
  inst_name : string;
  inst_generator : ParamGeneratorInterface P;
  inst_name_func : TestParamInfo P → string;
  inst_file : string;
  inst_line : Z;
}.

(** A call of MakeAndRegisterTestInfo. *)
Record registered : Type := Registered {
  reg_case_name : string;
  reg_test_name : string;
  reg_value_param : string;
  reg_factory : F;
}.

Record case_info : Type := CaseInfo {
  tests_ : list TestInfo;
  instantiations_ : list InstantiationInfo;
}.

Definition AddTestPattern (case_name base_name : string) (meta : P → F) (c : case_info) : case_info :=
  CaseInfo (tests_ c ++ [MkTestInfo case_name base_name meta]) (instantiations_ c).

Definition AddTestCaseInstantiation (name : string) (g : ParamGeneratorInterface P)
    (name_func : TestParamInfo P → string) (file : string) (line : Z) (c : case_info) : case_info :=
  CaseInfo (tests_ c) (instantiations_ c ++ [MkInstantiation name g name_func file line]).

(** size_t ++i. *)
Definition size_succ (i : N) : N := Z.to_N (size_t (Z.of_N i + 1)).

Definition test_case_name (inst : InstantiationInfo) (test : TestInfo) : string :=
  (if bool_decide (inst_name inst ≠ EmptyString) then inst_name inst +:+ "/" else EmptyString) +:+
  test_case_base_name test.

Definition make_call (inst : InstantiationInfo) (test : TestInfo) (name : string) (p : P) : registered :=
  Registered (test_case_name inst test) (test_base_name test +:+ "/" +:+ name)
    (PrintToString p) (test_meta_factory test p).

(** GTEST_CHECK_: a failed check aborts the program. *)
Definition gtest_check {S} (b : bool) : cmd S unit := if b then mret () else abort.

(** for (param_it = generator.begin(); param_it != generator.end(); ++param_it, ++i). *)
Fixpoint param_loop (fuel : nat) (test : TestInfo) (inst : InstantiationInfo)
    (it : iterator (inst_generator inst)) (i : N) (names : gset string) : cmd (list registered) unit :=
  let g := inst_generator inst in
  if pi_neq g false it (End g) then
    match fuel with
    | O => unfinished
    | S fuel =>
      p ← or_ub OutOfBounds (pi_deref g it);
      let param_name := inst_name_func inst (MkParamInfo p i) in
      gtest_check (IsValidParamName param_name);;
      gtest_check (bool_decide (param_name ∉ names));;
      modify (λ rs, rs ++ [make_call inst test param_name p]);;
      it ← or_ub OutOfBounds (pi_preincrement g it);
      param_loop fuel test inst it (size_succ i) ({[param_name]} ∪ names)
    end
  else mret ().

Fixpoint gen_loop (fuel : nat) (test : TestInfo) (insts : list InstantiationInfo)
    : cmd (list registered) unit :=
  match insts with
  | [] => mret ()
  | inst :: insts =>
    param_loop fuel test inst (Begin (inst_generator inst)) 0 ∅;;
    gen_loop fuel test insts
  end.

Fixpoint test_loop (fuel : nat) (tests : list TestInfo) (insts : list InstantiationInfo)
    : cmd (list registered) unit :=
  match tests with
  | [] => mret ()
  | test :: tests => gen_loop fuel test insts;; test_loop fuel tests insts
  end.

Definition RegisterTests (fuel : nat) (c : case_info) : cmd (list registered) unit :=
  test_loop fuel (tests_ c) (instantiations_ c).

(** * Specification *)

(** The names of the parameters of an instantiation whose generator yields [l],
    numbered from [i]. *)
Fixpoint param_names (inst : InstantiationInfo) (i : N) (l : list P) : list string :=
  match l with
  | [] => []
  | p :: l => inst_name_func inst (MkParamInfo p i) :: param_names inst (size_succ i) l
  end.

Definition names_ok (names : list string) : Prop :=
  Forall (λ n, IsValidParamName n = true) names ∧ NoDup names.

#[export] Instance names_ok_dec names : Decision (names_ok names).
Proof. unfold names_ok. apply _. Defined.

Definition calls (test : TestInfo) (inst : InstantiationInfo) (l : list P) : list registered :=
  zip_with (make_call inst test) (param_names inst 0 l) l.

(** An instantiation with what its generator yields. *)
Definition yields_params (inst : InstantiationInfo) (l : list P) : Prop := Yields (inst_generator inst) l.

Definition all_calls (tests : list TestInfo) (insts : list (InstantiationInfo * list P)) : list registered :=
  test ← tests; il ← insts; calls test il.1 il.2.

(** * Correctness *)

Lemma length_param_names inst i l : length (param_names inst i l) = length l.
Proof. revert i. induction l as [|p l IH]; intros i; cbn; [done|]. by rewrite IH. Qed.

Lemma param_loop_run fuel test inst it l i names rs :
  enumerates (inst_generator inst) it l → (length l ≤ fuel)%nat →
  let ns := param_names inst i l in
  (Forall (λ n, IsValidParamName n = true) ns ∧ NoDup ns ∧ (∀ n, n ∈ ns → n ∉ names) →
   param_loop fuel test inst it i names rs = (Done (), rs ++ zip_with (make_call inst test) ns l)) ∧
  (¬ (Forall (λ n, IsValidParamName n = true) ns ∧ NoDup ns ∧ (∀ n, n ∈ ns → n ∉ names)) →
   ∃ k, param_loop fuel test inst it i names rs =
     (Aborted, rs ++ take k (zip_with (make_call inst test) ns l))).
Proof.
  intros He. revert fuel i names rs.
  induction He as [it He|it it' p l He Hp Hit _ IH]; intros fuel i names rs Hfuel.
  - cbn [param_names zip_with]. split; [|intros []; split_and!; [constructor..|by intros ? ?%elem_of_nil]].
    intros _. rewrite app_nil_r. destruct fuel; cbn [param_loop]; by rewrite /pi_neq /pi_eq /= He.
  - destruct fuel as [|fuel]; [simpl in Hfuel; lia|].
    cbn [param_loop param_names zip_with]. rewrite /pi_neq /pi_eq /= He /= /pi_deref Hp /= bind_ret_l.
    set (n := inst_name_func inst (MkParamInfo p i)).
    set (ns := param_names inst (size_succ i) l).
    destruct (IsValidParamName n) eqn:Hv; [rewrite bind_ret_l|]; last first.
    { split; [intros [[Hn _]%Forall_cons _]; by rewrite Hv in Hn|]. intros _. exists 0%nat.
      by rewrite app_nil_r. }
    case_bool_decide as Hin; [rewrite bind_ret_l|]; last first.
    { split; [intros (_ & _ & Hnn); exfalso; by apply (Hnn n (list_elem_of_here _ _))|]. intros _.
      exists 0%nat. by rewrite app_nil_r. }
    rewrite (bind_done _ _ _ () (rs ++ [make_call inst test n p])) // /pi_preincrement Hit /= bind_ret_l.
    destruct (IH fuel (size_succ i) ({[n]} ∪ names) (rs ++ [make_call inst test n p])) as [Hok Hbad];
      [simpl in Hfuel; lia|].
    assert (Forall (λ m, IsValidParamName m = true) (n :: ns) ∧ NoDup (n :: ns) ∧
        (∀ m, m ∈ n :: ns → m ∉ names) ↔
      Forall (λ m, IsValidParamName m = true) ns ∧ NoDup ns ∧
        (∀ m, m ∈ ns → m ∉ {[n]} ∪ names)) as ->.
    { rewrite Forall_cons NoDup_cons. setoid_rewrite not_elem_of_union.
      setoid_rewrite not_elem_of_singleton. setoid_rewrite elem_of_cons. naive_solver. }
    split.
    + intros H. rewrite Hok //. by rewrite -app_assoc.
    + intros [k ->]%Hbad. exists (S k). by rewrite -app_assoc.
Qed.

(** The names that an instantiation gives. *)
Definition names_of (il : InstantiationInfo * list P) : list string := param_names il.1 0 il.2.

(** The instantiations, each with what its generator yields, within the fuel. *)
Definition insts_yield (fuel : nat) (insts : list (InstantiationInfo * list P)) : Prop :=
  Forall (λ il, yields_params il.1 il.2 ∧ (length il.2 ≤ fuel)%nat) insts.

Lemma param_loop_begin fuel test il rs :
  yields_params il.1 il.2 → (length il.2 ≤ fuel)%nat →
  (names_ok (names_of il) →
   param_loop fuel test il.1 (Begin (inst_generator il.1)) 0 ∅ rs =
     (Done (), rs ++ calls test il.1 il.2)) ∧
  (¬ names_ok (names_of il) →
   ∃ k, param_loop fuel test il.1 (Begin (inst_generator il.1)) 0 ∅ rs =
     (Aborted, rs ++ take k (calls test il.1 il.2))).
Proof.
  intros HY Hf. unfold yields_params in HY.
  destruct (param_loop_run fuel test il.1 (Begin (inst_generator il.1)) il.2 0 ∅ rs) as [Hok Hbad];
    [apply begin_enumerates|done|].
  assert (names_ok (names_of il) ↔
    Forall (λ n, IsValidParamName n = true) (names_of il) ∧ NoDup (names_of il) ∧
    (∀ n, n ∈ names_of il → n ∉@{gset string} ∅)) as ->.
  { unfold names_ok. split; [|tauto]. intros []. split_and!; [done..|]. intros n _. apply not_elem_of_empty. }
  split; [exact Hok|exact Hbad].
Qed.

Lemma gen_loop_run fuel test insts rs :
  insts_yield fuel insts →
  (Forall (λ il, names_ok (names_of il)) insts →
   gen_loop fuel test insts.*1 rs = (Done (), rs ++ (il ← insts; calls test il.1 il.2))) ∧
  (¬ Forall (λ il, names_ok (names_of il)) insts →
   ∃ k, gen_loop fuel test insts.*1 rs =
     (Aborted, rs ++ take k (il ← insts; calls test il.1 il.2))).
Proof.
  intros HY. revert rs. induction HY as [|il insts [Hil Hf] _ IH]; intros rs.
  { cbn. split; [by rewrite app_nil_r|]. intros []. constructor. }
  cbn [fmap list_fmap gen_loop]. rewrite Forall_cons bind_cons.
  destruct (param_loop_begin fuel test il rs Hil Hf) as [Hok Hbad].
  destruct (decide (names_ok (names_of il))) as [Hn|Hn].
  - destruct (IH (rs ++ calls test il.1 il.2)) as [Hok' Hbad'].
    erewrite bind_done by (by apply Hok). split.
    + intros [_ Hns]. by rewrite Hok' // -app_assoc.
    + intros Hns. destruct Hbad' as [k ->]; [tauto|].
      exists (length (calls test il.1 il.2) + k)%nat. by rewrite take_app_add -app_assoc.
  - split; [tauto|]. intros _. destruct (Hbad Hn) as [k Hk].
    exists (k `min` length (calls test il.1 il.2))%nat.
    unfold mbind, cmd_bind. rewrite Hk. do 2 f_equal.
    rewrite take_app_le; [lia|]. by rewrite -take_take firstn_all.
Qed.

Lemma test_loop_run fuel tests insts rs :
  insts_yield fuel insts →
  (Forall (λ il, names_ok (names_of il)) insts →
   test_loop fuel tests insts.*1 rs = (Done (), rs ++ all_calls tests insts)) ∧
  (¬ Forall (λ il, names_ok (names_of il)) insts → tests ≠ [] →
   ∃ k, test_loop fuel tests insts.*1 rs = (Aborted, rs ++ take k (all_calls tests insts))).
Proof.
  intros HY. split.
  - intros Hns. revert rs. induction tests as [|test tests IH]; intros rs; cbn [test_loop].
    + by rewrite app_nil_r.
    + erewrite bind_done by (by apply gen_loop_run). by rewrite IH -app_assoc.
  - intros Hns Ht. destruct tests as [|test tests]; [done|]. cbn [test_loop].
    destruct (gen_loop_run fuel test insts rs HY) as [_ Hbad].
    destruct (Hbad Hns) as [k Hk]. set (cs := il ← insts; calls test il.1 il.2) in *.
    exists (k `min` length cs)%nat. unfold mbind, cmd_bind. rewrite Hk. do 2 f_equal.
    change (all_calls (test :: tests) insts) with (cs ++ all_calls tests insts).
    rewrite take_app_le; [lia|]. by rewrite -take_take firstn_all.
Qed.

(** Registration makes one test for each test pattern, instantiation and
    parameter, in that order, named Instantiation/Case and Test/name, with a
    factory for that parameter, provided that within each instantiation all names
    are valid and different; otherwise, if there is a test at all, it aborts the
    program after it has registered a first part of them. *)
Theorem register_tests_result fuel tests insts rs :
  insts_yield fuel insts →
  (Forall (λ il, names_ok (names_of il)) insts →
   RegisterTests fuel (CaseInfo tests insts.*1) rs = (Done (), rs ++ all_calls tests insts)) ∧
  (¬ Forall (λ il, names_ok (names_of il)) insts → tests ≠ [] →
   ∃ k, RegisterTests fuel (CaseInfo tests insts.*1) rs =
     (Aborted, rs ++ take k (all_calls tests insts))).
Proof. apply test_loop_run. Qed.

(** * The default names *)

Definition param_char (c : Ascii.ascii) : bool := isalnum c || bool_decide (c = underscore).

Lemma IsValidParamName_chars name :
  IsValidParamName name = true ↔ name ≠ EmptyString ∧ all_chars param_char name = true.
Proof. destruct name as [|c name]; [naive_solver|]. change (IsValidParamName (String c name)) with (all_chars param_char (String c name)). naive_solver. Qed.

Lemma digit_valid n : param_char (pretty_N_char n) = true.
Proof. unfold pretty_N_char. by repeat case_match. Qed.

Lemma pretty_N_go_chars x s :
  all_chars param_char s = true → all_chars param_char (pretty_N_go x s) = true.
Proof.
  revert s. induction (N.lt_wf_0 x) as [x _ IH]; intros s Hs.
  assert (x = 0 ∨ 0 < x)%N as [->|Hx] by lia; [by rewrite pretty_N_go_0|].
  rewrite pretty_N_go_step //. apply IH; [apply N.div_lt; lia|].
  by rewrite /= digit_valid Hs.
Qed.

Lemma pretty_N_go_nonempty x s : s ≠ EmptyString → pretty_N_go x s ≠ EmptyString.
Proof.
  revert s. induction (N.lt_wf_0 x) as [x _ IH]; intros s Hs.
  assert (x = 0 ∨ 0 < x)%N as [->|Hx] by lia; [by rewrite pretty_N_go_0|].
  rewrite pretty_N_go_step //. apply IH; [apply N.div_lt; lia|done].
Qed.

Lemma pretty_valid (n : N) : IsValidParamName (pretty n) = true.
Proof.
  apply IsValidParamName_chars. unfold pretty, pretty_N. case_decide as Hn; [done|].
  split; [|by apply pretty_N_go_chars].
  rewrite pretty_N_go_step; [lia|by apply pretty_N_go_nonempty].
Qed.

Lemma default_param_names inst i l :
  inst_name_func inst = DefaultParamName →
  Z.of_N i + Z.of_nat (length l) ≤ 18446744073709551616 →
  param_names inst i l = (λ k, pretty (i + N.of_nat k)%N) <$> seq 0 (length l).
Proof.
  intros Hf. revert i. induction l as [|p l IH]; intros i Hi; [done|].
  cbn [param_names length seq]. rewrite fmap_cons Hf. unfold DefaultParamName. cbn [index].
  rewrite N.add_0_r. f_equal. destruct l as [|q l]; [done|].
  assert (size_succ i = i + 1)%N as Hs.
  { unfold size_succ. simpl in Hi. rewrite size_t_small; lia. }
  rewrite IH Hs; [simpl in *; lia|]. rewrite -fmap_S_seq -list_fmap_compose.
  apply list_fmap_ext. intros j k _. cbn. f_equal. lia.
Qed.

(** An instantiation without a name generator numbers its tests in decimal:
    all names are valid and different, so its registration never aborts (up to
    2^64 parameters). *)
Theorem default_names_never_abort fuel tests inst l rs :
  yields_params inst l → (length l ≤ fuel)%nat →
  inst_name_func inst = DefaultParamName → Z.of_nat (length l) ≤ 18446744073709551616 →
  names_ok (param_names inst 0 l) ∧
  RegisterTests fuel (CaseInfo tests [inst]) rs = (Done (), rs ++ all_calls tests [(inst, l)]).
Proof.
  intros HY Hf Hname Hlen.
  assert (names_ok (param_names inst 0 l)) as Hok.
  { rewrite default_param_names //. split.
    - apply Forall_forall. intros n (k & -> & _)%list_elem_of_fmap. apply pretty_valid.
    - apply NoDup_fmap_2_strong; [|apply NoDup_seq]. intros j k _ _ Hjk.
      apply (inj pretty) in Hjk. lia. }
  split; [done|].
  apply (test_loop_run fuel tests [(inst, l)] rs).
  - apply Forall_singleton. done.
  - apply Forall_singleton. done.
Qed.

(** * Uniqueness of full names *)

Lemma string_app_inj_l (s t u : string) : s +:+ t = s +:+ u → t = u.
Proof. induction s as [|c s IH]; [done|]. intros [= H]. by apply IH. Qed.

Lemma all_chars_app p s t : all_chars p (s +:+ t) = all_chars p s && all_chars p t.
Proof.
  induction s as [|c s IH]; [done|]. change (String c s +:+ t) with (String c (s +:+ t)).
  cbn. by rewrite IH andb_assoc.
Qed.

Definition slash : Ascii.ascii := Ascii.ascii_of_nat 47.

(** The part of a name after its last slash. *)
Lemma last_slash_inj a b x y :
  all_chars param_char x = true → all_chars param_char y = true →
  a +:+ String slash x = b +:+ String slash y → a = b ∧ x = y.
Proof.
  revert b. induction a as [|c a IH]; intros b Hx Hy Hab.
  - destruct b as [|d b]; [by injection Hab|]. exfalso.
    change (String slash x = String d (b +:+ String slash y)) in Hab. injection Hab as _ ->.
    rewrite all_chars_app in Hx. apply andb_true_iff in Hx as [_ Hx]. done.
  - destruct b as [|d b].
    + exfalso. change (String c (a +:+ String slash x) = String slash y) in Hab.
      injection Hab as _ <-. rewrite all_chars_app in Hy. apply andb_true_iff in Hy as [_ Hy]. done.
    + change (String c (a +:+ String slash x) = String d (b +:+ String slash y)) in Hab.
      injection Hab as -> Hab. by destruct (IH b Hx Hy Hab) as [-> ->].
Qed.

Lemma string_app_inj_r (s t u : string) : s +:+ u = t +:+ u → s = t.
Proof.
  revert t. induction s as [|c s IH]; intros [|d t] H; [done|..].
  - exfalso. apply (f_equal String.length) in H. rewrite !string_length_app in H. simpl in H. lia.
  - exfalso. apply (f_equal String.length) in H. rewrite !string_length_app in H. simpl in H. lia.
  - change (String c (s +:+ u) = String d (t +:+ u)) in H. injection H as -> H.
    by rewrite (IH t H).
Qed.

Lemma test_case_name_inj inst inst' test test' :
  test_case_base_name test = test_case_base_name test' →
  test_case_name inst test = test_case_name inst' test' → inst_name inst = inst_name inst'.
Proof.
  unfold test_case_name. intros <- H%string_app_inj_r.
  repeat case_bool_decide; [by apply string_app_inj_r in H|..]; [| |congruence].
  - by destruct (inst_name inst).
  - by destruct (inst_name inst').
Qed.

Definition full_name (r : registered) : string * string := (reg_case_name r, reg_test_name r).

Lemma full_names_calls test inst l :
  full_name <$> calls test inst l =
    (λ n, (test_case_name inst test, test_base_name test +:+ String slash n)) <$> param_names inst 0 l.
Proof.
  unfold calls. generalize 0%N. induction l as [|p l IH]; intros i; [done|].
  cbn [param_names zip_with]. rewrite !fmap_cons IH. done.
Qed.

Lemma full_names_insts test insts :
  NoDup (inst_name <$> insts.*1) → Forall (λ il, names_ok (names_of il)) insts →
  NoDup (full_name <$> (il ← insts; calls test il.1 il.2)).
Proof.
  induction insts as [|il insts IH]; intros Hnd Hok; [constructor|].
  rewrite bind_cons fmap_app. apply Forall_cons in Hok as [[_ Hil] Hok].
  rewrite !fmap_cons in Hnd. apply NoDup_cons in Hnd as [Hni Hnd].
  apply NoDup_app. split_and!.
  - rewrite full_names_calls. apply NoDup_fmap_2_strong; [|done].
    intros m n _ _ [= H]. apply string_app_inj_l in H. by injection H.
  - intros x. rewrite full_names_calls. intros (n & -> & _)%list_elem_of_fmap.
    intros (r & Hr & (il' & Hr' & Hin')%list_elem_of_bind)%list_elem_of_fmap.
    apply (list_elem_of_fmap_2 full_name) in Hr'. rewrite -Hr full_names_calls in Hr'.
    apply list_elem_of_fmap in Hr' as (m & [= Hcase _] & _).
    apply test_case_name_inj in Hcase; [|done]. apply Hni. rewrite Hcase.
    by do 2 apply list_elem_of_fmap_2.
  - by apply IH.
Qed.

(** The full names (case and test) of all tests that are registered are
    different, when the test patterns of the case have different names and the
    instantiations too, whatever the instantiations' name generators return
    within what the checks let through. *)
Theorem full_names_unique tests insts (base : string) :
  Forall (λ t, test_case_base_name t = base) tests → NoDup (test_base_name <$> tests) →
  NoDup (inst_name <$> insts.*1) → Forall (λ il, names_ok (names_of il)) insts →
  NoDup (full_name <$> all_calls tests insts).
Proof.
  intros Hbase Hnd Hinst Hok. unfold all_calls.
  assert (∀ test n, n ∈ full_name <$> (il ← insts; calls test il.1 il.2) →
    ∃ c m, n = (c, test_base_name test +:+ String slash m) ∧ IsValidParamName m = true) as Hform.
  { intros test n (r & -> & (il & Hr & Hin)%list_elem_of_bind)%list_elem_of_fmap.
    apply (list_elem_of_fmap_2 full_name) in Hr. rewrite full_names_calls in Hr.
    apply list_elem_of_fmap in Hr as (m & Hm & Hmin). exists (test_case_name il.1 test), m. split; [done|].
    rewrite Forall_forall in Hok. destruct (Hok il Hin) as [Hv _].
    rewrite Forall_forall in Hv. by apply Hv. }
  induction tests as [|test tests IH]; [constructor|].
  rewrite bind_cons fmap_app. apply Forall_cons in Hbase as [_ Hbase].
  rewrite fmap_cons in Hnd. apply NoDup_cons in Hnd as [Hnt Hnd].
  apply NoDup_app. split_and!; [by apply full_names_insts| |by apply IH].
  intros x (c & m & -> & Hm)%Hform (r & Hr & (t & Hrt & Ht)%list_elem_of_bind)%list_elem_of_fmap.
  apply (list_elem_of_fmap_2 full_name) in Hrt. rewrite -Hr in Hrt.
  apply Hform in Hrt as (c' & m' & [= _ Hn] & Hm').
  apply IsValidParamName_chars in Hm as [_ Hm]. apply IsValidParamName_chars in Hm' as [_ Hm'].
  apply last_slash_inj in Hn as [Hn _]; [|done..].
  apply Hnt. rewrite Hn. by apply list_elem_of_fmap_2.
Qed.
End registration.

(** * ParameterizedTestCaseRegistry *)

Section registry.
Context {TypeId F : Type} {TID : EqDecision TypeId} (ParamType : TypeId → Type).

(** The info of a fixture class: a ParameterizedTestCaseInfo with its name and type
    id, in test_case_infos_, identified by its position there. *)
Record holder : Type := Holder {
  h_name : string;
  h_type : TypeId;
  h_info : case_info (P := ParamType h_type) (F := F);
}.
Definition registry : Type := list holder.

(** The loop over test_case_infos_. Whether ReportInvalidTestCaseType was called is
    the [Aborted] outcome. *)
Fixpoint find_holder (name : string) (type : TypeId) (i : nat) (infos : registry)
    : cmd registry (option nat) :=
  match infos with
  | [] => mret None
  | h :: infos =>
    if bool_decide (h_name h = name) then
      if bool_decide (h_type h ≠ type) then abort else mret (Some i)
    else find_holder name type (S i) infos
  end.

Definition new_holder (name : string) (type : TypeId) : holder := Holder name type (CaseInfo [] []).

Definition GetTestCasePatternHolder (name : string) (type : TypeId) : cmd registry nat :=
  infos ← get;
  typed_test_info ← find_holder name type 0 infos;
  match typed_test_info with
  | Some i => mret i
  | None => modify (λ infos, infos ++ [new_holder name type]);; mret (length infos)
  end.

(** RegisterTests of the registry: the infos in the order they were created. *)
Fixpoint RegisterAll (PrintToString : ∀ t, ParamType t → string) (fuel : nat) (infos : registry)
    : cmd (list (registered (F := F))) unit :=
  match infos with
  | [] => mret ()
  | h :: infos =>
    RegisterTests (PrintToString (h_type h)) fuel (h_info h);;
    RegisterAll PrintToString fuel infos
  end.

Lemma find_holder_run name type k infos s :
  find_holder name type k infos s =
    match list_find (λ h, h_name h = name) infos with
    | None => (Done None, s)
    | Some (i, h) => if bool_decide (h_type h = type) then (Done (Some (k + i)%nat), s) else (Aborted, s)
    end.
Proof.
  revert k. induction infos as [|h infos IH]; intros k; [done|]. cbn [find_holder list_find].
  case_bool_decide as Hn; destruct (decide (h_name h = name)); try done.
  - rewrite Nat.add_0_r. repeat case_bool_decide; done.
  - rewrite IH. destruct (list_find _ infos) as [[i h']|]; [|done]. cbn.
    by rewrite Nat.add_succ_r.
Qed.

(** The registry keeps one info per test case name: the lookup returns the
    info of that name, creating it at the end when there is none, so that asking
    again gives the same one; asking for a name that is used by another fixture
    class aborts the program. *)
Theorem holder_lookup name type infos :
  NoDup (h_name <$> infos) →
  match list_find (λ h, h_name h = name) infos with
  | Some (i, h) =>
      GetTestCasePatternHolder name type infos =
        (if bool_decide (h_type h = type) then Done i else Aborted, infos)
  | None =>
      let infos' := infos ++ [new_holder name type] in
      GetTestCasePatternHolder name type infos = (Done (length infos), infos') ∧
      GetTestCasePatternHolder name type infos' = (Done (length infos), infos') ∧
      NoDup (h_name <$> infos')
  end.
Proof.
  intros Hnd. unfold GetTestCasePatternHolder.
  pose proof (find_holder_run name type 0 infos infos) as Hrun.
  destruct (list_find _ infos) as [[i h]|] eqn:Hf.
  - rewrite (bind_done _ _ infos infos infos) //. case_bool_decide.
    + by erewrite bind_done by exact Hrun.
    + unfold mbind, cmd_bind. by rewrite Hrun.
  - apply list_find_None in Hf. cbn zeta. split_and!.
    + rewrite (bind_done _ _ infos infos infos) //. by erewrite bind_done by exact Hrun.
    + set (infos' := infos ++ [new_holder name type]).
      rewrite (bind_done _ _ infos' infos' infos') //.
      pose proof (find_holder_run name type 0 infos' infos') as Hrun'.
      unfold infos' in Hrun' at 2. rewrite list_find_app_r in Hrun'; [by apply list_find_None|].
      rewrite /= decide_True //= bool_decide_eq_true_2 // in Hrun'.
      by erewrite bind_done by exact Hrun'.
    + rewrite fmap_app. apply NoDup_app. split; [done|]. split; [|apply NoDup_singleton].
      intros n (h & -> & Hh)%list_elem_of_fmap Hn%list_elem_of_singleton.
      rewrite Forall_forall in Hf. by apply (Hf h Hh).
Qed.
End registry.
Arguments Holder {TypeId F ParamType} _ _ _.
Arguments h_name {TypeId F ParamType} _.
Arguments h_type {TypeId F ParamType} _.
Arguments h_info {TypeId F ParamType} _.
Arguments new_holder {TypeId F ParamType} _ _.
Arguments GetTestCasePatternHolder {TypeId F TID ParamType} _ _.
Arguments RegisterAll {TypeId F ParamType} _ _ _.

(** * Concrete registrations *)

Definition print_z (x : Z) : string := pretty x.

Definition inst (name : string) (l : list Z) : InstantiationInfo (P := Z) :=
  MkInstantiation name (ValuesIn l) DefaultParamName "foo.cc" 10.

Definition test_a : TestInfo := MkTestInfo (P := Z) (F := Z) "Foo" "Bar" (λ p, p).
Definition test_b : TestInfo := MkTestInfo (P := Z) (F := Z) "Foo" "Baz" (λ p, p + 1).

Definition two_insts : list (InstantiationInfo (P := Z) * list Z) :=
  [(inst "One" [7; 7], [7; 7]); (inst EmptyString [9], [9])].

Lemma two_insts_yield : insts_yield 5 two_insts.
Proof. repeat constructor; cbn; try apply values_yields; lia. Qed.

Example two_insts_names :
  full_name <$> snd (RegisterTests print_z 5 (CaseInfo [test_a; test_b] two_insts.*1) []) =
    [("One/Foo", "Bar/0"); ("One/Foo", "Bar/1"); ("Foo", "Bar/0");
     ("One/Foo", "Baz/0"); ("One/Foo", "Baz/1"); ("Foo", "Baz/0")]%string.
Proof. vm_compute. reflexivity. Qed.

Lemma register_tests_result_witness :
  (Forall (λ il, names_ok (names_of il)) two_insts →
   RegisterTests print_z 5 (CaseInfo [test_a; test_b] two_insts.*1) [] =
     (Done (), [] ++ all_calls print_z [test_a; test_b] two_insts)) ∧
  (¬ Forall (λ il, names_ok (names_of il)) two_insts → [test_a; test_b] ≠ [] →
   ∃ k, RegisterTests print_z 5 (CaseInfo [test_a; test_b] two_insts.*1) [] =
     (Aborted, [] ++ take k (all_calls print_z [test_a; test_b] two_insts))).
Proof. apply (register_tests_result print_z 5 [test_a; test_b] two_insts []), two_insts_yield. Defined.

(** Naming the tests after their parameter makes two of them collide. *)
Example colliding_names :
  fst (RegisterTests print_z 5
    (CaseInfo [test_a] [MkInstantiation "One" (ValuesIn [7; 7]) (PrintToStringParamName print_z) "foo.cc" 10]) [])
  = Aborted.
Proof. vm_compute. reflexivity. Qed.

Lemma default_names_never_abort_witness :
  names_ok (param_names (inst "One" [7; 7]) 0 [7; 7]) ∧
  RegisterTests print_z 5 (CaseInfo [test_a] [inst "One" [7; 7]]) [] =
    (Done (), [] ++ all_calls print_z [test_a] [(inst "One" [7; 7], [7; 7])]).
Proof.
  apply (default_names_never_abort print_z 5 [test_a] (inst "One" [7; 7]) [7; 7] []).
  - cbn. apply values_yields.
  - cbn. lia.
  - reflexivity.
  - cbn. lia.
Defined.

Lemma full_names_unique_witness :
  NoDup (full_name <$> all_calls print_z [test_a; test_b] two_insts).
Proof.
  apply (full_names_unique print_z [test_a; test_b] two_insts "Foo").
  - repeat constructor.
  - vm_decide.
  - vm_decide.
  - vm_decide.
Defined.

Definition same_params : Z → Type := λ _, Z.
Definition two_holders : registry (F := Z) same_params := [new_holder "A" 1; new_holder "B" 2].

Lemma holder_lookup_witness :
  match list_find (λ h, h_name h = "B"%string) two_holders with
  | Some (i, h) =>
      GetTestCasePatternHolder "B" 3 two_holders =
        (if bool_decide (h_type h = 3) then Done i else Aborted, two_holders)
  | None =>
      let infos' := two_holders ++ [new_holder "B" 3] in
      GetTestCasePatternHolder "B" 3 two_holders = (Done 2%nat, infos') ∧
      GetTestCasePatternHolder "B" 3 infos' = (Done 2%nat, infos') ∧
      NoDup (h_name <$> infos')
  end.
Proof. apply (holder_lookup (F := Z) same_params "B" 3 two_holders). vm_decide. Defined.
