(* ===== verification/ParamTest.v ===== *)
(** The statements TEST_P and INSTANTIATE_TEST_CASE_P of the bundled test library
    (src/gtest/include/gtest/gtest-param-test.h): what they do to the registry of
    ParamRegister.v, and the tests that a whole program of them registers.

    A fixture class is its type id, which has a parameter type; the name of the class
    is the string that the statement's macro makes of it. *)

From S2P Require Import Prelude Machine ParamGenerator CartesianProduct ParamRegister ParamValues.

Section program.
Context {TypeId F : Type} {TID : EqDecision TypeId} (ParamType : TypeId → Type).
Implicit Types c : string.

Notation info t := (case_info (P := ParamType t) (F := F)).
Notation registry := (registry (F := F) ParamType).
Notation holder := (holder (F := F) ParamType).
Implicit Types (infos : registry) (h : holder).

(** * The statements *)

(** CheckedDowncastToActualType: a failed check aborts. *)
Definition CheckedDowncastToActualType (t : TypeId) (h : holder) : cmd registry (info t) :=
  match decide (h_type h = t) with
  | left E => mret (eq_rect _ (λ t, info t) (h_info h) t E)
  | right _ => abort
  end.

(** A method called on the info at place [i]. *)
Definition on_info (i : nat) (t : TypeId) (f : info t → info t) : cmd registry unit :=
  infos ← get;
  h ← or_ub OutOfBounds (infos !! i);
  tests ← CheckedDowncastToActualType t h;
  modify (<[i := Holder (h_name h) t (f tests)]>).

(** AddToRegistry of TEST_P(test_case_name, test_name). *)
Definition TEST_P (test_case_name : string) (t : TypeId) (test_name : string)
    (meta : ParamType t → F) : cmd registry unit :=
  i ← GetTestCasePatternHolder test_case_name t;
  on_info i t (AddTestPattern test_case_name test_name meta).

(** INSTANTIATE_TEST_CASE_P(prefix, test_case_name, generator, name_func). *)
Definition INSTANTIATE_TEST_CASE_P (prefix test_case_name : string) (t : TypeId)
    (g : ParamGeneratorInterface (ParamType t)) (name_func : TestParamInfo (ParamType t) → string)
    (file : string) (line : Z) : cmd registry unit :=
  i ← GetTestCasePatternHolder test_case_name t;
  on_info i t (AddTestCaseInstantiation prefix g name_func file line).

(** A program of statements, in the order in which they are run. *)
Inductive item (t : TypeId) : Type :=
  | Pattern (test_name : string) (meta : ParamType t → F)
  | Instantiation (prefix : string) (g : ParamGeneratorInterface (ParamType t))
      (name_func : TestParamInfo (ParamType t) → string) (file : string) (line : Z).
Arguments Pattern {t} _ _.
Arguments Instantiation {t} _ _ _ _ _.

Record statement : Type := Statement { s_case : string; s_type : TypeId; s_item : item s_type }.

Definition run_statement (s : statement) : cmd registry unit :=
  match s_item s with
  | Pattern n meta => TEST_P (s_case s) (s_type s) n meta
  | Instantiation p g nf file line =>
    INSTANTIATE_TEST_CASE_P p (s_case s) (s_type s) g nf file line
  end.

Fixpoint run_program (prog : list statement) : cmd registry unit :=
  match prog with
  | [] => mret ()
  | s :: prog => run_statement s;; run_program prog
  end.

(** * What a program means *)

(** The statements about the case named [c], whose fixture is [t]. *)
Definition item_at (c : string) (t : TypeId) (s : statement) : option (item t) :=
  if decide (s_case s = c) then
    match decide (s_type s = t) with
    | left E => Some (eq_rect _ item (s_item s) t E)
    | right _ => None
    end
  else None.

Definition items_of (c : string) (t : TypeId) (prog : list statement) : list (item t) :=
  omap (item_at c t) prog.

Definition pattern {t} (c : string) (it : item t) : option (TestInfo (P := ParamType t) (F := F)) :=
  match it with Pattern n meta => Some (MkTestInfo c n meta) | _ => None end.

Definition instantiation {t} (it : item t) : option (InstantiationInfo (P := ParamType t)) :=
  match it with Instantiation p g nf file line => Some (MkInstantiation p g nf file line) | _ => None end.

Definition patterns_of (c : string) (t : TypeId) (prog : list statement) :=
  omap (pattern c) (items_of c t prog).
Definition instantiations_of (c : string) (t : TypeId) (prog : list statement) :=
  omap instantiation (items_of c t prog).

Definition info_of (c : string) (t : TypeId) (prog : list statement) : info t :=
  CaseInfo (patterns_of c t prog) (instantiations_of c t prog).

(** The case names in the order of their first statements. *)
Fixpoint first_names (prog : list statement) (seen : list string) : list string :=
  match prog with
  | [] => seen
  | s :: prog =>
    first_names prog (if decide (s_case s ∈ seen) then seen else seen ++ [s_case s])
  end.

Definition case_names (prog : list statement) : list string := first_names prog [].

Definition spec_registry (type_of : string → TypeId) (prog : list statement) : registry :=
  (λ c, Holder c (type_of c) (info_of c (type_of c) prog)) <$> case_names prog.

(** Every statement names its fixture by the name of the class. *)
Definition typed (type_of : string → TypeId) (prog : list statement) : Prop :=
  Forall (λ s, s_type s = type_of (s_case s)) prog.

(** * Names and statements *)

Lemma first_names_snoc prog s seen :
  first_names (prog ++ [s]) seen =
    (let ns := first_names prog seen in if decide (s_case s ∈ ns) then ns else ns ++ [s_case s]).
Proof. revert seen. induction prog as [|s' prog IH]; intros seen; cbn; [done|]. apply IH. Qed.

Lemma case_names_NoDup prog : NoDup (case_names prog).
Proof.
  induction prog as [|s prog IH] using rev_ind; [constructor|].
  unfold case_names. rewrite first_names_snoc. cbn. case_decide; [done|].
  apply NoDup_app. split; [done|]. split; [|apply NoDup_singleton].
  intros n Hn ->%list_elem_of_singleton. done.
Qed.

Lemma elem_of_case_names c prog : c ∈ case_names prog ↔ c ∈ s_case <$> prog.
Proof.
  induction prog as [|s prog IH] using rev_ind; [done|].
  unfold case_names. rewrite first_names_snoc fmap_app elem_of_app /= list_elem_of_singleton -IH.
  unfold case_names. case_decide as Hd; [naive_solver|].
  by rewrite elem_of_app list_elem_of_singleton.
Qed.

Lemma items_of_snoc c t prog s :
  items_of c t (prog ++ [s]) = items_of c t prog ++ option_list (item_at c t s).
Proof. unfold items_of. rewrite omap_app /=. by destruct (item_at c t s). Qed.

Lemma item_at_other c t s : s_case s ≠ c → item_at c t s = None.
Proof. intros Hc. unfold item_at. by rewrite decide_False. Qed.

Lemma item_at_self c t it : item_at c t (Statement c t it) = Some it.
Proof. unfold item_at. cbn. rewrite decide_True //. by rewrite (decide_True_pi eq_refl). Qed.

Lemma items_of_new c t prog : c ∉ case_names prog → items_of c t prog = [].
Proof.
  rewrite elem_of_case_names. intros Hc. unfold items_of.
  induction prog as [|s prog IH]; [done|]. cbn in *. apply not_elem_of_cons in Hc as [Hs Hc].
  rewrite item_at_other; [congruence|]. by apply IH.
Qed.

Lemma info_of_other c t prog s : s_case s ≠ c → info_of c t (prog ++ [s]) = info_of c t prog.
Proof.
  intros Hc. unfold info_of, patterns_of, instantiations_of.
  by rewrite items_of_snoc item_at_other // app_nil_r.
Qed.

(** The change that an item makes to the info of its case. *)
Definition change {t} (c : string) (it : item t) : info t → info t :=
  match it with
  | Pattern n meta => AddTestPattern c n meta
  | Instantiation p g nf file line => AddTestCaseInstantiation p g nf file line
  end.

Lemma info_of_change c t prog it :
  info_of c t (prog ++ [Statement c t it]) = change c it (info_of c t prog).
Proof.
  unfold info_of, patterns_of, instantiations_of. rewrite items_of_snoc item_at_self.
  rewrite !omap_app. destruct it; cbn; by rewrite ?app_nil_r.
Qed.

Lemma run_statement_change s infos :
  run_statement s infos =
    (i ← GetTestCasePatternHolder (s_case s) (s_type s);
     on_info i (s_type s) (change (s_case s) (s_item s))) infos.
Proof. by destruct s as [c t []]. Qed.

(** * Running a program *)

Lemma get_holder_found infos i h :
  NoDup (h_name <$> infos) → infos !! i = Some h →
  GetTestCasePatternHolder (h_name h) (h_type h) infos = (Done i, infos).
Proof.
  intros Hnd Hi. unfold GetTestCasePatternHolder. rewrite (bind_done _ _ infos infos infos) //.
  rewrite (bind_done _ _ infos (Some i) infos) //. rewrite find_holder_run.
  assert (list_find (λ h' : holder, h_name h' = h_name h) infos = Some (i, h)) as ->.
  { apply list_find_Some. split_and!; [done..|]. intros j h' Hj Hlt Heq.
    assert (i = j) as ->; [|lia]. apply (NoDup_lookup _ i j (h_name h)) in Hnd; [done|..];
      by rewrite list_lookup_fmap ?Hi ?Hj /= ?Heq. }
  by rewrite bool_decide_eq_true_2.
Qed.

Lemma get_holder_new c t infos :
  c ∉ h_name <$> infos →
  GetTestCasePatternHolder c t infos =
    (Done (length infos), infos ++ [new_holder c t]).
Proof.
  intros Hc. unfold GetTestCasePatternHolder. rewrite (bind_done _ _ infos infos infos) //.
  rewrite (bind_done _ _ infos None infos) //. rewrite find_holder_run.
  assert (list_find (λ h' : holder, h_name h' = c) infos = None) as ->; [|done].
  apply list_find_None, Forall_forall. intros h Hh <-. apply Hc. by apply list_elem_of_fmap_2.
Qed.

Lemma get_holder_clash c t infos i h :
  list_find (λ h' : holder, h_name h' = c) infos = Some (i, h) → h_type h ≠ t →
  GetTestCasePatternHolder c t infos = (Aborted, infos).
Proof.
  intros Hf Ht. unfold GetTestCasePatternHolder. rewrite (bind_done _ _ infos infos infos) //.
  unfold mbind, cmd_bind. rewrite find_holder_run Hf. by rewrite bool_decide_eq_false_2.
Qed.

Lemma on_info_run i c t (f : info t → info t) tests infos :
  infos !! i = Some (Holder c t tests) →
  on_info i t f infos = (Done (), <[i := Holder c t (f tests)]> infos).
Proof.
  intros Hi. unfold on_info. rewrite (bind_done _ _ infos infos infos) // Hi /= bind_ret_l.
  unfold CheckedDowncastToActualType. cbn. by rewrite (decide_True_pi eq_refl).
Qed.

Section typed.
Context (type_of : string → TypeId).

Lemma spec_names prog : h_name <$> spec_registry type_of prog = case_names prog.
Proof. unfold spec_registry. rewrite -list_fmap_compose. by apply list_fmap_id. Qed.

Lemma spec_lookup prog i c :
  case_names prog !! i = Some c →
  spec_registry type_of prog !! i = Some (Holder c (type_of c) (info_of c (type_of c) prog)).
Proof. intros Hi. unfold spec_registry. by rewrite list_lookup_fmap Hi. Qed.

(** A statement about a case that has an info changes that info only. *)
Lemma spec_update prog i c (it : item (type_of c)) :
  case_names prog !! i = Some c →
  spec_registry type_of (prog ++ [Statement c (type_of c) it]) =
    <[i := Holder c (type_of c) (change c it (info_of c (type_of c) prog))]> (spec_registry type_of prog).
Proof.
  intros Hi. assert (case_names (prog ++ [Statement c (type_of c) it]) = case_names prog) as Hns.
  { unfold case_names. rewrite first_names_snoc /= decide_True //. by eapply list_elem_of_lookup_2. }
  unfold spec_registry. rewrite Hns. apply list_eq. intros j.
  destruct (decide (i = j)) as [<-|Hij].
  - rewrite list_lookup_insert_eq ?length_fmap; [by eapply lookup_lt_Some|].
    by rewrite list_lookup_fmap Hi /= info_of_change.
  - rewrite list_lookup_insert_ne // !list_lookup_fmap.
    destruct (case_names prog !! j) as [d|] eqn:Hj; [|done]. cbn. do 2 f_equal.
    apply info_of_other. cbn. intros ->. apply Hij. eapply NoDup_lookup; eauto using case_names_NoDup.
Qed.

(** A statement about a new case adds an info for it. *)
Lemma spec_new prog c (it : item (type_of c)) :
  c ∉ case_names prog →
  spec_registry type_of (prog ++ [Statement c (type_of c) it]) =
    spec_registry type_of prog ++ [Holder c (type_of c) (change c it (CaseInfo [] []))].
Proof.
  intros Hc. unfold spec_registry.
  assert (case_names (prog ++ [Statement c (type_of c) it]) = case_names prog ++ [c]) as ->.
  { unfold case_names. by rewrite first_names_snoc /= decide_False. }
  rewrite fmap_app. f_equal.
  - apply list_fmap_ext. intros i d Hi. f_equal. apply info_of_other. cbn. intros ->.
    apply Hc. by eapply list_elem_of_lookup_2.
  - cbn. do 2 f_equal. rewrite info_of_change. f_equal. unfold info_of, patterns_of, instantiations_of.
    by rewrite items_of_new.
Qed.

Lemma run_statement_spec prog s :
  s_type s = type_of (s_case s) →
  run_statement s (spec_registry type_of prog) = (Done (), spec_registry type_of (prog ++ [s])).
Proof.
  destruct s as [c t it]. cbn. intros ->. rewrite run_statement_change. cbn.
  destruct (decide (c ∈ case_names prog)) as [[i Hi]%list_elem_of_lookup|Hc].
  - pose proof (spec_lookup prog i c Hi) as Hh.
    assert (NoDup (h_name <$> spec_registry type_of prog)) as Hnd
      by (rewrite spec_names; apply case_names_NoDup).
    rewrite (bind_done _ _ _ _ _ (get_holder_found _ i _ Hnd Hh)).
    by rewrite (on_info_run i c _ _ _ _ Hh) -spec_update.
  - erewrite bind_done by (by apply get_holder_new; rewrite spec_names).
    rewrite (on_info_run _ c _ _ (CaseInfo [] [])); [|].
    + by rewrite lookup_app_r // Nat.sub_diag.
    + rewrite spec_new // insert_app_r_alt // Nat.sub_diag. done.
Qed.

Lemma run_program_app prog prog' infos infos' :
  run_program prog infos = (Done (), infos') →
  run_program (prog ++ prog') infos = run_program prog' infos'.
Proof.
  revert infos. induction prog as [|s prog IH]; intros infos; cbn; [by intros [= ->]|].
  unfold mbind, cmd_bind. destruct (run_statement s infos) as [[[]| | | | |] infos'']; try done. apply IH.
Qed.

Lemma run_program_spec prog :
  typed type_of prog → run_program prog [] = (Done (), spec_registry type_of prog).
Proof.
  induction prog as [|s prog IH] using rev_ind; [done|].
  intros [Hp [Hs _]%Forall_cons]%Forall_app. erewrite run_program_app by (by apply IH). cbn.
  by rewrite (bind_done _ _ _ _ _ (run_statement_spec _ _ Hs)).
Qed.

Lemma run_statement_clash prog s :
  s_case s ∈ s_case <$> prog → s_type s ≠ type_of (s_case s) →
  run_statement s (spec_registry type_of prog) = (Aborted, spec_registry type_of prog).
Proof.
  intros Hc Ht. rewrite run_statement_change. unfold mbind, cmd_bind.
  apply elem_of_case_names, list_elem_of_lookup in Hc as [i Hi].
  rewrite (get_holder_clash _ _ _ i
    (Holder (s_case s) (type_of (s_case s)) (info_of (s_case s) (type_of (s_case s)) prog))) //.
  apply list_find_Some. split_and!; [by apply spec_lookup|done|]. intros j h Hj Hlt Hn.
  assert (i = j) as ->; [|lia]. eapply (NoDup_lookup _ i j (s_case s)); [apply (case_names_NoDup prog)|done|].
  by rewrite -(spec_names prog) list_lookup_fmap Hj /= Hn.
Qed.
End typed.

(** * All tests of a program *)

Section registration.
Context (PrintToString : ∀ t, ParamType t → string) (fuel : nat).
(** What each instantiation's generator yields. *)
Context (values : ∀ t, InstantiationInfo (P := ParamType t) → list (ParamType t)).

Definition with_values (t : TypeId) (insts : list (InstantiationInfo (P := ParamType t))) :=
  (λ i, (i, values t i)) <$> insts.

(** The tests of one case. *)
Definition case_tests (t : TypeId) (c : string) (prog : list statement) : list (registered (F := F)) :=
  all_calls (PrintToString t) (patterns_of c t prog) (with_values t (instantiations_of c t prog)).

Definition case_ok (t : TypeId) (c : string) (prog : list statement) : Prop :=
  insts_yield fuel (with_values t (instantiations_of c t prog)) ∧
  Forall (λ il, names_ok (names_of il)) (with_values t (instantiations_of c t prog)).

Lemma register_case t c prog rs :
  case_ok t c prog →
  RegisterTests (PrintToString t) fuel (info_of c t prog) rs = (Done (), rs ++ case_tests t c prog).
Proof.
  intros [HY Hn]. destruct (test_loop_run (PrintToString t) fuel (patterns_of c t prog) _ rs HY) as [Hok _].
  specialize (Hok Hn). unfold RegisterTests, info_of, with_values in *. cbn.
  rewrite -list_fmap_compose in Hok. rewrite -Hok. f_equal. by rewrite list_fmap_id.
Qed.

Lemma register_all type_of prog ns rs :
  Forall (λ c, case_ok (type_of c) c prog) ns →
  RegisterAll PrintToString fuel
    ((λ c, Holder c (type_of c) (info_of c (type_of c) prog)) <$> ns) rs =
    (Done (), rs ++ (c ← ns; case_tests (type_of c) c prog)).
Proof.
  intros Hok. revert rs. induction Hok as [|c ns Hc _ IH]; intros rs; cbn; [by rewrite app_nil_r|].
  rewrite (bind_done _ _ _ _ _ (register_case _ _ _ rs Hc)). by rewrite IH -app_assoc.
Qed.

(** C31. A program of TEST_P and INSTANTIATE_TEST_CASE_P statements, in any order, in
    which each name stands for one fixture class, registers for each case, in the
    order of first mention, each of its patterns with each of its instantiations and
    each value, wherever the statements stand. A statement that uses a name for
    another class than the statements before it aborts the program. *)
Theorem program_registers_tests type_of prog :
  typed type_of prog → Forall (λ c, case_ok (type_of c) c prog) (case_names prog) →
  (∃ infos, run_program prog [] = (Done (), infos) ∧
     h_name <$> infos = case_names prog ∧ NoDup (case_names prog) ∧
     RegisterAll PrintToString fuel infos [] =
       (Done (), c ← case_names prog; case_tests (type_of c) c prog)) ∧
  (∀ s prog', s_case s ∈ s_case <$> prog → s_type s ≠ type_of (s_case s) →
     ∃ infos, run_program (prog ++ s :: prog') [] = (Aborted, infos)).
Proof.
  intros Ht Hok. pose proof (run_program_spec type_of prog Ht) as Hrun. split.
  - eexists. split; [exact Hrun|]. split_and!; [apply spec_names|apply case_names_NoDup|].
    by apply register_all.
  - intros s prog' Hc Hs. exists (spec_registry type_of prog).
    rewrite (run_program_app _ _ _ _ Hrun). cbn. unfold mbind, cmd_bind.
    by rewrite (run_statement_clash _ _ _ Hc Hs).
Qed.
End registration.
End program.
Arguments Pattern {TypeId F ParamType t} _ _.
Arguments Instantiation {TypeId F ParamType t} _ _ _ _ _.
Arguments Statement {TypeId F ParamType} _ _ _.

(** * A concrete program *)

(** Two fixture classes: one with int parameters, one with pairs. *)
Definition sample_param (t : Z) : Type := if bool_decide (t = 0) then Z else tuple [bool : Type; Z : Type].
Definition sample_type (c : string) : Z := if bool_decide (c = "Foo"%string) then 0 else 1.
Definition sample_print (t : Z) (_ : sample_param t) : string := "value".

#[local] Instance id_cast : StaticCast Z Z := λ x, x.
Definition sample_ints : ParamGeneratorInterface Z := to_generator Z (Values3 7 8 9).
Definition sample_pairs : ParamGeneratorInterface (tuple [bool : Type; Z : Type]) :=
  Combine2 (T1 := bool) (T2 := Z) Bool (Values2 1 2).

Definition sample_program : list (statement (F := string) sample_param) :=
  [Statement "Foo" 0 (Pattern (ParamType := sample_param) (t := 0) "A" (λ _, "FooA"%string));
   Statement "Bar" 1 (Instantiation (ParamType := sample_param) (t := 1)
     "Pairs" sample_pairs DefaultParamName "bar.cc" 3);
   Statement "Foo" 0 (Instantiation (ParamType := sample_param) (t := 0)
     EmptyString sample_ints DefaultParamName "foo.cc" 8);
   Statement "Bar" 1 (Pattern (ParamType := sample_param) (t := 1) "B" (λ _, "BarB"%string))].

Definition sample_values (t : Z) (i : InstantiationInfo (P := sample_param t)) : list (sample_param t) :=
  default [] (collect (inst_generator i) 4 (Begin (inst_generator i))).

Example sample_program_tests :
  full_name <$> (c ← case_names sample_param sample_program;
                 case_tests sample_param sample_print sample_values (sample_type c) c sample_program) =
    [("Foo", "A/0"); ("Foo", "A/1"); ("Foo", "A/2");
     ("Pairs/Bar", "B/0"); ("Pairs/Bar", "B/1"); ("Pairs/Bar", "B/2"); ("Pairs/Bar", "B/3")]%string.
Proof. vm_compute. reflexivity. Qed.

Lemma sample_ints_yield : Yields sample_ints [7; 8; 9].
Proof. apply (value_array_yields (casts_cons id_cast (casts_cons id_cast (casts_cons id_cast casts_nil)))). Qed.

Lemma sample_pairs_yield : Yields sample_pairs (product [bool : Type; Z : Type] ([false; true], ([1; 2], ()))).
Proof.
  apply (@product_yields [bool : Type; Z : Type] _ ([false; true], ([1; 2], ()))). split; [apply bool_yields|].
  apply (value_array_yields (casts_cons id_cast (casts_cons id_cast casts_nil))).
Qed.

Lemma sample_ok :
  Forall (λ c, case_ok sample_param 4 sample_values (sample_type c) c sample_program)
    (case_names sample_param sample_program).
Proof.
  change (case_names sample_param sample_program) with ["Foo"; "Bar"]%string.
  apply Forall_cons; split; [|apply Forall_singleton]; (split; [|vm_decide]);
    apply Forall_singleton; (split; [|vm_compute; lia]).
  - exact sample_ints_yield.
  - exact sample_pairs_yield.
Qed.

Lemma program_registers_tests_witness :
  (∃ infos, run_program sample_param sample_program [] = (Done (), infos) ∧
     h_name <$> infos = ["Foo"; "Bar"]%string ∧ NoDup ["Foo"; "Bar"]%string ∧
     RegisterAll sample_print 4 infos [] =
       (Done (), c ← ["Foo"; "Bar"]%string;
          case_tests sample_param sample_print sample_values (sample_type c) c sample_program)) ∧
  (∀ s prog', s_case sample_param s ∈ s_case sample_param <$> sample_program →
     s_type sample_param s ≠ sample_type (s_case sample_param s) →
     ∃ infos, run_program sample_param (sample_program ++ s :: prog') [] = (Aborted, infos)).
Proof.
  apply (program_registers_tests sample_param sample_print 4 sample_values sample_type sample_program).
  - repeat constructor.
  - exact sample_ok.
Defined.
