(* ===== verification/TypeLists.v ===== *)
(** Lists of types and of class templates at compile time, in the bundled test
    library (src/gtest/include/gtest/internal/gtest-type-util.h).

    A type list is the type TypesN<T1, ..., TN>, with member types Head and Tail; the
    template Types<...> takes up to 50 arguments, the rest being None, and its
    specializations name the list without them. What the compiler computes with these
    types are values here: types and class templates are names of two sets
    ([CppTypes]). The generated families Types0 to 50, Templates0 to 50 and the
    specializations are the instances of one template each. *)

From S2P Require Import Prelude.

(** * Types and templates *)

(** The types and the class templates with one type parameter of a program, with
    the two that the library declares for absent arguments, and Tmpl<T>. *)
Class CppTypes : Type := {
  ctype : Type;
  ctemplate : Type;
  ctype_eq :: EqDecision ctype;
  ctemplate_eq :: EqDecision ctemplate;
  NoneType : ctype;
  NoneT : ctemplate;
  instantiate : ctemplate → ctype → ctype;
}.

(** A -> ... -> A -> R, with n arguments. *)
Fixpoint nary (A R : Type) (n : nat) : Type :=
  match n with O => R | S n => A → nary A R n end.

Fixpoint nary_map {A R R' : Type} (f : R → R') (n : nat) : nary A R n → nary A R' n :=
  match n with O => f | S n => λ g a, nary_map f n (g a) end.

(** The template of n arguments applied to a list of them. *)
Fixpoint apply_nary {A R : Type} (n : nat) : nary A R n → list A → option R :=
  match n with
  | O => λ r l, match l with [] => Some r | _ => None end
  | S n => λ g l, match l with a :: l => apply_nary n (g a) l | [] => None end
  end.

(** A list of types: the empty one, or one with Head and Tail. *)
Inductive type_list (H : Type) : Type :=
  | EmptyList
  | NonemptyList (Head : H) (Tail : type_list H).
Arguments EmptyList {H}.
Arguments NonemptyList {H} _ _.

(** Following Head and Tail. *)
Fixpoint walk {H} (ts : type_list H) : list H :=
  match ts with EmptyList => [] | NonemptyList h ts => h :: walk ts end.

(** struct XsN<T1, ..., TN> { typedef sel(T1) Head; typedef Xs(N-1)<T2, ..., TN> Tail; }. *)
Fixpoint list_struct {A H : Type} (sel : A → H) (n : nat) : nary A (type_list H) n :=
  match n with
  | O => EmptyList
  | S n => λ a, nary_map (NonemptyList (sel a)) n (list_struct sel n)
  end.

(** The specialization of a template of 50 arguments for T1, ..., Tn, None, ..., None:
    whether the arguments match, and then the list it names. *)
Definition specialization {A H : Type} `{!EqDecision A} (none : A) (sel : A → H) (n : nat)
    (args : list A) : option (type_list H) :=
  if bool_decide (drop n args = replicate (50 - n) none)
  then apply_nary n (list_struct sel n) (take n args) else None.

(** The first specialization of a list that matches. *)
Definition first_match {A H : Type} (specs : list (list A → option (type_list H))) (args : list A)
    : option (type_list H) := head (omap (λ spec, spec args) specs).

(** Missing template arguments are the default. *)
Definition with_defaults {A : Type} (none : A) (args : list A) : list A :=
  args ++ replicate (50 - length args) none.

Section lists.
Context {CT : CppTypes}.

(** TemplateSel<Tmpl>, with Bind<T>::type. *)
Record TemplateSel : Type := MkTemplateSel { selected : ctemplate }.
Definition Bind (s : TemplateSel) (t : ctype) : ctype := instantiate (selected s) t.

Definition types_struct (n : nat) : nary ctype (type_list ctype) n := list_struct (λ t, t) n.
Definition templates_struct (n : nat) : nary ctemplate (type_list TemplateSel) n :=
  list_struct MkTemplateSel n.
Definition types_spec : nat → list ctype → option (type_list ctype) :=
  specialization NoneType (λ t, t).
Definition templates_spec : nat → list ctemplate → option (type_list TemplateSel) :=
  specialization NoneT MkTemplateSel.

(** * The generated type lists *)

Definition Types0 := types_struct 0.
Definition Types1 := types_struct 1.
Definition Types2 := types_struct 2.
Definition Types3 := types_struct 3.
Definition Types4 := types_struct 4.
Definition Types5 := types_struct 5.
Definition Types6 := types_struct 6.
Definition Types7 := types_struct 7.
Definition Types8 := types_struct 8.
Definition Types9 := types_struct 9.
Definition Types10 := types_struct 10.
Definition Types11 := types_struct 11.
Definition Types12 := types_struct 12.
Definition Types13 := types_struct 13.
Definition Types14 := types_struct 14.
Definition Types15 := types_struct 15.
Definition Types16 := types_struct 16.
Definition Types17 := types_struct 17.
Definition Types18 := types_struct 18.
Definition Types19 := types_struct 19.
Definition Types20 := types_struct 20.
Definition Types21 := types_struct 21.
Definition Types22 := types_struct 22.
Definition Types23 := types_struct 23.
Definition Types24 := types_struct 24.
Definition Types25 := types_struct 25.
Definition Types26 := types_struct 26.
Definition Types27 := types_struct 27.
Definition Types28 := types_struct 28.
Definition Types29 := types_struct 29.
Definition Types30 := types_struct 30.
Definition Types31 := types_struct 31.
Definition Types32 := types_struct 32.
Definition Types33 := types_struct 33.
Definition Types34 := types_struct 34.
Definition Types35 := types_struct 35.
Definition Types36 := types_struct 36.
Definition Types37 := types_struct 37.
Definition Types38 := types_struct 38.
Definition Types39 := types_struct 39.
Definition Types40 := types_struct 40.
Definition Types41 := types_struct 41.
Definition Types42 := types_struct 42.
Definition Types43 := types_struct 43.
Definition Types44 := types_struct 44.
Definition Types45 := types_struct 45.
Definition Types46 := types_struct 46.
Definition Types47 := types_struct 47.
Definition Types48 := types_struct 48.
Definition Types49 := types_struct 49.
Definition Types50 := types_struct 50.

(** The specializations of Types; the most special one that matches is the first in
    this order. *)
Definition Types_spec0 := types_spec 0.
Definition Types_spec1 := types_spec 1.
Definition Types_spec2 := types_spec 2.
Definition Types_spec3 := types_spec 3.
Definition Types_spec4 := types_spec 4.
Definition Types_spec5 := types_spec 5.
Definition Types_spec6 := types_spec 6.
Definition Types_spec7 := types_spec 7.
Definition Types_spec8 := types_spec 8.
Definition Types_spec9 := types_spec 9.
Definition Types_spec10 := types_spec 10.
Definition Types_spec11 := types_spec 11.
Definition Types_spec12 := types_spec 12.
Definition Types_spec13 := types_spec 13.
Definition Types_spec14 := types_spec 14.
Definition Types_spec15 := types_spec 15.
Definition Types_spec16 := types_spec 16.
Definition Types_spec17 := types_spec 17.
Definition Types_spec18 := types_spec 18.
Definition Types_spec19 := types_spec 19.
Definition Types_spec20 := types_spec 20.
Definition Types_spec21 := types_spec 21.
Definition Types_spec22 := types_spec 22.
Definition Types_spec23 := types_spec 23.
Definition Types_spec24 := types_spec 24.
Definition Types_spec25 := types_spec 25.
Definition Types_spec26 := types_spec 26.
Definition Types_spec27 := types_spec 27.
Definition Types_spec28 := types_spec 28.
Definition Types_spec29 := types_spec 29.
Definition Types_spec30 := types_spec 30.
Definition Types_spec31 := types_spec 31.
Definition Types_spec32 := types_spec 32.
Definition Types_spec33 := types_spec 33.
Definition Types_spec34 := types_spec 34.
Definition Types_spec35 := types_spec 35.
Definition Types_spec36 := types_spec 36.
Definition Types_spec37 := types_spec 37.
Definition Types_spec38 := types_spec 38.
Definition Types_spec39 := types_spec 39.
Definition Types_spec40 := types_spec 40.
Definition Types_spec41 := types_spec 41.
Definition Types_spec42 := types_spec 42.
Definition Types_spec43 := types_spec 43.
Definition Types_spec44 := types_spec 44.
Definition Types_spec45 := types_spec 45.
Definition Types_spec46 := types_spec 46.
Definition Types_spec47 := types_spec 47.
Definition Types_spec48 := types_spec 48.
Definition Types_spec49 := types_spec 49.

Definition Types_specs : list (list ctype → option (type_list ctype)) := [
  Types_spec0; Types_spec1; Types_spec2; Types_spec3; Types_spec4; Types_spec5; Types_spec6;
   Types_spec7; Types_spec8; Types_spec9; Types_spec10; Types_spec11; Types_spec12;
   Types_spec13; Types_spec14; Types_spec15; Types_spec16; Types_spec17; Types_spec18;
   Types_spec19; Types_spec20; Types_spec21; Types_spec22; Types_spec23; Types_spec24;
   Types_spec25; Types_spec26; Types_spec27; Types_spec28; Types_spec29; Types_spec30;
   Types_spec31; Types_spec32; Types_spec33; Types_spec34; Types_spec35; Types_spec36;
   Types_spec37; Types_spec38; Types_spec39; Types_spec40; Types_spec41; Types_spec42;
   Types_spec43; Types_spec44; Types_spec45; Types_spec46; Types_spec47; Types_spec48;
   Types_spec49].

(** Types<args>::type; more than 50 arguments are a compile-time error. *)
Definition Types (args : list ctype) : option (type_list ctype) :=
  match first_match Types_specs (with_defaults NoneType args) with
  | Some ts => Some ts
  | None => apply_nary 50 Types50 (with_defaults NoneType args)
  end.

(** * The generated template lists *)

Definition Templates0 := templates_struct 0.
Definition Templates1 := templates_struct 1.
Definition Templates2 := templates_struct 2.
Definition Templates3 := templates_struct 3.
Definition Templates4 := templates_struct 4.
Definition Templates5 := templates_struct 5.
Definition Templates6 := templates_struct 6.
Definition Templates7 := templates_struct 7.
Definition Templates8 := templates_struct 8.
Definition Templates9 := templates_struct 9.
Definition Templates10 := templates_struct 10.
Definition Templates11 := templates_struct 11.
Definition Templates12 := templates_struct 12.
Definition Templates13 := templates_struct 13.
Definition Templates14 := templates_struct 14.
Definition Templates15 := templates_struct 15.
Definition Templates16 := templates_struct 16.
Definition Templates17 := templates_struct 17.
Definition Templates18 := templates_struct 18.
Definition Templates19 := templates_struct 19.
Definition Templates20 := templates_struct 20.
Definition Templates21 := templates_struct 21.
Definition Templates22 := templates_struct 22.
Definition Templates23 := templates_struct 23.
Definition Templates24 := templates_struct 24.
Definition Templates25 := templates_struct 25.
Definition Templates26 := templates_struct 26.
Definition Templates27 := templates_struct 27.
Definition Templates28 := templates_struct 28.
Definition Templates29 := templates_struct 29.
Definition Templates30 := templates_struct 30.
Definition Templates31 := templates_struct 31.
Definition Templates32 := templates_struct 32.
Definition Templates33 := templates_struct 33.
Definition Templates34 := templates_struct 34.
Definition Templates35 := templates_struct 35.
Definition Templates36 := templates_struct 36.
Definition Templates37 := templates_struct 37.
Definition Templates38 := templates_struct 38.
Definition Templates39 := templates_struct 39.
Definition Templates40 := templates_struct 40.
Definition Templates41 := templates_struct 41.
Definition Templates42 := templates_struct 42.
Definition Templates43 := templates_struct 43.
Definition Templates44 := templates_struct 44.
Definition Templates45 := templates_struct 45.
Definition Templates46 := templates_struct 46.
Definition Templates47 := templates_struct 47.
Definition Templates48 := templates_struct 48.
Definition Templates49 := templates_struct 49.
Definition Templates50 := templates_struct 50.

Definition Templates_spec0 := templates_spec 0.
Definition Templates_spec1 := templates_spec 1.
Definition Templates_spec2 := templates_spec 2.
Definition Templates_spec3 := templates_spec 3.
Definition Templates_spec4 := templates_spec 4.
Definition Templates_spec5 := templates_spec 5.
Definition Templates_spec6 := templates_spec 6.
Definition Templates_spec7 := templates_spec 7.
Definition Templates_spec8 := templates_spec 8.
Definition Templates_spec9 := templates_spec 9.
Definition Templates_spec10 := templates_spec 10.
Definition Templates_spec11 := templates_spec 11.
Definition Templates_spec12 := templates_spec 12.
Definition Templates_spec13 := templates_spec 13.
Definition Templates_spec14 := templates_spec 14.
Definition Templates_spec15 := templates_spec 15.
Definition Templates_spec16 := templates_spec 16.
Definition Templates_spec17 := templates_spec 17.
Definition Templates_spec18 := templates_spec 18.
Definition Templates_spec19 := templates_spec 19.
Definition Templates_spec20 := templates_spec 20.
Definition Templates_spec21 := templates_spec 21.
Definition Templates_spec22 := templates_spec 22.
Definition Templates_spec23 := templates_spec 23.
Definition Templates_spec24 := templates_spec 24.
Definition Templates_spec25 := templates_spec 25.
Definition Templates_spec26 := templates_spec 26.
Definition Templates_spec27 := templates_spec 27.
Definition Templates_spec28 := templates_spec 28.
Definition Templates_spec29 := templates_spec 29.
Definition Templates_spec30 := templates_spec 30.
Definition Templates_spec31 := templates_spec 31.
Definition Templates_spec32 := templates_spec 32.
Definition Templates_spec33 := templates_spec 33.
Definition Templates_spec34 := templates_spec 34.
Definition Templates_spec35 := templates_spec 35.
Definition Templates_spec36 := templates_spec 36.
Definition Templates_spec37 := templates_spec 37.
Definition Templates_spec38 := templates_spec 38.
Definition Templates_spec39 := templates_spec 39.
Definition Templates_spec40 := templates_spec 40.
Definition Templates_spec41 := templates_spec 41.
Definition Templates_spec42 := templates_spec 42.
Definition Templates_spec43 := templates_spec 43.
Definition Templates_spec44 := templates_spec 44.
Definition Templates_spec45 := templates_spec 45.
Definition Templates_spec46 := templates_spec 46.
Definition Templates_spec47 := templates_spec 47.
Definition Templates_spec48 := templates_spec 48.
Definition Templates_spec49 := templates_spec 49.

Definition Templates_specs : list (list ctemplate → option (type_list TemplateSel)) := [
  Templates_spec0; Templates_spec1; Templates_spec2; Templates_spec3; Templates_spec4;
   Templates_spec5; Templates_spec6; Templates_spec7; Templates_spec8; Templates_spec9;
   Templates_spec10; Templates_spec11; Templates_spec12; Templates_spec13; Templates_spec14;
   Templates_spec15; Templates_spec16; Templates_spec17; Templates_spec18; Templates_spec19;
   Templates_spec20; Templates_spec21; Templates_spec22; Templates_spec23; Templates_spec24;
   Templates_spec25; Templates_spec26; Templates_spec27; Templates_spec28; Templates_spec29;
   Templates_spec30; Templates_spec31; Templates_spec32; Templates_spec33; Templates_spec34;
   Templates_spec35; Templates_spec36; Templates_spec37; Templates_spec38; Templates_spec39;
   Templates_spec40; Templates_spec41; Templates_spec42; Templates_spec43; Templates_spec44;
   Templates_spec45; Templates_spec46; Templates_spec47; Templates_spec48; Templates_spec49].

Definition Templates (args : list ctemplate) : option (type_list TemplateSel) :=
  match first_match Templates_specs (with_defaults NoneT args) with
  | Some ts => Some ts
  | None => apply_nary 50 Templates50 (with_defaults NoneT args)
  end.

(** TypeList<T>::type of a single type, or of a Types<...> list. *)
Inductive type_arg : Type :=
  | SingleType (t : ctype)
  | TypesOf (args : list ctype).

Definition TypeList (a : type_arg) : option (type_list ctype) :=
  match a with SingleType t => Some (Types1 t) | TypesOf args => Types args end.
End lists.

(** * What the lists are *)

Section generic.
Context {A H : Type} `{!EqDecision A} (none : A) (sel : A → H).
Implicit Types l : list A.

Lemma apply_nary_map {R R' : Type} (f : R → R') n (g : nary A R n) l :
  apply_nary n (nary_map f n g) l = f <$> apply_nary n g l.
Proof. revert l. induction n as [|n IH]; intros [|a l]; cbn; auto. Qed.

Lemma apply_struct l :
  ∃ ts, apply_nary (length l) (list_struct sel (length l)) l = Some ts ∧ walk ts = sel <$> l.
Proof.
  induction l as [|a l (ts & Hts & Hw)]; cbn; [by eexists|].
  rewrite apply_nary_map Hts. eexists. split; [done|]. cbn. by rewrite Hw.
Qed.

Lemma apply_nary_length {R : Type} n (g : nary A R n) l :
  is_Some (apply_nary n g l) → length l = n.
Proof.
  revert l. induction n as [|n IH]; intros [|a l]; cbn; try by intros [? ?].
  intros Hl. by rewrite (IH (g a) l Hl).
Qed.

(** The arguments given, without the absent ones at their end. *)
Lemma with_defaults_pad l m :
  (length l + m ≤ 50)%nat → with_defaults none (l ++ replicate m none) = l ++ replicate (50 - length l) none.
Proof.
  intros Hl. unfold with_defaults. rewrite -app_assoc -replicate_add length_app length_replicate.
  do 2 f_equal. lia.
Qed.

Lemma spec_too_short l n :
  last l ≠ Some none → (n < length l ≤ 50)%nat →
  specialization none sel n (l ++ replicate (50 - length l) none) = None.
Proof.
  intros Hlast Hn. unfold specialization. rewrite bool_decide_eq_false_2 //.
  rewrite drop_app_le; [lia|]. intros Heq. apply Hlast.
  destruct (drop n l) as [|a k] eqn:Hd; [apply (f_equal length) in Hd; rewrite length_drop /= in Hd; lia|].
  assert (last (drop n l) = last l) as <-.
  { rewrite -{2}(take_drop n l) Hd last_app. by destruct (last_is_Some (a :: k)) as [_ [x ->]]. }
  rewrite Hd. apply (f_equal (take (length (a :: k)))) in Heq. rewrite take_app_length in Heq.
  rewrite Heq take_replicate. destruct (_ `min` _)%nat eqn:Hm; [cbn [length] in Hm; lia|].
  by rewrite replicate_S_end last_snoc.
Qed.

Lemma spec_matches l :
  specialization none sel (length l) (l ++ replicate (50 - length l) none) =
    apply_nary (length l) (list_struct sel (length l)) l.
Proof.
  unfold specialization. by rewrite drop_app_length take_app_length bool_decide_eq_true_2.
Qed.
End generic.

Lemma head_omap_seq {B} (f : nat → option B) n k x :
  (∀ i, (i < k)%nat → f i = None) → f k = Some x → (k < n)%nat → head (omap f (seq 0 n)) = Some x.
Proof.
  intros Hnone Hk Hn. replace n with (k + S (n - S k))%nat by lia.
  rewrite seq_app omap_app /= Hk.
  assert (omap f (seq 0 k) = []) as ->; [|done].
  clear Hk Hn. induction k as [|k IH]; [done|].
  rewrite seq_S omap_app /= Hnone; [lia|]. rewrite IH //. intros i Hi. apply Hnone. lia.
Qed.

Lemma omap_fmap {B C D} (f : C → option D) (g : B → C) (l : list B) : omap f (g <$> l) = omap (λ x, f (g x)) l.
Proof. induction l as [|x l IH]; [done|]. cbn. by rewrite IH. Qed.

Lemma head_omap_none {B C} (f : C → option B) l : (∀ c, c ∈ l → f c = None) → head (omap f l) = None.
Proof.
  induction l as [|c l IH]; intros Hf; [done|]. cbn. rewrite (Hf c); [apply list_elem_of_here|].
  apply IH. intros d Hd. apply Hf. by apply list_elem_of_further.
Qed.

(** The selection among specializations, for both families. *)
Lemma select_list {A H : Type} `{!EqDecision A} (none : A) (sel : A → H) l m :
  last l ≠ Some none → (length l + m ≤ 50)%nat →
  let args := with_defaults none (l ++ replicate m none) in
  ∃ ts, match first_match (specialization none sel <$> seq 0 50) args with
        | Some ts => Some ts
        | None => apply_nary 50 (list_struct sel 50) args
        end = Some ts ∧ walk ts = sel <$> l.
Proof.
  intros Hlast Hlen args. unfold args. rewrite with_defaults_pad //. unfold first_match.
  rewrite omap_fmap. destruct (apply_struct sel l) as (ts & Hts & Hw). exists ts. split; [|done].
  destruct (decide (length l = 50%nat)) as [Hl|Hl].
  - rewrite head_omap_none.
    + intros n [_ Hn]%elem_of_seq. apply spec_too_short; [done|lia].
    + by rewrite Hl Nat.sub_diag app_nil_r -Hl.
  - rewrite (head_omap_seq _ 50 (length l) ts) //; [|by rewrite /= spec_matches|lia].
    intros i Hi. apply spec_too_short; [done|lia].
Qed.

Lemma too_many {A H : Type} `{!EqDecision A} (none : A) (sel : A → H) args :
  (50 < length args)%nat →
  match first_match (specialization none sel <$> seq 0 50) (with_defaults none args) with
  | Some ts => Some ts
  | None => apply_nary 50 (list_struct sel 50) (with_defaults none args)
  end = None.
Proof.
  intros Hlen.
  assert (length (with_defaults none args) ≠ 50%nat) as Hargs
    by (unfold with_defaults; rewrite length_app length_replicate; lia).
  unfold first_match. rewrite omap_fmap head_omap_none.
  - intros n [_ Hn]%elem_of_seq. unfold specialization. case_bool_decide as Hd; [|done].
    apply (f_equal length) in Hd. rewrite length_drop length_replicate in Hd. lia.
  - apply eq_None_not_Some. by intros Hs%apply_nary_length.
Qed.

Section properties.
Context {CT : CppTypes}.

Lemma Types_select args :
  Types args =
    match first_match (specialization NoneType (λ t, t) <$> seq 0 50) (with_defaults NoneType args) with
    | Some ts => Some ts
    | None => apply_nary 50 (list_struct (λ t, t) 50) (with_defaults NoneType args)
    end.
Proof. done. Qed.

Lemma Templates_select args :
  Templates args =
    match first_match (specialization NoneT MkTemplateSel <$> seq 0 50) (with_defaults NoneT args) with
    | Some ts => Some ts
    | None => apply_nary 50 (list_struct MkTemplateSel 50) (with_defaults NoneT args)
    end.
Proof. done. Qed.

Lemma types_walk l m :
  last l ≠ Some NoneType → (length l + m ≤ 50)%nat →
  ∃ ts, Types (l ++ replicate m NoneType) = Some ts ∧ walk ts = l.
Proof.
  intros Hl Hm. destruct (select_list NoneType (λ t, t) l m Hl Hm) as (ts & Hts & Hw).
  exists ts. by rewrite Types_select Hts Hw list_fmap_id.
Qed.

Lemma templates_walk l m :
  last l ≠ Some NoneT → (length l + m ≤ 50)%nat →
  ∃ ts, Templates (l ++ replicate m NoneT) = Some ts ∧ walk ts = MkTemplateSel <$> l.
Proof.
  intros Hl Hm. destruct (select_list NoneT MkTemplateSel l m Hl Hm) as (ts & Hts & Hw).
  exists ts. by rewrite Templates_select Hts Hw.
Qed.

(** C34. Types and Templates of up to 50 arguments name the list of the arguments up to
    the last that is not None: its Heads along the Tails are these arguments, in order
    and with the Nones between them; more than 50 arguments are an error. A single
    type is the same type parameter as a list of it. *)
Theorem types_are_their_arguments (l : list ctype) (k : list ctemplate) (m : nat) (t : ctype) :
  (last l ≠ Some NoneType → (length l + m ≤ 50)%nat →
   ∃ ts, Types (l ++ replicate m NoneType) = Some ts ∧ walk ts = l) ∧
  (last k ≠ Some NoneT → (length k + m ≤ 50)%nat →
   ∃ ts, Templates (k ++ replicate m NoneT) = Some ts ∧ walk ts = MkTemplateSel <$> k) ∧
  ((50 < length l)%nat → Types l = None) ∧ ((50 < length k)%nat → Templates k = None) ∧
  (t ≠ NoneType → TypeList (SingleType t) = TypeList (TypesOf [t])).
Proof.
  split_and!; [apply types_walk|apply templates_walk|apply (too_many NoneType (λ t, t))|
    apply (too_many NoneT MkTemplateSel)|].
  intros Ht. destruct (types_walk [t] 0) as (ts & Hts & Hw); [by intros [= ?]|simpl; lia|].
  cbn [app replicate] in Hts. cbn [TypeList]. rewrite Hts.
  destruct ts as [|h [|]]; try done. injection Hw as ->. done.
Qed.
End properties.

(** * A concrete program *)

(** Types and templates by their names. *)
#[local] Instance named_types : CppTypes := {|
  ctype := string;
  ctemplate := string;
  NoneType := "None";
  NoneT := "NoneT";
  instantiate tm t := tm +:+ "<" +:+ t +:+ ">";
|}.

Definition t_int : ctype := "int"%string.
Definition t_char : ctype := "char"%string.
Definition tm_foo : ctemplate := "FooTest"%string.

Lemma types_are_their_arguments_witness :
  (∃ ts, Types [t_int; NoneType; t_char; NoneType; NoneType] = Some ts ∧
     walk ts = [t_int; NoneType; t_char]) ∧
  (∃ ts, Templates [tm_foo; NoneT; NoneT] = Some ts ∧ walk ts = [MkTemplateSel tm_foo]).
Proof.
  destruct (types_are_their_arguments [t_int; NoneType; t_char] [tm_foo] 2 t_int)
    as (Htypes & Htemplates & _ & _ & _).
  split; [apply Htypes|apply Htemplates]; cbn; (lia || by intros [= ?]).
Defined.
