(* ===== verification/TypedTests.v ===== *)
(** Typed and type-parameterized tests of the bundled test library: the class
    TypedTestCasePState, the recursion of TypeParameterizedTest and
    TypeParameterizedTestCase over their type lists and the functions that read a
    list of names (src/gtest/include/gtest/internal/gtest-internal.h, two helpers in
    gtest-port.h), and the macros TYPED_TEST, TYPED_TEST_P and
    INSTANTIATE_TYPED_TEST_CASE_P (gtest-typed-test.h).

    Calls of MakeAndRegisterTestInfo are recorded in order. *)

From stdpp Require Import pretty.
From S2P Require Import Prelude Machine ParamGenerator TypeLists.
#[local] Open Scope Z_scope.

(** * Names in strings *)

Definition comma : Ascii.ascii := Ascii.ascii_of_nat 44.

(** IsSpace, in the C locale. *)
Definition IsSpace (ch : Ascii.ascii) : bool :=
  let n := Z.of_nat (Ascii.nat_of_ascii ch) in bool_decide (9 ≤ n ≤ 13) || bool_decide (n = 32).

(** strchr(str, ch), for a ch that is not NUL: what follows from the first ch on. *)
Fixpoint strchr (ch : Ascii.ascii) (str : string) : option string :=
  match str with
  | EmptyString => None
  | String c rest => if bool_decide (c = ch) then Some str else strchr ch rest
  end.

Fixpoint skip_spaces (str : string) : string :=
  match str with
  | String c rest => if IsSpace c then skip_spaces rest else str
  | EmptyString => EmptyString
  end.

(** SkipComma; [None] is NULL. *)
Definition SkipComma (str : string) : option string :=
  match strchr comma str with
  | Some (String _ rest) => Some (skip_spaces rest)     (* while (IsSpace( *(++comma))) {} *)
  | _ => None
  end.

(** The characters of [str] before the suffix [rest]. *)
Definition before (str rest : string) : string :=
  String.substring 0 (String.length str - String.length rest) str.

Definition GetPrefixUntilComma (str : string) : string :=
  match strchr comma str with None => str | Some rest => before str rest end.

(** The loop of StripTrailingSpaces with the iterator at place [it], the end. *)
Fixpoint strip_loop (it : nat) (str : string) : string :=
  match it with
  | O => str
  | S it =>
    match String.get it str with
    | Some c => if IsSpace c then strip_loop it (String.substring 0 it str) else str
    | None => str
    end
  end.
Definition StripTrailingSpaces (str : string) : string := strip_loop (String.length str) str.

(** * Type-parameterized test cases *)

Record CodeLocation : Type := MkLocation { loc_file : string; loc_line : Z }.

(** TypedTestCasePState. *)
Record TypedTestCasePState : Type := MkPState {
  registered_ : bool;
  registered_tests_ : gmap string CodeLocation;
}.

Definition new_pstate : TypedTestCasePState := MkPState false ∅.

(** map::insert does not replace what is there. *)
Definition map_insert (k : string) (v : CodeLocation) (m : gmap string CodeLocation) :=
  match m !! k with Some _ => m | None => <[k := v]> m end.

Definition AddTestName (file : string) (line : Z) (test_name : string) : cmd TypedTestCasePState bool :=
  st ← get;
  if registered_ st then abort
  else
    modify (λ st, MkPState (registered_ st)
      (map_insert test_name (MkLocation file line) (registered_tests_ st)));;
    mret true.

Definition TestExists (st : TypedTestCasePState) (test_name : string) : bool :=
  bool_decide (is_Some (registered_tests_ st !! test_name)).

Section typed.
Context {CT : CppTypes} (GetTypeName : ctype → string).

(** The calls of MakeAndRegisterTestInfo, with the fixture class and the class of the
    test that the factory makes. *)
Record typed_test : Type := TypedTest {
  tt_case_name : string;
  tt_name : string;
  tt_type_param : string;
  tt_location : CodeLocation;
  tt_fixture : ctype;
  tt_class : ctype;
}.
Notation tests := (list typed_test).

(** GetCodeLocation: a failed check aborts. *)
Definition GetCodeLocation (st : TypedTestCasePState) (test_name : string) : cmd tests CodeLocation :=
  match registered_tests_ st !! test_name with Some loc => mret loc | None => abort end.

(** std::string(prefix) + (prefix[0] == '\0' ? "" : "/") + case_name + "/" + index. *)
Definition typed_case_name (prefix case_name : string) (index : Z) : string :=
  prefix +:+ (if bool_decide (prefix = EmptyString) then EmptyString else "/") +:+
  case_name +:+ "/" +:+ pretty index.

(** TypeParameterizedTest<Fixture, TestSel, Types>::Register. *)
Fixpoint TypeParameterizedTest_Register (Fixture : ctemplate) (TestSel : TemplateSel)
    (Types : type_list ctype) (prefix : string) (code_location : CodeLocation)
    (case_name : string) (test_names : option string) (index : Z) : cmd tests bool :=
  match Types with
  | EmptyList => mret true
  | NonemptyList Type_ Tail =>
    names ← or_ub NullDeref test_names;
    modify (λ ts, ts ++ [TypedTest (typed_case_name prefix case_name index)
      (StripTrailingSpaces (GetPrefixUntilComma names)) (GetTypeName Type_) code_location
      (instantiate Fixture Type_) (Bind TestSel Type_)]);;
    index ← or_ub SignedOverflow (int_succ index);
    TypeParameterizedTest_Register Fixture TestSel Tail prefix code_location case_name test_names index
  end.

(** TypeParameterizedTestCase<Fixture, Tests, Types>::Register. *)
Fixpoint TypeParameterizedTestCase_Register (Fixture : ctemplate) (Tests : type_list TemplateSel)
    (Types : type_list ctype) (prefix : string) (code_location : CodeLocation)
    (state : TypedTestCasePState) (case_name : string) (test_names : option string)
    : cmd tests bool :=
  match Tests with
  | EmptyList => mret true
  | NonemptyList Head Tail =>
    names ← or_ub NullDeref test_names;
    let test_name := StripTrailingSpaces (GetPrefixUntilComma names) in
    if negb (TestExists state test_name) then abort
    else
      test_location ← GetCodeLocation state test_name;
      TypeParameterizedTest_Register Fixture Head Types prefix test_location case_name test_names 0;;
      TypeParameterizedTestCase_Register Fixture Tail Types prefix code_location state case_name
        (SkipComma names)
  end.

(** The macros. [Types] is the list after TypeList<...>::type. *)
Definition TYPED_TEST (CaseName : string) (Fixture : ctemplate) (Types : type_list ctype)
    (TestName : string) (TestClass : ctemplate) (loc : CodeLocation) : cmd tests bool :=
  TypeParameterizedTest_Register Fixture (MkTemplateSel TestClass) Types EmptyString loc CaseName
    (Some TestName) 0.

Definition TYPED_TEST_P (TestName : string) (loc : CodeLocation) : cmd TypedTestCasePState bool :=
  AddTestName (loc_file loc) (loc_line loc) TestName.

Definition INSTANTIATE_TYPED_TEST_CASE_P (Prefix CaseName : string) (Fixture : ctemplate)
    (AllTests : type_list TemplateSel) (Types : type_list ctype) (loc : CodeLocation)
    (state : TypedTestCasePState) (registered_test_names : string) : cmd tests bool :=
  TypeParameterizedTestCase_Register Fixture AllTests Types Prefix loc state CaseName
    (Some registered_test_names).
End typed.

(** * Reading a list of names *)

#[local] Arguments String.append : simpl never.

Lemma string_cons_app c a b : String c a +:+ b = String c (a +:+ b).
Proof. done. Qed.

Lemma string_snoc_inv s : s ≠ EmptyString → ∃ t c, s = t +:+ String c EmptyString.
Proof.
  induction s as [|c s IH]; [done|]. intros _. destruct s as [|d s]; [by exists EmptyString, c|].
  destruct IH as (t & e & ->); [done|]. exists (String c t), e. by rewrite string_cons_app.
Qed.

Lemma get_middle a c b : String.get (String.length a) (a +:+ String c b) = Some c.
Proof. induction a as [|d a IH]; [done|]. by rewrite string_cons_app. Qed.

Lemma substring_prefix a b : String.substring 0 (String.length a) (a +:+ b) = a.
Proof.
  induction a as [|c a IH]; [by destruct b|]. rewrite string_cons_app. cbn. by rewrite IH.
Qed.

Lemma before_app a b : before (a +:+ b) b = a.
Proof.
  unfold before. rewrite string_length_app. replace (_ - _)%nat with (String.length a) by lia.
  apply substring_prefix.
Qed.

Lemma strchr_app ch a b : strchr ch a = None → strchr ch (a +:+ b) = strchr ch b.
Proof.
  induction a as [|c a IH]; [done|]. rewrite string_cons_app. cbn. case_bool_decide; [done|apply IH].
Qed.

(** Blank strings. *)
Definition spaces (s : string) : Prop := skip_spaces s = EmptyString.

Lemma skip_spaces_app a b : spaces a → skip_spaces (a +:+ b) = skip_spaces b.
Proof.
  unfold spaces. induction a as [|c a IH]; [done|]. rewrite string_cons_app. cbn.
  destruct (IsSpace c); [apply IH|done].
Qed.

Lemma spaces_no_comma a : spaces a → strchr comma a = None.
Proof.
  unfold spaces. induction a as [|c a IH]; [done|]. cbn. destruct (IsSpace c) eqn:Hc; [|done].
  intros Ha. case_bool_decide as Hcc; [by rewrite Hcc in Hc|by apply IH].
Qed.

Lemma spaces_snoc a c : spaces (a +:+ String c EmptyString) → spaces a ∧ IsSpace c = true.
Proof.
  unfold spaces. induction a as [|d a IH]; rewrite ?string_cons_app; cbn.
  - change (EmptyString +:+ String c EmptyString) with (String c EmptyString). cbn.
    by destruct (IsSpace c).
  - destruct (IsSpace d); [apply IH|done].
Qed.

Lemma StripTrailingSpaces_snoc s c :
  StripTrailingSpaces (s +:+ String c EmptyString) =
    if IsSpace c then StripTrailingSpaces s else s +:+ String c EmptyString.
Proof.
  unfold StripTrailingSpaces. rewrite string_length_app Nat.add_1_r. cbn [strip_loop].
  by rewrite get_middle substring_prefix.
Qed.

Lemma StripTrailingSpaces_app s a : spaces a → StripTrailingSpaces (s +:+ a) = StripTrailingSpaces s.
Proof.
  remember (String.length a) as n eqn:Hn. revert a Hn. induction n as [|n IH]; intros a Hn Ha.
  - destruct a; [|done]. by rewrite string_app_nil_r.
  - destruct (string_snoc_inv a) as (t & c & ->); [by destruct a|].
    apply spaces_snoc in Ha as [Ht Hc]. rewrite string_app_assoc StripTrailingSpaces_snoc Hc.
    apply IH; [|done]. rewrite string_length_app /= in Hn. lia.
Qed.

(** A name: no comma in it, and neither its first nor its last character blank. *)
Definition name_ok (n : string) : Prop :=
  strchr comma n = None ∧ skip_spaces n = n ∧ StripTrailingSpaces n = n ∧ n ≠ EmptyString.

(** A list of names as the macro's arguments are spelled: each with the blanks after
    it and, but for the last, after the comma. *)
Fixpoint spell (items : list (string * string * string)) : string :=
  match items with
  | [] => EmptyString
  | [(n, a, _)] => n +:+ a
  | (n, a, b) :: items => n +:+ a +:+ String comma (b +:+ spell items)
  end.
Definition item_ok (i : string * string * string) : Prop :=
  name_ok i.1.1 ∧ spaces i.1.2 ∧ spaces i.2.
Definition spelled (items : list (string * string * string)) : list string := (λ i, i.1.1) <$> items.

Lemma skip_spaces_name n s : name_ok n → skip_spaces (n +:+ s) = n +:+ s.
Proof.
  intros (_ & Hsk & _ & Hn). destruct n as [|c n]; [done|]. rewrite string_cons_app. cbn in *.
  destruct (IsSpace c); [|done]. exfalso. assert (∀ m, String.length (skip_spaces m) ≤ String.length m)%nat as Hl.
  { intros m. induction m as [|d m IH]; [done|]. cbn. destruct (IsSpace d); cbn; lia. }
  specialize (Hl n). rewrite Hsk /= in Hl. lia.
Qed.

Lemma spell_prefix i items :
  item_ok i → GetPrefixUntilComma (spell (i :: items)) = i.1.1 +:+ i.1.2.
Proof.
  destruct i as [[n a] b]. intros ((Hn & _) & Ha & _). cbn in *. unfold GetPrefixUntilComma.
  assert (strchr comma (n +:+ a) = None) as Hna by by rewrite strchr_app // spaces_no_comma.
  destruct items as [|j items]; [by rewrite Hna|].
  rewrite string_app_assoc strchr_app //=. by rewrite before_app.
Qed.

Lemma spell_name i items :
  item_ok i → StripTrailingSpaces (GetPrefixUntilComma (spell (i :: items))) = i.1.1.
Proof.
  intros Hi. rewrite spell_prefix //. destruct Hi as ((_ & _ & Hs & _) & Ha & _).
  by rewrite StripTrailingSpaces_app.
Qed.

Lemma spell_next i items :
  item_ok i → Forall item_ok items →
  SkipComma (spell (i :: items)) = match items with [] => None | _ => Some (spell items) end.
Proof.
  destruct i as [[n a] b]. intros ((Hn & _) & Ha & Hb) Hok. cbn in *. unfold SkipComma.
  assert (strchr comma (n +:+ a) = None) as Hna by by rewrite strchr_app // spaces_no_comma.
  destruct items as [|j items]; [by rewrite Hna|].
  rewrite string_app_assoc strchr_app //=. f_equal. rewrite skip_spaces_app //.
  apply Forall_cons in Hok as [[Hj _] _]. destruct j as [[n' a'] b'], items; apply (skip_spaces_name _ _ Hj).
Qed.

(** * Registration *)

(** The statements TYPED_TEST_P of a case, in their order. *)
Fixpoint define_tests (defs : list (string * CodeLocation)) : cmd TypedTestCasePState unit :=
  match defs with
  | [] => mret ()
  | d :: defs => TYPED_TEST_P d.1 d.2;; define_tests defs
  end.

(** The location of the first definition of a name. *)
Fixpoint location_of (defs : list (string * CodeLocation)) (n : string) : option CodeLocation :=
  match defs with
  | [] => None
  | d :: defs => if decide (d.1 = n) then Some d.2 else location_of defs n
  end.

Lemma define_tests_run defs m :
  ∃ m', define_tests defs (MkPState false m) = (Done (), MkPState false m') ∧
    ∀ n, m' !! n = match m !! n with Some loc => Some loc | None => location_of defs n end.
Proof.
  revert m. induction defs as [|[n [f l]] defs IH]; intros m.
  - exists m. split; [done|]. intros n. by destruct (m !! n).
  - destruct (IH (map_insert n (MkLocation f l) m)) as (m' & Hrun & Hm'). exists m'.
    split; [by cbn; erewrite bind_done by reflexivity|]. intros k. rewrite Hm'.
    cbn. unfold map_insert. destruct (m !! n) as [loc|] eqn:Hn.
    + case_decide as Hk; [|done]. subst k. by rewrite Hn.
    + case_decide as Hk; [subst k; by rewrite lookup_insert_eq Hn|by rewrite lookup_insert_ne].
Qed.

Lemma location_of_is_Some defs n : is_Some (location_of defs n) ↔ n ∈ defs.*1.
Proof.
  induction defs as [|d defs IH]; cbn.
  - split; [by intros [? ?]|by intros ?%elem_of_nil].
  - rewrite elem_of_cons -IH. case_decide; naive_solver.
Qed.

Section registration.
Context {CT : CppTypes} (GetTypeName : ctype → string).
Context (Fixture : ctemplate) (Prefix CaseName : string).

(** The tests of one name: one for each type, numbered from [k]. *)
Definition tests_of_name (loc : CodeLocation) (name : string) (sel : TemplateSel) (k : nat)
    (ts : list ctype) : list typed_test :=
  imap (λ i t, TypedTest (typed_case_name Prefix CaseName (Z.of_nat (k + i))) name (GetTypeName t) loc
    (instantiate Fixture t) (Bind sel t)) ts.

Lemma register_types_run sel ts loc names name k rs :
  StripTrailingSpaces (GetPrefixUntilComma names) = name →
  Z.of_nat (k + length (walk ts)) ≤ INT_MAX →
  TypeParameterizedTest_Register GetTypeName Fixture sel ts Prefix loc CaseName (Some names)
    (Z.of_nat k) rs = (Done true, rs ++ tests_of_name loc name sel k (walk ts)).
Proof.
  intros Hname. revert k rs. induction ts as [|t ts IH]; intros k rs Hk; [by rewrite /= app_nil_r|].
  cbn [TypeParameterizedTest_Register or_ub walk] in *. rewrite bind_ret_l Hname.
  erewrite bind_done by reflexivity.
  assert (int_succ (Z.of_nat k) = Some (Z.of_nat (S k))) as ->.
  { unfold int_succ, int_ok. rewrite bool_decide_eq_true_2; [|f_equal; lia].
    cbn [length] in Hk. unfold INT_MIN. lia. }
  rewrite bind_ret_l IH; [cbn [length] in Hk; lia|]. f_equal. rewrite -app_assoc. f_equal.
  unfold tests_of_name. rewrite imap_cons Nat.add_0_r. cbn. f_equal. apply imap_ext.
  intros i t' _. cbn. do 2 f_equal. f_equal. lia.
Qed.

Context (st : TypedTestCasePState) (Types : type_list ctype) (loc : CodeLocation).
Context (Hlen : Z.of_nat (length (walk Types)) ≤ INT_MAX).

(** All the tests of the names given, each with its template. *)
Definition all_typed_tests (names : list string) (sels : list TemplateSel) : list typed_test :=
  mjoin (zip_with (λ n sel,
    tests_of_name (default loc (registered_tests_ st !! n)) n sel 0 (walk Types)) names sels).

(** One step of the recursion, for a name that is defined. *)
Lemma register_case_step sel Tests i items l rs :
  item_ok i → Forall item_ok items → registered_tests_ st !! i.1.1 = Some l →
  TypeParameterizedTestCase_Register GetTypeName Fixture (NonemptyList sel Tests) Types Prefix loc st
    CaseName (Some (spell (i :: items))) rs =
  TypeParameterizedTestCase_Register GetTypeName Fixture Tests Types Prefix loc st CaseName
    (match items with [] => None | _ => Some (spell items) end)
    (rs ++ tests_of_name l i.1.1 sel 0 (walk Types)).
Proof.
  intros Hi Hok Hl. cbn [TypeParameterizedTestCase_Register or_ub]. rewrite bind_ret_l.
  rewrite (spell_name i items Hi). unfold TestExists, GetCodeLocation. rewrite Hl.
  rewrite bool_decide_eq_true_2; [by eexists|]. cbn [negb]. rewrite bind_ret_l.
  erewrite bind_done by (by apply (register_types_run _ _ _ _ i.1.1 0); [apply spell_name|]).
  by rewrite spell_next.
Qed.

Lemma register_case_run Tests items rs :
  Forall item_ok items → length items = length (walk Tests) →
  Forall (λ n, is_Some (registered_tests_ st !! n)) (spelled items) →
  TypeParameterizedTestCase_Register GetTypeName Fixture Tests Types Prefix loc st CaseName
    (match items with [] => None | _ => Some (spell items) end) rs =
  (Done true, rs ++ all_typed_tests (spelled items) (walk Tests)).
Proof.
  revert items rs. induction Tests as [|sel Tests IH]; intros [|i items] rs Hok Hn Hex; try done.
  - by rewrite /= app_nil_r.
  - apply Forall_cons in Hok as [Hi Hok]. cbn in Hex. apply Forall_cons in Hex as [[l Hl] Hex].
    rewrite (register_case_step _ _ _ _ l) // IH //; [by injection Hn|].
    by rewrite /all_typed_tests /= Hl /= -app_assoc.
Qed.

Lemma register_case_missing Tests pre i post rs :
  Forall item_ok (pre ++ i :: post) → length (pre ++ i :: post) = length (walk Tests) →
  Forall (λ n, is_Some (registered_tests_ st !! n)) (spelled pre) →
  registered_tests_ st !! i.1.1 = None →
  TypeParameterizedTestCase_Register GetTypeName Fixture Tests Types Prefix loc st CaseName
    (Some (spell (pre ++ i :: post))) rs =
  (Aborted, rs ++ all_typed_tests (spelled pre) (walk Tests)).
Proof.
  revert Tests rs. induction pre as [|j pre IH]; intros [|sel Tests] rs Hok Hn Hex Hi; try done.
  - cbn [app spelled fmap list_fmap TypeParameterizedTestCase_Register or_ub]. rewrite bind_ret_l.
    apply Forall_cons in Hok as [Hii _]. rewrite (spell_name i post Hii) /TestExists Hi.
    rewrite bool_decide_eq_false_2; [by intros [? ?]|]. by rewrite /= app_nil_r.
  - cbn [app] in *. apply Forall_cons in Hok as [Hj Hok]. cbn in Hex. apply Forall_cons in Hex as [[l Hl] Hex].
    rewrite (register_case_step _ _ _ _ l) //.
    assert (∀ T (a b : T), match pre ++ i :: post with [] => a | _ => b end = b) as ->
      by by destruct pre.
    rewrite IH //; [by injection Hn|]. by rewrite /all_typed_tests /= Hl /= -app_assoc.
Qed.
End registration.

(** INSTANTIATE_TYPED_TEST_CASE_P registers, for the tests defined by TYPED_TEST_P
    statements, every test name of REGISTER_TYPED_TEST_CASE_P with every type, in these
    orders, under Prefix/Case/index and with the location of the name's definition,
    however the list of names is spaced; and it aborts at the first name that no
    statement defines, after the tests of the names before it. *)
Theorem typed_tests_registered {CT : CppTypes} (GetTypeName : ctype → string) (Fixture : ctemplate)
    Prefix CaseName (defs : list (string * CodeLocation)) items (Tests : type_list TemplateSel)
    (Types : type_list ctype) loc rs :
  Forall item_ok items → items ≠ [] → length items = length (walk Tests) →
  Z.of_nat (length (walk Types)) ≤ INT_MAX →
  ∃ st, define_tests defs new_pstate = (Done (), st) ∧
    (∀ n, registered_tests_ st !! n = location_of defs n) ∧
    let run := INSTANTIATE_TYPED_TEST_CASE_P GetTypeName Prefix CaseName Fixture Tests Types loc st
      (spell items) rs in
    let calls names := all_typed_tests GetTypeName Fixture Prefix CaseName st Types loc names (walk Tests) in
    (Forall (.∈ defs.*1) (spelled items) → run = (Done true, rs ++ calls (spelled items))) ∧
    (∀ pre i post, items = pre ++ i :: post → Forall (.∈ defs.*1) (spelled pre) → i.1.1 ∉ defs.*1 →
       run = (Aborted, rs ++ calls (spelled pre))).
Proof.
  intros Hok Hne Hn Hlen. destruct (define_tests_run defs ∅) as (m & Hrun & Hm).
  assert (∀ n, m !! n = location_of defs n) as Hloc by (intros n; by rewrite Hm lookup_empty).
  exists (MkPState false m). split; [exact Hrun|]. split; [exact Hloc|].
  assert (∀ n, is_Some (m !! n) ↔ n ∈ defs.*1) as Hex by (intros n; by rewrite Hloc location_of_is_Some).
  cbn zeta. unfold INSTANTIATE_TYPED_TEST_CASE_P. split.
  - intros Hall. destruct items as [|i items]; [done|].
    apply (register_case_run GetTypeName Fixture Prefix CaseName (MkPState false m) Types loc Hlen
      Tests (i :: items)); [done..|]. eapply Forall_impl; [exact Hall|]. intros n. apply Hex.
  - intros pre i post -> Hall Hi. apply register_case_missing; [done..| |].
    + eapply Forall_impl; [exact Hall|]. intros n. apply Hex.
    + apply eq_None_not_Some. by rewrite Hex.
Qed.

(** * A concrete test case *)

#[local] Existing Instance named_types.

Definition type_name (t : ctype) : string := (t : string).
#[local] Definition class_of (t : typed_test) : string := (tt_class t : string).

Definition sample_defs : list (string * CodeLocation) :=
  [("IsEmpty", MkLocation "a.h" 3); ("Grows", MkLocation "a.h" 9); ("IsEmpty", MkLocation "b.h" 1)]%string.
Definition sample_items : list (string * string * string) := [("Grows", " ", "  "); ("IsEmpty", "", "")]%string.
Definition tm_grows : ctemplate := "Grows"%string.
Definition tm_empty : ctemplate := "IsEmpty"%string.
Definition sample_tests : type_list TemplateSel := Templates2 tm_grows tm_empty.
Definition sample_types : type_list ctype := Types2 t_int t_char.

Example sample_case_names :
  match define_tests sample_defs new_pstate with
  | (Done _, st) =>
    (λ t, (tt_case_name t, tt_name t, class_of t)) <$>
      (INSTANTIATE_TYPED_TEST_CASE_P type_name "My" "Queue" tm_foo sample_tests sample_types
        (MkLocation "c.cc" 5) st (spell sample_items) []).2
  | _ => []
  end = [("My/Queue/0", "Grows", "Grows<int>"); ("My/Queue/1", "Grows", "Grows<char>");
         ("My/Queue/0", "IsEmpty", "IsEmpty<int>"); ("My/Queue/1", "IsEmpty", "IsEmpty<char>")]%string.
Proof. vm_compute. reflexivity. Qed.

Lemma typed_tests_registered_witness :
  ∃ st, define_tests sample_defs new_pstate = (Done (), st) ∧
    (∀ n, registered_tests_ st !! n = location_of sample_defs n) ∧
    let run := INSTANTIATE_TYPED_TEST_CASE_P type_name "My" "Queue" tm_foo sample_tests sample_types
      (MkLocation "c.cc" 5) st (spell sample_items) [] in
    let calls names := all_typed_tests type_name tm_foo "My" "Queue" st sample_types
      (MkLocation "c.cc" 5) names (walk sample_tests) in
    (Forall (.∈ sample_defs.*1) (spelled sample_items) → run = (Done true, [] ++ calls (spelled sample_items))) ∧
    (∀ pre i post, sample_items = pre ++ i :: post → Forall (.∈ sample_defs.*1) (spelled pre) →
       i.1.1 ∉ sample_defs.*1 → run = (Aborted, [] ++ calls (spelled pre))).
Proof.
  apply (typed_tests_registered type_name tm_foo "My" "Queue" sample_defs sample_items sample_tests
    sample_types (MkLocation "c.cc" 5) []).
  - repeat constructor; done.
  - done.
  - reflexivity.
  - vm_compute. done.
Defined.
