(* ===== verification/TestResults.v ===== *)
(** The verdicts of tests and test cases of the test library: classes Test, TestProperty,
    TestResult, TestInfo and TestCase of src/gtest/include/gtest/gtest.h.

    The header defines the members below and only declares the others: what a result says of
    its parts (ResultChecks), and the counts and the clearing of a test case (CaseCounts),
    are interfaces, with the comments of the header as their laws. A test case owns its
    tests, so the vector of pointers to them is the list of tests. The mutex that guards the
    properties is not modelled. *)

From S2P Require Import TypedTests Prelude Mem Assertions Interception.
#[local] Open Scope Z_scope.

(** * TestProperty *)

Record TestProperty : Type := MkTestProperty { key_ : string; value_ : string }.
Definition new_TestProperty (a_key a_value : string) : TestProperty := MkTestProperty a_key a_value.
Definition key (p : TestProperty) : string := key_ p.
Definition value (p : TestProperty) : string := value_ p.
Definition SetValue (new_value : string) (p : TestProperty) : TestProperty := MkTestProperty (key_ p) new_value.

(** * TestResult *)

Record TestResult : Type := MkTestResult {
  test_part_results_ : list TestPartResult;
  test_properties_ : list TestProperty;
  death_test_count_ : Z;
  elapsed_time_ : Z;
}.

Definition elapsed_time (r : TestResult) : Z := elapsed_time_ r.
Definition test_part_results (r : TestResult) : list TestPartResult := test_part_results_ r.
Definition test_properties (r : TestResult) : list TestProperty := test_properties_ r.
Definition set_elapsed_time (elapsed : Z) (r : TestResult) : TestResult :=
  MkTestResult (test_part_results_ r) (test_properties_ r) (death_test_count_ r) elapsed.
Definition death_test_count (r : TestResult) : Z := death_test_count_ r.

(** The members that are only declared: what a result says of its parts, and how it
    gathers and clears them. *)
Class ResultChecks : Type := {
  Failed : TestResult → bool;
  HasFatalFailure : TestResult → bool;
  HasNonfatalFailure : TestResult → bool;
  AddTestPartResult : TestPartResult → TestResult → TestResult;
  ClearTestPartResults : TestResult → TestResult;
  Clear : TestResult → TestResult;
}.

Definition any (P : TestPartResult → bool) (r : TestResult) : bool := existsb P (test_part_results_ r).

Class ResultChecksLaws `{ResultChecks} : Prop := {
  failed_part r : Failed r = any failed r;
  fatal_part r : HasFatalFailure r = any fatally_failed r;
  nonfatal_part r : HasNonfatalFailure r = any nonfatally_failed r;
  part_added p r : test_part_results_ (AddTestPartResult p r) = test_part_results_ r ++ [p];
  parts_cleared r : test_part_results_ (ClearTestPartResults r) = [];
  cleared r : Clear r = MkTestResult [] [] 0 0;
}.

(** [++death_test_count_] of an int. *)
Definition increment_death_test_count : cmd TestResult Z :=
  r ← get;
  if bool_decide (death_test_count_ r < 2 ^ 31 - 1) then
    let n := death_test_count_ r + 1 in
    modify (λ r, MkTestResult (test_part_results_ r) (test_properties_ r) n (elapsed_time_ r));; mret n
  else undefined SignedOverflow.

Section checks.
Context `{ResultChecks}.

Definition result_Passed (r : TestResult) : bool := negb (Failed r).

(** Test::HasFailure, of the current test. *)
Definition HasFailure (current : TestResult) : bool := HasFatalFailure current || HasNonfatalFailure current.

(** * TestInfo *)

Record TestInfo : Type := MkTestInfo {
  test_case_name_ : string;
  name_ : string;
  type_param_ : option string;
  value_param_ : option string;
  location_ : CodeLocation;
  fixture_class_id_ : ptr;
  should_run_ : bool;
  is_disabled_ : bool;
  matches_filter_ : bool;
  factory_ : ptr;
  result_ : TestResult;
}.

Implicit Types (t : TestInfo).

Definition test_case_name t : string := test_case_name_ t.
Definition name t : string := name_ t.
Definition type_param t : option string := if type_param_ t is Some s then Some s else None.
Definition value_param t : option string := if value_param_ t is Some s then Some s else None.
Definition file t : string := loc_file (location_ t).
Definition line t : Z := loc_line (location_ t).
Definition should_run t : bool := should_run_ t.
Definition is_reportable t : bool := matches_filter_ t.
Definition result t : TestResult := result_ t.

Definition set_result (r : TestResult) t : TestInfo :=
  MkTestInfo (test_case_name_ t) (name_ t) (type_param_ t) (value_param_ t) (location_ t) (fixture_class_id_ t)
    (should_run_ t) (is_disabled_ t) (matches_filter_ t) (factory_ t) r.

Definition info_increment_death_test_count : cmd TestInfo Z :=
  zoom result_ set_result increment_death_test_count.

Definition ClearTestResult t : TestInfo := set_result (Clear (result_ t)) t.

(** * TestCase *)

Definition TestPassed t : bool := should_run t && result_Passed (result t).
Definition TestFailed t : bool := should_run t && Failed (result t).
Definition TestReportableDisabled t : bool := is_reportable t && is_disabled_ t.
Definition TestDisabled t : bool := is_disabled_ t.
Definition TestReportable t : bool := is_reportable t.
Definition ShouldRunTest t : bool := should_run t.

End checks.

(** [W] is the program's state, that the functions that set up and tear down change. *)
Record TestCase (W : Type) : Type := MkTestCase {
  case_name_ : string;
  case_type_param_ : option string;
  test_info_list_ : list TestInfo;
  test_indices_ : list Z;
  set_up_tc_ : cmd W unit;
  tear_down_tc_ : cmd W unit;
  case_should_run_ : bool;
  case_elapsed_time_ : Z;
  ad_hoc_test_result_ : TestResult;
}.
Arguments MkTestCase {W} _ _ _ _ _ _ _ _ _.
Arguments test_indices_ {W} _.
Arguments case_name_ {W} _.
Arguments case_type_param_ {W} _.
Arguments test_info_list_ {W} _.
Arguments set_up_tc_ {W} _.
Arguments tear_down_tc_ {W} _.
Arguments case_should_run_ {W} _.
Arguments case_elapsed_time_ {W} _.
Arguments ad_hoc_test_result_ {W} _.

Definition case_name {W} (c : TestCase W) : string := case_name_ c.
Definition case_type_param {W} (c : TestCase W) : option string :=
  if case_type_param_ c is Some s then Some s else None.
Definition case_should_run {W} (c : TestCase W) : bool := case_should_run_ c.
Definition case_elapsed_time {W} (c : TestCase W) : Z := case_elapsed_time_ c.
Definition ad_hoc_test_result {W} (c : TestCase W) : TestResult := ad_hoc_test_result_ c.
Definition test_info_list {W} (c : TestCase W) : list TestInfo := test_info_list_ c.
Definition set_should_run {W} (should : bool) (c : TestCase W) : TestCase W :=
  MkTestCase (case_name_ c) (case_type_param_ c) (test_info_list_ c) (test_indices_ c)
    (set_up_tc_ c) (tear_down_tc_ c) should (case_elapsed_time_ c) (ad_hoc_test_result_ c).
Definition RunSetUpTestCase {W} (c : TestCase W) : cmd W unit := set_up_tc_ c.
Definition RunTearDownTestCase {W} (c : TestCase W) : cmd W unit := tear_down_tc_ c.

(** The counts of a test case and ClearResult, which are only declared. *)
Class CaseCounts (W : Type) : Type := {
  successful_test_count : TestCase W → Z;
  failed_test_count : TestCase W → Z;
  reportable_disabled_test_count : TestCase W → Z;
  disabled_test_count : TestCase W → Z;
  reportable_test_count : TestCase W → Z;
  test_to_run_count : TestCase W → Z;
  total_test_count : TestCase W → Z;
  ClearResult : TestCase W → TestCase W;
}.

Definition CountIf (P : TestInfo → bool) (l : list TestInfo) : Z := Z.of_nat (length (filter (λ t, P t = true) l)).

Class CaseCountsLaws W `{ResultChecks, !CaseCounts W} : Prop := {
  count_successful c : successful_test_count c = CountIf TestPassed (test_info_list c);
  count_failed c : failed_test_count c = CountIf TestFailed (test_info_list c);
  count_reportable_disabled c :
    reportable_disabled_test_count c = CountIf TestReportableDisabled (test_info_list c);
  count_disabled c : disabled_test_count c = CountIf TestDisabled (test_info_list c);
  count_reportable c : reportable_test_count c = CountIf TestReportable (test_info_list c);
  count_to_run c : test_to_run_count c = CountIf ShouldRunTest (test_info_list c);
  count_total c : total_test_count c = Z.of_nat (length (test_info_list c));
  results_cleared c : test_info_list (ClearResult c) = ClearTestResult <$> test_info_list c;
}.

Section cases.
Context `{ResultChecks} {W : Type} `{!CaseCounts W}.

Definition case_Failed (c : TestCase W) : bool := bool_decide (failed_test_count c > 0).
Definition case_Passed (c : TestCase W) : bool := negb (case_Failed c).

Definition ClearTestCaseResult (c : TestCase W) : TestCase W := ClearResult c.
End cases.

(** * Verdicts *)

Section verdicts.
Context `{ResultChecksLaws} {W : Type} `{!CaseCounts W, !CaseCountsLaws W}.

Lemma any_spec P r : any P r = true ↔ ∃ p, p ∈ test_part_results r ∧ P p = true.
Proof. unfold any, test_part_results. rewrite existsb_exists. by setoid_rewrite list_elem_of_In. Qed.

(** A test has a failure when a part of it failed, which is when it did not pass. *)
Lemma HasFailure_failed r : HasFailure r = Failed r.
Proof.
  unfold HasFailure. rewrite fatal_part nonfatal_part failed_part. unfold any.
  induction (test_part_results_ r) as [|p l IH]; [done|]. simpl. rewrite -IH.
  rewrite (proj1 (proj2 (failed_ways p))). by destruct (nonfatally_failed p), (fatally_failed p), (existsb _ l).
Qed.

Lemma CountIf_split P Q R l :
  (∀ t, R t = P t || Q t) → (∀ t, P t && Q t = false) → CountIf P l + CountIf Q l = CountIf R l.
Proof.
  intros HR HPQ. unfold CountIf. induction l as [|t l IH]; [done|]. specialize (HR t). specialize (HPQ t).
  rewrite !filter_cons. repeat case_decide; simpl; destruct (P t), (Q t), (R t); simplify_eq/=; try done; lia.
Qed.

Lemma CountIf_zero P l : CountIf P l > 0 ↔ ∃ t, t ∈ l ∧ P t = true.
Proof.
  unfold CountIf. split.
  - destruct (filter _ l) as [|t k] eqn:Hf; [simpl; lia|]. intros _. exists t.
    apply and_comm, (list_elem_of_filter (λ t, P t = true)). rewrite Hf. left.
  - intros (t & Ht & HP). assert (t ∈ filter (λ t, P t = true) l) as Hin by by apply list_elem_of_filter.
    destruct (filter _ l); [by apply elem_of_nil in Hin|simpl; lia].
Qed.

(** Every test of a test case that should run passed or failed, never both; a test case
    passed when none of the parts of the tests that should run failed; and once its
    results are cleared it has passed. *)
Theorem verdicts_of_test_cases (c : TestCase W) :
  successful_test_count c + failed_test_count c = test_to_run_count c ∧
  (case_Passed c = true ↔
   ∀ t p, t ∈ test_info_list c → should_run t = true → p ∈ test_part_results (result t) → passed p = true) ∧
  case_Passed (ClearTestCaseResult c) = true.
Proof.
  assert (∀ c', case_Passed c' = true ↔ ¬ ∃ t, t ∈ test_info_list c' ∧ TestFailed t = true) as Hpassed.
  { intros c'. unfold case_Passed, case_Failed. rewrite negb_true_iff bool_decide_eq_false count_failed.
    by rewrite CountIf_zero. }
  split_and!.
  - rewrite count_successful count_failed count_to_run. apply CountIf_split; intros t;
      unfold TestPassed, TestFailed, ShouldRunTest, result_Passed; by destruct (should_run t), (Failed (result t)).
  - rewrite Hpassed. unfold TestFailed. split.
    + intros Hno t p Ht Hr Hp. apply not_false_iff_true. intros Hf. apply Hno. exists t. split; [done|].
      rewrite Hr failed_part. apply any_spec. exists p. split; [done|]. by rewrite (proj1 (failed_ways p)) Hf.
    + intros Hall (t & Ht & [Hr Hf]%andb_true_iff). rewrite failed_part in Hf.
      apply any_spec in Hf as (p & Hp & Hf). rewrite (proj1 (failed_ways p)) (Hall t p) // in Hf.
  - apply Hpassed. intros (t & Ht & Hf). unfold ClearTestCaseResult in Ht. rewrite results_cleared in Ht.
    apply list_elem_of_fmap in Ht as (u & -> & _). unfold TestFailed, ClearTestResult, result in Hf.
    simpl in Hf. rewrite failed_part cleared in Hf. by rewrite andb_false_r in Hf.
Qed.
End verdicts.

(** * The members as they are documented *)

Definition documented_checks : ResultChecks :=
  {| Failed := any failed; HasFatalFailure := any fatally_failed; HasNonfatalFailure := any nonfatally_failed;
     AddTestPartResult p r :=
       MkTestResult (test_part_results_ r ++ [p]) (test_properties_ r) (death_test_count_ r) (elapsed_time_ r);
     ClearTestPartResults r := MkTestResult [] (test_properties_ r) (death_test_count_ r) (elapsed_time_ r);
     Clear _ := MkTestResult [] [] 0 0 |}.

Definition documented_counts (W : Type) : CaseCounts W := let _ := documented_checks in
  let count P (c : TestCase W) := CountIf P (test_info_list c) in
  {| successful_test_count := count TestPassed; failed_test_count := count TestFailed;
     reportable_disabled_test_count := count TestReportableDisabled; disabled_test_count := count TestDisabled;
     reportable_test_count := count TestReportable; test_to_run_count := count ShouldRunTest;
     total_test_count c := Z.of_nat (length (test_info_list c));
     ClearResult c := MkTestCase (case_name_ c) (case_type_param_ c) (ClearTestResult <$> test_info_list_ c) (test_indices_ c)
       (set_up_tc_ c) (tear_down_tc_ c) (case_should_run_ c) (case_elapsed_time_ c) (ad_hoc_test_result_ c) |}.

Lemma documented_laws W :
  ResultChecksLaws (H:=documented_checks) ∧
  CaseCountsLaws W (H:=documented_checks) (CaseCounts0:=documented_counts W).
Proof. by split; split. Qed.

(** A test case with a test that passed, one that failed and one that is disabled and failed
    does not pass; without the second test it does. *)
Definition sample_test (n : string) (run : bool) (t : TestPartResult_Type) : TestInfo :=
  MkTestInfo "Case" n None None (MkLocation "case.cc" 1) NULL run (negb run) true NULL
    (MkTestResult [MkTestPartResult t "case.cc" 1 EmptyString EmptyString] [] 0 0).
Definition sample_case (l : list TestInfo) : TestCase unit :=
  MkTestCase "Case" None l [] (mret ()) (mret ()) true 0 (MkTestResult [] [] 0 0).

Example sample_verdicts :
  (λ l, case_Passed (CaseCounts0:=documented_counts unit) (sample_case l)) <$>
    [[sample_test "Ok" true kSuccess; sample_test "Bad" true kFatalFailure; sample_test "Off" false kFatalFailure];
     [sample_test "Ok" true kSuccess; sample_test "Off" false kFatalFailure]] = [false; true].
Proof. reflexivity. Qed.
