(* ===== verification/TypedTestPrograms.v ===== *)
(** Programs of typed and type-parameterized tests: the macros TYPED_TEST_CASE,
    TYPED_TEST, TYPED_TEST_CASE_P, TYPED_TEST_P, REGISTER_TYPED_TEST_CASE_P and
    INSTANTIATE_TYPED_TEST_CASE_P of src/gtest/include/gtest/gtest-typed-test.h, as what a
    compiler makes of them and what the initializers of their variables do.

    The statements of one translation unit declare types, templates and variables in a
    scope, and a statement that uses what is not declared or declares again what is does
    not compile. The initializers run in the order of the statements. The registrations
    are those of TypedTests.v; VerifyRegisteredTestNames, which the header only declares,
    is an interface (VerifyNames, VerifyLaws). *)

From S2P Require Import Prelude Machine TypeLists TypedTests.
#[local] Open Scope Z_scope.

#[export] Instance type_list_eq {H : Type} `{!EqDecision H} : EqDecision (type_list H).
Proof. solve_decision. Defined.

(** TypedTestCasePState::VerifyRegisteredTestNames(file, line, registered_tests). *)
Class VerifyNames : Type := {
  VerifyRegisteredTestNames : string → Z → string → cmd TypedTestCasePState string;
}.

(** Names that are spelled in a list are those of the tests defined, each of them once:
    then the list is returned and no more tests may be defined; otherwise the program
    aborts. *)
Definition names_match (st : TypedTestCasePState) (names : list string) : Prop :=
  NoDup names ∧ ∀ n, n ∈ names ↔ is_Some (registered_tests_ st !! n).

Class VerifyLaws `{VerifyNames} : Prop := {
  verify_matching file line items st :
    Forall item_ok items → items ≠ [] → registered_ st = false → names_match st (spelled items) →
    VerifyRegisteredTestNames file line (spell items) st =
      (Done (spell items), MkPState true (registered_tests_ st));
  verify_not_matching file line items st :
    Forall item_ok items → items ≠ [] → registered_ st = false → ¬ names_match st (spelled items) →
    ∃ st', VerifyRegisteredTestNames file line (spell items) st = (Aborted, st');
}.

Section programs.
Context {CT : CppTypes} `{VN : VerifyNames} (GetTypeName : ctype → string).
(** The fixture class template of a name, the class template that TYPED_TEST(case, test)
    defines, and the class template [test] in the namespace of [case]. *)
Context (fixture_of : string → ctemplate) (test_of testp_of : string → string → ctemplate).

(** * Statements *)

Inductive statement : Type :=
  | TypedTestCase (CaseName : string) (Types : type_arg)
  | TypedTestStatement (CaseName TestName : string) (loc : CodeLocation)
  | TypedTestCaseP (CaseName : string)
  | TypedTestP (CaseName TestName : string) (loc : CodeLocation)
  | RegisterTypedTestCaseP (CaseName : string) (args : list (string * string * string)) (loc : CodeLocation)
  | InstantiateTypedTestCaseP (Prefix CaseName : string) (Types : type_arg) (loc : CodeLocation).
Implicit Types (s : statement) (prog pre post : list statement) (c n : string).

(** * What the compiler knows *)

(** The types of GTEST_TYPE_PARAMS_, the cases that have a TypedTestCasePState, the test
    class templates in the namespaces of cases, gtest_AllTests_ of the namespaces, and the
    other names that are made of several. *)
Record scope : Type := Scope {
  type_params : gmap string (type_list ctype);
  p_states : gset string;
  templates : gset (string * string);
  all_tests : gmap string (type_list TemplateSel);
  identifiers : gset string;
}.
Definition empty_scope : scope := Scope ∅ ∅ ∅ ∅ ∅.

(** A declaration that must not be there yet. *)
Definition declare (id : string) (sc : scope) : option scope :=
  if bool_decide (id ∈ identifiers sc) then None
  else Some (Scope (type_params sc) (p_states sc) (templates sc) (all_tests sc) ({[id]} ∪ identifiers sc)).

(** * What runs *)

(** The variables gtest_typed_test_case_p_state_ and gtest_registered_test_names_ of the
    cases, and the tests. *)
Record env : Type := Env {
  states : gmap string TypedTestCasePState;
  registered_names : gmap string string;
  tests : list typed_test;
}.
Definition start : env := Env ∅ ∅ [].

Definition on_tests {A} (m : cmd (list typed_test) A) : cmd env A :=
  zoom tests (λ ts e, Env (states e) (registered_names e) ts) m.

(** The state of a case that has one. *)
Definition state_of c : cmd env TypedTestCasePState := e ← get; or_ub Dangling (states e !! c).

Definition on_state {A} c (m : cmd TypedTestCasePState A) : cmd env A :=
  st ← state_of c;
  zoom (λ _, st) (λ st e, Env (<[c := st]> (states e)) (registered_names e) (tests e)) m.

(** * The macros *)

Notation compiled := (option (scope * cmd env unit)).

(** A type may be declared again as the same type. *)
Definition TYPED_TEST_CASE c (Types : type_arg) (sc : scope) : compiled :=
  ts ← TypeList Types;
  if bool_decide (type_params sc !! c = None ∨ type_params sc !! c = Some ts) then
    Some (Scope (<[c := ts]> (type_params sc)) (p_states sc) (templates sc) (all_tests sc) (identifiers sc), mret ())
  else None.

Definition TYPED_TEST_ c n (loc : CodeLocation) (sc : scope) : compiled :=
  ts ← type_params sc !! c;
  sc ← declare (c +:+ "_" +:+ n +:+ "_Test") sc;
  sc ← declare ("gtest_" +:+ c +:+ "_" +:+ n +:+ "_registered_") sc;
  Some (sc, _ ← on_tests (TYPED_TEST GetTypeName c (fixture_of c) ts n (test_of c n) loc); mret ()).

Definition TYPED_TEST_CASE_P c (sc : scope) : compiled :=
  if bool_decide (c ∈ p_states sc) then None
  else Some (Scope (type_params sc) ({[c]} ∪ p_states sc) (templates sc) (all_tests sc) (identifiers sc),
    modify (λ e, Env (<[c := new_pstate]> (states e)) (registered_names e) (tests e))).

Definition TYPED_TEST_P_ c n (loc : CodeLocation) (sc : scope) : compiled :=
  if bool_decide ((c, n) ∈ templates sc) || bool_decide (c ∉ p_states sc) then None
  else Some (Scope (type_params sc) (p_states sc) ({[(c, n)]} ∪ templates sc) (all_tests sc) (identifiers sc),
    _ ← on_state c (TYPED_TEST_P n loc); mret ()).

(** The arguments are looked up in the namespace of the case. *)
Definition REGISTER_TYPED_TEST_CASE_P c (args : list (string * string * string)) (loc : CodeLocation)
    (sc : scope) : compiled :=
  ts ← Templates (testp_of c <$> spelled args);
  if bool_decide (Forall (λ n, (c, n) ∈ templates sc) (spelled args)) &&
     bool_decide (all_tests sc !! c = None) && bool_decide (c ∈ p_states sc)
  then
    Some (Scope (type_params sc) (p_states sc) (templates sc) (<[c := ts]> (all_tests sc)) (identifiers sc),
      names ← on_state c (VerifyRegisteredTestNames (loc_file loc) (loc_line loc) (spell args));
      modify (λ e, Env (states e) (<[c := names]> (registered_names e)) (tests e)))
  else None.

Definition INSTANTIATE_TYPED_TEST_CASE_P_ (Prefix : string) c (Types : type_arg) (loc : CodeLocation)
    (sc : scope) : compiled :=
  ts ← TypeList Types;
  all ← all_tests sc !! c;
  sc ← declare ("gtest_" +:+ Prefix +:+ "_" +:+ c) sc;
  Some (sc,
    st ← state_of c;
    names ← gets (λ e, registered_names e !! c);
    names ← or_ub NullDeref names;
    _ ← on_tests (INSTANTIATE_TYPED_TEST_CASE_P GetTypeName Prefix c (fixture_of c) all ts loc st names);
    mret ()).

Definition elaborate s : scope → compiled :=
  match s with
  | TypedTestCase c Types => TYPED_TEST_CASE c Types
  | TypedTestStatement c n loc => TYPED_TEST_ c n loc
  | TypedTestCaseP c => TYPED_TEST_CASE_P c
  | TypedTestP c n loc => TYPED_TEST_P_ c n loc
  | RegisterTypedTestCaseP c args loc => REGISTER_TYPED_TEST_CASE_P c args loc
  | InstantiateTypedTestCaseP p c Types loc => INSTANTIATE_TYPED_TEST_CASE_P_ p c Types loc
  end.

(** The initializers of a translation unit. *)
Fixpoint compile prog (sc : scope) : option (cmd env unit) :=
  match prog with
  | [] => Some (mret ())
  | s :: prog => '(sc, init) ← elaborate s sc; rest ← compile prog sc; Some (init;; rest)
  end.

(** * What a program means *)

(** The tests that TYPED_TEST_P statements define in a case, the arguments with which it is
    registered, and its types. *)
Definition def_at c s : option (string * CodeLocation) :=
  match s with TypedTestP c' n loc => if decide (c' = c) then Some (n, loc) else None | _ => None end.
Definition register_at c s : option (list (string * string * string)) :=
  match s with RegisterTypedTestCaseP c' args _ => if decide (c' = c) then Some args else None | _ => None end.
Definition types_at c s : option type_arg :=
  match s with TypedTestCase c' Types => if decide (c' = c) then Some Types else None | _ => None end.

Definition defs_of c prog : list (string * CodeLocation) := omap (def_at c) prog.
Definition registered_of c prog : option (list (string * string * string)) := head (omap (register_at c) prog).
Definition types_of c prog : option type_arg := head (omap (types_at c) prog).

Definition walk_types (a : type_arg) : list ctype := default [] (walk <$> TypeList a).

(** A statement that does not abort after [pre]: a case is registered with just the tests
    defined before, and no test is defined after that. *)
Definition allowed pre s : Prop :=
  match s with
  | TypedTestP c _ _ => registered_of c pre = None
  | RegisterTypedTestCaseP c args _ => spelled args ≡ₚ (defs_of c pre).*1
  | _ => True
  end.

(** The tests of a case under a prefix: for each name its test class with each type. *)
Definition case_tests Prefix c (Types : list ctype) (tests : list (string * CodeLocation * ctemplate)) : list typed_test :=
  tests ≫= λ t, tests_of_name GetTypeName (fixture_of c) Prefix c t.1.2 t.1.1 (MkTemplateSel t.2) 0 Types.

(** The tests that a statement registers after [pre]. *)
Definition statement_tests pre s : list typed_test :=
  match s with
  | TypedTestStatement c n loc =>
      case_tests EmptyString c (default [] (walk_types <$> types_of c pre)) [(n, loc, test_of c n)]
  | InstantiateTypedTestCaseP p c Types loc =>
      case_tests p c (walk_types Types)
        ((λ n, (n, default loc (location_of (defs_of c pre) n), testp_of c n)) <$>
          spelled (default [] (registered_of c pre)))
  | _ => []
  end.

Fixpoint all_allowed pre prog : Prop :=
  match prog with [] => True | s :: prog => allowed pre s ∧ all_allowed (pre ++ [s]) prog end.
Fixpoint tests_after pre prog : list typed_test :=
  match prog with [] => [] | s :: prog => statement_tests pre s ++ tests_after (pre ++ [s]) prog end.

(** The names that statements spell. *)
Definition well_spelled s : Prop :=
  match s with
  | TypedTestStatement _ n _ => name_ok n
  | RegisterTypedTestCaseP _ args _ => Forall item_ok args ∧ args ≠ []
  | _ => True
  end.

(** ** Lists of statements *)

Lemma defs_of_snoc c pre s : defs_of c (pre ++ [s]) = defs_of c pre ++ option_list (def_at c s).
Proof. unfold defs_of. rewrite omap_app /=. by destruct (def_at c s). Qed.

Lemma head_snoc {A} (l : list A) (o : option A) :
  head (l ++ option_list o) = match head l with Some a => Some a | None => o end.
Proof. destruct l; [by destruct o|done]. Qed.

Lemma registered_of_snoc c pre s :
  registered_of c (pre ++ [s]) = match registered_of c pre with Some a => Some a | None => register_at c s end.
Proof. unfold registered_of. rewrite omap_app -head_snoc /=. by destruct (register_at c s). Qed.

Lemma types_of_snoc c pre s :
  types_of c (pre ++ [s]) = match types_of c pre with Some a => Some a | None => types_at c s end.
Proof. unfold types_of. rewrite omap_app -head_snoc /=. by destruct (types_at c s). Qed.

Lemma location_of_snoc (defs : list (string * CodeLocation)) n loc k :
  location_of (defs ++ [(n, loc)]) k =
    match location_of defs k with Some l => Some l | None => if decide (n = k) then Some loc else None end.
Proof. induction defs as [|d defs IH]; [done|]. cbn [app location_of]. by destruct (decide (d.1 = k)). Qed.

(** ** Lists of types *)

Lemma trailing_none {A} `{!EqDecision A} (none : A) (l : list A) :
  ∃ k m, l = k ++ replicate m none ∧ last k ≠ Some none.
Proof.
  induction l as [|a l (k & m & -> & Hk)] using rev_ind; [by exists [], O|].
  destruct (decide (a = none)) as [->|Hne].
  - exists k, (S m). split; [|done]. by rewrite -app_assoc -replicate_S_end.
  - exists ((k ++ replicate m none) ++ [a]), O. rewrite app_nil_r. split; [done|]. rewrite last_snoc. congruence.
Qed.

Lemma Types_fit (l : list ctype) ts : Types l = Some ts → (length (walk ts) ≤ 50)%nat.
Proof.
  intros Hts. destruct (decide (50 < length l)%nat) as [Hl|Hl].
  { assert (Types l = None) as Hn by (by apply (too_many NoneType (λ t, t))). by rewrite Hn in Hts. }
  destruct (trailing_none NoneType l) as (k & m & -> & Hk).
  rewrite length_app length_replicate in Hl.
  destruct (types_walk k m Hk) as (ts' & Hts' & Hw); [lia|]. rewrite Hts' in Hts. injection Hts as <-. rewrite Hw. lia.
Qed.

Lemma TypeList_fit a ts : TypeList a = Some ts → (length (walk ts) ≤ 50)%nat.
Proof.
  destruct a as [t|l].
  - intros Ha. injection Ha as <-. apply le_n_S, Nat.le_0_l.
  - change (TypeList (TypesOf l)) with (Types l). apply Types_fit.
Qed.

Lemma Templates_names (l : list ctemplate) ts :
  Templates l = Some ts → NoneT ∉ l → walk ts = MkTemplateSel <$> l.
Proof.
  intros Hts Hl. destruct (decide (50 < length l)%nat) as [Hn|Hn].
  { assert (Templates l = None) as Hx by (by apply (too_many NoneT MkTemplateSel)). by rewrite Hx in Hts. }
  destruct (templates_walk l 0) as (ts' & Hts' & Hw); [|lia|].
  - intros Hlast. apply Hl. apply last_Some in Hlast as [k ->]. set_solver.
  - cbn [replicate] in Hts'. rewrite app_nil_r Hts in Hts'. by injection Hts' as <-.
Qed.
(** ** After some statements *)

Context (testp_some : ∀ c n, testp_of c n ≠ NoneT).

(** What the compiler knows and the state are those of the statements [pre]. *)
Record inv pre (sc : scope) (e : env) : Prop := Inv {
  inv_state c : c ∈ p_states sc → ∃ m,
    states e !! c = Some (MkPState (bool_decide (is_Some (registered_of c pre))) m) ∧
    ∀ n, m !! n = location_of (defs_of c pre) n;
  inv_no_state c : c ∉ p_states sc → defs_of c pre = [];
  inv_types c ts : type_params sc !! c = Some ts → ∃ a, types_of c pre = Some a ∧ TypeList a = Some ts;
  inv_no_types c : type_params sc !! c = None → types_of c pre = None;
  inv_templates c n : (c, n) ∈ templates sc ↔ n ∈ (defs_of c pre).*1;
  inv_nodup c : NoDup (defs_of c pre).*1;
  inv_unregistered c : all_tests sc !! c = None → registered_of c pre = None;
  inv_registered c ts : all_tests sc !! c = Some ts → ∃ args,
    registered_of c pre = Some args ∧ walk ts = MkTemplateSel <$> (testp_of c <$> spelled args) ∧
    registered_names e !! c = Some (spell args) ∧ Forall item_ok args ∧ args ≠ [] ∧
    spelled args ≡ₚ (defs_of c pre).*1 ∧ c ∈ p_states sc;
}.

Lemma inv_at_start : inv [] empty_scope start.
Proof. split; cbn; intros; try done; [|constructor]. split; [by intros ?%elem_of_empty|by intros ?%elem_of_nil]. Qed.

(** A name is defined in a case if the state of the case has it. *)
Lemma names_match_iff pre c r m (names : list string) : NoDup (defs_of c pre).*1 →
  (∀ n, m !! n = location_of (defs_of c pre) n) →
  names_match (MkPState r m) names ↔ names ≡ₚ (defs_of c pre).*1.
Proof.
  intros Hnd Hm. unfold names_match. cbn.
  assert (∀ n, is_Some (m !! n) ↔ n ∈ (defs_of c pre).*1) as Hs by (intros n; by rewrite Hm location_of_is_Some).
  split.
  - intros [Hn Hiff]. apply NoDup_Permutation; [done..|]. intros n. by rewrite Hiff Hs.
  - intros Hp. split; [by rewrite Hp|]. intros n. by rewrite Hs Hp.
Qed.

Lemma declare_scope id sc sc' : declare id sc = Some sc' →
  type_params sc' = type_params sc ∧ p_states sc' = p_states sc ∧ templates sc' = templates sc ∧
  all_tests sc' = all_tests sc.
Proof. unfold declare. case_bool_decide; [done|]. by intros [= <-]. Qed.

(** A statement that declares and defines nothing of the invariant's. *)
Lemma inv_other pre s sc sc' e ts : inv pre sc e →
  type_params sc' = type_params sc → p_states sc' = p_states sc → templates sc' = templates sc →
  all_tests sc' = all_tests sc → (∀ c, def_at c s = None ∧ register_at c s = None ∧ types_at c s = None) →
  inv (pre ++ [s]) sc' (Env (states e) (registered_names e) ts).
Proof.
  intros [] E1 E2 E3 E4 Hs.
  assert (∀ c, defs_of c (pre ++ [s]) = defs_of c pre) as Hd
    by (intros c; rewrite defs_of_snoc; destruct (Hs c) as [-> _]; by rewrite app_nil_r).
  assert (∀ c, registered_of c (pre ++ [s]) = registered_of c pre) as Hr
    by (intros c; rewrite registered_of_snoc; destruct (Hs c) as (_ & -> & _); by destruct (registered_of c pre)).
  assert (∀ c, types_of c (pre ++ [s]) = types_of c pre) as Ht
    by (intros c; rewrite types_of_snoc; destruct (Hs c) as (_ & _ & ->); by destruct (types_of c pre)).
  split; intros c; rewrite ?E1 ?E2 ?E3 ?E4 ?Hr ?Ht ?Hd; cbn; auto.
Qed.

(** ** One statement *)

(** The code of a statement after [pre]: the tests it registers, or that it aborts. *)
Definition does pre s (sc : scope) (code : cmd env unit) (e : env) : Prop :=
  (allowed pre s → ∃ e', code e = (Done (), e') ∧ inv (pre ++ [s]) sc e' ∧
    tests e' = tests e ++ statement_tests pre s) ∧
  (¬ allowed pre s → ∃ e', code e = (Aborted, e') ∧ tests e' = tests e).

Lemma does_allowed pre s sc code e : allowed pre s →
  (∃ e', code e = (Done (), e') ∧ inv (pre ++ [s]) sc e' ∧ tests e' = tests e ++ statement_tests pre s) →
  does pre s sc code e.
Proof. intros Ha He. by split. Qed.

Lemma state_of_run c st e : states e !! c = Some st → state_of c e = (Done st, e).
Proof. intros Hc. unfold state_of. rewrite (bind_done _ _ _ _ _ (eq_refl : get e = (Done e, e))). by rewrite Hc. Qed.

Lemma on_state_done {A} c st (m : cmd TypedTestCasePState A) a st' e :
  states e !! c = Some st → m st = (Done a, st') →
  on_state c m e = (Done a, Env (<[c := st']> (states e)) (registered_names e) (tests e)).
Proof.
  intros Hc Hm. unfold on_state. rewrite (bind_done _ _ _ _ _ (state_of_run _ _ _ Hc)).
  by apply (zoom_done (λ _, st) (λ st e, Env (<[c := st]> (states e)) (registered_names e) (tests e))).
Qed.

Lemma TYPED_TEST_CASE_does pre sc e c a sc' code : inv pre sc e →
  TYPED_TEST_CASE c a sc = Some (sc', code) → does pre (TypedTestCase c a) sc' code e.
Proof.
  intros Hinv. unfold TYPED_TEST_CASE. destruct (TypeList a) as [ts|] eqn:Hts; [|done]. cbn.
  case_bool_decide as Hd; [|done]. intros [= <- <-]. apply does_allowed; [done|]. exists e. split; [done|].
  cbn. split; [|by rewrite app_nil_r]. destruct Hinv.
  assert (∀ d, defs_of d (pre ++ [TypedTestCase c a]) = defs_of d pre) as Hdef
    by (intros d; by rewrite defs_of_snoc app_nil_r).
  assert (∀ d, registered_of d (pre ++ [TypedTestCase c a]) = registered_of d pre) as Hr
    by (intros d; rewrite registered_of_snoc; by destruct (registered_of d pre)).
  split; intros d; rewrite ?Hr ?Hdef; cbn; auto; rewrite types_of_snoc; cbn.
  - intros ts'. destruct (decide (c = d)) as [<-|Hne].
    + rewrite lookup_insert_eq. intros [= <-]. destruct Hd as [Hd|Hd].
      * rewrite (inv_no_types0 _ Hd). by exists a.
      * destruct (inv_types0 _ _ Hd) as (b & -> & Hb). by exists b.
    + rewrite lookup_insert_ne //. intros Hd'. destruct (inv_types0 _ _ Hd') as (b & -> & Hb). by exists b.
  - destruct (decide (c = d)) as [<-|Hne]; [by rewrite lookup_insert_eq|].
    rewrite lookup_insert_ne //. intros Hn. by rewrite (inv_no_types0 _ Hn).
Qed.

Lemma TYPED_TEST_does pre sc e c n loc sc' code : inv pre sc e → name_ok n →
  TYPED_TEST_ c n loc sc = Some (sc', code) → does pre (TypedTestStatement c n loc) sc' code e.
Proof.
  intros Hinv Hn. unfold TYPED_TEST_. destruct (type_params sc !! c) as [ts|] eqn:Hts; [|done]. cbn.
  destruct (declare _ sc) as [sc1|] eqn:H1; [|done]. cbn. destruct (declare _ sc1) as [sc2|] eqn:H2; [|done]. cbn.
  intros [= <- <-]. apply declare_scope in H1 as (E1 & E2 & E3 & E4), H2 as (F1 & F2 & F3 & F4).
  apply does_allowed; [done|]. destruct (inv_types _ _ _ Hinv c ts Hts) as (a & Ha & Hla).
  set (new := statement_tests pre (TypedTestStatement c n loc)).
  assert (on_tests (TYPED_TEST GetTypeName c (fixture_of c) ts n (test_of c n) loc) e =
    (Done true, Env (states e) (registered_names e) (tests e ++ new))) as Hrun.
  { apply (zoom_done tests (λ ts e, Env (states e) (registered_names e) ts)). unfold TYPED_TEST, new, statement_tests, case_tests.
    rewrite Ha /= app_nil_r /walk_types Hla. apply (register_types_run _ _ _ _ _ _ _ _ n 0).
    - destruct Hn as (Hc & _ & Hs & _). unfold GetPrefixUntilComma. by rewrite Hc.
    - pose proof (TypeList_fit _ _ Hla). unfold INT_MAX. lia. }
  exists (Env (states e) (registered_names e) (tests e ++ new)). split; [by rewrite (bind_done _ _ _ _ _ Hrun)|].
  split; [|done]. apply (inv_other pre _ sc); [done|congruence..|done].
Qed.

Lemma on_state_aborted {A} c st (m : cmd TypedTestCasePState A) st' e :
  states e !! c = Some st → m st = (Aborted, st') →
  on_state c m e = (Aborted, Env (<[c := st']> (states e)) (registered_names e) (tests e)).
Proof.
  intros Hc Hm. unfold on_state. rewrite (bind_done _ _ _ _ _ (state_of_run _ _ _ Hc)). unfold zoom. by rewrite Hm.
Qed.

Lemma bind_aborted {A B} (m : cmd env A) (k : A → cmd env B) e e' : m e = (Aborted, e') → (m ≫= k) e = (Aborted, e').
Proof. intros Hm. unfold mbind, cmd_bind. by rewrite Hm. Qed.

Lemma unregistered_state pre sc e c : inv pre sc e → c ∉ p_states sc → registered_of c pre = None.
Proof.
  intros [] Hc. destruct (all_tests sc !! c) as [ts|] eqn:Hts; [|auto].
  destruct (inv_registered0 _ _ Hts) as (args & Hargs). tauto.
Qed.

Lemma TYPED_TEST_CASE_P_does pre sc e c sc' code : inv pre sc e →
  TYPED_TEST_CASE_P c sc = Some (sc', code) → does pre (TypedTestCaseP c) sc' code e.
Proof.
  intros Hinv. unfold TYPED_TEST_CASE_P. case_bool_decide as Hc; [done|]. intros [= <- <-].
  apply does_allowed; [done|]. eexists. split; [reflexivity|]. cbn. split; [|by rewrite app_nil_r].
  pose proof (unregistered_state _ _ _ _ Hinv Hc) as Hreg. destruct Hinv.
  assert (∀ d, defs_of d (pre ++ [TypedTestCaseP c]) = defs_of d pre) as Hdef
    by (intros d; by rewrite defs_of_snoc app_nil_r).
  assert (∀ d, registered_of d (pre ++ [TypedTestCaseP c]) = registered_of d pre) as Hr
    by (intros d; rewrite registered_of_snoc; by destruct (registered_of d pre)).
  assert (∀ d, types_of d (pre ++ [TypedTestCaseP c]) = types_of d pre) as Ht
    by (intros d; rewrite types_of_snoc; by destruct (types_of d pre)).
  split; intros d; rewrite ?Hr ?Hdef ?Ht; cbn; auto.
  - destruct (decide (c = d)) as [<-|Hne].
    + intros _. exists ∅. rewrite lookup_insert_eq Hreg (inv_no_state0 _ Hc). split; [done|]. intros n. by rewrite lookup_empty.
    + rewrite lookup_insert_ne // elem_of_union elem_of_singleton. intros [->|Hd]; [done|auto].
  - rewrite elem_of_union. intros Hd. apply inv_no_state0. tauto.
  - intros ts Hts. destruct (inv_registered0 _ _ Hts) as (args & ?). exists args. set_solver.
Qed.

Lemma TYPED_TEST_P_does pre sc e c n loc sc' code : inv pre sc e →
  TYPED_TEST_P_ c n loc sc = Some (sc', code) → does pre (TypedTestP c n loc) sc' code e.
Proof.
  intros Hinv. unfold TYPED_TEST_P_. case_bool_decide as Hn; [done|]. case_bool_decide as Hc; [done|]. cbn.
  intros [= <- <-]. destruct (inv_state _ _ _ Hinv c Hc) as (m & Hst & Hm).
  assert (location_of (defs_of c pre) n = None) as Hnew.
  { apply eq_None_not_Some. by rewrite location_of_is_Some -(inv_templates _ _ _ Hinv). }
  unfold does, allowed. split.
  - intros Hreg. rewrite Hreg in Hst. cbn in Hst.
    set (e' := Env (<[c := MkPState false (<[n := loc]> m)]> (states e)) (registered_names e) (tests e)).
    assert (on_state c (TYPED_TEST_P n loc) e = (Done true, e')) as Hrun.
    { apply (on_state_done _ _ _ _ _ _ Hst). assert (map_insert n loc m = <[n := loc]> m) as <-
        by (unfold map_insert; by rewrite Hm Hnew). by destruct loc. }
    exists e'. split; [by rewrite (bind_done _ _ _ _ _ Hrun)|]. split; [|by rewrite app_nil_r].
    assert (∀ d, registered_of d (pre ++ [TypedTestP c n loc]) = registered_of d pre) as Hr
      by (intros d; rewrite registered_of_snoc; by destruct (registered_of d pre)).
    assert (∀ d, types_of d (pre ++ [TypedTestP c n loc]) = types_of d pre) as Ht
      by (intros d; rewrite types_of_snoc; by destruct (types_of d pre)).
    assert (∀ d, c ≠ d → defs_of d (pre ++ [TypedTestP c n loc]) = defs_of d pre) as Hd
      by (intros d Hne; by rewrite defs_of_snoc /= decide_False //= app_nil_r).
    assert (defs_of c (pre ++ [TypedTestP c n loc]) = defs_of c pre ++ [(n, loc)]) as Hdc
      by (by rewrite defs_of_snoc /= decide_True).
    assert (n ∉ (defs_of c pre).*1) as Hnin by by rewrite -(inv_templates _ _ _ Hinv).
    destruct Hinv. split; intros d; rewrite ?Hr ?Ht; cbn; auto.
    all: destruct (decide (c = d)) as [<-|Hne]; [rewrite ?Hdc|rewrite ?Hd //].
    + intros _. exists (<[n := loc]> m). rewrite lookup_insert_eq Hreg. split; [done|]. intros k.
      rewrite location_of_snoc. destruct (decide (n = k)) as [<-|Hk]; [by rewrite lookup_insert_eq Hnew|].
      rewrite lookup_insert_ne // Hm. by destruct (location_of _ k).
    + rewrite lookup_insert_ne //. auto.
    + done.
    + auto.
    + intros k. rewrite fmap_app elem_of_union elem_of_singleton elem_of_app list_elem_of_singleton -inv_templates0. naive_solver.
    + intros k. rewrite elem_of_union elem_of_singleton -inv_templates0. naive_solver.
    + rewrite fmap_app. apply NoDup_app. split_and!; [done| |apply NoDup_singleton]. by intros k Hk ->%list_elem_of_singleton.
    + intros ts Hts. destruct (inv_registered0 _ _ Hts) as (args & Hargs & _). congruence.
    + auto.
  - intros Hreg. destruct (registered_of c pre) as [args|] eqn:Hargs; [|done]. cbn in Hst.
    eexists. split; [apply bind_aborted; by apply (on_state_aborted _ _ _ (MkPState true m) _ Hst)|done].
Qed.

Lemma REGISTER_does `{!VerifyLaws} pre sc e c args loc sc' code :
  inv pre sc e → Forall item_ok args → args ≠ [] →
  REGISTER_TYPED_TEST_CASE_P c args loc sc = Some (sc', code) → does pre (RegisterTypedTestCaseP c args loc) sc' code e.
Proof.
  intros Hinv Hok Hne. unfold REGISTER_TYPED_TEST_CASE_P.
  destruct (Templates (testp_of c <$> spelled args)) as [ts|] eqn:Hts; [|done].
  cbn [mbind option_bind]. repeat case_bool_decide; try done. intros [= <- <-].
  assert (walk ts = MkTemplateSel <$> (testp_of c <$> spelled args)) as Hw.
  { apply Templates_names; [done|]. intros (n & Hn & _)%list_elem_of_fmap. by destruct (testp_some c n). }
  pose proof (inv_unregistered _ _ _ Hinv c ltac:(done)) as Hreg.
  destruct (inv_state _ _ _ Hinv c ltac:(done)) as (m & Hst & Hm). rewrite Hreg in Hst. cbn in Hst.
  pose proof (names_match_iff pre c false m (spelled args) (inv_nodup _ _ _ Hinv c) Hm) as Hmatch.
  unfold does, allowed. split.
  - intros Hp.
    pose proof (verify_matching (loc_file loc) (loc_line loc) args (MkPState false m) Hok Hne eq_refl (proj2 Hmatch Hp)) as Hrun.
    eexists. split; [by rewrite (bind_done _ _ _ _ _ (on_state_done _ _ _ _ _ _ Hst Hrun))|]. cbn.
    split; [|by rewrite app_nil_r].
    assert (∀ d, defs_of d (pre ++ [RegisterTypedTestCaseP c args loc]) = defs_of d pre) as Hdef
      by (intros d; by rewrite defs_of_snoc app_nil_r).
    assert (∀ d, types_of d (pre ++ [RegisterTypedTestCaseP c args loc]) = types_of d pre) as Ht
      by (intros d; rewrite types_of_snoc; by destruct (types_of d pre)).
    assert (∀ d, c ≠ d → registered_of d (pre ++ [RegisterTypedTestCaseP c args loc]) = registered_of d pre) as Hr
      by (intros d Hd; rewrite registered_of_snoc /= decide_False //; by destruct (registered_of d pre)).
    assert (registered_of c (pre ++ [RegisterTypedTestCaseP c args loc]) = Some args) as Hrc
      by by rewrite registered_of_snoc Hreg /= decide_True.
    destruct Hinv. split; intros d; rewrite ?Ht ?Hdef; cbn; auto.
    all: destruct (decide (c = d)) as [<-|Hd]; [rewrite ?lookup_insert_eq ?Hrc|rewrite ?lookup_insert_ne // ?Hr //; auto].
    + intros _. by exists m.
    + done.
    + intros ts' [= <-]. by exists args.
  - intros Hp. rewrite -Hmatch in Hp.
    destruct (verify_not_matching (loc_file loc) (loc_line loc) args (MkPState false m) Hok Hne eq_refl Hp) as (st' & Hrun).
    eexists. split; [apply bind_aborted; by apply (on_state_aborted _ _ _ _ _ Hst Hrun)|done].
Qed.

(** The recursion of TypeParameterizedTestCase makes the tests of the case. *)
Lemma all_typed_tests_case (defs : list (string * CodeLocation)) r m Prefix c (ts : type_list ctype) loc (names : list string) :
  (∀ n, m !! n = location_of defs n) →
  all_typed_tests GetTypeName (fixture_of c) Prefix c (MkPState r m) ts loc names
    (MkTemplateSel <$> (testp_of c <$> names)) =
  case_tests Prefix c (walk ts) ((λ n, (n, default loc (location_of defs n), testp_of c n)) <$> names).
Proof.
  intros Hm. unfold all_typed_tests, case_tests. induction names as [|n names IH]; [done|].
  cbn. rewrite Hm. f_equal. exact IH.
Qed.

Lemma INSTANTIATE_does pre sc e Prefix c a loc sc' code : inv pre sc e →
  INSTANTIATE_TYPED_TEST_CASE_P_ Prefix c a loc sc = Some (sc', code) →
  does pre (InstantiateTypedTestCaseP Prefix c a loc) sc' code e.
Proof.
  intros Hinv. unfold INSTANTIATE_TYPED_TEST_CASE_P_.
  destruct (TypeList a) as [ts|] eqn:Hts; [|done]. cbn [mbind option_bind].
  destruct (all_tests sc !! c) as [all|] eqn:Hall; [|done]. cbn [mbind option_bind].
  destruct (declare _ sc) as [sc1|] eqn:H1; [|done]. cbn [mbind option_bind]. intros [= <- <-].
  apply declare_scope in H1 as (E1 & E2 & E3 & E4). apply does_allowed; [done|].
  destruct (inv_registered _ _ _ Hinv c all Hall) as (args & Hargs & Hw & Hnames & Hok & Hne & Hp & Hc).
  destruct (inv_state _ _ _ Hinv c Hc) as (m & Hst & Hm). rewrite Hargs in Hst.
  set (new := statement_tests pre (InstantiateTypedTestCaseP Prefix c a loc)).
  assert (on_tests (INSTANTIATE_TYPED_TEST_CASE_P GetTypeName Prefix c (fixture_of c) all ts loc (MkPState true m)
    (spell args)) e = (Done true, Env (states e) (registered_names e) (tests e ++ new))) as Hrun.
  { apply (zoom_done tests (λ ts e, Env (states e) (registered_names e) ts)). unfold INSTANTIATE_TYPED_TEST_CASE_P.
    assert (Some (spell args) = match args with [] => None | _ => Some (spell args) end) as -> by by destruct args.
    rewrite (register_case_run GetTypeName (fixture_of c) Prefix c (MkPState true m) ts loc).
    - pose proof (TypeList_fit _ _ Hts). unfold INT_MAX. lia.
    - done.
    - by rewrite Hw !length_fmap.
    - apply Forall_forall. intros n Hn. cbn. by rewrite Hm location_of_is_Some -Hp.
    - unfold new, statement_tests. rewrite Hw Hargs /walk_types Hts. cbn [default fmap option_fmap option_map from_option id].
      by rewrite (all_typed_tests_case (defs_of c pre)). }
  exists (Env (states e) (registered_names e) (tests e ++ new)). split; [|split; [|done]].
  - rewrite (bind_done _ _ _ _ _ (state_of_run _ _ _ Hst)).
    rewrite (bind_done _ _ _ _ _ (eq_refl : gets _ e = (Done _, e))) Hnames. cbn [or_ub]. rewrite bind_ret_l.
    by rewrite (bind_done _ _ _ _ _ Hrun).
  - apply (inv_other pre _ sc); [done..|]. done.
Qed.

(** ** Programs *)

Lemma statement_does `{!VerifyLaws} pre s sc e sc' code : inv pre sc e → well_spelled s →
  elaborate s sc = Some (sc', code) → does pre s sc' code e.
Proof.
  intros Hinv Hs. destruct s; cbn [elaborate well_spelled] in *.
  - by apply TYPED_TEST_CASE_does.
  - by eapply TYPED_TEST_does.
  - by apply TYPED_TEST_CASE_P_does.
  - by apply TYPED_TEST_P_does.
  - destruct Hs. by apply REGISTER_does.
  - by apply INSTANTIATE_does.
Qed.

Lemma compiled_cons s prog sc init : compile (s :: prog) sc = Some init →
  ∃ sc' code rest, elaborate s sc = Some (sc', code) ∧ compile prog sc' = Some rest ∧ init = (code;; rest).
Proof.
  cbn [compile]. destruct (elaborate s sc) as [[sc' code]|]; [|done]. cbn [mbind option_bind].
  destruct (compile prog sc') as [rest|] eqn:Hrest; [|done]. intros [= <-]. by exists sc', code, rest.
Qed.

Lemma compiled_runs `{!VerifyLaws} prog before sc e init : inv before sc e → Forall well_spelled prog →
  compile prog sc = Some init → all_allowed before prog →
  ∃ e', init e = (Done (), e') ∧ tests e' = tests e ++ tests_after before prog.
Proof.
  revert before sc e init. induction prog as [|s prog IH]; intros before sc e init Hinv Hsp.
  { intros [= <-] _. exists e. by rewrite app_nil_r. }
  apply Forall_cons in Hsp as [Hs Hsp]. intros (sc' & code & rest & Hel & Hcomp & ->)%compiled_cons [Ha Hall].
  destruct (statement_does _ _ _ _ _ _ Hinv Hs Hel) as [Hdo _]. destruct (Hdo Ha) as (e1 & H1 & Hinv1 & Ht1).
  destruct (IH _ _ _ _ Hinv1 Hsp Hcomp Hall) as (e' & Hrun & Ht). exists e'.
  rewrite (bind_done _ _ _ _ _ H1). split; [done|]. by rewrite Ht Ht1 -app_assoc.
Qed.

Lemma compiled_aborts `{!VerifyLaws} pre s post before sc e init : inv before sc e →
  Forall well_spelled (pre ++ s :: post) → compile (pre ++ s :: post) sc = Some init →
  all_allowed before pre → ¬ allowed (before ++ pre) s →
  ∃ e', init e = (Aborted, e') ∧ tests e' = tests e ++ tests_after before pre.
Proof.
  revert before sc e init. induction pre as [|s' pre IH]; intros before sc e init Hinv Hsp.
  - rewrite app_nil_r. apply Forall_cons in Hsp as [Hs _].
    intros (sc' & code & rest & Hel & _ & ->)%compiled_cons _ Ha.
    destruct (statement_does _ _ _ _ _ _ Hinv Hs Hel) as [_ Hdo]. destruct (Hdo Ha) as (e' & He' & Ht).
    exists e'. split; [by apply bind_aborted|]. by rewrite app_nil_r.
  - apply Forall_cons in Hsp as [Hs Hsp]. intros (sc' & code & rest & Hel & Hcomp & ->)%compiled_cons [Ha Hall] Hna.
    destruct (statement_does _ _ _ _ _ _ Hinv Hs Hel) as [Hdo _]. destruct (Hdo Ha) as (e1 & H1 & Hinv1 & Ht1).
    destruct (IH _ _ _ _ Hinv1 Hsp Hcomp Hall) as (e' & Hrun & Ht); [by rewrite -app_assoc|]. exists e'.
    rewrite (bind_done _ _ _ _ _ H1). split; [done|]. by rewrite Ht Ht1 -app_assoc.
Qed.

(** C33. A translation unit of typed and type-parameterized tests that compiles: when every
    case is registered with just the tests that are defined before, in any order and
    spacing, and no test is defined after that, its initializers run to their end and have
    registered, statement after statement, each TYPED_TEST with every type of its case and,
    for each INSTANTIATE_TYPED_TEST_CASE_P, every test of the case with every type, under
    the names Prefix/Case/index and at the places of their definitions. Otherwise the
    program aborts at the first statement that breaks this, after the tests of those
    before it. *)
Theorem typed_program_registers `{!VerifyLaws} prog init :
  Forall well_spelled prog → compile prog empty_scope = Some init →
  (all_allowed [] prog → ∃ e, init start = (Done (), e) ∧ tests e = tests_after [] prog) ∧
  (∀ pre s post, prog = pre ++ s :: post → all_allowed [] pre → ¬ allowed pre s →
     ∃ e, init start = (Aborted, e) ∧ tests e = tests_after [] pre).
Proof.
  intros Hsp Hc. split; [by apply (compiled_runs _ _ _ _ _ inv_at_start)|].
  intros pre s post -> Hall Hs. by apply (compiled_aborts _ _ _ _ _ _ _ inv_at_start Hsp Hc).
Qed.
End programs.

(** * A sample *)

(** The names in a list. *)
Fixpoint read_names (fuel : nat) (str : string) : list string :=
  match fuel with
  | O => []
  | S fuel =>
      StripTrailingSpaces (GetPrefixUntilComma str) ::
      match SkipComma str with Some rest => read_names fuel rest | None => [] end
  end.

#[local] Instance sample_verify : VerifyNames := {|
  VerifyRegisteredTestNames _ _ str st :=
    let names := read_names (S (String.length str)) str in
    if bool_decide (NoDup names ∧ list_to_set (C:=gset string) names = dom (registered_tests_ st))
    then (Done str, MkPState true (registered_tests_ st)) else (Aborted, st) |}.

Lemma read_names_spell fuel items : Forall item_ok items → items ≠ [] → (length items ≤ fuel)%nat →
  read_names fuel (spell items) = spelled items.
Proof.
  revert items. induction fuel as [|fuel IH]; intros [|i items] Hok Hne Hf; [done|by apply Nat.nle_succ_0 in Hf|done|].
  apply Forall_cons in Hok as [Hi Hok]. cbn [read_names]. rewrite spell_name // spell_next //.
  cbn. f_equal. destruct items as [|j items]; [done|]. apply IH; [done..|]. cbn in *. lia.
Qed.

Lemma spell_length items : Forall item_ok items → (length items ≤ String.length (spell items))%nat.
Proof.
  induction items as [|[[n a] b] items IH]; [cbn; lia|]. intros [((_ & _ & _ & Hn) & _) Hok]%Forall_cons.
  specialize (IH Hok). destruct n as [|ch n]; [done|].
  destruct items as [|j items]; [cbn [spell]; rewrite string_length_app; cbn; lia|].
  assert (spell ((String ch n, a, b) :: j :: items) = String ch n +:+ a +:+ String comma (b +:+ spell (j :: items)))
    as -> by done.
  rewrite !string_length_app. cbn [String.length]. rewrite string_length_app. cbn [length] in *. lia.
Qed.

#[local] Instance sample_verify_laws : VerifyLaws.
Proof.
  assert (∀ items st, Forall item_ok items → items ≠ [] →
    read_names (S (String.length (spell items))) (spell items) = spelled items ∧
    (names_match st (spelled items) ↔
     NoDup (spelled items) ∧ list_to_set (C:=gset string) (spelled items) = dom (registered_tests_ st))) as Hall.
  { intros items st Hok Hne. split.
    - apply read_names_spell; [done..|]. pose proof (spell_length items Hok). lia.
    - unfold names_match. rewrite set_eq. setoid_rewrite elem_of_list_to_set. by setoid_rewrite elem_of_dom. }
  split; intros file line items st Hok Hne _ Hm; cbn [VerifyRegisteredTestNames sample_verify];
    destruct (Hall items st Hok Hne) as [-> Hiff]; rewrite Hiff in Hm.
  - by rewrite bool_decide_true.
  - rewrite bool_decide_false //. by eexists.
Qed.

#[local] Existing Instance named_types.

(** A test class template by its name. *)
Definition sample_class (prefix c n : string) : ctemplate := prefix +:+ c +:+ "_" +:+ n.

Definition sample_program : list statement := [
  TypedTestCase "Vector" (TypesOf [t_int; t_char]);
  TypedTestStatement "Vector" "Grows" (MkLocation "v.cc" 10);
  TypedTestCaseP "Queue";
  TypedTestP "Queue" "IsEmpty" (MkLocation "q.h" 20);
  TypedTestP "Queue" "Pops" (MkLocation "q.h" 30);
  RegisterTypedTestCaseP "Queue" [("Pops", EmptyString, " "); ("IsEmpty", EmptyString, EmptyString)] (MkLocation "q.h" 40);
  InstantiateTypedTestCaseP "My" "Queue" (SingleType t_int) (MkLocation "q.cc" 5)]%string.

(** A test defined too late, and one that is not registered. *)
Definition late_program : list statement := sample_program ++ [TypedTestP "Queue" "Late" (MkLocation "q.cc" 9)].
Definition forgotten_program : list statement :=
  take 5 sample_program ++
  [RegisterTypedTestCaseP "Queue" [("Pops", EmptyString, EmptyString)] (MkLocation "q.h" 40)]%string.

Definition sample_init (prog : list statement) : cmd env unit :=
  default (mret ()) (compile type_name id (sample_class EmptyString) (sample_class "P_") prog empty_scope).
Definition sample_labels (ts : list typed_test) : list (string * string * string) :=
  (λ t, (tt_case_name t, tt_name t, (tt_class t : string))) <$> ts.

#[local] Instance name_ok_dec n : Decision (name_ok n).
Proof. unfold name_ok. apply _. Defined.
#[local] Instance item_ok_dec i : Decision (item_ok i).
Proof. unfold item_ok, spaces. apply _. Defined.
#[local] Instance well_spelled_dec (s : statement) : Decision (well_spelled s).
Proof. destruct s; cbn; apply _. Defined.
#[local] Instance allowed_dec (pre : list statement) s : Decision (allowed pre s).
Proof. destruct s; cbn; apply _. Defined.
#[local] Instance all_allowed_dec (prog pre : list statement) : Decision (all_allowed pre prog).
Proof. revert pre. induction prog; intros pre; cbn; apply _. Defined.

Lemma typed_program_registers_witness :
  (∃ e, sample_init sample_program start = (Done (), e) ∧ sample_labels (tests e) =
     [("Vector/0", "Grows", "Vector_Grows<int>"); ("Vector/1", "Grows", "Vector_Grows<char>");
      ("My/Queue/0", "Pops", "P_Queue_Pops<int>"); ("My/Queue/0", "IsEmpty", "P_Queue_IsEmpty<int>")]%string) ∧
  (∃ e, sample_init late_program start = (Aborted, e) ∧ length (tests e) = 4%nat) ∧
  (∃ e, sample_init forgotten_program start = (Aborted, e) ∧ length (tests e) = 2%nat).
Proof.
  assert (∀ c n, sample_class "P_" c n ≠ NoneT) as Hsome by by intros.
  split_and!.
  - destruct (typed_program_registers type_name id (sample_class EmptyString) (sample_class "P_") Hsome sample_program
      (sample_init sample_program) ltac:(vm_decide) eq_refl) as [Hrun _].
    destruct (Hrun ltac:(vm_decide)) as (e & He & Ht). exists e. split; [exact He|]. rewrite Ht. vm_compute. reflexivity.
  - destruct (typed_program_registers type_name id (sample_class EmptyString) (sample_class "P_") Hsome late_program
      (sample_init late_program) ltac:(vm_decide) eq_refl) as [_ Hrun].
    destruct (Hrun sample_program (TypedTestP "Queue" "Late" (MkLocation "q.cc" 9)) [] eq_refl ltac:(vm_decide)
      ltac:(vm_decide)) as (e & He & Ht).
    exists e. split; [exact He|]. rewrite Ht. vm_compute. reflexivity.
  - destruct (typed_program_registers type_name id (sample_class EmptyString) (sample_class "P_") Hsome forgotten_program
      (sample_init forgotten_program) ltac:(vm_decide) eq_refl) as [_ Hrun].
    destruct (Hrun (take 5 sample_program)
      (RegisterTypedTestCaseP "Queue" [("Pops", EmptyString, EmptyString)] (MkLocation "q.h" 40)) [] eq_refl
      ltac:(vm_decide) ltac:(vm_decide)) as (e & He & Ht).
    exists e. split; [exact He|]. rewrite Ht. vm_compute. reflexivity.
Defined.
