(* ===== verification/Characters.v ===== *)
(** The functions on characters and the largest integer of the test library
    (src/gtest/include/gtest/internal/gtest-port.h).

    char may be signed or not, and the functions of <cctype> take an int whose value is
    that of an unsigned char or EOF: any other argument is undefined. They are those of the
    C locale. *)

From Stdlib Require Import Ascii.
From S2P Require Import Prelude Machine TypedTests.
#[local] Open Scope Z_scope.

(** * The functions of <cctype> *)

Definition EOF : Z := -1.
Definition ctype_argument (c : Z) : bool := (c =? EOF) || ((0 <=? c) && (c <=? 255)).

(** A function of <cctype> with the given values. *)
Definition ctype {A} (f : Z → A) (c : Z) : option A := if ctype_argument c then Some (f c) else None.

Definition between (a c b : Z) : bool := (a <=? c) && (c <=? b).
Definition upper (c : Z) : bool := between 65 c 90.
Definition lower (c : Z) : bool := between 97 c 122.
Definition digit (c : Z) : bool := between 48 c 57.

Definition isupper : Z → option bool := ctype upper.
Definition islower : Z → option bool := ctype lower.
Definition isalpha : Z → option bool := ctype (λ c, upper c || lower c).
Definition isdigit : Z → option bool := ctype digit.
Definition isalnum : Z → option bool := ctype (λ c, upper c || lower c || digit c).
Definition isspace : Z → option bool := ctype (λ c, between 9 c 13 || (c =? 32)).
Definition isxdigit : Z → option bool := ctype (λ c, digit c || between 65 c 70 || between 97 c 102).
Definition tolower : Z → option Z := ctype (λ c, if upper c then c + 32 else c).
Definition toupper : Z → option Z := ctype (λ c, if lower c then c - 32 else c).

(** * The functions on characters *)

Section characters.
(** Whether char is signed. *)
Context (char_signed : bool).

Definition is_char (ch : Z) : Prop := if char_signed then -128 ≤ ch ≤ 127 else 0 ≤ ch ≤ 255.

(** static_cast<unsigned char> and static_cast<char>. *)
Definition to_uchar (z : Z) : Z := z mod 256.
Definition to_char (z : Z) : Z :=
  let c := z mod 256 in if char_signed && (128 <=? c) then c - 256 else c.

Definition IsAlpha (ch : Z) : option bool := isalpha (to_uchar ch).
Definition IsAlNum (ch : Z) : option bool := isalnum (to_uchar ch).
Definition IsDigit (ch : Z) : option bool := isdigit (to_uchar ch).
Definition IsLower (ch : Z) : option bool := islower (to_uchar ch).
Definition IsSpace_char (ch : Z) : option bool := isspace (to_uchar ch).
Definition IsUpper (ch : Z) : option bool := isupper (to_uchar ch).
Definition IsXDigit (ch : Z) : option bool := isxdigit (to_uchar ch).
Definition IsXDigit_wide (ch : Z) : option bool :=
  let low_byte := to_uchar ch in
  if ch =? low_byte then isxdigit low_byte else Some false.

Definition ToLower (ch : Z) : option Z := c ← tolower (to_uchar ch); Some (to_char c).
Definition ToUpper (ch : Z) : option Z := c ← toupper (to_uchar ch); Some (to_char c).

(** * What they do *)

Lemma ctype_uchar {A} (f : Z → A) z : ctype f (to_uchar z) = Some (f (to_uchar z)).
Proof.
  unfold ctype, ctype_argument, to_uchar. pose proof (Z.mod_pos_bound z 256).
  destruct (Z.leb_spec 0 (z mod 256)), (Z.leb_spec (z mod 256) 255); [by rewrite orb_true_r|lia..].
Qed.

Lemma to_uchar_char ch : is_char ch → to_uchar ch = if ch <? 0 then ch + 256 else ch.
Proof.
  intros Hch. unfold is_char in Hch. unfold to_uchar. destruct (Z.ltb_spec ch 0).
  - rewrite -(Z.mod_add _ 1) // Z.mod_small; destruct char_signed; lia.
  - rewrite Z.mod_small //. destruct char_signed; lia.
Qed.

Lemma to_char_is_char z : is_char (to_char z).
Proof.
  unfold to_char, is_char. pose proof (Z.mod_pos_bound z 256).
  destruct char_signed; cbn; [destruct (Z.leb_spec 128 (z mod 256)); lia|lia].
Qed.

Lemma to_char_ascii c : 0 ≤ c < 128 → to_char c = c.
Proof.
  intros Hc. unfold to_char. rewrite Z.mod_small; [lia|]. destruct char_signed; [|done].
  destruct (Z.leb_spec 128 c); [lia|done].
Qed.

Lemma to_char_uchar ch : is_char ch → to_char (to_uchar ch) = ch.
Proof.
  intros Hch. rewrite to_uchar_char //. unfold is_char in Hch. unfold to_char.
  destruct (Z.ltb_spec ch 0).
  - destruct char_signed; [|lia]. rewrite Z.mod_small; [lia|]. destruct (Z.leb_spec 128 (ch + 256)); cbn; lia.
  - rewrite Z.mod_small; [destruct char_signed; lia|]. destruct char_signed; [|done].
    destruct (Z.leb_spec 128 ch); cbn; lia.
Qed.

(** A test that no number above 127 passes tells the same of a char. *)
Lemma class_char (p : Z → bool) ch : is_char ch → (∀ c, p c = true → 0 ≤ c < 128) → p (to_uchar ch) = p ch.
Proof.
  intros Hch Hp. rewrite to_uchar_char //. unfold is_char in Hch. destruct (Z.ltb_spec ch 0); [|done].
  destruct (p (ch + 256)) eqn:H1, (p ch) eqn:H2; [done| | |done].
  - apply Hp in H1. destruct char_signed; lia.
  - apply Hp in H2. lia.
Qed.

(** Solves a goal on comparisons of integers. *)
Ltac char_cases :=
  unfold upper, lower, digit, between in *;
  repeat match goal with
  | |- context [?a <=? ?b] => destruct (Z.leb_spec a b)
  | |- context [?a =? ?b] => destruct (Z.eqb_spec a b)
  end; cbn in *; (lia || done || (intros; lia)).

(** No call is undefined, whatever the char: each function tells whether the char is in
    its class of ASCII characters, and no char outside ASCII is in any; ToLower and
    ToUpper change just the letters of the other case, return chars and take each other
    back; and a wide character is a hexadecimal digit exactly when it is one in ASCII. *)
Theorem characters_classified ch : is_char ch →
  IsUpper ch = Some (upper ch) ∧ IsLower ch = Some (lower ch) ∧ IsDigit ch = Some (digit ch) ∧
  IsAlpha ch = Some (upper ch || lower ch) ∧ IsAlNum ch = Some (upper ch || lower ch || digit ch) ∧
  IsSpace_char ch = Some (between 9 ch 13 || (ch =? 32)) ∧
  IsXDigit ch = Some (digit ch || between 65 ch 70 || between 97 ch 102) ∧
  ToLower ch = Some (if upper ch then ch + 32 else ch) ∧
  ToUpper ch = Some (if lower ch then ch - 32 else ch) ∧
  (∀ w, IsXDigit_wide w = Some (digit w || between 65 w 70 || between 97 w 102)).
Proof.
  intros Hch.
  unfold IsUpper, IsLower, IsDigit, IsAlpha, IsAlNum, IsSpace_char, IsXDigit, IsXDigit_wide, ToLower, ToUpper,
    isupper, islower, isdigit, isalpha, isalnum, isspace, isxdigit, tolower, toupper.
  rewrite !ctype_uchar. cbn [mbind option_bind].
  assert (upper (to_uchar ch) = upper ch) as Hu by (apply class_char; [done|intros c; char_cases]).
  assert (lower (to_uchar ch) = lower ch) as Hl by (apply class_char; [done|intros c; char_cases]).
  split_and!.
  - by rewrite Hu.
  - by rewrite Hl.
  - f_equal. apply (class_char digit); [done|]. intros c. char_cases.
  - by rewrite Hu Hl.
  - rewrite Hu Hl. do 2 f_equal. apply (class_char digit); [done|]. intros c. char_cases.
  - f_equal. apply (class_char (λ c, between 9 c 13 || (c =? 32))); [done|]. intros c. char_cases.
  - f_equal. apply (class_char (λ c, digit c || between 65 c 70 || between 97 c 102)); [done|]. intros c. char_cases.
  - f_equal. rewrite Hu. destruct (upper ch) eqn:Hup; [|by apply to_char_uchar].
    assert (65 ≤ ch ≤ 90) by (revert Hup; char_cases).
    rewrite to_uchar_char // (proj2 (Z.ltb_ge ch 0)) ?to_char_ascii //; lia.
  - f_equal. rewrite Hl. destruct (lower ch) eqn:Hlow; [|by apply to_char_uchar].
    assert (97 ≤ ch ≤ 122) by (revert Hlow; char_cases).
    rewrite to_uchar_char // (proj2 (Z.ltb_ge ch 0)) ?to_char_ascii //; lia.
  - intros w. destruct (Z.eqb_spec w (to_uchar w)) as [Hw|Hw]; [by rewrite ctype_uchar -Hw|]. f_equal.
    unfold to_uchar in Hw. symmetry.
    destruct (decide (0 ≤ w < 256)) as [Hr|Hr]; [by rewrite Z.mod_small in Hw|]. char_cases.
Qed.
End characters.

(** IsSpace of TypedTests.v is this one. *)
Lemma IsSpace_same (a : ascii) : Some (IsSpace a) = IsSpace_char (Z.of_nat (nat_of_ascii a)).
Proof. by destruct a as [[] [] [] [] [] [] [] []]. Qed.

(** * The largest BiggestInt *)

(** A number as a BiggestInt, which has 64 bits in two's complement. *)
Definition sizeof_BiggestInt : Z := 8.
Definition to_BiggestInt (z : Z) : Z := (z + 2 ^ 63) mod 2 ^ 64 - 2 ^ 63.

(** ~(1 << (8 * sizeof(BiggestInt) - 1)). *)
Definition kMaxBiggestInt : Z := Z.lnot (to_BiggestInt (Z.shiftl 1 (8 * sizeof_BiggestInt - 1))).

Lemma kMaxBiggestInt_largest : kMaxBiggestInt = 2 ^ 63 - 1.
Proof. reflexivity. Qed.
