(* ===== verification/TestFactories.v ===== *)
(** Tests as objects: TEST and TEST_F, the factories that make test objects, and the
    parameter of a value-parameterized test.

    src/gtest/include/gtest/internal/gtest-internal.h has GTEST_TEST_, TestFactoryImpl and
    GetTypeId, gtest-param-util.h ParameterizedTestFactory and TestMetaFactory, and gtest.h
    TEST, TEST_F and WithParamInterface. The parameter reaches a test through a static
    pointer into the factory that made it. MakeAndRegisterTestInfo is a call that is
    recorded; a test is run as the comments of class Test and TestFactoryBase say. *)

From S2P Require Import Prelude Machine Mem ParamGenerator ParamRegister TypedTests.
#[local] Open Scope Z_scope.

(** * The code of tests *)

(** What a member function of a test does here: it asks for parameters. [t] is the type T
    of the WithParamInterface<T> whose GetParam() is called. *)
Inductive user_code (ptype value : Type) : Type :=
  | Stop
  | AskParam (t : ptype) (k : value → user_code ptype value).
Arguments Stop {ptype value}.
Arguments AskParam {ptype value} _ _.

(** The classes of a program: parameter types and values, fixtures, and test classes with
    their fixture, its ParamType and their member functions. *)
Class TestClasses : Type := {
  ptype : Type;
  ptype_eq :: EqDecision ptype;
  ptype_countable :: Countable ptype;
  value : Type;
  fixture : Type;
  test_class : Type;
  class_fixture : test_class → fixture;
  ParamType : test_class → ptype;
  constructor : test_class → user_code ptype value;
  SetUp : test_class → user_code ptype value;
  TestBody : test_class → user_code ptype value;
  TearDown : test_class → user_code ptype value;
  destructor : test_class → user_code ptype value;
  testing_Test : fixture;
}.

(** The address of the static variable TypeIdHelper<T>::dummy_: the compiler allocates one
    for each T. GetTestTypeId() is only declared: it returns the id of ::testing::Test. *)
Class TypeIds `{TestClasses} : Type := {
  dummy_ : fixture → loc;
  dummy_inj :: Inj (=) (=) dummy_;
  GetTestTypeId : loc;
  GetTestTypeId_is : GetTestTypeId = dummy_ testing_Test;
}.

Section factories.
Context `{Malloc, TC : TestClasses, TI : !TypeIds}.

(** * State *)

Inductive object : Type :=
  | TestFactoryImpl (c : test_class)
  | ParameterizedTestFactory (c : test_class) (parameter : value)
  | TestMetaFactory (c : test_class)
  | TestObject (c : test_class).

(** A call of MakeAndRegisterTestInfo: None is NULL; a function of the test case is the
    fixture it belongs to. *)
Record test_info : Type := MakeTestInfo {
  test_case_name : string;
  name : string;
  type_param : option string;
  value_param : option string;
  code_location : CodeLocation;
  fixture_class_id : loc;
  set_up_tc : fixture;
  tear_down_tc : fixture;
  factory : ptr;
}.

(** The heap, WithParamInterface<T>::parameter_ by T as the factory it points into, and the
    tests. *)
Record env : Type := Env {
  heap : mem object;
  parameter_ : gmap ptype loc;
  infos : list test_info;
}.

Definition on_heap {A} (m : cmd (mem object) A) : cmd env A := zoom heap (λ h e, Env h (parameter_ e) (infos e)) m.

Definition new_object (o : object) : cmd env ptr :=
  p ← on_heap (malloc o); if p is Some _ then mret p else abort.

Definition MakeAndRegisterTestInfo (i : test_info) : cmd env unit :=
  modify (λ e, Env (heap e) (parameter_ e) (infos e ++ [i])).

(** * WithParamInterface *)

Definition SetParam (t : ptype) (parameter : ptr) : cmd env unit :=
  modify (λ e, Env (heap e) (partial_alter (λ _, parameter) t (parameter_ e)) (infos e)).

(** GTEST_CHECK_ aborts. The pointer points to parameter_ of its factory. *)
Definition GetParam (t : ptype) : cmd env value :=
  p ← gets (λ e, parameter_ e !! t);
  assert_ (bool_decide (p ≠ NULL));;
  o ← on_heap (load p);
  match o with ParameterizedTestFactory _ v => mret v | _ => undefined Dangling end.

(** The parameters that a member function is given. *)
Fixpoint run_user (u : user_code ptype value) : cmd env (list value) :=
  match u with
  | Stop => mret []
  | AskParam t k => v ← GetParam t; vs ← run_user (k v); mret (v :: vs)
  end.

(** * Factories *)

(** new TestClass, with what its constructor is given. *)
Definition new_test (c : test_class) : cmd env (ptr * list value) :=
  t ← new_object (TestObject c); vs ← run_user (constructor c); mret (t, vs).

Definition CreateTest (factory : ptr) : cmd env (ptr * list value) :=
  o ← on_heap (load factory);
  match o with
  | TestFactoryImpl c => new_test c
  | ParameterizedTestFactory c _ => SetParam (ParamType c) factory;; new_test c
  | _ => undefined Dangling
  end.

Definition CreateTestFactory (meta : ptr) (parameter : value) : cmd env ptr :=
  o ← on_heap (load meta);
  match o with
  | TestMetaFactory c => new_object (ParameterizedTestFactory c parameter)
  | _ => undefined Dangling
  end.

(** * TEST and TEST_F *)

Definition GetTypeId (T : fixture) : loc := dummy_ T.

(** The initializer of test_info_. The class of the test is derived from [parent_class]. *)
Definition GTEST_TEST_ (test_case_name test_name : string) (c : test_class) (location : CodeLocation)
    (parent_class : fixture) (parent_id : loc) : cmd env unit :=
  f ← new_object (TestFactoryImpl c);
  MakeAndRegisterTestInfo (MakeTestInfo test_case_name test_name None None location parent_id parent_class
    parent_class f).

Definition TEST (test_case_name test_name : string) (c : test_class) (location : CodeLocation) : cmd env unit :=
  GTEST_TEST_ test_case_name test_name c location testing_Test GetTestTypeId.
Definition TEST_F (test_fixture_name test_name : string) (c : test_class) (location : CodeLocation) : cmd env unit :=
  GTEST_TEST_ test_fixture_name test_name c location (class_fixture c) (GetTypeId (class_fixture c)).

(** * Programs *)

(** TEST, or TEST_F. *)
Inductive declaration : Type :=
  | PlainTest (test_case_name test_name : string) (c : test_class) (location : CodeLocation)
  | FixtureTest (test_fixture_name test_name : string) (c : test_class) (location : CodeLocation).

Definition declare (d : declaration) : cmd env unit :=
  match d with
  | PlainTest n m c l => TEST n m c l
  | FixtureTest n m c l => TEST_F n m c l
  end.

(** The patterns of TEST_P statements about one fixture, each with a meta-factory of its
    class; the factory of a call is made by the pattern's meta-factory for the parameter. *)
Record pattern : Type := MkPattern { pattern_case : string; pattern_name : string; pattern_class : test_class }.
Notation case := (case_info (P:=value) (F:=ptr * value)).

Fixpoint add_patterns (ps : list pattern) (c : case) : cmd env case :=
  match ps with
  | [] => mret c
  | p :: ps =>
      meta ← new_object (TestMetaFactory (pattern_class p));
      add_patterns ps (AddTestPattern (pattern_case p) (pattern_name p) (λ v, (meta, v)) c)
  end.

(** A call that RegisterTests makes, for the fixture [TestCase]. *)
Definition register_one (TestCase : fixture) (location : CodeLocation) (r : registered (F:=ptr * value)) :
    cmd env unit :=
  f ← CreateTestFactory (reg_factory r).1 (reg_factory r).2;
  MakeAndRegisterTestInfo (MakeTestInfo (reg_case_name r) (reg_test_name r) None (Some (reg_value_param r)) location
    (GetTypeId TestCase) TestCase TestCase f).

Fixpoint each {A} (f : A → cmd env unit) (l : list A) : cmd env unit :=
  match l with [] => mret () | a :: l => f a;; each f l end.

(** Static initialization runs the declarations and the TEST_P statements, and RUN_ALL_TESTS
    registers the parameterized tests: each call of RegisterTests is made with the factory
    that the meta-factory then creates. *)
Definition test_program (PrintToString : value → string) (decls : list declaration) (ps : list pattern)
    (insts : list (InstantiationInfo (P:=value))) (TestCase : fixture) (location : CodeLocation) (fuel : nat) :
    cmd env unit :=
  each declare decls;;
  c ← add_patterns ps (CaseInfo [] insts);
  match RegisterTests PrintToString fuel c [] with
  | (Done _, calls) => each (register_one TestCase location) calls
  | (Aborted, _) => abort
  | _ => unfinished
  end.

(** A member function of the class of a test object. *)
Definition virtual (member : test_class → user_code ptype value) (t : ptr) : cmd env (list value) :=
  o ← on_heap (load t);
  match o with TestObject c => run_user (member c) | _ => undefined Dangling end.

(** A test that is run: its object is created, set up, executed, torn down and destroyed. *)
Definition run_test (i : test_info) : cmd env (list value) :=
  '(t, vs1) ← CreateTest (factory i);
  vs2 ← virtual SetUp t;
  vs3 ← virtual TestBody t;
  vs4 ← virtual TearDown t;
  vs5 ← virtual destructor t;
  on_heap (free t);;
  mret (vs1 ++ vs2 ++ vs3 ++ vs4 ++ vs5).

(** Some tests in some order, any of them any number of times. *)
Fixpoint run_order (order : list nat) : cmd env (list (list value)) :=
  match order with
  | [] => mret []
  | n :: order =>
      tests ← gets infos;
      i ← or_ub OutOfBounds (tests !! n);
      vs ← run_test i;
      vss ← run_order order;
      mret (vs :: vss)
  end.

(** * What running tests means *)

(** A test of the program: its class, and its parameter if it is value-parameterized. *)
Notation kind := (test_class * option value)%type.

(** What a member function is given when the last parameters are [st]; None when it asks
    for one before any test had it. *)
Fixpoint asks (st : gmap ptype value) (u : user_code ptype value) : option (list value) :=
  match u with
  | Stop => Some []
  | AskParam t k => v ← st !! t; vs ← asks st (k v); Some (v :: vs)
  end.

Definition sees (st : gmap ptype value) (c : test_class) : option (list value) :=
  vs1 ← asks st (constructor c); vs2 ← asks st (SetUp c); vs3 ← asks st (TestBody c);
  vs4 ← asks st (TearDown c); vs5 ← asks st (destructor c);
  Some (vs1 ++ vs2 ++ vs3 ++ vs4 ++ vs5).

(** A value-parameterized test sets the parameter of its type, which stays. *)
Definition create (st : gmap ptype value) (k : kind) : gmap ptype value :=
  match k.2 with Some p => <[ParamType k.1 := p]> st | None => st end.

Fixpoint runs (st : gmap ptype value) (kinds : list kind) (order : list nat) : option (list (list value)) :=
  match order with
  | [] => Some []
  | n :: order =>
      k ← kinds !! n;
      vs ← sees (create st k) k.1;
      vss ← runs (create st k) kinds order;
      Some (vs :: vss)
  end.

(** The kinds of the tests of a program. *)
Definition declaration_kind (d : declaration) : kind :=
  match d with PlainTest _ _ c _ | FixtureTest _ _ c _ => (c, None) end.

(** The result of an optional value: the program aborts when there is none. *)
Definition or_aborted {A} (o : option A) : outcome A := match o with Some a => Done a | None => Aborted end.

(** ** The heap of the tests *)

Implicit Types (e : env) (st : gmap ptype value) (l : loc) (kinds : list kind).

Definition factory_object (k : kind) : object :=
  match k.2 with None => TestFactoryImpl k.1 | Some p => ParameterizedTestFactory k.1 p end.

Definition factory_at e (i : test_info) (k : kind) : Prop :=
  ∃ l, factory i = Some l ∧ cells (heap e) !! l = Some (factory_object k).

Definition parameters_at e st : Prop := ∀ t,
  match parameter_ e !! t with
  | None => st !! t = None
  | Some l => ∃ c v, cells (heap e) !! l = Some (ParameterizedTestFactory c v) ∧ st !! t = Some v
  end.

Definition holds kinds st e : Prop := Forall2 (factory_at e) (infos e) kinds ∧ parameters_at e st.

(** More objects on the heap change nothing. *)
Lemma holds_more kinds st e h : holds kinds st e → cells (heap e) ⊆ cells h →
  holds kinds st (Env h (parameter_ e) (infos e)).
Proof.
  intros [Hi Hp] Hsub. split; cbn.
  - apply (Forall2_impl _ _ _ _ Hi). intros i k (l & Hl & Hc). exists l. split; [done|]. by eapply lookup_weaken.
  - intros t. specialize (Hp t). cbn. destruct (parameter_ e !! t) as [l|]; [|done].
    destruct Hp as (c & v & Hc & Hv). exists c, v. split; [by eapply lookup_weaken|done].
Qed.

Lemma on_heap_finish {A} (m : cmd (mem object) A) e a h :
  m (heap e) = (Done a, h) → on_heap m e = (Done a, Env h (parameter_ e) (infos e)).
Proof. apply (zoom_done heap (λ h e, Env h (parameter_ e) (infos e))). Qed.

Lemma on_heap_load e l o : cells (heap e) !! l = Some o → on_heap (load (Some l)) e = (Done o, e).
Proof. intros Hl. rewrite (on_heap_finish _ _ _ _ (load_live _ _ _ Hl)). by destruct e. Qed.

Context (memory_total : malloc_total).

Lemma new_factory_done o e : ∃ l n, cells (heap e) !! l = None ∧
  new_object o e = (Done (Some l), Env (Mem (<[l := o]> (cells (heap e))) n) (parameter_ e) (infos e)).
Proof.
  destruct (malloc_new o (heap e) memory_total) as (l & Hl & Hm). eexists l, _. split; [done|].
  unfold new_object. by rewrite (bind_done _ _ _ _ _ (on_heap_finish _ _ _ _ Hm)).
Qed.

(** ** GetParam *)

Lemma GetParam_run st e t : parameters_at e st → GetParam t e = (or_aborted (st !! t), e).
Proof.
  intros Hp. specialize (Hp t). unfold GetParam. rewrite /gets {1}/mbind /cmd_bind.
  destruct (parameter_ e !! t) as [l|] eqn:Hl; [|by rewrite Hp].
  destruct Hp as (c & v & Hc & ->). rewrite bool_decide_true //.
  unfold assert_. by rewrite bind_ret_l (bind_done _ _ _ _ _ (on_heap_load _ _ _ Hc)).
Qed.

Lemma run_user_run st u e : parameters_at e st → run_user u e = (or_aborted (asks st u), e).
Proof.
  intros Hp. induction u as [|t k IH]; [done|]. cbn [run_user asks].
  pose proof (GetParam_run _ _ t Hp) as Hg. destruct (st !! t) as [v|]; cbn in Hg |- *.
  - rewrite (bind_done _ _ _ _ _ Hg). specialize (IH v). unfold mbind at 1, cmd_bind. rewrite IH.
    by destruct (asks st (k v)).
  - unfold mbind, cmd_bind. by rewrite Hg.
Qed.

(** A member function, and what is done after it. *)
Lemma user_then {B} st u (k : list value → cmd env B) e : parameters_at e st →
  (run_user u ≫= k) e = match asks st u with Some vs => k vs e | None => (Aborted, e) end.
Proof. intros Hp. unfold mbind, cmd_bind. rewrite (run_user_run _ _ _ Hp). by destruct (asks st u). Qed.

Lemma virtual_then {B} st member c l (k : list value → cmd env B) e : parameters_at e st →
  cells (heap e) !! l = Some (TestObject c) →
  (virtual member (Some l) ≫= k) e = match asks st (member c) with Some vs => k vs e | None => (Aborted, e) end.
Proof.
  intros Hp Hl. unfold virtual. rewrite bind_assoc (bind_done _ _ _ _ _ (on_heap_load _ _ _ Hl)). by apply user_then.
Qed.

(** ** The life of a test *)

Definition forget l e : env := Env (Mem (delete l (cells (heap e))) (Mem.calls (heap e))) (parameter_ e) (infos e).

(** After the constructor. *)
Lemma life_run st c l e vs1 : parameters_at e st → cells (heap e) !! l = Some (TestObject c) →
  (vs2 ← virtual SetUp (Some l); vs3 ← virtual TestBody (Some l); vs4 ← virtual TearDown (Some l);
   vs5 ← virtual destructor (Some l); on_heap (free (Some l));; mret (vs1 ++ vs2 ++ vs3 ++ vs4 ++ vs5)) e =
  match (vs2 ← asks st (SetUp c); vs3 ← asks st (TestBody c); vs4 ← asks st (TearDown c);
         vs5 ← asks st (destructor c); Some (vs1 ++ vs2 ++ vs3 ++ vs4 ++ vs5)) with
  | Some vs => (Done vs, forget l e)
  | None => (Aborted, e)
  end.
Proof.
  intros Hp Hl.
  rewrite (virtual_then _ _ _ _ _ _ Hp Hl). destruct (asks st (SetUp c)) as [vs2|]; cbn; [|done].
  rewrite (virtual_then _ _ _ _ _ _ Hp Hl). destruct (asks st (TestBody c)) as [vs3|]; cbn; [|done].
  rewrite (virtual_then _ _ _ _ _ _ Hp Hl). destruct (asks st (TearDown c)) as [vs4|]; cbn; [|done].
  rewrite (virtual_then _ _ _ _ _ _ Hp Hl). destruct (asks st (destructor c)) as [vs5|]; cbn; [|done].
  by rewrite (bind_done _ _ _ _ _ (on_heap_finish _ _ _ _ (free_live _ _ _ Hl))).
Qed.

(** From new TestClass on. *)
Lemma new_test_life kinds st c e : holds kinds st e →
  match sees st c with
  | Some vs => ∃ e', ('(t, vs1) ← new_test c; vs2 ← virtual SetUp t; vs3 ← virtual TestBody t;
        vs4 ← virtual TearDown t; vs5 ← virtual destructor t; on_heap (free t);;
        mret (vs1 ++ vs2 ++ vs3 ++ vs4 ++ vs5)) e = (Done vs, e') ∧ holds kinds st e' ∧ infos e' = infos e
  | None => ∃ e', ('(t, vs1) ← new_test c; vs2 ← virtual SetUp t; vs3 ← virtual TestBody t;
        vs4 ← virtual TearDown t; vs5 ← virtual destructor t; on_heap (free t);;
        mret (vs1 ++ vs2 ++ vs3 ++ vs4 ++ vs5)) e = (Aborted, e')
  end.
Proof.
  intros He. destruct (new_factory_done (TestObject c) e) as (l & n & Hl & Hn).
  set (e1 := Env (Mem (<[l := TestObject c]> (cells (heap e))) n) (parameter_ e) (infos e)) in *.
  assert (holds kinds st e1) as He1 by (by apply holds_more; [|apply insert_subseteq]).
  assert (cells (heap e1) !! l = Some (TestObject c)) as Hl1 by (cbn; by rewrite lookup_insert_eq).
  assert (holds kinds st (forget l e1)) as Hend.
  { replace (forget l e1) with (Env (Mem (cells (heap e)) n) (parameter_ e) (infos e)); [by apply holds_more|].
    unfold forget, e1. cbn. by rewrite delete_insert_id. }
  unfold new_test. rewrite bind_assoc (bind_done _ _ _ _ _ Hn) bind_assoc.
  rewrite (user_then _ _ _ _ (proj2 He1)). unfold sees. destruct (asks st (constructor c)) as [vs1|]; cbn; [|by eexists].
  rewrite bind_ret_l (life_run _ _ _ _ vs1 (proj2 He1) Hl1).
  destruct (vs2 ← asks st (SetUp c); _) as [vs|]; [by exists (forget l e1)|by eexists].
Qed.

Lemma set_parameter kinds st e c p l : holds kinds st e →
  cells (heap e) !! l = Some (ParameterizedTestFactory c p) →
  holds kinds (<[ParamType c := p]> st) (Env (heap e) (<[ParamType c := l]> (parameter_ e)) (infos e)).
Proof.
  intros [Hi Hp] Hl. split; cbn.
  - apply (Forall2_impl _ _ _ _ Hi). by intros i k.
  - intros t. cbn. destruct (decide (t = ParamType c)) as [->|Hne].
    + rewrite !lookup_insert_eq. by exists c, p.
    + rewrite !lookup_insert_ne //. by apply Hp.
Qed.

Lemma run_test_run kinds st e n i k : holds kinds st e → infos e !! n = Some i → kinds !! n = Some k →
  match sees (create st k) k.1 with
  | Some vs => ∃ e', run_test i e = (Done vs, e') ∧ holds kinds (create st k) e' ∧ infos e' = infos e
  | None => ∃ e', run_test i e = (Aborted, e')
  end.
Proof.
  intros He Hi Hk. destruct (Forall2_lookup_lr _ _ _ _ _ _ (proj1 He) Hi Hk) as (l & Hf & Hl).
  unfold run_test, CreateTest. rewrite Hf bind_assoc (bind_done _ _ _ _ _ (on_heap_load _ _ _ Hl)).
  destruct k as [c [p|]]; cbn [factory_object create fst snd].
  - rewrite bind_assoc. erewrite bind_done; [|reflexivity].
    apply (new_test_life kinds (<[ParamType c := p]> st) c _ (set_parameter _ _ _ _ _ _ He Hl)).
  - by apply new_test_life.
Qed.

Lemma run_order_run kinds order st e : holds kinds st e → Forall (λ n, n < length kinds)%nat order →
  (run_order order e).1 = or_aborted (runs st kinds order).
Proof.
  intros He Hr. revert st e He. induction Hr as [|n order Hn _ IH]; intros st e He; [done|].
  destruct (lookup_lt_is_Some_2 _ _ Hn) as [k Hk].
  destruct (Forall2_lookup_r _ _ _ _ _ (proj1 He) Hk) as (i & Hi & _).
  cbn [run_order runs]. rewrite Hk /gets. erewrite bind_done; [|reflexivity]. rewrite Hi /or_ub bind_ret_l. cbn [mbind option_bind].
  pose proof (run_test_run _ _ _ _ _ _ He Hi Hk) as Hrun.
  destruct (sees (create st k) k.1) as [vs|]; cbn.
  - destruct Hrun as (e' & Hrun & He' & _). rewrite (bind_done _ _ _ _ _ Hrun). specialize (IH _ _ He').
    rewrite /mbind /cmd_bind. destruct (run_order order e') as [r e''].
    cbn in IH. subst r. by destruct (runs (create st k) kinds order).
  - destruct Hrun as (e' & Hrun). by rewrite /mbind /cmd_bind Hrun.
Qed.

(** ** Registration *)

Definition info_label (i : test_info) : string * string * loc := (test_case_name i, name i, fixture_class_id i).
Definition declaration_label (d : declaration) : string * string * loc :=
  match d with
  | PlainTest n m _ _ => (n, m, dummy_ testing_Test)
  | FixtureTest n m c _ => (n, m, dummy_ (class_fixture c))
  end.
Definition call_label {F} (TestCase : fixture) (r : registered (F:=F)) : string * string * loc :=
  (reg_case_name r, reg_test_name r, dummy_ TestCase).

(** [e'] has the tests of [e] and more, of these kinds and labels; no object of [e] is gone. *)
Definition grows e e' (ks : list kind) (labels : list (string * string * loc)) : Prop :=
  (∀ kinds st, holds kinds st e → holds (kinds ++ ks) st e') ∧
  info_label <$> infos e' = (info_label <$> infos e) ++ labels ∧ cells (heap e) ⊆ cells (heap e').

Lemma grows_refl e : grows e e [] [].
Proof. split_and!; [intros kinds st He; by rewrite app_nil_r|by rewrite app_nil_r|done]. Qed.

Lemma grows_trans e1 e2 e3 ks ks' ls ls' :
  grows e1 e2 ks ls → grows e2 e3 ks' ls' → grows e1 e3 (ks ++ ks') (ls ++ ls').
Proof.
  intros (Hh1 & Hl1 & Hs1) (Hh2 & Hl2 & Hs2). split_and!.
  - intros kinds st He. rewrite app_assoc. by apply Hh2, Hh1.
  - by rewrite Hl2 Hl1 app_assoc.
  - by etrans.
Qed.

(** A new factory and its test. *)
Lemma register_factory k i l n e :
  cells (heap e) !! l = None → factory i = Some l →
  grows e (Env (Mem (<[l := factory_object k]> (cells (heap e))) n) (parameter_ e) (infos e ++ [i])) [k] [info_label i].
Proof.
  intros Hl Hf. split_and!; cbn.
  - intros kinds st He. set (h := Mem (<[l := factory_object k]> (cells (heap e))) n).
    assert (holds kinds st (Env h (parameter_ e) (infos e))) as [Hi Hp]
      by (apply holds_more; [done|by apply insert_subseteq]).
    split; [|exact Hp]. apply Forall2_app; [exact Hi|]. constructor; [|constructor].
    exists l. split; [done|]. cbn. by rewrite lookup_insert_eq.
  - by rewrite fmap_app.
  - by apply insert_subseteq.
Qed.

Lemma declare_grows d e : ∃ e', declare d e = (Done (), e') ∧ grows e e' [declaration_kind d] [declaration_label d].
Proof.
  destruct d as [n m c loc|n m c loc]; cbn [declare declaration_kind declaration_label];
    unfold TEST, TEST_F, GTEST_TEST_; rewrite ?GetTestTypeId_is;
    destruct (new_factory_done (TestFactoryImpl c) e) as (l & k & Hl & Hn);
    rewrite (bind_done _ _ _ _ _ Hn); eexists; (split; [reflexivity|]);
    eapply (register_factory (c, None) (MakeTestInfo _ _ _ _ _ _ _ _ _) l k e Hl); reflexivity.
Qed.

(** Each of a list of commands adds its kind and its label. *)
Lemma each_grows {A} (f : A → cmd env unit) (label_of : A → string * string * loc)
    (P : A → kind → env → Prop) (l : list A) ks e :
  (∀ a k e e', P a k e → cells (heap e) ⊆ cells (heap e') → P a k e') →
  (∀ a k e, P a k e → ∃ e', f a e = (Done (), e') ∧ grows e e' [k] [label_of a]) →
  Forall2 (λ a k, P a k e) l ks →
  ∃ e', each f l e = (Done (), e') ∧ grows e e' ks (label_of <$> l).
Proof.
  intros HP Hf Hl. remember e as e0 eqn:He0 in Hl. assert (cells (heap e0) ⊆ cells (heap e)) as Hsub by by rewrite He0.
  clear He0. revert e Hsub. induction Hl as [|a k l ks Ha _ IH]; intros e Hsub; [exists e; split; [done|apply grows_refl]|].
  destruct (Hf a k e) as (e1 & H1 & Hg1); [by eapply HP|].
  destruct (IH e1) as (e2 & H2 & Hg2); [etrans; [exact Hsub|apply Hg1]|].
  exists e2. cbn [each]. rewrite (bind_done _ _ _ _ _ H1). split; [done|].
  by apply (grows_trans _ _ _ [k] _ [label_of a] _ Hg1).
Qed.

Lemma declarations_grow decls e :
  ∃ e', each declare decls e = (Done (), e') ∧ grows e e' (declaration_kind <$> decls) (declaration_label <$> decls).
Proof.
  apply (each_grows declare declaration_label (λ d k _, k = declaration_kind d)); [done| |].
  - intros d k e0 ->. apply declare_grows.
  - apply Forall2_fmap_r, Forall_Forall2_diag, Forall_true. done.
Qed.

(** The test of a pattern whose meta-factory is at [m]. *)
Definition pattern_test (p : pattern) (m : loc) : TestInfo :=
  MkTestInfo (pattern_case p) (pattern_name p) (λ v : value, (Some m : ptr, v)).

Definition meta_at e (p : pattern) (m : loc) : Prop := cells (heap e) !! m = Some (TestMetaFactory (pattern_class p)).

Lemma patterns_grow ps (c : case) e :
  ∃ ms e', add_patterns ps c e =
      (Done (CaseInfo (tests_ c ++ zip_with pattern_test ps ms) (instantiations_ c)), e') ∧
    grows e e' [] [] ∧ Forall2 (meta_at e') ps ms.
Proof.
  revert c e. induction ps as [|p ps IH]; intros c e.
  { exists [], e. cbn. rewrite app_nil_r. split_and!; [by destruct c|apply grows_refl|constructor]. }
  destruct (new_factory_done (TestMetaFactory (pattern_class p)) e) as (m & n & Hm & Hn).
  set (e1 := Env (Mem (<[m := TestMetaFactory (pattern_class p)]> (cells (heap e))) n) (parameter_ e) (infos e)) in *.
  assert (grows e e1 [] []) as Hg1.
  { split_and!; cbn; [|by rewrite app_nil_r|by apply insert_subseteq].
    intros kinds st He. rewrite app_nil_r. apply holds_more; [done|by apply insert_subseteq]. }
  destruct (IH (AddTestPattern (pattern_case p) (pattern_name p) (λ v, (Some m, v)) c) e1) as (ms & e' & Hrun & Hg & Hms).
  exists (m :: ms), e'. cbn [add_patterns]. rewrite (bind_done _ _ _ _ _ Hn). split_and!.
  - rewrite Hrun. cbn. by rewrite -app_assoc.
  - by apply (grows_trans _ _ _ [] [] [] [] Hg1).
  - constructor; [|done]. eapply lookup_weaken; [|apply Hg]. cbn. by rewrite lookup_insert_eq.
Qed.

(** ** The parameterized tests *)

(** What RegisterTests makes of the patterns, with the kinds of the tests for factories. *)
Definition kind_test (p : pattern) : TestInfo :=
  MkTestInfo (pattern_case p) (pattern_name p) (λ v : value, (pattern_class p, Some v)).

Definition call_kind (r : registered (F:=ptr * value)) (k : kind) e : Prop :=
  ∃ m v, reg_factory r = (Some m, v) ∧ cells (heap e) !! m = Some (TestMetaFactory k.1) ∧ k.2 = Some v.

Lemma call_grows TestCase location r k e : call_kind r k e →
  ∃ e', register_one TestCase location r e = (Done (), e') ∧ grows e e' [k] [call_label TestCase r].
Proof.
  intros (m & v & Hr & Hm & Hk). destruct k as [c p]. cbn in Hm, Hk. subst p.
  destruct (new_factory_done (ParameterizedTestFactory c v) e) as (l & n & Hl & Hn).
  unfold register_one, CreateTestFactory. rewrite Hr bind_assoc. cbn [fst snd].
  rewrite (bind_done _ _ _ _ _ (on_heap_load _ _ _ Hm)) (bind_done _ _ _ _ _ Hn). eexists. split; [reflexivity|].
  eapply (register_factory (c, Some v) (MakeTestInfo _ _ _ _ _ _ _ _ _) l n e Hl). reflexivity.
Qed.

Context (PrintToString : value → string).

(** The call [r] that is made is the call [k] with a meta-factory for the class. *)
Definition call_of (TestCase : fixture) e (r : registered (F:=ptr * value)) (k : registered (F:=kind)) : Prop :=
  call_kind r (reg_factory k) e ∧ call_label TestCase r = call_label TestCase k.

Lemma calls_kinds TestCase e p m inst (l : list value) : meta_at e p m →
  Forall2 (call_of TestCase e) (calls PrintToString (pattern_test p m) inst l) (calls PrintToString (kind_test p) inst l).
Proof.
  intros Hm. unfold calls. generalize 0%N. induction l as [|v l IH]; intros i; cbn; [constructor|].
  constructor; [|apply IH]. split; [by exists m, v|done].
Qed.

Lemma all_calls_kinds TestCase e ps ms insts : Forall2 (meta_at e) ps ms →
  Forall2 (call_of TestCase e) (all_calls PrintToString (zip_with pattern_test ps ms) insts)
    (all_calls PrintToString (kind_test <$> ps) insts).
Proof.
  induction 1 as [|p m ps ms Hm _ IH]; [constructor|]. apply Forall2_app; [|exact IH].
  clear IH. induction insts as [|il insts IH]; [constructor|]. apply Forall2_app; [|exact IH].
  by apply calls_kinds.
Qed.

(** ** A test's own parameter *)

(** The function asks for parameters of one type only. *)
Fixpoint only_asks (t : ptype) (u : user_code ptype value) : Prop :=
  match u with Stop => True | AskParam t' k => t' = t ∧ ∀ v, only_asks t (k v) end.

(** The fixture of the class is derived from TestWithParam of its ParamType alone. *)
Definition own_parameter_only (c : test_class) : Prop :=
  Forall (only_asks (ParamType c)) [constructor c; SetUp c; TestBody c; TearDown c; destructor c].

Lemma asks_own t p st u : st !! t = Some p → only_asks t u → ∃ vs, asks st u = Some vs ∧ Forall (.= p) vs.
Proof.
  intros Hst. induction u as [|t' k IH]; [by exists []|]. intros [-> Hk].
  destruct (IH p (Hk p)) as (vs & Hvs & Hall). exists (p :: vs). cbn. rewrite Hst /= Hvs. split; [done|by constructor].
Qed.

Lemma sees_own c p st : own_parameter_only c → ∃ vs, sees (create st (c, Some p)) c = Some vs ∧ Forall (.= p) vs.
Proof.
  intros Hc. assert (create st (c, Some p) !! ParamType c = Some p) as Hst by (cbn; by rewrite lookup_insert_eq).
  unfold own_parameter_only in Hc. rewrite !Forall_cons in Hc. destruct Hc as (H1 & H2 & H3 & H4 & H5 & _).
  destruct (asks_own _ _ _ _ Hst H1) as (v1 & E1 & F1), (asks_own _ _ _ _ Hst H2) as (v2 & E2 & F2),
    (asks_own _ _ _ _ Hst H3) as (v3 & E3 & F3), (asks_own _ _ _ _ Hst H4) as (v4 & E4 & F4),
    (asks_own _ _ _ _ Hst H5) as (v5 & E5 & F5).
  exists (v1 ++ v2 ++ v3 ++ v4 ++ v5). unfold sees. rewrite E1 /= E2 /= E3 /= E4 /= E5 /=.
  split; [done|]. by rewrite !Forall_app.
Qed.

(** The parameterized tests of a program. *)
Definition param_tests (ps : list pattern) (insts : list (InstantiationInfo (P:=value) * list value)) :
    list (registered (F:=kind)) :=
  all_calls PrintToString (kind_test <$> ps) insts.

Definition program_kinds decls ps insts : list kind :=
  (declaration_kind <$> decls) ++ (reg_factory <$> param_tests ps insts).

Lemma test_program_run decls ps insts TestCase location fuel :
  insts_yield fuel insts → Forall (λ il, names_ok (names_of il)) insts →
  ∃ e, test_program PrintToString decls ps insts.*1 TestCase location fuel (Env empty_mem ∅ []) = (Done (), e) ∧
    holds (program_kinds decls ps insts) ∅ e ∧
    info_label <$> infos e = (declaration_label <$> decls) ++ (call_label TestCase <$> param_tests ps insts).
Proof.
  intros Hy Hn.
  destruct (declarations_grow decls (Env empty_mem ∅ [])) as (e1 & H1 & Hg1).
  destruct (patterns_grow ps (CaseInfo [] insts.*1) e1) as (ms & e2 & H2 & Hg2 & Hms).
  pose proof (all_calls_kinds TestCase e2 ps ms insts Hms) as Hcalls.
  destruct (each_grows (register_one TestCase location) (call_label TestCase) call_kind
    (all_calls PrintToString (zip_with pattern_test ps ms) insts) (reg_factory <$> param_tests ps insts) e2)
    as (e3 & H3 & Hg3).
  { intros r k e e' (m & v & Hr & Hm & Hk) Hsub. exists m, v. split_and!; [done|by eapply lookup_weaken|done]. }
  { intros r k e. apply call_grows. }
  { apply Forall2_fmap_r. apply (Forall2_impl _ _ _ _ Hcalls). by intros r k [? _]. }
  assert (call_label TestCase <$> all_calls PrintToString (zip_with pattern_test ps ms) insts =
    call_label TestCase <$> param_tests ps insts) as Hlabels.
  { apply list_eq_Forall2, Forall2_fmap. apply (Forall2_impl _ _ _ _ Hcalls). by intros r k [_ ?]. }
  rewrite Hlabels in Hg3.
  destruct (register_tests_result PrintToString fuel (zip_with pattern_test ps ms) insts [] Hy) as [Hreg _].
  exists e3. pose proof (grows_trans _ _ _ _ _ _ _ (grows_trans _ _ _ _ _ _ _ Hg1 Hg2) Hg3) as (Hh & Hl & _).
  rewrite !app_nil_r in Hh, Hl. split_and!.
  - unfold test_program. rewrite (bind_done _ _ _ _ _ H1) (bind_done _ _ _ _ _ H2). cbn [tests_ instantiations_ app].
    by rewrite (Hreg Hn).
  - apply (Hh [] ∅). split; [constructor|]. intros t. cbn. by rewrite !lookup_empty.
  - exact Hl.
Qed.

(** C32. A program of TEST and TEST_F statements, and of TEST_P and INSTANTIATE_TEST_CASE_P
    statements about a fixture whose parameter names are valid and different: it registers
    the plain tests, with equal fixture ids exactly for equal fixtures, and then a test
    for each pattern, instantiation and parameter. Run in any order and any number of
    times, a test asks GetParam for the parameter of the last test of that parameter type
    that was made, from the program's beginning on: a parameterized test that asks for its
    own type is given its own parameter wherever it asks; a test of another kind aborts if
    no such test has run, and is given the parameter of the last one otherwise. *)
Theorem tests_see_last_parameter decls ps insts TestCase location fuel order :
  insts_yield fuel insts → Forall (λ il, names_ok (names_of il)) insts →
  Forall (λ n, n < length (program_kinds decls ps insts))%nat order →
  ∃ e, test_program PrintToString decls ps insts.*1 TestCase location fuel (Env empty_mem ∅ []) = (Done (), e) ∧
    info_label <$> infos e = (declaration_label <$> decls) ++ (call_label TestCase <$> param_tests ps insts) ∧
    (run_order order e).1 = or_aborted (runs ∅ (program_kinds decls ps insts) order) ∧
    (∀ c p st, own_parameter_only c → ∃ vs, sees (create st (c, Some p)) c = Some vs ∧ Forall (.= p) vs) ∧
    (∀ F G : fixture, GetTypeId F = GetTypeId G ↔ F = G).
Proof.
  intros Hy Hn Ho. destruct (test_program_run decls ps insts TestCase location fuel Hy Hn) as (e & Hrun & He & Hl).
  exists e. split_and!; [done|done|by apply run_order_run|by apply sees_own|].
  intros F G. split; [apply dummy_inj|by intros ->].
Qed.
End factories.

(** * A sample *)

(** A parameterized test class that asks twice, and a plain one that asks. *)
#[local, refine] Instance sample_classes : TestClasses := {|
  ptype := unit;
  value := Z;
  fixture := positive;
  test_class := bool;
  class_fixture _ := 2%positive;
  ParamType _ := ();
  constructor _ := Stop;
  SetUp c := if c then AskParam () (λ _, Stop) else Stop;
  TestBody _ := AskParam () (λ _, Stop);
  TearDown _ := Stop;
  destructor _ := Stop;
  testing_Test := 1%positive;
|}.
Proof. all: apply _. Defined.
#[local] Instance sample_ids : TypeIds := {| dummy_ := id; dummy_inj := _; GetTestTypeId := 1%positive; GetTestTypeId_is := eq_refl |}.

Definition sample_location : CodeLocation := MkLocation "foo.cc" 3.
Definition sample_declarations : list declaration := [FixtureTest "FooTest" "Plain" false sample_location].
Definition sample_patterns : list pattern := [MkPattern "FooTest" "DoesBlah" true].
Definition sample_instantiations : list (InstantiationInfo (P:=Z) * list Z) :=
  [(MkInstantiation "Two" (ValuesIn [7; 8]) DefaultParamName "foo.cc" 9, [7; 8])].

Lemma tests_see_last_parameter_witness :
  let run order (result : outcome (list (list Z))) :=
    (∃ e, test_program (λ _, EmptyString) sample_declarations sample_patterns sample_instantiations.*1
        2%positive sample_location 2 (Env empty_mem ∅ []) = (Done (), e) ∧
      info_label <$> infos e =
        [("FooTest", "Plain", 2%positive); ("Two/FooTest", "DoesBlah/0", 2%positive);
         ("Two/FooTest", "DoesBlah/1", 2%positive)]%string ∧
      (run_order order e).1 = result) in
  run [2; 0; 1; 1]%nat (Done [[8; 8]; [8]; [7; 7]; [7; 7]]) ∧ run [0]%nat Aborted.
Proof.
  assert (insts_yield 2 sample_instantiations) as Hy
    by (apply Forall_singleton; split; [exact (values_yields [7; 8])|vm_compute; lia]).
  assert (Forall (λ il, names_ok (names_of il)) sample_instantiations) as Hn by vm_decide.
  split.
  - destruct (tests_see_last_parameter bump_malloc_total (λ _, EmptyString) sample_declarations sample_patterns
      sample_instantiations 2%positive sample_location 2 [2; 0; 1; 1]%nat Hy Hn ltac:(vm_decide))
      as (e & Hp & Hl & Hr & _).
    exists e. split_and!; [exact Hp| |]; [rewrite Hl; vm_compute; reflexivity|rewrite Hr; vm_compute; reflexivity].
  - destruct (tests_see_last_parameter bump_malloc_total (λ _, EmptyString) sample_declarations sample_patterns
      sample_instantiations 2%positive sample_location 2 [0]%nat Hy Hn ltac:(vm_decide))
      as (e & Hp & Hl & Hr & _).
    exists e. split_and!; [exact Hp| |]; [rewrite Hl; vm_compute; reflexivity|rewrite Hr; vm_compute; reflexivity].
Defined.
