(* ===== verification/Matchers.v ===== *)
(** The matchers of the bundled mock library
    (src/gtest/include/gmock/gmock-matchers.h): the listener protocol, the
    elementary matchers, the combinators and the matcher tuples of a mock function.

    A listener is the stream it forwards to, which may be NULL; a container is
    the list of its elements in iteration order. Printing a value
    (UniversalPrint) is a parameter. *)

From stdpp Require Import pretty.
From S2P Require Import Prelude.
#[local] Open Scope Z_scope.

Definition nl : string := String (Ascii.ascii_of_nat 10) EmptyString.

(** * Listeners *)

(** MatchResultListener: stream_, NULL or the text written so far. *)
Definition MatchResultListener : Type := option string.

(** operator<<: does nothing if the stream is NULL. *)
Definition stream_out (l : MatchResultListener) (x : string) : MatchResultListener :=
  match l with Some os => Some (os +:+ x) | None => None end.

Definition IsInterested (l : MatchResultListener) : bool :=
  match l with Some _ => true | None => false end.

Definition StringMatchResultListener : MatchResultListener := Some EmptyString.
Definition DummyMatchResultListener : MatchResultListener := None.
Definition StreamMatchResultListener (os : string) : MatchResultListener := Some os.

(** str(). *)
Definition str (l : MatchResultListener) : string := default EmptyString l.

Declare Scope listener_scope.
Delimit Scope listener_scope with listener.
Infix "<<" := stream_out (at level 50, left associativity) : listener_scope.
#[local] Open Scope listener_scope.

(** * The interface *)

(** MatcherInterface<T>; a description is the text it writes. *)
Record MatcherInterface (T : Type) : Type := MkMatcher {
  MatchAndExplain : T → MatchResultListener → bool * MatchResultListener;
  DescribeTo : string;
  DescribeNegationTo : string;
}.
Arguments MkMatcher {T} _ _ _.
Arguments MatchAndExplain {T} _ _ _.
Arguments DescribeTo {T} _.
Arguments DescribeNegationTo {T} _.

(** MatcherDescriberInterface::DescribeNegationTo, for a matcher that does not
    override it. *)
Definition default_negation (description : string) : string :=
  "not (" +:+ description +:+ ")".

Section base.
Context {T : Type}.
Implicit Types m : MatcherInterface T.

Definition Matches m (x : T) : bool := fst (MatchAndExplain m x DummyMatchResultListener).

Definition ExplainMatchResultTo m (x : T) (os : string) : string :=
  str (snd (MatchAndExplain m x (StreamMatchResultListener os))).

(** A match with a fresh StringMatchResultListener: the result and the text. *)
Definition match_string m (x : T) : bool * string :=
  let '(b, l) := MatchAndExplain m x StringMatchResultListener in (b, str l).
End base.

(** PrintIfNotEmpty(explanation, os). *)
Definition PrintIfNotEmpty (explanation : string) (os : MatchResultListener) : MatchResultListener :=
  if bool_decide (explanation ≠ EmptyString) && IsInterested os
  then os << ", " << explanation else os.

(** What a matcher promises to the code that calls it: the result does not depend
    on who listens, and the explanation is appended to what is there. *)
Class Lawful {T} (m : MatcherInterface T) : Prop :=
  lawful x l : MatchAndExplain m x l = (Matches m x, l << snd (match_string m x)).

(** * Elementary matchers *)

(** AnyMatcherImpl. *)
Definition A {T} : MatcherInterface T :=
  MkMatcher (λ _ l, (true, l)) "is anything" "never matches".

(** ComparisonBase<D, Rhs, Op>::Impl<Lhs>. *)
Definition ComparisonBase {Lhs Rhs} (Op : Lhs → Rhs → bool) (Desc NegatedDesc : string)
    (UniversalPrint : Rhs → string) (rhs : Rhs) : MatcherInterface Lhs :=
  MkMatcher (λ lhs l, (Op lhs rhs, l))
    (Desc +:+ " " +:+ UniversalPrint rhs) (NegatedDesc +:+ " " +:+ UniversalPrint rhs).

(** The comparisons of integers. *)
Definition EqMatcher : (Z → string) → Z → MatcherInterface Z :=
  ComparisonBase Z.eqb "is equal to" "isn't equal to".
Definition NeMatcher : (Z → string) → Z → MatcherInterface Z :=
  ComparisonBase (λ a b, negb (Z.eqb a b)) "isn't equal to" "is equal to".
Definition LtMatcher : (Z → string) → Z → MatcherInterface Z :=
  ComparisonBase Z.ltb "is <" "isn't <".
Definition GtMatcher : (Z → string) → Z → MatcherInterface Z :=
  ComparisonBase Z.gtb "is >" "isn't >".
Definition LeMatcher : (Z → string) → Z → MatcherInterface Z :=
  ComparisonBase Z.leb "is <=" "isn't <=".
Definition GeMatcher : (Z → string) → Z → MatcherInterface Z :=
  ComparisonBase Z.geb "is >=" "isn't >=".

(** PairMatchBase<D, Op>::Impl. *)
Definition PairMatchBase {T1 T2} (Op : T1 → T2 → bool) (Desc : string)
    : MatcherInterface (T1 * T2) :=
  MkMatcher (λ args l, (Op (fst args) (snd args), l)) ("are " +:+ Desc) ("aren't " +:+ Desc).

Definition TrulyMatcher {T} (predicate : T → bool) : MatcherInterface T :=
  MkMatcher (λ x l, (if predicate x then true else false, l))
    "satisfies the given predicate" "doesn't satisfy the given predicate".

(** * Combinators *)

Section combinators.
Context {T : Type}.
Implicit Types m : MatcherInterface T.

Definition NotMatcherImpl m : MatcherInterface T :=
  MkMatcher (λ x l, let '(b, l) := MatchAndExplain m x l in (negb b, l))
    (DescribeNegationTo m) (DescribeTo m).

(** The explanation when both matchers have to be explained. *)
Definition both_reasons (s1 s2 : string) (l : MatchResultListener) : MatchResultListener :=
  if bool_decide (s1 = EmptyString) then l << s2
  else let l := l << s1 in
       if bool_decide (s2 ≠ EmptyString) then l << ", and " << s2 else l.

Definition BothOfMatcherImpl m1 m2 : MatcherInterface T :=
  MkMatcher (λ x l,
      let '(b1, s1) := match_string m1 x in
      if negb b1 then (false, l << s1) else
      let '(b2, s2) := match_string m2 x in
      if negb b2 then (false, l << s2) else
      (true, both_reasons s1 s2 l))
    ("(" +:+ DescribeTo m1 +:+ ") and (" +:+ DescribeTo m2 +:+ ")")
    ("(" +:+ DescribeNegationTo m1 +:+ ") or (" +:+ DescribeNegationTo m2 +:+ ")").

Definition EitherOfMatcherImpl m1 m2 : MatcherInterface T :=
  MkMatcher (λ x l,
      let '(b1, s1) := match_string m1 x in
      if b1 then (true, l << s1) else
      let '(b2, s2) := match_string m2 x in
      if b2 then (true, l << s2) else
      (false, both_reasons s1 s2 l))
    ("(" +:+ DescribeTo m1 +:+ ") or (" +:+ DescribeTo m2 +:+ ")")
    ("(" +:+ DescribeNegationTo m1 +:+ ") and (" +:+ DescribeNegationTo m2 +:+ ")").

(** MatcherList<n, m1, m2, ...>::CreateMatcher: at least two matchers. *)
Fixpoint CreateMatcher (CombiningMatcher : MatcherInterface T → MatcherInterface T → MatcherInterface T)
    m1 m2 (ms : list (MatcherInterface T)) : MatcherInterface T :=
  match ms with
  | [] => CombiningMatcher m1 m2
  | m3 :: ms => CombiningMatcher m1 (CreateMatcher CombiningMatcher m2 m3 ms)
  end.

Definition AllOfMatcher := CreateMatcher BothOfMatcherImpl.
Definition AnyOfMatcher := CreateMatcher EitherOfMatcherImpl.
End combinators.

(** * Pairs and containers *)

Section pairs.
Context {K V : Type}.

Definition KeyMatcherImpl (inner : MatcherInterface K) : MatcherInterface (K * V) :=
  MkMatcher (λ key_value l,
      let '(match_, explanation) := match_string inner (fst key_value) in
      (match_, if bool_decide (explanation ≠ EmptyString)
               then l << "whose first field is a value " << explanation else l))
    ("has a key that " +:+ DescribeTo inner)
    ("doesn't have a key that " +:+ DescribeTo inner).

(** PairMatcherImpl::ExplainSuccess. *)
Definition ExplainSuccess (first_explanation second_explanation : string)
    (l : MatchResultListener) : MatchResultListener :=
  let l := l << "whose both fields match" in
  let l := if bool_decide (first_explanation ≠ EmptyString)
           then l << ", where the first field is a value " << first_explanation else l in
  if bool_decide (second_explanation ≠ EmptyString) then
    let l := l << ", " in
    let l := if bool_decide (first_explanation ≠ EmptyString) then l << "and " else l << "where " in
    l << "the second field is a value " << second_explanation
  else l.

Definition PairMatcherImpl (first : MatcherInterface K) (second : MatcherInterface V)
    : MatcherInterface (K * V) :=
  MkMatcher (λ a_pair l,
      if negb (IsInterested l) then
        (Matches first (fst a_pair) && Matches second (snd a_pair), l)
      else
        let '(b1, e1) := match_string first (fst a_pair) in
        if negb b1 then (false, PrintIfNotEmpty e1 (l << "whose first field does not match")) else
        let '(b2, e2) := match_string second (snd a_pair) in
        if negb b2 then (false, PrintIfNotEmpty e2 (l << "whose second field does not match")) else
        (true, ExplainSuccess e1 e2 l))
    ("has a first field that " +:+ DescribeTo first +:+
     ", and has a second field that " +:+ DescribeTo second)
    ("has a first field that " +:+ DescribeNegationTo first +:+
     ", or has a second field that " +:+ DescribeNegationTo second).
End pairs.

Section containers.
Context {Element : Type}.
Implicit Types container it : list Element.

(** SizeIsMatcher::Impl. *)
Definition SizeIsMatcher (size_matcher : MatcherInterface nat) : MatcherInterface (list Element) :=
  MkMatcher (λ container l,
      let size := length container in
      let '(result, e) := match_string size_matcher size in
      (result, PrintIfNotEmpty e
         (l << "whose size " << pretty size << (if result then " matches" else " doesn't match"))))
    ("size " +:+ DescribeTo size_matcher) ("size " +:+ DescribeNegationTo size_matcher).

(** The loop of QuantifierMatcherImpl::MatchAndExplainImpl. *)
Fixpoint quantify (inner : MatcherInterface Element) (all_elements_should_match : bool)
    (i : nat) (it : list Element) (l : MatchResultListener) : bool * MatchResultListener :=
  match it with
  | [] => (all_elements_should_match, l)
  | x :: it =>
    let '(matches, e) := match_string inner x in
    if negb (Bool.eqb matches all_elements_should_match) then
      (negb all_elements_should_match,
       PrintIfNotEmpty e (l << "whose element #" << pretty i
                            << (if matches then " matches" else " doesn't match")))
    else quantify inner all_elements_should_match (S i) it l
  end.

Definition ContainsMatcherImpl (inner : MatcherInterface Element) : MatcherInterface (list Element) :=
  MkMatcher (quantify inner false 0)
    ("contains at least one element that " +:+ DescribeTo inner)
    ("doesn't contain any element that " +:+ DescribeTo inner).

Definition EachMatcherImpl (inner : MatcherInterface Element) : MatcherInterface (list Element) :=
  MkMatcher (quantify inner true 0)
    ("only contains elements that " +:+ DescribeTo inner)
    ("contains some element that " +:+ DescribeNegationTo inner).
End containers.

(** * ElementsAre *)

(** Elements(count). *)
Definition Elements (count : nat) : string :=
  pretty count +:+ (if bool_decide (count = 1%nat) then " element" else " elements").

Section elements_are.
Context {Element : Type}.

(** The elements of a description, from index [i]: [sep] between two of them. *)
Fixpoint describe_elements (describe : MatcherInterface Element → string) (sep : string)
    (i : nat) (matchers_ : list (MatcherInterface Element)) : string :=
  match matchers_ with
  | [] => EmptyString
  | m :: ms =>
    "element #" +:+ pretty i +:+ " " +:+ describe m +:+
    (match ms with [] => EmptyString | _ => sep end) +:+ describe_elements describe sep (S i) ms
  end.

Definition describe_all (matchers_ : list (MatcherInterface Element)) : string :=
  match matchers_ with
  | [] => "is empty"
  | [m] => "has 1 element that " +:+ DescribeTo m
  | _ => "has " +:+ Elements (length matchers_) +:+ " where" +:+ nl +:+
         describe_elements DescribeTo ("," +:+ nl) 0 matchers_
  end.

Definition describe_none (matchers_ : list (MatcherInterface Element)) : string :=
  match matchers_ with
  | [] => "isn't empty"
  | _ => "doesn't have " +:+ Elements (length matchers_) +:+ ", or" +:+ nl +:+
         describe_elements DescribeNegationTo (", or" +:+ nl) 0 matchers_
  end.

(** The first loop of MatchAndExplain: mismatch_found, exam_pos, explanations and
    the iterator when it ends. *)
Fixpoint examine (listener_interested : bool) (matchers_ : list (MatcherInterface Element)) (it : list Element) (exam_pos : nat)
    (explanations : list string) : bool * nat * list string * list Element :=
  match it, matchers_ !! exam_pos with
  | x :: it', Some m =>
    let '(match_, explanations) :=
      if listener_interested
      then let '(b, s) := match_string m x in (b, <[exam_pos := s]> explanations)
      else (Matches m x, explanations) in
    if negb match_ then (true, exam_pos, explanations, it)
    else examine listener_interested matchers_ it' (S exam_pos) explanations
  | _, _ => (false, exam_pos, explanations, it)
  end.

(** The second loop: the remaining elements are counted. *)
Fixpoint count_rest (it : list Element) (actual_count : nat) : nat :=
  match it with [] => actual_count | _ :: it => count_rest it (S actual_count) end.

(** The third loop, from index [i]. *)
Fixpoint print_reasons (i : nat) (explanations : list string) (reason_printed : bool)
    (l : MatchResultListener) : MatchResultListener :=
  match explanations with
  | [] => l
  | s :: ss =>
    if bool_decide (s ≠ EmptyString) then
      let l := if reason_printed then l << ("," +:+ nl +:+ "and ") else l in
      print_reasons (S i) ss true
        (l << "whose element #" << pretty i << " matches, " << s)
    else print_reasons (S i) ss reason_printed l
  end.

Definition elements_are (matchers_ : list (MatcherInterface Element))
    (container : list Element) (l : MatchResultListener) : bool * MatchResultListener :=
  let listener_interested := IsInterested l in
  let '(mismatch_found, exam_pos, explanations, it) :=
    examine listener_interested matchers_ container 0
      (replicate (length matchers_) EmptyString) in
  let actual_count := count_rest it exam_pos in
  if negb (bool_decide (actual_count = length matchers_)) then
    (false, if listener_interested && negb (bool_decide (actual_count = 0%nat))
            then l << "which has " << Elements actual_count else l)
  else if mismatch_found then
    (false, if listener_interested
            then PrintIfNotEmpty (default EmptyString (explanations !! exam_pos))
                   (l << "whose element #" << pretty exam_pos << " doesn't match")
            else l)
  else
    (true, if listener_interested then print_reasons 0 explanations false l else l).

Definition ElementsAreMatcherImpl (matchers_ : list (MatcherInterface Element))
    : MatcherInterface (list Element) :=
  MkMatcher (elements_are matchers_) (describe_all matchers_) (describe_none matchers_).
End elements_are.

(** * Matcher tuples *)

(** One field of the two tuples of a call: the matcher, the value and the
    instance of UniversalPrint for its type. *)
Record field : Type := Field {
  f_type : Type;
  f_matcher : MatcherInterface f_type;
  f_value : f_type;
  f_print : f_type → string;
}.

Definition field_matches (f : field) : bool := Matches (f_matcher f) (f_value f).

(** TuplePrefix<N>::Matches; get<N - 1> of a tuple without that field does not
    compile. *)
Fixpoint TuplePrefix_Matches (N : nat) (fs : list field) : bool :=
  match N with
  | O => true
  | S N =>
    TuplePrefix_Matches N fs &&
    match fs !! N with Some f => field_matches f | None => false end
  end.

(** What TuplePrefix<N + 1>::ExplainMatchFailuresTo writes about field [N]. *)
Definition explain_field (N : nat) (f : field) (os : string) : string :=
  let '(b, s) := match_string (f_matcher f) (f_value f) in
  if negb b then
    let os := os +:+ "  Expected arg #" +:+ pretty N +:+ ": " +:+ DescribeTo (f_matcher f) in
    let os := os +:+ nl +:+ "           Actual: " +:+ f_print f (f_value f) in
    str (PrintIfNotEmpty s (Some os)) +:+ nl
  else os.

Fixpoint TuplePrefix_ExplainMatchFailuresTo (N : nat) (fs : list field) (os : string) : string :=
  match N with
  | O => os
  | S N =>
    let os := TuplePrefix_ExplainMatchFailuresTo N fs os in
    match fs !! N with Some f => explain_field N f os | None => os end
  end.

(** ArgumentMatcherTuple, and the printers of its types. *)
Fixpoint matcher_tuple (Ts : list Type) : Type :=
  match Ts with [] => unit | T :: Ts => MatcherInterface T * matcher_tuple Ts end.

Fixpoint printers (Ts : list Type) : Type :=
  match Ts with [] => unit | T :: Ts => (T → string) * printers Ts end.

Fixpoint fields {Ts : list Type} : matcher_tuple Ts → tuple Ts → printers Ts → list field :=
  match Ts with
  | [] => λ _ _ _, []
  | T :: Ts => λ ms xs ps,
    Field T (fst ms) (fst xs) (fst ps) :: fields (snd ms) (snd xs) (snd ps)
  end.

Section tuples.
Context {Ts : list Type} (UniversalPrint : printers Ts).

Definition TupleMatches (matchers : matcher_tuple Ts) (values : tuple Ts) : bool :=
  TuplePrefix_Matches (length Ts) (fields matchers values UniversalPrint).

Definition ExplainMatchFailureTupleTo (matchers : matcher_tuple Ts) (values : tuple Ts)
    (os : string) : string :=
  TuplePrefix_ExplainMatchFailuresTo (length Ts) (fields matchers values UniversalPrint) os.
End tuples.

(** * The listener protocol *)

#[local] Arguments String.append : simpl never.
#[local] Arguments pretty : simpl never.

Lemma out_empty l : l << EmptyString = l.
Proof. destruct l; [|done]. cbn. by rewrite string_app_nil_r. Qed.

Lemma out_app l s t : l << s << t = l << (s +:+ t).
Proof. destruct l; [|done]. cbn. by rewrite string_app_assoc. Qed.

Lemma str_out s t : str (Some s << t) = s +:+ t.
Proof. done. Qed.

(** The text PrintIfNotEmpty adds. *)
Definition if_not_empty (s : string) : string :=
  if bool_decide (s ≠ EmptyString) then ", " +:+ s else EmptyString.

Lemma print_if_not_empty s l : PrintIfNotEmpty s l = l << if_not_empty s.
Proof.
  unfold PrintIfNotEmpty, if_not_empty. case_bool_decide as Hs; destruct l as [os|]; cbn; try done.
  - by rewrite !string_app_assoc.
  - by rewrite string_app_nil_r.
Qed.

(** A matcher that answers [b] and adds [e], whoever listens, is lawful. *)
Lemma lawful_of {T} (m : MatcherInterface T) (b : T → bool) (e : T → string) :
  (∀ x l, MatchAndExplain m x l = (b x, l << e x)) → Lawful m.
Proof.
  intros Hm x l. unfold Matches, match_string. rewrite !Hm. done.
Qed.

Lemma lawful_at {T} (m : MatcherInterface T) :
  (∀ x, ∃ b e, ∀ l, MatchAndExplain m x l = (b, l << e)) → Lawful m.
Proof.
  intros Hm x l. destruct (Hm x) as (b & e & Hx). unfold Matches, match_string.
  by rewrite !Hx.
Qed.

Lemma matches_of {T} (m : MatcherInterface T) b e x :
  (∀ l, MatchAndExplain m x l = (b, l << e)) → Matches m x = b ∧ snd (match_string m x) = e.
Proof. intros Hm. unfold Matches, match_string. rewrite !Hm. done. Qed.

Lemma match_string_lawful {T} (m : MatcherInterface T) `{!Lawful m} x :
  match_string m x = (Matches m x, snd (match_string m x)).
Proof.
  unfold match_string at 1. rewrite (lawful x StringMatchResultListener). done.
Qed.

#[export] Hint Rewrite @out_empty @out_app @print_if_not_empty : listeners.

(** The explanation of a match. *)
Definition explanation {T} (m : MatcherInterface T) (x : T) : string := snd (match_string m x).

Lemma match_string_eq {T} (m : MatcherInterface T) `{!Lawful m} x :
  match_string m x = (Matches m x, explanation m x).
Proof. apply match_string_lawful, _. Qed.

#[export] Instance A_lawful {T} : Lawful (@A T).
Proof. apply (lawful_of _ (λ _, true) (λ _, EmptyString)). intros x l. by rewrite out_empty. Qed.

#[export] Instance comparison_lawful {L R} op d n p (rhs : R) :
  Lawful (@ComparisonBase L R op d n p rhs).
Proof.
  apply (lawful_of _ (λ x, op x rhs) (λ _, EmptyString)). intros x l. by rewrite out_empty.
Qed.

#[export] Instance pair_match_lawful {T1 T2} op d : Lawful (@PairMatchBase T1 T2 op d).
Proof.
  apply (lawful_of _ (λ x, op x.1 x.2) (λ _, EmptyString)). intros x l. by rewrite out_empty.
Qed.

#[export] Instance truly_lawful {T} (p : T → bool) : Lawful (TrulyMatcher p).
Proof.
  apply (lawful_of _ p (λ _, EmptyString)). intros x l. rewrite out_empty. cbn. by destruct (p x).
Qed.

(** * Conjunctions and disjunctions *)

(** Two explanations, the empty ones left out. *)
Definition join2 (s1 s2 : string) : string :=
  if bool_decide (s1 = EmptyString) then s2
  else if bool_decide (s2 ≠ EmptyString) then s1 +:+ ", and " +:+ s2 else s1.

(** All non-empty explanations, separated by ", and ". *)
Definition join_reasons (es : list string) : string :=
  String.concat ", and " (filter (λ s, s ≠ EmptyString) es).

Lemma both_reasons_out s1 s2 l : both_reasons s1 s2 l = l << join2 s1 s2.
Proof.
  unfold both_reasons, join2. repeat case_bool_decide; try done. by rewrite !out_app.
Qed.

Lemma concat_cons_ne sep s es :
  String.concat sep (s :: es) =
  s +:+ (if bool_decide (es = []) then EmptyString else sep +:+ String.concat sep es).
Proof. destruct es as [|t es]; cbn; [by rewrite string_app_nil_r|done]. Qed.

Lemma join_reasons_nil es : join_reasons es = EmptyString ↔ filter (λ s, s ≠ EmptyString) es = [].
Proof.
  unfold join_reasons. destruct (filter _ es) as [|s ss] eqn:Hes; [done|].
  assert (s ≠ EmptyString) as Hs.
  { assert (s ∈ filter (λ s, s ≠ EmptyString) es) as Hin by (rewrite Hes; left).
    by apply list_elem_of_filter in Hin as [? _]. }
  rewrite concat_cons_ne. by destruct s.
Qed.

Lemma join_reasons_cons s es : join_reasons (s :: es) = join2 s (join_reasons es).
Proof.
  unfold join2. case_bool_decide as Hs.
  { subst s. unfold join_reasons. rewrite filter_cons_False; [by intros []|done]. }
  unfold join_reasons at 1. rewrite filter_cons_True // concat_cons_ne.
  case_bool_decide as Hf.
  - rewrite bool_decide_eq_false_2; [by intros []; apply join_reasons_nil|].
    by rewrite string_app_nil_r.
  - rewrite bool_decide_eq_true_2; [by rewrite join_reasons_nil|]. done.
Qed.

Lemma join_reasons_one s : join_reasons [s] = s.
Proof. rewrite join_reasons_cons. unfold join2. by case_bool_decide. Qed.

Section junctions.
Context {T : Type}.
Implicit Types (m : MatcherInterface T) (ms : list (MatcherInterface T)).

Lemma not_run m `{!Lawful m} x l :
  MatchAndExplain (NotMatcherImpl m) x l = (negb (Matches m x), l << explanation m x).
Proof. cbn. by rewrite (lawful x l). Qed.

#[export] Instance not_lawful m `{!Lawful m} : Lawful (NotMatcherImpl m).
Proof. apply (lawful_of _ (λ x, negb (Matches m x)) (explanation m)). apply (not_run m). Qed.

(** What a combination answers: [stop] is the answer of the member that settles
    it. *)
Definition combined (stop : bool) ms x : bool * string :=
  match List.find (λ m, Bool.eqb (Matches m x) stop) ms with
  | Some m => (stop, explanation m x)
  | None => (negb stop, join_reasons ((λ m, explanation m x) <$> ms))
  end.

Lemma combined_cons stop m ms x :
  combined stop (m :: ms) x =
  if Bool.eqb (Matches m x) stop then (stop, explanation m x)
  else if Bool.eqb (fst (combined stop ms x)) stop then combined stop ms x
  else (negb stop, join2 (explanation m x) (snd (combined stop ms x))).
Proof.
  unfold combined. cbn [List.find]. destruct (Bool.eqb (Matches m x) stop); [done|].
  destruct (List.find _ ms) as [m'|] eqn:Hf; cbn -[join_reasons].
  - by rewrite Bool.eqb_reflx.
  - rewrite join_reasons_cons. by destruct stop.
Qed.

Lemma combined_two stop m1 m2 x :
  combined stop [m1; m2] x =
  if Bool.eqb (Matches m1 x) stop then (stop, explanation m1 x)
  else if Bool.eqb (Matches m2 x) stop then (stop, explanation m2 x)
  else (negb stop, join2 (explanation m1 x) (explanation m2 x)).
Proof.
  rewrite !combined_cons. repeat case_match; destruct stop; cbn in *; try congruence.
  all: repeat f_equal; unfold join2; by case_bool_decide.
Qed.

Lemma both_of_run m1 m2 `{!Lawful m1, !Lawful m2} x l :
  MatchAndExplain (BothOfMatcherImpl m1 m2) x l =
  let '(b, s) := combined false [m1; m2] x in (b, l << s).
Proof.
  cbn -[combined both_reasons]. rewrite !match_string_eq combined_two both_reasons_out.
  by destruct (Matches m1 x), (Matches m2 x).
Qed.

Lemma either_of_run m1 m2 `{!Lawful m1, !Lawful m2} x l :
  MatchAndExplain (EitherOfMatcherImpl m1 m2) x l =
  let '(b, s) := combined true [m1; m2] x in (b, l << s).
Proof.
  cbn -[combined both_reasons]. rewrite !match_string_eq combined_two both_reasons_out.
  by destruct (Matches m1 x), (Matches m2 x).
Qed.

Lemma combined_cases stop ms x : fst (combined stop ms x) = stop ∨ fst (combined stop ms x) = negb stop.
Proof. unfold combined. case_match; by [left|right]. Qed.

Lemma join2_assoc s1 s2 s3 : join2 (join2 s1 s2) s3 = join2 s1 (join2 s2 s3).
Proof.
  unfold join2. destruct s1, s2, s3; try done; cbn. by rewrite !string_app_assoc.
Qed.

Lemma combined_app stop ms1 ms2 x :
  combined stop (ms1 ++ ms2) x =
  if Bool.eqb (fst (combined stop ms1 x)) stop then combined stop ms1 x
  else if Bool.eqb (fst (combined stop ms2 x)) stop then combined stop ms2 x
  else (negb stop, join2 (snd (combined stop ms1 x)) (snd (combined stop ms2 x))).
Proof.
  assert (Bool.eqb (negb stop) stop = false) as Hstop by (by destruct stop).
  induction ms1 as [|m ms1 IH]; cbn [app].
  - unfold combined at 2 4 5 6. cbn. rewrite Hstop.
    destruct (combined_cases stop ms2 x) as [Hb|Hb]; rewrite ?Hb ?Hstop ?Bool.eqb_reflx //.
    by rewrite -Hb -surjective_pairing.
  - rewrite !combined_cons IH. destruct (Bool.eqb (Matches m x) stop); [by rewrite /= Bool.eqb_reflx|].
    destruct (Bool.eqb (fst (combined stop ms1 x)) stop) eqn:H1; [by rewrite H1|].
    cbn. rewrite Hstop. destruct (Bool.eqb (fst (combined stop ms2 x)) stop) eqn:H2; [by rewrite H2|].
    by rewrite /= Hstop join2_assoc.
Qed.

(** [m] answers and explains as the combination of [ms]. *)
Definition answers (stop : bool) ms m : Prop :=
  ∀ x l, MatchAndExplain m x l = let '(b, s) := combined stop ms x in (b, l << s).

Lemma answers_pair stop ms m x l :
  answers stop ms m → MatchAndExplain m x l = (fst (combined stop ms x), l << snd (combined stop ms x)).
Proof. intros Hm. rewrite Hm. by destruct (combined stop ms x). Qed.

Lemma answers_lawful stop ms m : answers stop ms m → Lawful m.
Proof. intros Hm. apply (lawful_of _ _ _ (λ x l, answers_pair stop ms m x l Hm)). Qed.

Lemma answers_one stop m `{!Lawful m} : answers stop [m] m.
Proof.
  intros x l. rewrite (lawful x l) combined_cons. fold (explanation m x).
  assert (join2 (explanation m x) EmptyString = explanation m x) as Hj by (by unfold join2; case_bool_decide).
  by destruct stop, (Matches m x); cbn; rewrite ?Hj.
Qed.

(** What a combination of two matchers does with two combinations. *)
Definition combines (stop : bool) (comb : MatcherInterface T → MatcherInterface T → MatcherInterface T) : Prop :=
  ∀ m1 m2, Lawful m1 → Lawful m2 → answers stop [m1; m2] (comb m1 m2).

Lemma answers_app stop comb ms1 ms2 m1 m2 :
  combines stop comb → answers stop ms1 m1 → answers stop ms2 m2 → answers stop (ms1 ++ ms2) (comb m1 m2).
Proof.
  intros Hcomb H1 H2 x l. pose proof (answers_lawful _ _ _ H1). pose proof (answers_lawful _ _ _ H2). rewrite Hcomb.
  destruct (matches_of m1 _ _ x (λ l, answers_pair stop ms1 m1 x l H1)) as [Hb1 Hs1].
  destruct (matches_of m2 _ _ x (λ l, answers_pair stop ms2 m2 x l H2)) as [Hb2 Hs2].
  fold (explanation m1 x) in Hs1. fold (explanation m2 x) in Hs2.
  rewrite combined_two combined_app Hb1 Hb2 Hs1 Hs2.
  destruct (combined stop ms1 x) as [b1 s1], (combined stop ms2 x) as [b2 s2]. cbn.
  destruct (Bool.eqb b1 stop) eqn:E1; [by apply Bool.eqb_prop in E1 as ->|].
  destruct (Bool.eqb b2 stop) eqn:E2; [by apply Bool.eqb_prop in E2 as ->|done].
Qed.

Lemma both_of_combines : combines false BothOfMatcherImpl.
Proof. intros m1 m2 H1 H2 x l. by apply both_of_run. Qed.

Lemma either_of_combines : combines true EitherOfMatcherImpl.
Proof. intros m1 m2 H1 H2 x l. by apply either_of_run. Qed.

Lemma create_run stop comb ms m1 m2 :
  combines stop comb → Lawful m1 → Lawful m2 → Forall Lawful ms →
  answers stop (m1 :: m2 :: ms) (CreateMatcher comb m1 m2 ms).
Proof.
  intros Hcomb. revert m1 m2. induction ms as [|m3 ms IH]; intros m1 m2 H1 H2 Hms; [by apply Hcomb|].
  apply Forall_cons in Hms as [H3 Hms].
  apply (answers_app stop comb [m1] (m2 :: m3 :: ms)); [done|by apply answers_one|by apply IH].
Qed.

Lemma all_of_run m1 m2 ms x l :
  Lawful m1 → Lawful m2 → Forall Lawful ms →
  MatchAndExplain (AllOfMatcher m1 m2 ms) x l =
  let '(b, s) := combined false (m1 :: m2 :: ms) x in (b, l << s).
Proof. intros. by apply create_run; [apply both_of_combines|..]. Qed.

Lemma any_of_run m1 m2 ms x l :
  Lawful m1 → Lawful m2 → Forall Lawful ms →
  MatchAndExplain (AnyOfMatcher m1 m2 ms) x l =
  let '(b, s) := combined true (m1 :: m2 :: ms) x in (b, l << s).
Proof. intros. by apply create_run; [apply either_of_combines|..]. Qed.

Lemma find_ext {B} (p q : B → bool) l : (∀ b, p b = q b) → List.find p l = List.find q l.
Proof. intros Hpq. induction l as [|b l IH]; cbn; [done|]. by rewrite Hpq IH. Qed.

Lemma combined_stop stop ms x :
  fst (combined stop ms x) = stop ↔ Exists (λ m, Matches m x = stop) ms.
Proof.
  unfold combined. induction ms as [|m ms IH]; cbn.
  { split; [by destruct stop|by inversion 1]. }
  rewrite Exists_cons -IH. clear IH. destruct (Matches m x), stop; cbn; case_match; cbn; intuition congruence.
Qed.

Lemma combined_go stop ms x :
  fst (combined stop ms x) = negb stop ↔ Forall (λ m, Matches m x = negb stop) ms.
Proof.
  unfold combined. induction ms as [|m ms IH]; cbn; [done|].
  rewrite Forall_cons -IH. clear IH. destruct (Matches m x), stop; cbn; case_match; cbn; intuition congruence.
Qed.

Lemma combined_Matches (m : MatcherInterface T) stop ms x :
  (∀ l, MatchAndExplain m x l = let '(b, s) := combined stop ms x in (b, l << s)) →
  Matches m x = fst (combined stop ms x).
Proof. intros Hm. unfold Matches. rewrite Hm. by destruct (combined stop ms x). Qed.

(** AllOf(m1, m2, ...) matches exactly when all its members do, and AnyOf when
    one does; the explanation is that of the first member that settles the answer,
    or the non-empty explanations of all members in order; it is appended to
    whatever the listener already holds, and nothing is written to a NULL one. *)
Theorem all_of_any_of m1 m2 ms x l :
  Lawful m1 → Lawful m2 → Forall Lawful ms →
  let all := m1 :: m2 :: ms in
  MatchAndExplain (AllOfMatcher m1 m2 ms) x l =
    match List.find (λ m, negb (Matches m x)) all with
    | Some m => (false, l << explanation m x)
    | None => (true, l << join_reasons ((λ m, explanation m x) <$> all))
    end ∧
  MatchAndExplain (AnyOfMatcher m1 m2 ms) x l =
    match List.find (λ m, Matches m x) all with
    | Some m => (true, l << explanation m x)
    | None => (false, l << join_reasons ((λ m, explanation m x) <$> all))
    end ∧
  (Matches (AllOfMatcher m1 m2 ms) x = true ↔ Forall (λ m, Matches m x = true) all) ∧
  (Matches (AnyOfMatcher m1 m2 ms) x = true ↔ Exists (λ m, Matches m x = true) all).
Proof.
  intros H1 H2 Hms all. rewrite all_of_run // any_of_run //. fold all.
  rewrite (combined_Matches (AllOfMatcher m1 m2 ms) false all).
  { intros. by apply all_of_run. }
  rewrite (combined_Matches (AnyOfMatcher m1 m2 ms) true all).
  { intros. by apply any_of_run. }
  rewrite (combined_go false) (combined_stop true). unfold combined.
  rewrite (find_ext (λ m, negb (Matches m x)) (λ m, Bool.eqb (Matches m x) false));
    [by intros m; destruct (Matches m x)|].
  rewrite (find_ext (λ m, Matches m x) (λ m, Bool.eqb (Matches m x) true));
    [by intros m; destruct (Matches m x)|].
  split_and!; try done; by destruct (List.find _ all).
Qed.
End junctions.

(** * Containers *)

Section container_lemmas.
Context {E : Type}.
Implicit Types (m : MatcherInterface E) (ms : list (MatcherInterface E)) (xs : list E).

(** The element that settles a quantifier, from index [i]: the first that does not
    match as all should. *)
Fixpoint settles m (all : bool) (i : nat) xs : option (nat * E) :=
  match xs with
  | [] => None
  | x :: xs => if Bool.eqb (Matches m x) all then settles m all (S i) xs else Some (i, x)
  end.

Lemma quantify_run m `{!Lawful m} all i xs l :
  quantify m all i xs l =
  match settles m all i xs with
  | None => (all, l)
  | Some (j, x) =>
    (negb all, l << ("whose element #" +:+ pretty j +:+
                     (if all then " doesn't match" else " matches") +:+
                     if_not_empty (explanation m x)))
  end.
Proof.
  revert i l. induction xs as [|x xs IH]; intros i l; [done|]. cbn -[if_not_empty pretty].
  rewrite match_string_eq. destruct (Bool.eqb (Matches m x) all) eqn:Hb; cbn -[if_not_empty pretty].
  - apply IH.
  - rewrite print_if_not_empty !out_app.
    by destruct (Matches m x), all.
Qed.

Lemma settles_None m all i xs :
  settles m all i xs = None ↔ Forall (λ x, Matches m x = all) xs.
Proof.
  revert i. induction xs as [|x xs IH]; intros i; cbn; [done|].
  rewrite Forall_cons. destruct (Bool.eqb (Matches m x) all) eqn:Hb.
  - apply Bool.eqb_prop in Hb. rewrite IH. naive_solver.
  - split; [done|]. intros [Hm _]. by rewrite Hm Bool.eqb_reflx in Hb.
Qed.

Lemma quantify_parts m `{!Lawful m} all :
  ∃ b e, ∀ xs l, quantify m all 0 xs l = (b xs, l << e xs).
Proof.
  exists (λ xs, match settles m all 0 xs with None => all | Some _ => negb all end).
  exists (λ xs, match settles m all 0 xs with None => EmptyString | Some (j, x) =>
    "whose element #" +:+ pretty j +:+ (if all then " doesn't match" else " matches") +:+
    if_not_empty (explanation m x) end).
  intros xs l. rewrite quantify_run. destruct (settles m all 0 xs) as [[]|]; [done|].
  by rewrite out_empty.
Qed.

#[export] Instance contains_lawful m `{!Lawful m} : Lawful (ContainsMatcherImpl m).
Proof. destruct (quantify_parts m false) as (b & e & H). by apply (lawful_of _ b e). Qed.

#[export] Instance each_lawful m `{!Lawful m} : Lawful (EachMatcherImpl m).
Proof. destruct (quantify_parts m true) as (b & e & H). by apply (lawful_of _ b e). Qed.

Lemma settles_first m (all : bool) i j xs x :
  xs !! j = Some x → Matches m x = negb all → Forall (λ x, Matches m x = all) (take j xs) →
  settles m all i xs = Some ((i + j)%nat, x).
Proof.
  revert i j. induction xs as [|y xs IH]; intros i j Hx Hm Hall; [done|].
  destruct j as [|j]; cbn in *.
  - injection Hx as ->. rewrite Hm Nat.add_0_r. by destruct all.
  - apply Forall_cons in Hall as [Hy Hall]. rewrite Hy Bool.eqb_reflx (IH (S i) j) //.
    by rewrite Nat.add_succ_comm.
Qed.

Lemma quantify_matches m `{!Lawful m} all xs l :
  fst (quantify m all 0 xs l) = all ↔ Forall (λ x, Matches m x = all) xs.
Proof.
  rewrite quantify_run -(settles_None m all 0).
  destruct (settles m all 0 xs) as [[]|]; cbn; [|done]. by destruct all.
Qed.

(** Contains(m) is the negation of Each(Not(m)). *)
Lemma contains_not_each m `{!Lawful m} xs :
  Matches (ContainsMatcherImpl m) xs = negb (Matches (EachMatcherImpl (NotMatcherImpl m)) xs).
Proof.
  assert (settles (NotMatcherImpl m) true 0 xs = settles m false 0 xs) as Hs.
  { generalize 0%nat. induction xs as [|x xs IH]; intros i; [done|]. cbn -[NotMatcherImpl].
    unfold Matches at 1. rewrite not_run IH. by destruct (Matches m x). }
  unfold Matches. cbn -[quantify NotMatcherImpl]. rewrite !quantify_run Hs.
  by destruct (settles m false 0 xs) as [[]|].
Qed.

Lemma exists_not_all m xs :
  Exists (λ x, Matches m x = true) xs ↔ ¬ Forall (λ x, Matches m x = false) xs.
Proof.
  induction xs as [|x xs IH].
  { split; [by inversion 1|by intros []]. }
  rewrite Exists_cons Forall_cons IH. destruct (Matches m x); naive_solver.
Qed.

(** Each(m) matches a container when all its elements match m, and Contains(m)
    when one does, so that Contains(m) is the negation of Each(Not(m)). The
    explanation names the first element that settles the answer, with its own
    explanation; nothing is written when no element does. *)
Theorem each_contains_explain m `{!Lawful m} xs l :
  (Matches (EachMatcherImpl m) xs = true ↔ Forall (λ x, Matches m x = true) xs) ∧
  (Matches (ContainsMatcherImpl m) xs = true ↔ Exists (λ x, Matches m x = true) xs) ∧
  Matches (ContainsMatcherImpl m) xs = negb (Matches (EachMatcherImpl (NotMatcherImpl m)) xs) ∧
  (Forall (λ x, Matches m x = true) xs → MatchAndExplain (EachMatcherImpl m) xs l = (true, l)) ∧
  (Forall (λ x, Matches m x = false) xs → MatchAndExplain (ContainsMatcherImpl m) xs l = (false, l)) ∧
  (∀ j x, xs !! j = Some x → Matches m x = false → Forall (λ x, Matches m x = true) (take j xs) →
     MatchAndExplain (EachMatcherImpl m) xs l =
       (false, l << ("whose element #" +:+ pretty j +:+ " doesn't match" +:+ if_not_empty (explanation m x)))) ∧
  (∀ j x, xs !! j = Some x → Matches m x = true → Forall (λ x, Matches m x = false) (take j xs) →
     MatchAndExplain (ContainsMatcherImpl m) xs l =
       (true, l << ("whose element #" +:+ pretty j +:+ " matches" +:+ if_not_empty (explanation m x)))).
Proof.
  cbn [MatchAndExplain EachMatcherImpl ContainsMatcherImpl]. split_and!.
  - by apply quantify_matches.
  - unfold Matches at 1. cbn [MatchAndExplain ContainsMatcherImpl].
    by rewrite exists_not_all -not_false_iff_true (quantify_matches m false xs None).
  - by apply contains_not_each.
  - intros H. rewrite quantify_run. by rewrite (proj2 (settles_None m true 0 xs)).
  - intros H. rewrite quantify_run. by rewrite (proj2 (settles_None m false 0 xs)).
  - intros j x Hx Hm Hall. by rewrite quantify_run (settles_first m true 0 j xs x).
  - intros j x Hx Hm Hall. by rewrite quantify_run (settles_first m false 0 j xs x).
Qed.

Lemma count_rest_eq xs n : count_rest xs n = (n + length xs)%nat.
Proof. revert n. induction xs as [|x xs IH]; intros n; cbn; [lia|]. rewrite IH. lia. Qed.

(** The reasons of the matched elements from index [i], the first one preceded by
    a separator when [printed]. *)
Fixpoint reasons (i : nat) (printed : bool) (es : list string) : string :=
  match es with
  | [] => EmptyString
  | e :: es =>
    if bool_decide (e ≠ EmptyString) then
      (if printed then "," +:+ nl +:+ "and " else EmptyString) +:+
      "whose element #" +:+ pretty i +:+ " matches, " +:+ e +:+ reasons (S i) true es
    else reasons (S i) printed es
  end.

Lemma print_reasons_out i es printed l : print_reasons i es printed l = l << reasons i printed es.
Proof.
  revert i printed l. induction es as [|e es IH]; intros i printed l.
  { cbn. by rewrite out_empty. }
  cbn -[pretty]. case_bool_decide; [|apply IH]. rewrite IH !out_app.
  by destruct printed; rewrite ?out_app -?string_app_assoc.
Qed.

(** What [examine] computes, by recursion on the matchers: whether there is a
    mismatch, its position or the number of pairs, the explanations recorded, and
    the elements from that position. *)
Fixpoint scan (interested : bool) ms xs : bool * nat * list string * list E :=
  match ms, xs with
  | m :: ms, x :: xs =>
    let e := if interested then explanation m x else EmptyString in
    if Matches m x
    then let '(b, n, es, it) := scan interested ms xs in (b, S n, e :: es, it)
    else (true, 0%nat, e :: replicate (length ms) EmptyString, x :: xs)
  | _, _ => (false, 0%nat, replicate (length ms) EmptyString, xs)
  end.

Lemma examine_scan interested ms0 ms xs es0 :
  Forall Lawful ms → length es0 = length ms0 →
  examine interested (ms0 ++ ms) xs (length ms0) (es0 ++ replicate (length ms) EmptyString) =
  let '(b, n, es, it) := scan interested ms xs in (b, (length ms0 + n)%nat, es0 ++ es, it).
Proof.
  revert ms0 ms es0. induction xs as [|x xs IH]; intros ms0 ms es0 Hms Hes.
  { destruct ms; cbn; by rewrite Nat.add_0_r. }
  cbn [examine]. destruct ms as [|m ms].
  { rewrite lookup_ge_None_2; [by rewrite app_nil_r|]. cbn. by rewrite Nat.add_0_r. }
  apply Forall_cons in Hms as [Hm Hms]. rewrite list_lookup_middle // match_string_eq.
  set (e := if interested then explanation m x else EmptyString).
  assert ((if interested then (Matches m x, <[length ms0:=explanation m x]> (es0 ++ replicate (length (m :: ms)) EmptyString))
    else (Matches m x, es0 ++ replicate (length (m :: ms)) EmptyString)) =
    (Matches m x, es0 ++ e :: replicate (length ms) EmptyString)) as ->.
  { unfold e. rewrite -Hes. destruct interested; [|done]. by rewrite insert_app_r_alt // Nat.sub_diag. }
  cbn [scan]. fold e. destruct (Matches m x); cbn [negb]; [|by rewrite Nat.add_0_r].
  specialize (IH (ms0 ++ [m]) ms (es0 ++ [e]) Hms).
  rewrite !length_app -!app_assoc in IH. cbn [app length] in IH.
  rewrite !Nat.add_1_r in IH. rewrite IH; [lia|].
  destruct (scan interested ms xs) as [[[b n] es] it]. by rewrite -app_assoc Nat.add_succ_r.
Qed.

Lemma scan_count interested ms xs b n es it :
  scan interested ms xs = (b, n, es, it) → (n + length it = length xs)%nat.
Proof.
  revert xs n es it. induction ms as [|m ms IH]; intros [|x xs] n es it; cbn.
  1-3: by intros [= <- <- <- <-].
  destruct (Matches m x); [|by intros [= <- <- <- <-]].
  destruct (scan interested ms xs) as [[[b' n'] es'] it'] eqn:Hs. intros [= <- <- <- <-].
  by rewrite -(IH _ _ _ _ Hs).
Qed.

(** All the pairs match. *)
Lemma scan_all interested ms xs :
  Forall2 (λ m x, Matches m x = true) ms xs →
  scan interested ms xs =
  (false, length ms, zip_with (λ m x, if interested then explanation m x else EmptyString) ms xs, []).
Proof. induction 1 as [|m x ms xs Hm _ IH]; cbn; [done|]. by rewrite Hm IH. Qed.

(** The pair at [j] is the first that does not match. *)
Lemma scan_mismatch interested ms xs j m x :
  ms !! j = Some m → xs !! j = Some x → Matches m x = false →
  Forall2 (λ m x, Matches m x = true) (take j ms) (take j xs) →
  ∃ es, scan interested ms xs = (true, j, es, drop j xs) ∧
    es !! j = Some (if interested then explanation m x else EmptyString).
Proof.
  revert j xs. induction ms as [|m' ms IH]; intros j xs Hm Hx Hmx Hall; [done|].
  destruct xs as [|x' xs]; [done|]. destruct j as [|j]; cbn in *.
  - injection Hm as ->. injection Hx as ->. rewrite Hmx. eauto.
  - apply Forall2_cons in Hall as [Hm' Hall]. rewrite Hm'.
    destruct (IH j xs Hm Hx Hmx Hall) as (es & -> & He). eauto.
Qed.

(** Either all pairs match or there is a first one that does not. *)
Lemma pairs_cases ms xs :
  length ms = length xs →
  Forall2 (λ m x, Matches m x = true) ms xs ∨
  ∃ j m x, ms !! j = Some m ∧ xs !! j = Some x ∧ Matches m x = false ∧
    Forall2 (λ m x, Matches m x = true) (take j ms) (take j xs).
Proof.
  revert xs. induction ms as [|m ms IH]; intros [|x xs] Hlen; try done; [by left|].
  destruct (Matches m x) eqn:Hmx; [|right; by exists 0%nat, m, x].
  destruct (IH xs) as [Hall|(j & m' & x' & H1 & H2 & H3 & H4)]; [by injection Hlen|by left; constructor|].
  right. exists (S j), m', x'. cbn. split_and!; try done. by constructor.
Qed.

Lemma elements_are_scan ms xs l :
  Forall Lawful ms →
  elements_are ms xs l =
  let '(mismatch_found, pos, es, it) := scan (IsInterested l) ms xs in
  if negb (bool_decide (length xs = length ms)) then
    (false, if negb (bool_decide (length xs = 0%nat))
            then l << ("which has " +:+ Elements (length xs)) else l)
  else if mismatch_found then
    (false, l << ("whose element #" +:+ pretty pos +:+ " doesn't match" +:+
                  if_not_empty (default EmptyString (es !! pos))))
  else (true, if IsInterested l then l << reasons 0 false es else l).
Proof.
  intros Hms. unfold elements_are.
  rewrite (examine_scan (IsInterested l) [] ms xs []) //.
  destruct (scan (IsInterested l) ms xs) as [[[b n] es] it] eqn:Hs. apply scan_count in Hs.
  rewrite count_rest_eq !app_nil_l. cbn [length Nat.add]. rewrite Hs.
  rewrite print_reasons_out print_if_not_empty !out_app.
  destruct l; cbn [IsInterested andb]; [done|]. by repeat case_match.
Qed.

Definition which_has xs : string :=
  if bool_decide (xs = []) then EmptyString else "which has " +:+ Elements (length xs).

Lemma elements_are_count ms xs l :
  Forall Lawful ms → length xs ≠ length ms →
  elements_are ms xs l = (false, l << which_has xs).
Proof.
  intros Hms Hlen. rewrite elements_are_scan //.
  destruct (scan _ ms xs) as [[[b n] es] it]. rewrite (bool_decide_eq_false_2 (_ = length ms)) //.
  unfold which_has. destruct xs; cbn -[Elements]; [by rewrite out_empty|done].
Qed.

Lemma elements_are_mismatch ms xs l j mj xj :
  Forall Lawful ms → length xs = length ms →
  ms !! j = Some mj → xs !! j = Some xj → Matches mj xj = false →
  Forall2 (λ m x, Matches m x = true) (take j ms) (take j xs) →
  elements_are ms xs l =
    (false, l << ("whose element #" +:+ pretty j +:+ " doesn't match" +:+
                  if_not_empty (explanation mj xj))).
Proof.
  intros Hms Hlen Hm Hx Hmx Hall. rewrite elements_are_scan //.
  destruct (scan_mismatch (IsInterested l) _ _ _ _ _ Hm Hx Hmx Hall) as (es & -> & He).
  rewrite bool_decide_eq_true_2 //= He. by destruct l.
Qed.

Lemma elements_are_all ms xs l :
  Forall Lawful ms → Forall2 (λ m x, Matches m x = true) ms xs →
  elements_are ms xs l = (true, l << reasons 0 false (zip_with explanation ms xs)).
Proof.
  intros Hms Hall. rewrite elements_are_scan // (scan_all _ _ _ Hall).
  rewrite (bool_decide_eq_true_2 (_ = length ms)) //; [symmetry; by eapply Forall2_length|].
  by destruct l.
Qed.

Lemma elements_are_lawful ms : Forall Lawful ms → Lawful (ElementsAreMatcherImpl ms).
Proof.
  intros Hms. apply lawful_at. intros xs.
  destruct (decide (length xs = length ms)) as [Hlen|Hlen];
    [|do 2 eexists; intros l; by apply elements_are_count].
  destruct (pairs_cases ms xs) as [H|(j & mj & xj & H1 & H2 & H3 & H4)]; [done|..].
  - do 2 eexists. intros l. by apply elements_are_all.
  - do 2 eexists. intros l. by eapply elements_are_mismatch.
Qed.

Lemma elements_are_matches ms xs :
  Forall Lawful ms →
  Matches (ElementsAreMatcherImpl ms) xs = true ↔ Forall2 (λ m x, Matches m x = true) ms xs.
Proof.
  intros Hms. unfold Matches at 1. cbn. split; [|intros Hall; by rewrite elements_are_all].
  intros Hm. destruct (decide (length xs = length ms)) as [Hlen|Hlen]; [|by rewrite elements_are_count in Hm].
  destruct (pairs_cases ms xs) as [Hall|(j & mj & xj & H1 & H2 & H3 & H4)]; [done..|].
  by rewrite (elements_are_mismatch _ _ _ j mj xj) in Hm.
Qed.

(** ElementsAre(m1, ..., mn) matches a container exactly when it has n elements
    and each matches its matcher; the explanation names the actual count when that is
    wrong, else the first element that does not match with its own explanation, else
    the non-empty explanations of the elements. *)
Theorem elements_are_explains ms xs l :
  Forall Lawful ms →
  let m := ElementsAreMatcherImpl ms in
  (Matches m xs = true ↔ Forall2 (λ m x, Matches m x = true) ms xs) ∧
  (length xs ≠ length ms → MatchAndExplain m xs l = (false, l << which_has xs)) ∧
  (∀ j mj xj, length xs = length ms →
     ms !! j = Some mj → xs !! j = Some xj → Matches mj xj = false →
     Forall2 (λ m x, Matches m x = true) (take j ms) (take j xs) →
     MatchAndExplain m xs l =
       (false, l << ("whose element #" +:+ pretty j +:+ " doesn't match" +:+
                     if_not_empty (explanation mj xj)))) ∧
  (Forall2 (λ m x, Matches m x = true) ms xs →
     MatchAndExplain m xs l = (true, l << reasons 0 false (zip_with explanation ms xs))).
Proof.
  intros Hms m. split_and!.
  - by apply elements_are_matches.
  - intros Hlen. by apply elements_are_count.
  - intros j mj xj ?????. by apply elements_are_mismatch.
  - intros Hall. by apply elements_are_all.
Qed.
End container_lemmas.

Section pair_lemmas.
Context {K V : Type} (m1 : MatcherInterface K) (m2 : MatcherInterface V) `{!Lawful m1, !Lawful m2}.

Lemma explain_success_out e1 e2 l :
  ∃ e, ExplainSuccess e1 e2 l = l << e.
Proof.
  unfold ExplainSuccess. repeat case_bool_decide; rewrite ?out_app; eauto.
Qed.

#[export] Instance key_lawful : Lawful (KeyMatcherImpl (V:=V) m1).
Proof.
  apply lawful_at. intros x. do 2 eexists. intros l. cbn. rewrite match_string_eq.
  instantiate (1 := if bool_decide (explanation m1 x.1 ≠ EmptyString)
                    then "whose first field is a value " +:+ explanation m1 x.1 else EmptyString).
  case_bool_decide; rewrite ?out_app ?out_empty; done.
Qed.

(** Pair(m1, m2) matches when both fields do. *)
Lemma pair_matches x :
  Matches (PairMatcherImpl m1 m2) x = Matches m1 x.1 && Matches m2 x.2.
Proof. done. Qed.

#[export] Instance pair_lawful : Lawful (PairMatcherImpl m1 m2).
Proof.
  apply lawful_at. intros x. exists (Matches m1 x.1 && Matches m2 x.2).
  destruct (Matches m1 x.1) eqn:H1; [destruct (Matches m2 x.2) eqn:H2|].
  - destruct (explain_success_out (explanation m1 x.1) (explanation m2 x.2) (Some EmptyString)) as [e He].
    exists (str (ExplainSuccess (explanation m1 x.1) (explanation m2 x.2) (Some EmptyString))).
    intros [os|]; cbn -[ExplainSuccess]; rewrite ?H1 ?H2 // !match_string_eq H1 H2.
    cbn -[ExplainSuccess]. f_equal. unfold ExplainSuccess.
    repeat case_bool_decide; cbn; by rewrite -?string_app_assoc.
  - exists ("whose second field does not match" +:+ if_not_empty (explanation m2 x.2)).
    intros [os|]; cbn -[if_not_empty]; rewrite ?H1 ?H2 // !match_string_eq H1 H2.
    cbn -[if_not_empty PrintIfNotEmpty]. by rewrite print_if_not_empty /= string_app_assoc.
  - exists ("whose first field does not match" +:+ if_not_empty (explanation m1 x.1)).
    intros [os|]; cbn -[if_not_empty]; rewrite ?H1 // !match_string_eq H1.
    cbn -[if_not_empty PrintIfNotEmpty]. by rewrite print_if_not_empty /= string_app_assoc.
Qed.
End pair_lemmas.

#[export] Instance size_lawful {E} m `{!Lawful m} : Lawful (SizeIsMatcher (Element:=E) m).
Proof.
  apply (lawful_of _ (λ c, Matches m (length c))
    (λ c, "whose size " +:+ pretty (length c) +:+
          (if Matches m (length c) then " matches" else " doesn't match") +:+
          if_not_empty (explanation m (length c)))).
  intros x l. cbn -[if_not_empty]. by rewrite match_string_eq print_if_not_empty !out_app.
Qed.

(** * Matcher tuples *)

(** What is written about a field that does not match. *)
Definition failure_text (i : nat) (f : field) : string :=
  "  Expected arg #" +:+ pretty i +:+ ": " +:+ DescribeTo (f_matcher f) +:+ nl +:+
  "           Actual: " +:+ f_print f (f_value f) +:+
  if_not_empty (explanation (f_matcher f) (f_value f)) +:+ nl.

Fixpoint failures (i : nat) (fs : list field) : string :=
  match fs with
  | [] => EmptyString
  | f :: fs => (if field_matches f then EmptyString else failure_text i f) +:+ failures (S i) fs
  end.

Definition lawful_field (f : field) : Prop := Lawful (f_matcher f).

Lemma failures_app i fs gs : failures i (fs ++ gs) = failures i fs +:+ failures (i + length fs) gs.
Proof.
  revert i. induction fs as [|f fs IH]; intros i; cbn; [by rewrite Nat.add_0_r|].
  by rewrite IH -string_app_assoc Nat.add_succ_r.
Qed.

Lemma explain_field_eq i f os :
  lawful_field f →
  explain_field i f os = os +:+ (if field_matches f then EmptyString else failure_text i f).
Proof.
  unfold lawful_field, explain_field, field_matches, failure_text. intros Hf.
  rewrite match_string_eq. destruct (Matches _ _); cbn -[if_not_empty].
  - by rewrite string_app_nil_r.
  - rewrite print_if_not_empty /= -!string_app_assoc. done.
Qed.

Lemma prefix_matches N fs :
  (N ≤ length fs)%nat →
  TuplePrefix_Matches N fs = true ↔ Forall (λ f, field_matches f = true) (take N fs).
Proof.
  induction N as [|N IH]; intros HN; cbn [TuplePrefix_Matches]; [done|].
  destruct (lookup_lt_is_Some_2 fs N HN) as [f Hf].
  rewrite Hf andb_true_iff (take_S_r _ _ f) // Forall_app Forall_singleton IH; [lia|done].
Qed.

Lemma prefix_failures N fs os :
  (N ≤ length fs)%nat → Forall lawful_field fs →
  TuplePrefix_ExplainMatchFailuresTo N fs os = os +:+ failures 0 (take N fs).
Proof.
  intros HN Hfs. revert HN. induction N as [|N IH]; intros HN; cbn [TuplePrefix_ExplainMatchFailuresTo].
  { by rewrite take_0 string_app_nil_r. }
  destruct (lookup_lt_is_Some_2 fs N HN) as [f Hf].
  rewrite Hf IH; [lia|]. rewrite explain_field_eq; [by eapply Forall_lookup_1|].
  rewrite (take_S_r _ _ f) // failures_app length_take_le /=; [lia|].
  by rewrite string_app_nil_r string_app_assoc.
Qed.

Fixpoint lawful_tuple {Ts : list Type} : matcher_tuple Ts → Prop :=
  match Ts with [] => λ _, True | T :: Ts => λ ms, Lawful (fst ms) ∧ lawful_tuple (snd ms) end.

Lemma fields_length {Ts} (ms : matcher_tuple Ts) xs ps : length (fields ms xs ps) = length Ts.
Proof. induction Ts as [|T Ts IH]; cbn; [done|]. by rewrite IH. Qed.

Lemma fields_lawful {Ts} (ms : matcher_tuple Ts) xs ps :
  lawful_tuple ms → Forall lawful_field (fields ms xs ps).
Proof.
  induction Ts as [|T Ts IH]; cbn; [done|]. intros [Hm Hms]. constructor; [done|by apply IH].
Qed.

Lemma failures_none i fs : failures i fs = EmptyString ↔ Forall (λ f, field_matches f = true) fs.
Proof.
  revert i. induction fs as [|f fs IH]; intros i; cbn; [done|]. rewrite Forall_cons -(IH (S i)).
  destruct (field_matches f); [by split; [|intros [??]]|]. split; [|by intros []]. done.
Qed.

Lemma append_same (s t : string) : s +:+ t = s ↔ t = EmptyString.
Proof.
  split; [|intros ->; apply string_app_nil_r].
  induction s as [|c s IH]; [done|]. cbn. intros H. apply IH.
  by injection H.
Qed.

(** TupleMatches holds exactly when every argument matches its matcher, and
    ExplainMatchFailureTupleTo appends one paragraph for each argument that does not,
    in argument order, so that nothing is streamed exactly when the tuple
    matches. *)
Theorem tuple_failures {Ts} (ps : printers Ts) (ms : matcher_tuple Ts) (xs : tuple Ts) os :
  lawful_tuple ms →
  (TupleMatches ps ms xs = true ↔ Forall (λ f, field_matches f = true) (fields ms xs ps)) ∧
  ExplainMatchFailureTupleTo ps ms xs os = os +:+ failures 0 (fields ms xs ps) ∧
  (ExplainMatchFailureTupleTo ps ms xs os = os ↔ TupleMatches ps ms xs = true).
Proof.
  intros Hms. unfold TupleMatches, ExplainMatchFailureTupleTo.
  rewrite -(fields_length ms xs ps) prefix_matches // firstn_all prefix_failures //;
    [by apply fields_lawful|].
  by rewrite firstn_all append_same failures_none.
Qed.

(** * Witnesses *)

Definition print_int (z : Z) : string := pretty z.

(** SizeIs(Truly(is even)), Each(Le(5)) and Contains(Eq(3)) of a vector of int. *)
Definition even_size : MatcherInterface (list Z) := SizeIsMatcher (TrulyMatcher Nat.even).
Definition at_most_5 : MatcherInterface (list Z) := EachMatcherImpl (LeMatcher print_int 5).
Definition has_3 : MatcherInterface (list Z) := ContainsMatcherImpl (EqMatcher print_int 3).

Lemma all_of_any_of_witness :
  MatchAndExplain (AllOfMatcher even_size at_most_5 [has_3]) [1; 3] (Some "so: ") =
    (true, Some "so: whose size 2 matches, and whose element #1 matches") ∧
  MatchAndExplain (AnyOfMatcher at_most_5 has_3 [even_size]) [7; 3] None = (true, None).
Proof.
  split.
  - rewrite (proj1 (all_of_any_of even_size at_most_5 [has_3] [1; 3] (Some "so: ") _ _
      (Forall_cons_2 _ _ _ (contains_lawful _) (Forall_nil_2 _)))).
    reflexivity.
  - rewrite (proj1 (proj2 (all_of_any_of at_most_5 has_3 [even_size] [7; 3] None _ _
      (Forall_cons_2 _ _ _ (size_lawful _) (Forall_nil_2 _))))).
    reflexivity.
Defined.

Lemma elements_are_explains_witness :
  let m := ElementsAreMatcherImpl [even_size; has_3] in
  Matches m [[1; 2]; [3]] = true ∧
  MatchAndExplain m [[1; 2]] (Some EmptyString) = (false, Some "which has 1 element") ∧
  MatchAndExplain m [[1; 2]; [4]] (Some EmptyString) = (false, Some "whose element #1 doesn't match") ∧
  MatchAndExplain m [[1; 2]; [3]] (Some EmptyString) =
    (true, Some ("whose element #0 matches, whose size 2 matches," +:+ nl +:+
                 "and whose element #1 matches, whose element #0 matches")).
Proof.
  intros m.
  assert (Forall Lawful [even_size; has_3]) as Hms by (repeat constructor; apply _).
  split_and!.
  - apply (elements_are_explains _ _ None Hms). by repeat constructor.
  - by rewrite (proj1 (proj2 (elements_are_explains _ [[1; 2]] _ Hms))).
  - by rewrite (proj1 (proj2 (proj2 (elements_are_explains _ [[1; 2]; [4]] _ Hms)))
      1%nat has_3 [4]); [|done..|by repeat constructor|].
  - rewrite (proj2 (proj2 (proj2 (elements_are_explains _ [[1; 2]; [3]] _ Hms)))) //.
    by repeat constructor.
Defined.

Lemma each_contains_explain_witness :
  MatchAndExplain (EachMatcherImpl has_3) [[3]; [1; 2]; []] (Some EmptyString) =
    (false, Some "whose element #1 doesn't match") ∧
  MatchAndExplain (ContainsMatcherImpl even_size) [[3]; [1; 2]; []] (Some EmptyString) =
    (true, Some "whose element #1 matches, whose size 2 matches").
Proof.
  destruct (each_contains_explain has_3 [[3]; [1; 2]; []] (Some EmptyString))
    as (_ & _ & _ & _ & _ & He & _).
  destruct (each_contains_explain even_size [[3]; [1; 2]; []] (Some EmptyString))
    as (_ & _ & _ & _ & _ & _ & Hc).
  split.
  - rewrite (He 1%nat [1; 2]) //. by repeat constructor.
  - rewrite (Hc 1%nat [1; 2]) //. by repeat constructor.
Defined.

(** The arguments (int, vector<int>) of a call. *)
Definition sample_matchers : matcher_tuple [Z : Type; list Z : Type] :=
  (GtMatcher print_int 2, (even_size, ())).
Definition sample_printers : printers [Z : Type; list Z : Type] :=
  (print_int, ((λ _, "a vector"), ())).

Lemma tuple_failures_witness :
  TupleMatches sample_printers sample_matchers (3, ([1; 2], ())) = true ∧
  ExplainMatchFailureTupleTo sample_printers sample_matchers (2, ([1; 2; 3], ())) EmptyString =
    "  Expected arg #0: is > 2" +:+ nl +:+ "           Actual: 2" +:+ nl +:+
    "  Expected arg #1: size satisfies the given predicate" +:+ nl +:+
    "           Actual: a vector, whose size 3 doesn't match" +:+ nl.
Proof.
  assert (lawful_tuple sample_matchers) as Hl by (repeat split; apply _).
  split.
  - apply (tuple_failures sample_printers sample_matchers (3, ([1; 2], ())) EmptyString Hl).
    by repeat constructor.
  - rewrite (proj1 (proj2 (tuple_failures sample_printers sample_matchers
      (2, ([1; 2; 3], ())) EmptyString Hl))).
    vm_compute. reflexivity.
Defined.
