(* ===== verification/ContainerMatchers.v ===== *)
(** More container matchers of the bundled mock library
    (src/gtest/include/gmock/gmock-matchers.h): BeginEndDistanceIs, ContainerEq,
    WhenSortedBy, Pointwise, and the unordered matchers with their match matrix.

    What the header only declares is the record [unordered_library]: the pairing of
    elements with matchers and the check that explains why there is none. *)

From stdpp Require Import pretty sorting.
From S2P Require Import Prelude Matchers.
#[local] Open Scope Z_scope.
#[local] Open Scope listener_scope.

Section containers.
Context {Element : Type} (UniversalPrint : Element → string).
Context (PrintContainer : list Element → string).
Implicit Types container lhs : list Element.

(** BeginEndDistanceIsMatcher::Impl. *)
Definition BeginEndDistanceIsMatcher (distance_matcher : MatcherInterface Z)
    : MatcherInterface (list Element) :=
  MkMatcher (λ container l,
      let distance := Z.of_nat (length container) in
      let '(result, e) := match_string distance_matcher distance in
      (result, PrintIfNotEmpty e
         (l << "whose distance between begin() and end() " << pretty distance
            << (if result then " matches" else " doesn't match"))))
    ("distance between begin() and end() " +:+ DescribeTo distance_matcher)
    ("distance between begin() and end() " +:+ DescribeNegationTo distance_matcher).

(** * ContainerEq *)

Section container_eq.
Context (eqb : Element → Element → bool).

(** lhs_stl_container == expected_. *)
Fixpoint container_eqb lhs (rhs : list Element) : bool :=
  match lhs, rhs with
  | [], [] => true
  | x :: lhs, y :: rhs => eqb x y && container_eqb lhs rhs
  | _, _ => false
  end.

(** ArrayAwareFind(begin, end, elem) != end. *)
Fixpoint ArrayAwareFind container (elem : Element) : bool :=
  match container with
  | [] => false
  | x :: container => if eqb x elem then true else ArrayAwareFind container elem
  end.

(** One of the two loops: the elements of [it] that are not in [other], after
    [header]; whether something was printed, and the stream. *)
Fixpoint print_missing (header : string) (other it : list Element) (printed_header : bool)
    (os : string) : bool * string :=
  match it with
  | [] => (printed_header, os)
  | x :: it =>
    if negb (ArrayAwareFind other x) then
      print_missing header other it true
        (os +:+ (if printed_header then ", " else header) +:+ UniversalPrint x)
    else print_missing header other it printed_header os
  end.

Definition ContainerEqMatcher (expected_ : list Element) : MatcherInterface (list Element) :=
  MkMatcher (λ lhs l,
      if container_eqb lhs expected_ then (true, l)
      else
        (false,
         match l with
         | None => None
         | Some os =>
           let '(printed_header, os) :=
             print_missing "which has these unexpected elements: " expected_ lhs false os in
           let '(_, os) :=
             print_missing ((if printed_header then "," +:+ nl +:+ "and" else "which") +:+
               " doesn't have these expected elements: ") lhs expected_ false os in
           Some os
         end))
    ("equals " +:+ PrintContainer expected_) ("does not equal " +:+ PrintContainer expected_).
End container_eq.

(** * WhenSortedBy *)

(** WhenSortedByMatcher::Impl, with the std::sort of the standard library. *)
Definition WhenSortedByMatcher (sort : (Element → Element → bool) → list Element → list Element)
    (comparator_ : Element → Element → bool) (matcher_ : MatcherInterface (list Element))
    : MatcherInterface (list Element) :=
  MkMatcher (λ lhs l,
      let sorted_container := sort comparator_ lhs in
      if negb (IsInterested l) then (Matches matcher_ sorted_container, l)
      else
        let l := l << "which is " << PrintContainer sorted_container << " when sorted" in
        let '(match_, e) := match_string matcher_ sorted_container in
        (match_, PrintIfNotEmpty e l))
    ("(when sorted) " +:+ DescribeTo matcher_) ("(when sorted) " +:+ DescribeNegationTo matcher_).
End containers.

(** * Pointwise *)

Section pointwise.
Context {L R : Type} (print_l : L → string) (print_r : R → string) (print_rhs : list R → string).

(** The loop, from index [i]; the containers have the same size. *)
Fixpoint pointwise_loop (m : MatcherInterface (L * R)) (i : nat) (left_ : list L) (right_ : list R)
    (l : MatchResultListener) : bool * MatchResultListener :=
  match left_, right_ with
  | x :: left_, y :: right_ =>
    if IsInterested l then
      let '(b, e) := match_string m (x, y) in
      if negb b then
        (false, PrintIfNotEmpty e
           (l << "where the value pair (" << print_l x << ", " << print_r y << ") at index #"
              << pretty i << " don't match"))
      else pointwise_loop m (S i) left_ right_ l
    else if negb (Matches m (x, y)) then (false, l)
    else pointwise_loop m (S i) left_ right_ l
  | _, _ => (true, l)
  end.

Definition PointwiseMatcher (m : MatcherInterface (L * R)) (rhs_ : list R) : MatcherInterface (list L) :=
  MkMatcher (λ lhs l,
      let actual_size := length lhs in
      if negb (bool_decide (actual_size = length rhs_)) then
        (false, l << "which contains " << pretty actual_size << " values")
      else pointwise_loop m 0 lhs rhs_ l)
    ("contains " +:+ pretty (length rhs_) +:+
     " values, where each value and its corresponding value in " +:+ print_rhs rhs_ +:+ " " +:+
     DescribeTo m)
    ("doesn't contain exactly " +:+ pretty (length rhs_) +:+
     " values, or contains a value x at some index i where x and the i-th value of " +:+
     print_rhs rhs_ +:+ " " +:+ DescribeNegationTo m).

(** BoundSecondMatcher::Impl, with the inherited DescribeNegationTo. *)
Definition BoundSecondMatcher (tm : MatcherInterface (L * R)) (second : R) : MatcherInterface L :=
  let description := "and " +:+ print_r second +:+ " " +:+ DescribeTo tm in
  MkMatcher (λ x l, MatchAndExplain tm (x, second) l) description (default_negation description).

Definition MatcherBindSecond := BoundSecondMatcher.
End pointwise.

(** * The match matrix *)

(** MatchMatrix. matched_ holds chars, in lhs-major order. *)
Record MatchMatrix : Type := MkMatrix {
  num_elements_ : nat;
  num_matchers_ : nat;
  matched_ : list Z;
}.

Definition new_matrix (num_elements num_matchers : nat) : MatchMatrix :=
  MkMatrix num_elements num_matchers (replicate (num_elements * num_matchers) 0).

Definition LhsSize (g : MatchMatrix) : nat := num_elements_ g.
Definition RhsSize (g : MatchMatrix) : nat := num_matchers_ g.
Definition SpaceIndex (g : MatchMatrix) (ilhs irhs : nat) : nat := ilhs * num_matchers_ g + irhs.

(** An index outside matched_ has no defined result. *)
Definition HasEdge (g : MatchMatrix) (ilhs irhs : nat) : option bool :=
  c ← matched_ g !! SpaceIndex g ilhs irhs; Some (c =? 1).

Definition SetEdge (g : MatchMatrix) (ilhs irhs : nat) (b : bool) : option MatchMatrix :=
  if bool_decide (SpaceIndex g ilhs irhs < length (matched_ g))%nat
  then Some (MkMatrix (num_elements_ g) (num_matchers_ g)
               (<[SpaceIndex g ilhs irhs := if b then 1 else 0]> (matched_ g)))
  else None.

(** The inner loop over irhs, for [k] more columns, with did_match_iter. *)
Fixpoint fill_row (k ilhs irhs : nat) (did_match_iter : list bool) (g : MatchMatrix)
    : option (MatchMatrix * list bool) :=
  match k with
  | O => Some (g, did_match_iter)
  | S k =>
    match did_match_iter with
    | [] => None
    | b :: did_match_iter => g ← SetEdge g ilhs irhs b; fill_row k ilhs (S irhs) did_match_iter g
    end
  end.

Fixpoint fill_matrix (k ilhs : nat) (did_match_iter : list bool) (g : MatchMatrix) : option MatchMatrix :=
  match k with
  | O => Some g
  | S k =>
    '(g, did_match_iter) ← fill_row (num_matchers_ g) ilhs 0 did_match_iter g;
    fill_matrix k (S ilhs) did_match_iter g
  end.

(** * UnorderedElementsAre *)

(** What gmock-matchers.cc has: DescribeToImpl, DescribeNegationToImpl and
    VerifyAllElementsAndMatchersAreMatched of UnorderedElementsAreMatcherImplBase, on
    the describers of its matchers, and FindPairing. *)
Record unordered_library : Type := {
  DescribeToImpl : list (string * string) → string;
  DescribeNegationToImpl : list (string * string) → string;
  VerifyAllElementsAndMatchersAreMatched :
    list (string * string) → list string → MatchMatrix → MatchResultListener → bool * MatchResultListener;
  FindPairing : MatchMatrix → MatchResultListener → bool * MatchResultListener;
}.

Section unordered.
Context (lib : unordered_library) {Element : Type} (PrintToString : Element → string).
Implicit Types (m : MatcherInterface Element) (matchers : list (MatcherInterface Element)).

(** The first loop of AnalyzeElements: element_printouts, did_match and
    num_elements. *)
Fixpoint analyze_loop (interested : bool) matchers (it : list Element) (element_printouts : list string)
    (did_match : list bool) (num_elements : nat) : list string * list bool * nat :=
  match it with
  | [] => (element_printouts, did_match, num_elements)
  | x :: it =>
    let element_printouts := if interested then element_printouts ++ [PrintToString x] else element_printouts in
    let did_match := fold_left (λ did_match m, did_match ++ [Matches m x]) matchers did_match in
    analyze_loop interested matchers it element_printouts did_match (S num_elements)
  end.

Definition AnalyzeElements (interested : bool) matchers (container : list Element)
    : list string * option MatchMatrix :=
  let '(element_printouts, did_match, num_elements) := analyze_loop interested matchers container [] [] 0 in
  (element_printouts,
   fill_matrix num_elements 0 did_match (new_matrix num_elements (length matchers))).

(** Elements(n). *)
Definition ElementsU (n : nat) : string :=
  pretty n +:+ " element" +:+ (if bool_decide (n = 1%nat) then EmptyString else "s").

Definition describer m : string * string := (DescribeTo m, DescribeNegationTo m).

(** MatchAndExplain. The matrix is always filled (analyze_elements_run). *)
Definition unordered_match matchers (container : list Element) (l : MatchResultListener)
    : bool * MatchResultListener :=
  match AnalyzeElements (IsInterested l) matchers container with
  | (element_printouts, Some matrix) =>
    let actual_count := LhsSize matrix in
    if bool_decide (actual_count = 0%nat) && bool_decide (matchers = []) then (true, l)
    else if negb (bool_decide (actual_count = length matchers)) then
      (false, if negb (bool_decide (actual_count = 0%nat)) && IsInterested l
              then l << "which has " << ElementsU actual_count else l)
    else
      let '(verified, l) := VerifyAllElementsAndMatchersAreMatched lib (describer <$> matchers)
        element_printouts matrix l in
      if verified then FindPairing lib matrix l else (false, l)
  | (_, None) => (false, l)
  end.

Definition UnorderedElementsAreMatcherImpl matchers : MatcherInterface (list Element) :=
  MkMatcher (unordered_match matchers)
    (DescribeToImpl lib (describer <$> matchers)) (DescribeNegationToImpl lib (describer <$> matchers)).

(** UnorderedElementsAreArray of a range of matchers. *)
Definition UnorderedElementsAreArrayMatcher matchers : MatcherInterface (list Element) :=
  UnorderedElementsAreMatcherImpl matchers.
End unordered.

Section unordered_pointwise.
Context (lib : unordered_library) {L R : Type} (print_l : L → string) (print_r : R → string).

(** The loop that creates a matcher for each element of the right container. *)
Fixpoint bound_matchers (tuple2_matcher : MatcherInterface (L * R)) (it : list R)
    (matchers : list (MatcherInterface L)) : list (MatcherInterface L) :=
  match it with
  | [] => matchers
  | y :: it => bound_matchers tuple2_matcher it (matchers ++ [MatcherBindSecond print_r tuple2_matcher y])
  end.

Definition UnorderedPointwise (tuple2_matcher : MatcherInterface (L * R)) (rhs_container : list R)
    : MatcherInterface (list L) :=
  UnorderedElementsAreArrayMatcher lib print_l (bound_matchers tuple2_matcher rhs_container []).
End unordered_pointwise.

(** * The matrix as a list of edges *)

Definition enc (b : bool) : Z := if b then 1 else 0.

(** The matrix has a cell for each element and matcher, with a bool in it. *)
Definition matrix_ok (g : MatchMatrix) : Prop :=
  length (matched_ g) = (num_elements_ g * num_matchers_ g)%nat ∧ Forall (λ c, c = 0 ∨ c = 1) (matched_ g).

(** All its edges, row by row. *)
Definition edges (g : MatchMatrix) : list bool :=
  i ← seq 0 (num_elements_ g); (λ j, default false (HasEdge g i j)) <$> seq 0 (num_matchers_ g).

Lemma enc_dec b : (enc b =? 1) = b.
Proof. by destruct b. Qed.

Lemma matrix_ok_enc n m bits : length bits = (n * m)%nat → matrix_ok (MkMatrix n m (enc <$> bits)).
Proof.
  intros Hl. split; cbn; [by rewrite length_fmap|]. apply Forall_fmap, Forall_true. intros []; cbn; auto.
Qed.

Lemma HasEdge_enc n m bits i j : HasEdge (MkMatrix n m (enc <$> bits)) i j = bits !! (i * m + j)%nat.
Proof.
  unfold HasEdge, SpaceIndex. cbn. rewrite list_lookup_fmap.
  destruct (bits !! _); [|done]. cbn. by rewrite enc_dec.
Qed.

Lemma SetEdge_next n m done c rest i j b :
  (i * m + j)%nat = length done →
  SetEdge (MkMatrix n m ((enc <$> done) ++ c :: rest)) i j b =
    Some (MkMatrix n m ((enc <$> (done ++ [b])) ++ rest)).
Proof.
  intros Hij. unfold SetEdge, SpaceIndex. cbn. rewrite Hij bool_decide_eq_true_2.
  { rewrite length_app length_fmap /=. lia. }
  rewrite -(length_fmap enc done) insert_app_r_alt // Nat.sub_diag /=. by rewrite fmap_app -app_assoc.
Qed.

Lemma fill_row_run bits iter n m done rest i j :
  (i * m + j)%nat = length done → (length bits ≤ length rest)%nat →
  fill_row (length bits) i j (bits ++ iter) (MkMatrix n m ((enc <$> done) ++ rest)) =
    Some (MkMatrix n m ((enc <$> (done ++ bits)) ++ drop (length bits) rest), iter).
Proof.
  revert j done rest. induction bits as [|b bits IH]; intros j done rest Hij Hr.
  - by rewrite /= app_nil_r drop_0.
  - destruct rest as [|c rest]; [simpl in Hr; lia|]. cbn [fill_row app length].
    rewrite SetEdge_next // /= IH; [rewrite length_app /=; lia|simpl in Hr; lia|].
    by rewrite -app_assoc.
Qed.

Lemma fill_matrix_run k n m bits done rest i :
  length bits = (k * m)%nat → (i * m)%nat = length done → length rest = length bits →
  fill_matrix k i bits (MkMatrix n m ((enc <$> done) ++ rest)) = Some (MkMatrix n m (enc <$> (done ++ bits))).
Proof.
  revert bits done rest i. induction k as [|k IH]; intros bits done rest i Hb Hi Hr.
  - destruct bits; [|done]. destruct rest; [|done]. by rewrite /= !app_nil_r.
  - cbn [fill_matrix num_matchers_]. rewrite -(take_drop m bits).
    assert (length (take m bits) = m) as Hm by (rewrite length_take; lia).
    pose proof (fill_row_run (take m bits) (drop m bits) n m done rest i 0) as Hrow.
    rewrite Hm in Hrow. rewrite Hrow; [lia|rewrite Hr; lia|]. cbn [mbind option_bind].
    rewrite IH; [rewrite length_drop; lia|rewrite length_app Hm; lia|rewrite !length_drop; lia|].
    by rewrite -app_assoc.
Qed.

Lemma fill_new n m bits :
  length bits = (n * m)%nat →
  fill_matrix n 0 bits (new_matrix n m) = Some (MkMatrix n m (enc <$> bits)).
Proof.
  intros Hb. apply (fill_matrix_run n n m bits []); [done..|]. by rewrite length_replicate.
Qed.

Lemma edges_matched g : matrix_ok g → edges g = (λ c, c =? 1) <$> matched_ g.
Proof.
  destruct g as [n m cs]. intros [Hl _]. cbn in Hl. apply list_eq. intros k. unfold edges. cbn.
  set (f := λ i, (λ j, default false (HasEdge (MkMatrix n m cs) i j)) <$> seq 0 m).
  assert (∀ i, length (f i) = m) as Hf by (intros i; by rewrite /f length_fmap length_seq).
  destruct (decide (k < n * m)%nat) as [Hk|Hk]; last first.
  { rewrite !lookup_ge_None_2 ?length_fmap ?(rows_length _ m) ?length_seq //; lia. }
  assert (m ≠ 0)%nat as Hm by (intros ->; lia).
  pose proof (Nat.div_mod k m Hm) as Hdiv. pose proof (Nat.mod_upper_bound k m Hm) as Hmod.
  assert (k / m < n)%nat as Hi by (apply Nat.Div0.div_lt_upper_bound; lia).
  replace k with (k / m * m + k mod m)%nat at 1 by lia.
  rewrite (rows_lookup f m _ _ _ (k / m)%nat) //; [by rewrite lookup_seq_lt|].
  unfold f. rewrite list_lookup_fmap lookup_seq_lt // /= list_lookup_fmap.
  unfold HasEdge, SpaceIndex. cbn. replace (k / m * m + k mod m)%nat with k by lia.
  destruct (lookup_lt_is_Some_2 cs k) as [c ->]; [lia|]. done.
Qed.

Lemma edges_length g : length (edges g) = (num_elements_ g * num_matchers_ g)%nat.
Proof.
  unfold edges. rewrite (rows_length _ (num_matchers_ g)) ?length_seq //.
  intros i. by rewrite length_fmap length_seq.
Qed.

(** C36. The match matrix stores its edges without confusing two of them: filling a
    matrix row by row and reading it gives the edges back, reading a matrix and filling
    a new one gives the matrix back, and SetEdge changes the edge it names and no other
    of the matrix. *)
Theorem match_matrix_roundtrip g n m bits i j b :
  matrix_ok g → length bits = (n * m)%nat → (i < num_elements_ g)%nat → (j < num_matchers_ g)%nat →
  (∃ g', fill_matrix n 0 bits (new_matrix n m) = Some g' ∧ matrix_ok g' ∧ edges g' = bits ∧
     ∀ i' j', HasEdge g' i' j' = bits !! (i' * m + j')%nat) ∧
  fill_matrix (num_elements_ g) 0 (edges g) (new_matrix (num_elements_ g) (num_matchers_ g)) = Some g ∧
  (∃ g', SetEdge g i j b = Some g' ∧ matrix_ok g' ∧ HasEdge g' i j = Some b ∧
     ∀ i' j', (j' < num_matchers_ g)%nat → (i', j') ≠ (i, j) → HasEdge g' i' j' = HasEdge g i' j').
Proof.
  intros Hok Hb Hi Hj. split_and!.
  - rewrite fill_new //. eexists. split; [done|]. split; [by apply matrix_ok_enc|].
    split; [|apply HasEdge_enc]. rewrite edges_matched; [by apply matrix_ok_enc|]. cbn.
    rewrite -list_fmap_compose -{2}(list_fmap_id bits). apply list_fmap_ext. intros ? []; done.
  - rewrite fill_new; [apply edges_length|]. rewrite edges_matched //. destruct g as [gn gm cs].
    destruct Hok as [_ Hc]. do 2 f_equal. cbn in *. induction Hc as [|c cs Hc _ IH]; [done|].
    cbn. rewrite IH. by destruct Hc as [-> | ->].
  - destruct Hok as [Hl Hc]. unfold SetEdge.
    assert (SpaceIndex g i j < length (matched_ g))%nat as Hlt by (rewrite Hl /SpaceIndex; nia).
    rewrite bool_decide_eq_true_2 //. eexists. split; [done|]. unfold HasEdge, SpaceIndex in *. cbn. split_and!.
    + split; cbn; [by rewrite length_insert|]. apply Forall_insert; [done|]. destruct b; auto.
    + rewrite list_lookup_insert_eq //. by destruct b.
    + intros i' j' Hj' Hne. rewrite list_lookup_insert_ne //. intros Heq. apply Hne.
      assert (i = i') as -> by nia. f_equal. lia.
Qed.

(** * Pairings and permutations *)

(** A list of matcher indices that pairs element i with matcher p !! i. *)
Definition pairing (g : MatchMatrix) (p : list nat) : Prop :=
  p ≡ₚ seq 0 (num_elements_ g) ∧ ∀ i j, p !! i = Some j → HasEdge g i j = Some true.

(** Every element has a matcher and every matcher an element. *)
Definition all_matched (g : MatchMatrix) : Prop :=
  (∀ i, (i < num_elements_ g)%nat → ∃ j, HasEdge g i j = Some true ∧ (j < num_matchers_ g)%nat) ∧
  (∀ j, (j < num_matchers_ g)%nat → ∃ i, HasEdge g i j = Some true ∧ (i < num_elements_ g)%nat).

(** The documented behaviour of the functions that are not in the header, on square
    matrices: FindPairing answers whether the elements can be paired with the
    matchers, and the check before it whether none of them is without a match; what
    they write follows what is there. *)
Class UnorderedLaws (lib : unordered_library) : Prop := {
  verify_law ds es g l :
    matrix_ok g → num_elements_ g = num_matchers_ g →
    (VerifyAllElementsAndMatchersAreMatched lib ds es g l).1 = true ↔ all_matched g;
  verify_listener ds g : ∃ b text, ∀ es l,
    VerifyAllElementsAndMatchersAreMatched lib ds es g l = (b, l << text es);
  pairing_law g l :
    matrix_ok g → num_elements_ g = num_matchers_ g →
    (FindPairing lib g l).1 = true ↔ ∃ p, pairing g p;
  pairing_listener g : ∃ b text, ∀ l, FindPairing lib g l = (b, l << text);
}.

Lemma pairing_all_matched g p : num_elements_ g = num_matchers_ g → pairing g p → all_matched g.
Proof.
  intros Hsq [Hp He].
  assert (length p = num_elements_ g) as Hlen by by rewrite Hp length_seq.
  split.
  - intros i Hi. destruct (lookup_lt_is_Some_2 p i) as [j Hj]; [lia|]. exists j. split; [by apply He|].
    assert (j ∈ p) as Hin by by eapply list_elem_of_lookup_2. rewrite Hp in Hin.
    apply elem_of_seq in Hin. lia.
  - intros j Hj. assert (j ∈ p) as [i Hi]%list_elem_of_lookup.
    { rewrite Hp. apply elem_of_seq. lia. }
    exists i. split; [by apply He|]. apply lookup_lt_Some in Hi. lia.
Qed.

Section matching.
Context {A B : Type} (R : A → B → Prop).
Implicit Types (xs : list A) (ms : list B).

Lemma Forall2_Permutation_r xs ms ms' :
  Forall2 R xs ms → ms ≡ₚ ms' → ∃ xs', xs ≡ₚ xs' ∧ Forall2 R xs' ms'.
Proof.
  intros HF Hp. revert xs HF. induction Hp as [|m ms ms' Hp IH|m m' ms|ms ms' ms'' _ IH1 _ IH2]; intros xs HF.
  - inversion HF; subst. by exists [].
  - apply Forall2_cons_inv_r in HF as (x & xs0 & Hx & HF & ->).
    destruct (IH _ HF) as (xs' & Hxs & HF'). exists (x :: xs'). split; [by apply Permutation_skip|by constructor].
  - apply Forall2_cons_inv_r in HF as (x & xs0 & Hx & HF & ->).
    apply Forall2_cons_inv_r in HF as (y & xs1 & Hy & HF & ->).
    exists (y :: x :: xs1). split; [apply Permutation_swap|].
    constructor; [done|by constructor].
  - destruct (IH1 _ HF) as (xs' & Hxs & HF'). destruct (IH2 _ HF') as (xs'' & Hxs' & HF'').
    exists xs''. split; [by etrans|done].
Qed.

Lemma lookups_seq ms : Some <$> ms = (λ j, ms !! j) <$> seq 0 (length ms).
Proof.
  apply list_eq. intros i. rewrite !list_lookup_fmap.
  destruct (decide (i < length ms)%nat) as [Hi|Hi].
  - rewrite lookup_seq_lt //=. by destruct (lookup_lt_is_Some_2 ms i Hi) as [m ->].
  - rewrite !lookup_ge_None_2 ?length_seq //; lia.
Qed.

(** A way to choose each matcher once is a permutation of the matchers. *)
Lemma choose_permutation ms p :
  p ≡ₚ seq 0 (length ms) → ∃ ms', ms' ≡ₚ ms ∧ length ms' = length ms ∧ ∀ i j, p !! i = Some j → ms' !! i = ms !! j.
Proof.
  intros Hp. assert (∀ q k, (∀ j, j ∈ q → is_Some (ms !! j)) → k = length q →
    ∃ ms', (λ j, ms !! j) <$> q = Some <$> ms' ∧ length ms' = k) as Hall.
  { intros q. induction q as [|j q IH]; intros k Hq ->; [by exists []|].
    destruct (Hq j) as [m Hm]; [apply list_elem_of_here|].
    destruct (IH (length q)) as (ms' & Hms' & Hl); [|done|].
    { intros j' Hj'. apply Hq. by apply list_elem_of_further. }
    exists (m :: ms'). cbn. by rewrite Hm Hms' Hl. }
  pose proof (lookups_seq ms) as Hms.
  destruct (Hall p (length ms)) as (ms' & Hms' & Hl).
  { intros j Hj. rewrite Hp in Hj. apply elem_of_seq in Hj. apply lookup_lt_is_Some_2. lia. }
  { by rewrite Hp length_seq. }
  exists ms'. split_and!; [|done|].
  - assert (Some <$> ms' ≡ₚ Some <$> ms) as H by by rewrite -Hms' Hms Hp.
    apply (omap_Permutation id) in H. assert (∀ l : list B, omap id (Some <$> l) = l) as Hid.
    { intros l. induction l as [|x l IH]; [done|]. cbn. by rewrite IH. }
    by rewrite !Hid in H.
  - intros i j Hij. apply (f_equal (.!! i)) in Hms'. rewrite !list_lookup_fmap Hij /= in Hms'.
    destruct (ms' !! i); [by injection Hms' as ->|done].
Qed.

(** A permutation of the matchers chooses each of them once. *)
Lemma permutation_choice ms ms' :
  ms' ≡ₚ ms → ∃ p, p ≡ₚ seq 0 (length ms) ∧ ∀ i j, p !! i = Some j → ms' !! i = ms !! j.
Proof.
  intros Hp. pose proof (lookups_seq ms) as Hms.
  assert (Some <$> ms' ≡ₚ (λ j, ms !! j) <$> seq 0 (length ms)) as (p & Hmsp & Hpp)%Permutation_map_inv
    by by rewrite -Hms Hp.
  exists p. split; [by symmetry|]. intros i j Hij. apply (f_equal (.!! i)) in Hmsp.
  change (map (λ j, ms !! j) p) with ((λ j, ms !! j) <$> p) in Hmsp.
  rewrite !list_lookup_fmap Hij /= in Hmsp. destruct (ms' !! i); [by injection Hmsp as ->|done].
Qed.
End matching.

(** * The unordered matchers *)

Section unordered_lemmas.
Context (lib : unordered_library) {LAWS : UnorderedLaws lib} {Element : Type} (print : Element → string).
Implicit Types (ms : list (MatcherInterface Element)) (xs : list Element).

(** The answers of all matchers for all elements, row by row. *)
Definition answers ms xs : list bool := xs ≫= λ x, (λ m, Matches m x) <$> ms.

Lemma fold_push ms x did : fold_left (λ did m, did ++ [Matches m x]) ms did = did ++ ((λ m, Matches m x) <$> ms).
Proof.
  revert did. induction ms as [|m ms IH]; intros did; cbn; [by rewrite app_nil_r|].
  by rewrite IH -app_assoc.
Qed.

Lemma analyze_loop_run interested ms xs printed did n :
  analyze_loop print interested ms xs printed did n =
    (printed ++ (if interested then print <$> xs else []), did ++ answers ms xs, (n + length xs)%nat).
Proof.
  revert printed did n. induction xs as [|x xs IH]; intros printed did n; cbn.
  - rewrite Nat.add_0_r !app_nil_r. by destruct interested; rewrite ?app_nil_r.
  - rewrite IH fold_push -app_assoc. f_equal; [f_equal|lia]. destruct interested; [|done].
    by rewrite -app_assoc.
Qed.

Definition answer_matrix ms xs : MatchMatrix := MkMatrix (length xs) (length ms) (enc <$> answers ms xs).

Lemma answers_length ms xs : length (answers ms xs) = (length xs * length ms)%nat.
Proof. apply rows_length. intros x. by rewrite length_fmap. Qed.

Lemma analyze_elements_run interested ms xs :
  AnalyzeElements print interested ms xs =
    (if interested then print <$> xs else [], Some (answer_matrix ms xs)).
Proof.
  unfold AnalyzeElements. rewrite analyze_loop_run /=. f_equal. apply fill_new, answers_length.
Qed.

Lemma answer_matrix_ok ms xs : matrix_ok (answer_matrix ms xs).
Proof. apply matrix_ok_enc, answers_length. Qed.

(** Edge (i, j) tells whether matcher j matches element i. *)
Lemma answer_edge ms xs i j x m :
  xs !! i = Some x → ms !! j = Some m → HasEdge (answer_matrix ms xs) i j = Some (Matches m x).
Proof.
  intros Hx Hm. unfold answer_matrix. rewrite HasEdge_enc.
  unfold answers. rewrite (rows_lookup _ (length ms) _ _ _ x) //.
  - intros y. by rewrite length_fmap.
  - by apply lookup_lt_Some in Hm.
  - by rewrite list_lookup_fmap Hm.
Qed.

Notation all_match := (Forall2 (λ m x, Matches m x = true)).

Lemma pairing_permutation ms xs :
  length xs = length ms →
  (∃ p, pairing (answer_matrix ms xs) p) ↔ ∃ ys, ys ≡ₚ xs ∧ all_match ms ys.
Proof.
  intros Hlen. split.
  - intros (p & Hp & He). cbn in Hp. rewrite Hlen in Hp.
    destruct (choose_permutation ms p Hp) as (ms' & Hms & Hl & Hlook).
    assert (Forall2 (λ x m, Matches m x = true) xs ms') as HF.
    { apply Forall2_same_length_lookup_2; [by rewrite Hl|]. intros i x m Hx Hm.
      destruct (lookup_lt_is_Some_2 p i) as [j Hj].
      { rewrite Hp length_seq -Hlen. by apply lookup_lt_Some in Hx. }
      rewrite (Hlook i j Hj) in Hm. specialize (He i j Hj).
      rewrite (answer_edge ms xs i j x m) // in He. by injection He. }
    destruct (Forall2_Permutation_r _ _ _ _ HF Hms) as (ys & Hys & HF').
    exists ys. split; [by symmetry|by apply Forall2_flip].
  - intros (ys & Hys & HF). apply Forall2_flip in HF.
    apply Forall2_flip in HF.
    destruct (Forall2_Permutation_r (λ m x, Matches m x = true) ms ys xs HF Hys) as (ms' & Hms & HF').
    destruct (permutation_choice ms ms') as (p & Hp & Hlook); [by symmetry|].
    exists p. split; [by rewrite /= Hlen|]. intros i j Hij.
    assert (i < length xs)%nat as Hi.
    { apply lookup_lt_Some in Hij. by rewrite Hp length_seq -Hlen in Hij. }
    destruct (lookup_lt_is_Some_2 xs i Hi) as [x Hx].
    destruct (Forall2_lookup_r _ _ _ _ _ HF' Hx) as (m & Hm & Hmx).
    pose proof Hm as Hm'. rewrite (Hlook i j Hij) in Hm'.
    by rewrite (answer_edge ms xs i j x m) // Hmx.
Qed.

Lemma unordered_match_run ms xs l :
  unordered_match lib print ms xs l =
    if bool_decide (xs = []) && bool_decide (ms = []) then (true, l)
    else if negb (bool_decide (length xs = length ms)) then
      (false, if negb (bool_decide (xs = [])) then l << "which has " << ElementsU (length xs) else l)
    else
      let '(verified, l) := VerifyAllElementsAndMatchersAreMatched lib (describer <$> ms)
        (if IsInterested l then print <$> xs else []) (answer_matrix ms xs) l in
      if verified then FindPairing lib (answer_matrix ms xs) l else (false, l).
Proof.
  unfold unordered_match. rewrite analyze_elements_run. lazy beta zeta iota.
  change (LhsSize (answer_matrix ms xs)) with (length xs).
  assert (bool_decide (length xs = 0%nat) = bool_decide (xs = [])) as ->
    by (apply bool_decide_ext; by destruct xs).
  case_match; [done|]. case_match; [|done]. apply (f_equal (pair false)).
  destruct l as [os|]; cbn [IsInterested]; [by rewrite andb_true_r|].
  rewrite andb_false_r. by case_match.
Qed.

Lemma unordered_matches ms xs :
  Matches (UnorderedElementsAreMatcherImpl lib print ms) xs = true ↔
    ∃ ys, ys ≡ₚ xs ∧ all_match ms ys.
Proof.
  unfold Matches at 1. cbn [MatchAndExplain UnorderedElementsAreMatcherImpl]. rewrite unordered_match_run.
  destruct (decide (length xs = length ms)) as [Hlen|Hlen]; last first.
  { rewrite (bool_decide_eq_false_2 (length xs = length ms)) //.
    destruct (bool_decide (xs = []) && bool_decide (ms = [])) eqn:Hnil; cbn.
    - apply andb_true_iff in Hnil as [->%bool_decide_eq_true ->%bool_decide_eq_true]. done.
    - split; [done|]. intros (ys & Hys & HF). exfalso. apply Hlen.
      by rewrite -Hys (Forall2_length _ _ _ HF). }
  rewrite (bool_decide_eq_true_2 (length xs = length ms)) //. cbn [negb].
  case_match eqn:Hnil.
  { apply andb_true_iff in Hnil as [->%bool_decide_eq_true ->%bool_decide_eq_true].
    split; [|done]. intros _. by exists []. }
  cbn [IsInterested DummyMatchResultListener].
  pose proof (verify_law (describer <$> ms) [] (answer_matrix ms xs) None (answer_matrix_ok ms xs) Hlen) as Hv.
  pose proof (λ l, pairing_law (answer_matrix ms xs) l (answer_matrix_ok ms xs) Hlen) as Hp.
  rewrite -(pairing_permutation ms xs Hlen).
  destruct (VerifyAllElementsAndMatchersAreMatched _ _ _ _ _) as [[] l']; cbn in Hv |- *; [apply Hp|].
  split; [done|]. intros [p Hpp]. apply Hv. by eapply pairing_all_matched.
Qed.

#[export] Instance unordered_lawful ms : Lawful (UnorderedElementsAreMatcherImpl lib print ms).
Proof.
  apply lawful_at. intros xs. cbn.
  destruct (verify_listener (describer <$> ms) (answer_matrix ms xs)) as (b & text & Hv).
  destruct (pairing_listener (answer_matrix ms xs)) as (b' & text' & Hp).
  setoid_rewrite unordered_match_run. case_match.
  { exists true, EmptyString. intros l. by rewrite out_empty. }
  case_match.
  { exists false. case_match; [|exists EmptyString; intros l; by rewrite out_empty].
    eexists. intros l. by rewrite out_app. }
  exists (b && b'), (text (print <$> xs) +:+ (if b then text' else EmptyString)).
  intros l. rewrite Hv. destruct l as [os|], b; cbn; rewrite ?Hp ?string_app_nil_r //.
  by rewrite string_app_assoc.
Qed.
End unordered_lemmas.

(** * Pointwise *)

Section pointwise_lemmas.
Context {L R : Type} (print_l : L → string) (print_r : R → string) (print_rhs : list R → string).
Context (m : MatcherInterface (L * R)) {LM : Lawful m}.
Notation pointwise := (PointwiseMatcher print_l print_r print_rhs m).

(** The first pair that does not match, from index [i]. *)
Fixpoint first_mismatch (i : nat) (xs : list L) (ys : list R) : option (nat * L * R) :=
  match xs, ys with
  | x :: xs, y :: ys => if Matches m (x, y) then first_mismatch (S i) xs ys else Some (i, x, y)
  | _, _ => None
  end.

Definition mismatch_text (i : nat) (x : L) (y : R) : string :=
  "where the value pair (" +:+ print_l x +:+ ", " +:+ print_r y +:+ ") at index #" +:+ pretty i +:+
  " don't match" +:+ if_not_empty (explanation m (x, y)).

Lemma pointwise_loop_run i xs ys l :
  pointwise_loop print_l print_r m i xs ys l =
    match first_mismatch i xs ys with
    | Some (j, x, y) => (false, l << mismatch_text j x y)
    | None => (true, l)
    end.
Proof.
  revert i ys. induction xs as [|x xs IH]; intros i [|y ys]; cbn -[mismatch_text]; try done.
  rewrite match_string_eq. destruct l as [os|]; cbn -[mismatch_text]; destruct (Matches m (x, y));
    cbn -[mismatch_text]; try apply IH; [|done].
  rewrite print_if_not_empty. f_equal. unfold mismatch_text. cbn. by rewrite -!string_app_assoc.
Qed.

Lemma first_mismatch_None i xs ys :
  length xs = length ys → first_mismatch i xs ys = None ↔ Forall2 (λ x y, Matches m (x, y) = true) xs ys.
Proof.
  revert i ys. induction xs as [|x xs IH]; intros i [|y ys] Hl; try done.
  cbn. rewrite Forall2_cons. injection Hl as Hl. destruct (Matches m (x, y)); [by rewrite IH; naive_solver|].
  naive_solver.
Qed.

Lemma pointwise_run rhs xs l :
  MatchAndExplain (pointwise rhs) xs l =
    if bool_decide (length xs = length rhs) then
      match first_mismatch 0 xs rhs with
      | Some (j, x, y) => (false, l << mismatch_text j x y)
      | None => (true, l)
      end
    else (false, l << ("which contains " +:+ pretty (length xs) +:+ " values")).
Proof. cbn -[mismatch_text]. rewrite pointwise_loop_run !out_app. by case_bool_decide. Qed.

Lemma pointwise_matches rhs xs :
  Matches (pointwise rhs) xs = true ↔ Forall2 (λ x y, Matches m (x, y) = true) xs rhs.
Proof.
  unfold Matches at 1. rewrite pointwise_run. case_bool_decide as Hlen.
  - rewrite -(first_mismatch_None 0) //. by destruct (first_mismatch 0 xs rhs) as [[[]]|].
  - split; [done|]. intros HF%Forall2_length. done.
Qed.

#[export] Instance pointwise_lawful rhs : Lawful (pointwise rhs).
Proof.
  apply lawful_at. intros xs. setoid_rewrite pointwise_run. case_bool_decide; [|by do 2 eexists].
  destruct (first_mismatch 0 xs rhs) as [[[j x] y]|]; [by do 2 eexists|].
  exists true, EmptyString. intros l. by rewrite out_empty.
Qed.

#[export] Instance bound_second_lawful y : Lawful (BoundSecondMatcher print_r m y).
Proof. intros x l. cbn. rewrite (lawful (x, y) l). done. Qed.

Lemma bound_matchers_eq ys done :
  bound_matchers print_r m ys done = done ++ (MatcherBindSecond print_r m <$> ys).
Proof.
  revert done. induction ys as [|y ys IH]; intros done; cbn; [by rewrite app_nil_r|].
  by rewrite IH -app_assoc.
Qed.
End pointwise_lemmas.

(** C29. UnorderedElementsAre matches a container exactly when ElementsAre, with the same
    matchers, matches some permutation of it, and UnorderedPointwise exactly when
    Pointwise does; neither depends on the order of the container, and the answer does
    not depend on the listener. *)
Theorem unordered_matches_permutations (lib : unordered_library) {LAWS : UnorderedLaws lib}
    {E L R : Type} (print : E → string) (print_l : L → string) (print_r : R → string)
    (print_rhs : list R → string) (ms : list (MatcherInterface E)) (m : MatcherInterface (L * R))
    (xs : list E) (lhs : list L) (rhs : list R) l :
  Forall Lawful ms → Lawful m →
  let unordered := UnorderedElementsAreMatcherImpl lib print ms in
  let unordered_pairs := UnorderedPointwise lib print_l print_r m rhs in
  (Matches unordered xs = true ↔ ∃ ys, ys ≡ₚ xs ∧ Matches (ElementsAreMatcherImpl ms) ys = true) ∧
  (Matches unordered_pairs lhs = true ↔
     ∃ ys, ys ≡ₚ lhs ∧ Matches (PointwiseMatcher print_l print_r print_rhs m rhs) ys = true) ∧
  (∀ ys, ys ≡ₚ xs → Matches unordered ys = Matches unordered xs) ∧
  (MatchAndExplain unordered xs l).1 = Matches unordered xs ∧
  (length xs ≠ length ms → xs ≠ [] →
   MatchAndExplain unordered xs l = (false, l << ("which has " +:+ ElementsU (length xs)))).
Proof.
  intros Hms Hm. cbn zeta. split_and!.
  - rewrite unordered_matches. by setoid_rewrite elements_are_matches.
  - unfold UnorderedPointwise, UnorderedElementsAreArrayMatcher.
    rewrite unordered_matches bound_matchers_eq app_nil_l.
    setoid_rewrite pointwise_matches; [|done]. setoid_rewrite Forall2_fmap_l.
    split; intros (ys & Hys & HF); exists ys; (split; [done|]); by apply Forall2_flip.
  - intros ys Hys. apply eq_true_iff_eq. rewrite !unordered_matches. by setoid_rewrite Hys.
  - by rewrite (lawful xs l).
  - intros Hlen Hne. cbn -[ElementsU]. rewrite unordered_match_run.
    by rewrite (bool_decide_eq_false_2 (xs = [])) // (bool_decide_eq_false_2 (length xs = _)) //= out_app.
Qed.

(** * ContainerEq *)

Section container_eq_lemmas.
Context {Element : Type} `{!EqDecision Element} (eqb : Element → Element → bool).
Context (eqb_spec : ∀ x y, eqb x y = true ↔ x = y).
Context (UniversalPrint : Element → string) (PrintContainer : list Element → string).
Implicit Types xs ys : list Element.

Lemma container_eqb_spec xs ys : container_eqb eqb xs ys = true ↔ xs = ys.
Proof.
  revert ys. induction xs as [|x xs IH]; intros [|y ys]; cbn; try done.
  rewrite andb_true_iff eqb_spec IH. naive_solver.
Qed.

Lemma ArrayAwareFind_spec xs x : ArrayAwareFind eqb xs x = bool_decide (x ∈ xs).
Proof.
  induction xs as [|y xs IH]; cbn.
  - symmetry. apply bool_decide_eq_false. apply not_elem_of_nil.
  - destruct (eqb y x) eqn:Hyx.
    + apply eqb_spec in Hyx as ->. symmetry. apply bool_decide_eq_true. apply list_elem_of_here.
    + rewrite IH. apply bool_decide_ext. rewrite elem_of_cons.
      assert (x ≠ y) by (intros ->; by rewrite (proj2 (eqb_spec y y)) in Hyx). naive_solver.
Qed.

(** The elements of [xs] that [other] does not have. *)
Definition missing_from (other xs : list Element) : list Element := filter (.∉ other) xs.

(** What a list of elements adds after a header. *)
Definition listed (header : string) (printed : bool) xs : string :=
  match xs with
  | [] => EmptyString
  | _ => (if printed then ", " else header) +:+ String.concat ", " (UniversalPrint <$> xs)
  end.

Lemma listed_cons header printed x xs :
  listed header printed (x :: xs) =
    (if printed then ", " else header) +:+ UniversalPrint x +:+ listed header true xs.
Proof. unfold listed. cbn. destruct xs; cbn; [by rewrite string_app_nil_r|done]. Qed.

Lemma print_missing_run header other xs printed os :
  print_missing UniversalPrint eqb header other xs printed os =
    (printed || bool_decide (missing_from other xs ≠ []),
     os +:+ listed header printed (missing_from other xs)).
Proof.
  revert printed os. induction xs as [|x xs IH]; intros printed os.
  - cbn. by rewrite orb_false_r string_app_nil_r.
  - cbn [print_missing]. rewrite ArrayAwareFind_spec. unfold missing_from in *. rewrite filter_cons.
    destruct (decide (x ∈ other)) as [Hx|Hx].
    + rewrite (bool_decide_eq_true_2 (x ∈ other)) // decide_False; [by intros Hn|]. apply IH.
    + rewrite (bool_decide_eq_false_2 (x ∈ other)) // decide_True //. cbn [negb].
      rewrite IH listed_cons. f_equal.
      * rewrite (bool_decide_eq_true_2 (_ :: _ ≠ [])) // orb_true_r. done.
      * by rewrite -!string_app_assoc.
Qed.

(** ContainerEq matches exactly the equal containers; for another one it lists, to
    a listener that is interested, the elements that only one of the two containers
    has, in order and with their repetitions, and nothing when both have the same. *)
Theorem container_eq_explains (expected lhs : list Element) l :
  let m := ContainerEqMatcher UniversalPrint PrintContainer eqb expected in
  let unexpected := missing_from expected lhs in
  let missing := missing_from lhs expected in
  (Matches m lhs = true ↔ lhs = expected) ∧
  (lhs = expected → MatchAndExplain m lhs l = (true, l)) ∧
  (lhs ≠ expected →
   MatchAndExplain m lhs l =
     (false, l << (listed "which has these unexpected elements: " false unexpected +:+
        listed ((if bool_decide (unexpected = []) then "which" else "," +:+ nl +:+ "and") +:+
                " doesn't have these expected elements: ") false missing))).
Proof.
  cbn zeta. assert (∀ k, MatchAndExplain (ContainerEqMatcher UniversalPrint PrintContainer eqb expected) lhs k =
    if bool_decide (lhs = expected) then (true, k) else
    (false, k << (listed "which has these unexpected elements: " false (missing_from expected lhs) +:+
        listed ((if bool_decide (missing_from expected lhs = []) then "which" else "," +:+ nl +:+ "and") +:+
                " doesn't have these expected elements: ") false (missing_from lhs expected)))) as Hrun.
  { intros k. cbn. assert (container_eqb eqb lhs expected = bool_decide (lhs = expected)) as ->.
    { apply eq_true_iff_eq. rewrite container_eqb_spec. by rewrite bool_decide_eq_true. }
    case_bool_decide; [done|]. destruct k as [os|]; [|done]. rewrite !print_missing_run orb_false_l.
    cbn. rewrite -string_app_assoc. by destruct (missing_from expected lhs). }
  split_and!.
  - unfold Matches. rewrite Hrun. by case_bool_decide.
  - intros Heq. by rewrite Hrun bool_decide_eq_true_2.
  - intros Hne. by rewrite Hrun bool_decide_eq_false_2.
Qed.
End container_eq_lemmas.

(** * WhenSortedBy *)

Section sorted_lemmas.
Context {Element : Type} (print : list Element → string).
Context (sort : (Element → Element → bool) → list Element → list Element).
Context (m : MatcherInterface (list Element)) {LM : Lawful m}.

#[export] Instance when_sorted_lawful lt : Lawful (WhenSortedByMatcher print sort lt m).
Proof.
  apply (lawful_of _ (λ xs, Matches m (sort lt xs))
    (λ xs, "which is " +:+ print (sort lt xs) +:+ " when sorted" +:+ if_not_empty (explanation m (sort lt xs)))).
  intros xs [os|]; cbn -[if_not_empty]; [|done].
  rewrite match_string_eq print_if_not_empty. cbn -[if_not_empty]. by rewrite -!string_app_assoc.
Qed.

(** std::sort by a strict total order permutes its range into increasing order; so
    the order of the container does not matter. *)
Lemma when_sorted_order_free (lt : Element → Element → bool) xs ys :
  (∀ l, sort lt l ≡ₚ l ∧ StronglySorted (λ x y, lt y x = false) (sort lt l)) →
  (∀ x y, lt x y = false → lt y x = false → x = y) →
  xs ≡ₚ ys →
  Matches (WhenSortedByMatcher print sort lt m) xs = Matches (WhenSortedByMatcher print sort lt m) ys.
Proof.
  intros Hsort Hanti Hp. unfold Matches. cbn. f_equal.
  destruct (Hsort xs) as [Hpx Hsx]. destruct (Hsort ys) as [Hpy Hsy].
  assert (sort lt xs = sort lt ys) as ->; [|done].
  assert (sort lt xs ≡ₚ sort lt ys) as Hs by by rewrite Hpx Hpy.
  revert Hs Hsx Hsy. generalize (sort lt xs) (sort lt ys). clear -Hanti.
  intros l k Hp Hl Hk. assert (AntiSymm (=) (λ x y, lt y x = false)) as Ha by (intros x y ??; by apply Hanti).
  by apply (StronglySorted_unique (λ x y, lt y x = false)).
Qed.
End sorted_lemmas.

(** * Concrete matchers *)

Definition edge (g : MatchMatrix) (i j : nat) : bool := default false (HasEdge g i j).

(** A pairing is looked for among all permutations. *)
Definition sample_unordered : unordered_library := {|
  DescribeToImpl ds := String.concat " and " ds.*1;
  DescribeNegationToImpl ds := String.concat " or " ds.*2;
  VerifyAllElementsAndMatchersAreMatched _ _ g l :=
    (forallb (λ i, existsb (edge g i) (seq 0 (num_matchers_ g))) (seq 0 (num_elements_ g)) &&
     forallb (λ j, existsb (λ i, edge g i j) (seq 0 (num_elements_ g))) (seq 0 (num_matchers_ g)), l);
  FindPairing g l :=
    (existsb (λ p, forallb (λ ij, edge g ij.1 ij.2) (imap pair p)) (permutations (seq 0 (num_elements_ g))), l);
|}.

Lemma edge_true g i j : edge g i j = true ↔ HasEdge g i j = Some true.
Proof. unfold edge. by destruct (HasEdge g i j) as [[]|]. Qed.

Lemma existsb_seq f n : existsb f (seq 0 n) = true ↔ ∃ i, f i = true ∧ (i < n)%nat.
Proof.
  rewrite existsb_exists. setoid_rewrite in_seq.
  split; [intros (i & Hi & Hf)|intros (i & Hf & Hi)]; exists i; (split; [done || lia|done || lia]).
Qed.

Lemma forallb_seq f n : forallb f (seq 0 n) = true ↔ ∀ i, (i < n)%nat → f i = true.
Proof.
  rewrite forallb_forall. setoid_rewrite in_seq. split; intros Hf i Hi; apply Hf; lia.
Qed.

Lemma forallb_imap (f : nat → nat → bool) p :
  forallb (λ ij, f ij.1 ij.2) (imap pair p) = true ↔ ∀ i j, p !! i = Some j → f i j = true.
Proof.
  rewrite forallb_forall. split.
  - intros Hf i j Hij. apply (Hf (i, j)). apply list_elem_of_In, list_elem_of_lookup.
    exists i. by rewrite list_lookup_imap Hij.
  - intros Hf [i j] Hin. apply list_elem_of_In, list_elem_of_lookup in Hin as [k Hk].
    rewrite list_lookup_imap in Hk. destruct (p !! k) eqn:Hpk; [|done]. injection Hk as <- <-. by apply Hf.
Qed.

#[local] Instance sample_unordered_laws : UnorderedLaws sample_unordered.
Proof.
  split.
  - intros ds es g l _ _. cbn. rewrite andb_true_iff !forallb_seq. unfold all_matched.
    setoid_rewrite existsb_seq. by setoid_rewrite edge_true.
  - intros ds g. eexists _, (λ _, EmptyString). intros es l. cbn. by rewrite out_empty.
  - intros g l _ _. cbn. rewrite existsb_exists. unfold pairing.
    setoid_rewrite forallb_imap. setoid_rewrite edge_true.
    setoid_rewrite <-list_elem_of_In. setoid_rewrite permutations_Permutation.
    split; intros (p & Hp & He); exists p; (split; [by symmetry|done]).
  - intros g. eexists _, EmptyString. intros l. cbn. by rewrite out_empty.
Qed.

Definition less_2 : MatcherInterface Z := LtMatcher print_int 2.
Definition any_int : MatcherInterface Z := A.
Definition sum_is (n : Z) : MatcherInterface (Z * Z) := TrulyMatcher (λ p, p.1 + p.2 =? n).
Definition print_ints (l : list Z) : string := String.concat "," (print_int <$> l).

Example unordered_needs_pairing :
  Matches (UnorderedElementsAreMatcherImpl sample_unordered print_int [any_int; less_2]) [1; 7] = true ∧
  Matches (ElementsAreMatcherImpl [any_int; less_2]) [1; 7] = false ∧
  Matches (UnorderedElementsAreMatcherImpl sample_unordered print_int [less_2; less_2]) [1; 7] = false.
Proof. vm_compute. done. Qed.

Lemma unordered_matches_permutations_witness :
  let unordered := UnorderedElementsAreMatcherImpl sample_unordered print_int [any_int; less_2] in
  let unordered_pairs := UnorderedPointwise sample_unordered print_int print_int (sum_is 9) [8; 2] in
  (Matches unordered [1; 7] = true ↔
     ∃ ys, ys ≡ₚ [1; 7] ∧ Matches (ElementsAreMatcherImpl [any_int; less_2]) ys = true) ∧
  (Matches unordered_pairs [7; 1] = true ↔
     ∃ ys, ys ≡ₚ [7; 1] ∧ Matches (PointwiseMatcher print_int print_int print_ints (sum_is 9) [8; 2]) ys = true) ∧
  (∀ ys, ys ≡ₚ [1; 7] → Matches unordered ys = Matches unordered [1; 7]) ∧
  (MatchAndExplain unordered [1; 7] None).1 = Matches unordered [1; 7] ∧
  (length [1; 7] ≠ length [any_int; less_2] → [1; 7] ≠ [] →
   MatchAndExplain unordered [1; 7] None = (false, None << ("which has " +:+ ElementsU (length [1; 7])))).
Proof.
  apply (unordered_matches_permutations sample_unordered print_int print_int print_int print_ints
    [any_int; less_2] (sum_is 9) [1; 7] [7; 1] [8; 2] None).
  - apply Forall_cons; split; [apply A_lawful|]. apply Forall_singleton, comparison_lawful.
  - apply truly_lawful.
Defined.

Definition sample_matrix : MatchMatrix := MkMatrix 2 3 [0; 1; 0; 1; 1; 0].

Lemma match_matrix_roundtrip_witness :
  (∃ g', fill_matrix 2 0 [true; false; false; true] (new_matrix 2 2) = Some g' ∧ matrix_ok g' ∧
     edges g' = [true; false; false; true] ∧
     ∀ i' j', HasEdge g' i' j' = [true; false; false; true] !! (i' * 2 + j')%nat) ∧
  fill_matrix 2 0 (edges sample_matrix) (new_matrix 2 3) = Some sample_matrix ∧
  (∃ g', SetEdge sample_matrix 1 2 true = Some g' ∧ matrix_ok g' ∧ HasEdge g' 1 2 = Some true ∧
     ∀ i' j', (j' < 3)%nat → (i', j') ≠ (1, 2)%nat → HasEdge g' i' j' = HasEdge sample_matrix i' j').
Proof.
  apply (match_matrix_roundtrip sample_matrix 2 2 [true; false; false; true] 1 2 true).
  - split; [reflexivity|vm_decide].
  - reflexivity.
  - cbn. lia.
  - cbn. lia.
Defined.

Lemma container_eq_explains_witness :
  let m := ContainerEqMatcher print_int print_ints Z.eqb [1; 2] in
  (Matches m [2; 3; 3] = true ↔ [2; 3; 3] = [1; 2]) ∧
  ([2; 3; 3] = [1; 2] → MatchAndExplain m [2; 3; 3] (Some EmptyString) = (true, Some EmptyString)) ∧
  ([2; 3; 3] ≠ [1; 2] →
   MatchAndExplain m [2; 3; 3] (Some EmptyString) =
     (false, Some EmptyString <<
       (listed print_int "which has these unexpected elements: " false (missing_from [1; 2] [2; 3; 3]) +:+
        listed print_int ((if bool_decide (missing_from [1; 2] [2; 3; 3] = []) then "which" else "," +:+ nl +:+ "and") +:+
                " doesn't have these expected elements: ") false (missing_from [2; 3; 3] [1; 2])))).
Proof. apply (container_eq_explains Z.eqb Z.eqb_eq print_int print_ints [1; 2] [2; 3; 3] (Some EmptyString)). Defined.
