(* ===== verification/MatcherTypes.v ===== *)
(** The matcher objects of the bundled mock library
    (src/gtest/include/gmock/gmock-matchers.h): the types of what its functions return
    (EqMatcher, NotMatcher, BothOfMatcher, ElementsAreMatcher, ...), their conversions to
    Matcher<T>, the casts between matchers, and those functions.

    Matcher<T> is [MatcherInterface T]. An object that converts to Matcher<T> for some
    types T has instances of [ToMatcher]; what the compiler finds for MatcherCast<T>(m)
    is an instance of [MatcherCast]. Programs that do not compile have no instance.
    A type stands for itself with const and reference modifiers. *)

From stdpp Require Import pretty.
From S2P Require Import Prelude Tuples Printers Assertions Matchers ContainerMatchers.
#[local] Open Scope Z_scope.
#[local] Open Scope listener_scope.

(** * What the types of values bring *)

(** ImplicitCast_<T>(v): the implicit conversion of an S to a T. *)
Class ImplicitCast (S T : Type) : Type := ImplicitCast_ : S → T.
#[global] Hint Mode ImplicitCast + + : typeclass_instances.
#[export] Instance implicit_same T : ImplicitCast T T := λ x, x.
#[export] Instance implicit_static S T `{!ImplicitCast S T} : StaticCast S T | 5 := ImplicitCast_.

(** D::Desc() and D::NegatedDesc() of EqMatcher, NeMatcher, ..., whose functors AnyEq,
    AnyNe, ... apply the operator found for their arguments ([Operator]). *)
Definition Desc (op : operator) : string :=
  match op with
  | OpEq => "is equal to" | OpNe => "isn't equal to" | OpLt => "is <"
  | OpGt => "is >" | OpLe => "is <=" | OpGe => "is >="
  end.
Definition NegatedDesc (op : operator) : string :=
  match op with
  | OpEq => "isn't equal to" | OpNe => "is equal to" | OpLt => "isn't <"
  | OpGt => "isn't >" | OpLe => "isn't <=" | OpGe => "isn't >="
  end.

(** D::Desc() of Eq2Matcher, Ne2Matcher, ... *)
Definition Desc2 (op : operator) : string :=
  match op with
  | OpEq => "an equal pair" | OpNe => "an unequal pair"
  | OpLt => "a pair where the first < the second" | OpGt => "a pair where the first > the second"
  | OpLe => "a pair where the first <= the second" | OpGe => "a pair where the first >= the second"
  end.

(** * Conversions and casts *)

(** operator Matcher<T>() of an object of type M. *)
Class ToMatcher (M T : Type) : Type := to_matcher : M → MatcherInterface T.
#[global] Hint Mode ToMatcher + + : typeclass_instances.

(** EqMatcher<Rhs>, ..., GeMatcher<Rhs>: ComparisonBase<D, Rhs, Op>. *)
Record ComparisonMatcher (op : operator) (Rhs : Type) : Type := MkComparison { rhs_ : Rhs }.
Arguments MkComparison {op Rhs} _.
Arguments rhs_ {op Rhs} _.
#[export] Instance comparison_to_matcher op Lhs Rhs `{!Operator op Lhs Rhs, !UniversalPrinter Rhs} :
    ToMatcher (ComparisonMatcher op Rhs) Lhs := λ m,
  ComparisonBase (apply_operator (op:=op)) (Desc op) (NegatedDesc op) UniversalPrint (rhs_ m).

Definition Eq {T} (x : T) : ComparisonMatcher OpEq T := MkComparison x.

(** Matcher<T>::Matcher(T value). *)
Definition Matcher_value {T} `{!Operator OpEq T T, !UniversalPrinter T} (value : T) : MatcherInterface T :=
  to_matcher (Eq value).

(** MatcherCastImpl<T, Matcher<U> >::Impl. *)
Definition MatcherCastImpl {T U} `{!StaticCast T U} (source_matcher_ : MatcherInterface U)
    : MatcherInterface T :=
  MkMatcher (λ x l, MatchAndExplain source_matcher_ (static_cast x : U) l)
    (DescribeTo source_matcher_) (DescribeNegationTo source_matcher_).

(** MatcherCast<T>(m): MatcherCastImpl<T, M>::Cast(m), for a matcher of the same type,
    a matcher of another type, an object that converts to Matcher<T>, and a value. *)
Class MatcherCast (T M : Type) : Type := matcher_cast : M → MatcherInterface T.
#[global] Hint Mode MatcherCast + + : typeclass_instances.
#[export] Instance cast_same T : MatcherCast T (MatcherInterface T) | 0 := λ matcher, matcher.
#[export] Instance cast_matcher T U `{!StaticCast T U} : MatcherCast T (MatcherInterface U) | 1 :=
  MatcherCastImpl.
#[export] Instance cast_polymorphic T M `{!ToMatcher M T} : MatcherCast T M | 2 :=
  λ polymorphic_matcher, to_matcher polymorphic_matcher.
#[export] Instance cast_value T M `{!ImplicitCast M T, !Operator OpEq T T, !UniversalPrinter T} :
    MatcherCast T M | 3 := λ value, Matcher_value (ImplicitCast_ value : T).

(** SafeMatcherCast<T>(m): it casts the same way; what it asserts of the types it
    asserts at compile time. *)
Definition SafeMatcherCast {M} (T : Type) `{!MatcherCast T M} (polymorphic_matcher : M)
    : MatcherInterface T := matcher_cast polymorphic_matcher.

(** PolymorphicMatcher<Impl>: an Impl has members that describe it, and a template
    member MatchAndExplain. *)
Class MatcherDescriptions (Impl : Type) : Type := {
  impl_DescribeTo : Impl → string;
  impl_DescribeNegationTo : Impl → string;
}.
Class MatchTemplate (Impl T : Type) : Type :=
  impl_MatchAndExplain : Impl → T → MatchResultListener → bool * MatchResultListener.
#[global] Hint Mode MatchTemplate + + : typeclass_instances.

Record PolymorphicMatcher (Impl : Type) : Type := MkPolymorphic { impl_ : Impl }.
Arguments MkPolymorphic {Impl} _.
Arguments impl_ {Impl} _.
Definition MakePolymorphicMatcher {Impl} (impl : Impl) : PolymorphicMatcher Impl := MkPolymorphic impl.

Definition MonomorphicImpl {Impl T} `{!MatcherDescriptions Impl, !MatchTemplate Impl T} (impl : Impl)
    : MatcherInterface T :=
  MkMatcher (impl_MatchAndExplain impl) (impl_DescribeTo impl) (impl_DescribeNegationTo impl).
#[export] Instance polymorphic_to_matcher Impl T `{!MatcherDescriptions Impl, !MatchTemplate Impl T} :
    ToMatcher (PolymorphicMatcher Impl) T := λ m, MonomorphicImpl (impl_ m).

(** * Tuples of matchers *)

(** TransformTupleValuesHelper::IterateOverTuple: [*out++ = f(get<i>(t))] for each
    field; [f] is the functor at the types of the fields. *)
Fixpoint IterateOverTuple {R : Type} {Ts : list Type} (f : each1 (λ T, T → R) Ts)
    : tuple Ts → list R → list R :=
  match f with
  | each1_nil => λ _ out, out
  | each1_cons f0 f => λ t out, IterateOverTuple f (snd t) (out ++ [f0 (fst t)])
  end.
Definition TransformTupleValues {R : Type} {Ts : list Type} (f : each1 (λ T, T → R) Ts)
    (t : tuple Ts) (out : list R) : list R := IterateOverTuple f t out.

(** CastAndAppendTransform<Target>, at each type of a list. *)
Definition CastAndAppendTransform {Target : Type} {Ms : list Type} (C : each1 (MatcherCast Target) Ms)
    : each1 (λ M, M → MatcherInterface Target) Ms := C.

(** The vector that a conversion operator makes of the tuple of its object. *)
Definition cast_matchers {Target : Type} {Ms : list Type} {C : each1 (MatcherCast Target) Ms}
    (matchers_ : tuple Ms) : list (MatcherInterface Target) :=
  TransformTupleValues (CastAndAppendTransform C) matchers_ [].

(** ElementsAreMatcher<MatcherTuple> and UnorderedElementsAreMatcher<MatcherTuple>. *)
Record ElementsAreMatcher (Ms : list Type) : Type := MkElementsAre { ordered_matchers : tuple Ms }.
Arguments MkElementsAre {Ms} _.
Arguments ordered_matchers {Ms} _.
#[export] Instance elements_are_to_matcher Ms E {C : each1 (MatcherCast E) Ms} :
    ToMatcher (ElementsAreMatcher Ms) (list E) := λ m,
  ElementsAreMatcherImpl (cast_matchers (C:=C) (ordered_matchers m)).

Existing Class unordered_library.

Record UnorderedElementsAreMatcher (Ms : list Type) : Type :=
  MkUnorderedElementsAre { unordered_matchers : tuple Ms }.
Arguments MkUnorderedElementsAre {Ms} _.
Arguments unordered_matchers {Ms} _.
#[export] Instance unordered_to_matcher {lib : unordered_library} Ms E
    {C : each1 (MatcherCast E) Ms} `{!UniversalPrinter E} :
    ToMatcher (UnorderedElementsAreMatcher Ms) (list E) := λ m,
  UnorderedElementsAreMatcherImpl lib UniversalPrint (cast_matchers (C:=C) (unordered_matchers m)).

(** ElementsAreArrayMatcher<T> and UnorderedElementsAreArrayMatcher<T>. *)
Record ElementsAreArrayMatcher (M : Type) : Type := MkElementsAreArray { array_matchers : list M }.
Arguments MkElementsAreArray {M} _.
Arguments array_matchers {M} _.
#[export] Instance elements_are_array_to_matcher M E `{!MatcherCast E M} :
    ToMatcher (ElementsAreArrayMatcher M) (list E) := λ m,
  ElementsAreMatcherImpl (matcher_cast <$> array_matchers m).

Record UnorderedElementsAreArrayMatcher (M : Type) : Type :=
  MkUnorderedElementsAreArray { unordered_array_matchers : list M }.
Arguments MkUnorderedElementsAreArray {M} _.
Arguments unordered_array_matchers {M} _.
#[export] Instance unordered_array_to_matcher {lib : unordered_library} M E
    `{!MatcherCast E M, !UniversalPrinter E} :
    ToMatcher (UnorderedElementsAreArrayMatcher M) (list E) := λ m,
  UnorderedElementsAreMatcherImpl lib UniversalPrint (matcher_cast <$> unordered_array_matchers m).

(** * Combinators *)

(** AnythingMatcher, whose object is _. *)
Inductive AnythingMatcher : Set := anything.
#[export] Instance anything_to_matcher T : ToMatcher AnythingMatcher T := λ _, Matchers.A.

Inductive NotMatcher (M : Type) : Type := MkNot (matcher_ : M).
Arguments MkNot {M} _.
#[export] Instance not_to_matcher M T `{!MatcherCast T M} : ToMatcher (NotMatcher M) T := λ '(MkNot matcher_),
  NotMatcherImpl (SafeMatcherCast T matcher_).

Inductive BothOfMatcher (M1 M2 : Type) : Type := MkBothOf (matcher1_ : M1) (matcher2_ : M2).
Arguments MkBothOf {M1 M2} _ _.
#[export] Instance both_of_to_matcher M1 M2 T `{!MatcherCast T M1, !MatcherCast T M2} :
    ToMatcher (BothOfMatcher M1 M2) T := λ '(MkBothOf matcher1_ matcher2_),
  BothOfMatcherImpl (SafeMatcherCast T matcher1_) (SafeMatcherCast T matcher2_).

Inductive EitherOfMatcher (M1 M2 : Type) : Type := MkEitherOf (matcher1_ : M1) (matcher2_ : M2).
Arguments MkEitherOf {M1 M2} _ _.
#[export] Instance either_of_to_matcher M1 M2 T `{!MatcherCast T M1, !MatcherCast T M2} :
    ToMatcher (EitherOfMatcher M1 M2) T := λ '(MkEitherOf matcher1_ matcher2_),
  EitherOfMatcherImpl (SafeMatcherCast T matcher1_) (SafeMatcherCast T matcher2_).

(** VariadicMatcher<CombiningMatcher, Args...>, on the list its MatcherList makes; it
    converts when it has two matchers or more. *)
Inductive combining : Set := BothOf | EitherOf.
Definition CombiningMatcher (c : combining) {T} : MatcherInterface T → MatcherInterface T → MatcherInterface T :=
  match c with BothOf => BothOfMatcherImpl | EitherOf => EitherOfMatcherImpl end.

Inductive VariadicMatcher (c : combining) (Ms : list Type) : Type := MkVariadic (matchers_ : tuple Ms).
Arguments MkVariadic {c Ms} _.
#[export] Instance variadic_to_matcher c M1 M2 Ms T
    `{!MatcherCast T M1, !MatcherCast T M2} {C : each1 (MatcherCast T) Ms} :
    ToMatcher (VariadicMatcher c (M1 :: M2 :: Ms)) T := λ '(MkVariadic (m1, (m2, ms))),
  CreateMatcher (CombiningMatcher c) (SafeMatcherCast T m1) (SafeMatcherCast T m2) (cast_matchers (C:=C) ms).

(** * Matchers of pairs and containers *)

Inductive KeyMatcher (M : Type) : Type := MkKey (matcher_for_key_ : M).
Arguments MkKey {M} _.
#[export] Instance key_to_matcher M K V `{!MatcherCast K M} : ToMatcher (KeyMatcher M) (K * V) := λ '(MkKey m),
  KeyMatcherImpl (SafeMatcherCast K m).

Inductive PairMatcher (M1 M2 : Type) : Type := MkPair (first_matcher_ : M1) (second_matcher_ : M2).
Arguments MkPair {M1 M2} _ _.
#[export] Instance pair_to_matcher M1 M2 K V `{!MatcherCast K M1, !MatcherCast V M2} :
    ToMatcher (PairMatcher M1 M2) (K * V) := λ '(MkPair m1 m2),
  PairMatcherImpl (SafeMatcherCast K m1) (SafeMatcherCast V m2).

Inductive ContainsMatcher (M : Type) : Type := MkContains (inner_matcher_ : M).
Arguments MkContains {M} _.
#[export] Instance contains_to_matcher M E `{!MatcherCast E M} : ToMatcher (ContainsMatcher M) (list E) :=
  λ '(MkContains m), ContainsMatcherImpl (SafeMatcherCast E m).

Inductive EachMatcher (M : Type) : Type := MkEach (inner_matcher_ : M).
Arguments MkEach {M} _.
#[export] Instance each_to_matcher M E `{!MatcherCast E M} : ToMatcher (EachMatcher M) (list E) :=
  λ '(MkEach m), EachMatcherImpl (SafeMatcherCast E m).

Inductive SizeIsMatcher (M : Type) : Type := MkSizeIs (size_matcher_ : M).
Arguments MkSizeIs {M} _.
#[export] Instance size_is_to_matcher M E `{!MatcherCast nat M} : ToMatcher (SizeIsMatcher M) (list E) :=
  λ '(MkSizeIs m), Matchers.SizeIsMatcher (matcher_cast m).

Inductive BeginEndDistanceIsMatcher (M : Type) : Type := MkDistanceIs (distance_matcher_ : M).
Arguments MkDistanceIs {M} _.
#[export] Instance distance_is_to_matcher M E `{!MatcherCast Z M} :
    ToMatcher (BeginEndDistanceIsMatcher M) (list E) :=
  λ '(MkDistanceIs m), ContainerMatchers.BeginEndDistanceIsMatcher (matcher_cast m).

(** ContainerEqMatcher<Container>; operator== of the containers compares their
    elements. *)
Inductive ContainerEqMatcher (E : Type) : Type := MkContainerEq (expected_ : list E).
Arguments MkContainerEq {E} _.
#[export] Instance container_eq_descriptions E `{!UniversalPrinter (list E)} :
    MatcherDescriptions (ContainerEqMatcher E) := {
  impl_DescribeTo '(MkContainerEq expected_) := "equals " +:+ UniversalPrint expected_;
  impl_DescribeNegationTo '(MkContainerEq expected_) := "does not equal " +:+ UniversalPrint expected_;
}.
#[export] Instance container_eq_match E `{!Operator OpEq E E, !UniversalPrinter E, !UniversalPrinter (list E)} :
    MatchTemplate (ContainerEqMatcher E) (list E) := λ '(MkContainerEq expected_),
  MatchAndExplain (ContainerMatchers.ContainerEqMatcher UniversalPrint UniversalPrint
    (apply_operator (op:=OpEq)) expected_).

(** std::sort of a range with a comparator. *)
Class StdSort : Type := std_sort : ∀ E : Type, (E → E → bool) → list E → list E.

Inductive WhenSortedByMatcher (E M : Type) : Type := MkWhenSortedBy (comparator_ : E → E → bool) (matcher_ : M).
Arguments MkWhenSortedBy {E M} _ _.
#[export] Instance when_sorted_to_matcher `{!StdSort} E M `{!MatcherCast (list E) M, !UniversalPrinter (list E)} :
    ToMatcher (WhenSortedByMatcher E M) (list E) := λ '(MkWhenSortedBy comparator_ matcher_),
  ContainerMatchers.WhenSortedByMatcher UniversalPrint (std_sort E) comparator_ (matcher_cast matcher_).

Inductive PointwiseMatcher (M R : Type) : Type := MkPointwise (tuple_matcher_ : M) (rhs_ : list R).
Arguments MkPointwise {M R} _ _.
#[export] Instance pointwise_to_matcher M L R
    `{!MatcherCast (L * R) M, !UniversalPrinter L, !UniversalPrinter R, !UniversalPrinter (list R)} :
    ToMatcher (PointwiseMatcher M R) (list L) := λ '(MkPointwise tuple_matcher_ rhs_),
  ContainerMatchers.PointwiseMatcher UniversalPrint UniversalPrint UniversalPrint
    (SafeMatcherCast (L * R) tuple_matcher_) rhs_.

Inductive BoundSecondMatcher (M S : Type) : Type := MkBoundSecond (tuple2_matcher_ : M) (second_value_ : S).
Arguments MkBoundSecond {M S} _ _.
#[export] Instance bound_second_to_matcher M S T `{!MatcherCast (T * S) M, !UniversalPrinter S} :
    ToMatcher (BoundSecondMatcher M S) T := λ '(MkBoundSecond tm second),
  ContainerMatchers.BoundSecondMatcher UniversalPrint (SafeMatcherCast (T * S) tm) second.

(** The matchers of a 2-tuple: PairMatchBase<D, Op>. *)
Inductive Comparison2Matcher (op : operator) : Set := MkComparison2.
Arguments MkComparison2 {op}.
#[export] Instance comparison2_to_matcher op T1 T2 `{!Operator op T1 T2} :
    ToMatcher (Comparison2Matcher op) (T1 * T2) := λ _, PairMatchBase (apply_operator (op:=op)) (Desc2 op).

Inductive TrulyMatcher (T : Type) : Type := MkTruly (predicate_ : T → bool).
Arguments MkTruly {T} _.
#[export] Instance truly_descriptions T : MatcherDescriptions (TrulyMatcher T) := {
  impl_DescribeTo _ := "satisfies the given predicate";
  impl_DescribeNegationTo _ := "doesn't satisfy the given predicate";
}.
#[export] Instance truly_match T : MatchTemplate (TrulyMatcher T) T := λ '(MkTruly predicate_),
  MatchAndExplain (Matchers.TrulyMatcher predicate_).

(** * The functions *)

Definition An {T} : MatcherInterface T := Matchers.A.
Definition TypedEq (Lhs : Type) {Rhs} `{!Operator OpEq Lhs Rhs, !UniversalPrinter Rhs} (rhs : Rhs) :
  MatcherInterface Lhs := to_matcher (Eq rhs).
Definition Ge {Rhs} (x : Rhs) : ComparisonMatcher OpGe Rhs := MkComparison x.
Definition Gt {Rhs} (x : Rhs) : ComparisonMatcher OpGt Rhs := MkComparison x.
Definition Le {Rhs} (x : Rhs) : ComparisonMatcher OpLe Rhs := MkComparison x.
Definition Lt {Rhs} (x : Rhs) : ComparisonMatcher OpLt Rhs := MkComparison x.
Definition Ne {Rhs} (x : Rhs) : ComparisonMatcher OpNe Rhs := MkComparison x.

(** Eq(), Ge(), ..., without an argument. *)
Definition Eq2 : Comparison2Matcher OpEq := MkComparison2.
Definition Ge2 : Comparison2Matcher OpGe := MkComparison2.
Definition Gt2 : Comparison2Matcher OpGt := MkComparison2.
Definition Le2 : Comparison2Matcher OpLe := MkComparison2.
Definition Lt2 : Comparison2Matcher OpLt := MkComparison2.
Definition Ne2 : Comparison2Matcher OpNe := MkComparison2.

Definition Not {M} (m : M) : NotMatcher M := MkNot m.
Definition Truly {T} (pred : T → bool) : PolymorphicMatcher (TrulyMatcher T) :=
  MakePolymorphicMatcher (MkTruly pred).
Definition SizeIs {M} (size_matcher : M) : SizeIsMatcher M := MkSizeIs size_matcher.
Definition BeginEndDistanceIs {M} (distance_matcher : M) : BeginEndDistanceIsMatcher M :=
  MkDistanceIs distance_matcher.
Definition ContainerEq {E} (rhs : list E) : PolymorphicMatcher (ContainerEqMatcher E) :=
  MakePolymorphicMatcher (MkContainerEq rhs).
Definition WhenSortedBy {E M} (comparator : E → E → bool) (container_matcher : M) : WhenSortedByMatcher E M :=
  MkWhenSortedBy comparator container_matcher.
Definition LessComparator {T U} `{!Operator OpLt T U} (lhs : T) (rhs : U) : bool :=
  apply_operator (op:=OpLt) lhs rhs.
Definition WhenSorted {E M} `{!Operator OpLt E E} (container_matcher : M) : WhenSortedByMatcher E M :=
  MkWhenSortedBy LessComparator container_matcher.
Definition Pointwise {M R} (tuple_matcher : M) (rhs : list R) : PointwiseMatcher M R :=
  MkPointwise tuple_matcher rhs.
Definition MatcherBindSecond {M S} (tm : M) (second : S) : BoundSecondMatcher M S := MkBoundSecond tm second.
Definition Contains {M} (matcher : M) : ContainsMatcher M := MkContains matcher.
Definition Each {M} (matcher : M) : EachMatcher M := MkEach matcher.
Definition Key {M} (inner_matcher : M) : KeyMatcher M := MkKey inner_matcher.
Definition Pair {M1 M2} (first_matcher : M1) (second_matcher : M2) : PairMatcher M1 M2 :=
  MkPair first_matcher second_matcher.
Definition AllArgs {M} (matcher : M) : M := matcher.

(** ElementsAreArray(first, last) and its overloads for an array, a container and an
    initializer list, on the sequence of their elements. *)
Definition ElementsAreArray {M} (elements : list M) : ElementsAreArrayMatcher M := MkElementsAreArray elements.
Definition UnorderedElementsAreArray {M} (elements : list M) : UnorderedElementsAreArrayMatcher M :=
  MkUnorderedElementsAreArray elements.

(** The loop of UnorderedPointwise over the elements of the right container. *)
Fixpoint bound_seconds {M S} (tuple2_matcher : M) (it : list S) (matchers : list (BoundSecondMatcher M S))
    : list (BoundSecondMatcher M S) :=
  match it with
  | [] => matchers
  | y :: it => bound_seconds tuple2_matcher it (matchers ++ [MatcherBindSecond tuple2_matcher y])
  end.
Definition UnorderedPointwise {M S} (tuple2_matcher : M) (rhs_container : list S) :
    UnorderedElementsAreArrayMatcher (BoundSecondMatcher M S) :=
  UnorderedElementsAreArray (bound_seconds tuple2_matcher rhs_container []).

(** AllOf(matchers...) and AnyOf(matchers...) of C++11. *)
Definition AllOf (Ms : list Type) : curried Ms (VariadicMatcher BothOf Ms) := curry_tuple Ms MkVariadic.
Definition AnyOf (Ms : list Type) : curried Ms (VariadicMatcher EitherOf Ms) := curry_tuple Ms MkVariadic.

(** Matches(m), a predicate (MatcherAsPredicate<M>), Value(value, m) and
    ExplainMatchResult(m, value, listener). *)
Inductive MatcherAsPredicate (M : Type) : Type := MkPredicate (matcher_ : M).
Arguments MkPredicate {M} _.
Definition call_predicate {M T} `{!MatcherCast T M} (p : MatcherAsPredicate M) (x : T) : bool :=
  let '(MkPredicate matcher_) := p in Matchers.Matches (matcher_cast matcher_) x.
Definition Matches {M} (matcher : M) : MatcherAsPredicate M := MkPredicate matcher.
Definition Value {T M} `{!MatcherCast T M} (value : T) (matcher : M) : bool :=
  call_predicate (Matches matcher) value.
Definition ExplainMatchResult {M T} `{!MatcherCast T M} (matcher : M) (value : T) (listener : MatchResultListener)
    : bool * MatchResultListener :=
  MatchAndExplain (SafeMatcherCast T matcher) value listener.

(** * Casts of lawful matchers *)

#[local] Arguments String.append : simpl never.

Lemma matcher_cast_run {T U} `{!StaticCast T U} (m : MatcherInterface U) (x : T) l :
  MatchAndExplain (MatcherCastImpl m) x l = MatchAndExplain m (static_cast x) l.
Proof. done. Qed.

#[export] Instance cast_impl_lawful {T U} `{!StaticCast T U} (m : MatcherInterface U) `{!Lawful m} :
  Lawful (MatcherCastImpl (T:=T) m).
Proof. intros x l. exact (lawful (m:=m) (static_cast x) l). Qed.

#[export] Instance comparison_matcher_lawful op Lhs Rhs `{!Operator op Lhs Rhs, !UniversalPrinter Rhs}
    (m : ComparisonMatcher op Rhs) : Lawful (to_matcher (T:=Lhs) m).
Proof. apply comparison_lawful. Qed.

#[export] Instance anything_lawful T : Lawful (to_matcher (T:=T) anything).
Proof. apply A_lawful. Qed.

(** The members of a cast tuple, in order. *)
Lemma IterateOverTuple_out {R Ts} (f : each1 (λ T, T → R) Ts) t out :
  IterateOverTuple f t out = out ++ IterateOverTuple f t [].
Proof.
  revert out. induction f as [|T Ts f0 f IH]; intros out; simpl; [by rewrite app_nil_r|].
  by rewrite IH (IH (snd t) [f0 (fst t)]) -app_assoc.
Qed.

Lemma cast_matchers_cons {T M Ms} (c : MatcherCast T M) (C : each1 (MatcherCast T) Ms) m (ms : tuple Ms) :
  cast_matchers (C:=each1_cons c C) ((m, ms) : tuple (M :: Ms)) = c m :: cast_matchers (C:=C) ms.
Proof. exact (IterateOverTuple_out (CastAndAppendTransform C) ms [c m]). Qed.

Lemma cast_matchers_length {T Ms} (C : each1 (MatcherCast T) Ms) (ms : tuple Ms) :
  length (cast_matchers (C:=C) ms) = length Ms.
Proof.
  induction C as [|M Ms c C IH]; [done|]. destruct ms as [m ms]. by rewrite cast_matchers_cons /= IH.
Qed.

(** bound_seconds makes a matcher for each element, in order. *)
Lemma bound_seconds_map {M S} (tm : M) (ys : list S) ms :
  bound_seconds tm ys ms = ms ++ (MatcherBindSecond tm <$> ys).
Proof.
  revert ms. induction ys as [|y ys IH]; intros ms; simpl; [by rewrite app_nil_r|].
  by rewrite IH -app_assoc.
Qed.

(** * Matchers as predicates *)

#[local] Notation "m ∋ x" := (call_predicate (Matches m) x) (at level 70, no associativity).
#[local] Notation holds x := (λ m, Matchers.Matches m x).

Lemma forallb_Forall {A} (p : A → bool) xs : forallb p xs = true ↔ Forall (λ x, p x = true) xs.
Proof. by rewrite forallb_forall Forall_forall; setoid_rewrite list_elem_of_In. Qed.

Lemma existsb_Exists {A} (p : A → bool) xs : existsb p xs = true ↔ Exists (λ x, p x = true) xs.
Proof. by rewrite existsb_exists Exists_exists; setoid_rewrite list_elem_of_In. Qed.

Section predicates.
Context {T M : Type} `{!MatcherCast T M} (m : M) `{!Lawful (SafeMatcherCast T m)}.

Lemma not_predicate (x : T) : Not m ∋ x = negb (m ∋ x).
Proof. unfold call_predicate, Matches, Matchers.Matches. cbn. by rewrite (lawful x _). Qed.

Lemma each_predicate (xs : list T) : Each m ∋ xs = forallb (λ x, m ∋ x) xs.
Proof.
  apply eq_true_iff_eq. rewrite forallb_Forall. apply (quantify_matches (SafeMatcherCast T m) true xs).
Qed.

Lemma contains_predicate (xs : list T) : Contains m ∋ xs = existsb (λ x, m ∋ x) xs.
Proof.
  apply eq_true_iff_eq. rewrite existsb_Exists exists_not_all.
  assert ((Contains m ∋ xs) = fst (quantify (SafeMatcherCast T m) false 0 xs None)) as -> by done.
  rewrite -not_false_iff_true. f_equiv. apply quantify_matches, _.
Qed.

Lemma each_is_not_contains_not (xs : list T) : Each m ∋ xs = (Not (Contains (Not m)) ∋ xs).
Proof.
  rewrite each_predicate. unfold call_predicate, Matches, Matchers.Matches. cbn.
  apply eq_true_iff_eq. rewrite forallb_Forall.
  pose proof (quantify_matches (NotMatcherImpl (SafeMatcherCast T m)) false xs None) as Hq.
  unfold DummyMatchResultListener.
  destruct (quantify _ _ _ _ _) as [b l]. cbn in *. transitivity (b = false); [rewrite Hq|by destruct b].
  apply Forall_proper; [|done]. intros x. unfold Matchers.Matches at 1. rewrite not_run /=.
  symmetry. apply (negb_false_iff (Matchers.Matches (SafeMatcherCast T m) x)).
Qed.
End predicates.

Section combined_predicates.
Context {T M1 M2 : Type} {Ms : list Type} `{!MatcherCast T M1, !MatcherCast T M2} {C : each1 (MatcherCast T) Ms}.
Context (m1 : M1) (m2 : M2) (ms : tuple Ms).

Lemma variadic_predicates (x : T) :
  Lawful (SafeMatcherCast T m1) → Lawful (SafeMatcherCast T m2) → Forall Lawful (cast_matchers (C:=C) ms) →
  let all := SafeMatcherCast T m1 :: SafeMatcherCast T m2 :: cast_matchers (C:=C) ms in
  (uncurry_tuple _ (AllOf (M1 :: M2 :: Ms)) (m1, (m2, ms)) ∋ x) = forallb (holds x) all ∧
  (uncurry_tuple _ (AnyOf (M1 :: M2 :: Ms)) (m1, (m2, ms)) ∋ x) = existsb (holds x) all.
Proof.
  intros H1 H2 Hms all. unfold AllOf, AnyOf. rewrite !curry_uncurry. split; apply eq_true_iff_eq.
  - rewrite forallb_Forall -(combined_go false all x). cbn [negb].
    rewrite -(combined_Matches (AllOfMatcher (SafeMatcherCast T m1) (SafeMatcherCast T m2) (cast_matchers ms))) //.
    intros l. by apply all_of_run.
  - rewrite existsb_Exists -(combined_stop true all x).
    rewrite -(combined_Matches (AnyOfMatcher (SafeMatcherCast T m1) (SafeMatcherCast T m2) (cast_matchers ms))) //.
    intros l. by apply any_of_run.
Qed.

Lemma elements_are_predicate (xs : list T) :
  Forall Lawful (cast_matchers (C:=C) ms) →
  (MkElementsAre ms ∋ xs) = true ↔ Forall2 (λ m x, Matchers.Matches m x = true) (cast_matchers (C:=C) ms) xs.
Proof. apply elements_are_matches. Qed.
End combined_predicates.

(** What converts to a lawful matcher is cast to one, and so is a value. *)
#[export] Instance cast_polymorphic_lawful {T M} `{!ToMatcher M T} (m : M) :
  Lawful (to_matcher (T:=T) m) → Lawful (SafeMatcherCast T m).
Proof. done. Qed.
#[export] Instance cast_value_lawful {T M} `{!ImplicitCast M T, !Operator OpEq T T, !UniversalPrinter T} (v : M) :
  Lawful (SafeMatcherCast (MatcherCast0 := cast_value T M) T v).
Proof. apply comparison_lawful. Qed.
#[export] Instance to_not_lawful {T M} `{!MatcherCast T M} (m : M) :
  Lawful (SafeMatcherCast T m) → Lawful (to_matcher (T:=T) (Not m)).
Proof. intros H. exact (not_lawful (SafeMatcherCast T m)). Qed.

(** Matches(m) of a composite matcher, as a predicate: Not negates, AllOf and AnyOf
    are the conjunction and the disjunction of all their members, Each and Contains
    quantify over the elements, ElementsAre holds of a container with as many elements
    as it has members, each satisfying its own; and Each(m) is Not(Contains(Not(m))).
    Members may be matchers, objects that convert to one, or plain values. *)
Theorem matchers_as_predicates {T M1 M2 : Type} {Ms : list Type}
    `{!MatcherCast T M1, !MatcherCast T M2} {C : each1 (MatcherCast T) Ms}
    (m1 : M1) (m2 : M2) (ms : tuple Ms) (x : T) (xs : list T) :
  let members := SafeMatcherCast T m1 :: SafeMatcherCast T m2 :: cast_matchers (C:=C) ms in
  Forall Lawful members →
  (Not m1 ∋ x) = negb (m1 ∋ x) ∧
  (uncurry_tuple (M1 :: M2 :: Ms) (AllOf _) (m1, (m2, ms)) ∋ x) = forallb (holds x) members ∧
  (uncurry_tuple (M1 :: M2 :: Ms) (AnyOf _) (m1, (m2, ms)) ∋ x) = existsb (holds x) members ∧
  (Each m1 ∋ xs) = forallb (λ x, m1 ∋ x) xs ∧
  (Contains m1 ∋ xs) = existsb (λ x, m1 ∋ x) xs ∧
  (Each m1 ∋ xs) = (Not (Contains (Not m1)) ∋ xs) ∧
  ((MkElementsAre ((m1, (m2, ms)) : tuple (M1 :: M2 :: Ms)) ∋ xs) = true ↔
     Forall2 (λ m x, Matchers.Matches m x = true) members xs).
Proof.
  intros members Hl. pose proof Hl as (H1 & (H2 & Hms)%Forall_cons)%Forall_cons.
  destruct (variadic_predicates m1 m2 ms x H1 H2 Hms) as [Hall Hany].
  split_and!; [by apply not_predicate|done..|by apply each_predicate|by apply contains_predicate
    |by apply each_is_not_contains_not|].
  rewrite elements_are_predicate; rewrite !cast_matchers_cons; done.
Qed.

(** * A sample *)

#[local] Instance print_int : UniversalPrinter Z := pretty.

Lemma matchers_as_predicates_witness :
  let three := MkElementsAre ((Not (Gt 3), (Ne 0, (7, ()))) : tuple [_; _; Z : Type]) in
  (three ∋ [2; 5; 7]) = true ∧ (three ∋ [2; 0; 7]) = false.
Proof.
  assert (Forall Lawful (SafeMatcherCast Z (Not (Gt 3)) :: SafeMatcherCast Z (Ne 0) ::
    cast_matchers (Target:=Z) (Ms:=[Z : Type]) (7, ()))) as Hl.
  { repeat constructor; apply _. }
  pose proof (matchers_as_predicates (Ms:=[Z : Type]) (Not (Gt 3)) (Ne 0) (7, ()) 0 [2; 5; 7] Hl)
    as (_ & _ & _ & _ & _ & _ & [_ H]).
  split; [apply H; repeat constructor|reflexivity].
Defined.
