(* ===== verification/ArithmeticTypes.v ===== *)
(** The kinds of types and the lossless conversions of
    src/gtest/include/gmock/internal/gmock-internal-utils.h, and what SafeMatcherCast of
    gmock-matchers.h asserts with them before it casts a matcher between arithmetic types.

    The types are those of the host, x86_64: their sizes, and that char and wchar_t are
    signed. The values of a type are numbers m * 2^e, which integers are as well. *)

From S2P Require Import Prelude Matchers MatcherTypes.
#[local] Open Scope Z_scope.

(** * Types *)

(** A type without const and reference; the types that are not arithmetic by their size. *)
Inductive cpp_type : Set :=
  | TBool
  | TChar | TSignedChar | TUnsignedChar
  | TShort | TUnsignedShort
  | TInt | TUnsignedInt
  | TLong | TUnsignedLong
  | TWchar
  | TInt64 | TUInt64
  | TFloat | TDouble | TLongDouble
  | TOther (size : Z).
#[export] Instance cpp_type_eq_dec : EqDecision cpp_type.
Proof. solve_decision. Defined.

Definition sizeof (T : cpp_type) : Z :=
  match T with
  | TBool | TChar | TSignedChar | TUnsignedChar => 1
  | TShort | TUnsignedShort => 2
  | TInt | TUnsignedInt | TWchar | TFloat => 4
  | TLong | TUnsignedLong | TInt64 | TUInt64 | TDouble => 8
  | TLongDouble => 16
  | TOther size => size
  end.

Inductive TypeKind : Set := kBool | kInteger | kFloatingPoint | kOther.
#[export] Instance type_kind_eq_dec : EqDecision TypeKind.
Proof. solve_decision. Defined.

(** KindOf<T>::value, by its specializations. *)
Definition KindOf (T : cpp_type) : TypeKind :=
  match T with
  | TBool => kBool
  | TChar | TSignedChar | TUnsignedChar | TShort | TUnsignedShort | TInt | TUnsignedInt
  | TLong | TUnsignedLong | TWchar | TInt64 | TUInt64 => kInteger
  | TFloat | TDouble | TLongDouble => kFloatingPoint
  | TOther _ => kOther
  end.

(** static_cast<T>(z) of an integer, for bool and the integer types: the unsigned types
    keep the low bits, the signed ones read them as two's complement. *)
Definition cast_unsigned (T : cpp_type) (z : Z) : Z := z `mod` 2 ^ (8 * sizeof T).
Definition cast_signed (T : cpp_type) (z : Z) : Z :=
  (z + 2 ^ (8 * sizeof T - 1)) `mod` 2 ^ (8 * sizeof T) - 2 ^ (8 * sizeof T - 1).
Definition static_cast_integer (T : cpp_type) (z : Z) : Z :=
  match T with
  | TBool => if bool_decide (z = 0) then 0 else 1
  | TUnsignedChar | TUnsignedShort | TUnsignedInt | TUnsignedLong | TUInt64 => cast_unsigned T z
  | _ => cast_signed T z
  end.

(** GMOCK_IS_SIGNED_(T): static_cast<T>(-1) < 0. *)
Definition GMOCK_IS_SIGNED_ (T : cpp_type) : bool := static_cast_integer T (-1) <? 0.

(** * Lossless conversions *)

(** LosslessArithmeticConvertibleImpl<kFromKind, From, kToKind, To>::value, by its partial
    specializations; the unspecialized template is false. *)
Definition LosslessArithmeticConvertibleImpl
    (kFromKind : TypeKind) (From : cpp_type) (kToKind : TypeKind) (To : cpp_type) : bool :=
  match kFromKind, From, kToKind, To with
  | kBool, TBool, kBool, TBool => true
  | kBool, TBool, kInteger, _ => true
  | kBool, TBool, kFloatingPoint, _ => true
  | kInteger, _, kBool, TBool => false
  | kInteger, _, kInteger, _ =>
      ((sizeof From <? sizeof To) && (negb (GMOCK_IS_SIGNED_ From) || GMOCK_IS_SIGNED_ To)) ||
      ((sizeof From =? sizeof To) && eqb (GMOCK_IS_SIGNED_ From) (GMOCK_IS_SIGNED_ To))
  | kInteger, _, kFloatingPoint, _ => false
  | kFloatingPoint, _, kBool, TBool => false
  | kFloatingPoint, _, kInteger, _ => false
  | kFloatingPoint, _, kFloatingPoint, _ => sizeof From <=? sizeof To
  | _, _, _, _ => false
  end.

Definition LosslessArithmeticConvertible (From To : cpp_type) : bool :=
  LosslessArithmeticConvertibleImpl (KindOf From) From (KindOf To) To.

(** * SafeMatcherCast *)

(** A type with its modifiers: T, const T, T& or const T&. *)
Record modified_type : Type := Modified { raw_type : cpp_type; is_const : bool; is_reference : bool }.

(** remove_reference<T>::type, and GTEST_REMOVE_REFERENCE_AND_CONST_(T). *)
Definition remove_reference (T : modified_type) : modified_type := Modified (raw_type T) (is_const T) false.
Definition remove_reference_and_const (T : modified_type) : cpp_type := raw_type (remove_reference T).

(** The assertions of SafeMatcherCastImpl<T>::Cast(const Matcher<U>&), which compiles when
    they hold; what converts implicitly is the compiler's. *)
Definition SafeMatcherCastImpl_asserts (ImplicitlyConvertible : modified_type → modified_type → bool)
    (T U : modified_type) : bool :=
  let RawT := remove_reference_and_const T in
  let RawU := remove_reference_and_const U in
  let kTIsOther := bool_decide (KindOf RawT = kOther) in
  let kUIsOther := bool_decide (KindOf RawU = kOther) in
  ImplicitlyConvertible T U &&
  (is_reference T || negb (is_reference U)) &&
  (kTIsOther || kUIsOther || LosslessArithmeticConvertible RawT RawU).

(** The cast itself, between types whose values are integers: the source matcher gets
    static_cast<U>(x). *)
Definition SafeMatcherCast_integer (U : cpp_type) (m : MatcherInterface Z) : MatcherInterface Z :=
  MatcherCastImpl (StaticCast0 := static_cast_integer U) m.

(** * The numbers a type holds *)

(** The number m * 2^e. *)
Record number : Set := Number { significand : Z; exponent : Z }.
Definition same_number (x y : number) : Prop :=
  let e := Z.min (exponent x) (exponent y) in
  significand x * 2 ^ (exponent x - e) = significand y * 2 ^ (exponent y - e).
Definition integer (z : Z) : number := Number z 0.

(** A finite floating-point number: at most [digits] binary digits, and an exponent in
    the range. *)
Record float_format : Set := FloatFormat { digits : Z; min_exponent : Z; max_exponent : Z }.
Definition format_of (T : cpp_type) : float_format :=
  match T with
  | TFloat => FloatFormat 24 (-149) 104
  | TDouble => FloatFormat 53 (-1074) 971
  | _ => FloatFormat 64 (-16445) 16320
  end.
Definition in_format (f : float_format) (x : number) : Prop :=
  Z.abs (significand x) < 2 ^ digits f ∧ min_exponent f ≤ exponent x ≤ max_exponent f.

Definition is_signed (T : cpp_type) : bool :=
  match T with
  | TBool | TUnsignedChar | TUnsignedShort | TUnsignedInt | TUnsignedLong | TUInt64 => false
  | _ => true
  end.
Definition min_value (T : cpp_type) : Z := if is_signed T then - 2 ^ (8 * sizeof T - 1) else 0.
Definition max_value (T : cpp_type) : Z :=
  match T with
  | TBool => 1
  | _ => if is_signed T then 2 ^ (8 * sizeof T - 1) - 1 else 2 ^ (8 * sizeof T) - 1
  end.
Definition integer_of_type (T : cpp_type) (z : Z) : Prop := min_value T ≤ z ≤ max_value T.

(** x is the value of some T. *)
Definition holds (T : cpp_type) (x : number) : Prop :=
  match KindOf T with
  | kBool | kInteger => ∃ z, integer_of_type T z ∧ same_number x (integer z)
  | kFloatingPoint => ∃ y, in_format (format_of T) y ∧ same_number x y
  | kOther => False
  end.

(** Every number of From is one of To. *)
Definition encloses (To From : cpp_type) : Prop := ∀ x, holds From x → holds To x.

Lemma same_number_trans x y z : same_number x y → same_number y z → same_number x z.
Proof.
  unfold same_number. destruct x as [m e], y as [n f], z as [k g]; simpl. intros Hxy Hyz.
  set (b := Z.min e (Z.min f g)).
  assert (∀ a c, b ≤ c → c ≤ a → 2 ^ (a - b) = 2 ^ (a - c) * 2 ^ (c - b)) as Hsplit.
  { intros a c ? ?. rewrite -Z.pow_add_r; [lia..|]. f_equal. lia. }
  assert (m * 2 ^ (e - b) = n * 2 ^ (f - b)) as H1.
  { rewrite (Hsplit e (Z.min e f)) ?(Hsplit f (Z.min e f)); [lia..|]. rewrite !Z.mul_assoc. by rewrite Hxy. }
  assert (n * 2 ^ (f - b) = k * 2 ^ (g - b)) as H2.
  { rewrite (Hsplit f (Z.min f g)) ?(Hsplit g (Z.min f g)); [lia..|]. rewrite !Z.mul_assoc. by rewrite Hyz. }
  apply (Z.mul_reg_r _ _ (2 ^ (Z.min e g - b))); [apply Z.pow_nonzero; lia|].
  rewrite -!Z.mul_assoc -(Hsplit e) -?(Hsplit g); lia.
Qed.

Lemma same_number_refl x : same_number x x.
Proof. done. Qed.

Lemma same_number_sym x y : same_number x y → same_number y x.
Proof. unfold same_number. by rewrite Z.min_comm. Qed.

Lemma same_integer a b : same_number (integer a) (integer b) ↔ a = b.
Proof. unfold same_number. simpl. rewrite !Z.mul_1_r. done. Qed.

#[export] Instance same_number_equivalence : Equivalence same_number.
Proof. split; [exact same_number_refl|exact same_number_sym|exact same_number_trans]. Qed.

#[export] Instance holds_proper T : Proper (same_number ==> iff) (holds T).
Proof.
  intros x y Hxy. unfold holds.
  destruct (KindOf T); [..|done]; split; intros (z & Hz & Hx); exists z; split; try done;
    by rewrite -Hx ?Hxy ?Hx.
Qed.

Definition is_integral (T : cpp_type) : Prop := KindOf T = kBool ∨ KindOf T = kInteger.

Lemma holds_integer T z : is_integral T → holds T (integer z) ↔ integer_of_type T z.
Proof.
  intros HT. unfold holds.
  assert ((∃ w, integer_of_type T w ∧ same_number (integer z) (integer w)) ↔ integer_of_type T z) as Hz.
  { split; [intros (w & ? & <-%same_integer); done|]. intros ?. exists z. done. }
  by destruct HT as [-> | ->].
Qed.

(** Half a unit is a number of every floating-point type and of no integer type. *)
Definition half : number := Number 1 (-1).

Lemma half_float T : KindOf T = kFloatingPoint → holds T half.
Proof.
  intros HT. unfold holds. rewrite HT. exists half. split; [|done].
  destruct T; try done; by vm_compute.
Qed.

Lemma half_not_integral T : is_integral T → ¬ holds T half.
Proof.
  intros HT Hh. assert (∃ z, same_number half (integer z)) as [z Hz].
  { unfold holds in Hh. destruct HT as [HT|HT]; rewrite HT in Hh; naive_solver. }
  assert (1 * 2 ^ 0 = z * 2 ^ 1) by exact Hz. lia.
Qed.

(** * Ranges *)

Definition ranges_enclosed (To From : cpp_type) : Prop :=
  min_value To ≤ min_value From ∧ max_value From ≤ max_value To.
#[export] Instance ranges_enclosed_dec To From : Decision (ranges_enclosed To From).
Proof. unfold ranges_enclosed. apply _. Defined.

Lemma range_not_empty T : is_integral T → min_value T ≤ max_value T.
Proof. intros [HT|HT]; destruct T; try done; by vm_compute. Qed.

Lemma encloses_integral To From :
  is_integral To → is_integral From → encloses To From ↔ ranges_enclosed To From.
Proof.
  intros HTo HFrom. pose proof (range_not_empty From HFrom). split.
  - intros Henc.
    assert (∀ z, integer_of_type From z → integer_of_type To z) as Hz.
    { intros z. rewrite -!holds_integer //. apply Henc. }
    pose proof (Hz (min_value From)). pose proof (Hz (max_value From)).
    unfold integer_of_type, ranges_enclosed in *. lia.
  - intros Hr x Hx.
    assert (∃ z, integer_of_type From z ∧ same_number x (integer z)) as (z & Hz & ->).
    { unfold holds in Hx. destruct HFrom as [HF|HF]; by rewrite HF in Hx. }
    apply holds_integer; [done|]. unfold integer_of_type, ranges_enclosed in *. lia.
Qed.

Lemma lossless_integral From To :
  is_integral From → is_integral To →
  LosslessArithmeticConvertible From To = bool_decide (ranges_enclosed To From).
Proof.
  intros [HF|HF] [HT|HT]; destruct From; try discriminate HF; destruct To; try discriminate HT;
    by vm_compute.
Qed.

Lemma double_range T :
  is_integral T → 2 ^ (8 * sizeof T) = 2 * 2 ^ (8 * sizeof T - 1) ∧ 0 < 2 ^ (8 * sizeof T - 1).
Proof. intros [HT|HT]; destruct T; try discriminate HT; by vm_compute. Qed.

(** A cast ends in the range of the type, and does not move what is in it. *)
Lemma static_cast_integer_range T z : is_integral T → integer_of_type T (static_cast_integer T z).
Proof.
  intros HT. destruct (double_range T HT) as [Htwice Hpos].
  unfold integer_of_type, min_value, max_value, static_cast_integer, cast_unsigned, cast_signed.
  pose proof (Z.mod_pos_bound z (2 ^ (8 * sizeof T)) ltac:(lia)).
  pose proof (Z.mod_pos_bound (z + 2 ^ (8 * sizeof T - 1)) (2 ^ (8 * sizeof T)) ltac:(lia)).
  destruct HT as [HT|HT]; destruct T; try discriminate HT; cbn [is_signed]; [case_bool_decide; lia|lia..].
Qed.

Lemma static_cast_integer_same T z : is_integral T → integer_of_type T z → static_cast_integer T z = z.
Proof.
  intros HT. destruct (double_range T HT) as [Htwice Hpos].
  unfold integer_of_type, min_value, max_value, static_cast_integer, cast_unsigned, cast_signed.
  destruct HT as [HT|HT]; destruct T; try discriminate HT; cbn [is_signed]; intros Hz;
    [case_bool_decide; lia|rewrite Z.mod_small; lia..].
Qed.

Lemma casts_change_nothing To From :
  is_integral To → is_integral From →
  ranges_enclosed To From ↔ ∀ z, integer_of_type From z → static_cast_integer To z = z.
Proof.
  intros HTo HFrom. pose proof (range_not_empty From HFrom). split.
  - intros Hr z Hz. apply static_cast_integer_same; [done|].
    unfold integer_of_type, ranges_enclosed in *. lia.
  - intros Hz.
    assert (∀ z, integer_of_type From z → integer_of_type To z) as Hin.
    { intros z Hfrom. rewrite -(Hz z) //. by apply static_cast_integer_range. }
    pose proof (Hin (min_value From)). pose proof (Hin (max_value From)).
    unfold integer_of_type, ranges_enclosed in *. lia.
Qed.

(** * Floating-point formats *)

Definition format_enclosed (g f : float_format) : Prop :=
  digits f ≤ digits g ∧ min_exponent g ≤ min_exponent f ∧ max_exponent f ≤ max_exponent g.
#[export] Instance format_enclosed_dec g f : Decision (format_enclosed g f).
Proof. unfold format_enclosed. apply _. Defined.

Lemma in_format_mono f g x : format_enclosed g f → in_format f x → in_format g x.
Proof.
  intros (Hd & He1 & He2) [Hx He]. split; [|lia].
  apply (Z.lt_le_trans _ _ _ Hx), Z.pow_le_mono_r; lia.
Qed.

(** The largest power of two of a format is too large for one of smaller exponents. *)
Lemma too_large f g :
  0 < digits g → max_exponent g + digits g ≤ max_exponent f →
  ∀ y, in_format g y → ¬ same_number (Number 1 (max_exponent f)) y.
Proof.
  intros Hd Hfg [m e] [Hm He] Hsame. unfold same_number in Hsame. simpl in *.
  rewrite Z.min_r in Hsame; [lia|]. rewrite Z.sub_diag !Z.mul_1_r Z.mul_1_l in Hsame.
  assert (2 ^ digits g ≤ 2 ^ (max_exponent f - e)) by (apply Z.pow_le_mono_r; lia). lia.
Qed.

Lemma encloses_float To From :
  KindOf To = kFloatingPoint → KindOf From = kFloatingPoint →
  encloses To From ↔ sizeof From ≤ sizeof To.
Proof.
  intros HTo HFrom. unfold encloses, holds. rewrite HTo HFrom. split.
  - intros Henc. destruct (decide (sizeof From ≤ sizeof To)) as [|Hsize]; [done|exfalso].
    set (f := format_of From). set (g := format_of To).
    assert (0 < digits g ∧ max_exponent g + digits g ≤ max_exponent f) as [Hd Hfg].
    { subst f g. destruct To; try discriminate HTo; destruct From; try discriminate HFrom;
        by [vm_compute|destruct Hsize; vm_compute]. }
    destruct (Henc (Number 1 (max_exponent f))) as (y & Hy & Hsame).
    + exists (Number 1 (max_exponent f)). split; [|done]. subst f.
      destruct From; try discriminate HFrom; by vm_compute.
    + by apply (too_large f g Hd Hfg y).
  - intros Hsize x (y & Hy & Hx). exists y. split; [|done]. apply (in_format_mono (format_of From)); [|done].
    destruct To; try discriminate HTo; destruct From; try discriminate HFrom;
      first [by vm_compute|by destruct Hsize; vm_compute].
Qed.

(** * What SafeMatcherCast accepts *)

Definition is_arithmetic (T : cpp_type) : Prop := KindOf T ≠ kOther.
(** The conversions that are refused although some of them are lossless. *)
Definition integer_to_float (From To : cpp_type) : Prop := KindOf From = kInteger ∧ KindOf To = kFloatingPoint.

Lemma integer_value_float To : KindOf To = kFloatingPoint → encloses To TBool.
Proof.
  intros HTo x. rewrite /holds HTo. simpl. intros (z & Hz & Hx). exists (integer z). split; [|done].
  unfold integer_of_type, min_value, max_value in Hz. simpl in Hz.
  split; [|destruct To; try discriminate HTo; by vm_compute].
  apply (Z.le_lt_trans _ 1); [simpl; lia|]. destruct To; try discriminate HTo; by vm_compute.
Qed.

Lemma lossless_encloses From To :
  is_arithmetic From → is_arithmetic To →
  LosslessArithmeticConvertible From To = true ↔ encloses To From ∧ ¬ integer_to_float From To.
Proof.
  intros HFrom HTo. unfold integer_to_float.
  destruct (decide (KindOf From = kFloatingPoint)) as [HF|HF],
    (decide (KindOf To = kFloatingPoint)) as [HT|HT].
  - rewrite encloses_float // HF. rewrite -Z.leb_le.
    destruct From; try discriminate HF; destruct To; try discriminate HT; naive_solver.
  - assert (is_integral To) as Hi.
    { unfold is_integral, is_arithmetic in *. destruct (KindOf To); naive_solver. }
    split; [destruct From; try discriminate HF; destruct To; try discriminate HT; done|].
    intros [Henc _]. by destruct (half_not_integral To Hi (Henc half (half_float From HF))).
  - assert (From = TBool ∨ KindOf From = kInteger) as [-> |Hi].
    { unfold is_arithmetic in HFrom. destruct From; try done; auto. }
    + pose proof (integer_value_float To HT). destruct To; try discriminate HT; naive_solver.
    + rewrite Hi. destruct From; try discriminate Hi; destruct To; try discriminate HT; naive_solver.
  - assert (is_integral From ∧ is_integral To) as [Hi1 Hi2].
    { unfold is_integral, is_arithmetic in *. destruct (KindOf From), (KindOf To); naive_solver. }
    rewrite lossless_integral // bool_decide_eq_true encloses_integral //. naive_solver.
Qed.

(** C30. For arithmetic types T and U, of which T converts to U, SafeMatcherCast<T> of a
    Matcher<U> compiles exactly when every number of T is one of U, but never from an
    integer type to a floating-point type. Between integer types, bool among them, this
    is so exactly when static_cast<U> leaves every value of T as it is; the matcher it
    gives then answers and explains on each value of T as the given one does on the
    same number. *)
Theorem safe_casts_keep_numbers (converts : modified_type → modified_type → bool) (T U : modified_type) :
  is_arithmetic (raw_type T) → is_arithmetic (raw_type U) →
  converts T U = true → is_reference T = true ∨ is_reference U = false →
  let compiles := SafeMatcherCastImpl_asserts converts T U = true in
  (compiles ↔ encloses (raw_type U) (raw_type T) ∧ ¬ integer_to_float (raw_type T) (raw_type U)) ∧
  (is_integral (raw_type T) → is_integral (raw_type U) →
   (compiles ↔ ∀ x, integer_of_type (raw_type T) x → static_cast_integer (raw_type U) x = x) ∧
   (compiles → ∀ m x l, integer_of_type (raw_type T) x →
      MatchAndExplain (SafeMatcherCast_integer (raw_type U) m) x l = MatchAndExplain m x l)).
Proof.
  intros HT HU Hconv Href compiles.
  assert (compiles ↔ LosslessArithmeticConvertible (raw_type T) (raw_type U) = true) as Hc.
  { unfold compiles, SafeMatcherCastImpl_asserts, remove_reference_and_const. simpl. rewrite Hconv.
    rewrite !bool_decide_eq_false_2 //. by destruct Href as [-> | ->]; rewrite ?orb_true_r. }
  rewrite Hc. split; [by apply lossless_encloses|]. intros HiT HiU.
  rewrite lossless_integral // bool_decide_eq_true casts_change_nothing //. split; [done|].
  intros Hsame m x l Hx. unfold SafeMatcherCast_integer. by rewrite matcher_cast_run /static_cast Hsame.
Qed.

(** A Matcher<long> serves for int, a Matcher<unsigned> does not. *)
Lemma safe_casts_keep_numbers_witness :
  let T := Modified TInt true true in
  let long := Modified TLong false false in
  let unsigned := Modified TUnsignedInt false false in
  let compiles U := SafeMatcherCastImpl_asserts (λ _ _, true) T U = true in
  compiles long ∧ ¬ compiles unsigned ∧ (compiles long ↔ encloses TLong TInt ∧ ¬ integer_to_float TInt TLong) ∧
  (compiles unsigned ↔ ∀ x, integer_of_type TInt x → static_cast_integer TUnsignedInt x = x).
Proof.
  split; [reflexivity|]. split; [by vm_compute|]. split.
  - apply (safe_casts_keep_numbers (λ _ _, true) (Modified TInt true true) (Modified TLong false false));
      [by vm_compute|by vm_compute|reflexivity|by left].
  - apply (safe_casts_keep_numbers (λ _ _, true) (Modified TInt true true) (Modified TUnsignedInt false false));
      [by vm_compute|by vm_compute|reflexivity|by left|by right|by right].
Defined.
