(* ===== verification/StringMatchers.v ===== *)
(** The string matchers of the bundled mock library
    (src/gtest/include/gmock/gmock-matchers.h): StrEq and its variants with and without
    case, HasSubstr, StartsWith, EndsWith, MatchesRegex and ContainsRegex.

    They are templates over the type of strings; [BasicString] says what they use of it.
    The comparison of C strings up to case and the regular expressions, which the headers
    only declare, are the classes [CaseInsensitiveCStrings] and [RE_library]. *)

From S2P Require Import Prelude Mem Printers Assertions Matchers MatcherTypes.
#[local] Open Scope Z_scope.

(** * Strings *)

(** std::basic_string: its characters, which may include [nul]. *)
Class BasicString (S : Type) : Type := {
  value_type : Type;
  value_type_eq :: EqDecision value_type;
  nul : value_type;
  characters : S → list value_type;
}.

#[export] Instance narrow_string : BasicString string :=
  {| nul := NUL; characters := String.list_ascii_of_string |}.
#[export] Instance wide_string : BasicString wstring := {| nul := 0; characters := wide_text |}.

(** StringType(s), for a pointer s to the characters of a C string. *)
Class FromCString (c : character) (S : Type) : Type := from_c_string : string_type c → S.
#[global] Hint Mode FromCString + + : typeclass_instances.
#[export] Instance from_char : FromCString plain_char string := λ s, s.
#[export] Instance from_wchar : FromCString wide_char wstring := λ s, s.

Section members.
Context {C : Type} `{!EqDecision C}.
Implicit Types (s : list C).

(** s.find(c), with None for npos. *)
Fixpoint find_char (c : C) s : option nat :=
  match s with
  | [] => None
  | x :: s => if decide (x = c) then Some O else S <$> find_char c s
  end.

(** s.substr(pos, n) and s.substr(pos). *)
Definition substr s (pos n : nat) : list C := take n (drop pos s).
Definition substr_from s (pos : nat) : list C := drop pos s.

(** s.find(sub). *)
Fixpoint find_string (sub s : list C) : option nat :=
  if decide (substr s 0 (length sub) = sub) then Some O
  else match s with [] => None | _ :: s => S <$> find_string sub s end.

(** The C string at s.c_str(): what comes before the first NUL. *)
Fixpoint c_string (nul : C) s : list C :=
  match s with
  | [] => []
  | x :: s => if decide (x = nul) then [] else x :: c_string nul s
  end.
End members.

(** * Comparison up to case *)

(** CaseInsensitiveCStringEquals(lhs, rhs), for pointers to characters that end in NUL. *)
Class CaseInsensitiveCStrings (S : Type) `{!BasicString S} : Type :=
  CaseInsensitiveCStringEquals : list value_type → list value_type → bool.

(** It says whether they have the same content once the case of each character is removed. *)
Class CaseFolding (S : Type) `{!BasicString S, !CaseInsensitiveCStrings S} : Type := {
  fold_case : value_type → value_type;
  fold_case_nul c : fold_case c = nul ↔ c = nul;
  CaseInsensitiveCStringEquals_folds (lhs rhs : list value_type) :
    nul ∉ lhs → nul ∉ rhs →
    CaseInsensitiveCStringEquals lhs rhs = bool_decide (fold_case <$> lhs = fold_case <$> rhs);
}.

Section case.
Context {S : Type} `{!BasicString S, !CaseInsensitiveCStrings S}.

(** CaseInsensitiveStringEquals(s1, s2), with fuel for its recursion. *)
Fixpoint case_insensitive_equals (fuel : nat) (s1 s2 : list value_type) : option bool :=
  match fuel with
  | O => None
  | Datatypes.S fuel =>
      if negb (CaseInsensitiveCStringEquals (c_string nul s1) (c_string nul s2)) then Some false
      else
        match find_char nul s1, find_char nul s2 with
        | Some i1, Some i2 => case_insensitive_equals fuel (substr_from s1 (i1 + 1)) (substr_from s2 (i2 + 1))
        | i1, i2 => Some (bool_decide (i1 = i2))
        end
  end.

(** Each call is on a shorter string, so the number of characters is fuel enough. *)
Definition CaseInsensitiveStringEquals (s1 s2 : S) : bool :=
  default false (case_insensitive_equals (Datatypes.S (length (characters s1))) (characters s1) (characters s2)).
End case.

(** * The matchers *)

(** The members of a matcher class: on a string type, and on a pointer to characters. *)
Record StrEqualityMatcher (S : Type) : Type := MkStrEquality {
  string_ : S;
  expect_eq_ : bool;
  case_sensitive_ : bool;
}.
Arguments MkStrEquality {S} _ _ _.
Arguments string_ {S} _.
Arguments expect_eq_ {S} _.
Arguments case_sensitive_ {S} _.

Record HasSubstrMatcher (S : Type) : Type := MkHasSubstr { substring_ : S }.
Arguments MkHasSubstr {S} _.
Arguments substring_ {S} _.
Record StartsWithMatcher (S : Type) : Type := MkStartsWith { prefix_ : S }.
Arguments MkStartsWith {S} _.
Arguments prefix_ {S} _.
Record EndsWithMatcher (S : Type) : Type := MkEndsWith { suffix_ : S }.
Arguments MkEndsWith {S} _.
Arguments suffix_ {S} _.

(** class RE. *)
Class RE_library : Type := {
  RE : Type;
  new_RE : string → RE;
  pattern : RE → string;
  FullMatch : string → RE → bool;
  PartialMatch : string → RE → bool;
}.
Record MatchesRegexMatcher `{!RE_library} : Type := MkMatchesRegex { regex_ : RE; full_match_ : bool }.
Arguments MkMatchesRegex {_} _ _.

Notation result := (bool * MatchResultListener)%type.

Section matchers.
Context {S : Type} `{!BasicString S}.
Implicit Types (l : MatchResultListener).

Definition StrEquality_match `{!CaseInsensitiveCStrings S} (m : StrEqualityMatcher S) (s2 : S) l : result :=
  let eq := if case_sensitive_ m then bool_decide (characters s2 = characters (string_ m))
            else CaseInsensitiveStringEquals s2 (string_ m) in
  (Bool.eqb (expect_eq_ m) eq, l).

Definition HasSubstr_match (m : HasSubstrMatcher S) (s2 : S) l : result :=
  (bool_decide (find_string (characters (substring_ m)) (characters s2) ≠ None), l).

Definition StartsWith_match (m : StartsWithMatcher S) (s2 : S) l : result :=
  let prefix := characters (prefix_ m) in
  ((length prefix <=? length (characters s2))%nat &&
   bool_decide (substr (characters s2) 0 (length prefix) = prefix), l).

Definition EndsWith_match (m : EndsWithMatcher S) (s2 : S) l : result :=
  let suffix := characters (suffix_ m) in
  ((length suffix <=? length (characters s2))%nat &&
   bool_decide (substr_from (characters s2) (length (characters s2) - length suffix) = suffix), l).

(** The overloads for pointers to characters. *)
Section pointers.
Context {const : bool} {c : character} `{!FromCString c S}.
Implicit Types (s : char_pointer const c).

Definition StrEquality_match_pointer `{!CaseInsensitiveCStrings S} (m : StrEqualityMatcher S) s l : result :=
  match s with NullString => (negb (expect_eq_ m), l) | StringAt _ s => StrEquality_match m (from_c_string s : S) l end.
Definition HasSubstr_match_pointer (m : HasSubstrMatcher S) s l : result :=
  match s with NullString => (false, l) | StringAt _ s => HasSubstr_match m (from_c_string s : S) l end.
Definition StartsWith_match_pointer (m : StartsWithMatcher S) s l : result :=
  match s with NullString => (false, l) | StringAt _ s => StartsWith_match m (from_c_string s : S) l end.
Definition EndsWith_match_pointer (m : EndsWithMatcher S) s l : result :=
  match s with NullString => (false, l) | StringAt _ s => EndsWith_match m (from_c_string s : S) l end.
End pointers.

(** DescribeToHelper(expect_eq, os). *)
Definition DescribeToHelper `{!UniversalPrinter S} (m : StrEqualityMatcher S) (expect_eq : bool) : string :=
  (if expect_eq then "is " else "isn't ") +:+ "equal to " +:+
  (if negb (case_sensitive_ m) then "(ignoring case) " else EmptyString) +:+ UniversalPrint (string_ m).
End matchers.

Section regex.
Context `{!RE_library}.

Definition Regex_match (m : MatchesRegexMatcher) (s2 : string) (l : MatchResultListener) : result :=
  (if full_match_ m then FullMatch s2 (regex_ m) else PartialMatch s2 (regex_ m), l).
Definition Regex_match_pointer {const} (m : MatchesRegexMatcher) (s : char_pointer const plain_char)
    (l : MatchResultListener) : result :=
  match s with NullString => (false, l) | StringAt _ s => Regex_match m s l end.
End regex.

(** * What they convert to *)

#[export] Instance str_equality_descriptions S `{!BasicString S, !UniversalPrinter S} :
    MatcherDescriptions (StrEqualityMatcher S) := {
  impl_DescribeTo m := DescribeToHelper m (expect_eq_ m);
  impl_DescribeNegationTo m := DescribeToHelper m (negb (expect_eq_ m));
}.
#[export] Instance has_substr_descriptions S `{!UniversalPrinter S} : MatcherDescriptions (HasSubstrMatcher S) := {
  impl_DescribeTo m := "has substring " +:+ UniversalPrint (substring_ m);
  impl_DescribeNegationTo m := "has no substring " +:+ UniversalPrint (substring_ m);
}.
#[export] Instance starts_with_descriptions S `{!UniversalPrinter S} : MatcherDescriptions (StartsWithMatcher S) := {
  impl_DescribeTo m := "starts with " +:+ UniversalPrint (prefix_ m);
  impl_DescribeNegationTo m := "doesn't start with " +:+ UniversalPrint (prefix_ m);
}.
#[export] Instance ends_with_descriptions S `{!UniversalPrinter S} : MatcherDescriptions (EndsWithMatcher S) := {
  impl_DescribeTo m := "ends with " +:+ UniversalPrint (suffix_ m);
  impl_DescribeNegationTo m := "doesn't end with " +:+ UniversalPrint (suffix_ m);
}.
#[export] Instance regex_descriptions `{!RE_library, !UniversalPrinter string} :
    MatcherDescriptions MatchesRegexMatcher := {
  impl_DescribeTo m :=
    (if full_match_ m then "matches" else "contains") +:+ " regular expression " +:+ UniversalPrint (pattern (regex_ m));
  impl_DescribeNegationTo m :=
    "doesn't " +:+ (if full_match_ m then "match" else "contain") +:+ " regular expression " +:+
    UniversalPrint (pattern (regex_ m));
}.

(** The template members: a type that converts to the string type, or a pointer. *)
Section templates.
Context {S : Type} `{!BasicString S}.

Section values.
Context {T : Type} `{!ImplicitCast T S}.
#[export] Instance str_equality_template `{!CaseInsensitiveCStrings S} : MatchTemplate (StrEqualityMatcher S) T :=
  λ m s, StrEquality_match m (ImplicitCast_ s : S).
#[export] Instance has_substr_template : MatchTemplate (HasSubstrMatcher S) T :=
  λ m s, HasSubstr_match m (ImplicitCast_ s : S).
#[export] Instance starts_with_template : MatchTemplate (StartsWithMatcher S) T :=
  λ m s, StartsWith_match m (ImplicitCast_ s : S).
#[export] Instance ends_with_template : MatchTemplate (EndsWithMatcher S) T :=
  λ m s, EndsWith_match m (ImplicitCast_ s : S).
End values.

Section pointers.
Context {const : bool} {c : character} `{!FromCString c S}.
#[export] Instance str_equality_pointer `{!CaseInsensitiveCStrings S} :
  MatchTemplate (StrEqualityMatcher S) (char_pointer const c) | 0 := StrEquality_match_pointer.
#[export] Instance has_substr_pointer : MatchTemplate (HasSubstrMatcher S) (char_pointer const c) | 0 :=
  HasSubstr_match_pointer.
#[export] Instance starts_with_pointer : MatchTemplate (StartsWithMatcher S) (char_pointer const c) | 0 :=
  StartsWith_match_pointer.
#[export] Instance ends_with_pointer : MatchTemplate (EndsWithMatcher S) (char_pointer const c) | 0 :=
  EndsWith_match_pointer.
End pointers.
End templates.

#[export] Instance regex_template `{!RE_library} T `{!ImplicitCast T string} : MatchTemplate MatchesRegexMatcher T :=
  λ m s, Regex_match m (ImplicitCast_ s : string).
#[export] Instance regex_pointer `{!RE_library} const :
  MatchTemplate MatchesRegexMatcher (char_pointer const plain_char) | 0 := Regex_match_pointer.

(** * The functions *)

Section functions.
Context {S : Type}.
Implicit Types (str : S).
Definition StrEq str : PolymorphicMatcher (StrEqualityMatcher S) := MakePolymorphicMatcher (MkStrEquality str true true).
Definition StrNe str : PolymorphicMatcher (StrEqualityMatcher S) := MakePolymorphicMatcher (MkStrEquality str false true).
Definition StrCaseEq str : PolymorphicMatcher (StrEqualityMatcher S) :=
  MakePolymorphicMatcher (MkStrEquality str true false).
Definition StrCaseNe str : PolymorphicMatcher (StrEqualityMatcher S) :=
  MakePolymorphicMatcher (MkStrEquality str false false).
Definition HasSubstr (substring : S) : PolymorphicMatcher (HasSubstrMatcher S) :=
  MakePolymorphicMatcher (MkHasSubstr substring).
Definition StartsWith (prefix : S) : PolymorphicMatcher (StartsWithMatcher S) :=
  MakePolymorphicMatcher (MkStartsWith prefix).
Definition EndsWith (suffix : S) : PolymorphicMatcher (EndsWithMatcher S) := MakePolymorphicMatcher (MkEndsWith suffix).
End functions.

(** MatchesRegex and ContainsRegex, of an RE and of its text. *)
Definition MatchesRegex `{!RE_library} (regex : RE) : PolymorphicMatcher MatchesRegexMatcher :=
  MakePolymorphicMatcher (MkMatchesRegex regex true).
Definition MatchesRegex_text `{!RE_library} (regex : string) : PolymorphicMatcher MatchesRegexMatcher :=
  MatchesRegex (new_RE regex).
Definition ContainsRegex `{!RE_library} (regex : RE) : PolymorphicMatcher MatchesRegexMatcher :=
  MakePolymorphicMatcher (MkMatchesRegex regex false).
Definition ContainsRegex_text `{!RE_library} (regex : string) : PolymorphicMatcher MatchesRegexMatcher :=
  ContainsRegex (new_RE regex).

(** * Lemmas *)

Section list_lemmas.
Context {C : Type} `{!EqDecision C} (nul : C).
Implicit Types (s t sub : list C).

(** A string is the C string it starts with, and what follows its first NUL. *)
Lemma c_string_split s :
  nul ∉ c_string nul s ∧
  match find_char nul s with
  | None => s = c_string nul s
  | Some i => s = c_string nul s ++ nul :: substr_from s (i + 1)
  end.
Proof.
  induction s as [|x s [Hn IH]]; [by split; [apply not_elem_of_nil|]|]. cbn.
  destruct (decide (x = nul)) as [->|Hx]; [by split; [apply not_elem_of_nil|]|].
  split; [by apply not_elem_of_cons|].
  destruct (find_char nul s) as [i|]; cbn; [|by rewrite -IH]. by rewrite {1}IH.
Qed.

(** Strings with a NUL are equal when what is before and after their first NULs is. *)
Lemma app_nul_inj s t s' t' :
  nul ∉ s → nul ∉ t → s ++ nul :: s' = t ++ nul :: t' ↔ s = t ∧ s' = t'.
Proof.
  intros Hs Ht. split; [|by intros [-> ->]]. revert t Hs Ht.
  induction s as [|x s IH]; intros [|y t] Hs Ht Hst; simplify_list_eq; [done|set_solver..|].
  destruct (IH t) as [-> ->]; [set_solver..|done|done].
Qed.

Lemma find_string_spec sub s : find_string sub s ≠ None ↔ ∃ a b, s = a ++ sub ++ b.
Proof.
  assert (∀ s, substr s 0 (length sub) = sub ↔ ∃ b, s = sub ++ b) as Hpre.
  { intros t. unfold substr. rewrite drop_0. split; [|intros [b ->]; apply take_app_length].
    intros Ht. exists (drop (length sub) t). by rewrite -{1}Ht take_drop. }
  assert (∀ s, (∃ b, s = sub ++ b) → ∃ a b, s = a ++ sub ++ b) as Hhere.
  { intros t [b ->]. by exists [], b. }
  induction s as [|x s IH]; cbn [find_string]; case_decide as Hd; (split; [intros Hf|intros Hex]); try done;
    try (by apply Hhere, Hpre).
  - destruct Hex as ([|] & b & Hab); [|done]. contradict Hd. apply Hpre. by exists b.
  - destruct (find_string sub s) eqn:Hs; [|done]. destruct IH as [IH _].
    destruct IH as (a & b & ->); [done|]. by exists (x :: a), b.
  - destruct Hex as ([|y a] & b & Hab).
    { contradict Hd. apply Hpre. by exists b. }
    injection Hab as -> ->. destruct (find_string sub (a ++ sub ++ b)); [done|].
    exfalso. apply IH; [by exists a, b|done].
Qed.
End list_lemmas.

Section case_lemmas.
Context {S : Type} `{!BasicString S, !CaseInsensitiveCStrings S, !CaseFolding S}.
Implicit Types (s t : list value_type).

Lemma fold_has_no_nul s : nul ∉ s → nul ∉ fold_case <$> s.
Proof. intros Hs (c & Hc & Hin)%list_elem_of_fmap. symmetry in Hc. apply fold_case_nul in Hc as ->. done. Qed.

#[local] Notation folded := (fmap (M:=list) fold_case).

(** A string with what follows its first NUL, if it has one. *)
Definition with_rest (s : list value_type) (rest : option (list value_type)) : list value_type :=
  s ++ (if rest is Some r then nul :: r else []).

Lemma fold_split_equal (s t : list value_type) (s' t' : option (list value_type)) :
  nul ∉ s → nul ∉ t →
  folded (with_rest s s') = folded (with_rest t t') ↔ folded s = folded t ∧ folded <$> s' = folded <$> t'.
Proof.
  intros Hs Ht. assert (fold_case nul = nul) as Hnul by by apply fold_case_nul.
  pose proof (fold_has_no_nul _ Hs) as Hfs. pose proof (fold_has_no_nul _ Ht) as Hft. unfold with_rest.
  rewrite !fmap_app. destruct s' as [s'|], t' as [t'|]; rewrite ?fmap_cons ?Hnul ?app_nil_r.
  - rewrite app_nul_inj //. cbn. split; [by intros [-> ->]|by intros [-> [= ->]]].
  - split; [intros He|by intros []]. rewrite -He in Hft. set_solver.
  - split; [intros He|by intros []]. rewrite He in Hfs. set_solver.
  - by split; [|intros []].
Qed.

Lemma with_rest_split s :
  s = with_rest (c_string nul s) ((λ i, substr_from s (i + 1)) <$> find_char nul s).
Proof.
  unfold with_rest. destruct (c_string_split nul s) as [_ Hsp]. destruct (find_char nul s); cbn; [done|].
  by rewrite app_nil_r.
Qed.

Lemma case_insensitive_equals_folds fuel s t :
  (length s < fuel)%nat → case_insensitive_equals fuel s t = Some (bool_decide (folded s = folded t)).
Proof.
  revert s t. induction fuel as [|fuel IH]; intros s t Hf; [lia|]. cbn [case_insensitive_equals].
  destruct (c_string_split nul s) as [Hs Hsp], (c_string_split nul t) as [Ht _].
  rewrite CaseInsensitiveCStringEquals_folds //.
  pose proof (fold_split_equal _ _ ((λ i, substr_from s (i + 1)) <$> find_char nul s)
    ((λ i, substr_from t (i + 1)) <$> find_char nul t) Hs Ht) as Hfold.
  rewrite -!with_rest_split in Hfold. rewrite (bool_decide_ext _ _ Hfold).
  case_bool_decide as Hc; cbn [negb]; [|rewrite bool_decide_eq_false_2; [by intros []|done]].
  assert (∀ P : Prop, (folded (c_string nul s) = folded (c_string nul t) ∧ P) ↔ P) as Hand.
  { intros P. split; [by intros []|done]. }
  rewrite (bool_decide_ext _ _ (Hand _)). clear Hand.
  destruct (find_char nul s) as [i|], (find_char nul t) as [j|]; cbn [fmap option_fmap option_map].
  - rewrite IH; [|by f_equal; apply bool_decide_ext; split; [intros ->|intros [= ->]]].
    apply (f_equal length) in Hsp. rewrite length_app /= in Hsp. lia.
  - by rewrite !bool_decide_eq_false_2.
  - by rewrite !bool_decide_eq_false_2.
  - by rewrite !bool_decide_eq_true_2.
Qed.
End case_lemmas.

(** * What they accept *)

#[local] Notation "m ∋ x" := (call_predicate (Matches m) x) (at level 70, no associativity).

(** A matcher that writes nothing. *)
Lemma silent_lawful {T} (m : MatcherInterface T) (b : T → bool) :
  (∀ x l, MatchAndExplain m x l = (b x, l)) → Lawful m.
Proof. intros Hm. apply (lawful_of _ b (λ _, EmptyString)). intros x l. by rewrite Hm out_empty. Qed.

Section lawful.
Context {S T : Type} `{!BasicString S, !CaseInsensitiveCStrings S, !UniversalPrinter S, !ImplicitCast T S}.
#[export] Instance str_equality_lawful (m : StrEqualityMatcher S) :
  Lawful (to_matcher (T:=T) (MakePolymorphicMatcher m)).
Proof. by eapply silent_lawful. Qed.
#[export] Instance has_substr_lawful (m : HasSubstrMatcher S) :
  Lawful (to_matcher (T:=T) (MakePolymorphicMatcher m)).
Proof. by eapply silent_lawful. Qed.
#[export] Instance starts_with_lawful (m : StartsWithMatcher S) :
  Lawful (to_matcher (T:=T) (MakePolymorphicMatcher m)).
Proof. by eapply silent_lawful. Qed.
#[export] Instance ends_with_lawful (m : EndsWithMatcher S) :
  Lawful (to_matcher (T:=T) (MakePolymorphicMatcher m)).
Proof. by eapply silent_lawful. Qed.
End lawful.

Section accepted.
Context {S : Type} `{!BasicString S, !CaseInsensitiveCStrings S, !CaseFolding S, !UniversalPrinter S}.
Implicit Types (str s : S).

Lemma case_equal_folds (s t : S) :
  CaseInsensitiveStringEquals s t = bool_decide (fold_case <$> characters s = fold_case <$> characters t).
Proof. unfold CaseInsensitiveStringEquals. rewrite case_insensitive_equals_folds //. lia. Qed.

Lemma has_substr_accepts str s :
  HasSubstr str ∋ s = true ↔ ∃ a b, characters s = a ++ characters str ++ b.
Proof. rewrite -find_string_spec. apply bool_decide_eq_true. Qed.

Lemma starts_with_accepts str s : StartsWith str ∋ s = true ↔ ∃ b, characters s = characters str ++ b.
Proof.
  change (StartsWith str ∋ s) with (fst (StartsWith_match (MkStartsWith str) s None)).
  cbn. unfold substr. rewrite drop_0 andb_true_iff Nat.leb_le bool_decide_eq_true. split.
  - intros [_ Hp]. exists (drop (length (characters str)) (characters s)). by rewrite -{1}Hp take_drop.
  - intros [b ->]. rewrite length_app take_app_length. split; [lia|done].
Qed.

Lemma ends_with_accepts str s : EndsWith str ∋ s = true ↔ ∃ a, characters s = a ++ characters str.
Proof.
  change (EndsWith str ∋ s) with (fst (EndsWith_match (MkEndsWith str) s None)).
  cbn. unfold substr_from. rewrite andb_true_iff Nat.leb_le bool_decide_eq_true. split.
  - intros [_ Hp]. eexists. by rewrite -{1}(take_drop (length (characters s) - length (characters str)) (characters s)) Hp.
  - intros [a ->]. rewrite length_app Nat.add_sub drop_app_length. split; [lia|done].
Qed.
End accepted.

Lemma eqb_true b : Bool.eqb true b = b.
Proof. by destruct b. Qed.

(** StrEq(str) accepts the strings with the characters of str, StrCaseEq(str) those
    that agree with it up to case, character by character and across embedded NULs,
    StrNe and StrCaseNe the others; HasSubstr, StartsWith and EndsWith those that contain,
    begin with and end with str. Of pointers, NULL is accepted by StrNe and StrCaseNe
    only, and any other is taken for the C string it points to. *)
Theorem string_matchers_accept {S : Type}
    `{!BasicString S, !CaseInsensitiveCStrings S, !CaseFolding S, !UniversalPrinter S}
    {const : bool} {c : character} `{!FromCString c S} (str s : S) (p : loc) (t : string_type c) :
  let same := bool_decide (characters s = characters str) in
  let same_up_to_case := bool_decide (fold_case <$> characters s = fold_case <$> characters str) in
  let null : char_pointer const c := NullString in
  let pointer : char_pointer const c := StringAt p t in
  let pointed : S := from_c_string t in
  (StrEq str ∋ s) = same ∧ (StrNe str ∋ s) = negb same ∧
  (StrCaseEq str ∋ s) = same_up_to_case ∧ (StrCaseNe str ∋ s) = negb same_up_to_case ∧
  ((HasSubstr str ∋ s) = true ↔ ∃ a b, characters s = a ++ characters str ++ b) ∧
  ((StartsWith str ∋ s) = true ↔ ∃ b, characters s = characters str ++ b) ∧
  ((EndsWith str ∋ s) = true ↔ ∃ a, characters s = a ++ characters str) ∧
  [StrEq str ∋ null; StrNe str ∋ null; StrCaseEq str ∋ null; StrCaseNe str ∋ null;
   HasSubstr str ∋ null; StartsWith str ∋ null; EndsWith str ∋ null] =
    [false; true; false; true; false; false; false] ∧
  [StrEq str ∋ pointer; StrNe str ∋ pointer; StrCaseEq str ∋ pointer; StrCaseNe str ∋ pointer;
   HasSubstr str ∋ pointer; StartsWith str ∋ pointer; EndsWith str ∋ pointer] =
    [StrEq str ∋ pointed; StrNe str ∋ pointed; StrCaseEq str ∋ pointed; StrCaseNe str ∋ pointed;
     HasSubstr str ∋ pointed; StartsWith str ∋ pointed; EndsWith str ∋ pointed].
Proof.
  intros same same_up_to_case null pointer pointed.
  assert (∀ cs, (MkPolymorphic (MkStrEquality str false cs) ∋ s) = negb (MkPolymorphic (MkStrEquality str true cs) ∋ s))
    as Hne by by intros []; cbv -[bool_decide CaseInsensitiveStringEquals negb]; case_match.
  assert ((StrCaseEq str ∋ s) = same_up_to_case) as Hcase.
  { unfold same_up_to_case. rewrite -case_equal_folds. apply eqb_true. }
  assert ((StrEq str ∋ s) = same) as Heq by apply eqb_true.
  split_and!; [done| |done| |apply has_substr_accepts|apply starts_with_accepts|apply ends_with_accepts|done|done].
  - by rewrite -Heq -Hne.
  - by rewrite -Hcase -Hne.
Qed.

(** * A sample *)

(** tolower of the C locale. *)
Definition lower (a : Ascii.ascii) : Ascii.ascii :=
  let n := Ascii.nat_of_ascii a in
  if ((65 <=? n) && (n <=? 90))%nat then Ascii.ascii_of_nat (n + 32) else a.

#[local] Instance sample_case : CaseInsensitiveCStrings string := λ lhs rhs,
  bool_decide (lower <$> (lhs : list Ascii.ascii) = lower <$> (rhs : list Ascii.ascii)).
Lemma lower_nul (a : Ascii.ascii) : lower a = NUL ↔ a = NUL.
Proof. destruct a as [[] [] [] [] [] [] [] []]; cbv; naive_solver. Defined.
#[local, refine] Instance sample_folding : CaseFolding string := {| fold_case := lower |}.
Proof. - exact lower_nul. - done. Defined.
#[local] Instance sample_print_string : UniversalPrinter string := id.

Definition with_nul (s t : string) : string := s +:+ String NUL t.

Lemma string_matchers_accept_witness :
  (StrCaseEq (with_nul "Read" "Me") ∋ with_nul "rEAD" "mE") = true ∧
  (StrCaseEq (with_nul "Read" "Me") ∋ with_nul "rEAD" "you") = false ∧
  (StrNe "read" ∋ (NullString : char_pointer true plain_char)) = true.
Proof.
  pose proof (string_matchers_accept (const:=true) (c:=plain_char)
    (with_nul "Read" "Me") (with_nul "rEAD" "mE") 1%positive EmptyString) as (_ & _ & H1 & _).
  pose proof (string_matchers_accept (const:=true) (c:=plain_char)
    (with_nul "Read" "Me") (with_nul "rEAD" "you") 1%positive EmptyString) as (_ & _ & H2 & _).
  pose proof (string_matchers_accept (const:=true) (c:=plain_char) "read" "read" 1%positive EmptyString)
    as (_ & _ & _ & _ & _ & _ & _ & H3 & _).
  rewrite H1 H2. split_and!; [reflexivity..|exact (f_equal (λ l, nth 1 l false) H3)].
Defined.
