(* ===== verification/ValueMatchers.v ===== *)
(** The matchers of the bundled mock library that look into a value
    (src/gtest/include/gmock/gmock-matchers.h): IsNull, NotNull, Ref, Pointee,
    WhenDynamicCastTo, Field, Property and ResultOf, and the assertions ASSERT_THAT and
    EXPECT_THAT, which match a value in a test.

    A reference is an object with its address ([reference] of Printers.v), and a pointer
    refers to an object or is NULL; a smart pointer is an instance of [Pointer]. Getters
    and callables are functions, as the header asks of them to keep no state. *)

From Stdlib Require Import Ascii.
From stdpp Require Import pretty.
From S2P Require Import Prelude Mem Tuples Printers Assertions Matchers MatcherTypes.
#[local] Open Scope Z_scope.
#[local] Open Scope listener_scope.

(** * Printing a value and explaining the match *)

(** GetTypeName<T>(). *)
Class TypeName (T : Type) : Type := GetTypeName : string.
#[global] Hint Mode TypeName + : typeclass_instances.
Arguments GetTypeName T {_}.

(** s.find_first_of("<("), where all that counts is whether it is npos. *)
Fixpoint finds_template_or_call (s : string) : bool :=
  match s with
  | EmptyString => false
  | String c s => bool_decide (c = "<"%char) || bool_decide (c = "("%char) || finds_template_or_call s
  end.

Definition IsReadableTypeName (type_name : string) : bool :=
  (String.length type_name <=? 20)%nat || negb (finds_template_or_call type_name).

(** MatchPrintAndExplain(value, matcher, listener); [argument] is value as it is passed to
    the matcher, which may take a reference to it. *)
Definition MatchPrintAndExplain {Value T} `{!UniversalPrinter Value, !TypeName Value}
    (value : Value) (argument : T) (matcher : MatcherInterface T) (listener : MatchResultListener)
    : bool * MatchResultListener :=
  if negb (IsInterested listener) then (Matchers.Matches matcher argument, listener)
  else
    let '(match_, inner_listener) := MatchAndExplain matcher argument StringMatchResultListener in
    let listener := listener << UniversalPrint value in
    let type_name := GetTypeName Value in
    let listener := if IsReadableTypeName type_name then listener << " (of type " << type_name << ")" else listener in
    (match_, PrintIfNotEmpty (str inner_listener) listener).

(** * Pointers and references *)

(** A pointer type, raw or smart, to objects of type E: GetRawPointer(p), the object it
    points to or NULL. [*p] is the object at GetRawPointer(p). *)
Class Pointer (P E : Type) : Type := GetRawPointer : P → option (reference E).
#[global] Hint Mode Pointer + - : typeclass_instances.
Definition raw_pointer (E : Type) : Type := option (reference E).
#[export] Instance raw_pointer_pointer E : Pointer (raw_pointer E) E := λ p, p.

Inductive IsNullMatcher : Set := MkIsNull.
Inductive NotNullMatcher : Set := MkNotNull.
#[export] Instance is_null_match P E `{!Pointer P E} : MatchTemplate IsNullMatcher P := λ _ p listener,
  (match GetRawPointer p with None => true | Some _ => false end, listener).
#[export] Instance not_null_match P E `{!Pointer P E} : MatchTemplate NotNullMatcher P := λ _ p listener,
  (match GetRawPointer p with None => false | Some _ => true end, listener).
#[export] Instance is_null_descriptions : MatcherDescriptions IsNullMatcher :=
  {| impl_DescribeTo _ := "is NULL"; impl_DescribeNegationTo _ := "isn't NULL" |}.
#[export] Instance not_null_descriptions : MatcherDescriptions NotNullMatcher :=
  {| impl_DescribeTo _ := "isn't NULL"; impl_DescribeNegationTo _ := "is NULL" |}.

(** The conversion of a T& to a Super&. *)
Class Upcast (T Super : Type) : Type := upcast : reference T → reference Super.
#[global] Hint Mode Upcast + + : typeclass_instances.
#[export] Instance upcast_same T : Upcast T T := λ x, x.

Section references.
Context `{!printers_library}.

(** RefMatcher<T&>::Impl<Super>. *)
Definition RefMatcherImpl {Super} `{!UniversalPrinter Super} (object_ : reference Super)
    : MatcherInterface (reference Super) :=
  MkMatcher (λ x listener,
      (bool_decide (referent_address x = referent_address object_),
       listener << "which is located @" << stream_pointer (referent_address x)))
    ("references the variable " +:+ UniversalPrint object_)
    ("does not reference the variable " +:+ UniversalPrint object_).

Record RefMatcher (T : Type) : Type := MkRef { object_ : reference T }.
#[export] Instance ref_to_matcher T Super `{!Upcast T Super, !UniversalPrinter Super} :
    ToMatcher (RefMatcher T) (reference Super) := λ m, RefMatcherImpl (upcast (object_ T m)).
End references.
Arguments MkRef {T} _.
Arguments object_ {T} _.

(** PointeeMatcher<InnerMatcher>::Impl<Pointer>. *)
Section pointee.
Context {P E : Type} `{!Pointer P E, !UniversalPrinter E, !TypeName E}.

Definition PointeeMatcherImpl (matcher_ : MatcherInterface E) : MatcherInterface P :=
  MkMatcher (λ pointer listener,
      match GetRawPointer pointer with
      | None => (false, listener)
      | Some object =>
          MatchPrintAndExplain (referent object) (referent object) matcher_ (listener << "which points to ")
      end)
    ("points to a value that " +:+ DescribeTo matcher_)
    ("does not point to a value that " +:+ DescribeTo matcher_).
End pointee.

Inductive PointeeMatcher (M : Type) : Type := MkPointee (matcher_ : M).
Arguments MkPointee {M} _.
#[export] Instance pointee_to_matcher M P E `{!Pointer P E, !UniversalPrinter E, !TypeName E, !MatcherCast E M} :
    ToMatcher (PointeeMatcher M) P := λ '(MkPointee matcher), PointeeMatcherImpl (matcher_cast matcher).

(** * Casts *)

(** dynamic_cast<To>(from), for pointers to class types. *)
Class DynamicCast (From To : Type) : Type := dynamic_cast : From → To.
#[global] Hint Mode DynamicCast + + : typeclass_instances.

(** WhenDynamicCastToMatcher<To> and its base class. *)
Record WhenDynamicCastToMatcher (To : Type) : Type := MkWhenDynamicCastTo { cast_matcher_ : MatcherInterface To }.
Arguments MkWhenDynamicCastTo {To} _.
Arguments cast_matcher_ {To} _.

Definition GetCastTypeDescription (To : Type) `{!TypeName To} : string :=
  "when dynamic_cast to " +:+ GetTypeName To +:+ ", ".
#[export] Instance dynamic_cast_descriptions To `{!TypeName To} : MatcherDescriptions (WhenDynamicCastToMatcher To) := {|
  impl_DescribeTo m := GetCastTypeDescription To +:+ DescribeTo (cast_matcher_ m);
  impl_DescribeNegationTo m := GetCastTypeDescription To +:+ DescribeNegationTo (cast_matcher_ m);
|}.

(** The primary template, for a pointer type To. *)
#[export] Instance dynamic_cast_match From To `{!DynamicCast From To, !UniversalPrinter To, !TypeName To} :
    MatchTemplate (WhenDynamicCastToMatcher To) From | 10 := λ m from listener,
  let to := dynamic_cast from : To in MatchPrintAndExplain to to (cast_matcher_ m) listener.

(** The specialization for a reference type. *)
#[export] Instance dynamic_cast_reference_match From To
    `{!DynamicCast (raw_pointer From) (raw_pointer To), !UniversalPrinter To, !TypeName To, !TypeName (reference To)} :
    MatchTemplate (WhenDynamicCastToMatcher (reference To)) (reference From) | 0 := λ m from listener,
  match dynamic_cast (Some from : raw_pointer From) : raw_pointer To with
  | None => (false, listener << "which cannot be dynamic_cast to " << GetTypeName (reference To))
  | Some to => MatchPrintAndExplain (referent to) to (cast_matcher_ m) listener
  end.

(** * Parts of an object *)

(** What Field and Property do with a part of an object, [get] obj: [text] announces it.
    The first is for an object, the second for a pointer to one. *)
Section parts.
Context {Class_ Part : Type} `{!UniversalPrinter Part, !TypeName Part}.
Context (text : string) (get : Class_ → Part) (matcher_ : MatcherInterface Part).

Definition part_of_object (obj : Class_) (listener : MatchResultListener) : bool * MatchResultListener :=
  let result := get obj in MatchPrintAndExplain result result matcher_ (listener << text).

Definition part_of_pointer (p : raw_pointer Class_) (listener : MatchResultListener) : bool * MatchResultListener :=
  match p with
  | None => (false, listener)
  | Some p => part_of_object (referent p) (listener << "which points to an object ")
  end.
End parts.

(** A pointer to an object of a class that converts to another. *)
Definition base_pointer {T Class_} `{!ImplicitCast T Class_} (p : raw_pointer T) : raw_pointer Class_ :=
  (λ r, Reference (referent_address r) (ImplicitCast_ (referent r) : Class_)) <$> p.

Record FieldMatcher (Class_ FieldType : Type) : Type := MkField {
  field_ : Class_ → FieldType;
  field_matcher_ : MatcherInterface FieldType;
}.
Arguments MkField {Class_ FieldType} _ _.
Arguments field_ {Class_ FieldType} _ _.
Arguments field_matcher_ {Class_ FieldType} _.

Record PropertyMatcher (Class_ PropertyType : Type) : Type := MkProperty {
  property_ : Class_ → PropertyType;
  property_matcher_ : MatcherInterface PropertyType;
}.
Arguments MkProperty {Class_ PropertyType} _ _.
Arguments property_ {Class_ PropertyType} _ _.
Arguments property_matcher_ {Class_ PropertyType} _.

#[export] Instance field_descriptions C F : MatcherDescriptions (FieldMatcher C F) := {|
  impl_DescribeTo m := "is an object whose given field " +:+ DescribeTo (field_matcher_ m);
  impl_DescribeNegationTo m := "is an object whose given field " +:+ DescribeNegationTo (field_matcher_ m);
|}.
#[export] Instance property_descriptions C F : MatcherDescriptions (PropertyMatcher C F) := {|
  impl_DescribeTo m := "is an object whose given property " +:+ DescribeTo (property_matcher_ m);
  impl_DescribeNegationTo m := "is an object whose given property " +:+ DescribeNegationTo (property_matcher_ m);
|}.

Section part_matchers.
Context {T C F : Type} `{!ImplicitCast T C, !UniversalPrinter F, !TypeName F}.

#[export] Instance field_match : MatchTemplate (FieldMatcher C F) T | 10 := λ m value,
  part_of_object "whose given field is " (field_ m) (field_matcher_ m) (ImplicitCast_ value : C).
#[export] Instance field_match_pointer : MatchTemplate (FieldMatcher C F) (raw_pointer T) | 0 := λ m p,
  part_of_pointer "whose given field is " (field_ m) (field_matcher_ m) (base_pointer p).
#[export] Instance property_match : MatchTemplate (PropertyMatcher C F) T | 10 := λ m value,
  part_of_object "whose given property is " (property_ m) (property_matcher_ m) (ImplicitCast_ value : C).
#[export] Instance property_match_pointer : MatchTemplate (PropertyMatcher C F) (raw_pointer T) | 0 := λ m p,
  part_of_pointer "whose given property is " (property_ m) (property_matcher_ m) (base_pointer p).
End part_matchers.

(** CallableTraits<Callable>: the function that a callable calls, when CheckIsValid lets it
    pass. *)
Class CallableTraits (Callable ArgType ResultType : Type) : Type :=
  CheckIsValid : Callable → option (ArgType → ResultType).
#[global] Hint Mode CallableTraits + - - : typeclass_instances.
#[export] Instance functor_traits A R : CallableTraits (A → R) A R := λ functor, Some functor.
(** ResType( * )(ArgType): NULL or a function. *)
Inductive function_to (A R : Type) : Type := FunctionTo (f : option (A → R)).
Arguments FunctionTo {A R} _.
#[export] Instance function_pointer_traits A R : CallableTraits (function_to A R) A R := λ '(FunctionTo f), f.

(** ResultOfMatcher<Callable>::Impl<T>. *)
Definition ResultOfMatcherImpl {T A R} `{!ImplicitCast T A, !UniversalPrinter R, !TypeName R}
    (callable_ : A → R) (matcher_ : MatcherInterface R) : MatcherInterface T :=
  MkMatcher (λ obj listener,
      let listener := listener << "which is mapped by the given callable to " in
      let result := callable_ (ImplicitCast_ obj : A) in
      MatchPrintAndExplain result result matcher_ listener)
    ("is mapped by the given callable to a value that " +:+ DescribeTo matcher_)
    ("is mapped by the given callable to a value that " +:+ DescribeNegationTo matcher_).

Record ResultOfMatcher (A R : Type) : Type := MkResultOf {
  callable_ : A → R;
  result_matcher_ : MatcherInterface R;
}.
Arguments MkResultOf {A R} _ _.
Arguments callable_ {A R} _ _.
Arguments result_matcher_ {A R} _.
#[export] Instance result_of_to_matcher T A R `{!ImplicitCast T A, !UniversalPrinter R, !TypeName R} :
    ToMatcher (ResultOfMatcher A R) T := λ m, ResultOfMatcherImpl (callable_ m) (result_matcher_ m).

(** The constructor: the program ends when CheckIsValid fails. *)
Definition new_ResultOfMatcher {Callable A R} `{!CallableTraits Callable A R} (callable : Callable)
    (matcher : MatcherInterface R) : outcome (ResultOfMatcher A R) :=
  match CheckIsValid callable with Some f => Done (MkResultOf f matcher) | None => Aborted end.

(** * The functions *)

Definition IsNull : PolymorphicMatcher IsNullMatcher := MakePolymorphicMatcher MkIsNull.
Definition NotNull : PolymorphicMatcher NotNullMatcher := MakePolymorphicMatcher MkNotNull.
Definition Ref {T} (x : reference T) : RefMatcher T := MkRef x.
Definition Pointee {M} (inner_matcher : M) : PointeeMatcher M := MkPointee inner_matcher.
Definition WhenDynamicCastTo {To} (inner_matcher : MatcherInterface To) :
  PolymorphicMatcher (WhenDynamicCastToMatcher To) := MakePolymorphicMatcher (MkWhenDynamicCastTo inner_matcher).
Definition Field {C F M} `{!MatcherCast F M} (field : C → F) (matcher : M) : PolymorphicMatcher (FieldMatcher C F) :=
  MakePolymorphicMatcher (MkField field (matcher_cast matcher)).
Definition Property {C F M} `{!MatcherCast F M} (property : C → F) (matcher : M) :
  PolymorphicMatcher (PropertyMatcher C F) := MakePolymorphicMatcher (MkProperty property (matcher_cast matcher)).
Definition ResultOf {Callable A R M} `{!CallableTraits Callable A R, !MatcherCast R M} (callable : Callable)
    (matcher : M) : outcome (ResultOfMatcher A R) := new_ResultOfMatcher callable (matcher_cast matcher).

(** * Assertions *)

(** PredicateFormatterFromMatcher<M>, and its operator()(value_text, x). *)
Inductive PredicateFormatterFromMatcher (M : Type) : Type := MkFormatter (matcher_ : M).
Arguments MkFormatter {M} _.
Definition MakePredicateFormatterFromMatcher {M} (matcher : M) : PredicateFormatterFromMatcher M := MkFormatter matcher.

Section that.
Context `{!gtest_library} {T M : Type} `{!MatcherCast T M, !UniversalPrinter T, !TypeName T}.

Definition format_predicate (p : PredicateFormatterFromMatcher M) (value_text : string) (x : T) : AssertionResult :=
  let '(MkFormatter matcher_) := p in
  let matcher := SafeMatcherCast T matcher_ in
  let '(match_, listener) := MatchPrintAndExplain x x matcher StringMatchResultListener in
  if match_ then AssertionSuccess
  else
    let ss := "Value of: " +:+ value_text +:+ newline +:+ "Expected: " +:+ DescribeTo matcher +:+
              newline +:+ "  Actual: " +:+ str listener in
    stream_all AssertionFailure [ss].

Context {W : Type} `{!TestRun W}.
Definition ASSERT_THAT (at_ : site) (value_text : string) (value : cmd W (tuple [T])) (matcher : M) : statement W :=
  ASSERT_PRED_FORMAT macros1 at_ (format_predicate (MakePredicateFormatterFromMatcher matcher)) (value_text, ()) value.
Definition EXPECT_THAT (at_ : site) (value_text : string) (value : cmd W (tuple [T])) (matcher : M) : statement W :=
  EXPECT_PRED_FORMAT macros1 at_ (format_predicate (MakePredicateFormatterFromMatcher matcher)) (value_text, ()) value.
End that.

(** * What is printed of a value *)

#[local] Arguments String.append : simpl never.

(** A value, with its type when its name is readable. *)
Definition printed {Value} `{!UniversalPrinter Value, !TypeName Value} (value : Value) : string :=
  UniversalPrint value +:+
  if IsReadableTypeName (GetTypeName Value) then " (of type " +:+ GetTypeName Value +:+ ")" else EmptyString.

Section printing.
Context {Value : Type} `{!UniversalPrinter Value, !TypeName Value} {T : Type}.
Implicit Types (m : MatcherInterface T) (l : MatchResultListener).

Lemma MatchPrintAndExplain_run (value : Value) (argument : T) m `{!Lawful m} l :
  MatchPrintAndExplain value argument m l =
    (Matchers.Matches m argument, l << (printed value +:+ if_not_empty (explanation m argument))).
Proof.
  unfold MatchPrintAndExplain, printed. destruct l as [os|]; [|done]. cbn [IsInterested negb].
  rewrite (lawful argument StringMatchResultListener) print_if_not_empty str_out.
  fold (explanation m argument). case_match; by rewrite ?out_app ?string_app_nil_r -?string_app_assoc.
Qed.

(** After an introduction. *)
Lemma introduced_run (value : Value) (argument : T) m `{!Lawful m} l text :
  MatchPrintAndExplain value argument m (l << text) =
    (Matchers.Matches m argument, l << (text +:+ printed value +:+ if_not_empty (explanation m argument))).
Proof. by rewrite MatchPrintAndExplain_run out_app. Qed.
End printing.

(** * The matchers are lawful *)

Lemma eta_lawful {T} (m : MatcherInterface T) (b : T → bool) (e : T → string) :
  (∀ x l, MatchAndExplain m x l = (b x, l << e x)) → Lawful m ∧ ∀ x, Matchers.Matches m x = b x ∧ explanation m x = e x.
Proof.
  intros Hm. split; [by apply (lawful_of m b e)|]. intros x. by apply matches_of.
Qed.

Section lawful_parts.
Context {Class_ Part : Type} `{!UniversalPrinter Part, !TypeName Part}.
Context (text : string) (get : Class_ → Part) (m : MatcherInterface Part) `{!Lawful m}.

Definition part_text (obj : Class_) : string :=
  text +:+ printed (get obj) +:+ if_not_empty (explanation m (get obj)).

Lemma part_of_object_run obj l :
  part_of_object text get m obj l = (Matchers.Matches m (get obj), l << part_text obj).
Proof. apply introduced_run, _. Qed.

Lemma part_of_pointer_run p l :
  part_of_pointer text get m p l =
    match p with
    | None => (false, l)
    | Some r => (Matchers.Matches m (get (referent r)), l << ("which points to an object " +:+ part_text (referent r)))
    end.
Proof. destruct p as [r|]; [|done]. cbn. by rewrite part_of_object_run out_app. Qed.
End lawful_parts.

(** A matcher of pointers that rejects NULL silently. *)
Lemma pointer_lawful {P E} `{!Pointer P E} (m : MatcherInterface P) (b : reference E → bool) (e : reference E → string) :
  (∀ p l, MatchAndExplain m p l =
     match GetRawPointer p with None => (false, l) | Some r => (b r, l << e r) end) → Lawful m.
Proof.
  intros Hm. apply (lawful_of m (λ p, if GetRawPointer p is Some r then b r else false)
    (λ p, if GetRawPointer p is Some r then e r else EmptyString)).
  intros p l. rewrite Hm. destruct (GetRawPointer p); [done|by rewrite out_empty].
Qed.

Section instances.
Context {Part : Type} `{!UniversalPrinter Part, !TypeName Part} (m : MatcherInterface Part) `{!Lawful m}.

#[export] Instance pointee_lawful {P} `{!Pointer P Part} : Lawful (PointeeMatcherImpl (P:=P) m).
Proof.
  eapply pointer_lawful. intros p l. cbn. destruct (GetRawPointer p); [|done]. apply introduced_run, _.
Qed.

#[export] Instance result_of_lawful {T A} `{!ImplicitCast T A} (f : A → Part) : Lawful (ResultOfMatcherImpl (T:=T) f m).
Proof. eapply lawful_of. intros x l. cbn. apply introduced_run, _. Qed.

#[export] Instance field_lawful {T C} `{!ImplicitCast T C} (f : C → Part) :
  Lawful (to_matcher (T:=T) (MakePolymorphicMatcher (MkField f m))).
Proof. eapply lawful_of. intros x l. cbn. apply part_of_object_run, _. Qed.

#[export] Instance property_lawful {T C} `{!ImplicitCast T C} (f : C → Part) :
  Lawful (to_matcher (T:=T) (MakePolymorphicMatcher (MkProperty f m))).
Proof. eapply lawful_of. intros x l. cbn. apply part_of_object_run, _. Qed.
End instances.

#[export] Instance ref_lawful `{!printers_library} {S} `{!UniversalPrinter S} (object : reference S) :
  Lawful (RefMatcherImpl object).
Proof. eapply lawful_of. intros x l. cbn. by rewrite out_app. Qed.

(** * What they accept and say *)

#[local] Notation "m ∋ x" := (call_predicate (Matches m) x) (at level 70, no associativity).
#[local] Notation run m x l := (MatchAndExplain (to_matcher m) x l).

(** Pointee(m), Field(f, m), Property(g, m) and ResultOf(h, m) accept a value exactly
    when m accepts the object pointed to, the field, the result of the getter and of the
    callable; they explain with that part, its type when it is readable, and what m says
    of it. A NULL pointer is rejected and nothing is said; WhenDynamicCastTo rejects a
    reference that the cast does not accept; Ref accepts the one object it was made of;
    ResultOf aborts on a NULL function pointer. *)
Theorem parts_matched {C F : Type} `{!UniversalPrinter F, !TypeName F} (m : MatcherInterface F) `{!Lawful m}
    `{!printers_library} (part : C → F) (obj : C) (at_ : loc) (r : reference F)
    `{!DynamicCast (raw_pointer C) (raw_pointer F), !TypeName (reference F)}
    (mr : MatcherInterface (reference F)) `{!Lawful mr} (l : MatchResultListener) :
  let said (text : string) (x : F) := l << (text +:+ printed x +:+ if_not_empty (explanation m x)) in
  let object : raw_pointer C := Some (Reference at_ obj) in
  let object_says (text : string) (x : F) := said ("which points to an object " +:+ text) x in
  run (Pointee m) (Some r : raw_pointer F) l =
    (Matchers.Matches m (referent r), said "which points to " (referent r)) ∧
  run (Pointee m) (None : raw_pointer F) l = (false, l) ∧
  run (Field part m) obj l = (Matchers.Matches m (part obj), said "whose given field is " (part obj)) ∧
  run (Field part m) object l = (Matchers.Matches m (part obj), object_says "whose given field is " (part obj)) ∧
  run (Field part m) (None : raw_pointer C) l = (false, l) ∧
  run (Property part m) obj l = (Matchers.Matches m (part obj), said "whose given property is " (part obj)) ∧
  run (Property part m) object l = (Matchers.Matches m (part obj), object_says "whose given property is " (part obj)) ∧
  run (Property part m) (None : raw_pointer C) l = (false, l) ∧
  (∃ result_of, ResultOf part m = Done result_of ∧
     run result_of obj l =
       (Matchers.Matches m (part obj), said "which is mapped by the given callable to " (part obj))) ∧
  ResultOf (FunctionTo (None : option (C → F))) m = Aborted ∧
  run (WhenDynamicCastTo mr) (Reference at_ obj) l =
    match dynamic_cast object : raw_pointer F with
    | None => (false, l << ("which cannot be dynamic_cast to " +:+ GetTypeName (reference F)))
    | Some to => (Matchers.Matches mr to, l << (printed (referent to) +:+ if_not_empty (explanation mr to)))
    end ∧
  fst (run (Ref r) r l) = true ∧
  (∀ r' : reference F, referent_address r' ≠ referent_address r → fst (run (Ref r) r' l) = false).
Proof.
  cbn zeta. split_and!; try done.
  - apply introduced_run, _.
  - exact (part_of_object_run "whose given field is " part m obj l).
  - etrans; [exact (part_of_pointer_run "whose given field is " part m (Some (Reference at_ obj)) l)|].
    cbn. unfold part_text. by rewrite -!string_app_assoc.
  - exact (part_of_object_run "whose given property is " part m obj l).
  - etrans; [exact (part_of_pointer_run "whose given property is " part m (Some (Reference at_ obj)) l)|].
    cbn. unfold part_text. by rewrite -!string_app_assoc.
  - eexists. split; [done|]. apply introduced_run, _.
  - cbn. unfold impl_MatchAndExplain, dynamic_cast_reference_match. destruct (dynamic_cast _) as [to|]; [apply MatchPrintAndExplain_run, _|by rewrite out_app].
  - by apply bool_decide_eq_true.
  - intros r' Hr. by apply bool_decide_eq_false.
Qed.

(** * Assertions *)

Section that.
Context {W : Type} `{!TestRun W, !gtest_library, !gtest_laws}.
Context {T M : Type} `{!MatcherCast T M, !UniversalPrinter T, !TypeName T}.

(** What a failing EXPECT_THAT tells. *)
Definition that_text (value_text : string) (m : MatcherInterface T) (x : T) : string :=
  "Value of: " +:+ value_text +:+ newline +:+ "Expected: " +:+ DescribeTo m +:+ newline +:+
  "  Actual: " +:+ printed x +:+ if_not_empty (explanation m x).

Lemma format_predicate_run (m : M) `{!Lawful (SafeMatcherCast T m)} (value_text : string) (x : T) :
  plain (that_text value_text (SafeMatcherCast T m) x) →
  let r := format_predicate (MakePredicateFormatterFromMatcher m) value_text x in
  success_ r = Matchers.Matches (SafeMatcherCast T m) x ∧
  (success_ r = false → failure_message r = that_text value_text (SafeMatcherCast T m) x).
Proof.
  intros Hp. unfold format_predicate, MakePredicateFormatterFromMatcher. rewrite MatchPrintAndExplain_run.
  destruct (Matchers.Matches _ x); [by rewrite AssertionSuccess_succeeds|].
  cbn zeta. match goal with |- context [stream_all _ ?t] =>
    change t with [that_text value_text (SafeMatcherCast T m) x] end.
  destruct (failure_streamed [that_text value_text (SafeMatcherCast T m) x]) as [-> ->]; [done|by constructor|].
  split; [done|]. intros _. cbn. by rewrite string_app_nil_r.
Qed.

(** EXPECT_THAT(value, m) and ASSERT_THAT(value, m) evaluate the value once. They do
    nothing when m accepts it, else they tell the test of one failure, with the text of the
    expression, what m says of itself, the value and the explanation, and only ASSERT_THAT
    makes the function return. *)
Theorem that_assertions (at_ : site) (value_text : string) (value : cmd W (tuple [T])) (x : T) (w w' : W)
    (m : M) `{!Lawful (SafeMatcherCast T m)} :
  value w = (Done (x, ()), w') →
  plain (that_text value_text (SafeMatcherCast T m) x) →
  let ok := Matchers.Matches (SafeMatcherCast T m) x in
  let text := that_text value_text (SafeMatcherCast T m) x in
  EXPECT_THAT at_ value_text value m w = report_unless false ok at_ text w' ∧
  ASSERT_THAT at_ value_text value m w = report_unless true ok at_ text w'.
Proof.
  intros Hv Hp ok text. destruct (format_predicate_run m value_text x Hp) as [Hok Hmsg].
  unfold EXPECT_THAT, ASSERT_THAT, macros1. split.
  - rewrite (pred_format_run false at_ _ _ _ _ _ _ Hv). cbn [uncurry_tuple names map fst snd].
    subst ok text. cbn zeta. rewrite -Hok. by apply report_unless_msg.
  - rewrite (pred_format_run true at_ _ _ _ _ _ _ Hv). cbn [uncurry_tuple names map fst snd].
    subst ok text. cbn zeta. rewrite -Hok. by apply report_unless_msg.
Qed.
End that.

(** * A sample *)

#[local] Instance print_int : UniversalPrinter Z := pretty.
#[local] Instance int_name : TypeName Z := "int".
#[local] Instance int_reference_name : TypeName (reference Z) := "int&".
#[local] Existing Instances sample_texts sample_gtest sample_gtest_laws.

(** A cast that only non-negative numbers pass. *)
#[local] Instance sample_cast : DynamicCast (raw_pointer (Z * Z)) (raw_pointer Z) := λ p,
  r ← p; if 0 <=? fst (referent r) then Some (Reference (referent_address r) (fst (referent r))) else None.

Lemma parts_matched_witness :
  let big := SafeMatcherCast Z (Gt 3) in
  MatchAndExplain (to_matcher (Pointee big)) (Some (Reference 1%positive 5) : raw_pointer Z) (Some EmptyString) =
    (true, Some "which points to 5 (of type int)") ∧
  MatchAndExplain (to_matcher (Field (fst : Z * Z → Z) big)) (2, 9) (Some EmptyString) =
    (false, Some "whose given field is 2 (of type int)").
Proof.
  intros big. assert (Lawful big) as Hb by apply _.
  pose proof (parts_matched (C:=Z * Z) big fst (2, 9) 7%positive (Reference 1%positive 5)
    (RefMatcherImpl (Reference 1%positive 5)) (Some EmptyString)) as (H1 & _ & H3 & _).
  split; [etrans; [exact H1|reflexivity]|etrans; [exact H3|reflexivity]].
Defined.

Lemma that_assertions_witness :
  EXPECT_THAT (T:=Z) sample_site "n" (mret (2, ())) (Not (Lt 3)) (SampleRun () []) =
    (Done Next, SampleRun () [(kNonFatalFailure, sample_site,
      "Value of: n" +:+ newline +:+ "Expected: isn't < 3" +:+ newline +:+ "  Actual: 2 (of type int)")]).
Proof.
  pose proof (that_assertions (W:=sample_run unit) (T:=Z) sample_site "n" (mret (2, ())) 2
    (SampleRun () []) (SampleRun () []) (Not (Lt 3)) eq_refl) as [-> _]; [done|reflexivity].
Defined.
