(* ===== verification/Rounding.v ===== *)
(** Subtraction of floating-point numbers as it rounds: the specification of IEEE 754 in the
    Standard Library (SpecFloat) against whole numbers, for FloatMatchers.v.

    A finite number of a format is counted in units of the smallest positive one, as in
    FloatingPoint.v; the difference of two such numbers is a whole number of them, and the
    subtraction gives the number of the format that is nearest to it, and of two that are equally
    near the one whose last bit is 0. *)

From Stdlib Require Import SpecFloat.
From S2P Require Import Prelude FloatingPoint.
#[local] Open Scope Z_scope.

(** * Rounding of whole numbers *)

(** The multiple of [k], divided by it, that is nearest to [d]. *)
Definition nearest (d k : Z) : Z :=
  let q := d `div` k in
  if 2 * (d `mod` k) <? k then q
  else if (2 * (d `mod` k) =? k) && Z.even q then q
  else q + 1.

Lemma nearest_scale d k c : 0 < k → 0 < c → nearest (d * c) (k * c) = nearest d k.
Proof.
  intros Hk Hc. unfold nearest. rewrite Z.div_mul_cancel_r; [lia..|]. rewrite Z.mul_mod_distr_r; [lia..|].
  destruct (Z.ltb_spec (2 * (d `mod` k)) k), (Z.ltb_spec (2 * (d `mod` k * c)) (k * c)); try nia; try done.
  destruct (Z.eqb_spec (2 * (d `mod` k)) k), (Z.eqb_spec (2 * (d `mod` k * c)) (k * c)); nia || done.
Qed.

Lemma nearest_exact q k : 0 < k → nearest (q * k) k = q.
Proof.
  intros Hk. unfold nearest. rewrite Z.div_mul; [lia|]. rewrite Z.mod_mul; [lia|]. by destruct (Z.ltb_spec (2 * 0) k); [|lia].
Qed.

(** * The shifts of SpecFloat *)

Lemma digits2_log2 m : Z.pos (digits2_pos m) = Z.log2 (Z.pos m) + 1.
Proof. induction m as [m IH|m IH|]; cbn [digits2_pos]; [..|done]; destruct m; cbn in *; lia. Qed.

Lemma Zdigits2_log2 m : 0 < m → Zdigits2 m = Z.log2 m + 1.
Proof. destruct m; [done|intros _; apply digits2_log2|done]. Qed.

Lemma iter_pos_iter {A} (f : A → A) n x : SpecFloat.iter_pos f n x = Pos.iter f x n.
Proof.
  revert x. induction n as [n IH|n IH|]; intros x; cbn; [|by rewrite !IH|done].
  rewrite !IH. by rewrite -!Pos.iter_swap.
Qed.

(** After [j] shifts of [d]: the quotient, the first bit shifted out, and whether others
    were set. *)
Definition shifted (d j : Z) (mrs : shr_record) : Prop :=
  0 ≤ shr_m mrs ∧ ∃ t, 0 ≤ t < 2 ^ j ∧ 2 * d = 2 * shr_m mrs * 2 ^ j + (if shr_r mrs then 2 ^ j else 0) + t ∧
  (shr_s mrs = true ↔ t ≠ 0).

Lemma shifted_step d j mrs : 0 ≤ j → shifted d j mrs → shifted d (j + 1) (shr_1 mrs).
Proof.
  intros Hj (Hm & t & Ht & Hd & Hs). destruct mrs as [m r s]. cbn [shr_m shr_r shr_s] in *.
  assert (0 < 2 ^ j) by (apply Z.pow_pos_nonneg; lia). unfold shifted. rewrite Z.pow_add_r; [lia..|].
  change (2 ^ 1) with 2.
  assert (∃ m' b, shr_1 (Build_shr_record m r s) = Build_shr_record m' b (r || s) ∧ 0 ≤ m' ∧
    m = 2 * m' + (if b then 1 else 0)) as (m' & b & -> & Hm' & ->).
  { destruct m as [|[p|p|]|]; [by exists 0, false|by exists (Z.pos p), true|by exists (Z.pos p), false|by exists 0, true|lia]. }
  cbn [shr_m shr_r shr_s]. split; [done|]. exists ((if r then 2 ^ j else 0) + t).
  split; [destruct r; lia|]. split; [destruct b, r; lia|].
  destruct r; cbn [orb]; [|exact Hs]. split; [lia|done].
Qed.

Lemma shifted_iter d n : 0 ≤ d → shifted d (Z.pos n) (SpecFloat.iter_pos shr_1 n (Build_shr_record d false false)).
Proof.
  intros Hd. rewrite iter_pos_iter.
  assert (shifted d 0 (Build_shr_record d false false)) as H0.
  { split; [done|]. exists 0. split; [done|]. split; [cbn [shr_m shr_r]; lia|]. by split. }
  induction n as [|n IH] using Pos.peano_ind.
  - by apply (shifted_step d 0).
  - rewrite Pos.iter_succ. replace (Z.pos (Pos.succ n)) with (Z.pos n + 1) by lia. by apply shifted_step.
Qed.

Lemma shifted_nearest d j mrs :
  0 ≤ j → shifted d j mrs → round_nearest_even (shr_m mrs) (loc_of_shr_record mrs) = nearest d (2 ^ j).
Proof.
  intros Hj (Hm & t & Ht & Hd & Hs). destruct mrs as [m r s]. cbn [shr_m shr_r shr_s] in *.
  assert (0 < 2 ^ j) as Hp by (apply Z.pow_pos_nonneg; lia).
  assert (∃ rem, 0 ≤ rem < 2 ^ j ∧ d = m * 2 ^ j + rem ∧ 2 * rem = (if r then 2 ^ j else 0) + t) as (rem & Hrem & -> & H2).
  { exists (d - m * 2 ^ j). destruct r; split_and!; lia. }
  unfold nearest. replace (m * 2 ^ j + rem) with (rem + m * 2 ^ j) by lia.
  rewrite Z.div_add; [lia|]. rewrite Z_mod_plus_full Z.mod_small // Z.div_small // Z.add_0_l H2.
  destruct r, s; cbn [loc_of_shr_record round_nearest_even].
  - assert (t ≠ 0) by by apply Hs. destruct (Z.ltb_spec (2 ^ j + t) (2 ^ j)); [lia|].
    by destruct (Z.eqb_spec (2 ^ j + t) (2 ^ j)); [lia|].
  - assert (t = 0) as -> by (destruct (decide (t = 0)) as [|Hn]; [done|by apply Hs in Hn]).
    rewrite Z.add_0_r Z.ltb_irrefl Z.eqb_refl. by destruct (Z.even m).
  - by destruct (Z.ltb_spec (0 + t) (2 ^ j)); [|lia].
  - by destruct (Z.ltb_spec (0 + t) (2 ^ j)); [|lia].
Qed.

(** * Rounding to a format *)

Section format.
Context (prec emax : Z) (prec_pos : 0 < prec).
Notation emin := (SpecFloat.emin prec emax).
Notation fexp := (SpecFloat.fexp prec emax).
Implicit Types (m : positive) (e d : Z).

(** The units of a number; the numbers that the format writes so. *)
Definition units m e : Z := Z.pos m * 2 ^ (e - emin).
Definition canonical m e : Prop := fexp (Z.log2 (Z.pos m) + 1 + e) = e.

(** A number of units is rounded to a multiple of [2 ^ spare d], so that [prec] digits are left. *)
Definition spare d : Z := Z.max 0 (Z.log2 d + 1 - prec).
Definition rounded d : Z := nearest d (2 ^ spare d) * 2 ^ spare d.

Lemma pow_spare_pos d : 0 < 2 ^ spare d.
Proof. apply Z.pow_pos_nonneg; unfold spare; lia. Qed.

Lemma fexp_ge e : emin ≤ fexp e.
Proof. unfold SpecFloat.fexp. lia. Qed.

Lemma canonical_ge m e : canonical m e → emin ≤ e.
Proof. unfold canonical. intros <-. apply fexp_ge. Qed.

Lemma log2_units m e : emin ≤ e → Z.log2 (units m e) = Z.log2 (Z.pos m) + (e - emin).
Proof. intros He. unfold units. rewrite Z.log2_mul_pow2; lia. Qed.

(** The exponent of the rounded number. *)
Lemma fexp_spare m e : emin ≤ e → fexp (Z.log2 (Z.pos m) + 1 + e) = emin + spare (units m e).
Proof. intros He. unfold spare. rewrite log2_units //. unfold SpecFloat.fexp. lia. Qed.


(** Numbers that the format writes are compared as their units. *)
Lemma canonical_compare m1 e1 m2 e2 :
  canonical m1 e1 → canonical m2 e2 → e1 < e2 → units m1 e1 < units m2 e2.
Proof.
  intros H1 H2 He. pose proof (canonical_ge _ _ H1) as Hm. unfold canonical, SpecFloat.fexp in *.
  assert (Z.log2 (Z.pos m1) < prec) as Hl1 by lia. assert (Z.log2 (Z.pos m2) = prec - 1) as Hl2 by lia.
  pose proof (Z.log2_spec (Z.pos m1) ltac:(lia)) as [_ Hu]. pose proof (Z.log2_spec (Z.pos m2) ltac:(lia)) as [Hlo _].
  assert (Z.pos m1 < 2 ^ prec) as Hb1.
  { eapply Z.lt_le_trans; [exact Hu|]. apply Z.pow_le_mono_r; lia. }
  rewrite Hl2 in Hlo. unfold units. clear H1 H2 Hu Hl1 Hl2.
  assert (2 ^ (e2 - emin) = 2 ^ (e2 - e1 - 1) * 2 * 2 ^ (e1 - emin)) as ->.
  { rewrite -(Z.pow_add_r 2 (e2 - e1 - 1) 1) -?Z.pow_add_r; [lia..|]. f_equal. lia. }
  assert (0 < 2 ^ (e1 - emin)) by (apply Z.pow_pos_nonneg; lia).
  assert (0 < 2 ^ (e2 - e1 - 1)) by (apply Z.pow_pos_nonneg; lia).
  assert (2 ^ prec = 2 ^ (prec - 1) * 2) as Hpp by (rewrite Z.mul_comm -Z.pow_succ_r; [lia|f_equal; lia]).
  rewrite Z.mul_assoc. apply Z.mul_lt_mono_pos_r; [done|].
  assert (Z.pos m2 * 1 ≤ Z.pos m2 * 2 ^ (e2 - e1 - 1)) by (apply Z.mul_le_mono_nonneg_l; lia). lia.
Qed.

Lemma canonical_leb m1 e1 m2 e2 :
  canonical m1 e1 → canonical m2 e2 →
  SFleb (S754_finite false m1 e1) (S754_finite false m2 e2) = (units m1 e1 <=? units m2 e2).
Proof.
  intros H1 H2. unfold SFleb. cbn [SFcompare]. destruct (Z.compare_spec e1 e2) as [->|Hlt|Hlt].
  - pose proof (canonical_ge _ _ H1). assert (0 < 2 ^ (e2 - emin)) by (apply Z.pow_pos_nonneg; lia).
    change (Pos.compare_cont Datatypes.Eq m1 m2) with (Pos.compare m1 m2).
    destruct (Pos.compare_spec m1 m2) as [->|Hm|Hm]; unfold units; symmetry;
      [apply Z.leb_le|apply Z.leb_le|apply Z.leb_gt]; nia.
  - pose proof (canonical_compare _ _ _ _ H1 H2 Hlt). symmetry. apply Z.leb_le. lia.
  - pose proof (canonical_compare _ _ _ _ H2 H1 Hlt). symmetry. apply Z.leb_gt. lia.
Qed.

(** A shift to the exponent that the format gives a number, which is not below its own. *)
Lemma shr_fexp_run q (m : positive) e :
  q = Z.pos m → emin ≤ e → e ≤ emin + spare (units m e) →
  ∃ mrs, shr_fexp prec emax q e loc_Exact = (mrs, emin + spare (units m e)) ∧
    shifted q (emin + spare (units m e) - e) mrs.
Proof.
  intros -> He Hs. unfold shr_fexp. rewrite Zdigits2_log2 // fexp_spare // /shr.
  destruct (emin + spare (units m e) - e) as [|n|n] eqn:Hn; [| |lia].
  - eexists. split; [f_equal; lia|]. split; [done|]. exists 0. cbn. split_and!; [done..|lia|done].
  - eexists. split; [f_equal; lia|]. by apply shifted_iter.
Qed.

(** What the format writes needs no shift. *)
Lemma shr_fexp_canonical q (m : positive) e :
  q = Z.pos m → canonical m e → shr_fexp prec emax q e loc_Exact = (Build_shr_record q false false, e).
Proof. intros -> Hc. unfold shr_fexp. rewrite Zdigits2_log2 // Hc Z.sub_diag. done. Qed.

(** The last bits, after which the number is rounded, are those that the format has no room for. *)
Lemma nearest_units m e : emin ≤ e → e ≤ emin + spare (units m e) →
  nearest (Z.pos m) (2 ^ (emin + spare (units m e) - e)) = nearest (units m e) (2 ^ spare (units m e)).
Proof.
  intros He Hs. assert (0 < 2 ^ (e - emin)) as Hp by (apply Z.pow_pos_nonneg; lia).
  rewrite -(nearest_scale (Z.pos m) _ (2 ^ (e - emin))) //; [apply Z.pow_pos_nonneg; lia|].
  f_equal. rewrite -Z.pow_add_r; [lia..|]. f_equal. lia.
Qed.

(** Rounding leaves no more than one digit too many. *)
Lemma nearest_digits m e : emin ≤ e → e ≤ emin + spare (units m e) →
  let q := nearest (Z.pos m) (2 ^ (emin + spare (units m e) - e)) in
  q = Z.pos m ∧ canonical m e ∧ e = emin + spare (units m e) ∨ 2 ^ (prec - 1) ≤ q ≤ 2 ^ prec.
Proof.
  intros He Hs q. destruct (decide (e = emin + spare (units m e))) as [Heq|Hne].
  { left. split_and!; [|by unfold canonical; rewrite fexp_spare|done]. unfold q.
    replace (emin + spare (units m e) - e) with 0 by lia.
    by rewrite -{1}(Z.mul_1_r (Z.pos m)) (nearest_exact (Z.pos m) 1). }
  right. set (n := emin + spare (units m e) - e) in *.
  assert (n = Z.log2 (Z.pos m) + 1 - prec ∧ 0 < n) as [Hn Hpos].
  { subst n. unfold spare in *. rewrite log2_units // in Hne Hs |- *. lia. }
  pose proof (Z.log2_spec (Z.pos m) ltac:(lia)) as [Hlo Hhi].
  replace (Z.log2 (Z.pos m)) with (prec - 1 + n) in Hlo by lia.
  replace (Z.succ (Z.log2 (Z.pos m))) with (prec + n) in Hhi by lia.
  rewrite Z.pow_add_r in Hlo; [lia..|]. rewrite Z.pow_add_r in Hhi; [lia..|].
  assert (0 < 2 ^ n) as Hp by (apply Z.pow_pos_nonneg; lia).
  assert (2 ^ (prec - 1) ≤ Z.pos m `div` 2 ^ n) as H1 by (apply Z.div_le_lower_bound; lia).
  assert (Z.pos m `div` 2 ^ n < 2 ^ prec) as H2 by (apply Z.div_lt_upper_bound; lia).
  unfold q, nearest. destruct (_ <? _); [lia|]. destruct (_ && _); lia.
Qed.

(** The second shift of a rounding, after a carry into one digit more. *)
Lemma rounded_carry q k : 0 ≤ k → 2 ^ (prec - 1) ≤ q ≤ 2 ^ prec → 
  ∃ m e, shr_fexp prec emax q (emin + k) loc_Exact = (Build_shr_record (Z.pos m) false false, e) ∧
    canonical m e ∧ units m e = q * 2 ^ k.
Proof.
  intros Hk [Hlo Hhi]. assert (0 < 2 ^ (prec - 1)) by (apply Z.pow_pos_nonneg; lia).
  destruct q as [|m|m]; [lia| |lia]. destruct (decide (Z.pos m = 2 ^ prec)) as [Heq|Hne].
  - assert (2 ^ prec = 2 ^ (prec - 1) * 2) as Hpp by (rewrite Z.mul_comm -Z.pow_succ_r; [lia|f_equal; lia]).
    destruct m as [m'|m'|]; [lia| |lia]. assert (Z.pos m' = 2 ^ (prec - 1)) as Hm' by lia.
    assert (Z.log2 (Z.pos m'~0) = prec) as Hl by (rewrite Heq Z.log2_pow2; lia).
    assert (Z.log2 (Z.pos m') = prec - 1) as Hl' by (rewrite Hm' Z.log2_pow2; lia).
    exists m', (emin + k + 1). split_and!.
    + unfold shr_fexp. rewrite Zdigits2_log2 // Hl /SpecFloat.fexp.
      by replace (Z.max (prec + 1 + (emin + k) - prec) emin - (emin + k)) with 1 by lia.
    + unfold canonical. rewrite Hl' /SpecFloat.fexp. lia.
    + unfold units. replace (emin + k + 1 - emin) with (k + 1) by lia. rewrite Z.pow_add_r; [lia..|].
      change (Z.pos m'~0) with (2 * Z.pos m'). lia.
  - assert (Z.log2 (Z.pos m) = prec - 1) as Hl.
    { apply Z.log2_unique; [lia|]. split; [done|]. replace (Z.succ (prec - 1)) with prec by lia. lia. }
    assert (canonical m (emin + k)) as Hc by (unfold canonical; rewrite Hl /SpecFloat.fexp; lia).
    exists m, (emin + k). split_and!; [by apply (shr_fexp_canonical _ m)|done|].
    unfold units. do 2 f_equal. lia.
Qed.

(** The result of a rounding: the number of the format that has these units, or the infinity when
    its exponent is too great. *)
Definition writes (s : bool) d (x : spec_float) : Prop :=
  ∃ m e, canonical m e ∧ units m e = d ∧
    x = if e <=? emax - prec then S754_finite s m e else S754_infinity s.

(** An aligned number is the same number, and not above the exponent of the format. *)
Lemma shl_align_run m e : emin ≤ e →
  ∃ m' e', shl_align m e (fexp (Z.pos (digits2_pos m) + e)) = (m', e') ∧
    emin ≤ e' ∧ units m' e' = units m e ∧ e' ≤ emin + spare (units m e).
Proof.
  intros He. rewrite digits2_log2 fexp_spare // /shl_align.
  assert (0 ≤ spare (units m e)) by (unfold spare; lia).
  destruct (emin + spare (units m e) - e) as [|n|n] eqn:Hn; [by exists m, e; split_and!; [..|lia]|by exists m, e; split_and!; [..|lia]|].
  exists (Pos.iter xO m n), (emin + spare (units m e)). split_and!; [done|lia| |lia].
  assert (Z.pos (Pos.iter xO m n) = Z.pos m * 2 ^ Z.pos n) as Hpow.
  { clear. induction n as [|n IH] using Pos.peano_ind; [cbn; lia|].
    rewrite Pos.iter_succ Pos2Z.inj_succ Z.pow_succ_r // Pos2Z.inj_xO IH. lia. }
  set (k := spare (units m e)) in *. unfold units. rewrite Hpow -Z.mul_assoc -Z.pow_add_r; [lia..|].
  do 2 f_equal. lia.
Qed.

Lemma binary_round_writes s m e :
  emin ≤ e → writes s (rounded (units m e)) (binary_round prec emax s m e).
Proof.
  intros He. unfold binary_round. destruct (shl_align_run m e He) as (m' & e' & -> & He' & Hu & Hs). rewrite -Hu in Hs |- *.
  unfold binary_round_aux. destruct (shr_fexp_run _ m' e' eq_refl He' Hs) as (mrs & -> & Hsh).
  rewrite (shifted_nearest _ (emin + spare (units m' e') - e') _ ltac:(lia) Hsh). unfold rounded. rewrite -nearest_units //.
  destruct (nearest_digits m' e' He' Hs) as [(-> & Hc & Heq)|Hq].
  - rewrite -Heq (shr_fexp_canonical _ m') //. cbn [shr_m].
    exists m', e'. split_and!; [done| |done]. unfold units at 1. do 2 f_equal. lia.
  - destruct (rounded_carry _ (spare (units m' e')) ltac:(unfold spare; lia) Hq) as (m2 & e2 & -> & Hc & Hu2).
    by exists m2, e2.
Qed.

Lemma rounded_zero : rounded 0 = 0.
Proof. unfold rounded. by rewrite -{1}(Z.mul_0_l (2 ^ spare 0)) nearest_exact; [apply pow_spare_pos|]. Qed.

(** Numbers of the format are not rounded. *)
Lemma rounded_canonical m e : canonical m e → rounded (units m e) = units m e.
Proof.
  intros Hc. pose proof (canonical_ge _ _ Hc) as He. pose proof (fexp_spare m e He) as Hf. unfold canonical in Hc.
  assert (spare (units m e) = e - emin) as Hs by lia.
  unfold rounded. rewrite Hs {1}/units nearest_exact //. apply Z.pow_pos_nonneg; lia.
Qed.
End format.

(** * Rounding and the order of a format *)

Section bound.
Context {R : RawType}.
Notation F := kFractionBitCount.
Notation prec := (F + 1).
Implicit Types (d i j k q : Z).

Lemma half_prec : 0 < 2 ^ F ∧ 2 ^ prec = 2 ^ F * 2 ∧ 2 ^ F = 2 ^ (F - 1) * 2.
Proof.
  pose proof fraction_pos. split; [apply Z.pow_pos_nonneg; lia|].
  split; rewrite Z.mul_comm -Z.pow_succ_r; try lia; f_equal; lia.
Qed.

(** The magnitudes whose numbers have the exponent [k]. *)
Lemma magnitude_value_at k q : 0 ≤ k → 2 ^ F ≤ q ≤ 2 ^ prec → magnitude_value (k * 2 ^ F + q) = q * 2 ^ k.
Proof.
  intros Hk Hq. destruct half_prec as (Hp & Hpp & _). unfold magnitude_value.
  destruct (decide (q = 2 ^ prec)) as [->|Hne].
  - replace (k * 2 ^ F + 2 ^ prec) with (0 + (k + 2) * 2 ^ F) by lia.
    rewrite Z_mod_plus_full Z.div_add; [lia|]. rewrite Z.mod_0_l; [lia|]. rewrite Z.div_0_l; [lia|].
    rewrite (proj2 (Z.eqb_neq _ _)); [lia|]. replace (0 + (k + 2) - 1) with (Z.succ k) by lia.
    rewrite Z.pow_succ_r //. lia.
  - replace (k * 2 ^ F + q) with (q - 2 ^ F + (k + 1) * 2 ^ F) by lia.
    rewrite Z_mod_plus_full Z.div_add; [lia|]. rewrite Z.mod_small; [lia|]. rewrite Z.div_small; [lia|].
    rewrite (proj2 (Z.eqb_neq _ _)); [lia|]. replace (0 + (k + 1) - 1) with k by lia. f_equal. lia.
Qed.

Lemma magnitude_value_small d : 0 ≤ d ≤ 2 ^ F → magnitude_value d = d.
Proof.
  intros Hd. destruct half_prec as (Hp & Hpp & _). destruct (decide (d = 2 ^ F)) as [->|Hne].
  - assert (magnitude_value (0 * 2 ^ F + 2 ^ F) = 2 ^ F * 2 ^ 0) as H by (apply magnitude_value_at; lia).
    by rewrite Z.mul_0_l Z.add_0_l Z.mul_1_r in H.
  - unfold magnitude_value. rewrite Z.div_small; [lia|]. by rewrite Z.mod_small; [lia|].
Qed.

(** A number of units lies between two neighbours of the format, the multiples it is rounded to. *)
Lemma neighbours d : 0 ≤ d →
  let k := 2 ^ spare prec d in
  ∃ i, 0 ≤ i ∧ magnitude_value i = d `div` k * k ∧ magnitude_value (i + 1) = (d `div` k + 1) * k ∧
    Z.even i = Z.even (d `div` k).
Proof.
  intros Hd k. destruct half_prec as (Hp & Hpp & Hev). pose proof fraction_pos as HF.
  destruct (decide (d < 2 ^ F)) as [Hlt|Hge].
  - assert (k = 1) as ->.
    { unfold k, spare. replace (Z.max _ _) with 0; [done|]. destruct (decide (d = 0)) as [->|]; [cbn; lia|].
      assert (Z.log2 d < F) by (apply Z.log2_lt_pow2; lia). lia. }
    exists d. rewrite Z.div_1_r !Z.mul_1_r !magnitude_value_small; [lia..|]. done.
  - set (s := spare prec d) in *.
    assert (F ≤ Z.log2 d) as Hlog by (apply Z.log2_le_pow2; lia).
    assert (0 ≤ s ∧ s = Z.log2 d - F) as [Hs Hsl] by (subst s; unfold spare; lia).
    pose proof (Z.log2_spec d ltac:(lia)) as [Hlo Hhi].
    replace (Z.log2 d) with (F + s) in Hlo by lia. replace (Z.succ (Z.log2 d)) with (prec + s) in Hhi by lia.
    rewrite Z.pow_add_r in Hlo; [lia..|]. rewrite Z.pow_add_r in Hhi; [lia..|].
    assert (0 < k) as Hk by (apply Z.pow_pos_nonneg; lia).
    assert (2 ^ F ≤ d `div` k) as H1 by (apply Z.div_le_lower_bound; unfold k; lia).
    assert (d `div` k < 2 ^ prec) as H2 by (apply Z.div_lt_upper_bound; unfold k; lia).
    exists (s * 2 ^ F + d `div` k). split_and!; [nia|by apply magnitude_value_at; lia| |].
    + rewrite -Z.add_assoc. apply magnitude_value_at; lia.
    + rewrite Z.even_add Z.even_mul Hev Z.even_mul. change (Z.even 2) with true. rewrite !orb_true_r.
      by destruct (Z.even (d `div` k)).
Qed.

Lemma magnitude_value_le i j : 0 ≤ i → i ≤ j → magnitude_value i ≤ magnitude_value j.
Proof.
  intros Hi Hij. destruct (decide (i = j)) as [->|]; [done|]. pose proof (magnitude_value_mono i j Hi). lia.
Qed.

(** Rounding takes a number of units up to another number of the format exactly when it is nearer to
    that number, or to one below, than to the next one, or equally near and the last bit is 0. *)
Lemma rounded_le d j : 0 ≤ d → 0 ≤ j →
  (rounded prec d <=? magnitude_value j) =
    (2 * d <? magnitude_value j + magnitude_value (j + 1)) ||
    ((2 * d =? magnitude_value j + magnitude_value (j + 1)) && Z.even j).
Proof.
  intros Hd Hj. destruct (neighbours d Hd) as (i & Hi & Hlo & Hhi & Hev). unfold rounded, nearest. rewrite -Hev.
  pose proof (pow_spare_pos prec d) as Hk. set (k := 2 ^ spare prec d) in *.
  pose proof (Z.div_mod d k ltac:(lia)) as Hdm. pose proof (Z.mod_pos_bound d k Hk) as Hr.
  set (q := d `div` k) in *. set (r := d `mod` k) in *.
  set (a := magnitude_value j) in *. set (b := magnitude_value (j + 1)).
  assert (a < b) as Hab by (apply magnitude_value_mono; lia).
  set (n := (if 2 * r <? k then q else if (2 * r =? k) && Z.even i then q else q + 1) * k).
  assert (q * k ≤ n ≤ q * k + k) as Hn.
  { subst n. destruct (2 * r <? k); [lia|]. destruct (_ && _); lia. }
  destruct (Z.lt_trichotomy i j) as [Hij|[->|Hij]].
  - pose proof (magnitude_value_le (i + 1) j ltac:(lia) ltac:(lia)) as Hle. fold a in Hle.
    rewrite (proj2 (Z.leb_le _ _)); [lia|]. symmetry. apply orb_true_iff. left. apply Z.ltb_lt. lia.
  - fold a in Hlo. fold b in Hhi. subst n.
    destruct (Z.ltb_spec (2 * r) k) as [H1|H1].
    + rewrite (proj2 (Z.leb_le _ _)); [lia|]. symmetry. apply orb_true_iff. left. apply Z.ltb_lt. lia.
    + rewrite (proj2 (Z.ltb_ge (2 * d) _)); [lia|]. cbn [orb].
      destruct (Z.eqb_spec (2 * r) k) as [H2|H2]; cbn [andb].
      * rewrite (proj2 (Z.eqb_eq _ _)); [lia|]. cbn [andb].
        destruct (Z.even j); [apply Z.leb_le; lia|apply Z.leb_gt; lia].
      * rewrite (proj2 (Z.eqb_neq _ _)); [lia|]. apply Z.leb_gt. lia.
  - pose proof (magnitude_value_le (j + 1) i ltac:(lia) ltac:(lia)) as Hle. fold b in Hle.
    rewrite (proj2 (Z.leb_gt _ _)); [lia|]. rewrite (proj2 (Z.ltb_ge _ _)); [lia|].
    by rewrite (proj2 (Z.eqb_neq _ _)); [lia|].
Qed.
End bound.
