(* ===== verification/FloatMatchers.v ===== *)
(** Floating-point numbers in matchers and assertions: FloatingEqMatcher of
    src/gtest/include/gmock/gmock-matchers.h (FloatEq, DoubleNear, ...), and
    CmpHelperFloatingPointEQ with EXPECT_FLOAT_EQ, EXPECT_NEAR, ... of
    src/gtest/include/gtest/gtest.h.

    A number is its bits, as in FloatingPoint.v; ==, <=, - and fabs are those of
    IEEE 754, as the Standard Library specifies them on decoded numbers. The text of a
    number is the class [FloatStream]. *)

From Stdlib Require Import SpecFloat.
From S2P Require Import Prelude FloatingPoint Rounding Tuples Printers Assertions Matchers MatcherTypes.
#[local] Open Scope Z_scope.
#[local] Open Scope listener_scope.

(** * The arithmetic *)

#[export] Instance spec_float_eq_dec : EqDecision spec_float.
Proof. solve_decision. Defined.

Section arithmetic.
Context {R : RawType}.

Definition prec : Z := kFractionBitCount + 1.
Definition emax : Z := 2 ^ (kExponentBitCount - 1).

(** The number that the bits stand for. *)
Definition decode (b : Z) : spec_float :=
  let s := negb (sign_bit b =? 0) in
  let e := Z.shiftr (exponent_bits b) kFractionBitCount in
  let f := fraction_bits b in
  if is_nan b then S754_nan
  else if exponent_bits b =? kExponentBitMask then S754_infinity s
  else if e =? 0 then
    if f =? 0 then S754_zero s else S754_finite s (Z.to_pos f) (emin prec emax)
  else S754_finite s (Z.to_pos (2 ^ kFractionBitCount + f)) (emin prec emax + e - 1).

Definition minus (x y : spec_float) : spec_float := SFsub prec emax x y.

(** 0 and -1. *)
Definition zero_bits : Z := 0.
Definition minus_one_bits : Z := Z.lor kSignBitMask (Z.shiftl (emax - 1) kFractionBitCount).

(** std::numeric_limits<RawType>::digits10: the decimal digits that always survive. *)
Definition digits10 : Z := kFractionBitCount * 30103 `div` 100000.
End arithmetic.

(** *os << x with a precision, for a number and for the result of a subtraction; and
    StringStreamToString(ss), on the text of the stream. *)
Class FloatStream : Type := {
  stream_float : Z → Z → string;
  stream_difference : Z → spec_float → string;
  StringStreamToString : string → string;
}.
Definition default_precision : Z := 6.

(** * FloatingEqMatcher *)

(** A FloatType, for each format. *)
Record number (R : RawType) : Type := Number { bits : Z }.
Arguments Number {R} _.
Arguments bits {R} _.

Record FloatingEqMatcher (R : RawType) : Type := MkFloatingEq {
  expected_ : Z;
  nan_eq_nan_ : bool;
  max_abs_error_ : Z;
}.
Arguments MkFloatingEq {R} _ _ _.
Arguments expected_ {R} _.
Arguments nan_eq_nan_ {R} _.
Arguments max_abs_error_ {R} _.

Section matcher.
Context {R : RawType} `{!FloatStream}.

(** The constructors; the second ends the program when the bound is negative or NaN. *)
Definition new_FloatingEqMatcher (expected : Z) (nan_eq_nan : bool) : FloatingEqMatcher R :=
  MkFloatingEq expected nan_eq_nan minus_one_bits.
Definition new_FloatingEqMatcher_near (expected : Z) (nan_eq_nan : bool) (max_abs_error : Z) : outcome (FloatingEqMatcher R) :=
  if SFleb (decode zero_bits) (decode max_abs_error) then Done (MkFloatingEq expected nan_eq_nan max_abs_error)
  else Aborted.

Implicit Types m : FloatingEqMatcher R.

(** Impl<T>, which has a copy of the members. *)
Definition HasMaxAbsError m : bool := SFleb (decode zero_bits) (decode (max_abs_error_ m)).

Definition FloatingEq_match m (value : Z) (listener : MatchResultListener) : bool * MatchResultListener :=
  let actual := value in
  let expected := expected_ m in
  if is_nan actual || is_nan expected then
    if is_nan actual && is_nan expected then (nan_eq_nan_ m, listener) else (false, listener)
  else if HasMaxAbsError m then
    if SFeqb (decode value) (decode expected) then (true, listener)
    else
      let diff := minus (decode value) (decode expected) in
      if SFleb (SFabs diff) (decode (max_abs_error_ m)) then (true, listener)
      else if IsInterested listener then
        (false, listener << "which is " << stream_difference default_precision diff << " from "
                         << stream_float default_precision expected)
      else (false, listener)
  else (AlmostEquals actual expected, listener).

Definition FloatingEq_describe m : string :=
  let precision := digits10 + 2 in
  if is_nan (expected_ m) then if nan_eq_nan_ m then "is NaN" else "never matches"
  else
    "is approximately " +:+ stream_float precision (expected_ m) +:+
    if HasMaxAbsError m then " (absolute error <= " +:+ stream_float precision (max_abs_error_ m) +:+ ")"
    else EmptyString.

Definition FloatingEq_describe_negation m : string :=
  let precision := digits10 + 2 in
  if is_nan (expected_ m) then if nan_eq_nan_ m then "isn't NaN" else "is anything"
  else
    "isn't approximately " +:+ stream_float precision (expected_ m) +:+
    if HasMaxAbsError m then " (absolute error > " +:+ stream_float precision (max_abs_error_ m) +:+ ")"
    else EmptyString.

(** The conversions to Matcher<FloatType>, by value and by reference. *)
#[export] Instance FloatingEq_to_matcher : ToMatcher (FloatingEqMatcher R) (number R) := λ m,
  MkMatcher (λ value, FloatingEq_match m (bits value)) (FloatingEq_describe m) (FloatingEq_describe_negation m).
End matcher.

(** ** The functions *)

Definition FloatEq (rhs : number Float) : FloatingEqMatcher Float := new_FloatingEqMatcher (bits rhs) false.
Definition NanSensitiveFloatEq (rhs : number Float) : FloatingEqMatcher Float := new_FloatingEqMatcher (bits rhs) true.
Definition FloatNear (rhs max_abs_error : number Float) : outcome (FloatingEqMatcher Float) :=
  new_FloatingEqMatcher_near (bits rhs) false (bits max_abs_error).
Definition NanSensitiveFloatNear (rhs max_abs_error : number Float) : outcome (FloatingEqMatcher Float) :=
  new_FloatingEqMatcher_near (bits rhs) true (bits max_abs_error).
Definition DoubleEq (rhs : number Double) : FloatingEqMatcher Double := new_FloatingEqMatcher (bits rhs) false.
Definition NanSensitiveDoubleEq (rhs : number Double) : FloatingEqMatcher Double := new_FloatingEqMatcher (bits rhs) true.
Definition DoubleNear (rhs max_abs_error : number Double) : outcome (FloatingEqMatcher Double) :=
  new_FloatingEqMatcher_near (bits rhs) false (bits max_abs_error).
Definition NanSensitiveDoubleNear (rhs max_abs_error : number Double) : outcome (FloatingEqMatcher Double) :=
  new_FloatingEqMatcher_near (bits rhs) true (bits max_abs_error).

(** * Assertions *)

Section assertions.
Context {R : RawType} `{!FloatStream, !gtest_library}.

Definition CmpHelperFloatingPointEQ (lhs_expression rhs_expression : string) (lhs_value rhs_value : number R)
    : AssertionResult :=
  if AlmostEquals (bits lhs_value) (bits rhs_value) then AssertionSuccess
  else
    let lhs_ss := stream_float (digits10 + 2) (bits lhs_value) in
    let rhs_ss := stream_float (digits10 + 2) (bits rhs_value) in
    EqFailure lhs_expression rhs_expression (StringStreamToString lhs_ss) (StringStreamToString rhs_ss) false.
End assertions.

Section statements.
Context `{!FloatStream, !gtest_library} {W : Type} `{!TestRun W}.
Implicit Types (texts : tuple [string : Type; string : Type]).

Definition EXPECT_FLOAT_EQ (at_ : site) texts (vals : cmd W (tuple [number Float : Type; number Float : Type])) : statement W :=
  EXPECT_PRED_FORMAT macros2 at_ CmpHelperFloatingPointEQ texts vals.
Definition EXPECT_DOUBLE_EQ (at_ : site) texts (vals : cmd W (tuple [number Double : Type; number Double : Type])) : statement W :=
  EXPECT_PRED_FORMAT macros2 at_ CmpHelperFloatingPointEQ texts vals.
Definition ASSERT_FLOAT_EQ (at_ : site) texts (vals : cmd W (tuple [number Float : Type; number Float : Type])) : statement W :=
  ASSERT_PRED_FORMAT macros2 at_ CmpHelperFloatingPointEQ texts vals.
Definition ASSERT_DOUBLE_EQ (at_ : site) texts (vals : cmd W (tuple [number Double : Type; number Double : Type])) : statement W :=
  ASSERT_PRED_FORMAT macros2 at_ CmpHelperFloatingPointEQ texts vals.
End statements.

(** DoubleNearPredFormat, which the header only declares. *)
Class DoubleNear_library : Type :=
  DoubleNearPredFormat : string → string → string → number Double → number Double → number Double → AssertionResult.

Section near.
Context `{!DoubleNear_library, !gtest_library} {W : Type} `{!TestRun W}.
Notation doubles := [number Double : Type; number Double : Type; number Double : Type].

Definition EXPECT_NEAR (at_ : site) (texts : tuple (names doubles)) (vals : cmd W (tuple doubles)) : statement W :=
  EXPECT_PRED_FORMAT macros3 at_ DoubleNearPredFormat texts vals.
Definition ASSERT_NEAR (at_ : site) (texts : tuple (names doubles)) (vals : cmd W (tuple doubles)) : statement W :=
  ASSERT_PRED_FORMAT macros3 at_ DoubleNearPredFormat texts vals.
End near.

(** * Lemmas *)

#[local] Arguments String.append : simpl never.

(** ** Subtraction and comparison *)

Section arithmetic_lemmas.
Implicit Types x y : spec_float.
Context (p e : Z).

Lemma SFabs_round (s t : bool) m n : SFabs (binary_round p e s m n) = SFabs (binary_round p e t m n).
Proof.
  unfold binary_round. destruct (shl_align _ _ _) as [mz ez]. unfold binary_round_aux.
  destruct (shr_fexp _ _ _ _ _) as [mrs' e']. destruct (shr_fexp _ _ _ _ _) as [mrs'' e''].
  destruct (shr_m mrs''); [done| |done]. by destruct (_ <=? _).
Qed.

Lemma SFabs_normalize m n : SFabs (binary_normalize p e (- m) n false) = SFabs (binary_normalize p e m n false).
Proof. destruct m; [done|apply SFabs_round..]. Qed.

Lemma SFabs_sub_comm x y : SFabs (SFsub p e x y) = SFabs (SFsub p e y x).
Proof.
  destruct x as [[]|[]| |sx mx ex], y as [[]|[]| |sy my ey]; try done. cbn -[binary_normalize].
  rewrite (Z.min_comm ey). rewrite -SFabs_normalize. do 2 f_equal. lia.
Qed.

Lemma SFeqb_comm x y : SFeqb x y = SFeqb y x.
Proof.
  assert (∀ p q, Pos.compare_cont Datatypes.Eq q p = CompOpp (Pos.compare_cont Datatypes.Eq p q)) as Hanti.
  { intros p' q. by rewrite Pos.compare_cont_antisym. }
  unfold SFeqb. destruct x as [[]|[]| |[] mx ex], y as [[]|[]| |[] my ey]; try done; cbn;
    rewrite (Z.compare_antisym ex ey) (Hanti mx my);
    destruct (ex ?= ey), (Pos.compare_cont Datatypes.Eq mx my); done.
Qed.

Lemma SFeqb_refl x : x ≠ S754_nan → SFeqb x x = true.
Proof.
  intros Hx. unfold SFeqb. destruct x as [[]|[]| |[] mx ex]; try done; cbn;
    rewrite Z.compare_refl; by change (Pos.compare_cont Datatypes.Eq mx mx) with (mx ?= mx)%positive; rewrite Pos.compare_refl.
Qed.

Lemma bound_checked x :
  SFleb (S754_zero false) x = false → x = S754_nan ∨ SFltb x (S754_zero false) = true.
Proof. destruct x as [[]|[]| |[] mx ex]; cbv; auto. Qed.
End arithmetic_lemmas.

(** ** Finite numbers and their differences *)

Section finite_numbers.
Context {R : RawType} (emax_big : 2 ≤ emax).
Implicit Types (b x y e : Z).
Notation units := (Rounding.units prec emax).
Notation canonical := (Rounding.canonical prec emax).
Notation writes := (Rounding.writes prec emax).
Notation rounded := (Rounding.rounded prec).
Notation emin := (SpecFloat.emin prec emax).

Lemma prec_pos : 0 < prec.
Proof. pose proof fraction_pos. unfold prec. lia. Qed.

Lemma magnitude_exponent b :
  finite b → 0 ≤ magnitude b `div` 2 ^ kFractionBitCount < 2 * emax - 1.
Proof.
  unfold finite, Infinity. rewrite kExponentBitMask_eq. intros Hb. pose proof (magnitude_range b) as Hr.
  destruct half_prec as (Hp & _). pose proof exponent_pos.
  assert (2 ^ kExponentBitCount = 2 * emax) as <-.
  { unfold emax. rewrite -Z.pow_succ_r; [|f_equal]; unfold kExponentBitCount; lia. }
  split; [apply Z.div_pos; lia|]. apply Z.div_lt_upper_bound; [done|lia].
Qed.

#[export] Instance finite_dec b : Decision (finite b) := decide (magnitude b < Infinity).

Lemma sign_negative b : bits_ok b → negb (sign_bit b =? 0) = negative b.
Proof. intros Hb. unfold sign_bit. by rewrite sign_land // negb_involutive. Qed.

(** A finite number is decoded to its sign and its units. *)
Lemma decode_finite b : bits_ok b → finite b →
  decode b = S754_zero (negative b) ∧ magnitude b = 0 ∨
  ∃ m e, decode b = S754_finite (negative b) m e ∧ canonical m e ∧ e ≤ emax - prec ∧
    units m e = magnitude_value (magnitude b).
Proof.
  intros Hb Hfin. pose proof (magnitude_exponent b Hfin) as He. destruct half_prec as (Hp & Hpp & _).
  pose proof prec_pos as Hprec. unfold decode. rewrite is_nan_magnitude (proj2 (Z.ltb_ge _ _)); [unfold finite in Hfin; lia|].
  rewrite sign_negative // exponent_bits_eq fraction_bits_eq. unfold magnitude_value.
  assert (2 ^ kFractionBitCount ≠ 0) as Hp0 by lia. pose proof (Z.div_mod (magnitude b) _ Hp0) as Hdm.
  pose proof (Z.mod_pos_bound (magnitude b) (2 ^ kFractionBitCount) Hp) as Hf.
  rewrite Z.shiftr_div_pow2; [pose proof fraction_pos; lia|]. rewrite Z.div_mul; [lia|].
  unfold finite, Infinity in Hfin.
  set (E := magnitude b `div` 2 ^ kFractionBitCount) in *. set (f := magnitude b `mod` 2 ^ kFractionBitCount) in *.
  rewrite (proj2 (Z.eqb_neq _ _)); [lia|].
  assert (emin + (2 * emax - 2) - 1 = emax - prec) as Htop by (unfold SpecFloat.emin; lia).
  destruct (Z.eqb_spec E 0) as [HE|HE]; [destruct (Z.eqb_spec f 0) as [Hf0|Hf0]; [left; split; [done|lia]|]|];
    right; do 2 eexists; (split; [done|]).
  - assert (Z.log2 (Z.pos (Z.to_pos f)) < kFractionBitCount) as Hl.
    { rewrite Z2Pos.id; [lia|]. apply Z.log2_lt_pow2; lia. }
    split_and!.
    + unfold Rounding.canonical, SpecFloat.fexp, prec in *. lia.
    + lia.
    + unfold Rounding.units. rewrite Z.sub_diag Z.mul_1_r. lia.
  - assert (Z.log2 (Z.pos (Z.to_pos (2 ^ kFractionBitCount + f))) = kFractionBitCount) as Hl.
    { rewrite Z2Pos.id; [lia|]. apply Z.log2_unique; [pose proof fraction_pos; lia|].
      replace (Z.succ kFractionBitCount) with (kFractionBitCount + 1) by lia. lia. }
    split_and!.
    + unfold Rounding.canonical, SpecFloat.fexp. rewrite Hl. unfold prec in *. lia.
    + lia.
    + unfold Rounding.units. rewrite Z2Pos.id; [lia|]. do 2 f_equal. lia.
Qed.

Lemma decode_infinite b : is_nan b = false → ¬ finite b → ∃ s, decode b = S754_infinity s.
Proof.
  intros Hn Hf. unfold decode. rewrite Hn exponent_bits_eq. rewrite is_nan_magnitude in Hn.
  apply Z.ltb_ge in Hn. unfold finite in Hf. assert (magnitude b = Infinity) as -> by lia.
  destruct half_prec as (Hp & _). unfold Infinity. rewrite kExponentBitMask_eq Z.div_mul; [lia|].
  rewrite Z.eqb_refl. by eexists.
Qed.

(** The units of a number at an exponent below its own. *)
Lemma shl_align_units m e e' :
  e' ≤ e → Z.pos (fst (shl_align m e e')) = Z.pos m * 2 ^ (e - e').
Proof.
  intros He. unfold shl_align. destruct (e' - e) as [|n|n] eqn:Hn; [|lia|]; cbn [fst].
  - replace (e - e') with 0 by lia. lia.
  - replace (e - e') with (Z.pos n) by lia. clear. induction n as [|n IH] using Pos.peano_ind; [cbn; lia|].
    rewrite Pos.iter_succ Pos2Z.inj_succ Z.pow_succ_r // Pos2Z.inj_xO IH. lia.
Qed.

Lemma align_scaled m e e' :
  emin ≤ e' → e' ≤ e → Z.pos (fst (shl_align m e e')) * 2 ^ (e' - emin) = units m e.
Proof.
  intros H1 H2. rewrite shl_align_units // -Z.mul_assoc -Z.pow_add_r; [lia..|]. unfold Rounding.units. do 2 f_equal. lia.
Qed.

Lemma cond_Zopp_mul s z k : cond_Zopp s z * k = cond_Zopp s (z * k).
Proof. destruct s; cbn; lia. Qed.

(** A rounded number is 0, or written by the format. *)
Definition rounds_to (d : Z) (r : spec_float) : Prop :=
  d = 0 ∧ r = S754_zero false ∨ 0 < d ∧ writes false (rounded d) r.

Lemma writes_abs s d r : writes s d r → writes false d (SFabs r).
Proof. intros (m & e & Hc & Hu & ->). exists m, e. split_and!; [done..|]. by destruct (_ <=? _). Qed.

Lemma normalize_rounds m e :
  emin ≤ e → rounds_to (Z.abs m * 2 ^ (e - emin)) (SFabs (binary_normalize prec emax m e false)).
Proof.
  intros He. assert (0 < 2 ^ (e - emin)) by (apply Z.pow_pos_nonneg; lia).
  destruct m as [|m|m]; [by left|right; split; [lia|]..]; cbn [binary_normalize];
    eapply writes_abs, (binary_round_writes prec emax prec_pos); done.
Qed.

Lemma canonical_writes s m e : canonical m e → e ≤ emax - prec → writes false (rounded (units m e)) (SFabs (S754_finite s m e)).
Proof.
  intros Hc He. exists m, e. rewrite (rounded_canonical prec emax) //. split_and!; [done..|].
  by rewrite (proj2 (Z.leb_le _ _)).
Qed.

(** The subtraction of finite numbers gives the rounded difference of their values. *)
Lemma minus_rounds x y : bits_ok x → bits_ok y → finite x → finite y →
  rounds_to (Z.abs (value x - value y)) (SFabs (minus (decode x) (decode y))).
Proof.
  intros Hx Hy Hfx Hfy. unfold minus, value.
  assert (∀ m e, canonical m e → 0 < units m e) as Hpos.
  { intros m e Hc. pose proof (canonical_ge _ _ _ _ Hc). unfold Rounding.units.
    apply Z.mul_pos_pos; [lia|]. apply Z.pow_pos_nonneg; lia. }
  destruct (decode_finite x Hx Hfx) as [[-> ->]|(mx & ex & -> & Hcx & Hex & <-)];
    destruct (decode_finite y Hy Hfy) as [[-> ->]|(my & ey & -> & Hcy & Hey & <-)]; rewrite ?magnitude_value_zero.
  - left. by destruct (negative x), (negative y).
  - right. pose proof (Hpos _ _ Hcy). replace (Z.abs _) with (units my ey) by (destruct (negative x), (negative y); lia).
    split; [done|]. by apply (canonical_writes (negb (negative y))).
  - right. pose proof (Hpos _ _ Hcx). replace (Z.abs _) with (units mx ex) by (destruct (negative x), (negative y); lia).
    split; [done|]. by apply (canonical_writes (negative x)).
  - pose proof (canonical_ge _ _ _ _ Hcx) as Hgx. pose proof (canonical_ge _ _ _ _ Hcy) as Hgy. cbn [SFsub].
    set (ez := Z.min ex ey). assert (emin ≤ ez) as Hez by lia.
    pose proof (normalize_rounds (cond_Zopp (negative x) (Z.pos (fst (shl_align mx ex ez))) -
      cond_Zopp (negative y) (Z.pos (fst (shl_align my ey ez)))) ez Hez) as Hn.
    assert (0 < 2 ^ (ez - emin)) as Hp by (apply Z.pow_pos_nonneg; lia).
    rewrite -{1}(Z.abs_eq (2 ^ (ez - emin))) in Hn; [lia|]. rewrite -Z.abs_mul Z.mul_sub_distr_r !cond_Zopp_mul in Hn.
    rewrite !align_scaled in Hn; [lia..|]. destruct (negative x), (negative y); exact Hn.
Qed.

(** The sum of a bound and the next number of the format, between which a difference is rounded
    to one of them. *)
Definition bound_and_next (e : Z) : Z := magnitude_value (magnitude e) + magnitude_value (magnitude e + 1).

(** The exact difference is nearer to the bound, or to a number below it, than to the next number
    above; when it is equally near, the last bit of the bound is 0. *)
Definition within (d e : Z) : bool :=
  (2 * d <? bound_and_next e) || ((2 * d =? bound_and_next e) && Z.even (magnitude e)).

Lemma rounds_leb d r e : bits_ok e → finite e → SFleb (S754_zero false) (decode e) = true → 0 ≤ d →
  rounds_to d r → SFleb r (decode e) = within d e.
Proof.
  intros He Hf Hpos Hd Hr.
  assert (within d e = (rounded d <=? magnitude_value (magnitude e))) as ->.
  { symmetry. apply rounded_le; [done|]. pose proof (magnitude_range e). lia. }
  destruct Hr as [[-> ->]|(Hd0 & m & e1 & Hc & Hu & ->)].
  - rewrite rounded_zero Hpos. symmetry. apply Z.leb_le. pose proof (magnitude_range e).
    rewrite -magnitude_value_zero. apply magnitude_value_le; lia.
  - rewrite -Hu. assert (0 < units m e1) as Hup.
    { pose proof (canonical_ge _ _ _ _ Hc). unfold Rounding.units. apply Z.mul_pos_pos; [lia|]. apply Z.pow_pos_nonneg; lia. }
    destruct (decode_finite e He Hf) as [[Hde Hm]|(me & ee & Hde & Hce & Hee & <-)]; rewrite Hde in Hpos |- *.
    + rewrite Hm magnitude_value_zero (proj2 (Z.leb_gt (units m e1) 0)); [lia|]. by destruct (_ <=? _).
    + destruct (negative e); [done|]. destruct (Z.leb_spec e1 (emax - prec)) as [Hle|Hgt].
      * by apply (canonical_leb prec emax prec_pos).
      * rewrite (proj2 (Z.leb_gt _ _)); [|done]. apply (canonical_compare prec emax prec_pos); [done..|lia].
Qed.

Lemma within_spec d e :
  within d e = true ↔
    2 * d < bound_and_next e ∨ 2 * d = bound_and_next e ∧ Z.even (magnitude e) = true.
Proof. unfold within. by rewrite orb_true_iff andb_true_iff Z.ltb_lt Z.eqb_eq. Qed.

(** A difference up to the bound is within it. *)
Lemma within_below d e : d ≤ value e → within d e = true.
Proof.
  intros Hd. apply within_spec. left. unfold bound_and_next, value in *. pose proof (magnitude_range e).
  assert (magnitude_value 0 ≤ magnitude_value (magnitude e)) as H1 by (apply magnitude_value_le; lia).
  assert (magnitude_value (magnitude e) < magnitude_value (magnitude e + 1)) by (apply magnitude_value_mono; lia).
  rewrite magnitude_value_zero in H1. destruct (negative e); lia.
Qed.

Lemma within_zero e : within 0 e = true.
Proof.
  apply within_spec. left. unfold bound_and_next. pose proof (magnitude_range e).
  assert (magnitude_value 0 ≤ magnitude_value (magnitude e)) as H1 by (apply magnitude_value_le; lia).
  assert (magnitude_value (magnitude e) < magnitude_value (magnitude e + 1)) by (apply magnitude_value_mono; lia).
  rewrite magnitude_value_zero in H1. lia.
Qed.

Lemma finite_not_nan b : finite b → is_nan b = false.
Proof. unfold finite. intros Hb. rewrite is_nan_magnitude. apply Z.ltb_ge. lia. Qed.

(** Equal numbers have the same value. *)
Lemma SFeqb_value x y : bits_ok x → bits_ok y → finite x → finite y →
  SFeqb (decode x) (decode y) = true → value x = value y.
Proof.
  intros Hx Hy Hfx Hfy. unfold value.
  destruct (decode_finite x Hx Hfx) as [[-> ->]|(mx & ex & -> & Hcx & Hex & <-)];
    destruct (decode_finite y Hy Hfy) as [[-> ->]|(my & ey & -> & Hcy & Hey & <-)];
    rewrite ?magnitude_value_zero; destruct (negative x), (negative y); try done; unfold SFeqb; cbn [SFcompare];
    destruct (Z.compare_spec ex ey) as [->|?|?]; try done;
    change (Pos.compare_cont Datatypes.Eq mx my) with (Pos.compare mx my);
    by destruct (Pos.compare_spec mx my) as [->|?|?].
Qed.
End finite_numbers.

Section lemmas.
Context {R : RawType}.
Implicit Types (m : FloatingEqMatcher R) (b : Z).

Lemma decode_nan b : decode b = S754_nan ↔ is_nan b = true.
Proof. unfold decode. split; [|by intros ->]. repeat case_match; done. Qed.

(** float and double. *)
Context `{!FloatStream} (format : R = Float ∨ R = Double).

Lemma emax_2 : 2 ≤ emax.
Proof. by destruct format as [-> | ->]. Qed.

Lemma decode_zero : decode zero_bits = S754_zero false.
Proof. by destruct format as [-> | ->]. Qed.

(** The bound of the first constructor stands for none. *)
Lemma no_max_abs_error x n : HasMaxAbsError (new_FloatingEqMatcher (R:=R) x n) = false.
Proof. destruct format as [-> | ->]; vm_compute; done. Qed.

Lemma new_near_cases x n e :
  match new_FloatingEqMatcher_near (R:=R) x n e with
  | Done m => m = MkFloatingEq x n e ∧ HasMaxAbsError m = true
  | Aborted => decode e = S754_nan ∨ SFltb (decode e) (decode zero_bits) = true
  | _ => False
  end.
Proof.
  unfold new_FloatingEqMatcher_near, HasMaxAbsError. rewrite decode_zero.
  destruct (SFleb _ _) eqn:He; [done|]. by apply bound_checked.
Qed.

Definition accepts m (v : Z) : bool := fst (FloatingEq_match m v None).

(** Whether a number is within a bound of another. *)
Definition near (e x v : Z) : bool :=
  SFeqb (decode v) (decode x) || SFleb (SFabs (minus (decode v) (decode x))) (decode e).

Lemma accepts_near x n e v :
  HasMaxAbsError (MkFloatingEq (R:=R) x n e) = true →
  accepts (MkFloatingEq x n e) v = if is_nan v || is_nan x then is_nan v && is_nan x && n else near e x v.
Proof.
  intros He. unfold accepts, FloatingEq_match, near. cbn [expected_ nan_eq_nan_ max_abs_error_]. rewrite He.
  destruct (is_nan v), (is_nan x); try done. cbn [orb IsInterested].
  destruct (SFeqb _ _); [done|]. by destruct (SFleb _ _).
Qed.

Lemma near_comm e x v : near e x v = near e v x.
Proof. unfold near, minus. by rewrite SFeqb_comm SFabs_sub_comm. Qed.

Lemma near_refl e x : is_nan x = false → near e x x = true.
Proof. intros Hx. unfold near. rewrite SFeqb_refl; [by rewrite decode_nan Hx|done]. Qed.

(** Only an infinite bound reaches from an infinity to another number. *)
Lemma near_infinity e x v s :
  decode x = S754_infinity s → (∀ t, decode e ≠ S754_infinity t) → is_nan v = false →
  near e x v = bool_decide (decode v = decode x).
Proof.
  intros Hx He Hv. assert (decode v ≠ S754_nan) as Hn by (by rewrite decode_nan Hv). unfold near. rewrite Hx.
  destruct (decode e) as [t|t| |t m n]; [|by destruct (He t)|..]; destruct (decode v) as [[]|[]| |[] m' n'], s;
    try done; by rewrite ?bool_decide_eq_true_2 ?bool_decide_eq_false_2.
Qed.

(** Within a finite bound: the exact difference, rounded as the subtraction rounds it. *)
Lemma near_finite e x v :
  bits_ok e → bits_ok x → bits_ok v → finite e → finite x → finite v →
  SFleb (S754_zero false) (decode e) = true → near e x v = within (Z.abs (value v - value x)) e.
Proof.
  intros He Hx Hv Hfe Hfx Hfv Hpos. unfold near.
  rewrite (rounds_leb emax_2 (Z.abs (value v - value x)) _ e) //; [lia|by apply (minus_rounds emax_2)|].
  destruct (SFeqb _ _) eqn:Heq; [|done]. apply (SFeqb_value emax_2) in Heq; [|done..].
  rewrite Heq Z.sub_diag. symmetry. by apply within_zero.
Qed.

(** Within an infinite bound: everything. *)
Lemma near_everything e x v :
  decode e = S754_infinity false → bits_ok x → bits_ok v → is_nan x = false → is_nan v = false → near e x v = true.
Proof.
  intros He Hx Hv Hnx Hnv. unfold near. rewrite He.
  assert (∀ z, SFleb z (S754_infinity false) = negb (bool_decide (z = S754_nan))) as Hle.
  { by intros [[]|[]| |[] m n]. }
  rewrite Hle. destruct (decide (finite x)) as [Hfx|Hfx], (decide (finite v)) as [Hfv|Hfv].
  - destruct (minus_rounds emax_2 v x Hv Hx Hfv Hfx) as [[_ ->]|(_ & m & n & _ & _ & ->)]; [by rewrite orb_true_r|].
    destruct (_ <=? _); by rewrite bool_decide_eq_false_2 // orb_true_r.
  - destruct (decode_infinite v Hnv Hfv) as [s ->].
    destruct (decode_finite emax_2 x Hx Hfx) as [[-> _]|(m & n & -> & _)]; by rewrite bool_decide_eq_false_2 // orb_true_r.
  - destruct (decode_infinite x Hnx Hfx) as [s ->].
    destruct (decode_finite emax_2 v Hv Hfv) as [[-> _]|(m & n & -> & _)]; by rewrite bool_decide_eq_false_2 // orb_true_r.
  - destruct (decode_infinite x Hnx Hfx) as [[] ->], (decode_infinite v Hnv Hfv) as [[] ->]; done.
Qed.

#[export] Instance floating_eq_lawful m : Lawful (to_matcher (T:=number R) m).
Proof.
  apply lawful_at. intros [v]. cbn. unfold FloatingEq_match.
  assert (∀ r : bool, ∃ (b : bool) (e : string), ∀ l, (r, l) = (b, l << e)) as Hsilent.
  { intros r. exists r, EmptyString. intros l. by rewrite out_empty. }
  destruct (is_nan v || _); [destruct (_ && _); apply Hsilent|].
  destruct (HasMaxAbsError m); [|apply Hsilent]. destruct (SFeqb _ _); [apply Hsilent|].
  destruct (SFleb _ _); [apply Hsilent|].
  eexists false, ("which is " +:+ _ +:+ " from " +:+ _). intros [os|]; [|done]. cbn.
  by rewrite -!string_app_assoc.
Qed.
End lemmas.

(** * What FloatEq and its variants accept *)

(** C28. Without a bound, x accepts the numbers of its format that have at most three
    different values strictly between x and them. With a bound, which must not be negative or NaN
    (else the program ends), acceptance is symmetric and x accepts itself. Of finite numbers it accepts
    those within a finite bound, the difference being rounded as the format subtracts: counted in
    units of the smallest number, the exact difference is nearer to the bound than to the next number
    above it, or below the bound, or just between the two and the last bit of the bound is 0; so
    a number whose exact difference is not above the bound is accepted. An infinite x
    accepts itself alone under a finite bound, and under an infinite one all numbers are
    accepted. A NaN accepts NaN only, and
    only in the NaN-sensitive variants, which change nothing else. *)
Theorem floating_eq_accepts {R : RawType} `{!FloatStream} (x y : number R) (nan_eq_nan : bool) (e : number R) :
  R = Float ∨ R = Double →
  bits_ok (bits x) → bits_ok (bits y) → bits_ok (bits e) →
  let is_NaN (z : number R) := is_nan (bits z) in
  let nans (z v : number R) (b : bool) := if is_NaN z || is_NaN v then is_NaN z && is_NaN v && nan_eq_nan else b in
  let accepts_ (m : FloatingEqMatcher R) v := Matchers.Matches (to_matcher m) v in
  let near_ (z : number R) := new_FloatingEqMatcher_near (R:=R) (bits z) nan_eq_nan (bits e) in
  let distance := Z.abs (value (bits y) - value (bits x)) in
  (accepts_ (new_FloatingEqMatcher (bits x) nan_eq_nan) y = true ↔
     if is_NaN x || is_NaN y then is_NaN x && is_NaN y && nan_eq_nan = true
     else ∀ l, Forall (between (bits y) (bits x)) l → NoDup (value <$> l) → (length l ≤ 3)%nat) ∧
  match near_ x, near_ y with
  | Done near_x, Done near_y =>
      accepts_ near_x y = accepts_ near_y x ∧
      accepts_ near_x x = nans x x true ∧
      (finite (bits x) → finite (bits y) → finite (bits e) →
         (accepts_ near_x y = true ↔
            2 * distance < bound_and_next (bits e) ∨
            2 * distance = bound_and_next (bits e) ∧ Z.even (magnitude (bits e)) = true) ∧
         (distance ≤ value (bits e) → accepts_ near_x y = true)) ∧
      (∀ s, decode (bits x) = S754_infinity s → (∀ t, decode (bits e) ≠ S754_infinity t) →
           accepts_ near_x y = nans x y (bool_decide (decode (bits y) = decode (bits x)))) ∧
      (∀ t, decode (bits e) = S754_infinity t → accepts_ near_x y = nans x y true)
  | Aborted, Aborted => is_NaN e = true ∨ SFltb (decode (bits e)) (decode zero_bits) = true
  | _, _ => False
  end.
Proof.
  intros Hf Hx Hy He is_NaN nans accepts_ near_ distance.
  assert (∀ m v, accepts_ m v = accepts m (bits v)) as Hacc by done.
  split.
  - rewrite Hacc. unfold accepts, FloatingEq_match. rewrite no_max_abs_error //.
    cbn [expected_ nan_eq_nan_ new_FloatingEqMatcher]. pose proof (almost_equals_between _ _ Hy Hx) as Hbt.
    unfold is_NaN. destruct (is_nan (bits x)), (is_nan (bits y)); try done. cbn. rewrite Hbt. naive_solver.
  - unfold near_. pose proof (new_near_cases Hf (bits x) nan_eq_nan (bits e)) as H1.
    pose proof (new_near_cases Hf (bits y) nan_eq_nan (bits e)) as H2.
    assert (HasMaxAbsError (MkFloatingEq (R:=R) (bits x) nan_eq_nan (bits e)) =
            HasMaxAbsError (MkFloatingEq (R:=R) (bits y) nan_eq_nan (bits e))) as Hxy by done.
    unfold new_FloatingEqMatcher_near in *. destruct (SFleb _ _) eqn:Hbound; [|by rewrite -decode_nan].
    rewrite decode_zero // in Hbound.
    destruct H1 as [_ H1], H2 as [_ H2]. rewrite !Hacc !accepts_near //. unfold nans, is_NaN.
    rewrite (orb_comm (is_nan (bits y))) (andb_comm (is_nan (bits y))).
    split_and!.
    + by rewrite near_comm.
    + destruct (is_nan (bits x)) eqn:Hn; [done|]. by apply near_refl.
    + intros Hfx Hfy Hfe. rewrite !finite_not_nan //. cbn [orb]. rewrite near_finite //.
      fold distance. rewrite -within_spec. split; [done|]. by apply within_below.
    + intros s Hs Hne. destruct (is_nan (bits x)); [done|]. destruct (is_nan (bits y)) eqn:Hny; [done|].
      by eapply near_infinity.
    + intros t Ht. assert (decode (bits e) = S754_infinity false) as He' by (rewrite Ht in Hbound |- *; by destruct t).
      destruct (is_nan (bits x)) eqn:Hnx; [done|]. destruct (is_nan (bits y)) eqn:Hny; [done|].
      by apply near_everything.
Qed.

(** EXPECT_FLOAT_EQ, ASSERT_FLOAT_EQ and those for double: a failure is told of exactly
    when the numbers are not almost equal, and then ASSERT returns. *)
Theorem float_assertions {R : RawType} `{!FloatStream, !gtest_library, !gtest_laws} {W : Type} `{!TestRun W}
    (fatal : bool) (at_ : site) (e1 e2 : string) (vals : cmd W (tuple [number R : Type; number R : Type]))
    (x y : number R) w w' :
  vals w = (Done (x, (y, ())), w') →
  (if fatal then ASSERT_PRED_FORMAT macros2 else EXPECT_PRED_FORMAT macros2) at_ CmpHelperFloatingPointEQ
    (e1, (e2, ())) vals w =
  report_unless fatal (AlmostEquals (bits x) (bits y)) at_
    (failure_message (EqFailure e1 e2 (StringStreamToString (stream_float (digits10 (R:=R) + 2) (bits x)))
       (StringStreamToString (stream_float (digits10 (R:=R) + 2) (bits y))) false)) w'.
Proof.
  intros Hv. unfold macros2. rewrite (pred_format_run fatal at_ _ _ _ _ _ _ Hv).
  cbn [uncurry_tuple names map fst snd]. unfold CmpHelperFloatingPointEQ.
  destruct (AlmostEquals _ _); [by rewrite AssertionSuccess_succeeds|by rewrite EqFailure_fails].
Qed.

(** * A sample *)

#[local] Instance sample_float_stream : FloatStream :=
  {| stream_float _ _ := "a number"; stream_difference _ _ := "a difference"; StringStreamToString s := s |}.

(** 1 and the number four steps above it, with the bound 1/4; and 1 with 2 ^ 24 and the bound 2 ^ 24 -
    1, from which it is exactly as far, and with the number below that bound. *)
Lemma floating_eq_accepts_witness :
  let one : number Float := Number 1065353216 in
  let next : number Float := Number 1065353220 in
  let great : number Float := Number 1266679808 in
  Matchers.Matches (to_matcher (FloatEq one)) next = true ∧
  (∃ near_one near_next, FloatNear one (Number 1048576000) = Done near_one ∧
    FloatNear next (Number 1048576000) = Done near_next ∧
    Matchers.Matches (to_matcher near_one) next = Matchers.Matches (to_matcher near_next) one) ∧
  (∃ m, FloatNear one (Number 1266679807) = Done m ∧ Matchers.Matches (to_matcher m) great = true) ∧
  ∃ m, FloatNear one (Number 1266679806) = Done m ∧ Matchers.Matches (to_matcher m) great = false.
Proof.
  intros one next great.
  destruct (floating_eq_accepts one next false (Number 1048576000) (or_introl eq_refl)) as [H1 H2];
    [split; vm_compute; congruence..|].
  split; [|split; [|split]].
  - destruct (almost_equals_between (R:=Float) 1065353220 1065353216) as [Hb _];
      [split; vm_compute; congruence..|].
    destruct Hb as (_ & _ & Hb); [vm_compute; reflexivity|]. apply H1. exact Hb.
  - exists (MkFloatingEq 1065353216 false 1048576000), (MkFloatingEq 1065353220 false 1048576000).
    split; [reflexivity|]. split; [reflexivity|]. exact (proj1 H2).
  - exists (MkFloatingEq 1065353216 false 1266679807). split; [reflexivity|].
    destruct (floating_eq_accepts one great false (Number 1266679807) (or_introl eq_refl)) as [_ (_ & _ & H & _)];
      [split; vm_compute; congruence..|].
    destruct H as [_ H]; [vm_compute; reflexivity..|]. apply H. vm_compute. congruence.
  - exists (MkFloatingEq 1065353216 false 1266679806). split; [reflexivity|].
    destruct (floating_eq_accepts one great false (Number 1266679806) (or_introl eq_refl)) as [_ (_ & _ & H & _)];
      [split; vm_compute; congruence..|].
    destruct H as [H _]; [vm_compute; reflexivity..|]. apply not_true_iff_false. intros Hm. apply H in Hm.
    vm_compute in Hm. by destruct Hm as [Hm|[Hm _]].
Defined.
