(* ===== verification/GeneratedMatchers.v ===== *)
(** The matchers of the bundled mock library that take any number of arguments
    (src/gtest/include/gmock/gmock-generated-matchers.h): Args, AllOf and AnyOf,
    ElementsAre and UnorderedElementsAre, and the macros MATCHER, MATCHER_P, ...,
    MATCHER_P10.

    The header repeats each text for zero to ten arguments. Args and the macros are
    written here once over the list of their parameters, and the header's classes are
    instances; AllOf and AnyOf nest their arguments in the header's own way, and are
    written out. *)

From Stdlib Require Import JMeq.
From stdpp Require Import pretty.
From S2P Require Import Prelude Tuples Printers Assertions Matchers MatcherTypes.
#[local] Open Scope Z_scope.
#[local] Open Scope listener_scope.

(** * Selecting fields *)

(** TupleFields<Tuple, k0, ..., kn>. *)
Record TupleFields (Ts : list Type) (ks : list nat) : Type := MkTupleFields {
  GetSelectedFields : tuple Ts → tuple (map (λ k, type_at k Ts) ks);
}.
Arguments MkTupleFields {Ts ks} _.
Arguments GetSelectedFields {Ts ks} _ _.

Definition select_fields (Ts : list Type) (ks : list nat) : TupleFields Ts ks := MkTupleFields (select_tuple ks).

Section select_fields.
Context {Ts : list Type}.

Definition TupleFields0 := select_fields Ts [].
Definition TupleFields1 (k0 : nat) := select_fields Ts [k0].
Definition TupleFields2 (k0 k1 : nat) := select_fields Ts [k0; k1].
Definition TupleFields3 (k0 k1 k2 : nat) := select_fields Ts [k0; k1; k2].
Definition TupleFields4 (k0 k1 k2 k3 : nat) := select_fields Ts [k0; k1; k2; k3].
Definition TupleFields5 (k0 k1 k2 k3 k4 : nat) := select_fields Ts [k0; k1; k2; k3; k4].
Definition TupleFields6 (k0 k1 k2 k3 k4 k5 : nat) := select_fields Ts [k0; k1; k2; k3; k4; k5].
Definition TupleFields7 (k0 k1 k2 k3 k4 k5 k6 : nat) := select_fields Ts [k0; k1; k2; k3; k4; k5; k6].
Definition TupleFields8 (k0 k1 k2 k3 k4 k5 k6 k7 : nat) := select_fields Ts [k0; k1; k2; k3; k4; k5; k6; k7].
Definition TupleFields9 (k0 k1 k2 k3 k4 k5 k6 k7 k8 : nat) := select_fields Ts [k0; k1; k2; k3; k4; k5; k6; k7; k8].
Definition TupleFields10 (k0 k1 k2 k3 k4 k5 k6 k7 k8 k9 : nat) := select_fields Ts [k0; k1; k2; k3; k4; k5; k6; k7; k8; k9].
End select_fields.

(** * Args *)

Section args.
Context {Ts : list Type} (ks : list nat).

Definition SelectedArgs : list Type := map (λ k, type_at k Ts) ks.

Definition GetSelectedArgs (args : tuple Ts) : tuple SelectedArgs := GetSelectedFields (select_fields Ts ks) args.

(** The loop of PrintIndices, from index [i], while [fuel] is not used up. *)
Fixpoint indices_loop (fuel : nat) (indices : list Z) (i : nat) : cmd string unit :=
  match fuel with
  | O => unfinished
  | S fuel =>
    if (i <? 10)%nat then
      index ← or_ub OutOfBounds (indices !! i);
      if index <? 0 then mret () else
      when (1 <=? i)%nat (out ", ");;
      out "#";; out (pretty index);;
      indices_loop fuel indices (i + 1)
    else mret ()
  end.

(** The array indices: k0, ..., k9, those without an argument being -1. *)
Definition index_array : list Z := (Z.of_nat <$> ks) ++ replicate (10 - length ks) (-1).

Definition PrintIndices : cmd string unit :=
  out "whose fields (";;
  indices_loop 11 index_array 0;;
  out ") ".

Definition ArgsMatcherImpl {P : each1 UniversalPrinter SelectedArgs} (inner_matcher_ : MatcherInterface (tuple SelectedArgs))
    : MatcherInterface (tuple Ts) :=
  MkMatcher (λ args listener,
      let selected_args := GetSelectedArgs args in
      if negb (IsInterested listener) then (Matchers.Matches inner_matcher_ selected_args, listener)
      else
        let listener := listener << written PrintIndices in
        let listener := listener << "are " << PrintToString selected_args in
        let '(match_, inner_listener) := MatchAndExplain inner_matcher_ selected_args StringMatchResultListener in
        (match_, PrintIfNotEmpty (str inner_listener) listener))
    (written (out "are a tuple ";; PrintIndices;; out (DescribeTo inner_matcher_)))
    (written (out "are a tuple ";; PrintIndices;; out (DescribeNegationTo inner_matcher_))).
End args.

(** ArgsMatcher<InnerMatcher, k0, ..., kn>. *)
Record ArgsMatcher (M : Type) (ks : list nat) : Type := MkArgs { args_inner : M }.
Arguments MkArgs {M ks} _.
Arguments args_inner {M ks} _.
#[export] Instance args_to_matcher M ks Ts {P : each1 UniversalPrinter (SelectedArgs (Ts:=Ts) ks)}
    `{!MatcherCast (tuple (SelectedArgs (Ts:=Ts) ks)) M} : ToMatcher (ArgsMatcher M ks) (tuple Ts) := λ m,
  ArgsMatcherImpl ks (SafeMatcherCast _ (args_inner m)).

(** Comparison2Matcher of MatcherTypes.v has the tuple of two fields as a pair. *)
#[export] Instance two_fields T1 T2 : StaticCast (tuple [T1; T2]) (T1 * T2) := λ t, (fst t, fst (snd t)).
#[export] Instance comparison2_tuple op T1 T2 `{!Operator op T1 T2} :
    ToMatcher (Comparison2Matcher op) (tuple [T1; T2]) | 5 := λ m,
  MatcherCastImpl (to_matcher m : MatcherInterface (T1 * T2)).

Section args_functions.
Context {M : Type}.

Definition Args0 (matcher : M) : ArgsMatcher M [] := MkArgs matcher.
Definition Args1 (k1 : nat) (matcher : M) : ArgsMatcher M [k1] := MkArgs matcher.
Definition Args2 (k1 k2 : nat) (matcher : M) : ArgsMatcher M [k1; k2] := MkArgs matcher.
Definition Args3 (k1 k2 k3 : nat) (matcher : M) : ArgsMatcher M [k1; k2; k3] := MkArgs matcher.
Definition Args4 (k1 k2 k3 k4 : nat) (matcher : M) : ArgsMatcher M [k1; k2; k3; k4] := MkArgs matcher.
Definition Args5 (k1 k2 k3 k4 k5 : nat) (matcher : M) : ArgsMatcher M [k1; k2; k3; k4; k5] := MkArgs matcher.
Definition Args6 (k1 k2 k3 k4 k5 k6 : nat) (matcher : M) : ArgsMatcher M [k1; k2; k3; k4; k5; k6] := MkArgs
    matcher.
Definition Args7 (k1 k2 k3 k4 k5 k6 k7 : nat) (matcher : M) : ArgsMatcher M [k1; k2; k3; k4; k5; k6; k7] :=
    MkArgs matcher.
Definition Args8 (k1 k2 k3 k4 k5 k6 k7 k8 : nat) (matcher : M) : ArgsMatcher M [k1; k2; k3; k4; k5; k6; k7;
    k8] := MkArgs matcher.
Definition Args9 (k1 k2 k3 k4 k5 k6 k7 k8 k9 : nat) (matcher : M) : ArgsMatcher M [k1; k2; k3; k4; k5; k6; k7;
    k8; k9] := MkArgs matcher.
Definition Args10 (k1 k2 k3 k4 k5 k6 k7 k8 k9 k10 : nat) (matcher : M) : ArgsMatcher M [k1; k2; k3; k4; k5;
    k6; k7; k8; k9; k10] := MkArgs matcher.
End args_functions.

(** * AllOf and AnyOf *)

Definition AllOfResult1 (M1 : Type) : Type := M1.
Definition AllOfResult2 (M1 M2 : Type) : Type := BothOfMatcher (AllOfResult1 M1) (AllOfResult1 M2).
Definition AllOfResult3 (M1 M2 M3 : Type) : Type := BothOfMatcher (AllOfResult1 M1) (AllOfResult2 M2 M3).
Definition AllOfResult4 (M1 M2 M3 M4 : Type) : Type := BothOfMatcher (AllOfResult2 M1 M2) (AllOfResult2 M3
    M4).
Definition AllOfResult5 (M1 M2 M3 M4 M5 : Type) : Type := BothOfMatcher (AllOfResult2 M1 M2) (AllOfResult3 M3
    M4 M5).
Definition AllOfResult6 (M1 M2 M3 M4 M5 M6 : Type) : Type := BothOfMatcher (AllOfResult3 M1 M2 M3)
    (AllOfResult3 M4 M5 M6).
Definition AllOfResult7 (M1 M2 M3 M4 M5 M6 M7 : Type) : Type := BothOfMatcher (AllOfResult3 M1 M2 M3)
    (AllOfResult4 M4 M5 M6 M7).
Definition AllOfResult8 (M1 M2 M3 M4 M5 M6 M7 M8 : Type) : Type := BothOfMatcher (AllOfResult4 M1 M2 M3 M4)
    (AllOfResult4 M5 M6 M7 M8).
Definition AllOfResult9 (M1 M2 M3 M4 M5 M6 M7 M8 M9 : Type) : Type := BothOfMatcher (AllOfResult4 M1 M2 M3 M4)
    (AllOfResult5 M5 M6 M7 M8 M9).
Definition AllOfResult10 (M1 M2 M3 M4 M5 M6 M7 M8 M9 M10 : Type) : Type := BothOfMatcher (AllOfResult5 M1 M2
    M3 M4 M5) (AllOfResult5 M6 M7 M8 M9 M10).

Definition AnyOfResult1 (M1 : Type) : Type := M1.
Definition AnyOfResult2 (M1 M2 : Type) : Type := EitherOfMatcher (AnyOfResult1 M1) (AnyOfResult1 M2).
Definition AnyOfResult3 (M1 M2 M3 : Type) : Type := EitherOfMatcher (AnyOfResult1 M1) (AnyOfResult2 M2 M3).
Definition AnyOfResult4 (M1 M2 M3 M4 : Type) : Type := EitherOfMatcher (AnyOfResult2 M1 M2) (AnyOfResult2 M3
    M4).
Definition AnyOfResult5 (M1 M2 M3 M4 M5 : Type) : Type := EitherOfMatcher (AnyOfResult2 M1 M2) (AnyOfResult3
    M3 M4 M5).
Definition AnyOfResult6 (M1 M2 M3 M4 M5 M6 : Type) : Type := EitherOfMatcher (AnyOfResult3 M1 M2 M3)
    (AnyOfResult3 M4 M5 M6).
Definition AnyOfResult7 (M1 M2 M3 M4 M5 M6 M7 : Type) : Type := EitherOfMatcher (AnyOfResult3 M1 M2 M3)
    (AnyOfResult4 M4 M5 M6 M7).
Definition AnyOfResult8 (M1 M2 M3 M4 M5 M6 M7 M8 : Type) : Type := EitherOfMatcher (AnyOfResult4 M1 M2 M3 M4)
    (AnyOfResult4 M5 M6 M7 M8).
Definition AnyOfResult9 (M1 M2 M3 M4 M5 M6 M7 M8 M9 : Type) : Type := EitherOfMatcher (AnyOfResult4 M1 M2 M3
    M4) (AnyOfResult5 M5 M6 M7 M8 M9).
Definition AnyOfResult10 (M1 M2 M3 M4 M5 M6 M7 M8 M9 M10 : Type) : Type := EitherOfMatcher (AnyOfResult5 M1 M2
    M3 M4 M5) (AnyOfResult5 M6 M7 M8 M9 M10).

Definition AllOf2 {M1 M2 : Type} (m1 : M1) (m2 : M2)
    : AllOfResult2 M1 M2 :=
  MkBothOf m1 m2.
Definition AllOf3 {M1 M2 M3 : Type} (m1 : M1) (m2 : M2) (m3 : M3)
    : AllOfResult3 M1 M2 M3 :=
  MkBothOf m1 (AllOf2 m2 m3).
Definition AllOf4 {M1 M2 M3 M4 : Type} (m1 : M1) (m2 : M2) (m3 : M3) (m4 : M4)
    : AllOfResult4 M1 M2 M3 M4 :=
  MkBothOf (AllOf2 m1 m2) (AllOf2 m3 m4).
Definition AllOf5 {M1 M2 M3 M4 M5 : Type} (m1 : M1) (m2 : M2) (m3 : M3) (m4 : M4) (m5 : M5)
    : AllOfResult5 M1 M2 M3 M4 M5 :=
  MkBothOf (AllOf2 m1 m2) (AllOf3 m3 m4 m5).
Definition AllOf6 {M1 M2 M3 M4 M5 M6 : Type} (m1 : M1) (m2 : M2) (m3 : M3) (m4 : M4) (m5 : M5) (m6 : M6)
    : AllOfResult6 M1 M2 M3 M4 M5 M6 :=
  MkBothOf (AllOf3 m1 m2 m3) (AllOf3 m4 m5 m6).
Definition AllOf7 {M1 M2 M3 M4 M5 M6 M7 : Type} (m1 : M1) (m2 : M2) (m3 : M3) (m4 : M4) (m5 : M5) (m6 : M6) (m7 : M7)
    : AllOfResult7 M1 M2 M3 M4 M5 M6 M7 :=
  MkBothOf (AllOf3 m1 m2 m3) (AllOf4 m4 m5 m6 m7).
Definition AllOf8 {M1 M2 M3 M4 M5 M6 M7 M8 : Type} (m1 : M1) (m2 : M2) (m3 : M3) (m4 : M4) (m5 : M5) (m6 : M6) (m7 : M7)
    (m8 : M8)
    : AllOfResult8 M1 M2 M3 M4 M5 M6 M7 M8 :=
  MkBothOf (AllOf4 m1 m2 m3 m4) (AllOf4 m5 m6 m7 m8).
Definition AllOf9 {M1 M2 M3 M4 M5 M6 M7 M8 M9 : Type} (m1 : M1) (m2 : M2) (m3 : M3) (m4 : M4) (m5 : M5) (m6 : M6) (m7 : M7)
    (m8 : M8) (m9 : M9)
    : AllOfResult9 M1 M2 M3 M4 M5 M6 M7 M8 M9 :=
  MkBothOf (AllOf4 m1 m2 m3 m4) (AllOf5 m5 m6 m7 m8 m9).
Definition AllOf10 {M1 M2 M3 M4 M5 M6 M7 M8 M9 M10 : Type} (m1 : M1) (m2 : M2) (m3 : M3) (m4 : M4) (m5 : M5) (m6 : M6)
    (m7 : M7) (m8 : M8) (m9 : M9) (m10 : M10)
    : AllOfResult10 M1 M2 M3 M4 M5 M6 M7 M8 M9 M10 :=
  MkBothOf (AllOf5 m1 m2 m3 m4 m5) (AllOf5 m6 m7 m8 m9 m10).

Definition AnyOf2 {M1 M2 : Type} (m1 : M1) (m2 : M2)
    : AnyOfResult2 M1 M2 :=
  MkEitherOf m1 m2.
Definition AnyOf3 {M1 M2 M3 : Type} (m1 : M1) (m2 : M2) (m3 : M3)
    : AnyOfResult3 M1 M2 M3 :=
  MkEitherOf m1 (AnyOf2 m2 m3).
Definition AnyOf4 {M1 M2 M3 M4 : Type} (m1 : M1) (m2 : M2) (m3 : M3) (m4 : M4)
    : AnyOfResult4 M1 M2 M3 M4 :=
  MkEitherOf (AnyOf2 m1 m2) (AnyOf2 m3 m4).
Definition AnyOf5 {M1 M2 M3 M4 M5 : Type} (m1 : M1) (m2 : M2) (m3 : M3) (m4 : M4) (m5 : M5)
    : AnyOfResult5 M1 M2 M3 M4 M5 :=
  MkEitherOf (AnyOf2 m1 m2) (AnyOf3 m3 m4 m5).
Definition AnyOf6 {M1 M2 M3 M4 M5 M6 : Type} (m1 : M1) (m2 : M2) (m3 : M3) (m4 : M4) (m5 : M5) (m6 : M6)
    : AnyOfResult6 M1 M2 M3 M4 M5 M6 :=
  MkEitherOf (AnyOf3 m1 m2 m3) (AnyOf3 m4 m5 m6).
Definition AnyOf7 {M1 M2 M3 M4 M5 M6 M7 : Type} (m1 : M1) (m2 : M2) (m3 : M3) (m4 : M4) (m5 : M5) (m6 : M6) (m7 : M7)
    : AnyOfResult7 M1 M2 M3 M4 M5 M6 M7 :=
  MkEitherOf (AnyOf3 m1 m2 m3) (AnyOf4 m4 m5 m6 m7).
Definition AnyOf8 {M1 M2 M3 M4 M5 M6 M7 M8 : Type} (m1 : M1) (m2 : M2) (m3 : M3) (m4 : M4) (m5 : M5) (m6 : M6) (m7 : M7)
    (m8 : M8)
    : AnyOfResult8 M1 M2 M3 M4 M5 M6 M7 M8 :=
  MkEitherOf (AnyOf4 m1 m2 m3 m4) (AnyOf4 m5 m6 m7 m8).
Definition AnyOf9 {M1 M2 M3 M4 M5 M6 M7 M8 M9 : Type} (m1 : M1) (m2 : M2) (m3 : M3) (m4 : M4) (m5 : M5) (m6 : M6) (m7 : M7)
    (m8 : M8) (m9 : M9)
    : AnyOfResult9 M1 M2 M3 M4 M5 M6 M7 M8 M9 :=
  MkEitherOf (AnyOf4 m1 m2 m3 m4) (AnyOf5 m5 m6 m7 m8 m9).
Definition AnyOf10 {M1 M2 M3 M4 M5 M6 M7 M8 M9 M10 : Type} (m1 : M1) (m2 : M2) (m3 : M3) (m4 : M4) (m5 : M5) (m6 : M6)
    (m7 : M7) (m8 : M8) (m9 : M9) (m10 : M10)
    : AnyOfResult10 M1 M2 M3 M4 M5 M6 M7 M8 M9 M10 :=
  MkEitherOf (AnyOf5 m1 m2 m3 m4 m5) (AnyOf5 m6 m7 m8 m9 m10).

(** * ElementsAre and UnorderedElementsAre *)

(** DecayArray<T>::type and the conversion to it: an array is kept as a pointer to its
    first element, any other value as a copy. *)
Class DecayArray (T D : Type) : Type := decay_array : T → D.
#[global] Hint Mode DecayArray + - : typeclass_instances.
#[export] Instance decay_other T : DecayArray T T | 10 := λ x, x.
#[export] Instance decay_to_pointer T N P `{!Decay T P} : DecayArray (array T N) P | 0 := decay N.

Fixpoint decay_tuple {Ts Ds : list Type} (E : each2 DecayArray Ts Ds) : tuple Ts → tuple Ds :=
  match E with
  | each2_nil => λ _, ()
  | @each2_cons _ T D _ _ e E => λ es, (@decay_array T D e (fst es), decay_tuple E (snd es))
  end.

Definition elements_are_of (Ts Ds : list Type) {E : each2 DecayArray Ts Ds} : curried Ts (ElementsAreMatcher Ds) :=
  curry_tuple Ts (λ es, MkElementsAre (decay_tuple E es)).
Definition unordered_elements_are_of (Ts Ds : list Type) {E : each2 DecayArray Ts Ds}
    : curried Ts (UnorderedElementsAreMatcher Ds) :=
  curry_tuple Ts (λ es, MkUnorderedElementsAre (decay_tuple E es)).

Section elements_are.
Context {T1 T2 T3 T4 T5 T6 T7 T8 T9 T10 D1 D2 D3 D4 D5 D6 D7 D8 D9 D10 : Type}.

Definition ElementsAre0 := elements_are_of [] [].
Definition ElementsAre1 {E : each2 DecayArray [T1] [D1] } := elements_are_of [T1] [D1].
Definition ElementsAre2 {E : each2 DecayArray [T1; T2] [D1; D2] } := elements_are_of [T1; T2] [D1; D2].
Definition ElementsAre3 {E : each2 DecayArray [T1; T2; T3] [D1; D2; D3] } := elements_are_of [T1; T2; T3] [D1;
    D2; D3].
Definition ElementsAre4 {E : each2 DecayArray [T1; T2; T3; T4] [D1; D2; D3; D4] } := elements_are_of [T1; T2;
    T3; T4] [D1; D2; D3; D4].
Definition ElementsAre5 {E : each2 DecayArray [T1; T2; T3; T4; T5] [D1; D2; D3; D4; D5] } := elements_are_of
    [T1; T2; T3; T4; T5] [D1; D2; D3; D4; D5].
Definition ElementsAre6 {E : each2 DecayArray [T1; T2; T3; T4; T5; T6] [D1; D2; D3; D4; D5; D6] } :=
    elements_are_of [T1; T2; T3; T4; T5; T6] [D1; D2; D3; D4; D5; D6].
Definition ElementsAre7 {E : each2 DecayArray [T1; T2; T3; T4; T5; T6; T7] [D1; D2; D3; D4; D5; D6; D7] } :=
    elements_are_of [T1; T2; T3; T4; T5; T6; T7] [D1; D2; D3; D4; D5; D6; D7].
Definition ElementsAre8 {E : each2 DecayArray [T1; T2; T3; T4; T5; T6; T7; T8] [D1; D2; D3; D4; D5; D6; D7;
    D8] } := elements_are_of [T1; T2; T3; T4; T5; T6; T7; T8] [D1; D2; D3; D4; D5; D6; D7; D8].
Definition ElementsAre9 {E : each2 DecayArray [T1; T2; T3; T4; T5; T6; T7; T8; T9] [D1; D2; D3; D4; D5; D6;
    D7; D8; D9] } := elements_are_of [T1; T2; T3; T4; T5; T6; T7; T8; T9] [D1; D2; D3; D4; D5; D6; D7; D8;
    D9].
Definition ElementsAre10 {E : each2 DecayArray [T1; T2; T3; T4; T5; T6; T7; T8; T9; T10] [D1; D2; D3; D4; D5;
    D6; D7; D8; D9; D10] } := elements_are_of [T1; T2; T3; T4; T5; T6; T7; T8; T9; T10] [D1; D2; D3; D4; D5;
    D6; D7; D8; D9; D10].

Definition UnorderedElementsAre0 := unordered_elements_are_of [] [].
Definition UnorderedElementsAre1 {E : each2 DecayArray [T1] [D1] } := unordered_elements_are_of [T1] [D1].
Definition UnorderedElementsAre2 {E : each2 DecayArray [T1; T2] [D1; D2] } := unordered_elements_are_of [T1;
    T2] [D1; D2].
Definition UnorderedElementsAre3 {E : each2 DecayArray [T1; T2; T3] [D1; D2; D3] } :=
    unordered_elements_are_of [T1; T2; T3] [D1; D2; D3].
Definition UnorderedElementsAre4 {E : each2 DecayArray [T1; T2; T3; T4] [D1; D2; D3; D4] } :=
    unordered_elements_are_of [T1; T2; T3; T4] [D1; D2; D3; D4].
Definition UnorderedElementsAre5 {E : each2 DecayArray [T1; T2; T3; T4; T5] [D1; D2; D3; D4; D5] } :=
    unordered_elements_are_of [T1; T2; T3; T4; T5] [D1; D2; D3; D4; D5].
Definition UnorderedElementsAre6 {E : each2 DecayArray [T1; T2; T3; T4; T5; T6] [D1; D2; D3; D4; D5; D6] } :=
    unordered_elements_are_of [T1; T2; T3; T4; T5; T6] [D1; D2; D3; D4; D5; D6].
Definition UnorderedElementsAre7 {E : each2 DecayArray [T1; T2; T3; T4; T5; T6; T7] [D1; D2; D3; D4; D5; D6;
    D7] } := unordered_elements_are_of [T1; T2; T3; T4; T5; T6; T7] [D1; D2; D3; D4; D5; D6; D7].
Definition UnorderedElementsAre8 {E : each2 DecayArray [T1; T2; T3; T4; T5; T6; T7; T8] [D1; D2; D3; D4; D5;
    D6; D7; D8] } := unordered_elements_are_of [T1; T2; T3; T4; T5; T6; T7; T8] [D1; D2; D3; D4; D5; D6; D7;
    D8].
Definition UnorderedElementsAre9 {E : each2 DecayArray [T1; T2; T3; T4; T5; T6; T7; T8; T9] [D1; D2; D3; D4;
    D5; D6; D7; D8; D9] } := unordered_elements_are_of [T1; T2; T3; T4; T5; T6; T7; T8; T9] [D1; D2; D3; D4;
    D5; D6; D7; D8; D9].
Definition UnorderedElementsAre10 {E : each2 DecayArray [T1; T2; T3; T4; T5; T6; T7; T8; T9; T10] [D1; D2; D3;
    D4; D5; D6; D7; D8; D9; D10] } := unordered_elements_are_of [T1; T2; T3; T4; T5; T6; T7; T8; T9; T10] [D1;
    D2; D3; D4; D5; D6; D7; D8; D9; D10].
End elements_are.

(** * The MATCHER macros *)

(** FormatMatcherDescription, whose body the repository does not have. *)
Class DescriptionFormat : Type := FormatMatcherDescription : bool → string → list string → string.

(** What a use of a macro gives: its name, its description, an expression over negation
    and the parameters, and its statements, for values of type [T]. *)
Class MatcherName (N : Type) : Type := matcher_name : string.
#[global] Hint Mode MatcherName + : typeclass_instances.
Arguments matcher_name N {_}.
Class MatcherBody (N : Type) (Ps : list Type) (T : Type) : Type := {
  description : bool → tuple Ps → string;
  statements : tuple Ps → T → MatchResultListener → bool * MatchResultListener;
}.
#[global] Hint Mode MatcherBody + ! ! : typeclass_instances.
Arguments description N {Ps} T {_} _ _.
Arguments statements N {Ps T _} _ _ _.

(** The class nameMatcher, with its fields p0, p1, ... *)
Record macro_matcher (N : Type) (Ps : list Type) : Type := MacroMatcher { matcher_params : tuple Ps }.
Arguments MacroMatcher {N Ps} _.
Arguments matcher_params {N Ps} _.

Section macro.
Context `{!DescriptionFormat} (N : Type) `{!MatcherName N} {Ps : list Type} {P : each1 UniversalTersePrinter Ps}.

Definition FormatDescription (T : Type) `{!MatcherBody N Ps T} (ps : tuple Ps) (negation : bool) : string :=
  let gmock_description := description N T negation ps in
  if negb (bool_decide (gmock_description = EmptyString)) then gmock_description
  else FormatMatcherDescription negation (matcher_name N) (UniversalTersePrintTupleFieldsToStrings ps).

(** gmock_Impl<T>, which has its own copy of the fields. *)
Definition gmock_Impl {T : Type} `{!MatcherBody N Ps T} (ps : tuple Ps) : MatcherInterface T :=
  MkMatcher (statements N ps) (FormatDescription T ps false) (FormatDescription T ps true).
End macro.

#[export] Instance macro_to_matcher `{!DescriptionFormat} N Ps T `{!MatcherName N}
    {P : each1 UniversalTersePrinter Ps} `{!MatcherBody N Ps T} : ToMatcher (macro_matcher N Ps) T := λ m,
  gmock_Impl N (matcher_params m).

(** What a macro declares: the class, its conversion, and the function that makes an
    object of it. *)
Record matcher_macro `{!DescriptionFormat} (N : Type) `{!MatcherName N} (Ps : list Type) : Type := MatcherMacro {
  macro_to : ∀ T, each1 UniversalTersePrinter Ps → MatcherBody N Ps T → macro_matcher N Ps → MatcherInterface T;
  macro_make : curried Ps (macro_matcher N Ps);
}.
Arguments MatcherMacro {_ N _ Ps} _ _.
Arguments macro_to {_ N _ Ps} _ {T _ _} _.
Arguments macro_make {_ N _ Ps} _.

Section macros.
Context `{!DescriptionFormat} (N : Type) `{!MatcherName N}.

Definition declare_matcher (Ps : list Type) : matcher_macro N Ps :=
  MatcherMacro (λ T _ _, to_matcher) (curry_tuple Ps MacroMatcher).

Context (p0_type p1_type p2_type p3_type p4_type p5_type p6_type p7_type p8_type p9_type : Type).

Definition MATCHER := declare_matcher [].
Definition MATCHER_P := declare_matcher [p0_type].
Definition MATCHER_P2 := declare_matcher [p0_type; p1_type].
Definition MATCHER_P3 := declare_matcher [p0_type; p1_type; p2_type].
Definition MATCHER_P4 := declare_matcher [p0_type; p1_type; p2_type; p3_type].
Definition MATCHER_P5 := declare_matcher [p0_type; p1_type; p2_type; p3_type; p4_type].
Definition MATCHER_P6 := declare_matcher [p0_type; p1_type; p2_type; p3_type; p4_type; p5_type].
Definition MATCHER_P7 := declare_matcher [p0_type; p1_type; p2_type; p3_type; p4_type; p5_type; p6_type].
Definition MATCHER_P8 := declare_matcher [p0_type; p1_type; p2_type; p3_type; p4_type; p5_type; p6_type;
    p7_type].
Definition MATCHER_P9 := declare_matcher [p0_type; p1_type; p2_type; p3_type; p4_type; p5_type; p6_type;
    p7_type; p8_type].
Definition MATCHER_P10 := declare_matcher [p0_type; p1_type; p2_type; p3_type; p4_type; p5_type; p6_type;
    p7_type; p8_type; p9_type].
End macros.

(** * Args, theorems *)

#[local] Arguments String.append : simpl never.
#[local] Arguments pretty : simpl never.

Definition index_texts (ks : list nat) : list string := (λ k, "#" +:+ pretty (Z.of_nat k)) <$> ks.

(** The texts that are left: all of them, or those after a comma. *)
Definition texts_from (i : nat) (ts : list string) : string :=
  match i with O => String.concat ", " ts | S _ => continued (drop i ts) end.

Lemma continued_cons t ts : continued (t :: ts) = ", " +:+ t +:+ continued ts.
Proof. unfold continued. cbn [fmap list_fmap]. by rewrite concat_empty_cons -!string_app_assoc. Qed.

Lemma texts_from_cons i t ts :
  ts !! i = Some t →
  texts_from i ts = (if (1 <=? i)%nat then ", " else EmptyString) +:+ t +:+ texts_from (S i) ts.
Proof.
  intros Hi. destruct i as [|i].
  - destruct ts as [|u ts]; [done|]. injection Hi as ->. apply joined_continued.
  - cbn [texts_from Nat.leb]. by rewrite (drop_S ts t (S i) Hi) continued_cons.
Qed.

Lemma texts_from_end i ts : (length ts ≤ i)%nat → texts_from i ts = EmptyString.
Proof. intros Hi. destruct i, ts; cbn in *; try done; try lia. by rewrite drop_ge; [cbn; lia|]. Qed.

Lemma indices_loop_writes ks fuel i :
  (length ks ≤ 10)%nat → (i ≤ length ks)%nat → (10 - i < fuel)%nat →
  writes (indices_loop fuel (index_array ks) i) () (texts_from i (index_texts ks)).
Proof.
  intros Hks. revert i. induction fuel as [|fuel IH]; intros i Hi Hf; [lia|]. cbn [indices_loop].
  assert (length (index_texts ks) = length ks) as Hlen by apply length_fmap.
  destruct (i <? 10)%nat eqn:H10; [apply Nat.ltb_lt in H10|apply Nat.ltb_ge in H10].
  2:{ rewrite texts_from_end; [lia|]. exact (writes_ret ()). }
  destruct (decide (i = length ks)) as [->|Hne].
  - apply (writes_read _ _ (-1)).
    { rewrite /index_array lookup_app_r length_fmap // Nat.sub_diag. apply lookup_replicate. split; [done|lia]. }
    rewrite texts_from_end; [lia|]. exact (writes_ret ()).
  - destruct (lookup_lt_is_Some_2 ks i) as [k Hk]; [lia|].
    apply (writes_read _ _ (Z.of_nat k)).
    { rewrite /index_array lookup_app_l; [rewrite length_fmap; lia|]. by rewrite list_lookup_fmap Hk. }
    rewrite (proj2 (Z.ltb_ge _ 0)); [lia|].
    rewrite (texts_from_cons i ("#" +:+ pretty (Z.of_nat k))); [by rewrite /index_texts list_lookup_fmap Hk|].
    rewrite -string_app_assoc.
    apply (writes_bind _ _ () ()); [by destruct (1 <=? i)%nat; [apply writes_out|apply writes_ret]|].
    do 2 (apply (writes_bind _ _ () ()); [apply writes_out|]).
    replace (i + 1)%nat with (S i) by lia. apply IH; lia.
Qed.

(** What PrintIndices writes. *)
Definition indices_text (ks : list nat) : string :=
  "whose fields (" +:+ String.concat ", " (index_texts ks) +:+ ") ".

Lemma PrintIndices_writes ks : (length ks ≤ 10)%nat → writes (PrintIndices ks) () (indices_text ks).
Proof.
  intros Hks. apply (writes_bind _ _ () ()); [apply writes_out|].
  apply (writes_bind _ _ () ()); [|apply writes_out].
  apply (indices_loop_writes ks 11 0); lia.
Qed.

Lemma tuple_text {Ts} {P : each1 UniversalPrinter Ts} (t : tuple Ts) :
  PrintToString t = "(" +:+ String.concat ", " (field_texts (@UniversalPrint) P t) +:+ ")".
Proof.
  assert (writes (PrintTupleTo (P:=P) t) ()
    ("(" +:+ String.concat ", " (field_texts (@UniversalPrint) P t) +:+ ")")) as Hw.
  { apply (writes_bind _ _ () ()); [apply writes_out|].
    apply (writes_bind _ _ () ()); [|apply writes_out].
    pose proof (PrintPrefixTo_writes P (tuple_size Ts) t) as H.
    rewrite take_ge in H; [by rewrite length_field_texts|]. by apply H. }
  unfold PrintToString, UniversalTersePrint, terse_print, UniversalPrint, print_tuple.
  rewrite (writes_written _ _ Hw). by apply writes_written, writes_out.
Qed.

Section args_theorems.
Context {Ts : list Type} (ks : list nat) {P : each1 UniversalPrinter (SelectedArgs (Ts:=Ts) ks)}.
Context (m : MatcherInterface (tuple (SelectedArgs (Ts:=Ts) ks))) `{!Lawful m}.

(** What a match of the arguments writes. *)
Definition args_text (args : tuple Ts) : string :=
  indices_text ks +:+ "are " +:+ "(" +:+
  String.concat ", " (field_texts (@UniversalPrint) P (select_tuple ks args)) +:+ ")" +:+
  if_not_empty (explanation m (select_tuple ks args)).

Lemma args_impl_run args l :
  (length ks ≤ 10)%nat →
  MatchAndExplain (ArgsMatcherImpl ks m) args l = (Matchers.Matches m (select_tuple ks args), l << args_text args).
Proof.
  intros Hks. cbn -[PrintIndices PrintToString]. unfold GetSelectedArgs. cbn [GetSelectedFields select_fields].
  destruct l as [os|]; [|done]. cbn [IsInterested negb].
  rewrite (writes_written _ _ (PrintIndices_writes ks Hks)) tuple_text (lawful _ StringMatchResultListener).
  rewrite print_if_not_empty !out_app. unfold args_text. by rewrite !string_app_assoc.
Qed.

Lemma args_impl_descriptions :
  (length ks ≤ 10)%nat →
  DescribeTo (ArgsMatcherImpl ks m) = "are a tuple " +:+ indices_text ks +:+ DescribeTo m ∧
  DescribeNegationTo (ArgsMatcherImpl ks m) = "are a tuple " +:+ indices_text ks +:+ DescribeNegationTo m.
Proof.
  intros Hks. split; apply writes_written.
  all: apply (writes_bind _ _ () ()); [apply writes_out|].
  all: apply (writes_bind _ _ () ()); [by apply PrintIndices_writes|apply writes_out].
Qed.
End args_theorems.

(** * AllOf and AnyOf, theorems *)

(** Two objects convert to matchers that answer and explain the same. *)
Definition agree (T : Type) {M : Type} {c : combining} {Ms : list Type} `{!ToMatcher M T}
    `{!ToMatcher (VariadicMatcher c Ms) T} (m : M) (m' : VariadicMatcher c Ms) : Prop :=
  ∀ (x : T) l, MatchAndExplain (to_matcher m) x l = MatchAndExplain (to_matcher m') x l.

Lemma answers_as {T : Type} stop ms ms' (m : MatcherInterface T) : answers stop ms' m → ms' = ms → answers stop ms m.
Proof. by intros ? <-. Qed.

Lemma answers_agree {T : Type} stop ms (m m' : MatcherInterface T) :
  answers stop ms m → answers stop ms m' → ∀ x l, MatchAndExplain m x l = MatchAndExplain m' x l.
Proof. intros H H' x l. by rewrite H H'. Qed.

(** The answer of nested and chained combinations, member by member. *)
Ltac nest :=
  first
    [ eapply (answers_app false BothOfMatcherImpl _ _ _ _ both_of_combines); nest
    | eapply (answers_app true EitherOfMatcherImpl _ _ _ _ either_of_combines); nest
    | eapply answers_one; assumption ].
Ltac nested := eapply answers_as; [nest|reflexivity].
Ltac agreement stop := intros x l; eapply (answers_agree stop); nested.

(** AllOf and AnyOf of two to ten matchers, which the header nests as two halves, answer
    and explain exactly as the variadic functions of gmock-matchers.h, which chain them
    from the left. *)
Theorem generated_combinators_are_variadic
    {T M1 M2 M3 M4 M5 M6 M7 M8 M9 M10 : Type}
    `{!MatcherCast T M1, !MatcherCast T M2, !MatcherCast T M3, !MatcherCast T M4, !MatcherCast T M5, !MatcherCast T M6, !MatcherCast T M7, !MatcherCast T M8, !MatcherCast T M9, !MatcherCast T M10}
    (m1 : M1) (m2 : M2) (m3 : M3) (m4 : M4) (m5 : M5) (m6 : M6) (m7 : M7) (m8 : M8) (m9 : M9) (m10 : M10) :
  Forall Lawful (cast_matchers (Target:=T) (Ms:=[M1; M2; M3; M4; M5; M6; M7; M8; M9; M10])
    (m1, (m2, (m3, (m4, (m5, (m6, (m7, (m8, (m9, (m10, ()))))))))))) →
  agree T (AllOf2 m1 m2) (AllOf [M1; M2] m1 m2) ∧
  agree T (AllOf3 m1 m2 m3) (AllOf [M1; M2; M3] m1 m2 m3) ∧
  agree T (AllOf4 m1 m2 m3 m4) (AllOf [M1; M2; M3; M4] m1 m2 m3 m4) ∧
  agree T (AllOf5 m1 m2 m3 m4 m5) (AllOf [M1; M2; M3; M4; M5] m1 m2 m3 m4 m5) ∧
  agree T (AllOf6 m1 m2 m3 m4 m5 m6) (AllOf [M1; M2; M3; M4; M5; M6] m1 m2 m3 m4 m5 m6) ∧
  agree T (AllOf7 m1 m2 m3 m4 m5 m6 m7) (AllOf [M1; M2; M3; M4; M5; M6; M7] m1 m2 m3 m4 m5 m6 m7) ∧
  agree T (AllOf8 m1 m2 m3 m4 m5 m6 m7 m8) (AllOf [M1; M2; M3; M4; M5; M6; M7; M8] m1 m2 m3 m4 m5 m6 m7 m8) ∧
  agree T (AllOf9 m1 m2 m3 m4 m5 m6 m7 m8 m9) (AllOf [M1; M2; M3; M4; M5; M6; M7; M8; M9] m1 m2 m3 m4 m5 m6 m7
  m8 m9) ∧
  agree T (AllOf10 m1 m2 m3 m4 m5 m6 m7 m8 m9 m10) (AllOf [M1; M2; M3; M4; M5; M6; M7; M8; M9; M10] m1 m2 m3
  m4 m5 m6 m7 m8 m9 m10) ∧
  agree T (AnyOf2 m1 m2) (AnyOf [M1; M2] m1 m2) ∧
  agree T (AnyOf3 m1 m2 m3) (AnyOf [M1; M2; M3] m1 m2 m3) ∧
  agree T (AnyOf4 m1 m2 m3 m4) (AnyOf [M1; M2; M3; M4] m1 m2 m3 m4) ∧
  agree T (AnyOf5 m1 m2 m3 m4 m5) (AnyOf [M1; M2; M3; M4; M5] m1 m2 m3 m4 m5) ∧
  agree T (AnyOf6 m1 m2 m3 m4 m5 m6) (AnyOf [M1; M2; M3; M4; M5; M6] m1 m2 m3 m4 m5 m6) ∧
  agree T (AnyOf7 m1 m2 m3 m4 m5 m6 m7) (AnyOf [M1; M2; M3; M4; M5; M6; M7] m1 m2 m3 m4 m5 m6 m7) ∧
  agree T (AnyOf8 m1 m2 m3 m4 m5 m6 m7 m8) (AnyOf [M1; M2; M3; M4; M5; M6; M7; M8] m1 m2 m3 m4 m5 m6 m7 m8) ∧
  agree T (AnyOf9 m1 m2 m3 m4 m5 m6 m7 m8 m9) (AnyOf [M1; M2; M3; M4; M5; M6; M7; M8; M9] m1 m2 m3 m4 m5 m6 m7
  m8 m9) ∧
  agree T (AnyOf10 m1 m2 m3 m4 m5 m6 m7 m8 m9 m10) (AnyOf [M1; M2; M3; M4; M5; M6; M7; M8; M9; M10] m1 m2 m3
  m4 m5 m6 m7 m8 m9 m10).
Proof.
  intros Hl. rewrite !cast_matchers_cons !Forall_cons in Hl.
  destruct Hl as (?&?&?&?&?&?&?&?&?&?&_).
  split_and!; first [agreement false|agreement true].
Qed.

(** * Theorems *)

(** Args<k1, ..., kn>(m) of at most ten indices matches the fields k1, ..., kn of the
    arguments, in that order and with repetition, by m; it explains them with their
    indices, their values and what m says, and describes them in the same way. *)
Theorem args_matcher_explains {M : Type} {Ts : list Type} (ks : list nat)
    {P : each1 UniversalPrinter (SelectedArgs (Ts:=Ts) ks)}
    `{!MatcherCast (tuple (SelectedArgs (Ts:=Ts) ks)) M} (m : M) (args : tuple Ts) l :
  Lawful (SafeMatcherCast (tuple (SelectedArgs (Ts:=Ts) ks)) m) → (length ks ≤ 10)%nat →
  let inner := SafeMatcherCast (tuple (SelectedArgs (Ts:=Ts) ks)) m in
  let matcher : MatcherInterface (tuple Ts) := to_matcher (MkArgs (ks:=ks) m) in
  let selected := select_tuple ks args in
  let indices := "whose fields (" +:+ String.concat ", " ((λ k, "#" +:+ pretty (Z.of_nat k)) <$> ks) +:+ ") " in
  MatchAndExplain matcher args l =
    (Matchers.Matches inner selected,
     l << (indices +:+ "are " +:+ "(" +:+ String.concat ", " (field_texts (@UniversalPrint) P selected) +:+ ")" +:+
           if_not_empty (explanation inner selected))) ∧
  (∀ i k, ks !! i = Some k → JMeq (tuple_get i selected) (tuple_get k args)) ∧
  DescribeTo matcher = "are a tuple " +:+ indices +:+ DescribeTo inner ∧
  DescribeNegationTo matcher = "are a tuple " +:+ indices +:+ DescribeNegationTo inner.
Proof.
  intros Hm Hks inner matcher selected indices. split; [by apply args_impl_run|].
  split; [intros i k; apply select_tuple_field|by apply args_impl_descriptions].
Qed.

(** An object of a MATCHER_Pn macro runs its statements on its parameters; it is described
    by the given description, or by its name and the print-outs of its parameters if that
    is empty. *)
Theorem macro_matcher_runs `{!DescriptionFormat} (N : Type) `{!MatcherName N} {Ps : list Type} (T : Type)
    {P : each1 UniversalTersePrinter Ps} `{!MatcherBody N Ps T} (ps : tuple Ps) (x : T) l :
  let matcher := macro_to (declare_matcher N Ps) (uncurry_tuple Ps (macro_make (declare_matcher N Ps)) ps) in
  let described (negation : bool) :=
    if bool_decide (description N T negation ps = EmptyString)
    then FormatMatcherDescription negation (matcher_name N) (field_texts (@UniversalTersePrint) P ps)
    else description N T negation ps in
  MatchAndExplain matcher x l = statements N ps x l ∧
  DescribeTo matcher = described false ∧ DescribeNegationTo matcher = described true.
Proof.
  intros matcher described. subst matcher. cbn [macro_make macro_to declare_matcher]. rewrite curry_uncurry.
  assert (∀ negation, FormatDescription N T ps negation = described negation) as Hd; [|by split_and!; [done|apply Hd..]].
  intros negation. unfold FormatDescription, described, UniversalTersePrintTupleFieldsToStrings.
  rewrite TersePrintPrefix_strings // take_ge; [by rewrite length_field_texts|].
  by case_bool_decide.
Qed.

(** * Samples *)

#[local] Instance print_int : UniversalPrinter Z := pretty.

Lemma args_matcher_explains_witness :
  MatchAndExplain (to_matcher (Args2 2 0 Lt2) : MatcherInterface (tuple [Z : Type; bool : Type; Z : Type]))
    (5, (true, (3, ()))) (Some EmptyString) = (true, Some "whose fields (#2, #0) are (3, 5)").
Proof.
  assert (Lawful (SafeMatcherCast (tuple [Z : Type; Z : Type]) Lt2)) as Hl by apply _.
  destruct (args_matcher_explains (Ts:=[Z : Type; bool : Type; Z : Type]) [2%nat; 0%nat] Lt2 (5, (true, (3, ())))
    (Some EmptyString) Hl) as [H _]; [simpl; lia|].
  exact H.
Defined.

Lemma generated_combinators_are_variadic_witness :
  MatchAndExplain (to_matcher (AllOf4 (Ne 0) (Gt (-3)) (Lt 9) (Not (Eq 4)))) 4 (Some EmptyString) =
  MatchAndExplain (to_matcher (MkVariadic (c:=BothOf)
    ((Ne 0, (Gt (-3), (Lt 9, (Not (Eq 4), ())))) : tuple [_; _; _; _]))) 4 (Some EmptyString).
Proof.
  assert (Forall Lawful (cast_matchers (Target:=Z) (Ms:=[_; _; _; _; _; _; _; _; _; _])
    (Ne 0, (Gt (-3), (Lt 9, (Not (Eq 4), (anything, (anything, (anything, (anything, (anything, (anything, ()))))))))))))
    as Hl by (repeat constructor; apply _).
  destruct (generated_combinators_are_variadic _ _ _ _ _ _ _ _ _ _ Hl) as (_ & _ & H & _).
  exact (H 4 (Some EmptyString)).
Defined.

(** MATCHER_P2(InClosedRange, low, hi, EmptyString) of the header's documentation. *)
Inductive InClosedRange : Set := .
#[local] Instance in_closed_range_name : MatcherName InClosedRange := "InClosedRange".
#[local] Instance in_closed_range : MatcherBody InClosedRange [Z : Type; Z : Type] Z := {|
  description _ (_ : tuple [Z : Type; Z : Type]) := EmptyString;
  statements (ps : tuple [Z : Type; Z : Type]) arg l := ((fst ps <=? arg) && (arg <=? fst (snd ps)), l);
|}.
#[local] Instance sample_format : DescriptionFormat := λ negation name values,
  (if negation then "not (" else "(") +:+ name +:+ " " +:+ String.concat ", " values +:+ ")".

Example in_closed_range_described :
  let matcher : MatcherInterface Z := to_matcher (macro_make (MATCHER_P2 InClosedRange Z Z) 4 6) in
  DescribeTo matcher = "(InClosedRange 4, 6)" ∧ Matchers.Matches matcher 5 = true ∧ Matchers.Matches matcher 7 = false.
Proof. by vm_compute. Qed.
