(* ===== verification/Actions.v ===== *)
(** The actions of the bundled mock library (src/gtest/include/gmock/gmock-actions.h):
    what a mock function does when it is called.

    A function type R(A1, ..., An) is a [function_type]. An Action<F> holds a pointer
    to an ActionInterface<F> object, NULL for DoDefault(); the object is represented by
    its Perform, a command on the state [env] of the program, and what it changes of
    itself lives in that state. The classes that can become an Action<F> (Return(x),
    DoAll(a, b), ...) have a conversion operator, which may allocate: the class
    [ToAction]. A PolymorphicAction converts through the Perform template of its
    implementation, the class [PerformImpl]. *)

From S2P Require Import Prelude Mem Tuples.

(** * The state of the program *)

(** errno and the memory; a cell holds a value of any of the types in [V]. *)
Record env (V : Type) : Type := Env { errno : Z; heap : mem V }.
Arguments Env {V} _ _.
Arguments errno {V} _.
Arguments heap {V} _.

Definition set_errno {V} (e : Z) (s : env V) : env V := Env e (heap s).
Definition set_heap {V} (h : mem V) (s : env V) : env V := Env (errno s) h.

(** A T* or a T&. *)
Record pointer (T : Type) : Type := Pointer { address : ptr }.
Arguments Pointer {T} _.
Arguments address {T} _.

(** The cells that hold a T. *)
Class Stored (V T : Type) : Type := {
  to_cell : T → V;
  of_cell : V → option T;
  of_to_cell t : of_cell (to_cell t) = Some t;
}.
#[global] Hint Mode Stored ! ! : typeclass_instances.

Section memory.
Context {MA : Malloc} {V T : Type} `{!Stored V T}.
Implicit Types (p : pointer T) (v : T) (s : env V).

(** new T(v); there is no handler of the std::bad_alloc. *)
Definition new_object v : cmd (env V) (pointer T) :=
  p ← zoom heap set_heap (malloc (to_cell v));
  match p with Some l => mret (Pointer (Some l)) | None => abort end.
(** The value of *p. *)
Definition deref p : cmd (env V) T :=
  c ← zoom heap set_heap (load (address p)); or_ub Indeterminate (of_cell c).
(** *p = v. *)
Definition assign_to p v : cmd (env V) unit := zoom heap set_heap (store (address p) (to_cell v)).
(** delete p. *)
Definition delete_object p : cmd (env V) unit := zoom heap set_heap (free (address p)).
End memory.

(** * Function types (gmock-generated-internal-utils.h) *)

(** R(A1, ..., An). *)
Record function_type : Type := Fn { Result : Type; Parameters : list Type }.

(** Function<F>. *)
Definition ArgumentTuple (F : function_type) : Type := tuple (Parameters F).
Definition MakeResultVoid (F : function_type) : function_type := Fn unit (Parameters F).

(** A value that is made from any other. *)
Inductive IgnoredValue : Set := Ignored.
#[export] Instance convert_ignored S T : Convert S T IgnoredValue | 5 := λ _, mret Ignored.
Definition MakeResultIgnoredValue (F : function_type) : function_type :=
  Fn IgnoredValue (Parameters F).

(** * Action<F> *)

Section action.
Context {V : Type}.
Implicit Types F : function_type.

(** An ActionInterface<F> object: its Perform. *)
Definition ActionInterface F : Type := ArgumentTuple F → cmd (env V) (Result F).

(** Action<F>: impl_. *)
Definition Action F : Type := option (ActionInterface F).

Definition IsDoDefault {F} (a : Action F) : bool := match a with None => true | Some _ => false end.

(** Action<F>::Perform. *)
Definition Perform {F} (a : Action F) (args : ArgumentTuple F) : cmd (env V) (Result F) :=
  assert_ (negb (IsDoDefault a));;
  match a with Some impl => impl args | None => undefined NullDeref end.

(** MakeAction(impl). *)
Definition MakeAction {F} (impl : ActionInterface F) : Action F := Some impl.

(** ActionAdaptor<To, From>: the action is called through impl_ without a test. *)
Definition ActionAdaptor {To From : function_type} `{!each2 (Convert (env V)) (Parameters To) (Parameters From)}
    `{!Convert (env V) (Result From) (Result To)} (from : Action From) : ActionInterface To := λ args,
  match from with
  | None => undefined NullDeref
  | Some impl => from_args ← convert_tuple _ args; r ← impl from_args; convert r
  end.

(** Action<To>::Action(const Action<From>& from). *)
Definition adapt_action {To From : function_type} `{!each2 (Convert (env V)) (Parameters To) (Parameters From)}
    `{!Convert (env V) (Result From) (Result To)} (from : Action From) : Action To :=
  Some (ActionAdaptor from).
End action.
#[global] Arguments ActionInterface : clear implicits.
#[global] Arguments Action : clear implicits.

(** operator Action<F>() of X. *)
Class ToAction (V X : Type) (F : function_type) : Type := to_action : X → cmd (env V) (Action V F).
#[global] Hint Mode ToAction ! ! ! : typeclass_instances.
#[export] Instance action_to_action V F : ToAction V (Action V F) F := λ a, mret a.

(** impl.Perform<Result, ArgumentTuple>(args). *)
Class PerformImpl (V Impl : Type) (F : function_type) : Type :=
  perform_impl : Impl → ArgumentTuple F → cmd (env V) (Result F).
#[global] Hint Mode PerformImpl ! ! ! : typeclass_instances.

Record PolymorphicAction (Impl : Type) : Type := MakePolymorphicAction { poly_impl : Impl }.
Arguments MakePolymorphicAction {Impl} _.
Arguments poly_impl {Impl} _.

(** PolymorphicAction<Impl>::MonomorphicImpl<F>. *)
Definition MonomorphicImpl {V Impl F} `{!PerformImpl V Impl F} (impl : Impl) : ActionInterface V F :=
  λ args, perform_impl impl args.
#[export] Instance polymorphic_to_action V Impl F `{!PerformImpl V Impl F} :
    ToAction V (PolymorphicAction Impl) F := λ a, mret (Some (MonomorphicImpl (poly_impl a))).

(** * Actions that return *)

(** Return(x): the value is converted when the action is. *)
Record ReturnAction (R : Type) : Type := Return { return_value : R }.
Arguments Return {R} _.
Arguments return_value {R} _.
(** ReturnAction<R>::Impl<R, F>, with the members value_before_cast_ and value_. *)
Definition ReturnImpl {V R F} (value_before_cast : R) (value : Result F) : ActionInterface V F :=
  λ _, mret value.
#[export] Instance return_to_action V R F `{!Convert (env V) R (Result F)} :
    ToAction V (ReturnAction R) F := λ a,
  value ← convert (return_value a); mret (Some (ReturnImpl (return_value a) value)).

(** Return(ByMove(x)): the wrapper of the value is shared by the actions made from it;
    each of them has its own performed_. *)
Class Movable (T : Type) : Type := moved_from : T → T.
Record ReturnByMoveAction (R : Type) : Type := ByMoveAction { by_move_wrapper : pointer R }.
Arguments ByMoveAction {R} _.
Arguments by_move_wrapper {R} _.

Section by_move.
Context {MA : Malloc} {V R : Type} `{!Stored V R, !Stored V bool, !Movable R}.

Definition ReturnByMove (x : R) : cmd (env V) (ReturnByMoveAction R) :=
  wrapper ← new_object x; mret (ByMoveAction wrapper).

(** ReturnAction<R>::Impl<ByMoveWrapper<R>, F>. *)
Definition ByMoveImpl {F} `{!Convert (env V) R (Result F)} (performed : pointer bool) (wrapper : pointer R)
    : ActionInterface V F := λ _,
  b ← deref performed;
  assert_ (negb b);;
  assign_to performed true;;
  payload ← deref wrapper;
  assign_to wrapper (moved_from payload);;
  convert payload.

#[export] Instance by_move_to_action F `{!Convert (env V) R (Result F)} :
    ToAction V (ReturnByMoveAction R) F := λ a,
  performed ← new_object false;
  mret (Some (ByMoveImpl performed (by_move_wrapper a))).
End by_move.

(** ReturnNull(). *)
Inductive ReturnNullAction : Set := MkReturnNull.
#[export] Instance return_null_perform V T As : PerformImpl V ReturnNullAction (Fn (pointer T) As) :=
  λ _ _, mret (Pointer NULL).
Definition ReturnNull : PolymorphicAction ReturnNullAction := MakePolymorphicAction MkReturnNull.

(** Return(). *)
Inductive ReturnVoidAction : Set := MkReturnVoid.
#[export] Instance return_void_perform V As : PerformImpl V ReturnVoidAction (Fn unit As) :=
  λ _ _, mret ().
Definition ReturnVoid : PolymorphicAction ReturnVoidAction := MakePolymorphicAction MkReturnVoid.

(** ReturnRef(x), for a function that returns a reference. *)
Record ReturnRefAction (T : Type) : Type := ReturnRef { ref_ : pointer T }.
Arguments ReturnRef {T} _.
Arguments ref_ {T} _.
Definition ReturnRefImpl {V T As} (ref : pointer T) : ActionInterface V (Fn (pointer T) As) :=
  λ _, mret ref.
#[export] Instance return_ref_to_action V T As : ToAction V (ReturnRefAction T) (Fn (pointer T) As) :=
  λ a, mret (Some (ReturnRefImpl (ref_ a))).

(** ReturnRefOfCopy(x): each converted action has a copy of x. *)
Record ReturnRefOfCopyAction (T : Type) : Type := ReturnRefOfCopy { copied_value : T }.
Arguments ReturnRefOfCopy {T} _.
Arguments copied_value {T} _.
Definition ReturnRefOfCopyImpl {V T As} (value : pointer T) : ActionInterface V (Fn (pointer T) As) :=
  λ _, mret value.
#[export] Instance return_ref_of_copy_to_action {MA : Malloc} V T As `{!Stored V T} :
    ToAction V (ReturnRefOfCopyAction T) (Fn (pointer T) As) := λ a,
  value ← new_object (copied_value a); mret (Some (ReturnRefOfCopyImpl value)).

(** DoDefault(). *)
Inductive DoDefaultAction : Set := DoDefault.
#[export] Instance do_default_to_action V F : ToAction V DoDefaultAction F := λ _, mret None.

(** * Actions with an effect *)

(** Assign(ptr, val). *)
Record AssignAction (T1 T2 : Type) : Type := MkAssign { assign_ptr : pointer T1; assign_value : T2 }.
Arguments MkAssign {T1 T2} _ _.
Arguments assign_ptr {T1 T2} _.
Arguments assign_value {T1 T2} _.
#[export] Instance assign_perform V T1 T2 As `{!Stored V T1, !Convert (env V) T2 T1} :
    PerformImpl V (AssignAction T1 T2) (Fn unit As) := λ a _,
  v ← convert (assign_value a); assign_to (assign_ptr a) v.
Definition AssignTo {T1 T2} (p : pointer T1) (val : T2) : PolymorphicAction (AssignAction T1 T2) :=
  MakePolymorphicAction (MkAssign p val).

(** SetErrnoAndReturn(errval, result). *)
Record SetErrnoAndReturnAction (T : Type) : Type := MkSetErrno { errno_value : Z; errno_result : T }.
Arguments MkSetErrno {T} _ _.
Arguments errno_value {T} _.
Arguments errno_result {T} _.
#[export] Instance set_errno_perform V T F `{!Convert (env V) T (Result F)} :
    PerformImpl V (SetErrnoAndReturnAction T) F := λ a _,
  modify (set_errno (errno_value a));; convert (errno_result a).
Definition SetErrnoAndReturn {T} (errval : Z) (result : T) :
    PolymorphicAction (SetErrnoAndReturnAction T) :=
  MakePolymorphicAction (MkSetErrno errval result).

(** The arguments that point to an A. *)
Class PointsTo (P A : Type) : Type := pointee : P → pointer A.
#[export] Instance pointer_points_to A : PointsTo (pointer A) A := id.

(** SetArgumentPointee<N>(x). *)
Record SetArgumentPointeeAction (N : nat) (A : Type) : Type := MkSetArg { arg_value : A }.
Arguments MkSetArg N {A} _.
Arguments arg_value {N A} _.
#[export] Instance set_arg_perform V N A B As
    `{!PointsTo (type_at N As) B, !Stored V B, !Convert (env V) A B} :
    PerformImpl V (SetArgumentPointeeAction N A) (Fn unit As) := λ a args,
  v ← convert (arg_value a); assign_to (pointee (tuple_get N args)) v.
Definition SetArgPointee (N : nat) {A} (x : A) : PolymorphicAction (SetArgumentPointeeAction N A) :=
  MakePolymorphicAction (MkSetArg N x).
Definition SetArgumentPointee (N : nat) {A} (x : A) : PolymorphicAction (SetArgumentPointeeAction N A) :=
  MakePolymorphicAction (MkSetArg N x).

(** The protocol messages: a new one, and this->CopyFrom(other). *)
Class ProtocolMessage (P : Type) : Type := {
  new_message : P;
  message_CopyFrom : P → P → P;
}.
(** SetArgumentPointee<N>(proto), with its own copy of the message. *)
Record SetArgumentPointeeProtoAction (N : nat) (Proto : Type) : Type := MkSetProto { proto_ : Proto }.
Arguments MkSetProto N {Proto} _.
Arguments proto_ {N Proto} _.
Definition SetProtoPointee (N : nat) {Proto} `{!ProtocolMessage Proto} (proto : Proto) :
    PolymorphicAction (SetArgumentPointeeProtoAction N Proto) :=
  MakePolymorphicAction (MkSetProto N (message_CopyFrom new_message proto)).
#[export] Instance set_proto_perform V N Proto As
    `{!PointsTo (type_at N As) Proto, !Stored V Proto, !ProtocolMessage Proto} :
    PerformImpl V (SetArgumentPointeeProtoAction N Proto) (Fn unit As) := λ a args,
  m ← deref (pointee (tuple_get N args));
  assign_to (pointee (tuple_get N args)) (message_CopyFrom m (proto_ a)).

(** InvokeWithoutArgs(f). *)
Record InvokeWithoutArgsAction (V R : Type) : Type :=
  MkInvokeWithoutArgs { function_impl0 : cmd (env V) R }.
Arguments MkInvokeWithoutArgs {V R} _.
Arguments function_impl0 {V R} _.
#[export] Instance invoke_without_args_perform V R F `{!Convert (env V) R (Result F)} :
    PerformImpl V (InvokeWithoutArgsAction V R) F := λ a _, r ← function_impl0 a; convert r.
Definition InvokeWithoutArgs {V R} (f : cmd (env V) R) : PolymorphicAction (InvokeWithoutArgsAction V R) :=
  MakePolymorphicAction (MkInvokeWithoutArgs f).

(** InvokeWithoutArgs(obj_ptr, &Class::Method). *)
Record InvokeMethodWithoutArgsAction (V C R : Type) : Type :=
  MkInvokeMethodWithoutArgs { obj_ptr0 : pointer C; method_ptr0 : pointer C → cmd (env V) R }.
Arguments MkInvokeMethodWithoutArgs {V C R} _ _.
Arguments obj_ptr0 {V C R} _.
Arguments method_ptr0 {V C R} _ _.

(** obj_ptr->*method_ptr: the object has to be there. *)
Definition method_of {V C M} `{!Stored V C} (obj : pointer C) (method : pointer C → M) : cmd (env V) M :=
  _ ← deref obj; mret (method obj).
#[export] Instance invoke_method_without_args_perform V C R F `{!Stored V C, !Convert (env V) R (Result F)} :
    PerformImpl V (InvokeMethodWithoutArgsAction V C R) F := λ a _,
  f ← method_of (obj_ptr0 a) (method_ptr0 a); r ← f; convert r.
Definition InvokeMethodWithoutArgs {V C R} (obj : pointer C) (method : pointer C → cmd (env V) R) :
    PolymorphicAction (InvokeMethodWithoutArgsAction V C R) :=
  MakePolymorphicAction (MkInvokeMethodWithoutArgs obj method).

(** * Composite actions *)

(** IgnoreResult(action). *)
Record IgnoreResultAction (A : Type) : Type := IgnoreResult { ignored_action : A }.
Arguments IgnoreResult {A} _.
Arguments ignored_action {A} _.
Definition IgnoreResultImpl {V As} (action : Action V (Fn IgnoredValue As)) : ActionInterface V (Fn unit As) :=
  λ args, _ ← Perform (F:=Fn IgnoredValue As) action args; mret ().
#[export] Instance ignore_result_to_action V A As `{!ToAction V A (Fn IgnoredValue As)} :
    ToAction V (IgnoreResultAction A) (Fn unit As) := λ a,
  action ← to_action (ignored_action a); mret (Some (IgnoreResultImpl action)).

(** DoBothAction<Action1, Action2>. *)
Record DoBothAction (A1 A2 : Type) : Type := MkDoBoth { action1_ : A1; action2_ : A2 }.
Arguments MkDoBoth {A1 A2} _ _.
Arguments action1_ {A1 A2} _.
Arguments action2_ {A1 A2} _.
Definition DoBothImpl {V F} (action1 : Action V (MakeResultVoid F)) (action2 : Action V F) :
    ActionInterface V F := λ args, Perform (F:=MakeResultVoid F) action1 args;; Perform action2 args.
#[export] Instance do_both_to_action V A1 A2 F `{!ToAction V A1 (MakeResultVoid F), !ToAction V A2 F} :
    ToAction V (DoBothAction A1 A2) F := λ a,
  action1 ← to_action (action1_ a);
  action2 ← to_action (action2_ a);
  mret (Some (DoBothImpl action1 action2)).

(** ByRef(x): a reference as a value. *)
Record ReferenceWrapper (T : Type) : Type := ByRef { pointer_ : pointer T }.
Arguments ByRef {T} _.
Arguments pointer_ {T} _.
#[export] Instance unwrap_reference S T : Convert S (ReferenceWrapper T) (pointer T) :=
  λ r, mret (pointer_ r).

(** * Theorems *)

(** The memory. *)
Section memory_laws.
Context {MA : Malloc} {V T : Type} `{!Stored V T}.
Implicit Types (l : positive) (v : T) (s : env V).

Lemma deref_done l v s :
  cells (heap s) !! l = Some (to_cell v) → deref (Pointer (Some l) : pointer T) s = (Done v, s).
Proof.
  intros Hl. unfold deref.
  erewrite bind_done by (apply zoom_done, load_live, Hl). rewrite of_to_cell. by destruct s.
Qed.

Lemma deref_null s : deref (Pointer NULL : pointer T) s = (Undefined NullDeref, s).
Proof. by destruct s. Qed.

Lemma assign_done l c v s :
  cells (heap s) !! l = Some c →
  assign_to (Pointer (Some l) : pointer T) v s =
    (Done (), set_heap (Mem (<[l := to_cell v]> (cells (heap s))) (calls (heap s))) s).
Proof. intros Hl. apply zoom_done. by eapply store_live. Qed.

Lemma new_object_done v s :
  malloc_total →
  ∃ l, cells (heap s) !! l = None ∧
    new_object v s =
      (Done (Pointer (Some l)), set_heap (Mem (<[l := to_cell v]> (cells (heap s))) (S (calls (heap s)))) s).
Proof.
  intros Ht. destruct (malloc_new (to_cell v) (heap s) Ht) as (l & Hl & Hm).
  exists l. split; [done|]. unfold new_object. by erewrite bind_done by (apply zoom_done, Hm).
Qed.
End memory_laws.

(** Performing. *)
Section performing.
Context {V : Type}.
Implicit Types (F : function_type) (s : env V).

Lemma perform_some F (impl : ActionInterface V F) args s : Perform (Some impl) args s = impl args s.
Proof. done. Qed.

Lemma perform_none F args s : Perform (None : Action V F) args s = (Aborted, s).
Proof. done. Qed.

(** The result of Return(x) is the value at the time of the conversion. *)
Lemma return_casts_early (R : Type) F `{!Convert (env V) R (Result F)} (x : R) (v : Result F) s s' :
  convert x s = (Done v, s') →
  ∃ a, to_action (Return x) s = (Done (Some a), s') ∧ ∀ args t, Perform (F:=F) (Some a) args t = (Done v, t).
Proof.
  intros Hc. exists (ReturnImpl x v). split; [|done].
  rewrite /to_action /return_to_action /=. by rewrite (bind_done _ _ _ _ _ Hc).
Qed.

Lemma do_both_conversion (A1 A2 : Type) F `{!ToAction V A1 (MakeResultVoid F), !ToAction V A2 F}
    (x1 : A1) (x2 : A2) a1 a2 s s1 s2 :
  to_action x1 s = (Done a1, s1) → to_action x2 s1 = (Done a2, s2) →
  to_action (F:=F) (MkDoBoth x1 x2) s = (Done (Some (DoBothImpl a1 a2)), s2).
Proof.
  intros H1 H2. rewrite {1}/to_action /do_both_to_action /=.
  by rewrite (bind_done _ _ _ _ _ H1) (bind_done _ _ _ _ _ H2).
Qed.

(** A DoDefault() action converted to another function type is no longer the default
    action, and performing it calls through a null pointer. *)
Lemma adapted_default_undefined (To From : function_type)
    `{!each2 (Convert (env V)) (Parameters To) (Parameters From), !Convert (env V) (Result From) (Result To)}
    (from : Action V From) args s :
  to_action DoDefault s = (Done from, s) →
  IsDoDefault from = true ∧ IsDoDefault (adapt_action from : Action V To) = false ∧
  Perform (adapt_action from : Action V To) args s = (Undefined NullDeref, s).
Proof. by intros [= <-]. Qed.
End performing.

(** Return(ByMove(x)). *)
Section by_move_laws.
Context {MA : Malloc} {V R : Type} `{!Stored V R, !Stored V bool, !Movable R} {As : list Type}.
Local Abbreviation F := (Fn R As).
Implicit Types (x v : R) (s : env V) (p q : positive) (qs : list positive).

(** [n] actions made from one Return(ByMove(x)) object. *)
Fixpoint convert_times (n : nat) (a : ReturnByMoveAction R) : cmd (env V) (list (Action V F)) :=
  match n with
  | O => mret []
  | S n => action ← to_action a; actions ← convert_times n a; mret (action :: actions)
  end.

(** The calls, by the index of the action performed. *)
Fixpoint perform_each (actions : list (Action V F)) (trace : list nat) (args : tuple As)
    : cmd (env V) (list R) :=
  match trace with
  | [] => mret []
  | i :: trace =>
    r ← Perform (F:=F) (default None (actions !! i)) args;
    rs ← perform_each actions trace args; mret (r :: rs)
  end.

(** x, what a move leaves of it, what a move leaves of that, ... *)
Fixpoint deliveries (n : nat) x : list R :=
  match n with O => [] | S n => x :: deliveries n (moved_from x) end.

(** The wrapper holds [v]; action [i], whose performed_ is at [qs !! i], has been
    performed when [i ∈ d]. *)
Record by_move_state p qs (d : list nat) v s : Prop := ByMoveState {
  bm_payload : cells (heap s) !! p = Some (to_cell v);
  bm_apart : p ∉ qs;
  bm_nodup : NoDup qs;
  bm_flags i q : qs !! i = Some q → cells (heap s) !! q = Some (to_cell (bool_decide (i ∈ d)));
}.

Definition by_move_actions p qs : list (Action V F) :=
  (λ q, Some (ByMoveImpl (F:=F) (Pointer (Some q)) (Pointer (Some p)))) <$> qs.

Lemma perform_first p qs d v s i args :
  by_move_state p qs d v s → (i < length qs)%nat → i ∉ d →
  ensures (Perform (F:=F) (default None (by_move_actions p qs !! i)) args) s (λ r s',
    r = v ∧ by_move_state p qs (i :: d) (moved_from v) s').
Proof.
  intros [Hp Hpq Hqs Hf] Hi Hd. destruct (lookup_lt_is_Some_2 _ _ Hi) as [q Hq].
  assert (p ≠ q) as Hne by (intros ->; by apply Hpq, (list_elem_of_lookup_2 _ i)).
  rewrite list_lookup_fmap Hq /=. unfold ensures. rewrite perform_some. unfold ByMoveImpl.
  pose proof (Hf i q Hq) as Hb. rewrite bool_decide_eq_false_2 in Hb; [done|].
  erewrite bind_done by (by apply deref_done). simpl assert_. rewrite bind_ret_l.
  erewrite bind_done by (by eapply assign_done).
  erewrite bind_done by (apply deref_done; by rewrite /= lookup_insert_ne).
  erewrite bind_done by (eapply assign_done; by rewrite /= lookup_insert_ne).
  exists v. eexists. split; [reflexivity|]. split; [done|]. split; simpl; [|done..|].
  - by rewrite lookup_insert_eq.
  - intros j q' Hj. destruct (decide (i = j)) as [<-|Hij].
    + assert (q' = q) as -> by congruence. rewrite lookup_insert_ne // lookup_insert_eq.
      by rewrite bool_decide_eq_true_2; [left|].
    + assert (q ≠ q') by (intros ->; by apply Hij, (NoDup_lookup qs i j q')).
      assert (p ≠ q') by (intros ->; by apply Hpq, (list_elem_of_lookup_2 _ j)).
      rewrite !lookup_insert_ne // (Hf j q' Hj). do 2 f_equal. apply bool_decide_ext.
      rewrite elem_of_cons. naive_solver.
Qed.

Lemma perform_again p qs d v s i args :
  by_move_state p qs d v s → (i < length qs)%nat → i ∈ d →
  Perform (F:=F) (default None (by_move_actions p qs !! i)) args s = (Aborted, s).
Proof.
  intros [Hp Hpq Hqs Hf] Hi Hd. destruct (lookup_lt_is_Some_2 _ _ Hi) as [q Hq].
  rewrite list_lookup_fmap Hq /= perform_some. unfold ByMoveImpl.
  pose proof (Hf i q Hq) as Hb. rewrite bool_decide_eq_true_2 in Hb; [done|].
  by erewrite bind_done by (by apply deref_done).
Qed.

Lemma by_move_fresh p qs x s q :
  by_move_state p qs [] x s → cells (heap s) !! q = None →
  by_move_state p (qs ++ [q]) [] x
    (set_heap (Mem (<[q := to_cell false]> (cells (heap s))) (S (calls (heap s)))) s).
Proof.
  intros [Hp Hpq Hqs Hf] Hq. assert (q ∉ qs) as Hnew.
  { intros [i Hi]%list_elem_of_lookup. by rewrite (Hf i q Hi) in Hq. }
  split; simpl.
  - rewrite lookup_insert_ne //. intros ->. by rewrite Hp in Hq.
  - rewrite not_elem_of_app list_elem_of_singleton. split; [done|]. intros ->. by rewrite Hp in Hq.
  - apply NoDup_app. split_and!; [done| |apply NoDup_singleton].
    by intros y Hy ->%list_elem_of_singleton.
  - intros i q' [Hi|[_ Hi]]%lookup_app_Some.
    + rewrite lookup_insert_ne; [|by apply (Hf i)]. intros ->. by apply Hnew, (list_elem_of_lookup_2 _ i).
    + apply list_elem_of_lookup_2, list_elem_of_singleton in Hi as ->. by rewrite lookup_insert_eq.
Qed.

Lemma convert_times_done n p qs0 x s :
  malloc_total → by_move_state p qs0 [] x s →
  ensures (convert_times n (ByMoveAction (Pointer (Some p)))) s (λ actions s',
    ∃ qs, actions = by_move_actions p qs ∧ length qs = n ∧ by_move_state p (qs0 ++ qs) [] x s').
Proof.
  intros Ht. revert qs0 s. induction n as [|n IH]; intros qs0 s Hs; simpl.
  - apply ensures_ret. exists []. by rewrite app_nil_r.
  - destruct (new_object_done (T:=bool) false s Ht) as (q & Hq & Hnew).
    apply ensures_bind. unfold ensures. rewrite /to_action /by_move_to_action.
    rewrite (bind_done _ _ _ _ _ Hnew). eexists _, _. split; [done|].
    apply ensures_bind. eapply ensures_mono; [apply (IH (qs0 ++ [q])), by_move_fresh; done|].
    intros actions s' (qs & -> & Hn & Hs'). apply ensures_ret.
    exists (q :: qs). split; [done|]. simpl. rewrite Hn. split; [done|].
    by rewrite -app_assoc in Hs'.
Qed.

(** A run of calls: the payload is delivered step by step, until an action is performed
    a second time. *)
Lemma perform_each_run p qs d v s trace args :
  by_move_state p qs d v s → Forall (λ i, i < length qs)%nat trace →
  (NoDup trace ∧ (∀ i, i ∈ trace → i ∉ d) ∧
   ∃ t, perform_each (by_move_actions p qs) trace args s = (Done (deliveries (length trace) v), t)) ∨
  (¬ (NoDup trace ∧ ∀ i, i ∈ trace → i ∉ d) ∧
   ∃ t, perform_each (by_move_actions p qs) trace args s = (Aborted, t)).
Proof.
  revert d v s. induction trace as [|i trace IH]; intros d v s Hs Hall.
  { left. split_and!; [constructor|by intros i ?%elem_of_nil|by eexists]. }
  apply Forall_cons in Hall as [Hi Hall]. destruct (decide (i ∈ d)) as [Hd|Hd].
  - right. split; [intros [_ H]; by apply (H i); [left|]|]. exists s. simpl.
    unfold mbind, cmd_bind. by rewrite (perform_again _ _ _ _ _ _ args Hs Hi Hd).
  - destruct (perform_first _ _ _ _ _ _ args Hs Hi Hd) as (r & s' & Hr & -> & Hs').
    destruct (IH _ _ _ Hs' Hall) as [(Hnd & Hout & t & Ht)|(Hdup & t & Ht)]; [left|right].
    + split_and!.
      * constructor; [|done]. intros Hin. apply (Hout i Hin). by left.
      * intros j [->|Hj]%elem_of_cons; [done|]. intros Hjd. apply (Hout j Hj). by right.
      * exists t. simpl. by rewrite (bind_done _ _ _ _ _ Hr) (bind_done _ _ _ _ _ Ht).
    + split.
      * intros [[Hni Hnd]%NoDup_cons Hout]. apply Hdup. split; [done|].
        intros j Hj [->|Hjd]%elem_of_cons; [done|]. apply (Hout j); [by right|done].
      * exists t. simpl. rewrite (bind_done _ _ _ _ _ Hr). unfold mbind, cmd_bind. by rewrite Ht.
Qed.

(** C24. When several actions are made from one Return(ByMove(x)), a sequence of calls
    that performs each of them at most once completes: the first call returns x, and
    each later one what the move before it left of the shared payload. A sequence that
    performs any of them twice aborts. *)
Theorem by_move_once (n : nat) x s (trace : list nat) args :
  malloc_total → Forall (λ i, i < n)%nat trace →
  ensures (a ← ReturnByMove x; convert_times n a) s (λ actions s',
    length actions = n ∧
    (NoDup trace → ∃ t, perform_each actions trace args s' = (Done (deliveries (length trace) x), t)) ∧
    (¬ NoDup trace → ∃ t, perform_each actions trace args s' = (Aborted, t))).
Proof.
  intros Ht Hall. destruct (new_object_done x s Ht) as (p & _ & Hnew).
  apply ensures_bind. unfold ensures, ReturnByMove. rewrite (bind_done _ _ _ _ _ Hnew).
  eexists _, _. split; [done|].
  eapply ensures_mono; [apply (convert_times_done n p [] x _ Ht)|].
  { split; simpl; [by rewrite lookup_insert_eq|by apply not_elem_of_nil|constructor|done]. }
  intros actions s' (qs & -> & Hn & Hs'). rewrite -Hn in Hall.
  split; [by rewrite length_fmap|].
  destruct (perform_each_run _ _ _ _ _ trace args Hs' Hall) as [(Hnd & _ & Hok)|[Hdup Habort]]; [done|].
  split; [|done]. intros Hnd. destruct Hdup. split; [done|]. by intros i _ ?%not_elem_of_nil.
Qed.
End by_move_laws.

(** * A sample *)

(** Cells that hold ints and bools. *)
Inductive sample_cell : Set := IntCell (n : Z) | BoolCell (b : bool).
#[export] Instance stored_Z : Stored sample_cell Z := {|
  to_cell := IntCell; of_cell c := match c with IntCell n => Some n | BoolCell _ => None end;
  of_to_cell _ := eq_refl |}.
#[export] Instance stored_bool : Stored sample_cell bool := {|
  to_cell := BoolCell; of_cell c := match c with BoolCell b => Some b | IntCell _ => None end;
  of_to_cell _ := eq_refl |}.

(** A type whose move leaves 0. *)
Definition sample_moved : Movable Z := λ _, 0.

Example by_move_once_witness :
  malloc_total (MA:=bump_malloc) ∧ Forall (λ i, i < 2)%nat [1; 0]%nat ∧
  ensures (a ← ReturnByMove (MA:=bump_malloc) 41; convert_times (As:=[]) (Movable0:=sample_moved) 2 a)
    (Env 0 (Mem ∅ 0) : env sample_cell) (λ actions s',
    (∃ t, perform_each actions [1; 0]%nat () s' = (Done [41; 0], t)) ∧
    (∃ t, perform_each actions [1; 0; 1]%nat () s' = (Aborted, t))).
Proof.
  split_and!; [apply bump_malloc_total|repeat constructor|].
  destruct (by_move_once (Movable0:=sample_moved) (As:=[]) 2 41 (Env 0 (Mem ∅ 0) : env sample_cell)
    [1; 0]%nat () bump_malloc_total ltac:(repeat constructor)) as (acts & s' & Hm & _ & Hok & _).
  destruct (by_move_once (Movable0:=sample_moved) (As:=[]) 2 41 (Env 0 (Mem ∅ 0) : env sample_cell)
    [1; 0; 1]%nat () bump_malloc_total ltac:(repeat constructor)) as (acts' & s'' & Hm' & _ & _ & Hab).
  rewrite Hm in Hm'. injection Hm' as <- <-.
  exists acts, s'. split_and!; [exact Hm| |].
  - apply Hok. vm_decide.
  - apply Hab. vm_decide.
Defined.
