(* ===== verification/GeneratedActions.v ===== *)
(** The actions of the bundled mock library that take any number of arguments:
    src/gtest/include/gmock/gmock-generated-actions.h and gmock-more-actions.h.

    The header repeats each class for zero to ten arguments; each is written here once
    over the list of argument types, and the header's classes are its instances. A
    function that an action calls is a [function_object], whose parameters the
    arguments are converted to. *)

From Stdlib Require Import JMeq.
From S2P Require Import Prelude Mem Tuples Actions.

(** * Calling functions *)

(** A function pointer or functor with parameters [Qs]. *)
Record function_object (V : Type) (Qs : list Type) (R : Type) : Type :=
  FunctionObject { call_function : curried Qs (cmd (env V) R) }.
Arguments FunctionObject {V Qs R} _.
Arguments call_function {V Qs R} _.

(** function(get<0>(args), get<1>(args), ...) as an R. *)
Definition call_with {V Qs RF As R} {C : each2 (Convert (env V)) As Qs} `{!Convert (env V) RF R}
    (f : curried Qs (cmd (env V) RF)) (args : tuple As) : cmd (env V) R :=
  qs ← convert_tuple C args; r ← uncurry_tuple Qs f qs; convert r.

(** The static members of InvokeHelper<R, tuple<A1, ..., An> >. *)
Record InvokeHelper (V R : Type) (As : list Type) : Type := MkInvokeHelper {
  helper_Invoke : ∀ Qs RF, each2 (Convert (env V)) As Qs → Convert (env V) RF R →
    function_object V Qs RF → tuple As → cmd (env V) R;
  helper_InvokeMethod : ∀ C Qs RF, Stored V C → each2 (Convert (env V)) As Qs → Convert (env V) RF R →
    pointer C → (pointer C → curried Qs (cmd (env V) RF)) → tuple As → cmd (env V) R;
}.
Arguments MkInvokeHelper {V R As} _ _.
Arguments helper_Invoke {V R As} _ {Qs RF _ _} _ _.
Arguments helper_InvokeMethod {V R As} _ {C Qs RF _ _ _} _ _ _.

Definition invoke_helper (V R : Type) (As : list Type) : InvokeHelper V R As :=
  MkInvokeHelper
    (λ Qs RF _ _ f args, call_with (call_function f) args)
    (λ C Qs RF _ _ _ obj_ptr method_ptr args,
       method ← method_of obj_ptr method_ptr; call_with method args).

(** InvokeArgumentAdl<R>(AdlTag(), f, a1, ..., an). *)
Definition invoke_argument_adl (V R : Type) (As : list Type) {Qs RF}
    `{!each2 (Convert (env V)) As Qs, !Convert (env V) RF R}
    (f : function_object V Qs RF) : curried As (cmd (env V) R) :=
  curry_tuple As (λ a, call_with (call_function f) a).

(** * Selecting arguments *)

(** SelectArgs<Result, ArgumentTuple, k1, ..., kn>. *)
Record SelectArgs (R : Type) (As : list Type) (ks : list nat) : Type := MkSelectArgs {
  select_type : function_type;
  Select : tuple As → tuple (map (λ k, type_at k As) ks);
}.
Arguments MkSelectArgs {R As ks} _ _.
Arguments select_type {R As ks} _.
Arguments Select {R As ks} _ _.

Definition select_args (R : Type) (As : list Type) (ks : list nat) : SelectArgs R As ks :=
  MkSelectArgs (Fn R (map (λ k, type_at k As) ks)) (select_tuple ks).

(** WithArgsAction<InnerAction, k1, ..., kn>. *)
Record WithArgsAction (A : Type) (ks : list nat) : Type := MkWithArgs { inner_action : A }.
Arguments MkWithArgs {A ks} _.
Arguments inner_action {A ks} _.

(** InnerFunctionType. *)
Definition inner_function (F : function_type) (ks : list nat) : function_type :=
  Fn (Result F) (map (λ k, type_at k (Parameters F)) ks).

Definition WithArgsImpl {V F ks} (action : Action V (inner_function F ks)) : ActionInterface V F :=
  λ args, Perform (F:=inner_function F ks) action (Select (select_args (Result F) (Parameters F) ks) args).

#[export] Instance with_args_to_action V A F ks `{!ToAction V A (inner_function F ks)} :
    ToAction V (WithArgsAction A ks) F := λ a,
  action ← to_action (inner_action a); mret (MakeAction (WithArgsImpl action)).

(** * The ACTION macros *)

Inductive ExcessiveArg : Set := Excessive.

(** The ten arguments of gmock_PerformImpl for a function with arguments [As]: those
    the function does not have are ExcessiveArgs. *)
Fixpoint padded (n : nat) (As : list Type) : list Type :=
  match n with
  | O => []
  | S n => match As with [] => (ExcessiveArg : Type) :: padded n [] | A :: As => A :: padded n As end
  end.

Fixpoint pad_args (n : nat) (As : list Type) {struct n} : tuple As → tuple (padded n As) :=
  match n return tuple As → tuple (padded n As) with
  | O => λ _, ()
  | S n => match As return tuple As → tuple (padded (S n) As) with
           | [] => λ _, (Excessive, pad_args n [] ())
           | A :: As => λ args, (fst args, pad_args n As (snd args))
           end
  end.

(** The statements of the action [N], as the member gmock_PerformImpl of an object
    with the parameters [Ps]. *)
Class ActionBody (N : Type) (Ps : list Type) (V : Type) (F : function_type) : Type :=
  gmock_PerformImpl : tuple Ps → ArgumentTuple F → tuple (padded 10 (Parameters F)) →
    cmd (env V) (Result F).
#[global] Hint Mode ActionBody ! ! ! ! : typeclass_instances.

(** ActionHelper<Result, Impl>::Perform(impl, args). *)
Definition action_helper (V R : Type) (As : list Type)
    (impl : tuple As → tuple (padded 10 As) → cmd (env V) R) (args : tuple As) : cmd (env V) R :=
  impl args (pad_args 10 As args).

(** The class nameAction, with its fields p0, p1, ... *)
Record macro_action (N : Type) (Ps : list Type) : Type := MacroAction { macro_params : tuple Ps }.
Arguments MacroAction {N Ps} _.
Arguments macro_params {N Ps} _.

(** gmock_Impl<F>, which has its own copy of the fields. *)
Definition gmock_Impl {N Ps V F} `{!ActionBody N Ps V F} (ps : tuple Ps) : ActionInterface V F := λ args,
  action_helper V (Result F) (Parameters F) (gmock_PerformImpl (N:=N) ps) args.
#[export] Instance macro_to_action N Ps V F `{!ActionBody N Ps V F} :
    ToAction V (macro_action N Ps) F := λ a, mret (Some (gmock_Impl (N:=N) (macro_params a))).

(** What a macro declares: the class, its conversion, and the function that makes an
    object of it. *)
Record action_macro (N : Type) (Ps : list Type) : Type := ActionMacro {
  macro_convert : ∀ V F, ActionBody N Ps V F → macro_action N Ps → cmd (env V) (Action V F);
  macro_make : curried Ps (macro_action N Ps);
}.
Arguments ActionMacro {N Ps} _ _.
Arguments macro_convert {N Ps} _ {V F _} _.
Arguments macro_make {N Ps} _.

Definition declare_action (N : Type) (Ps : list Type) : action_macro N Ps :=
  ActionMacro (λ V F _, to_action) (curry_tuple Ps MacroAction).

(** ACTION_TEMPLATE(name, template_params, value_params); the template's arguments are
    part of [N]. *)
Definition ACTION_TEMPLATE (N : Type) (Ps : list Type) : action_macro N Ps := declare_action N Ps.

(** * The classes and functions of the header *)

Section helpers.
Context {V R : Type} {A1 A2 A3 A4 A5 A6 A7 A8 A9 A10 : Type}.

Definition InvokeHelper0 := invoke_helper V R [].
Definition InvokeHelper1 := invoke_helper V R [A1].
Definition InvokeHelper2 := invoke_helper V R [A1; A2].
Definition InvokeHelper3 := invoke_helper V R [A1; A2; A3].
Definition InvokeHelper4 := invoke_helper V R [A1; A2; A3; A4].
Definition InvokeHelper5 := invoke_helper V R [A1; A2; A3; A4; A5].
Definition InvokeHelper6 := invoke_helper V R [A1; A2; A3; A4; A5; A6].
Definition InvokeHelper7 := invoke_helper V R [A1; A2; A3; A4; A5; A6; A7].
Definition InvokeHelper8 := invoke_helper V R [A1; A2; A3; A4; A5; A6; A7; A8].
Definition InvokeHelper9 := invoke_helper V R [A1; A2; A3; A4; A5; A6; A7; A8; A9].
Definition InvokeHelper10 := invoke_helper V R [A1; A2; A3; A4; A5; A6; A7; A8; A9; A10].

Definition ActionHelper_Perform0 := action_helper V R [].
Definition ActionHelper_Perform1 := action_helper V R [A1].
Definition ActionHelper_Perform2 := action_helper V R [A1; A2].
Definition ActionHelper_Perform3 := action_helper V R [A1; A2; A3].
Definition ActionHelper_Perform4 := action_helper V R [A1; A2; A3; A4].
Definition ActionHelper_Perform5 := action_helper V R [A1; A2; A3; A4; A5].
Definition ActionHelper_Perform6 := action_helper V R [A1; A2; A3; A4; A5; A6].
Definition ActionHelper_Perform7 := action_helper V R [A1; A2; A3; A4; A5; A6; A7].
Definition ActionHelper_Perform8 := action_helper V R [A1; A2; A3; A4; A5; A6; A7; A8].
Definition ActionHelper_Perform9 := action_helper V R [A1; A2; A3; A4; A5; A6; A7; A8; A9].
Definition ActionHelper_Perform10 := action_helper V R [A1; A2; A3; A4; A5; A6; A7; A8; A9; A10].
End helpers.

Section adl.
Context {V R RF : Type} {Qs : list Type} `{!Convert (env V) RF R}.
Context {A1 A2 A3 A4 A5 A6 A7 A8 A9 A10 : Type}.

Definition InvokeArgumentAdl0 `{!each2 (Convert (env V)) [] Qs} := invoke_argument_adl V R []
    (Qs:=Qs) (RF:=RF).
Definition InvokeArgumentAdl1 `{!each2 (Convert (env V)) [A1] Qs} := invoke_argument_adl V R [A1]
    (Qs:=Qs) (RF:=RF).
Definition InvokeArgumentAdl2 `{!each2 (Convert (env V)) [A1; A2] Qs} := invoke_argument_adl V R
    [A1; A2] (Qs:=Qs) (RF:=RF).
Definition InvokeArgumentAdl3 `{!each2 (Convert (env V)) [A1; A2; A3] Qs} := invoke_argument_adl V
    R [A1; A2; A3] (Qs:=Qs) (RF:=RF).
Definition InvokeArgumentAdl4 `{!each2 (Convert (env V)) [A1; A2; A3; A4] Qs} :=
    invoke_argument_adl V R [A1; A2; A3; A4] (Qs:=Qs) (RF:=RF).
Definition InvokeArgumentAdl5 `{!each2 (Convert (env V)) [A1; A2; A3; A4; A5] Qs} :=
    invoke_argument_adl V R [A1; A2; A3; A4; A5] (Qs:=Qs) (RF:=RF).
Definition InvokeArgumentAdl6 `{!each2 (Convert (env V)) [A1; A2; A3; A4; A5; A6] Qs} :=
    invoke_argument_adl V R [A1; A2; A3; A4; A5; A6] (Qs:=Qs) (RF:=RF).
Definition InvokeArgumentAdl7 `{!each2 (Convert (env V)) [A1; A2; A3; A4; A5; A6; A7] Qs} :=
    invoke_argument_adl V R [A1; A2; A3; A4; A5; A6; A7] (Qs:=Qs) (RF:=RF).
Definition InvokeArgumentAdl8 `{!each2 (Convert (env V)) [A1; A2; A3; A4; A5; A6; A7; A8] Qs} :=
    invoke_argument_adl V R [A1; A2; A3; A4; A5; A6; A7; A8] (Qs:=Qs) (RF:=RF).
Definition InvokeArgumentAdl9 `{!each2 (Convert (env V)) [A1; A2; A3; A4; A5; A6; A7; A8; A9] Qs}
    := invoke_argument_adl V R [A1; A2; A3; A4; A5; A6; A7; A8; A9] (Qs:=Qs) (RF:=RF).
Definition InvokeArgumentAdl10 `{!each2 (Convert (env V)) [A1; A2; A3; A4; A5; A6; A7; A8; A9;
    A10] Qs} := invoke_argument_adl V R [A1; A2; A3; A4; A5; A6; A7; A8; A9; A10] (Qs:=Qs)
    (RF:=RF).
End adl.

Section selections.
Context {R : Type} {As : list Type}.

Definition SelectArgs0 := select_args R As [].
Definition SelectArgs1 (k1 : nat) := select_args R As [k1].
Definition SelectArgs2 (k1 k2 : nat) := select_args R As [k1; k2].
Definition SelectArgs3 (k1 k2 k3 : nat) := select_args R As [k1; k2; k3].
Definition SelectArgs4 (k1 k2 k3 k4 : nat) := select_args R As [k1; k2; k3; k4].
Definition SelectArgs5 (k1 k2 k3 k4 k5 : nat) := select_args R As [k1; k2; k3; k4; k5].
Definition SelectArgs6 (k1 k2 k3 k4 k5 k6 : nat) := select_args R As [k1; k2; k3; k4; k5; k6].
Definition SelectArgs7 (k1 k2 k3 k4 k5 k6 k7 : nat) := select_args R As [k1; k2; k3; k4; k5; k6; k7].
Definition SelectArgs8 (k1 k2 k3 k4 k5 k6 k7 k8 : nat) := select_args R As [k1; k2; k3; k4; k5; k6; k7; k8].
Definition SelectArgs9 (k1 k2 k3 k4 k5 k6 k7 k8 k9 : nat) := select_args R As [k1; k2; k3; k4; k5; k6; k7; k8; k9].
Definition SelectArgs10 (k1 k2 k3 k4 k5 k6 k7 k8 k9 k10 : nat) := select_args R As [k1; k2; k3; k4; k5; k6; k7; k8; k9; k10].
End selections.

Section with_args.
Context {A : Type}.

Definition WithArgs1 (k1 : nat) (action : A) : WithArgsAction A [k1] := MkWithArgs action.
Definition WithArgs2 (k1 k2 : nat) (action : A) : WithArgsAction A [k1; k2] := MkWithArgs action.
Definition WithArgs3 (k1 k2 k3 : nat) (action : A) : WithArgsAction A [k1; k2; k3] := MkWithArgs
    action.
Definition WithArgs4 (k1 k2 k3 k4 : nat) (action : A) : WithArgsAction A [k1; k2; k3; k4] :=
    MkWithArgs action.
Definition WithArgs5 (k1 k2 k3 k4 k5 : nat) (action : A) : WithArgsAction A [k1; k2; k3; k4; k5]
    := MkWithArgs action.
Definition WithArgs6 (k1 k2 k3 k4 k5 k6 : nat) (action : A) : WithArgsAction A [k1; k2; k3; k4;
    k5; k6] := MkWithArgs action.
Definition WithArgs7 (k1 k2 k3 k4 k5 k6 k7 : nat) (action : A) : WithArgsAction A [k1; k2; k3; k4;
    k5; k6; k7] := MkWithArgs action.
Definition WithArgs8 (k1 k2 k3 k4 k5 k6 k7 k8 : nat) (action : A) : WithArgsAction A [k1; k2; k3;
    k4; k5; k6; k7; k8] := MkWithArgs action.
Definition WithArgs9 (k1 k2 k3 k4 k5 k6 k7 k8 k9 : nat) (action : A) : WithArgsAction A [k1; k2;
    k3; k4; k5; k6; k7; k8; k9] := MkWithArgs action.
Definition WithArgs10 (k1 k2 k3 k4 k5 k6 k7 k8 k9 k10 : nat) (action : A) : WithArgsAction A [k1;
    k2; k3; k4; k5; k6; k7; k8; k9; k10] := MkWithArgs action.
End with_args.

Definition DoAll2 {Action1 Action2 : Type} (a1 : Action1) (a2 : Action2) :
    DoBothAction Action1 Action2 := MkDoBoth a1 a2.
Definition DoAll3 {Action1 Action2 Action3 : Type} (a1 : Action1) (a2 : Action2) (a3 : Action3) :=
    DoAll2 a1 (DoAll2 a2 a3).
Definition DoAll4 {Action1 Action2 Action3 Action4 : Type} (a1 : Action1) (a2 : Action2) (a3 :
    Action3) (a4 : Action4) := DoAll2 a1 (DoAll3 a2 a3 a4).
Definition DoAll5 {Action1 Action2 Action3 Action4 Action5 : Type} (a1 : Action1) (a2 : Action2)
    (a3 : Action3) (a4 : Action4) (a5 : Action5) := DoAll2 a1 (DoAll4 a2 a3 a4 a5).
Definition DoAll6 {Action1 Action2 Action3 Action4 Action5 Action6 : Type} (a1 : Action1) (a2 :
    Action2) (a3 : Action3) (a4 : Action4) (a5 : Action5) (a6 : Action6) := DoAll2 a1 (DoAll5 a2
    a3 a4 a5 a6).
Definition DoAll7 {Action1 Action2 Action3 Action4 Action5 Action6 Action7 : Type} (a1 : Action1)
    (a2 : Action2) (a3 : Action3) (a4 : Action4) (a5 : Action5) (a6 : Action6) (a7 : Action7) :=
    DoAll2 a1 (DoAll6 a2 a3 a4 a5 a6 a7).
Definition DoAll8 {Action1 Action2 Action3 Action4 Action5 Action6 Action7 Action8 : Type} (a1 :
    Action1) (a2 : Action2) (a3 : Action3) (a4 : Action4) (a5 : Action5) (a6 : Action6) (a7 :
    Action7) (a8 : Action8) := DoAll2 a1 (DoAll7 a2 a3 a4 a5 a6 a7 a8).
Definition DoAll9 {Action1 Action2 Action3 Action4 Action5 Action6 Action7 Action8 Action9 : Type}
    (a1 : Action1) (a2 : Action2) (a3 : Action3) (a4 : Action4) (a5 : Action5) (a6 : Action6) (a7
    : Action7) (a8 : Action8) (a9 : Action9) := DoAll2 a1 (DoAll8 a2 a3 a4 a5 a6 a7 a8 a9).
Definition DoAll10 {Action1 Action2 Action3 Action4 Action5 Action6 Action7 Action8 Action9
    Action10 : Type} (a1 : Action1) (a2 : Action2) (a3 : Action3) (a4 : Action4) (a5 : Action5)
    (a6 : Action6) (a7 : Action7) (a8 : Action8) (a9 : Action9) (a10 : Action10) := DoAll2 a1
    (DoAll9 a2 a3 a4 a5 a6 a7 a8 a9 a10).

Section macros.
Context {N : Type} {p0_type p1_type p2_type p3_type p4_type p5_type p6_type p7_type p8_type p9_type : Type}.

Definition ACTION := declare_action N [].
Definition ACTION_P := declare_action N [p0_type].
Definition ACTION_P2 := declare_action N [p0_type; p1_type].
Definition ACTION_P3 := declare_action N [p0_type; p1_type; p2_type].
Definition ACTION_P4 := declare_action N [p0_type; p1_type; p2_type; p3_type].
Definition ACTION_P5 := declare_action N [p0_type; p1_type; p2_type; p3_type; p4_type].
Definition ACTION_P6 := declare_action N [p0_type; p1_type; p2_type; p3_type; p4_type; p5_type].
Definition ACTION_P7 := declare_action N [p0_type; p1_type; p2_type; p3_type; p4_type; p5_type;
    p6_type].
Definition ACTION_P8 := declare_action N [p0_type; p1_type; p2_type; p3_type; p4_type; p5_type;
    p6_type; p7_type].
Definition ACTION_P9 := declare_action N [p0_type; p1_type; p2_type; p3_type; p4_type; p5_type;
    p6_type; p7_type; p8_type].
Definition ACTION_P10 := declare_action N [p0_type; p1_type; p2_type; p3_type; p4_type; p5_type;
    p6_type; p7_type; p8_type; p9_type].
End macros.

(** InvokeArgument<k>(p0, ...): the k-th argument of the mock function is called. *)
Class ArgAt (k : nat) (As : list Type) (A : Type) : Type := arg_at : tuple As → A.
#[global] Hint Mode ArgAt ! ! - : typeclass_instances.
#[export] Instance arg_at_get k As : ArgAt k As (type_at k As) := tuple_get k.

Inductive InvokeArgument (k : nat) : Set := .
#[export] Instance invoke_argument_body k Ps V F Qs RF
    `{!ArgAt k (Parameters F) (function_object V Qs RF), !each2 (Convert (env V)) Ps Qs,
      !Convert (env V) RF (Result F)} : ActionBody (InvokeArgument k) Ps V F := λ ps args _,
  uncurry_tuple Ps (invoke_argument_adl V (Result F) Ps (arg_at (k:=k) args)) ps.

(** ReturnNew<T>(p0, ...): T's constructor is run and the object is placed in the heap. *)
Class Constructor (V T : Type) (Ps : list Type) : Type := construct : tuple Ps → cmd (env V) T.
Inductive ReturnNew (T : Type) : Set := .
#[export] Instance return_new_body {MA : Malloc} T Ps V As `{!Constructor V T Ps, !Stored V T} :
    ActionBody (ReturnNew T) Ps V (Fn (pointer T) As) := λ ps _ _, t ← construct ps; new_object t.

Section templates.
Context {p0_type p1_type p2_type p3_type p4_type p5_type p6_type p7_type p8_type p9_type : Type}.

Definition InvokeArgument0 (k : nat) := ACTION_TEMPLATE (InvokeArgument k) [].
Definition InvokeArgument1 (k : nat) := ACTION_TEMPLATE (InvokeArgument k) [p0_type].
Definition InvokeArgument2 (k : nat) := ACTION_TEMPLATE (InvokeArgument k) [p0_type; p1_type].
Definition InvokeArgument3 (k : nat) := ACTION_TEMPLATE (InvokeArgument k) [p0_type; p1_type;
    p2_type].
Definition InvokeArgument4 (k : nat) := ACTION_TEMPLATE (InvokeArgument k) [p0_type; p1_type;
    p2_type; p3_type].
Definition InvokeArgument5 (k : nat) := ACTION_TEMPLATE (InvokeArgument k) [p0_type; p1_type;
    p2_type; p3_type; p4_type].
Definition InvokeArgument6 (k : nat) := ACTION_TEMPLATE (InvokeArgument k) [p0_type; p1_type;
    p2_type; p3_type; p4_type; p5_type].
Definition InvokeArgument7 (k : nat) := ACTION_TEMPLATE (InvokeArgument k) [p0_type; p1_type;
    p2_type; p3_type; p4_type; p5_type; p6_type].
Definition InvokeArgument8 (k : nat) := ACTION_TEMPLATE (InvokeArgument k) [p0_type; p1_type;
    p2_type; p3_type; p4_type; p5_type; p6_type; p7_type].
Definition InvokeArgument9 (k : nat) := ACTION_TEMPLATE (InvokeArgument k) [p0_type; p1_type;
    p2_type; p3_type; p4_type; p5_type; p6_type; p7_type; p8_type].
Definition InvokeArgument10 (k : nat) := ACTION_TEMPLATE (InvokeArgument k) [p0_type; p1_type;
    p2_type; p3_type; p4_type; p5_type; p6_type; p7_type; p8_type; p9_type].

Definition ReturnNew0 (T : Type) := ACTION_TEMPLATE (ReturnNew T) [].
Definition ReturnNew1 (T : Type) := ACTION_TEMPLATE (ReturnNew T) [p0_type].
Definition ReturnNew2 (T : Type) := ACTION_TEMPLATE (ReturnNew T) [p0_type; p1_type].
Definition ReturnNew3 (T : Type) := ACTION_TEMPLATE (ReturnNew T) [p0_type; p1_type; p2_type].
Definition ReturnNew4 (T : Type) := ACTION_TEMPLATE (ReturnNew T) [p0_type; p1_type; p2_type;
    p3_type].
Definition ReturnNew5 (T : Type) := ACTION_TEMPLATE (ReturnNew T) [p0_type; p1_type; p2_type;
    p3_type; p4_type].
Definition ReturnNew6 (T : Type) := ACTION_TEMPLATE (ReturnNew T) [p0_type; p1_type; p2_type;
    p3_type; p4_type; p5_type].
Definition ReturnNew7 (T : Type) := ACTION_TEMPLATE (ReturnNew T) [p0_type; p1_type; p2_type;
    p3_type; p4_type; p5_type; p6_type].
Definition ReturnNew8 (T : Type) := ACTION_TEMPLATE (ReturnNew T) [p0_type; p1_type; p2_type;
    p3_type; p4_type; p5_type; p6_type; p7_type].
Definition ReturnNew9 (T : Type) := ACTION_TEMPLATE (ReturnNew T) [p0_type; p1_type; p2_type;
    p3_type; p4_type; p5_type; p6_type; p7_type; p8_type].
Definition ReturnNew10 (T : Type) := ACTION_TEMPLATE (ReturnNew T) [p0_type; p1_type; p2_type;
    p3_type; p4_type; p5_type; p6_type; p7_type; p8_type; p9_type].
End templates.

(** * gmock-more-actions.h *)

(** Invoke(f). *)
Record InvokeAction (V : Type) (Qs : list Type) (RF : Type) : Type :=
  MkInvoke { function_impl_ : function_object V Qs RF }.
Arguments MkInvoke {V Qs RF} _.
Arguments function_impl_ {V Qs RF} _.
#[export] Instance invoke_perform V Qs RF F
    `{!each2 (Convert (env V)) (Parameters F) Qs, !Convert (env V) RF (Result F)} :
    PerformImpl V (InvokeAction V Qs RF) F := λ a args,
  helper_Invoke (invoke_helper V (Result F) (Parameters F)) (function_impl_ a) args.
Definition Invoke {V Qs RF} (function_impl : function_object V Qs RF) :
    PolymorphicAction (InvokeAction V Qs RF) := MakePolymorphicAction (MkInvoke function_impl).

(** Invoke(obj_ptr, &Class::Method). *)
Record InvokeMethodAction (V C : Type) (Qs : list Type) (RF : Type) : Type := MkInvokeMethod {
  method_ptr_ : pointer C → curried Qs (cmd (env V) RF);
  obj_ptr_ : pointer C;
}.
Arguments MkInvokeMethod {V C Qs RF} _ _.
Arguments method_ptr_ {V C Qs RF} _ _.
Arguments obj_ptr_ {V C Qs RF} _.
#[export] Instance invoke_method_perform V C Qs RF F
    `{!Stored V C, !each2 (Convert (env V)) (Parameters F) Qs, !Convert (env V) RF (Result F)} :
    PerformImpl V (InvokeMethodAction V C Qs RF) F := λ a args,
  helper_InvokeMethod (invoke_helper V (Result F) (Parameters F)) (obj_ptr_ a) (method_ptr_ a) args.
Definition InvokeMethod {V C Qs RF} (obj_ptr : pointer C)
    (method_ptr : pointer C → curried Qs (cmd (env V) RF)) :
    PolymorphicAction (InvokeMethodAction V C Qs RF) :=
  MakePolymorphicAction (MkInvokeMethod method_ptr obj_ptr).

(** WithoutArgs(action) and WithArg<k>(action). *)
Definition WithoutArgs {A} (action : A) : WithArgsAction A [] := MkWithArgs action.
Definition WithArg {A} (k : nat) (action : A) : WithArgsAction A [k] := MkWithArgs action.

(** Iterators over a sequence of T, for reading and for writing. *)
Class InputIterator (V I T : Type) : Type := {
  iter_same : I → I → bool;
  iter_next : I → I;
  iter_read : I → cmd (env V) T;
}.
Class OutputIterator (V Out T : Type) : Type := {
  out_next : Out → Out;
  out_write : Out → T → cmd (env V) unit;
}.

(** CopyElements(first, last, output). *)
Fixpoint CopyElements {V I Out T} `{!InputIterator V I T, !OutputIterator V Out T}
    (fuel : nat) (first last : I) (output : Out) : cmd (env V) Out :=
  match fuel with
  | O => unfinished
  | S fuel =>
    if iter_same (T:=T) first last then mret output
    else v ← iter_read (T:=T) first; out_write output v;;
         CopyElements fuel (iter_next (T:=T) first) last (out_next (T:=T) output)
  end.

(** ReturnArg<k>(). *)
Inductive ReturnArg (k : nat) : Set := .
#[export] Instance return_arg_body k V F A `{!ArgAt k (Parameters F) A, !Convert (env V) A (Result F)} :
    ActionBody (ReturnArg k) [] V F := λ _ args _, convert (arg_at (k:=k) args : A).

(** SaveArg<k>(pointer). *)
Inductive SaveArg (k : nat) : Set := .
#[export] Instance save_arg_body k V T A As
    `{!ArgAt k As A, !Convert (env V) A T, !Stored V T} :
    ActionBody (SaveArg k) [pointer T : Type] V (Fn unit As) := λ ps args _,
  v ← convert (arg_at (k:=k) args : A); assign_to (fst ps) v.

(** SaveArgPointee<k>(pointer). *)
Inductive SaveArgPointee (k : nat) : Set := .
#[export] Instance save_arg_pointee_body k V T A As
    `{!ArgAt k As (pointer A), !Stored V A, !Convert (env V) A T, !Stored V T} :
    ActionBody (SaveArgPointee k) [pointer T : Type] V (Fn unit As) := λ ps args _,
  a ← deref (arg_at (k:=k) args : pointer A); v ← convert a; assign_to (fst ps) v.

(** SetArgReferee<k>(value): a reference argument is a [pointer]. *)
Inductive SetArgReferee (k : nat) : Set := .
#[export] Instance set_arg_referee_body k V T A As
    `{!ArgAt k As (pointer A), !Stored V A, !Convert (env V) T A} :
    ActionBody (SetArgReferee k) [T] V (Fn unit As) := λ ps args _,
  v ← convert (fst ps); assign_to (arg_at (k:=k) args : pointer A) v.

(** SetArrayArgument<k>(first, last), with the fuel of its loop. *)
Inductive SetArrayArgument (k fuel : nat) : Set := .
#[export] Instance set_array_argument_body k fuel V I Out T As
    `{!InputIterator V I T, !ArgAt k As Out, !OutputIterator V Out T} :
    ActionBody (SetArrayArgument k fuel) [I; I] V (Fn unit As) := λ ps args _,
  CopyElements (T:=T) fuel (fst ps) (fst (snd ps)) (arg_at (k:=k) args : Out);; mret ().

(** DeleteArg<k>(). *)
Inductive DeleteArg (k : nat) : Set := .
#[export] Instance delete_arg_body k V A As `{!ArgAt k As (pointer A), !Stored V A} :
    ActionBody (DeleteArg k) [] V (Fn unit As) := λ _ args _, delete_object (arg_at (k:=k) args : pointer A).

(** ReturnPointee(pointer). *)
Inductive ReturnPointee : Set := .
#[export] Instance return_pointee_body V T F `{!Stored V T, !Convert (env V) T (Result F)} :
    ActionBody ReturnPointee [pointer T : Type] V F := λ ps _ _, v ← deref (fst ps); convert v.

(** The exception that is thrown with a value of a type. *)
Class Throwable (E : Type) : Type := exception_of : E → nat.

(** Throw(exception), in a function of any type. *)
Inductive Throw : Set := .
#[export] Instance throw_body V F E `{!Throwable E} : ActionBody Throw [E] V F := λ ps _ _,
  throw (exception_of (fst ps)).

(** * Theorems *)

(** Padded arguments. *)
Lemma padded_length n (As : list Type) : length (padded n As) = n.
Proof. revert As. induction n as [|n IH]; [done|]. intros [|A As]; simpl; by rewrite IH. Qed.

Lemma pad_args_field n (As : list Type) k (args : tuple As) :
  (k < n)%nat → (k < length As)%nat → JMeq (tuple_get k (pad_args n As args)) (tuple_get k args).
Proof.
  revert As k args. induction n as [|n IH]; intros As k args Hkn Hk; [lia|].
  destruct As as [|A As]; [simpl in Hk; lia|]. destruct k as [|k]; [done|].
  apply (IH As k (snd args)); simpl in Hk; lia.
Qed.

Lemma pad_args_excess n (As : list Type) k (args : tuple As) :
  (k < n)%nat → (length As ≤ k)%nat → JMeq (tuple_get k (pad_args n As args)) Excessive.
Proof.
  revert As k args. induction n as [|n IH]; intros As k args Hkn Hk; [lia|].
  destruct As as [|A As], k as [|k]; simpl in Hk; try lia; [done| |].
  - apply (IH [] k ()); simpl; lia.
  - apply (IH As k (snd args)); lia.
Qed.

Section calls.
Context {V : Type}.
Implicit Types (F : function_type) (s : env V).

(** A call of a function whose parameters are the types of the arguments. *)
Fixpoint same_types (As : list Type) : each2 (Convert (env V)) As As :=
  match As with [] => each2_nil | A :: As => each2_cons (convert_same (env V) A) (same_types As) end.

Lemma convert_same_types (As : list Type) args s : convert_tuple (same_types As) args s = (Done args, s).
Proof.
  revert args s. induction As as [|A As IH]; intros args s; [by destruct args|].
  destruct args as [a args]. simpl. unfold convert_same. rewrite bind_ret_l.
  by rewrite (bind_done _ _ _ _ _ (IH args s)).
Qed.

Lemma call_with_same {As : list Type} {R} (f : curried As (cmd (env V) R)) args s :
  call_with (C:=same_types As) f args s = uncurry_tuple As f args s.
Proof.
  unfold call_with. rewrite (bind_done _ _ _ _ _ (convert_same_types As args s)).
  apply bind_ret_r.
Qed.

(** WithArgs performs its action on the selected arguments. *)
Lemma with_args_performs (A : Type) F (ks : list nat) `{!ToAction V A (inner_function F ks)} (a : A) g s s' :
  to_action a s = (Done g, s') →
  ∃ h, to_action (F:=F) (MkWithArgs (ks:=ks) a) s = (Done h, s') ∧
    ∀ args t, Perform h args t = Perform (F:=inner_function F ks) g (select_tuple ks args) t.
Proof.
  intros Ha. exists (Some (WithArgsImpl g)). split; [|done].
  rewrite {1}/to_action /with_args_to_action. by rewrite (bind_done _ _ _ _ _ Ha).
Qed.

(** The actions of a DoAll, from the first to the last. *)
Inductive action_list F : Type :=
  | DoLast {X : Type} {C : ToAction V X F} (x : X)
  | DoNext {X : Type} {C : ToAction V X (MakeResultVoid F)} (x : X) (l : action_list F).
Arguments DoLast {F X C} _.
Arguments DoNext {F X C} _ _.

(** The object DoAll(a1, ..., an), of a type that depends on the actions. *)
Record packed F : Type := Pack {
  packed_type : Type;
  packed_conversion : ToAction V packed_type F;
  packed_action : packed_type;
}.
Arguments Pack {F} _ _ _.
Arguments packed_type {F} _.
Arguments packed_conversion {F} _.
Arguments packed_action {F} _.

Fixpoint DoAll {F} (l : action_list F) : packed F :=
  match l with
  | DoLast x => Pack _ _ x
  | DoNext x l => let p := DoAll l in
      let _ := packed_conversion p in Pack _ _ (DoAll2 x (packed_action p))
  end.

(** Each action converted, in order. *)
Fixpoint convert_all {F} (l : action_list F)
    : cmd (env V) (list (Action V (MakeResultVoid F)) * Action V F) :=
  match l with
  | DoLast x => g ← to_action x; mret ([], g)
  | DoNext x l => g ← to_action x; '(gs, last) ← convert_all l; mret (g :: gs, last)
  end.

(** The actions performed one after the other on the same arguments; the result is the
    last one's. *)
Fixpoint perform_all {F} (gs : list (Action V (MakeResultVoid F))) (last : Action V F)
    (args : ArgumentTuple F) : cmd (env V) (Result F) :=
  match gs with
  | [] => Perform last args
  | g :: gs => Perform (F:=MakeResultVoid F) g args;; perform_all gs last args
  end.

Lemma perform_all_app {F} (gs hs : list (Action V (MakeResultVoid F))) (last : Action V F) args s :
  perform_all (gs ++ hs) last args s =
  (foldr (λ g m, Perform (F:=MakeResultVoid F) g args;; m) (mret ()) gs;; perform_all hs last args) s.
Proof.
  revert s. induction gs as [|g gs IH]; intros s; [done|]. simpl. rewrite bind_assoc.
  unfold mbind, cmd_bind. destruct (Perform (F:=MakeResultVoid F) g args s) as [[] s1]; done.
Qed.

Lemma do_all_converts {F} (l : action_list F) gs last s s' :
  convert_all l s = (Done (gs, last), s') →
  ensures (packed_conversion (DoAll l) (packed_action (DoAll l))) s (λ g t, t = s' ∧
    ∀ args t, Perform g args t = perform_all gs last args t).
Proof.
  revert gs last s s'. induction l as [X C x|X C x l IH]; intros gs last s s' H.
  - simpl in *. unfold to_action in H. unfold mbind, cmd_bind in H.
    destruct (C x s) as [[g| | | | |] s1] eqn:Hx; try done. injection H as <- <- <-. by exists g, s1.
  - simpl in H. unfold to_action in H. unfold mbind, cmd_bind in H.
    destruct (C x s) as [[g| | | | |] s1] eqn:Hx; try done.
    destruct (convert_all l s1) as [[[gs' last']| | | | |] s2] eqn:Hl; try done.
    injection H as <- <- <-. destruct (IH _ _ _ _ Hl) as (h & s3 & Hh & -> & Hrun).
    eexists _, _. split.
    { simpl. apply (do_both_conversion _ _ F (ToAction1:=packed_conversion (DoAll l)) x (packed_action (DoAll l))
        g h s s1 s2); done. }
    split; [done|]. intros args t. change (Perform (Some (DoBothImpl g h)) args t =
      (Perform (F:=MakeResultVoid F) g args;; perform_all gs' last' args) t).
    rewrite perform_some. unfold DoBothImpl, mbind, cmd_bind.
    destruct (Perform (F:=MakeResultVoid F) g args t) as [[] t1]; done.
Qed.

(** The ten overloads of DoAll are this object. *)
Lemma DoAll10_list F (X1 X2 X3 X4 X5 X6 X7 X8 X9 X10 : Type)
    `{!ToAction V X1 (MakeResultVoid F), !ToAction V X2 (MakeResultVoid F),
      !ToAction V X3 (MakeResultVoid F), !ToAction V X4 (MakeResultVoid F),
      !ToAction V X5 (MakeResultVoid F), !ToAction V X6 (MakeResultVoid F),
      !ToAction V X7 (MakeResultVoid F), !ToAction V X8 (MakeResultVoid F),
      !ToAction V X9 (MakeResultVoid F), !ToAction V X10 F}
    (a1 : X1) (a2 : X2) (a3 : X3) (a4 : X4) (a5 : X5) (a6 : X6) (a7 : X7) (a8 : X8) (a9 : X9) (a10 : X10) :
  DoAll (DoNext a9 (DoLast a10)) = Pack (F:=F) _ _ (DoAll2 a9 a10) ∧
  DoAll (DoNext a8 (DoNext a9 (DoLast a10))) = Pack (F:=F) _ _ (DoAll3 a8 a9 a10) ∧
  DoAll (DoNext a1 (DoNext a2 (DoNext a3 (DoNext a4 (DoNext a5 (DoNext a6 (DoNext a7
    (DoNext a8 (DoNext a9 (DoLast a10)))))))))) =
    Pack (F:=F) _ _ (DoAll10 a1 a2 a3 a4 a5 a6 a7 a8 a9 a10).
Proof. done. Qed.

(** DoAll(a1, ..., an) converts its actions in order, and performing the result
    performs them in order on the arguments of the call, with the result of the last
    one. A DoDefault() among them is not an action of its own: the call aborts there,
    after the effects of the actions before it. An action that throws, such as
    Throw(exception), ends the call with its exception after the effects of those before
    it, and none of those after it is performed. *)
Theorem do_all_in_order {F} (l : action_list F) gs last s s' :
  convert_all l s = (Done (gs, last), s') →
  ensures (packed_conversion (DoAll l) (packed_action (DoAll l))) s (λ g t, t = s' ∧
    ∀ args, (∀ t, Perform g args t = perform_all gs last args t) ∧
      (∀ before after t u, gs = before ++ None :: after →
         foldr (λ g m, Perform (F:=MakeResultVoid F) g args;; m) (mret ()) before t = (Done (), u) →
         Perform g args t = (Aborted, u)) ∧
      (∀ t u, last = None →
         foldr (λ g m, Perform (F:=MakeResultVoid F) g args;; m) (mret ()) gs t = (Done (), u) →
         Perform g args t = (Aborted, u)) ∧
      (∀ before thrower after t u v e, gs = before ++ thrower :: after →
         foldr (λ g m, Perform (F:=MakeResultVoid F) g args;; m) (mret ()) before t = (Done (), u) →
         Perform (F:=MakeResultVoid F) thrower args u = (Thrown e, v) → Perform g args t = (Thrown e, v))).
Proof.
  intros H. eapply ensures_mono; [by apply do_all_converts|]. intros g t [-> Hg].
  split; [done|]. intros args. split_and!; [by apply Hg| | |].
  - intros before after t u -> Hb. rewrite Hg perform_all_app. by rewrite (bind_done _ _ _ _ _ Hb).
  - intros t u -> Hb. rewrite Hg -(app_nil_r gs) perform_all_app. by rewrite (bind_done _ _ _ _ _ Hb).
  - intros before thrower after t u v e -> Hb He. rewrite Hg perform_all_app (bind_done _ _ _ _ _ Hb).
    cbn [perform_all]. unfold mbind, cmd_bind. by rewrite He.
Qed.

(** An action of an ACTION macro: its statements get the parameters it was made with,
    the arguments of the call, and arg0, arg1, ..., arg9. *)
Lemma macro_performs (N : Type) (Ps : list Type) F `{!ActionBody N Ps V F} (ps : tuple Ps) s :
  to_action (uncurry_tuple Ps (macro_make (ACTION_TEMPLATE N Ps)) ps) s =
    (Done (Some (λ args, gmock_PerformImpl (N:=N) ps args (pad_args 10 (Parameters F) args))), s).
Proof. unfold ACTION_TEMPLATE. rewrite /= curry_uncurry. done. Qed.

(** The copy loop on a range of [n] elements is [n] steps, with any fuel above [n]. *)
Section copy.
Context {I Out T : Type} `{!InputIterator V I T, !OutputIterator V Out T}.
Implicit Types (first last : I) (output : Out).

Fixpoint copy_n (n : nat) first output : cmd (env V) Out :=
  match n with
  | O => mret output
  | S n => v ← iter_read (T:=T) first; out_write output v;;
           copy_n n (iter_next (T:=T) first) (out_next (T:=T) output)
  end.

Inductive range_of : nat → I → I → Prop :=
  | range_end first last : iter_same (T:=T) first last = true → range_of 0 first last
  | range_next n first last :
      iter_same (T:=T) first last = false → range_of n (iter_next (T:=T) first) last →
      range_of (S n) first last.

Lemma CopyElements_range n fuel first last output s :
  range_of n first last → (n < fuel)%nat →
  CopyElements (T:=T) fuel first last output s = copy_n n first output s.
Proof.
  intros Hr. revert fuel output s.
  induction Hr as [first last Hs|n first last Hs _ IH]; intros [|fuel] output s Hf; try lia; simpl; rewrite Hs //.
  unfold mbind, cmd_bind. destruct (iter_read first s) as [[v| | | | |] s1]; try done.
  destruct (out_write output v s1) as [[] s2]; try done. apply IH. lia.
Qed.
End copy.
End calls.
Arguments DoLast {V F X C} _.
Arguments DoNext {V F X C} _ _.
Arguments packed_conversion {V F} _.
Arguments packed_action {V F} _.

(** * A sample *)

(** int f(int n, int* p). *)
Definition sample_function : function_type := Fn Z [Z : Type; pointer Z : Type].
Definition sample_args (n : Z) (l : positive) : ArgumentTuple sample_function :=
  (n, (Pointer (Some l), ())).
Definition sample_env : env sample_cell := Env 0 (Mem {[ 1%positive := IntCell 10; 2%positive := IntCell 20 ]} 0).

(** DoAll(SaveArg<0>(&x), SetArgPointee<1>(7), DoDefault(), Return(3)), with x at 1. *)
Definition sample_save : macro_action (SaveArg 0) [pointer Z : Type] :=
  macro_make (ACTION_P (N:=SaveArg 0)) (Pointer (Some 1%positive)).
Definition sample_do_all : action_list (V:=sample_cell) sample_function :=
  DoNext (F:=sample_function) (C:=macro_to_action _ _ _ _
      (ActionBody0:=save_arg_body 0 sample_cell Z Z [Z : Type; pointer Z : Type])) sample_save
    (DoNext (F:=sample_function) (C:=polymorphic_to_action _ _ _
        (PerformImpl0:=set_arg_perform sample_cell 1 Z Z [Z : Type; pointer Z : Type]
          (PointsTo0:=pointer_points_to Z))) (SetArgPointee 1 7)
      (DoNext (F:=sample_function) DoDefault (DoLast (F:=sample_function)
        (C:=return_to_action sample_cell Z sample_function) (Return 3)))).

Example do_all_in_order_witness :
  ∃ gs last g,
    convert_all sample_do_all sample_env = (Done (gs, last), sample_env) ∧
    packed_conversion (DoAll sample_do_all) (packed_action (DoAll sample_do_all)) sample_env
      = (Done g, sample_env) ∧
    Perform g (sample_args 5 2) sample_env =
      (Aborted, Env 0 (Mem {[ 1%positive := IntCell 5; 2%positive := IntCell 7 ]} 0)).
Proof.
  eexists _, _.
  destruct (do_all_in_order sample_do_all _ _ sample_env sample_env eq_refl) as (g & t & Hg & -> & H).
  exists g. split_and!; [reflexivity|exact Hg|].
  destruct (H (sample_args 5 2)) as (_ & Hd & _).
  apply (Hd [_; _] [] sample_env _ eq_refl). vm_compute. reflexivity.
Defined.

(** DoAll(SaveArg<0>(&x), Throw(9), SetArgPointee<1>(7), Return(3)). *)
#[local] Instance sample_throwable : Throwable Z := Z.to_nat.
Definition sample_throw : macro_action Throw [Z : Type] := macro_make (ACTION_P (N:=Throw)) 9.
Definition throwing_do_all : action_list (V:=sample_cell) sample_function :=
  DoNext (F:=sample_function) (C:=macro_to_action _ _ _ _
      (ActionBody0:=save_arg_body 0 sample_cell Z Z [Z : Type; pointer Z : Type])) sample_save
    (DoNext (F:=sample_function) (C:=macro_to_action _ _ _ _
        (ActionBody0:=throw_body sample_cell (MakeResultVoid sample_function) Z)) sample_throw
      (DoNext (F:=sample_function) (C:=polymorphic_to_action _ _ _
          (PerformImpl0:=set_arg_perform sample_cell 1 Z Z [Z : Type; pointer Z : Type]
            (PointsTo0:=pointer_points_to Z))) (SetArgPointee 1 7)
        (DoLast (F:=sample_function) (C:=return_to_action sample_cell Z sample_function) (Return 3)))).

Example throw_ends_do_all :
  ∃ g, packed_conversion (DoAll throwing_do_all) (packed_action (DoAll throwing_do_all)) sample_env
      = (Done g, sample_env) ∧
    Perform g (sample_args 5 2) sample_env =
      (Thrown 9, Env 0 (Mem {[ 1%positive := IntCell 5; 2%positive := IntCell 20 ]} 0)).
Proof. eexists. split; [reflexivity|]. vm_compute. reflexivity. Qed.
