(* ===== verification/SpecBuilders.v ===== *)
(** Mock functions of the bundled mock library
    (src/gtest/include/gmock/gmock-spec-builders.h): the clauses of ON_CALL and
    EXPECT_CALL statements, and how a call finds its expectation and action.

    The mock functions have one signature with argument types [Ts]. Every
    expectation has a base object in [bases]; those of this signature have their
    typed part in [typed]. An action is a pointer to an ActionInterface object,
    NULL for DoDefault(). The bodies that are not in the headers (sequences,
    prerequisites, cardinality factories, logging) are the fields of
    [gmock_library], of which only the documented behaviour is assumed. The global
    mutex is held throughout: a call is one transaction. *)

From stdpp Require Import pretty.
From S2P Require Import Prelude Machine Matchers.
#[local] Open Scope Z_scope.

(** * Cardinalities (gmock-cardinalities.h) *)

(** CardinalityInterface. *)
Record Cardinality : Type := MkCardinality {
  IsSatisfiedByCallCount : Z → bool;
  IsSaturatedByCallCount : Z → bool;
}.

Definition IsOverSaturatedByCallCount (c : Cardinality) (call_count : Z) : bool :=
  IsSaturatedByCallCount c call_count && negb (IsSatisfiedByCallCount c call_count).

(** static_cast<int>(size). *)
Definition int_of_size (n : nat) : Z :=
  (Z.of_nat n + 2147483648) `mod` 4294967296 - 2147483648.

(** * Clauses *)

(** ExpectationBase::Clause. *)
Inductive Clause : Set :=
  | kNone | kWith | kTimes | kInSequence | kAfter | kWillOnce | kWillRepeatedly
  | kRetiresOnSaturation.

#[export] Instance Clause_eq_dec : EqDecision Clause.
Proof. solve_decision. Defined.

Definition clause_value (c : Clause) : Z :=
  match c with
  | kNone => 0 | kWith => 1 | kTimes => 2 | kInSequence => 3 | kAfter => 4
  | kWillOnce => 5 | kWillRepeatedly => 6 | kRetiresOnSaturation => 7
  end.

Definition clause_lt (c d : Clause) : bool := bool_decide (clause_value c < clause_value d).
Definition clause_le (c d : Clause) : bool := bool_decide (clause_value c ≤ clause_value d).

(** UntypedOnCallSpecBase::Clause. *)
Inductive OnCallClause : Set := oc_kNone | oc_kWith | oc_kWillByDefault.

#[export] Instance OnCallClause_eq_dec : EqDecision OnCallClause.
Proof. solve_decision. Defined.

Definition oc_clause_value (c : OnCallClause) : Z :=
  match c with oc_kNone => 0 | oc_kWith => 1 | oc_kWillByDefault => 2 end.
Definition oc_clause_lt (c d : OnCallClause) : bool :=
  bool_decide (oc_clause_value c < oc_clause_value d).

(** * Data *)

Definition loc : Type := Z.

Section data.
Context (Ts : list Type) (A Seq W : Type).

(** Action<F>: impl_, NULL for DoDefault(). *)
Definition Action : Type := option A.

Record OnCallSpec : Type := MkOnCallSpec {
  oc_file : string;
  oc_line : Z;
  oc_last_clause : OnCallClause;
  oc_matchers : matcher_tuple Ts;
  oc_extra_matcher : MatcherInterface (tuple Ts);
  oc_action : Action;
}.

Record ExpectationBase : Type := MkExpectationBase {
  file_ : string;
  line_ : Z;
  source_text_ : string;
  cardinality_specified_ : bool;
  cardinality_ : Cardinality;
  immediate_prerequisites_ : gset loc;
  call_count_ : Z;
  retired_ : bool;
  untyped_actions_ : list Action;
  extra_matcher_specified_ : bool;
  repeated_action_specified_ : bool;
  retires_on_saturation_ : bool;
  last_clause_ : Clause;
  action_count_checked_ : bool;
}.

(** The members TypedExpectation adds. *)
Record TypedPart : Type := MkTypedPart {
  matchers_ : matcher_tuple Ts;
  extra_matcher_ : MatcherInterface (tuple Ts);
  repeated_action_ : Action;
}.

(** A mock function, all expectations, the non-fatal failures reported so far, and
    the state of the rest of the program. *)
Record state : Type := State {
  untyped_on_call_specs_ : list OnCallSpec;
  untyped_expectations_ : list loc;
  bases : gmap loc ExpectationBase;
  typed : gmap loc TypedPart;
  implicit_sequence : option Seq;
  failure_reports : list string;
  rest : W;
}.
End data.
Arguments MkOnCallSpec {Ts A} _ _ _ _ _ _.
Arguments oc_file {Ts A} _.
Arguments oc_line {Ts A} _.
Arguments oc_last_clause {Ts A} _.
Arguments oc_matchers {Ts A} _.
Arguments oc_extra_matcher {Ts A} _.
Arguments oc_action {Ts A} _.
Arguments MkExpectationBase {A} _ _ _ _ _ _ _ _ _ _ _ _ _ _.
Arguments file_ {A} _.
Arguments line_ {A} _.
Arguments source_text_ {A} _.
Arguments cardinality_specified_ {A} _.
Arguments cardinality_ {A} _.
Arguments immediate_prerequisites_ {A} _.
Arguments call_count_ {A} _.
Arguments retired_ {A} _.
Arguments untyped_actions_ {A} _.
Arguments extra_matcher_specified_ {A} _.
Arguments repeated_action_specified_ {A} _.
Arguments retires_on_saturation_ {A} _.
Arguments last_clause_ {A} _.
Arguments action_count_checked_ {A} _.
Arguments MkTypedPart {Ts A} _ _ _.
Arguments matchers_ {Ts A} _.
Arguments extra_matcher_ {Ts A} _.
Arguments repeated_action_ {Ts A} _.
Arguments State {Ts A Seq W} _ _ _ _ _ _ _.
Arguments untyped_on_call_specs_ {Ts A Seq W} _.
Arguments untyped_expectations_ {Ts A Seq W} _.
Arguments bases {Ts A Seq W} _.
Arguments typed {Ts A Seq W} _.
Arguments implicit_sequence {Ts A Seq W} _.
Arguments failure_reports {Ts A Seq W} _.
Arguments rest {Ts A Seq W} _.

Section setters.
Context {A : Type}.
Implicit Types b : ExpectationBase A.

Definition set_last_clause (c : Clause) b : ExpectationBase A :=
  MkExpectationBase (file_ b) (line_ b) (source_text_ b) (cardinality_specified_ b)
    (cardinality_ b) (immediate_prerequisites_ b) (call_count_ b) (retired_ b)
    (untyped_actions_ b) (extra_matcher_specified_ b) (repeated_action_specified_ b)
    (retires_on_saturation_ b) c (action_count_checked_ b).

Definition set_extra_matcher_specified b : ExpectationBase A :=
  MkExpectationBase (file_ b) (line_ b) (source_text_ b) (cardinality_specified_ b)
    (cardinality_ b) (immediate_prerequisites_ b) (call_count_ b) (retired_ b)
    (untyped_actions_ b) true (repeated_action_specified_ b)
    (retires_on_saturation_ b) (last_clause_ b) (action_count_checked_ b).

Definition add_prerequisites (s : gset loc) b : ExpectationBase A :=
  MkExpectationBase (file_ b) (line_ b) (source_text_ b) (cardinality_specified_ b)
    (cardinality_ b) (immediate_prerequisites_ b ∪ s) (call_count_ b) (retired_ b)
    (untyped_actions_ b) (extra_matcher_specified_ b) (repeated_action_specified_ b)
    (retires_on_saturation_ b) (last_clause_ b) (action_count_checked_ b).

Definition push_action (a : Action A) b : ExpectationBase A :=
  MkExpectationBase (file_ b) (line_ b) (source_text_ b) (cardinality_specified_ b)
    (cardinality_ b) (immediate_prerequisites_ b) (call_count_ b) (retired_ b)
    (untyped_actions_ b ++ [a]) (extra_matcher_specified_ b) (repeated_action_specified_ b)
    (retires_on_saturation_ b) (last_clause_ b) (action_count_checked_ b).

Definition set_cardinality (c : Cardinality) b : ExpectationBase A :=
  MkExpectationBase (file_ b) (line_ b) (source_text_ b) (cardinality_specified_ b)
    c (immediate_prerequisites_ b) (call_count_ b) (retired_ b)
    (untyped_actions_ b) (extra_matcher_specified_ b) (repeated_action_specified_ b)
    (retires_on_saturation_ b) (last_clause_ b) (action_count_checked_ b).

Definition set_repeated_action_specified b : ExpectationBase A :=
  MkExpectationBase (file_ b) (line_ b) (source_text_ b) (cardinality_specified_ b)
    (cardinality_ b) (immediate_prerequisites_ b) (call_count_ b) (retired_ b)
    (untyped_actions_ b) (extra_matcher_specified_ b) true
    (retires_on_saturation_ b) (last_clause_ b) (action_count_checked_ b).

Definition set_retires_on_saturation b : ExpectationBase A :=
  MkExpectationBase (file_ b) (line_ b) (source_text_ b) (cardinality_specified_ b)
    (cardinality_ b) (immediate_prerequisites_ b) (call_count_ b) (retired_ b)
    (untyped_actions_ b) (extra_matcher_specified_ b) (repeated_action_specified_ b)
    true (last_clause_ b) (action_count_checked_ b).

Definition set_call_count (n : Z) b : ExpectationBase A :=
  MkExpectationBase (file_ b) (line_ b) (source_text_ b) (cardinality_specified_ b)
    (cardinality_ b) (immediate_prerequisites_ b) n (retired_ b)
    (untyped_actions_ b) (extra_matcher_specified_ b) (repeated_action_specified_ b)
    (retires_on_saturation_ b) (last_clause_ b) (action_count_checked_ b).

(** Retire(). *)
Definition set_retired (r : bool) b : ExpectationBase A :=
  MkExpectationBase (file_ b) (line_ b) (source_text_ b) (cardinality_specified_ b)
    (cardinality_ b) (immediate_prerequisites_ b) (call_count_ b) r
    (untyped_actions_ b) (extra_matcher_specified_ b) (repeated_action_specified_ b)
    (retires_on_saturation_ b) (last_clause_ b) (action_count_checked_ b).

Definition set_checked (c : bool) b : ExpectationBase A :=
  MkExpectationBase (file_ b) (line_ b) (source_text_ b) (cardinality_specified_ b)
    (cardinality_ b) (immediate_prerequisites_ b) (call_count_ b) (retired_ b)
    (untyped_actions_ b) (extra_matcher_specified_ b) (repeated_action_specified_ b)
    (retires_on_saturation_ b) (last_clause_ b) c.

Definition IsSatisfied b : bool := IsSatisfiedByCallCount (cardinality_ b) (call_count_ b).
Definition IsSaturated b : bool := IsSaturatedByCallCount (cardinality_ b) (call_count_ b).
Definition IsOverSaturated b : bool := IsOverSaturatedByCallCount (cardinality_ b) (call_count_ b).
End setters.

(** * What the headers only declare *)

Record gmock_library (Ts : list Type) (A Seq W : Type) : Type := MkLibrary {
  Exactly : Z → Cardinality;
  AtLeast : Z → Cardinality;
  (** the constructor of ExpectationBase *)
  new_base : string → Z → string → ExpectationBase A;
  UntypedTimes : Cardinality → loc → state Ts A Seq W → state Ts A Seq W;
  (** Sequence::AddExpectation *)
  AddExpectation : Seq → loc → state Ts A Seq W → state Ts A Seq W;
  RetireAllPreRequisites : loc → state Ts A Seq W → state Ts A Seq W;
  AllPrerequisitesAreSatisfied : loc → state Ts A Seq W → bool;
  FindUnsatisfiedPrerequisites : loc → state Ts A Seq W → list loc;
  CheckActionCountIfNotDone : loc → state Ts A Seq W → state Ts A Seq W;
  DescribeCallCountTo : loc → state Ts A Seq W → string;
  FormatFileLocation : string → Z → string;
  (** Log(kWarning, message, 1) *)
  Log : string → W → W;
  (** Mock::RegisterUseByOnCallOrExpectCall of the mock object *)
  RegisterUse : string → Z → W → W;
}.
Arguments Exactly {Ts A Seq W} _ _.
Arguments AtLeast {Ts A Seq W} _ _.
Arguments new_base {Ts A Seq W} _ _ _ _.
Arguments UntypedTimes {Ts A Seq W} _ _ _ _.
Arguments AddExpectation {Ts A Seq W} _ _ _ _.
Arguments RetireAllPreRequisites {Ts A Seq W} _ _ _.
Arguments AllPrerequisitesAreSatisfied {Ts A Seq W} _ _ _.
Arguments FindUnsatisfiedPrerequisites {Ts A Seq W} _ _ _.
Arguments CheckActionCountIfNotDone {Ts A Seq W} _ _ _.
Arguments DescribeCallCountTo {Ts A Seq W} _ _ _.
Arguments FormatFileLocation {Ts A Seq W} _ _ _.
Arguments Log {Ts A Seq W} _ _ _.
Arguments RegisterUse {Ts A Seq W} _ _ _ _.

Section mocker.
Context {Ts : list Type} {A Seq W : Type}.
Context (lib : gmock_library Ts A Seq W).
Notation st := (state Ts A Seq W).
Implicit Types (s : st) (l : loc) (args : tuple Ts) (spec : OnCallSpec Ts A).

Definition set_specs (v : list (OnCallSpec Ts A)) s : st :=
  State v (untyped_expectations_ s) (bases s) (typed s) (implicit_sequence s) (failure_reports s) (rest s).
Definition set_expectations (v : list loc) s : st :=
  State (untyped_on_call_specs_ s) v (bases s) (typed s) (implicit_sequence s) (failure_reports s) (rest s).
Definition set_bases (v : gmap loc (ExpectationBase A)) s : st :=
  State (untyped_on_call_specs_ s) (untyped_expectations_ s) v (typed s) (implicit_sequence s)
    (failure_reports s) (rest s).
Definition set_typed (v : gmap loc (TypedPart Ts A)) s : st :=
  State (untyped_on_call_specs_ s) (untyped_expectations_ s) (bases s) v (implicit_sequence s)
    (failure_reports s) (rest s).
Definition report (message : string) s : st :=
  State (untyped_on_call_specs_ s) (untyped_expectations_ s) (bases s) (typed s) (implicit_sequence s)
    (failure_reports s ++ [message]) (rest s).
Definition set_rest (v : W) s : st :=
  State (untyped_on_call_specs_ s) (untyped_expectations_ s) (bases s) (typed s) (implicit_sequence s)
    (failure_reports s) v.

(** Expect(property, file, line, message): a failure is recorded, and the program
    goes on. Assert aborts. *)
Definition ExpectSpecProperty (property : bool) (failure_message : string) : cmd st unit :=
  if property then mret () else modify (report failure_message).
Definition AssertSpecProperty (property : bool) : cmd st unit := assert_ property.

(** Access through a pointer to an expectation. *)
Definition base_of l : cmd st (ExpectationBase A) := s ← get; or_ub Dangling (bases s !! l).
Definition typed_of l : cmd st (TypedPart Ts A) := s ← get; or_ub Dangling (typed s !! l).
Definition update_base l (f : ExpectationBase A → ExpectationBase A) : cmd st unit :=
  b ← base_of l; modify (λ s, set_bases (<[l := f b]> (bases s)) s).

(** * ON_CALL *)

(** TupleMatches does not print. *)
Fixpoint no_printers (Ts : list Type) : printers Ts :=
  match Ts with [] => () | T :: Ts => ((λ _, EmptyString), no_printers Ts) end.

(** OnCallSpec::Matches. *)
Definition oc_Matches spec args : bool :=
  TupleMatches (no_printers Ts) (oc_matchers spec) args && Matches (oc_extra_matcher spec) args.

Definition new_OnCallSpec (file : string) (line : Z) (m : matcher_tuple Ts) : OnCallSpec Ts A :=
  MkOnCallSpec file line oc_kNone m Matchers.A None.

(** FunctionMockerBase::AddNewOnCallSpec. *)
Definition AddNewOnCallSpec (file : string) (line : Z) (m : matcher_tuple Ts) : cmd st unit :=
  modify (λ s, set_rest (RegisterUse lib file line (rest s)) s);;
  modify (λ s, set_specs (untyped_on_call_specs_ s ++ [new_OnCallSpec file line m]) s).

(** The spec at a position of untyped_on_call_specs_. *)
Definition spec_of (i : nat) : cmd st (OnCallSpec Ts A) :=
  s ← get; or_ub Dangling (untyped_on_call_specs_ s !! i).
Definition update_spec (i : nat) (f : OnCallSpec Ts A → OnCallSpec Ts A) : cmd st unit :=
  o ← spec_of i; modify (λ s, set_specs (<[i := f o]> (untyped_on_call_specs_ s)) s).

(** OnCallSpec::With. *)
Definition oc_With (i : nat) (m : MatcherInterface (tuple Ts)) : cmd st unit :=
  o ← spec_of i;
  ExpectSpecProperty (oc_clause_lt (oc_last_clause o) oc_kWith)
    ".With() cannot appear more than once in an ON_CALL().";;
  update_spec i (λ o, MkOnCallSpec (oc_file o) (oc_line o) oc_kWith (oc_matchers o) m (oc_action o)).

Definition WillByDefault (i : nat) (action : Action A) : cmd st unit :=
  o ← spec_of i;
  ExpectSpecProperty (oc_clause_lt (oc_last_clause o) oc_kWillByDefault)
    ".WillByDefault() must appear exactly once in an ON_CALL().";;
  update_spec i (λ o, MkOnCallSpec (oc_file o) (oc_line o) oc_kWillByDefault (oc_matchers o)
                        (oc_extra_matcher o) (oc_action o));;
  ExpectSpecProperty (bool_decide (action ≠ None)) "DoDefault() cannot be used in ON_CALL().";;
  update_spec i (λ o, MkOnCallSpec (oc_file o) (oc_line o) (oc_last_clause o) (oc_matchers o)
                        (oc_extra_matcher o) action).

Definition GetAction spec : cmd st (Action A) :=
  AssertSpecProperty (bool_decide (oc_last_clause spec = oc_kWillByDefault));; mret (oc_action spec).

(** FunctionMockerBase::FindOnCallSpec: from the last spec to the first. *)
Definition FindOnCallSpec args s : option (OnCallSpec Ts A) :=
  List.find (λ spec, oc_Matches spec args) (reverse (untyped_on_call_specs_ s)).

Definition ClearDefaultActionsLocked : cmd st unit := modify (set_specs []).

(** The destructor of an expectation, whose actions go with it. *)
Definition delete_TypedExpectation l : cmd st unit :=
  modify (CheckActionCountIfNotDone lib l);;
  _ ← base_of l; _ ← typed_of l;
  modify (λ s, set_typed (delete l (typed s)) (set_bases (delete l (bases s)) s)).

Section default_action.
Context {Result : Type} (Perform : A → tuple Ts → cmd W Result).

(** DefaultValue<Result>::producer_, when it is not NULL. *)
Inductive ValueProducer : Type :=
  | FixedValueProducer (value : Result)
  | FactoryValueProducer (factory : cmd W Result).

Definition Produce (p : ValueProducer) : cmd W Result :=
  match p with FixedValueProducer value => mret value | FactoryValueProducer factory => factory end.

(** DefaultValue<Result>: the user's producer, and the built-in value of the
    type, if it has one. *)
Record DefaultValue : Type := MkDefaultValue {
  producer_ : option ValueProducer;
  BuiltInDefaultValue : option Result;
}.

Definition Set_ (x : Result) (d : DefaultValue) : DefaultValue :=
  MkDefaultValue (Some (FixedValueProducer x)) (BuiltInDefaultValue d).
Definition SetFactory (factory : cmd W Result) (d : DefaultValue) : DefaultValue :=
  MkDefaultValue (Some (FactoryValueProducer factory)) (BuiltInDefaultValue d).
Definition Clear (d : DefaultValue) : DefaultValue := MkDefaultValue None (BuiltInDefaultValue d).
Definition IsSet (d : DefaultValue) : bool := bool_decide (is_Some (producer_ d)).
Definition Exists (d : DefaultValue) : bool := IsSet d || bool_decide (is_Some (BuiltInDefaultValue d)).

Definition Get (d : DefaultValue) : cmd W Result :=
  match producer_ d with
  | Some p => Produce p
  | None => match BuiltInDefaultValue d with Some v => mret v | None => abort end
  end.

(** Action<F>::Perform. *)
Definition action_Perform (action : Action A) args : cmd st Result :=
  match action with
  | None => abort
  | Some impl => zoom rest set_rest (Perform impl args)
  end.

(** FunctionMockerBase::PerformDefaultAction; the left case is the message of the
    std::runtime_error it throws. *)
Definition PerformDefaultAction (d : DefaultValue) args (call_description : string)
    : cmd st (string + Result) :=
  s ← get;
  match FindOnCallSpec args s with
  | Some spec => a ← GetAction spec; r ← action_Perform a args; mret (inr r)
  | None =>
    let message := call_description +:+ nl +:+
      "    The mock function has no default action set, and its return type has no default value set." in
    if negb (Exists d) then mret (inl message)
    else r ← zoom rest set_rest (Get d); mret (inr r)
  end.
End default_action.

(** * EXPECT_CALL *)

(** FunctionMockerBase::AddNewExpectation; [l] is the address of the new object. *)
Definition AddNewExpectation l (file : string) (line : Z) (source_text : string)
    (m : matcher_tuple Ts) : cmd st unit :=
  modify (λ s, set_rest (RegisterUse lib file line (rest s)) s);;
  modify (λ s, set_bases (<[l := new_base lib file line source_text]> (bases s)) s);;
  modify (λ s, set_typed (<[l := MkTypedPart m Matchers.A None]> (typed s)) s);;
  modify (λ s, set_expectations (untyped_expectations_ s ++ [l]) s);;
  s ← get;
  match implicit_sequence s with
  | None => mret ()
  | Some q => modify (AddExpectation lib q l)
  end.

(** TypedExpectation::With. *)
Definition With l (m : MatcherInterface (tuple Ts)) : cmd st unit :=
  b ← base_of l;
  (if bool_decide (last_clause_ b = kWith)
   then ExpectSpecProperty false ".With() cannot appear more than once in an EXPECT_CALL()."
   else ExpectSpecProperty (clause_lt (last_clause_ b) kWith)
          ".With() must be the first clause in an EXPECT_CALL().");;
  update_base l (set_last_clause kWith);;
  t ← typed_of l;
  modify (λ s, set_typed (<[l := MkTypedPart (matchers_ t) m (repeated_action_ t)]> (typed s)) s);;
  update_base l set_extra_matcher_specified.

Definition Times l (c : Cardinality) : cmd st unit := modify (UntypedTimes lib c l).
Definition Times_int l (n : Z) : cmd st unit := Times l (Exactly lib n).

Definition InSequence l (q : Seq) : cmd st unit :=
  b ← base_of l;
  ExpectSpecProperty (clause_le (last_clause_ b) kInSequence)
    ".InSequence() cannot appear after .After(), .WillOnce(), .WillRepeatedly(), or .RetiresOnSaturation().";;
  update_base l (set_last_clause kInSequence);;
  modify (AddExpectation lib q l).

Definition After l (es : gset loc) : cmd st unit :=
  b ← base_of l;
  ExpectSpecProperty (clause_le (last_clause_ b) kAfter)
    ".After() cannot appear after .WillOnce(), .WillRepeatedly(), or .RetiresOnSaturation().";;
  update_base l (set_last_clause kAfter);;
  update_base l (add_prerequisites es).

Definition WillOnce l (action : Action A) : cmd st unit :=
  b ← base_of l;
  ExpectSpecProperty (clause_le (last_clause_ b) kWillOnce)
    ".WillOnce() cannot appear after .WillRepeatedly() or .RetiresOnSaturation().";;
  update_base l (set_last_clause kWillOnce);;
  update_base l (push_action action);;
  b ← base_of l;
  when (negb (cardinality_specified_ b))
    (update_base l (set_cardinality (Exactly lib (int_of_size (length (untyped_actions_ b)))))).

Definition WillRepeatedly l (action : Action A) : cmd st unit :=
  b ← base_of l;
  (if bool_decide (last_clause_ b = kWillRepeatedly)
   then ExpectSpecProperty false ".WillRepeatedly() cannot appear more than once in an EXPECT_CALL()."
   else ExpectSpecProperty (clause_lt (last_clause_ b) kWillRepeatedly)
          ".WillRepeatedly() cannot appear after .RetiresOnSaturation().");;
  update_base l (set_last_clause kWillRepeatedly);;
  update_base l set_repeated_action_specified;;
  t ← typed_of l;
  modify (λ s, set_typed (<[l := MkTypedPart (matchers_ t) (extra_matcher_ t) action]> (typed s)) s);;
  b ← base_of l;
  when (negb (cardinality_specified_ b))
    (update_base l (set_cardinality (AtLeast lib (int_of_size (length (untyped_actions_ b))))));;
  modify (CheckActionCountIfNotDone lib l).

Definition RetiresOnSaturation l : cmd st unit :=
  b ← base_of l;
  ExpectSpecProperty (clause_lt (last_clause_ b) kRetiresOnSaturation)
    ".RetiresOnSaturation() cannot appear more than once.";;
  update_base l (set_last_clause kRetiresOnSaturation);;
  update_base l set_retires_on_saturation;;
  modify (CheckActionCountIfNotDone lib l).

(** * Calls *)

Context (UniversalPrint : printers Ts) (PrintArgs : tuple Ts → string) (returns_void : bool).

(** DescribeLocationTo(os). *)
Definition DescribeLocation (b : ExpectationBase A) : string :=
  FormatFileLocation lib (file_ b) (line_ b) +:+ " ".

(** DescribeDefaultActionTo(args, os). *)
Definition DescribeDefaultAction args s : string :=
  match FindOnCallSpec args s with
  | None => if returns_void then "returning directly." +:+ nl else "returning default value." +:+ nl
  | Some spec => "taking default action specified at:" +:+ nl +:+
                 FormatFileLocation lib (oc_file spec) (oc_line spec) +:+ nl
  end.

(** TypedExpectation::Matches. *)
Definition exp_Matches (t : TypedPart Ts A) args : bool :=
  TupleMatches UniversalPrint (matchers_ t) args && Matches (extra_matcher_ t) args.

Definition ShouldHandleArguments l args : cmd st bool :=
  modify (CheckActionCountIfNotDone lib l);;
  b ← base_of l;
  t ← typed_of l;
  s ← get;
  mret (negb (retired_ b) && AllPrerequisitesAreSatisfied lib l s && exp_Matches t args).

(** The loop of FindMatchingExpectationLocked. *)
Fixpoint find_matching (its : list loc) args : cmd st (option loc) :=
  match its with
  | [] => mret None
  | it :: its =>
    handles ← ShouldHandleArguments it args;
    if handles : bool then mret (Some it) else find_matching its args
  end.

Definition FindMatchingExpectationLocked args : cmd st (option loc) :=
  s ← get; find_matching (reverse (untyped_expectations_ s)) args.

(** The warning of GetCurrentAction. *)
Definition ran_out (b : ExpectationBase A) (action_count : Z) args s : string :=
  DescribeLocation b +:+ "Actions ran out in " +:+ source_text_ b +:+ "..." +:+ nl +:+
  "Called " +:+ pretty (call_count_ b) +:+ " times, but only " +:+ pretty action_count +:+
  " WillOnce()" +:+ (if bool_decide (action_count = 1) then " is" else "s are") +:+
  " specified - " +:+ DescribeDefaultAction args s.

Definition GetCurrentAction l args : cmd st (Action A) :=
  b ← base_of l;
  t ← typed_of l;
  let count := call_count_ b in
  assert_ (bool_decide (1 ≤ count));;
  let action_count := int_of_size (length (untyped_actions_ b)) in
  when (bool_decide (0 < action_count) && negb (repeated_action_specified_ b) &&
        bool_decide (action_count < count))
    (modify (λ s, set_rest (Log lib (ran_out b action_count args s) (rest s)) s));;
  if bool_decide (count ≤ action_count)
  then or_ub OutOfBounds (rd (untyped_actions_ b) (count - 1))
  else mret (repeated_action_ t).

Definition IncrementCallCount l : cmd st unit :=
  b ← base_of l;
  if int_ok (call_count_ b + 1) then update_base l (set_call_count (call_count_ b + 1))
  else undefined SignedOverflow.

(** GetActionForArguments: the action, NULL for the default action, and the texts
    it writes to what and why. *)
Definition GetActionForArguments l args : cmd st (option (Action A) * string * string) :=
  b ← base_of l;
  if IsSaturated b then
    IncrementCallCount l;;
    s ← get;
    mret (None, "Mock function called more times than expected - " +:+ DescribeDefaultAction args s,
          DescribeCallCountTo lib l s)
  else
    IncrementCallCount l;;
    modify (RetireAllPreRequisites lib l);;
    b ← base_of l;
    when (retires_on_saturation_ b && IsSaturated b) (update_base l (set_retired true));;
    a ← GetCurrentAction l args;
    mret (Some a, "Mock function call matches " +:+ source_text_ b +:+ "..." +:+ nl, EmptyString).

(** What ExplainMatchResultTo writes about the prerequisites, from number [i]. *)
Fixpoint describe_prerequisites (i : nat) (es : list loc) : cmd st string :=
  match es with
  | [] => mret EmptyString
  | e :: es =>
    b ← base_of e;
    t ← describe_prerequisites (S i) es;
    mret (DescribeLocation b +:+ "pre-requisite #" +:+ pretty i +:+ nl +:+ t)
  end.

Definition exp_ExplainMatchResult l args : cmd st string :=
  b ← base_of l;
  t ← typed_of l;
  s ← get;
  if retired_ b then
    mret ("         Expected: the expectation is active" +:+ nl +:+
          "           Actual: it is retired" +:+ nl)
  else if negb (exp_Matches t args) then
    let os := if negb (TupleMatches UniversalPrint (matchers_ t) args)
              then ExplainMatchFailureTupleTo UniversalPrint (matchers_ t) args EmptyString
              else EmptyString in
    let '(match_, explanation) := match_string (extra_matcher_ t) args in
    if negb match_ then
      mret (str (PrintIfNotEmpty explanation
              (Some (os +:+ "    Expected args: " +:+ DescribeTo (extra_matcher_ t) +:+ nl +:+
                     "           Actual: don't match"))) +:+ nl)
    else mret os
  else if negb (AllPrerequisitesAreSatisfied lib l s) then
    ps ← describe_prerequisites 0 (FindUnsatisfiedPrerequisites lib l s);
    mret ("         Expected: all pre-requisites are satisfied" +:+ nl +:+
          "           Actual: the following immediate pre-requisites are not satisfied:" +:+ nl +:+
          ps +:+ "                   (end of pre-requisites)" +:+ nl)
  else mret ("The call matches the expectation." +:+ nl).

(** The loop of PrintTriedExpectationsLocked, from index [i] of [count]. *)
Fixpoint print_tried (count i : nat) (its : list loc) args : cmd st string :=
  match its with
  | [] => mret EmptyString
  | l :: its =>
    b ← base_of l;
    e ← exp_ExplainMatchResult l args;
    s ← get;
    t ← print_tried count (S i) its args;
    mret (nl +:+ DescribeLocation b +:+
          (if bool_decide (1 < count)%nat then "tried expectation #" +:+ pretty i +:+ ": " else EmptyString) +:+
          source_text_ b +:+ "..." +:+ nl +:+ e +:+ DescribeCallCountTo lib l s +:+ t)
  end.

Definition PrintTriedExpectationsLocked args : cmd st string :=
  s ← get;
  let count := length (untyped_expectations_ s) in
  t ← print_tried count 0 (untyped_expectations_ s) args;
  mret ("Google Mock tried the following " +:+ pretty count +:+ " " +:+
        (if bool_decide (count = 1%nat) then "expectation, but it didn't match"
         else "expectations, but none matched") +:+ ":" +:+ nl +:+ t).

Definition FormatUnexpectedCallMessageLocked args : cmd st (string * string) :=
  s ← get;
  why ← PrintTriedExpectationsLocked args;
  mret (nl +:+ "Unexpected mock function call - " +:+ DescribeDefaultAction args s, why).

(** UntypedFindMatchingExpectation: the expectation, *untyped_action and
    *is_excessive when there is one, and the texts written to what and why. *)
Definition UntypedFindMatchingExpectation args
    : cmd st (option (loc * option A * bool) * string * string) :=
  exp ← FindMatchingExpectationLocked args;
  match exp with
  | None => '(what, why) ← FormatUnexpectedCallMessageLocked args; mret (None, what, why)
  | Some l =>
    b ← base_of l;
    let is_excessive := IsSaturated b in
    '(action, what, why) ← GetActionForArguments l args;
    (* "do default" is normalized to NULL *)
    let action := match action with Some (Some impl) => Some impl | _ => None end in
    mret (Some (l, action, is_excessive), what, why)
  end.

(** UntypedDescribeUninterestingCall. *)
Definition UntypedDescribeUninterestingCall (name : string) args s : string :=
  "Uninteresting mock function call - " +:+ DescribeDefaultAction args s +:+
  "    Function call: " +:+ name +:+ PrintArgs args.
End mocker.

(** * Searches from the end *)

Lemma find_last {B} (p : B → bool) (older : list B) (l : B) (newer : list B) :
  p l = true → Forall (λ l, p l = false) newer →
  List.find p (reverse (older ++ l :: newer)) = Some l.
Proof.
  intros Hl Hnew. rewrite reverse_app reverse_cons -assoc.
  assert (Forall (λ l, p l = false) (reverse newer)) as Hrev by (by apply Forall_reverse).
  induction (reverse newer) as [|x xs IH]; cbn; [by rewrite Hl|].
  apply Forall_cons in Hrev as [-> Hxs]. by apply IH.
Qed.

Lemma find_all_false {B} (p : B → bool) xs :
  Forall (λ x, p x = false) xs → List.find p xs = None.
Proof. induction 1 as [|x xs Hx _ IH]; cbn; [done|]. by rewrite Hx. Qed.

(** * The documented behaviour of the library *)

Section laws.
Context {Ts : list Type} {A Seq W : Type}.
Notation st := (state Ts A Seq W).

(** Two states that differ at most in the flag action_count_checked_ and the rest
    of the program. *)
Record same_but_checked (s s' : st) : Prop := SameButChecked {
  sbc_specs : untyped_on_call_specs_ s' = untyped_on_call_specs_ s;
  sbc_expectations : untyped_expectations_ s' = untyped_expectations_ s;
  sbc_bases : set_checked true <$> bases s' = set_checked true <$> bases s;
  sbc_typed : typed s' = typed s;
  sbc_sequence : implicit_sequence s' = implicit_sequence s;
  sbc_reports : failure_reports s' = failure_reports s;
}.

(** ... and in the flag retired_. *)
Definition forget (b : ExpectationBase A) : ExpectationBase A := set_retired true (set_checked true b).

Record same_calls (s s' : st) : Prop := SameCalls {
  sc_specs : untyped_on_call_specs_ s' = untyped_on_call_specs_ s;
  sc_expectations : untyped_expectations_ s' = untyped_expectations_ s;
  sc_bases : forget <$> bases s' = forget <$> bases s;
  sc_typed : typed s' = typed s;
  sc_sequence : implicit_sequence s' = implicit_sequence s;
  sc_reports : failure_reports s' = failure_reports s;
}.

Class GMockLaws (lib : gmock_library Ts A Seq W) : Prop := {
  (** Creates a cardinality that allows exactly n calls. *)
  exactly_law : ∀ n c, IsSaturatedByCallCount (Exactly lib n) c = bool_decide (n ≤ c);
  (** Creates a cardinality that allows at least n calls. *)
  at_least_law : ∀ n c, IsSaturatedByCallCount (AtLeast lib n) c = false;
  (** No clause of the statement has been seen. *)
  new_base_law : ∀ file line text,
    let b := new_base lib file line text in
    cardinality_specified_ b = false ∧ immediate_prerequisites_ b = ∅ ∧ call_count_ b = 0 ∧
    retired_ b = false ∧ untyped_actions_ b = [] ∧ repeated_action_specified_ b = false ∧
    retires_on_saturation_ b = false ∧ last_clause_ b = kNone;
  (** Checks the action count; prints a warning. *)
  check_law : ∀ l s, same_but_checked s (CheckActionCountIfNotDone lib l s);
  (** Adds the expectation to the sequence: it gets a pre-requisite. *)
  add_law : ∀ q l s b,
    bases s !! l = Some b →
    let s' := AddExpectation lib q l s in
    failure_reports s' = failure_reports s ∧ typed s' = typed s ∧
    ∃ es, bases s' !! l = Some (add_prerequisites es b);
  (** Retires all pre-requisites of this expectation. *)
  retire_law : ∀ l s, same_calls s (RetireAllPreRequisites lib l s);
  retire_none : ∀ l s b,
    bases s !! l = Some b → immediate_prerequisites_ b = ∅ → RetireAllPreRequisites lib l s = s;
  (** Returns true iff all pre-requisites of this expectation are satisfied: this
      depends on call counts and cardinalities. *)
  satisfied_law : ∀ l s s', same_calls s s' →
    AllPrerequisitesAreSatisfied lib l s' = AllPrerequisitesAreSatisfied lib l s;
  (** The unsatisfied pre-requisites are co-owned by the expectation. *)
  unsatisfied_law : ∀ l s e, e ∈ FindUnsatisfiedPrerequisites lib l s → is_Some (bases s !! e);
  satisfied_none : ∀ l s b,
    bases s !! l = Some b → immediate_prerequisites_ b = ∅ → AllPrerequisitesAreSatisfied lib l s = true;
}.

#[export] Instance same_but_checked_refl : Reflexive same_but_checked.
Proof. by constructor. Qed.

#[export] Instance same_but_checked_trans : Transitive same_but_checked.
Proof. intros s t u [] []. constructor; congruence. Qed.

#[export] Instance same_calls_equiv : Equivalence same_calls.
Proof.
  split.
  - by constructor.
  - intros s t []. by constructor.
  - intros s t u [] []. constructor; congruence.
Qed.

Lemma same_but_checked_calls (s s' : st) : same_but_checked s s' → same_calls s s'.
Proof.
  intros H. pose proof (sbc_bases _ _ H) as Hb. destruct H. constructor; try done. apply map_eq. intros l.
  apply (f_equal (lookup l)) in Hb. rewrite !lookup_fmap in Hb. rewrite !lookup_fmap.
  destruct (bases s' !! l), (bases s !! l); try done. cbn in *. unfold forget. congruence.
Qed.

Lemma checked_lookup (s s' : st) l b :
  same_but_checked s s' → bases s !! l = Some b →
  ∃ b', bases s' !! l = Some b' ∧ set_checked true b' = set_checked true b.
Proof.
  intros [_ _ Hb _ _ _] Hl. apply (f_equal (lookup l)) in Hb. rewrite !lookup_fmap Hl /= in Hb.
  apply fmap_Some in Hb as (b' & ? & ?). eauto.
Qed.

Lemma calls_lookup (s s' : st) l b :
  same_calls s s' → bases s !! l = Some b →
  ∃ b', bases s' !! l = Some b' ∧ forget b' = forget b.
Proof.
  intros [_ _ Hb _ _ _] Hl. apply (f_equal (lookup l)) in Hb. rewrite !lookup_fmap Hl /= in Hb.
  apply fmap_Some in Hb as (b' & ? & ?). eauto.
Qed.
End laws.

(** How often an expectation has been called. *)
Definition calls_of {Ts A Seq W} (s : state Ts A Seq W) (l : loc) : option Z :=
  call_count_ <$> bases s !! l.

Lemma calls_of_forget {Ts A Seq W} (s s' : state Ts A Seq W) l :
  same_calls s s' → calls_of s' l = calls_of s l.
Proof.
  intros [_ _ Hb _ _ _]. apply (f_equal (lookup l)) in Hb. rewrite !lookup_fmap in Hb.
  apply (f_equal (fmap call_count_)) in Hb.
  unfold calls_of. by destruct (bases s' !! l), (bases s !! l).
Qed.

(** * The order of clauses *)

(** A clause that may appear once only. *)
Definition single (c : Clause) : bool :=
  match c with kWith | kWillRepeatedly | kRetiresOnSaturation => true | _ => false end.

(** Clause [c] may follow clause [p]. *)
Definition may_follow (p c : Clause) : bool :=
  if single c then clause_lt p c else clause_le p c.

Definition fault (ok : bool) : nat := if ok then 0%nat else 1%nat.

(** The number of clauses that may not follow the one before them. *)
Fixpoint misplaced (p : Clause) (cs : list Clause) : nat :=
  match cs with
  | [] => 0%nat
  | c :: cs => (fault (may_follow p c) + misplaced c cs)%nat
  end.

(** The clauses in the order the headers ask for. *)
Definition clause_order : list Clause :=
  [kWith; kInSequence; kAfter; kWillOnce; kWillRepeatedly; kRetiresOnSaturation].

(** [cs] has some clauses of the first kind, then some of the second, ...: at most
    one where a clause is single. *)
Fixpoint shape (levels cs : list Clause) : Prop :=
  match levels with
  | [] => cs = []
  | c :: levels =>
    ∃ n cs', cs = replicate n c ++ cs' ∧ (single c = true → (n ≤ 1)%nat) ∧ shape levels cs'
  end.

Definition followers (p : Clause) : list Clause := List.filter (may_follow p) clause_order.

Lemma shape_nil L : shape L [].
Proof. induction L as [|c L IH]; [done|]. exists 0%nat, []. split_and!; [done|lia|done]. Qed.

Lemma shape_skip c L cs : shape L cs → shape (c :: L) cs.
Proof. intros H. exists 0%nat, cs. split_and!; [done|lia|done]. Qed.

Lemma shape_more c L cs : single c = false → shape (c :: L) cs → shape (c :: L) (c :: cs).
Proof.
  intros Hc (n & cs' & -> & _ & H). exists (S n), cs'. split_and!; [done|by rewrite Hc|done].
Qed.

Lemma shape_one c L cs : shape L cs → shape (c :: L) (c :: cs).
Proof. intros H. exists 1%nat, cs. split_and!; [done|lia|done]. Qed.

Lemma shape_cons_inv L c cs :
  shape L (c :: cs) →
  ∃ L1 L2, L = L1 ++ c :: L2 ∧ shape (if single c then L2 else c :: L2) cs.
Proof.
  induction L as [|d L IH]; [done|]. intros (n & cs' & Hcs & Hn & H).
  destruct n as [|n]; cbn in Hcs.
  - subst cs'. destruct (IH H) as (L1 & L2 & -> & Hs). by exists (d :: L1), L2.
  - injection Hcs as -> ->. exists [], L. split; [done|]. destruct (single d) eqn:Hd.
    + destruct n; [done|]. specialize (Hn eq_refl). lia.
    + exists n, cs'. split_and!; [done|by rewrite Hd|done].
Qed.

(** Evaluates [followers] of a known clause. *)
Ltac eval_followers :=
  repeat match goal with
  | |- context [followers ?x] => let L := eval vm_compute in (followers x) in change (followers x) with L
  | H : context [followers ?x] |- _ =>
    let L := eval vm_compute in (followers x) in change (followers x) with L in H
  end.

Lemma followers_cons p c cs :
  c ∈ clause_order → may_follow p c = true → shape (followers c) cs → shape (followers p) (c :: cs).
Proof.
  intros Hc Hp H. destruct p, c; try discriminate Hp;
    try (exfalso; revert Hc;
         match goal with |- ?x ∈ ?l → False => change (x ∉ l); vm_decide end); eval_followers;
    repeat first [ exact H | apply shape_one; exact H
                 | apply shape_more; [reflexivity|exact H] | apply shape_skip ].
Qed.

Lemma followers_cons_inv p c cs :
  shape (followers p) (c :: cs) → may_follow p c = true ∧ shape (followers c) cs.
Proof.
  intros H. apply shape_cons_inv in H as (L1 & L2 & HL & Hs).
  destruct p; eval_followers;
    repeat (destruct L1 as [|? L1]; [injection HL as <- <-; split; [reflexivity|exact Hs]|
                                     injection HL as _ HL]); by destruct L1.
Qed.

(** No clause is misplaced after [p] exactly when the clauses have the shape of
    those that may follow [p]. *)
Lemma misplaced_shape p cs :
  Forall (λ c, c ∈ clause_order) cs → misplaced p cs = 0%nat ↔ shape (followers p) cs.
Proof.
  intros Hcs. revert p. induction Hcs as [|c cs Hc _ IH]; intros p.
  { split; [intros _; apply shape_nil|done]. }
  cbn [misplaced]. split.
  - intros H. apply followers_cons; [done| |apply IH]; destruct (may_follow p c); done.
  - intros [-> H]%followers_cons_inv. cbn. by apply IH.
Qed.

Section calls.
Context {Ts : list Type} {A Seq W : Type} (lib : gmock_library Ts A Seq W) `{!GMockLaws lib}.
Context (ps : printers Ts) (returns_void : bool).
Notation st := (state Ts A Seq W).
Implicit Types (s : st) (l : loc) (args : tuple Ts) (b : ExpectationBase A).

(** The expectation is active, its prerequisites are satisfied and it matches. *)
Definition handles s args l : bool :=
  match bases s !! l, typed s !! l with
  | Some b, Some t => negb (retired_ b) && AllPrerequisitesAreSatisfied lib l s && exp_Matches ps t args
  | _, _ => false
  end.

(** Every pointer of the mock function points to an expectation. *)
Definition alive s l : Prop := is_Some (bases s !! l) ∧ is_Some (typed s !! l).

Lemma alive_checked s s' l : same_but_checked s s' → alive s l → alive s' l.
Proof.
  intros Hs [[b Hb] Ht]. destruct (checked_lookup _ _ _ _ Hs Hb) as (b' & Hb' & _).
  split; [eauto|]. by rewrite (sbc_typed _ _ Hs).
Qed.

Lemma handles_checked s s' l args :
  same_but_checked s s' → handles s' args l = handles s args l.
Proof.
  intros Hs. unfold handles.
  rewrite (sbc_typed _ _ Hs) (satisfied_law l s s'); [by apply same_but_checked_calls|].
  pose proof (f_equal (lookup l) (sbc_bases _ _ Hs)) as Hb. rewrite !lookup_fmap in Hb.
  apply (f_equal (fmap retired_)) in Hb.
  destruct (bases s' !! l), (bases s !! l); try done. by injection Hb as ->.
Qed.

Lemma should_handle_run s l args :
  alive s l →
  ∃ s', ShouldHandleArguments lib ps l args s = (Done (handles s args l), s') ∧ same_but_checked s s'.
Proof.
  intros Hl. set (s' := CheckActionCountIfNotDone lib l s).
  assert (same_but_checked s s') as Hs by apply check_law.
  exists s'. split; [|done]. rewrite -(handles_checked s s') //.
  destruct (alive_checked s s' l Hs Hl) as [[b Hb] [t Ht]].
  unfold ShouldHandleArguments, handles. rewrite (bind_done _ _ s () s') //.
  rewrite (bind_done _ _ s' b s'); [by rewrite /base_of /mbind /cmd_bind /= Hb|].
  rewrite (bind_done _ _ s' t s'); [by rewrite /typed_of /mbind /cmd_bind /= Ht|].
  by rewrite Hb Ht.
Qed.

Lemma find_matching_run its s args :
  Forall (alive s) its →
  ∃ s', find_matching lib ps its args s = (Done (List.find (handles s args) its), s') ∧
        same_but_checked s s'.
Proof.
  revert s. induction its as [|l its IH]; intros s Hits; [by exists s|].
  apply Forall_cons in Hits as [Hl Hits].
  destruct (should_handle_run s l args Hl) as (s1 & Hrun & H1).
  cbn [find_matching List.find]. rewrite (bind_done _ _ _ _ _ Hrun).
  destruct (handles s args l); [by exists s1|].
  destruct (IH s1) as (s2 & -> & H2).
  { eapply Forall_impl; [exact Hits|]. intros l'. by apply alive_checked. }
  exists s2. split; [|by etrans].
  do 2 f_equal. clear -GMockLaws0 H1. induction its as [|l' its IH]; cbn; [done|].
  by rewrite (handles_checked s s1) // IH.
Qed.

(** The action of the n-th call. *)
Definition action_at b (t : TypedPart Ts A) (n : Z) : Action A :=
  default (repeated_action_ t) (untyped_actions_ b !! Z.to_nat (n - 1)).

Definition counted l b s : st := set_bases (<[l := set_call_count (call_count_ b + 1) b]> (bases s)) s.

(** The numbers of calls and actions an int can hold. *)
Definition countable b : Prop :=
  0 ≤ call_count_ b < INT_MAX ∧ Z.of_nat (length (untyped_actions_ b)) ≤ INT_MAX.

Lemma int_of_size_small n : Z.of_nat n ≤ INT_MAX → int_of_size n = Z.of_nat n.
Proof. unfold INT_MAX, int_of_size. intros. rewrite Z.mod_small; lia. Qed.

Lemma base_of_run l b s : bases s !! l = Some b → base_of l s = (Done b, s).
Proof. intros Hb. by rewrite /base_of /mbind /cmd_bind /= Hb. Qed.

Lemma typed_of_run l t s : typed s !! l = Some t → typed_of l s = (Done t, s).
Proof. intros Hb. by rewrite /typed_of /mbind /cmd_bind /= Hb. Qed.

Lemma update_base_run l b f s :
  bases s !! l = Some b → update_base l f s = (Done (), set_bases (<[l := f b]> (bases s)) s).
Proof. intros Hb. unfold update_base. by rewrite (bind_done _ _ _ _ _ (base_of_run _ _ _ Hb)). Qed.

Lemma increment_call_run l b s :
  bases s !! l = Some b → countable b → IncrementCallCount l s = (Done (), counted l b s).
Proof.
  intros Hb [Hc _]. unfold IncrementCallCount. rewrite (bind_done _ _ _ _ _ (base_of_run _ _ _ Hb)).
  unfold int_ok. rewrite bool_decide_eq_true_2; [unfold INT_MIN, INT_MAX in *; lia|].
  by apply update_base_run.
Qed.

Lemma get_current_run l b t s args :
  bases s !! l = Some b → typed s !! l = Some t →
  1 ≤ call_count_ b → Z.of_nat (length (untyped_actions_ b)) ≤ INT_MAX →
  ∃ r, GetCurrentAction lib returns_void l args s = (Done (action_at b t (call_count_ b)), set_rest r s).
Proof.
  intros Hb Ht Hc Hlen. unfold GetCurrentAction.
  rewrite (bind_done _ _ _ _ _ (base_of_run _ _ _ Hb)) (bind_done _ _ _ _ _ (typed_of_run _ _ _ Ht)).
  rewrite int_of_size_small // (bool_decide_eq_true_2 (1 ≤ call_count_ b)) //.
  rewrite (bind_done (assert_ true) _ s () s) //.
  set (n := Z.of_nat (length _)).
  assert (∀ r, (if bool_decide (call_count_ b ≤ n)
     then or_ub OutOfBounds (rd (untyped_actions_ b) (call_count_ b - 1))
     else mret (repeated_action_ t)) (set_rest r s) =
     (Done (action_at b t (call_count_ b)), set_rest r s)) as Hlast.
  { intros r. unfold action_at. case_bool_decide as Hn.
    - unfold rd. rewrite bool_decide_eq_true_2; [lia|].
      destruct (lookup_lt_is_Some_2 (untyped_actions_ b) (Z.to_nat (call_count_ b - 1))) as [a Ha];
        [lia|]. by rewrite Ha.
    - rewrite lookup_ge_None_2 //. lia. }
  destruct (_ && _); cbn [when].
  - eexists. run_step. apply Hlast.
  - exists (rest s). rewrite (bind_done _ _ s () s) // -(Hlast (rest s)). by destruct s.
Qed.

Lemma same_calls_rest s r : same_calls s (set_rest r s).
Proof. by constructor. Qed.

Lemma same_calls_retired l b s :
  bases s !! l = Some b → same_calls s (set_bases (<[l := set_retired true b]> (bases s)) s).
Proof.
  intros Hb. constructor; try done. cbn. rewrite fmap_insert. apply insert_id.
  by rewrite lookup_fmap Hb.
Qed.

Lemma forget_fields b b' :
  forget b' = forget b →
  call_count_ b' = call_count_ b ∧ untyped_actions_ b' = untyped_actions_ b ∧
  cardinality_ b' = cardinality_ b ∧ retires_on_saturation_ b' = retires_on_saturation_ b ∧
  immediate_prerequisites_ b' = immediate_prerequisites_ b.
Proof. destruct b, b'. unfold forget, set_checked, set_retired. cbn. by intros [= -> -> -> -> -> -> -> -> -> -> -> ->]. Qed.

Lemma counted_lookup l b s : bases (counted l b s) !! l = Some (set_call_count (call_count_ b + 1) b).
Proof. apply lookup_insert_eq. Qed.

Lemma get_action_saturated l b s args :
  bases s !! l = Some b → countable b → IsSaturated b = true →
  ∃ what why, GetActionForArguments lib returns_void l args s =
    (Done (None, what, why), counted l b s).
Proof.
  intros Hb Hc Hsat. unfold GetActionForArguments.
  rewrite (bind_done _ _ _ _ _ (base_of_run _ _ _ Hb)) Hsat.
  rewrite (bind_done _ _ _ _ _ (increment_call_run _ _ _ Hb Hc)).
  do 2 eexists. reflexivity.
Qed.

(** A call that does not exceed the expectation gets the action of its number; only
    the call count and the flags retired_ change, and without prerequisites and
    RetiresOnSaturation() only the call count. *)
Lemma get_action_run l b t s args :
  bases s !! l = Some b → typed s !! l = Some t → countable b → IsSaturated b = false →
  ∃ what why s', GetActionForArguments lib returns_void l args s =
    (Done (Some (action_at b t (call_count_ b + 1)), what, why), s') ∧
    same_calls (counted l b s) s' ∧
    (immediate_prerequisites_ b = ∅ → retires_on_saturation_ b = false →
     ∃ r, s' = set_rest r (counted l b s)).
Proof.
  intros Hb Ht Hc Hsat. unfold GetActionForArguments.
  rewrite (bind_done _ _ _ _ _ (base_of_run _ _ _ Hb)) Hsat.
  rewrite (bind_done _ _ _ _ _ (increment_call_run _ _ _ Hb Hc)).
  set (s1 := counted l b s). set (b1 := set_call_count (call_count_ b + 1) b).
  set (s2 := RetireAllPreRequisites lib l s1).
  rewrite (bind_done _ _ s1 () s2) //.
  assert (same_calls s1 s2) as H12 by apply retire_law.
  destruct (calls_lookup s1 s2 l b1 H12) as (b2 & Hb2 & Hf2); [apply counted_lookup|].
  rewrite (bind_done _ _ _ _ _ (base_of_run _ _ _ Hb2)).
  assert (∃ s3, when (retires_on_saturation_ b2 && IsSaturated b2) (update_base l (set_retired true)) s2 =
    (Done (), s3) ∧ same_calls s2 s3 ∧ (retires_on_saturation_ b = false → s3 = s2)) as (s3 & H3 & H23 & Heq).
  { destruct (forget_fields _ _ Hf2) as (_ & _ & _ & Hr & _). cbn in Hr. rewrite Hr.
    destruct (retires_on_saturation_ b); [destruct (IsSaturated b2)|]; cbn [andb when].
    - rewrite (update_base_run _ _ _ _ Hb2). eexists. split; [done|]. split; [|done].
      by apply same_calls_retired.
    - by exists s2.
    - by exists s2. }
  rewrite (bind_done _ _ _ _ _ H3). assert (same_calls s1 s3) as H13 by (by etrans).
  destruct (calls_lookup s1 s3 l b1 H13) as (b3 & Hb3 & Hf3); [apply counted_lookup|].
  destruct (forget_fields _ _ Hf3) as (Hn & Ha & _).
  assert (typed s3 !! l = Some t) as Ht3 by (by rewrite (sc_typed _ _ H13)).
  destruct Hc as [Hc Hlen].
  destruct (get_current_run l b3 t s3 args Hb3 Ht3) as [r Hr]; [rewrite Hn; cbn; lia|by rewrite Ha|].
  rewrite (bind_done _ _ _ _ _ Hr).
  unfold action_at. rewrite Hn Ha. do 3 eexists. split; [reflexivity|]. split.
  - etrans; [exact H13|]. apply same_calls_rest.
  - intros Hp Hret. exists r. rewrite (Heq Hret). unfold s2.
    rewrite (retire_none l s1 b1) //. apply counted_lookup.
Qed.

Lemma alive_reverse s its : Forall (alive s) its → Forall (alive s) (reverse its).
Proof. apply Forall_reverse. Qed.

(** Texts are written without a change of state. *)
Lemma describe_run i es s :
  Forall (λ e, is_Some (bases s !! e)) es → ∃ t, describe_prerequisites lib i es s = (Done t, s).
Proof.
  revert i. induction es as [|e es IH]; intros i Hes; [by eexists|].
  apply Forall_cons in Hes as [[b Hb] Hes]. cbn [describe_prerequisites].
  rewrite (bind_done _ _ _ _ _ (base_of_run _ _ _ Hb)).
  destruct (IH (S i) Hes) as [t Ht]. rewrite (bind_done _ _ _ _ _ Ht). by eexists.
Qed.

Lemma explain_run l args s :
  alive s l → ∃ t, exp_ExplainMatchResult lib ps l args s = (Done t, s).
Proof.
  intros [[b Hb] [t Ht]]. unfold exp_ExplainMatchResult.
  rewrite (bind_done _ _ _ _ _ (base_of_run _ _ _ Hb)) (bind_done _ _ _ _ _ (typed_of_run _ _ _ Ht)).
  rewrite (bind_done _ _ s s s) //. destruct (retired_ b); [by eexists|].
  destruct (exp_Matches ps t args); cbn [negb].
  - destruct (AllPrerequisitesAreSatisfied lib l s); cbn [negb]; [by eexists|].
    destruct (describe_run 0 (FindUnsatisfiedPrerequisites lib l s) s) as [d Hd].
    { apply Forall_forall. intros e. apply unsatisfied_law. }
    rewrite (bind_done _ _ _ _ _ Hd). by eexists.
  - destruct (match_string _ _) as [m e]. destruct m; by eexists.
Qed.

Lemma print_tried_run n i its args s :
  Forall (alive s) its → ∃ t, print_tried lib ps n i its args s = (Done t, s).
Proof.
  revert i. induction its as [|l its IH]; intros i Hits; [by eexists|].
  apply Forall_cons in Hits as [Hl Hits]. destruct (explain_run l args s Hl) as [e He].
  destruct Hl as [[b Hb] _]. cbn [print_tried].
  rewrite (bind_done _ _ _ _ _ (base_of_run _ _ _ Hb)) (bind_done _ _ _ _ _ He).
  rewrite (bind_done _ _ s s s) //.
  destruct (IH (S i) Hits) as [t Ht]. rewrite (bind_done _ _ _ _ _ Ht). by eexists.
Qed.

Lemma unexpected_run args s :
  Forall (alive s) (untyped_expectations_ s) →
  ∃ what why, FormatUnexpectedCallMessageLocked lib ps returns_void args s = (Done (what, why), s).
Proof.
  intros Hs. unfold FormatUnexpectedCallMessageLocked, PrintTriedExpectationsLocked.
  rewrite (bind_done _ _ s s s) //.
  destruct (print_tried_run (length (untyped_expectations_ s)) 0 _ args s Hs) as [t Ht].
  erewrite bind_done; [by do 2 eexists|].
  rewrite (bind_done _ _ s s s) // (bind_done _ _ _ _ _ Ht). reflexivity.
Qed.

Lemma set_checked_fields b b' :
  set_checked true b' = set_checked true b → b' = set_checked (action_count_checked_ b') b.
Proof. destruct b, b'. unfold set_checked. cbn. by intros [= -> -> -> -> -> -> -> -> -> -> -> -> ->]. Qed.

Lemma same_counted l b c s s' :
  same_but_checked s s' → bases s !! l = Some b → same_calls (counted l b s) (counted l (set_checked c b) s').
Proof.
  intros Hs Hb. destruct (same_but_checked_calls _ _ Hs). constructor; try done.
  cbn. rewrite !fmap_insert sc_bases0. by destruct b.
Qed.

(** What a call of the mock function gives when the search settles on [l]. *)
Lemma handled_run s args older l newer b t :
  Forall (alive s) (untyped_expectations_ s) →
  untyped_expectations_ s = older ++ l :: newer →
  handles s args l = true → Forall (λ l', handles s args l' = false) newer →
  bases s !! l = Some b → typed s !! l = Some t → countable b →
  ∃ what why s', UntypedFindMatchingExpectation lib ps returns_void args s =
    (Done (Some (l, if IsSaturated b then None else action_at b t (call_count_ b + 1), IsSaturated b),
           what, why), s') ∧
    same_calls (counted l b s) s' ∧
    (immediate_prerequisites_ b = ∅ → retires_on_saturation_ b = false →
     ∃ c r s1, same_but_checked s s1 ∧ s' = set_rest r (counted l (set_checked c b) s1)).
Proof.
  intros Hs Hexp Hl Hnew Hb Ht Hc. unfold UntypedFindMatchingExpectation, FindMatchingExpectationLocked.
  destruct (find_matching_run (reverse (untyped_expectations_ s)) s args) as (s1 & Hf & H1);
    [by apply alive_reverse|].
  rewrite Hexp find_last // -Hexp in Hf.
  rewrite (bind_done _ _ s (Some l) s1); [by rewrite (bind_done _ _ s s s)|].
  destruct (checked_lookup _ _ _ _ H1 Hb) as (b1 & Hb1 & Heq). apply set_checked_fields in Heq.
  rewrite (bind_done _ _ _ _ _ (base_of_run _ _ _ Hb1)).
  assert (typed s1 !! l = Some t) as Ht1 by (by rewrite (sbc_typed _ _ H1)).
  assert (IsSaturated b1 = IsSaturated b) as Hsat by (by rewrite Heq).
  assert (countable b1) as Hc1 by (by rewrite Heq).
  set (c := action_count_checked_ b1) in *.
  destruct (IsSaturated b) eqn:Hsatb.
  - destruct (get_action_saturated l b1 s1 args Hb1 Hc1 Hsat) as (what & why & Hg).
    rewrite (bind_done _ _ _ _ _ Hg) Hsat. do 3 eexists. split; [reflexivity|]. rewrite Heq. split.
    + by apply same_counted.
    + intros _ _. exists c, (rest s1), s1. split; [done|]. by destruct s1.
  - destruct (get_action_run l b1 t s1 args Hb1 Ht1 Hc1 Hsat) as (what & why & s' & Hg & Hsame & Hexact).
    rewrite (bind_done _ _ _ _ _ Hg) Hsat.
    assert (action_at b1 t (call_count_ b1 + 1) = action_at b t (call_count_ b + 1)) as ->
      by (by rewrite Heq).
    do 3 eexists. split; [|split].
    + by destruct (action_at b t _).
    + etrans; [by apply (same_counted l b c)|]. by rewrite -Heq.
    + intros Hp Hr. destruct Hexact as [r ->]; [by rewrite Heq..|]. exists c, r, s1.
      by rewrite -Heq.
Qed.

(** ... and when it settles on none. *)
Lemma unhandled_run s args :
  Forall (alive s) (untyped_expectations_ s) → Forall (λ l, handles s args l = false) (untyped_expectations_ s) →
  ∃ what why s', UntypedFindMatchingExpectation lib ps returns_void args s = (Done (None, what, why), s') ∧
    same_but_checked s s'.
Proof.
  intros Hs Hnone. unfold UntypedFindMatchingExpectation, FindMatchingExpectationLocked.
  destruct (find_matching_run (reverse (untyped_expectations_ s)) s args) as (s1 & Hf & H1);
    [by apply alive_reverse|].
  rewrite find_all_false in Hf; [by apply Forall_reverse|].
  rewrite (bind_done _ _ s None s1); [by rewrite (bind_done _ _ s s s)|].
  destruct (unexpected_run args s1) as (what & why & Hu).
  { rewrite (sbc_expectations _ _ H1). eapply Forall_impl; [exact Hs|]. intros l'. by apply alive_checked. }
  rewrite (bind_done _ _ _ _ _ Hu). by do 3 eexists.
Qed.

(** C20. What was declared last is used first: the default action of a call is that
    of the last ON_CALL that matches it, and a call is handled by the last
    EXPECT_CALL that is active, has its prerequisites satisfied and matches. Its
    call count and no other grows by one; the action is the one of its number, or
    NULL with is_excessive when it was saturated. When no expectation handles the
    call, none is counted and the result is NULL. *)
Theorem last_declared_handles s args :
  Forall (alive s) (untyped_expectations_ s) →
  (∀ before spec after,
     untyped_on_call_specs_ s = before ++ spec :: after → oc_Matches spec args = true →
     Forall (λ spec, oc_Matches spec args = false) after → FindOnCallSpec args s = Some spec) ∧
  (∀ older l newer b t,
     untyped_expectations_ s = older ++ l :: newer →
     handles s args l = true → Forall (λ l', handles s args l' = false) newer →
     bases s !! l = Some b → typed s !! l = Some t → countable b →
     ∃ what why s', UntypedFindMatchingExpectation lib ps returns_void args s =
       (Done (Some (l, if IsSaturated b then None else action_at b t (call_count_ b + 1),
                    IsSaturated b), what, why), s') ∧
       calls_of s' l = Some (call_count_ b + 1) ∧
       ∀ l', l' ≠ l → calls_of s' l' = calls_of s l') ∧
  (Forall (λ l', handles s args l' = false) (untyped_expectations_ s) →
   ∃ what why s', UntypedFindMatchingExpectation lib ps returns_void args s =
     (Done (None, what, why), s') ∧ ∀ l', calls_of s' l' = calls_of s l').
Proof.
  intros Hs. split_and!.
  - intros before spec after Hspecs Hm Hafter. unfold FindOnCallSpec. rewrite Hspecs.
    by apply find_last.
  - intros older l newer b t Hexp Hl Hnew Hb Ht Hc.
    destruct (handled_run s args older l newer b t) as (what & why & s' & Hrun & Hsame & _); try done.
    exists what, why, s'. split; [done|].
    split; [|intros l' Hne]; rewrite (calls_of_forget _ _ _ Hsame); unfold calls_of.
    + by rewrite counted_lookup.
    + cbn. by rewrite lookup_insert_ne.
  - intros Hnone. destruct (unhandled_run s args Hs Hnone) as (what & why & s' & Hrun & Hsame).
    exists what, why, s'. split; [done|]. intros l'. by apply calls_of_forget, same_but_checked_calls.
Qed.

(** * Statements with WillOnce and WillRepeatedly *)

Fixpoint will_once_all l (acts : list (Action A)) : cmd st unit :=
  match acts with
  | [] => mret ()
  | a :: acts => WillOnce lib l a;; will_once_all l acts
  end.

(** EXPECT_CALL(mock, method(m)).WillOnce(a1)...WillOnce(an)[.WillRepeatedly(r)]. *)
Definition statement l (file : string) (line : Z) (text : string) (m : matcher_tuple Ts)
    (acts : list (Action A)) (repeated : option (Action A)) : cmd st unit :=
  AddNewExpectation lib l file line text m;;
  will_once_all l acts;;
  match repeated with None => mret () | Some r => WillRepeatedly lib l r end.

(** The prerequisites, and the actions declared so far. *)
Record plain (es : gset loc) b (acts : list (Action A)) : Prop := Plain {
  pl_specified : cardinality_specified_ b = false;
  pl_prerequisites : immediate_prerequisites_ b = es;
  pl_count : call_count_ b = 0;
  pl_retired : retired_ b = false;
  pl_actions : untyped_actions_ b = acts;
  pl_retires : retires_on_saturation_ b = false;
  pl_clause : clause_value (last_clause_ b) ≤ clause_value kWillOnce;
  pl_cardinality : acts ≠ [] → cardinality_ b = Exactly lib (int_of_size (length acts));
}.

Lemma will_once_run l es b a s acts :
  bases s !! l = Some b → plain es b acts →
  ∃ b', WillOnce lib l a s = (Done (), set_bases (<[l := b']> (bases s)) s) ∧ plain es b' (acts ++ [a]).
Proof.
  intros Hb []. unfold WillOnce. rewrite (bind_done _ _ _ _ _ (base_of_run _ _ _ Hb)).
  unfold clause_le. rewrite (bool_decide_eq_true_2 _ pl_clause0).
  rewrite (bind_done (ExpectSpecProperty true _) _ s () s) //.
  rewrite (bind_done _ _ _ _ _ (update_base_run _ _ _ _ Hb)).
  rewrite (bind_done _ _ _ _ _ (update_base_run l _ _ _ (lookup_insert_eq _ _ _))).
  rewrite (bind_done _ _ _ _ _ (base_of_run l _ _ (lookup_insert_eq _ _ _))).
  cbn [push_action set_last_clause cardinality_specified_]. rewrite pl_specified0. cbn [negb when].
  rewrite (update_base_run l _ _ _ (lookup_insert_eq _ _ _)). cbn [bases set_bases].
  rewrite !insert_insert_eq. eexists. split; [reflexivity|].
  constructor; cbn; try done; rewrite pl_actions0 //.
Qed.

Lemma will_once_all_run l es b acts0 acts s :
  bases s !! l = Some b → plain es b acts0 →
  ∃ b', will_once_all l acts s = (Done (), set_bases (<[l := b']> (bases s)) s) ∧ plain es b' (acts0 ++ acts).
Proof.
  revert b acts0 s. induction acts as [|a acts IH]; intros b acts0 s Hb Hp.
  { exists b. rewrite app_nil_r insert_id //. split; [by destruct s|done]. }
  destruct (will_once_run l es b a s acts0 Hb Hp) as (b1 & Hr & Hp1). cbn [will_once_all].
  rewrite (bind_done _ _ _ _ _ Hr).
  destruct (IH b1 (acts0 ++ [a]) (set_bases (<[l := b1]> (bases s)) s)) as (b2 & -> & Hp2);
    [apply lookup_insert_eq|done|].
  exists b2. cbn [bases set_bases]. rewrite insert_insert_eq. by rewrite -assoc in Hp2.
Qed.

(** The mock function between its calls: [l] is its last expectation, was called
    [k] times and has the actions of its statement. *)
Record ready l (m : matcher_tuple Ts) (acts : list (Action A)) (repeated : option (Action A))
    (k : nat) s : Prop := Ready {
  rd_alive : Forall (alive s) (untyped_expectations_ s);
  rd_last : ∃ older, untyped_expectations_ s = older ++ [l];
  rd_base : ∃ b, bases s !! l = Some b ∧
    immediate_prerequisites_ b = ∅ ∧ call_count_ b = Z.of_nat k ∧ retired_ b = false ∧
    untyped_actions_ b = acts ∧ retires_on_saturation_ b = false ∧
    (∀ n, 0 ≤ n → IsSaturatedByCallCount (cardinality_ b) n =
       match repeated with Some _ => false | None => bool_decide (Z.of_nat (length acts) ≤ n) end);
  rd_typed : typed s !! l = Some (MkTypedPart m Matchers.A (default None repeated));
}.

(** The action of call [k], counted from 0, and whether the call is excessive. *)
Definition action_of_call (acts : list (Action A)) (repeated : option (Action A)) (k : nat)
    : option A * bool :=
  match acts !! k with
  | Some a => (a, false)
  | None => match repeated with Some r => (r, false) | None => (None, true) end
  end.

Lemma ready_step l m acts repeated k s args :
  ready l m acts repeated k s → TupleMatches ps m args = true →
  Z.of_nat (length acts) ≤ INT_MAX → Z.of_nat k < INT_MAX →
  ∃ what why s', UntypedFindMatchingExpectation lib ps returns_void args s =
    (Done (Some (l, fst (action_of_call acts repeated k), snd (action_of_call acts repeated k)), what, why), s') ∧
    ready l m acts repeated (S k) s'.
Proof.
  intros [Hal [older Hlast] (b & Hb & Hp & Hk & Hret & Hacts & Hros & Hsat) Ht] Hm Hlen Hmax.
  destruct (handled_run s args older l [] b (MkTypedPart m Matchers.A (default None repeated)) Hal Hlast) as (what & why & s' & Hrun & _ & Hex); try done.
  { unfold handles. rewrite Hb Ht Hret (satisfied_none l s b) //. unfold exp_Matches. cbn. by rewrite Hm. }
  { split; [rewrite Hk; lia|by rewrite Hacts]. }
  exists what, why, s'. destruct (Hex Hp Hros) as (c & r & s1 & H1 & ->). clear Hex. split.
  - rewrite Hrun. unfold IsSaturated. rewrite Hsat Hk; [lia|].
    unfold action_of_call, action_at. rewrite Hacts.
    replace (Z.to_nat (Z.of_nat k + 1 - 1)) with k by lia. cbn [repeated_action_].
    destruct (acts !! k) as [a|] eqn:Hak.
    + apply lookup_lt_Some in Hak. destruct repeated; [done|]. rewrite bool_decide_eq_false_2 //. lia.
    + apply lookup_ge_None in Hak. destruct repeated; [done|]. rewrite bool_decide_eq_true_2 //. lia.
  - constructor; cbn.
    + rewrite (sbc_expectations _ _ H1). eapply Forall_impl; [exact Hal|]. intros l' Hl'.
      destruct (alive_checked _ _ _ H1 Hl') as [Hb' Ht']. split; [|done]. cbn.
      rewrite lookup_insert_is_Some'. by right.
    + rewrite (sbc_expectations _ _ H1). eauto.
    + eexists. split; [apply lookup_insert_eq|]. cbn. split_and!; try done. lia.
    + by rewrite (sbc_typed _ _ H1).
Qed.

Lemma ready_calls l m acts repeated argss k s :
  ready l m acts repeated k s → Forall (λ args, TupleMatches ps m args = true) argss →
  Z.of_nat (length acts) ≤ INT_MAX → Z.of_nat (k + length argss) ≤ INT_MAX →
  ∃ rs s', mapM (UntypedFindMatchingExpectation lib ps returns_void) argss s = (Done rs, s') ∧
    (λ r, r.1.1) <$> rs =
    (λ i, Some (l, fst (action_of_call acts repeated i), snd (action_of_call acts repeated i))) <$>
      seq k (length argss).
Proof.
  revert k s. induction argss as [|args argss IH]; intros k s Hr Hm Hlen Hmax; [by exists [], s|].
  apply Forall_cons in Hm as [Hm Hms].
  destruct (ready_step l m acts repeated k s args) as (what & why & s1 & Hrun & H1); try done.
  { cbn in Hmax. lia. }
  destruct (IH (S k) s1) as (rs & s2 & Hrs & Heq); try done.
  { cbn in Hmax. lia. }
  eexists (_ :: rs), s2. cbn [mapM seq length fmap list_fmap]. rewrite (bind_done _ _ _ _ _ Hrun).
  rewrite (bind_done _ _ _ _ _ Hrs). split; [reflexivity|]. by rewrite Heq.
Qed.

Lemma add_new_run l file line text m s :
  implicit_sequence s = None →
  AddNewExpectation lib l file line text m s =
  (Done (), State (untyped_on_call_specs_ s) (untyped_expectations_ s ++ [l])
     (<[l := new_base lib file line text]> (bases s)) (<[l := MkTypedPart m Matchers.A None]> (typed s))
     None (failure_reports s) (RegisterUse lib file line (rest s))).
Proof.
  intros Hq. unfold AddNewExpectation, mbind, cmd_bind, modify, get. destruct s; cbn in *. by subst.
Qed.

Lemma new_base_plain file line text : plain ∅ (new_base lib file line text) [].
Proof.
  destruct (new_base_law file line text) as (? & ? & ? & ? & ? & ? & ? & Hc).
  constructor; try done. by rewrite Hc.
Qed.

Lemma alive_update l b0 t0 s l' :
  alive s l' ∨ l' = l →
  alive (set_bases (<[l := b0]> (bases s)) (set_typed (<[l := t0]> (typed s)) s)) l'.
Proof.
  intros Hl'. split; cbn; rewrite lookup_insert_is_Some'; destruct Hl' as [[]|]; auto.
Qed.

Lemma will_repeatedly_run l b t r acts s :
  bases s !! l = Some b → typed s !! l = Some t → plain ∅ b acts →
  ∃ b' s', WillRepeatedly lib l r s = (Done (), s') ∧
    same_but_checked (set_bases (<[l := b']> (bases s))
      (set_typed (<[l := MkTypedPart (matchers_ t) (extra_matcher_ t) r]> (typed s)) s)) s' ∧
    immediate_prerequisites_ b' = ∅ ∧ call_count_ b' = 0 ∧ retired_ b' = false ∧
    untyped_actions_ b' = acts ∧ retires_on_saturation_ b' = false ∧
    (∀ n, IsSaturatedByCallCount (cardinality_ b') n = false).
Proof.
  intros Hb Ht []. unfold WillRepeatedly. rewrite (bind_done _ _ _ _ _ (base_of_run _ _ _ Hb)).
  assert (last_clause_ b ≠ kWillRepeatedly) by (intros Hc; by rewrite Hc in pl_clause0).
  rewrite bool_decide_eq_false_2 //. unfold clause_lt.
  rewrite (bool_decide_eq_true_2 (_ < _)); [cbn in *; lia|].
  rewrite (bind_done (ExpectSpecProperty true _) _ s () s) //.
  rewrite (bind_done _ _ _ _ _ (update_base_run _ _ _ _ Hb)).
  rewrite (bind_done _ _ _ _ _ (update_base_run l _ _ _ (lookup_insert_eq _ _ _))).
  erewrite bind_done by (apply typed_of_run; exact Ht). run_step.
  rewrite (bind_done _ _ _ _ _ (base_of_run l _ _ (lookup_insert_eq _ _ _))).
  cbn [set_repeated_action_specified set_last_clause cardinality_specified_]. rewrite pl_specified0.
  cbn [negb when].
  rewrite (bind_done _ _ _ _ _ (update_base_run l _ _ _ (lookup_insert_eq _ _ _))).
  cbn [bases set_bases set_typed typed]. rewrite !insert_insert_eq.
  do 2 eexists. split; [reflexivity|]. split; [apply check_law|].
  cbn. split_and!; try done. intros n. apply at_least_law.
Qed.

Lemma statement_ready l file line text m acts repeated s :
  implicit_sequence s = None → Forall (alive s) (untyped_expectations_ s) →
  (acts ≠ [] ∨ is_Some repeated) → Z.of_nat (length acts) ≤ INT_MAX →
  ∃ s', statement l file line text m acts repeated s = (Done (), s') ∧ ready l m acts repeated 0 s'.
Proof.
  intros Hq Hal Hacts Hlen. unfold statement. rewrite (bind_done _ _ _ _ _ (add_new_run _ _ _ _ _ _ Hq)).
  set (s1 := State _ _ _ _ _ _ _).
  destruct (will_once_all_run l ∅ (new_base lib file line text) [] acts s1) as (b & Hrun & Hp);
    [apply lookup_insert_eq|apply new_base_plain|].
  rewrite (bind_done _ _ _ _ _ Hrun). clear Hrun. cbn [app] in Hp.
  set (t1 := MkTypedPart m Matchers.A None) in *.
  assert (∀ b0 t0 e, e ∈ untyped_expectations_ s ++ [l] →
    alive (set_bases (<[l := b0]> (bases s)) (set_typed (<[l := t0]> (typed s)) s)) e) as Hals.
  { intros b0 t0 e He. apply alive_update. apply elem_of_app in He as [He|He].
    - left. by apply (proj1 (Forall_forall _ _) Hal).
    - right. by apply list_elem_of_singleton in He. }
  destruct repeated as [r|].
  - destruct (will_repeatedly_run l b t1 r acts (set_bases (<[l := b]> (bases s1)) s1))
      as (b' & s' & Hrun & Hsame & Hfields); [apply lookup_insert_eq..|done|].
    exists s'. split; [done|].
    destruct (checked_lookup _ _ l b' Hsame) as (b'' & Hb'' & Heq); [apply lookup_insert_eq|].
    apply set_checked_fields in Heq.
    constructor.
    + rewrite (sbc_expectations _ _ Hsame). apply Forall_forall. intros e He.
      apply (alive_checked _ _ _ Hsame). cbn. rewrite !insert_insert_eq. by apply Hals.
    + rewrite (sbc_expectations _ _ Hsame). cbn. eauto.
    + exists b''. split; [done|]. rewrite Heq. cbn. naive_solver.
    + rewrite (sbc_typed _ _ Hsame). cbn. apply lookup_insert_eq.
  - eexists. split; [reflexivity|]. destruct Hp. constructor; cbn.
    + apply Forall_forall. intros e He. rewrite !insert_insert_eq. by apply Hals.
    + eauto.
    + exists b. split; [apply lookup_insert_eq|]. split_and!; try done.
      intros n Hn. destruct Hacts as [Hacts|[? [=]]].
      by rewrite pl_cardinality0 // exactly_law int_of_size_small.
    + apply lookup_insert_eq.
Qed.

(** EXPECT_CALL(mock, method(m)).WillOnce(a1)...WillOnce(an) handles the
    matching calls that follow with a1, ..., an in this order; each further call is
    excessive and gets the default action, or gets r and is not excessive when
    .WillRepeatedly(r) ends the statement. *)
Theorem will_once_in_order l file line text m acts repeated argss s :
  implicit_sequence s = None → Forall (alive s) (untyped_expectations_ s) →
  (acts ≠ [] ∨ is_Some repeated) →
  Z.of_nat (length acts) ≤ INT_MAX → Z.of_nat (length argss) ≤ INT_MAX →
  Forall (λ args, TupleMatches ps m args = true) argss →
  ∃ results s',
    (statement l file line text m acts repeated;;
     mapM (UntypedFindMatchingExpectation lib ps returns_void) argss) s = (Done results, s') ∧
    (λ r, r.1.1) <$> results =
    (λ i, Some (l, fst (action_of_call acts repeated i), snd (action_of_call acts repeated i))) <$>
      seq 0 (length argss).
Proof.
  intros Hq Hal Hacts Hlen Hmax Hm.
  destruct (statement_ready l file line text m acts repeated s) as (s1 & Hs & Hr); try done.
  rewrite (bind_done _ _ _ _ _ Hs). by apply (ready_calls l m acts repeated).
Qed.

(** * Statements *)

(** The clauses whose order is checked by the headers. *)
Inductive clause_call : Type :=
  | CWith (m : MatcherInterface (tuple Ts))
  | CInSequence (q : Seq)
  | CAfter (es : gset loc)
  | CWillOnce (a : Action A)
  | CWillRepeatedly (a : Action A)
  | CRetiresOnSaturation.

Definition run_clause l (c : clause_call) : cmd st unit :=
  match c with
  | CWith m => With l m
  | CInSequence q => InSequence lib l q
  | CAfter es => After l es
  | CWillOnce a => WillOnce lib l a
  | CWillRepeatedly a => WillRepeatedly lib l a
  | CRetiresOnSaturation => RetiresOnSaturation lib l
  end.

Fixpoint run_clauses l (cs : list clause_call) : cmd st unit :=
  match cs with [] => mret () | c :: cs => run_clause l c;; run_clauses l cs end.

Definition kind (c : clause_call) : Clause :=
  match c with
  | CWith _ => kWith | CInSequence _ => kInSequence | CAfter _ => kAfter
  | CWillOnce _ => kWillOnce | CWillRepeatedly _ => kWillRepeatedly
  | CRetiresOnSaturation => kRetiresOnSaturation
  end.

(** The statement is being written: its objects exist, and [n] failures were
    reported on top of [r]. *)
Definition writing l (r : list string) (p : Clause) (n : nat) s : Prop :=
  (∃ b, bases s !! l = Some b ∧ last_clause_ b = p) ∧ is_Some (typed s !! l) ∧
  ∃ ms, failure_reports s = r ++ ms ∧ length ms = n.

Lemma writing_checked l r p n s :
  writing l r p n s → writing l r p n (CheckActionCountIfNotDone lib l s).
Proof.
  intros ((b & Hb & Hp) & Ht & ms & Hr & Hn). pose proof (check_law l s) as Hs.
  destruct (checked_lookup _ _ _ _ Hs Hb) as (b' & Hb' & Heq). apply set_checked_fields in Heq.
  split_and!.
  - exists b'. split; [done|]. by rewrite Heq.
  - by rewrite (sbc_typed _ _ Hs).
  - exists ms. by rewrite (sbc_reports _ _ Hs).
Qed.

Section writing.
Context (l : loc) (r : list string).

Lemma writing_seq {B} (m : cmd st unit) (k : cmd st B) p n s Q :
  ensures m s (λ _, writing l r p n) → (∀ s', writing l r p n s' → ensures k s' Q) →
  ensures (m;; k) s Q.
Proof.
  intros Hm Hk. apply ensures_bind. eapply ensures_mono; [exact Hm|].
  intros [] s' Hs'. by apply Hk.
Qed.

Lemma writing_base {B} (k : ExpectationBase A → cmd st B) p n s Q :
  writing l r p n s → (∀ b, last_clause_ b = p → ensures (k b) s Q) → ensures (base_of l ≫= k) s Q.
Proof.
  intros ((b & Hb & Hp) & _) Hk. destruct (Hk b Hp) as (x & s' & Hx & HQ).
  exists x, s'. by rewrite (bind_done _ _ _ _ _ (base_of_run _ _ _ Hb)).
Qed.

Lemma writing_typed {B} (k : TypedPart Ts A → cmd st B) p n s Q :
  writing l r p n s → (∀ t, ensures (k t) s Q) → ensures (typed_of l ≫= k) s Q.
Proof.
  intros (_ & [t Ht] & _) Hk. destruct (Hk t) as (x & s' & Hx & HQ).
  exists x, s'. by rewrite (bind_done _ _ _ _ _ (typed_of_run _ _ _ Ht)).
Qed.

Lemma writing_update f p p' n s :
  (∀ b, last_clause_ b = p → last_clause_ (f b) = p') → writing l r p n s →
  ensures (update_base l f) s (λ _, writing l r p' n).
Proof.
  intros Hf ((b & Hb & Hp) & Ht & Hr). do 2 eexists. split; [by apply update_base_run|].
  split; [|done]. exists (f b). split; [apply lookup_insert_eq|by apply Hf].
Qed.

Lemma writing_put t p n s :
  writing l r p n s → ensures (modify (λ s, set_typed (<[l := t]> (typed s)) s)) s (λ _, writing l r p n).
Proof.
  intros (Hb & _ & Hr). do 2 eexists. split; [done|]. split; [done|]. split; [|done].
  cbn. rewrite lookup_insert_eq. by eexists.
Qed.

Lemma writing_check p n s :
  writing l r p n s → ensures (modify (CheckActionCountIfNotDone lib l)) s (λ _, writing l r p n).
Proof. intros Hw. do 2 eexists. split; [done|]. by apply writing_checked. Qed.

Lemma writing_add q p n s :
  writing l r p n s → ensures (modify (AddExpectation lib q l)) s (λ _, writing l r p n).
Proof.
  intros ((b & Hb & Hp) & Ht & ms & Hr & Hn). do 2 eexists. split; [done|].
  destruct (add_law q l s b Hb) as (Hr' & Ht' & es & Hes). split_and!.
  - eexists. by split; [exact Hes|].
  - by rewrite Ht'.
  - exists ms. by rewrite Hr'.
Qed.

Lemma writing_expect (q : bool) msg p n s :
  writing l r p n s →
  ensures (ExpectSpecProperty q msg) s (λ _, writing l r p (n + fault q)%nat).
Proof.
  intros (Hb & Ht & ms & Hr & Hn). destruct q; do 2 eexists; (split; [reflexivity|]).
  - rewrite Nat.add_0_r. split_and!; eauto.
  - split; [done|]. split; [done|]. exists (ms ++ [msg]). cbn.
    by rewrite Hr -assoc length_app Hn.
Qed.

Lemma writing_when (q : bool) m p n s :
  writing l r p n s → (writing l r p n s → ensures m s (λ _, writing l r p n)) →
  ensures (when q m) s (λ _, writing l r p n).
Proof. intros Hw Hm. destruct q; [by apply Hm|by do 2 eexists]. Qed.

(** A clause begins by reading the base object, and goes on step by step. *)
Ltac clause_start := eapply writing_base; [eassumption|]; intros b Hb; rewrite Hb.
Ltac clause_step step :=
  eapply writing_seq; [step|];
  match goal with Hw : writing _ _ _ _ ?s |- _ => clear s Hw end; intros ? ?.

(** The base object is updated: the last clause changes from [p] to [k]. *)
Ltac update_to p k := eapply (writing_update _ p k); [by intros ? ?|eassumption].

(** A clause reports a failure exactly when it may not follow the last one. *)
Lemma clause_run c p n s :
  writing l r p n s →
  ensures (run_clause l c) s (λ _, writing l r (kind c) (n + fault (may_follow p (kind c)))%nat).
Proof.
  intros Hw. destruct c; cbn [run_clause kind].
  - unfold With. clause_start. eapply (writing_seq _ _ p (n + fault (may_follow p kWith))%nat).
    { case_bool_decide as Hk; [rewrite Hk in Hw |- *|]; by apply writing_expect. }
    clear s Hw. intros s Hw. clause_step ltac:(update_to p kWith).
    eapply writing_typed; [done|]. intros t.
    clause_step ltac:(by apply writing_put). update_to kWith kWith.
  - unfold InSequence. clause_start. clause_step ltac:(by apply writing_expect).
    clause_step ltac:(update_to p kInSequence). by apply writing_add.
  - unfold After. clause_start. clause_step ltac:(by apply writing_expect).
    clause_step ltac:(update_to p kAfter). update_to kAfter kAfter.
  - unfold WillOnce. clause_start. clause_step ltac:(by apply writing_expect).
    clause_step ltac:(update_to p kWillOnce). clause_step ltac:(update_to kWillOnce kWillOnce).
    eapply writing_base; [done|]. intros b' _.
    apply writing_when; [done|]. intros _. update_to kWillOnce kWillOnce.
  - unfold WillRepeatedly. clause_start.
    eapply (writing_seq _ _ p (n + fault (may_follow p kWillRepeatedly))%nat).
    { case_bool_decide as Hk; [rewrite Hk in Hw |- *|]; by apply writing_expect. }
    clear s Hw. intros s Hw. clause_step ltac:(update_to p kWillRepeatedly).
    clause_step ltac:(update_to kWillRepeatedly kWillRepeatedly). eapply writing_typed; [done|]. intros t.
    clause_step ltac:(by apply writing_put). eapply writing_base; [done|]. intros b' _.
    clause_step ltac:(apply writing_when; [done|]; intros _; update_to kWillRepeatedly kWillRepeatedly).
    by apply writing_check.
  - unfold RetiresOnSaturation. clause_start. clause_step ltac:(by apply writing_expect).
    clause_step ltac:(update_to p kRetiresOnSaturation). clause_step ltac:(update_to kRetiresOnSaturation kRetiresOnSaturation).
    by apply writing_check.
Qed.

Lemma clauses_run cs p n s :
  writing l r p n s →
  ensures (run_clauses l cs) s (λ _ s', ∃ p', writing l r p' (n + misplaced p (kind <$> cs))%nat s').
Proof.
  revert p n s. induction cs as [|c cs IH]; intros p n s Hw.
  { do 2 eexists. split; [done|]. exists p. by rewrite Nat.add_0_r. }
  cbn [run_clauses]. eapply writing_seq; [by apply clause_run|].
  intros s' Hw'. eapply ensures_mono; [by eapply IH|]. intros _ s2 [p' Hp'].
  exists p'. cbn. by rewrite Nat.add_assoc.
Qed.
End writing.

(** An EXPECT_CALL statement reports one failure for each clause that may not
    follow the one before it; it reports none exactly when it has at most one With,
    then InSequence clauses, After clauses, WillOnce clauses, at most one
    WillRepeatedly and at most one RetiresOnSaturation. The statement always
    completes. *)
Theorem clause_order_checked l file line text m cs s :
  implicit_sequence s = None →
  ∃ s' ms,
    (AddNewExpectation lib l file line text m;; run_clauses l cs) s = (Done (), s') ∧
    failure_reports s' = failure_reports s ++ ms ∧
    length ms = misplaced kNone (kind <$> cs) ∧
    (ms = [] ↔ shape clause_order (kind <$> cs)).
Proof.
  intros Hq. destruct (clauses_run l (failure_reports s) cs kNone 0
    (State (untyped_on_call_specs_ s) (untyped_expectations_ s ++ [l])
     (<[l := new_base lib file line text]> (bases s)) (<[l := MkTypedPart m Matchers.A None]> (typed s))
     None (failure_reports s) (RegisterUse lib file line (rest s))))
    as ([] & s' & Hrun & p' & _ & _ & ms & Hr & Hn).
  { split_and!; cbn.
    - eexists. split; [apply lookup_insert_eq|]. by destruct (new_base_law file line text) as (?&?&?&?&?&?&?&?).
    - rewrite lookup_insert_eq. by eexists.
    - exists []. by rewrite app_nil_r. }
  cbn [Nat.add] in Hn. exists s', ms. rewrite (bind_done _ _ _ _ _ (add_new_run _ _ _ _ _ _ Hq)).
  split_and!; try done. change clause_order with (followers kNone).
  rewrite -misplaced_shape; [|by rewrite -Hn length_zero_iff_nil].
  apply Forall_fmap, Forall_true. intros []; cbn; vm_decide.
Qed.
End calls.

(** * Witnesses *)

(** A library with the documented behaviour: an expectation is in no sequence, its
    prerequisites are satisfied when their call counts are. *)
Section sample_library.
Context {A W : Type} (add_message : string → W → W).
Notation st Ts := (state Ts A unit W).

Definition sample_satisfied {Ts} (s : st Ts) (e : loc) : bool :=
  match bases s !! e with Some b => IsSatisfied b | None => true end.

Definition sample_prerequisites {Ts} (l : loc) (s : st Ts) : list loc :=
  match bases s !! l with Some b => elements (immediate_prerequisites_ b) | None => [] end.

Definition sample_library (Ts : list Type) : gmock_library Ts A unit W :=
  {| Exactly n := MkCardinality (λ c, bool_decide (c = n)) (λ c, bool_decide (n ≤ c));
     AtLeast n := MkCardinality (λ c, bool_decide (n ≤ c)) (λ _, false);
     new_base file line text :=
       MkExpectationBase file line text false
         (MkCardinality (λ c, bool_decide (c = 1)) (λ c, bool_decide (1 ≤ c)))
         ∅ 0 false [] false false false kNone false;
     UntypedTimes c l s :=
       match bases s !! l with
       | Some b => set_bases (<[l := set_cardinality c (set_last_clause kTimes b)]> (bases s)) s
       | None => s
       end;
     AddExpectation _ _ s := s;
     RetireAllPreRequisites l s :=
       foldr (λ e s, match bases s !! e with
                     | Some b => set_bases (<[e := set_retired true b]> (bases s)) s
                     | None => s end) s (sample_prerequisites l s);
     AllPrerequisitesAreSatisfied l s := forallb (sample_satisfied s) (sample_prerequisites l s);
     FindUnsatisfiedPrerequisites l s :=
       List.filter (λ e, negb (sample_satisfied s e)) (sample_prerequisites l s);
     CheckActionCountIfNotDone l s :=
       match bases s !! l with
       | Some b => set_bases (<[l := set_checked true b]> (bases s)) s
       | None => s
       end;
     DescribeCallCountTo l s := EmptyString;
     FormatFileLocation file line := file +:+ ":" +:+ pretty line +:+ ":";
     Log := add_message;
     RegisterUse _ _ log := log |}.

Lemma retire_one {Ts} (e : loc) (s : st Ts) :
  same_calls s (match bases s !! e with
                | Some b => set_bases (<[e := set_retired true b]> (bases s)) s
                | None => s end).
Proof.
  destruct (bases s !! e) as [b|] eqn:He; [|done].
  constructor; try done. cbn. rewrite fmap_insert. apply insert_id. by rewrite lookup_fmap He.
Qed.

Lemma sample_satisfied_same {Ts} (s s' : st Ts) e :
  same_calls s s' → sample_satisfied s' e = sample_satisfied s e.
Proof.
  intros [_ _ Hb _ _ _]. apply (f_equal (lookup e)) in Hb. rewrite !lookup_fmap in Hb.
  apply (f_equal (fmap IsSatisfied)) in Hb. unfold sample_satisfied.
  destruct (bases s' !! e), (bases s !! e); try done. by injection Hb.
Qed.

Lemma sample_prerequisites_same {Ts} (s s' : st Ts) l :
  same_calls s s' → sample_prerequisites l s' = sample_prerequisites l s.
Proof.
  intros [_ _ Hb _ _ _]. apply (f_equal (lookup l)) in Hb. rewrite !lookup_fmap in Hb.
  apply (f_equal (fmap immediate_prerequisites_)) in Hb. unfold sample_prerequisites.
  destruct (bases s' !! l), (bases s !! l); try done. by injection Hb as ->.
Qed.

Lemma sample_no_prerequisites {Ts} l (s : st Ts) b :
  bases s !! l = Some b → immediate_prerequisites_ b = ∅ → sample_prerequisites l s = [].
Proof. intros Hb Hp. unfold sample_prerequisites. by rewrite Hb Hp. Qed.

Lemma add_no_prerequisites {X} (b : ExpectationBase X) : add_prerequisites ∅ b = b.
Proof. destruct b. unfold add_prerequisites. cbn. f_equal. set_solver. Qed.

#[export] Instance sample_laws Ts : GMockLaws (sample_library Ts).
Proof.
  constructor; cbn.
  - done.
  - done.
  - done.
  - intros l s. destruct (bases s !! l) as [b|] eqn:Hb; [|done]. constructor; try done. cbn.
    rewrite fmap_insert. apply insert_id. by rewrite lookup_fmap Hb.
  - intros _ l s b Hb. split_and!; try done. exists ∅. by rewrite add_no_prerequisites.
  - intros l s. induction (sample_prerequisites l s) as [|e es IH]; cbn; [done|].
    etrans; [exact IH|]. apply retire_one.
  - intros l s b Hb Hp. by rewrite (sample_no_prerequisites l s b).
  - intros l s s' Hs. rewrite (sample_prerequisites_same s s') //.
    induction (sample_prerequisites l s) as [|e es IH]; cbn; [done|].
    by rewrite IH (sample_satisfied_same s s').
  - intros l s e He. apply list_elem_of_In, List.filter_In in He as [_ He].
    unfold sample_satisfied in He. by destruct (bases s !! e).
  - intros l s b Hb Hp. by rewrite (sample_no_prerequisites l s b).
Qed.

End sample_library.

Section sample.
Notation st Ts := (state Ts Z unit (list string)).

(** A mock function int(int) with EXPECT_CALL(f(_)).WillOnce(10) at address 1 and
    EXPECT_CALL(f(5)).WillOnce(20) at address 2, and ON_CALL(f(Gt(0))). *)
Definition int_type : Type := Z.
Definition sample_args : list Type := [int_type].
Definition sample_lib := sample_library (A:=Z) (λ message log, log ++ [message]) sample_args.
Definition print_arg : printers sample_args := (print_int, ()).
Definition arg (z : Z) : tuple sample_args := (z, ()).
Definition any_int : matcher_tuple sample_args := (Matchers.A, ()).
Definition eq_5 : matcher_tuple sample_args := (EqMatcher print_int 5, ()).
Definition positive : matcher_tuple sample_args := (GtMatcher print_int 0, ()).

Definition on_positive : OnCallSpec sample_args Z :=
  MkOnCallSpec "t.cc" 9 oc_kWillByDefault positive Matchers.A (Some 0).

Definition no_expectations : st sample_args := State [on_positive] [] ∅ ∅ None [] [].

Definition two_expectations : st sample_args :=
  snd ((statement sample_lib 1 "t.cc" 10 "f(_)" any_int [Some 10] None;;
        statement sample_lib 2 "t.cc" 11 "f(5)" eq_5 [Some 20] None) no_expectations).

Lemma two_expectations_alive : Forall (alive two_expectations) (untyped_expectations_ two_expectations).
Proof.
  change (untyped_expectations_ two_expectations) with [1; 2].
  rewrite Forall_cons Forall_singleton.
  split; (split; [vm_compute; by eexists|vm_compute; by eexists]).
Defined.

Lemma last_declared_handles_witness :
  FindOnCallSpec (arg 3) two_expectations = Some on_positive ∧
  (∃ what why s', UntypedFindMatchingExpectation sample_lib print_arg false (arg 5) two_expectations =
     (Done (Some (2, Some 20, false), what, why), s') ∧ calls_of s' 2 = Some 1) ∧
  (∃ what why s', UntypedFindMatchingExpectation sample_lib print_arg false (arg 4) two_expectations =
     (Done (Some (1, Some 10, false), what, why), s') ∧ calls_of s' 1 = Some 1).
Proof.
  split_and!.
  - apply (last_declared_handles sample_lib print_arg false two_expectations (arg 3)
      two_expectations_alive) with (before := []) (after := []); [reflexivity..|constructor].
  - destruct (proj1 (proj2 (last_declared_handles sample_lib print_arg false two_expectations (arg 5)
      two_expectations_alive)) [1] 2 [] _ _ eq_refl eq_refl (Forall_nil_2 _) eq_refl eq_refl)
      as (what & why & s' & H & Hc & _); [repeat split; by vm_compute|].
    exists what, why, s'. split; [exact H|exact Hc].
  - destruct (proj1 (proj2 (last_declared_handles sample_lib print_arg false two_expectations (arg 4)
      two_expectations_alive)) [] 1 [2] _ _ eq_refl eq_refl ltac:(constructor; [reflexivity|constructor])
      eq_refl eq_refl) as (what & why & s' & H & Hc & _); [repeat split; by vm_compute|].
    exists what, why, s'. split; [exact H|exact Hc].
Defined.

Lemma will_once_in_order_witness :
  ∃ results s',
    (statement sample_lib 2 "t.cc" 11 "f(5)" eq_5 [Some 20; None] None;;
     mapM (UntypedFindMatchingExpectation sample_lib print_arg false) [(arg 5); (arg 5); (arg 5)])
      no_expectations = (Done results, s') ∧
    (λ r, r.1.1) <$> results = [Some (2, Some 20, false); Some (2, None, false); Some (2, None, true)].
Proof.
  apply (will_once_in_order sample_lib print_arg false 2 "t.cc" 11 "f(5)" eq_5 [Some 20; None] None
    [(arg 5); (arg 5); (arg 5)] no_expectations).
  - reflexivity.
  - constructor.
  - by left.
  - by vm_compute.
  - by vm_compute.
  - by repeat constructor.
Defined.

Lemma clause_order_checked_witness :
  ∃ s' ms,
    (AddNewExpectation sample_lib 2 "t.cc" 11 "f(5)" eq_5;;
     run_clauses sample_lib 2 [CWith Matchers.A; CWillOnce (Some 20); CAfter {[1]}; CRetiresOnSaturation;
                               CRetiresOnSaturation]) no_expectations = (Done (), s') ∧
    failure_reports s' = ms ∧ length ms = 2%nat ∧ ms ≠ [].
Proof.
  destruct (clause_order_checked sample_lib 2 "t.cc" 11 "f(5)" eq_5
    [CWith Matchers.A; CWillOnce (Some 20); CAfter {[1]}; CRetiresOnSaturation; CRetiresOnSaturation]
    no_expectations eq_refl) as (s' & ms & Hrun & Hr & Hn & _).
  exists s', ms. split_and!; [exact Hrun|exact Hr|exact Hn|by intros ->].
Defined.
End sample.
