(* ===== verification/DefaultValues.v ===== *)
(** Default values of return types: BuiltInDefaultValue with its specializations, and
    DefaultValue for values, for references and for void
    (src/gtest/include/gmock/gmock-actions.h).

    Each type has a static pointer to the producer of its default value, an object on the
    heap. A producer may be a function of the user, which may change the default values,
    its own too, while it runs. Assert with a false condition aborts, as the comment of
    gmock-internal-utils.h says. *)

From stdpp Require Import functions.
From S2P Require Import Prelude SpecBuilders Mem.
#[local] Open Scope Z_scope.

(** * Types *)

(** The types with a specialization of their own; ::string is std::string or has the same. *)
Inductive builtin : Set :=
  | StdString | Bool | UnsignedChar | SignedChar | Char | WChar
  | UnsignedShort | SignedShort | UnsignedInt | SignedInt | UnsignedLong | SignedLong
  | UInt64 | Int64 | Float | Double.

(** The classes of the user, whose objects have a type; the default constructor of a class
    that has one makes an object. *)
Class UserClasses : Type := {
  user_class : Type;
  user_class_eq :: EqDecision user_class;
  user_object : Type;
  default_object : user_class → option user_object;
}.

#[export] Instance builtin_eq : EqDecision builtin.
Proof. solve_decision. Defined.

Section default_values.
Context `{Malloc, UC : UserClasses}.

Inductive type : Type :=
  | Builtin (b : builtin)
  | Pointer (T : string)
  | UserClass (c : user_class)
  | Const (T : type).

#[export] Instance type_eq : EqDecision type.
Proof. solve_decision. Defined.

(** A floating-point number is its bits. *)
Inductive value : Type :=
  | VString (s : string) | VBool (b : bool) | VInt (z : Z) | VFloat (bits : Z)
  | VPointer (p : ptr) | VObject (o : user_object).

(** * State *)

(** What a program asks of the class; a FactoryFunction is a pointer to one of the
    functions of the program. *)
Inductive op : Type :=
  | SetValue (T : type) (x : value) | SetFactoryOf (T : type) (factory : nat)
  | ClearValue (T : type) | IsSetValue (T : type) | ExistsValue (T : type) | GetValue (T : type)
  | SetReference (T : type) (x : loc) | ClearReference (T : type)
  | IsSetReference (T : type) | ExistsReference (T : type) | GetReference (T : type)
  | ExistsVoid | GetVoid.

Inductive answer : Type :=
  | Nothing
  | Truth (b : bool)
  | GotValue (x : value)
  | GotReference (x : loc).

(** The code of a function: it asks, and returns a value. *)
Inductive user_code : Type :=
  | Return (x : value)
  | Ask (o : op) (k : answer → user_code).

Inductive producer : Type :=
  | FixedValueProducer (value_ : value)
  | FactoryValueProducer (factory_ : nat).

(** The heap, DefaultValue<T>::producer_ and DefaultValue<T&>::address_. *)
Record env : Type := Env {
  heap : mem producer;
  producer_ : type → ptr;
  address_ : type → ptr;
}.

(** Whether the library has <type_traits>, and the functions of the program. *)
Context (has_std_type_traits : bool) (functions : nat → user_code).

(** * Built-in default values *)

Definition builtin_value (b : builtin) : value :=
  match b with
  | StdString => VString EmptyString
  | Bool => VBool false
  | Float | Double => VFloat 0
  | _ => VInt 0
  end.

(** BuiltInDefaultValueGetter<T, kDefaultConstructible>::Get(): T() or a failed Assert. *)
Definition BuiltInDefaultValueGetter (o : option user_object) : cmd env value :=
  match o with Some x => mret (VObject x) | None => abort end.

Fixpoint BuiltInDefaultValue_Exists (T : type) : bool :=
  match T with
  | Builtin _ | Pointer _ => true
  | UserClass c => has_std_type_traits && bool_decide (is_Some (default_object c))
  | Const T => BuiltInDefaultValue_Exists T
  end.

Fixpoint BuiltInDefaultValue_Get (T : type) : cmd env value :=
  match T with
  | Builtin b => mret (builtin_value b)
  | Pointer _ => mret (VPointer NULL)
  | UserClass c => BuiltInDefaultValueGetter (if has_std_type_traits then default_object c else None)
  | Const T => BuiltInDefaultValue_Get T
  end.

(** A reference type is none of the specializations and has no default constructor. *)
Definition BuiltInDefaultValue_reference_Exists : bool := false.
Definition BuiltInDefaultValue_reference_Get : cmd env loc := abort.

(** * DefaultValue<T> *)

Definition on_heap {A} (m : cmd (mem producer) A) : cmd env A := zoom heap (λ h e, Env h (producer_ e) (address_ e)) m.

Definition set_producer (T : type) (p : ptr) : cmd env unit :=
  modify (λ e, Env (heap e) (<[T := p]> (producer_ e)) (address_ e)).

(** new; the program ends when there is no memory. *)
Definition new_producer (x : producer) : cmd env ptr :=
  p ← on_heap (malloc x); if p is Some _ then mret p else abort.

Definition DefaultValue_Set (T : type) (x : value) : cmd env unit :=
  old ← gets (λ e, producer_ e T); on_heap (free old);;
  p ← new_producer (FixedValueProducer x); set_producer T p.

Definition DefaultValue_SetFactory (T : type) (factory : nat) : cmd env unit :=
  old ← gets (λ e, producer_ e T); on_heap (free old);;
  p ← new_producer (FactoryValueProducer factory); set_producer T p.

Definition DefaultValue_Clear (T : type) : cmd env unit :=
  old ← gets (λ e, producer_ e T); on_heap (free old);; set_producer T NULL.

Definition DefaultValue_IsSet (T : type) : cmd env bool :=
  p ← gets (λ e, producer_ e T); mret (bool_decide (p ≠ NULL)).

Definition DefaultValue_Exists (T : type) : cmd env bool :=
  b ← DefaultValue_IsSet T; mret (b || BuiltInDefaultValue_Exists T).

(** [call] runs a function of the program. *)
Definition Produce_ (call : nat → cmd env value) (p : ptr) : cmd env value :=
  x ← on_heap (load p);
  match x with FixedValueProducer x => mret x | FactoryValueProducer f => call f end.

Definition DefaultValue_Get (call : nat → cmd env value) (T : type) : cmd env value :=
  p ← gets (λ e, producer_ e T);
  if bool_decide (p = NULL) then BuiltInDefaultValue_Get T else Produce_ call p.

(** * DefaultValue<T&> *)

Definition set_address (T : type) (p : ptr) : cmd env unit :=
  modify (λ e, Env (heap e) (producer_ e) (<[T := p]> (address_ e))).

Definition DefaultValueRef_Set (T : type) (x : loc) : cmd env unit := set_address T (Some x).
Definition DefaultValueRef_Clear (T : type) : cmd env unit := set_address T NULL.
Definition DefaultValueRef_IsSet (T : type) : cmd env bool :=
  p ← gets (λ e, address_ e T); mret (bool_decide (p ≠ NULL)).
Definition DefaultValueRef_Exists (T : type) : cmd env bool :=
  b ← DefaultValueRef_IsSet T; mret (b || BuiltInDefaultValue_reference_Exists).
Definition DefaultValueRef_Get (T : type) : cmd env loc :=
  p ← gets (λ e, address_ e T);
  match p with None => BuiltInDefaultValue_reference_Get | Some x => mret x end.

(** * DefaultValue<void> *)

Definition DefaultValueVoid_Exists : cmd env bool := mret true.
Definition DefaultValueVoid_Get : cmd env unit := mret ().

(** * Programs *)

Definition run_op (call : nat → cmd env value) (o : op) : cmd env answer :=
  match o with
  | SetValue T x => DefaultValue_Set T x;; mret Nothing
  | SetFactoryOf T f => DefaultValue_SetFactory T f;; mret Nothing
  | ClearValue T => DefaultValue_Clear T;; mret Nothing
  | IsSetValue T => b ← DefaultValue_IsSet T; mret (Truth b)
  | ExistsValue T => b ← DefaultValue_Exists T; mret (Truth b)
  | GetValue T => x ← DefaultValue_Get call T; mret (GotValue x)
  | SetReference T x => DefaultValueRef_Set T x;; mret Nothing
  | ClearReference T => DefaultValueRef_Clear T;; mret Nothing
  | IsSetReference T => b ← DefaultValueRef_IsSet T; mret (Truth b)
  | ExistsReference T => b ← DefaultValueRef_Exists T; mret (Truth b)
  | GetReference T => x ← DefaultValueRef_Get T; mret (GotReference x)
  | ExistsVoid => b ← DefaultValueVoid_Exists; mret (Truth b)
  | GetVoid => DefaultValueVoid_Get;; mret Nothing
  end.

Fixpoint run_code {S : Type} (ask : op → cmd S answer) (u : user_code) : cmd S value :=
  match u with
  | Return x => mret x
  | Ask o k => a ← ask o; run_code ask (k a)
  end.

(** Functions that call each other through Get may not end: the fuel is the depth of the
    calls. *)
Fixpoint call_function (fuel : nat) (f : nat) : cmd env value :=
  match fuel with
  | O => unfinished
  | S fuel => run_code (run_op (call_function fuel)) (functions f)
  end.

(** * What the default values are *)

(** The producers and the references that are set, by type. *)
Record meaning : Type := Meaning {
  producers : type → option producer;
  references : type → option loc;
}.

Fixpoint builtin_default (T : type) : option value :=
  match T with
  | Builtin b => Some (builtin_value b)
  | Pointer _ => Some (VPointer NULL)
  | UserClass c => if has_std_type_traits then VObject <$> default_object c else None
  | Const T => builtin_default T
  end.

(** The DefaultValue of SpecBuilders.v for a type. *)
Definition view (call : nat → cmd meaning value) (m : meaning) (T : type) :
    SpecBuilders.DefaultValue (W:=meaning) (Result:=value) :=
  SpecBuilders.MkDefaultValue
    ((λ p, match p with
           | FixedValueProducer x => SpecBuilders.FixedValueProducer x
           | FactoryValueProducer f => SpecBuilders.FactoryValueProducer (call f)
           end) <$> producers m T)
    (builtin_default T).

Definition set_meaning (T : type) (p : option producer) : cmd meaning unit :=
  modify (λ m, Meaning (<[T := p]> (producers m)) (references m)).
Definition set_reference (T : type) (p : option loc) : cmd meaning unit :=
  modify (λ m, Meaning (producers m) (<[T := p]> (references m))).

Definition spec_op (call : nat → cmd meaning value) (o : op) : cmd meaning answer :=
  m ← get;
  match o with
  | SetValue T x => set_meaning T (Some (FixedValueProducer x));; mret Nothing
  | SetFactoryOf T f => set_meaning T (Some (FactoryValueProducer f));; mret Nothing
  | ClearValue T => set_meaning T None;; mret Nothing
  | IsSetValue T => mret (Truth (SpecBuilders.IsSet (view call m T)))
  | ExistsValue T => mret (Truth (SpecBuilders.Exists (view call m T)))
  | GetValue T => x ← SpecBuilders.Get (view call m T); mret (GotValue x)
  | SetReference T x => set_reference T (Some x);; mret Nothing
  | ClearReference T => set_reference T None;; mret Nothing
  | IsSetReference T | ExistsReference T => mret (Truth (bool_decide (is_Some (references m T))))
  | GetReference T => if references m T is Some x then mret (GotReference x) else abort
  | ExistsVoid => mret (Truth true)
  | GetVoid => mret Nothing
  end.

Fixpoint spec_call (fuel : nat) (f : nat) : cmd meaning value :=
  match fuel with
  | O => unfinished
  | S fuel => run_code (spec_op (spec_call fuel)) (functions f)
  end.

(** ** The heap holds the producers *)

(** Each type that is set has its producer, an object of its own, and there is nothing
    else. *)
Record stored (e : env) (m : meaning) : Prop := Stored {
  stored_none T : producer_ e T = NULL → producers m T = None;
  stored_some T l : producer_ e T = Some l → ∃ p, cells (heap e) !! l = Some p ∧ producers m T = Some p;
  stored_own T U l : producer_ e T = Some l → producer_ e U = Some l → T = U;
  stored_all l : is_Some (cells (heap e) !! l) → ∃ T, producer_ e T = Some l;
  stored_address T : address_ e T = references m T;
}.

Definition start : env := Env empty_mem (λ _, NULL) (λ _, NULL).
Definition nothing_set : meaning := Meaning (λ _, None) (λ _, None).

Lemma stored_start : stored start nothing_set.
Proof. split; try done. intros l [p Hp]. cbn in Hp. by rewrite lookup_empty in Hp. Qed.

(** The same outcome, and the heap holds the producers. *)
Definition agree {A} (x : outcome A * env) (y : outcome A * meaning) : Prop := x.1 = y.1 ∧ stored x.2 y.2.

Lemma agree_ret {A} (a : A) e m : stored e m → agree ((mret a : cmd env A) e) ((mret a : cmd meaning A) m).
Proof. by split. Qed.

Lemma agree_bind {A B} (c : cmd env A) (d : cmd meaning A) (k : A → cmd env B) (j : A → cmd meaning B) e m :
  agree (c e) (d m) → (∀ a e m, stored e m → agree (k a e) (j a m)) → agree ((c ≫= k) e) ((d ≫= j) m).
Proof.
  intros [Ho Hs] Hk. unfold mbind, cmd_bind. destruct (c e) as [o e'], (d m) as [o' m']. cbn in *. subst o'.
  destruct o as [a| | | | |]; [by apply Hk|..]; by split.
Qed.

Context (memory_total : malloc_total).

Lemma load_producer e l p : cells (heap e) !! l = Some p → on_heap (load (Some l)) e = (Done p, e).
Proof.
  intros Hl. unfold on_heap, zoom. rewrite (load_live _ _ _ Hl). by destruct e.
Qed.

(** delete of the producer of a type. *)
Definition without (T : type) (e : env) : env :=
  Env (Mem (match producer_ e T with Some l => delete l (cells (heap e)) | None => cells (heap e) end) (calls (heap e)))
    (producer_ e) (address_ e).

Lemma delete_producer T e m : stored e m → on_heap (free (producer_ e T)) e = (Done (), without T e).
Proof.
  intros Hs. unfold without, on_heap, zoom. destruct (producer_ e T) as [l|] eqn:Hl.
  - destruct (stored_some _ _ Hs T l Hl) as (p & Hp & _). by rewrite (free_live _ _ _ Hp).
  - by destruct e as [[]].
Qed.

(** The objects that are left belong to the other types. *)
Lemma without_cells T e m l : stored e m →
  cells (heap (without T e)) !! l = if bool_decide (producer_ e T = Some l) then None else cells (heap e) !! l.
Proof.
  intros Hs. unfold without. cbn. destruct (producer_ e T) as [l'|] eqn:Hl; [|done].
  case_bool_decide as Hd; [injection Hd as ->; by rewrite lookup_delete_eq|].
  rewrite lookup_delete_ne //. congruence.
Qed.

Lemma clear_stored T e m : stored e m →
  stored (Env (heap (without T e)) (<[T := NULL]> (producer_ e)) (address_ e))
    (Meaning (<[T := None]> (producers m)) (references m)).
Proof.
  intros Hs. pose proof (λ l, without_cells T e m l Hs) as Hc. split; cbn [producer_ heap address_ producers references].
  - intros U. destruct (decide (T = U)) as [<-|Hne]; [by rewrite !fn_lookup_insert|].
    rewrite !fn_lookup_insert_ne //. apply (stored_none _ _ Hs).
  - intros U l. destruct (decide (T = U)) as [<-|Hne]; [by rewrite !fn_lookup_insert|].
    rewrite !fn_lookup_insert_ne //. intros Hl. destruct (stored_some _ _ Hs U l Hl) as (p & Hp & Hm). exists p.
    split; [|done]. rewrite Hc bool_decide_false //. intros Ht. by destruct Hne; eapply (stored_own _ _ Hs).
  - intros U V l. destruct (decide (T = U)) as [<-|HU]; [by rewrite !fn_lookup_insert|].
    destruct (decide (T = V)) as [<-|HV]; [by rewrite (fn_lookup_insert _ T)|].
    rewrite !fn_lookup_insert_ne //. apply (stored_own _ _ Hs).
  - intros l. rewrite Hc. case_bool_decide as Hd; [by intros [? ?]|]. intros (U & HU)%(stored_all _ _ Hs).
    exists U. rewrite fn_lookup_insert_ne //. by intros <-.
  - apply (stored_address _ _ Hs).
Qed.

Lemma Clear_agrees T e m : stored e m → agree (DefaultValue_Clear T e) (set_meaning T None m).
Proof.
  intros Hs. unfold DefaultValue_Clear.
  rewrite (bind_done _ _ _ _ _ (eq_refl : gets (λ e, producer_ e T) e = (Done (producer_ e T), e))).
  rewrite (bind_done _ _ _ _ _ (delete_producer T e m Hs)). split; [done|]. exact (clear_stored T e m Hs).
Qed.

(** A new producer for a type that has none. *)
Lemma new_stored T p e m l n : stored e m → producer_ e T = NULL → cells (heap e) !! l = None →
  stored (Env (Mem (<[l := p]> (cells (heap e))) n) (<[T := Some l]> (producer_ e)) (address_ e))
    (Meaning (<[T := Some p]> (producers m)) (references m)).
Proof.
  intros Hs HT Hl.
  assert (∀ U k, producer_ e U = Some k → k ≠ l) as Hne.
  { intros U k HU ->. destruct (stored_some _ _ Hs U l HU) as (q & Hq & _). congruence. }
  split; cbn [producer_ heap address_ producers references cells].
  - intros U. destruct (decide (T = U)) as [<-|HU]; [by rewrite !fn_lookup_insert|].
    rewrite !fn_lookup_insert_ne //. apply (stored_none _ _ Hs).
  - intros U k. destruct (decide (T = U)) as [<-|HU].
    + rewrite !fn_lookup_insert. intros [= <-]. exists p. by rewrite lookup_insert_eq.
    + rewrite !fn_lookup_insert_ne //. intros Hk. rewrite lookup_insert_ne; [by apply not_eq_sym, (Hne U)|].
      by apply (stored_some _ _ Hs).
  - intros U V k. destruct (decide (T = U)) as [<-|HU], (decide (T = V)) as [<-|HV]; try done.
    + rewrite fn_lookup_insert fn_lookup_insert_ne //. intros [= <-] HV'. by destruct (Hne V l).
    + rewrite (fn_lookup_insert _ T) fn_lookup_insert_ne //. intros HU' [= <-]. by destruct (Hne U l).
    + rewrite !fn_lookup_insert_ne //. apply (stored_own _ _ Hs).
  - intros k. destruct (decide (l = k)) as [<-|Hk].
    + intros _. exists T. by rewrite fn_lookup_insert.
    + rewrite lookup_insert_ne //. intros (U & HU)%(stored_all _ _ Hs). exists U.
      rewrite fn_lookup_insert_ne //. intros <-. congruence.
  - apply (stored_address _ _ Hs).
Qed.

Lemma stored_ext e m P Q : stored e m → (∀ T, P T = producer_ e T) → (∀ T, Q T = producers m T) →
  stored (Env (heap e) P (address_ e)) (Meaning Q (references m)).
Proof.
  intros Hs HP HQ. split; cbn.
  - intros T. rewrite HP HQ. apply (stored_none _ _ Hs).
  - intros T l. rewrite HP HQ. apply (stored_some _ _ Hs).
  - intros T U l. rewrite !HP. apply (stored_own _ _ Hs).
  - intros l (T & HT)%(stored_all _ _ Hs). exists T. by rewrite HP.
  - apply (stored_address _ _ Hs).
Qed.

Lemma insert_twice {A} (f : type → A) T a b U : (<[T := b]> f) U = (<[T := b]> (<[T := a]> f)) U.
Proof.
  destruct (decide (T = U)) as [<-|HU]; [by rewrite !fn_lookup_insert|by rewrite !fn_lookup_insert_ne].
Qed.

(** Set and SetFactory, which differ in the producer. *)
Lemma replace_agrees T p e m : stored e m →
  agree ((old ← gets (λ e, producer_ e T); on_heap (free old);; p ← new_producer p; set_producer T p) e)
    (set_meaning T (Some p) m).
Proof.
  intros Hs. rewrite (bind_done _ _ _ _ _ (eq_refl : gets (λ e, producer_ e T) e = (Done (producer_ e T), e))).
  rewrite (bind_done _ _ _ _ _ (delete_producer T e m Hs)). pose proof (clear_stored T e m Hs) as H0.
  destruct (malloc_new p (heap (without T e)) memory_total) as (l & Hl & Hm).
  pose proof (new_stored T p _ _ l (S (calls (heap (without T e)))) H0 (fn_lookup_insert _ T NULL) Hl) as H1.
  unfold new_producer, on_heap. rewrite bind_assoc.
  rewrite (bind_done _ _ _ _ _ (zoom_done heap (λ h e, Env h (producer_ e) (address_ e)) _ _ _ _ Hm)) bind_ret_l.
  split; [done|]. apply (stored_ext _ _ _ _ H1); intros U; apply insert_twice.
Qed.

(** ** The built-in values *)

Lemma Exists_builtin T : BuiltInDefaultValue_Exists T = bool_decide (is_Some (builtin_default T)).
Proof.
  induction T as [b|s|c|T IH]; [done..| |exact IH]. cbn. destruct has_std_type_traits; [|done].
  destruct (default_object c); done.
Qed.

Lemma Get_builtin T e :
  BuiltInDefaultValue_Get T e = match builtin_default T with Some x => (Done x, e) | None => (Aborted, e) end.
Proof.
  induction T as [b|s|c|T IH]; [done..| |exact IH]. cbn. destruct has_std_type_traits; [|done].
  by destruct (default_object c).
Qed.

(** ** Operations *)

Section calls.
Context (call : nat → cmd env value) (call' : nat → cmd meaning value).
Context (calls_agree : ∀ f e m, stored e m → agree (call f e) (call' f m)).

Lemma IsSet_view T e m : stored e m → bool_decide (producer_ e T ≠ NULL) = SpecBuilders.IsSet (view call' m T).
Proof.
  intros Hs. unfold SpecBuilders.IsSet. cbn. apply bool_decide_ext. destruct (producer_ e T) as [l|] eqn:Hl.
  - destruct (stored_some _ _ Hs T l Hl) as (p & _ & ->). by split.
  - rewrite (stored_none _ _ Hs T Hl). split; [done|by intros [? ?]].
Qed.

Lemma Exists_view T e m : stored e m →
  bool_decide (producer_ e T ≠ NULL) || BuiltInDefaultValue_Exists T = SpecBuilders.Exists (view call' m T).
Proof. intros Hs. unfold SpecBuilders.Exists. by rewrite (IsSet_view _ _ _ Hs) Exists_builtin. Qed.

Lemma Get_agrees T e m : stored e m → agree (DefaultValue_Get call T e) (SpecBuilders.Get (view call' m T) m).
Proof.
  intros Hs. unfold DefaultValue_Get.
  rewrite (bind_done _ _ _ _ _ (eq_refl : gets (λ e, producer_ e T) e = (Done (producer_ e T), e))).
  unfold SpecBuilders.Get, view. cbn. destruct (producer_ e T) as [l|] eqn:Hl.
  - destruct (stored_some _ _ Hs T l Hl) as (p & Hp & ->). cbn. unfold Produce_.
    rewrite (bind_done _ _ _ _ _ (load_producer _ _ _ Hp)). destruct p as [x|f]; [by split|by apply calls_agree].
  - rewrite (stored_none _ _ Hs T Hl). cbn. rewrite Get_builtin. by destruct (builtin_default T).
Qed.

Lemma reference_stored T p e m : stored e m →
  stored (Env (heap e) (producer_ e) (<[T := p]> (address_ e))) (Meaning (producers m) (<[T := p]> (references m))).
Proof.
  intros []. split; cbn; auto. intros U. destruct (decide (T = U)) as [<-|HU]; [by rewrite !fn_lookup_insert|].
  by rewrite !fn_lookup_insert_ne.
Qed.

Lemma reference_answer T e m : stored e m →
  Done (Truth (bool_decide (address_ e T ≠ NULL))) = Done (Truth (bool_decide (is_Some (references m T)))).
Proof.
  intros Hs. rewrite (stored_address _ _ Hs). do 2 f_equal. apply bool_decide_ext.
  by destruct (references m T) as [l|]; split; try done; intros [? ?].
Qed.

Lemma op_agrees o e m : stored e m → agree (run_op call o e) (spec_op call' o m).
Proof.
  intros Hs. unfold spec_op. rewrite (bind_done _ _ _ _ _ (eq_refl : get m = (Done m, m))).
  destruct o; cbn [run_op].
  - apply agree_bind; [by apply replace_agrees|]. intros. by apply agree_ret.
  - apply agree_bind; [by apply replace_agrees|]. intros. by apply agree_ret.
  - apply agree_bind; [by apply Clear_agrees|]. intros. by apply agree_ret.
  - split; [|done]. change (Done (Truth (bool_decide (producer_ e T ≠ NULL))) = Done (Truth (SpecBuilders.IsSet (view call' m T)))).
    by rewrite (IsSet_view _ _ _ Hs).
  - split; [|done]. change (Done (Truth (bool_decide (producer_ e T ≠ NULL) || BuiltInDefaultValue_Exists T)) =
      Done (Truth (SpecBuilders.Exists (view call' m T)))). by rewrite (Exists_view _ _ _ Hs).
  - apply agree_bind; [by apply Get_agrees|]. intros. by apply agree_ret.
  - split; [done|]. by apply reference_stored.
  - split; [done|]. by apply reference_stored.
  - split; [|done]. by apply reference_answer.
  - split; [|done]. etrans; [|by apply (reference_answer T e m)].
    change (Done (Truth (bool_decide (address_ e T ≠ NULL) || false)) = Done (Truth (bool_decide (address_ e T ≠ NULL)))).
    by rewrite orb_false_r.
  - unfold DefaultValueRef_Get. rewrite bind_assoc.
    rewrite (bind_done _ _ _ _ _ (eq_refl : gets (λ e, address_ e T) e = (Done (address_ e T), e))).
    rewrite (stored_address _ _ Hs). by destruct (references m T).
  - by split.
  - by split.
Qed.

Lemma code_agrees u e m : stored e m → agree (run_code (run_op call) u e) (run_code (spec_op call') u m).
Proof.
  revert e m. induction u as [x|o k IH]; intros e m Hs; [by apply agree_ret|]. cbn [run_code].
  apply agree_bind; [by apply op_agrees|]. intros a e' m' Hs'. by apply IH.
Qed.
End calls.

Lemma functions_agree fuel f e m : stored e m → agree (call_function fuel f e) (spec_call fuel f m).
Proof.
  revert f e m. induction fuel as [|fuel IH]; intros f e m Hs; [by split|]. cbn [call_function spec_call].
  by apply code_agrees.
Qed.

(** ** What does not happen *)

(** The outcome is the undefined behaviour [w], or it has run out of fuel. *)
Definition goes_wrong {A} (w : option ub) (o : outcome A) : Prop :=
  match w, o with
  | Some w, Undefined w' => w = w'
  | None, Unfinished => True
  | _, _ => False
  end.

Lemma bind_avoids {A B} w (c : cmd meaning A) (k : A → cmd meaning B) m :
  ¬ goes_wrong w (c m).1 → (∀ a m, ¬ goes_wrong w (k a m).1) → ¬ goes_wrong w ((c ≫= k) m).1.
Proof.
  intros Hc Hk. unfold mbind, cmd_bind. destruct (c m) as [o m']. cbn in Hc. destruct o; [apply Hk|..]; exact Hc.
Qed.

Lemma ret_avoids {A} w (a : A) m : ¬ goes_wrong w ((mret a : cmd meaning A) m).1.
Proof. destruct w; intros []. Qed.

(** The function asks for no default value. *)
Fixpoint no_get (u : user_code) : Prop :=
  match u with
  | Return _ => True
  | Ask o k => (∀ T, o ≠ GetValue T) ∧ ∀ a, no_get (k a)
  end.

Lemma op_avoids w call' o m :
  (∀ f m, ¬ goes_wrong w (call' f m).1) ∨ (∀ T, o ≠ GetValue T) → ¬ goes_wrong w (spec_op call' o m).1.
Proof.
  intros Hcall. unfold spec_op. rewrite (bind_done _ _ _ _ _ (eq_refl : get m = (Done m, m))).
  destruct o as [T x|T f|T|T|T|T|T x|T|T|T|T| |]; try (destruct w; intros []).
  - destruct Hcall as [Hcall|Hcall]; [|by destruct (Hcall T)].
    apply (bind_avoids w); [|intros; apply ret_avoids]. unfold SpecBuilders.Get, view. cbn.
    destruct (producers m T) as [[x|f]|]; cbn; [apply (ret_avoids w x m)|apply Hcall|].
    destruct (builtin_default T) as [x|]; [apply (ret_avoids w x m)|destruct w; intros []].
  - destruct (references m T); destruct w; intros [].
Qed.

Lemma code_avoids w call' u m :
  (∀ f m, ¬ goes_wrong w (call' f m).1) ∨ no_get u → ¬ goes_wrong w (run_code (spec_op call') u m).1.
Proof.
  revert m. induction u as [x|o k IH]; intros m Hcall; [apply ret_avoids|]. cbn [run_code].
  apply bind_avoids; [apply op_avoids|intros a m'; apply IH]; cbn in Hcall; naive_solver.
Qed.

Lemma call_defined w fuel f m : ¬ goes_wrong (Some w) (spec_call fuel f m).1.
Proof.
  revert f m. induction fuel as [|fuel IH]; intros f m; [intros []|]. cbn [spec_call]. apply code_avoids. by left.
Qed.

(** C23. Whatever a program and its factory functions do with the default values of its
    types, values, references and void, and functions that change the default values while
    they run to produce one included: every question is answered as by the DefaultValue of
    SpecBuilders.v over the value or function that was set last, built-in values and aborts
    included; the heap holds just one producer for each type that is set; nothing
    is deleted twice or used after it was deleted; and the program ends when the functions ask
    for no default value themselves. *)
Theorem default_values_refine fuel u :
  let run := run_code (run_op (call_function fuel)) u start in
  let spec := run_code (spec_op (spec_call fuel)) u nothing_set in
  run.1 = spec.1 ∧ stored run.2 spec.2 ∧ (∀ w, run.1 ≠ Undefined w) ∧
  ((∀ f, no_get (functions f)) → (0 < fuel)%nat → run.1 ≠ Unfinished).
Proof.
  cbn zeta. destruct (code_agrees _ _ (functions_agree fuel) u _ _ stored_start) as [Ho Hs].
  split_and!; [done|done| |].
  - intros w Hw. rewrite Ho in Hw. apply (code_avoids (Some w) (spec_call fuel) u nothing_set).
    + left. apply call_defined.
    + by rewrite Hw.
  - intros Hf Hfuel Hw. rewrite Ho in Hw. apply (code_avoids None (spec_call fuel) u nothing_set).
    + left. intros f m. destruct fuel as [|fuel]; [by apply Nat.lt_irrefl in Hfuel|]. cbn [spec_call].
      apply code_avoids. by right.
    + by rewrite Hw.
Qed.
End default_values.

(** * A sample *)

#[local] Instance sample_user_classes : UserClasses := {|
  user_class := bool; user_class_eq := _; user_object := unit; default_object c := if c then Some () else None |}.

(** A factory function that clears its own default value and then returns. *)
Definition clears_itself (_ : nat) : user_code := Ask (ClearValue (UserClass false)) (λ _, Return (VInt 5)).

(** Sets an int twice, then asks for it, for a const int, for the class without a default
    constructor whose function clears it, and then for that class again. *)
Definition sample_code : user_code :=
  Ask (SetValue (Builtin SignedInt) (VInt 3)) (λ _,
  Ask (SetValue (Builtin SignedInt) (VInt 4)) (λ _,
  Ask (GetValue (Builtin SignedInt)) (λ a,
  Ask (SetFactoryOf (UserClass false) 0) (λ _,
  Ask (GetValue (UserClass false)) (λ b,
  Ask (ExistsValue (UserClass false)) (λ c,
    match a, b, c with
    | GotValue (VInt x), GotValue (VInt y), Truth false => Return (VInt (10 * x + y))
    | _, _, _ => Ask (GetValue (UserClass false)) (λ _, Return (VInt 0))
    end)))))).

Lemma default_values_refine_witness :
  let run := run_code (run_op true (call_function true clears_itself 1)) sample_code start in
  run.1 = Done (VInt 45) ∧ size (cells (heap run.2)) = 1%nat ∧ run.1 ≠ Unfinished.
Proof.
  destruct (default_values_refine true clears_itself bump_malloc_total 1 sample_code) as (Ho & _ & _ & Hend).
  split_and!.
  - etrans; [exact Ho|]. vm_compute. reflexivity.
  - vm_compute. reflexivity.
  - apply Hend; [|lia]. intros f. cbn. naive_solver.
Defined.
