(* ===== verification/FunctionMockers.v ===== *)
(** The mock methods of the bundled mock library: the macros MOCK_METHODn and the
    classes FunctionMocker and MockFunction of
    src/gtest/include/gmock/gmock-generated-function-mockers.h, with MockSpec, the
    result holders and the macros ON_CALL and EXPECT_CALL of gmock-spec-builders.h.

    A mock method is a variable of type FunctionMocker<F>; its state is a
    [mock_function], whose base is the [state] of SpecBuilders with the actions of
    Actions. The members of FunctionMockerBase whose bodies are in a source file the
    repository does not have are the fields of [mocker_library]. *)

From S2P Require Import Prelude Machine Tuples Actions Matchers SpecBuilders.

(** * Function types (gmock-generated-internal-utils.h) *)

(** MatcherTuple<tuple<A1, ..., An> >::type. *)
Definition MatcherTuple (As : list Type) : Type := matcher_tuple As.

(** Function<R(A1, ..., An)>. *)
Record FunctionTypes : Type := MkFunctionTypes {
  fn_Result : Type;
  fn_Arguments : list Type;
  fn_ArgumentTuple : Type;
  fn_ArgumentMatcherTuple : Type;
  fn_MakeResultVoid : function_type;
  fn_MakeResultIgnoredValue : function_type;
}.

Definition function_types (R : Type) (As : list Type) : FunctionTypes :=
  let F := Fn R As in
  MkFunctionTypes R As (ArgumentTuple F) (MatcherTuple As) (MakeResultVoid F) (MakeResultIgnoredValue F).

(** const Matcher<A1>& m1 → ... → const Matcher<An>& mn → T. *)
Fixpoint matchers_to (As : list Type) (T : Type) : Type :=
  match As with [] => T | A :: As => MatcherInterface A → matchers_to As T end.

Fixpoint with_matchers {T : Type} (As : list Type) : (matcher_tuple As → T) → matchers_to As T :=
  match As with
  | [] => λ f, f ()
  | A :: As => λ f m, with_matchers As (λ ms, f (m, ms))
  end.

Fixpoint apply_matchers {T : Type} (As : list Type) : matchers_to As T → matcher_tuple As → T :=
  match As with
  | [] => λ t _, t
  | A :: As => λ f ms, apply_matchers As (f (fst ms)) (snd ms)
  end.

Lemma apply_with_matchers {T} (As : list Type) (f : matcher_tuple As → T) ms :
  apply_matchers As (with_matchers As f) ms = f ms.
Proof.
  revert f ms. induction As as [|A As IH]; intros f ms; [by destruct ms|].
  destruct ms as [m ms]. apply (IH (λ ms, f (m, ms)) ms).
Qed.

(** * The holder of a result *)

(** ReferenceOrValueWrapper<T>; for a reference, [T] is a pointer. *)
Record ReferenceOrValueWrapper (T : Type) : Type := Wrapper { value_ : T }.
Arguments Wrapper {T} _.
Arguments value_ {T} _.
Definition wrapper_Unwrap {T} (w : ReferenceOrValueWrapper T) : T := value_ w.
Definition wrapper_Peek {T} (w : ReferenceOrValueWrapper T) : T := value_ w.

(** ActionResultHolder<T>; the one for void holds (). *)
Record ActionResultHolder (T : Type) : Type := ResultHolder { result_ : ReferenceOrValueWrapper T }.
Arguments ResultHolder {T} _.
Arguments result_ {T} _.
Definition Unwrap {T} (h : ActionResultHolder T) : T := wrapper_Unwrap (result_ h).

(** PrintAsActionResult; the printer is NULL for void. *)
Definition PrintAsActionResult {T} (print : option (T → string)) (h : ActionResultHolder T) : string :=
  match print with
  | None => EmptyString
  | Some print => nl +:+ "          Returns: " +:+ print (wrapper_Peek (result_ h))
  end.

(** * The state of a mock method *)

Section mockers.
Context {V : Type} {R : Type} {Ts : list Type} {Seq : Type}.
Local Abbreviation F := (Fn R Ts).
Local Abbreviation Act := (ActionInterface V F).
Local Abbreviation st := (state Ts Act Seq (env V)).
Context (lib : gmock_library Ts Act Seq (env V)).

(** FunctionMocker<F>: the members of UntypedFunctionMockerBase that [state] does not
    have, and current_spec_, which is its matchers. *)
Record mock_function : Type := MockFn {
  mock_obj_ : option loc;
  name_ : option string;
  spec_matchers_ : MatcherTuple Ts;
  base : st;
}.

Definition set_spec_matchers (ms : MatcherTuple Ts) (f : mock_function) : mock_function :=
  MockFn (mock_obj_ f) (name_ f) ms (base f).
Definition set_base (s : st) (f : mock_function) : mock_function :=
  MockFn (mock_obj_ f) (name_ f) (spec_matchers_ f) s.
(** A member function of FunctionMockerBase. *)
Definition on_base {T} (m : cmd st T) : cmd mock_function T := zoom base set_base m.

(** What the headers only declare. *)
Record mocker_library : Type := MkMockerLibrary {
  RegisterOwner : loc → mock_function → mock_function;
  SetOwnerAndName : loc → string → mock_function → mock_function;
  UntypedInvokeWith : tuple Ts → cmd mock_function (ActionResultHolder R);
  (** LogWithLocation(kInfo, file, line, message) *)
  LogWithLocation : string → Z → string → env V → env V;
}.
Context (mlib : mocker_library).

(** Both set the mock object this method belongs to; the second also sets the name. *)
Class MockerLaws : Prop := {
  register_law obj f : ∃ f', RegisterOwner mlib obj f = f' ∧ mock_obj_ f' = Some obj ∧
    spec_matchers_ f' = spec_matchers_ f ∧ base f' = base f;
  owner_name_law obj name f : ∃ f', SetOwnerAndName mlib obj name f = f' ∧ mock_obj_ f' = Some obj ∧
    name_ f' = Some name ∧ spec_matchers_ f' = spec_matchers_ f ∧ base f' = base f;
}.

(** ResultHolder::PerformAction and PerformDefaultAction; the left case is the
    exception of the default action. *)
Definition PerformAction (action : Actions.Action V F) (args : tuple Ts) : cmd st (ActionResultHolder R) :=
  r ← zoom rest set_rest (Actions.Perform (F:=F) action args); mret (ResultHolder (Wrapper r)).
Definition HolderPerformDefaultAction (d : DefaultValue (W:=env V) (Result:=R)) (args : tuple Ts)
    (call_description : string) : cmd st (string + ActionResultHolder R) :=
  r ← PerformDefaultAction (λ impl, impl) d args call_description;
  mret (match r with inl message => inl message | inr r => inr (ResultHolder (Wrapper r)) end).

(** UntypedPerformAction and UntypedPerformDefaultAction of FunctionMockerBase. *)
Definition UntypedPerformAction (action : Actions.Action V F) (args : tuple Ts) :
    cmd st (ActionResultHolder R) := PerformAction action args.
Definition UntypedPerformDefaultAction (d : DefaultValue (W:=env V) (Result:=R)) (args : tuple Ts)
    (call_description : string) : cmd st (string + ActionResultHolder R) :=
  HolderPerformDefaultAction d args call_description.

Definition InvokeWith (args : tuple Ts) : cmd mock_function R :=
  holder ← UntypedInvokeWith mlib args; mret (Unwrap holder).

(** * MockSpec *)

Definition SetMatchers (ms : MatcherTuple Ts) : cmd mock_function unit := modify (set_spec_matchers ms).

Definition InternalDefaultActionSetAt (file : string) (line : Z) (obj call : string) : cmd mock_function unit :=
  on_base (modify (λ s, set_rest (LogWithLocation mlib file line
    ("ON_CALL(" +:+ obj +:+ ", " +:+ call +:+ ") invoked") (rest s)) s));;
  f ← get; on_base (AddNewOnCallSpec lib file line (spec_matchers_ f)).

(** [l] is the address of the new expectation. *)
Definition InternalExpectedAt l (file : string) (line : Z) (obj call : string) : cmd mock_function unit :=
  let source_text := "EXPECT_CALL(" +:+ obj +:+ ", " +:+ call +:+ ")" in
  on_base (modify (λ s, set_rest (LogWithLocation mlib file line (source_text +:+ " invoked") (rest s)) s));;
  f ← get; on_base (AddNewExpectation lib l file line source_text (spec_matchers_ f)).

(** * The class template FunctionMocker and the macros *)

Record FunctionMocker : Type := MkFunctionMocker {
  mocker_With : matchers_to Ts (cmd mock_function unit);
  mocker_Invoke : curried Ts (cmd mock_function R);
}.

Definition function_mocker : FunctionMocker :=
  MkFunctionMocker (with_matchers Ts SetMatchers) (curry_tuple Ts InvokeWith).

(** The two members GMOCK_METHODn_ declares: Method and gmock_Method of the object at
    [this]. *)
Record MockMethod : Type := MkMockMethod {
  Method : loc → string → curried Ts (cmd mock_function R);
  gmock_Method : loc → matchers_to Ts (cmd mock_function unit);
}.

Definition mock_method : MockMethod :=
  MkMockMethod
    (λ this name, curry_tuple Ts (λ args,
       modify (SetOwnerAndName mlib this name);;
       uncurry_tuple Ts (mocker_Invoke function_mocker) args))
    (λ this, with_matchers Ts (λ ms,
       modify (RegisterOwner mlib this);;
       apply_matchers Ts (mocker_With function_mocker) ms)).

(** MockFunction<F>, which has one mock method Call. *)
Record MockFunction : Type := MkMockFunction {
  Call : loc → curried Ts (cmd mock_function R);
  gmock_Call : loc → matchers_to Ts (cmd mock_function unit);
  AsStdFunction : loc → curried Ts (cmd mock_function R);
}.

Definition mock_function_class : MockFunction :=
  let call this := Method mock_method this "Call" in
  MkMockFunction call (gmock_Method mock_method)
    (λ this, curry_tuple Ts (λ args, uncurry_tuple Ts (call this) args)).

(** ON_CALL(obj, call) and EXPECT_CALL(obj, call), for a call of the method [m] with
    the matchers [ms]. *)
Definition ON_CALL (m : MockMethod) (this : loc) (ms : MatcherTuple Ts) (file : string) (line : Z)
    (obj call : string) : cmd mock_function unit :=
  apply_matchers Ts (gmock_Method m this) ms;; InternalDefaultActionSetAt file line obj call.
Definition EXPECT_CALL (m : MockMethod) (this : loc) (ms : MatcherTuple Ts) l (file : string) (line : Z)
    (obj call : string) : cmd mock_function unit :=
  apply_matchers Ts (gmock_Method m this) ms;; InternalExpectedAt l file line obj call.
End mockers.

(** * The classes and macros of the headers *)

Section types.
Context {R A1 A2 A3 A4 A5 A6 A7 A8 A9 A10 : Type}.

Definition MatcherTuple0 : Type := MatcherTuple [].
Definition MatcherTuple1 : Type := MatcherTuple [A1].
Definition MatcherTuple2 : Type := MatcherTuple [A1; A2].
Definition MatcherTuple3 : Type := MatcherTuple [A1; A2; A3].
Definition MatcherTuple4 : Type := MatcherTuple [A1; A2; A3; A4].
Definition MatcherTuple5 : Type := MatcherTuple [A1; A2; A3; A4; A5].
Definition MatcherTuple6 : Type := MatcherTuple [A1; A2; A3; A4; A5; A6].
Definition MatcherTuple7 : Type := MatcherTuple [A1; A2; A3; A4; A5; A6; A7].
Definition MatcherTuple8 : Type := MatcherTuple [A1; A2; A3; A4; A5; A6; A7; A8].
Definition MatcherTuple9 : Type := MatcherTuple [A1; A2; A3; A4; A5; A6; A7; A8; A9].
Definition MatcherTuple10 : Type := MatcherTuple [A1; A2; A3; A4; A5; A6; A7; A8; A9; A10].

Definition Function0 := function_types R [].
Definition Function1 := function_types R [A1].
Definition Function2 := function_types R [A1; A2].
Definition Function3 := function_types R [A1; A2; A3].
Definition Function4 := function_types R [A1; A2; A3; A4].
Definition Function5 := function_types R [A1; A2; A3; A4; A5].
Definition Function6 := function_types R [A1; A2; A3; A4; A5; A6].
Definition Function7 := function_types R [A1; A2; A3; A4; A5; A6; A7].
Definition Function8 := function_types R [A1; A2; A3; A4; A5; A6; A7; A8].
Definition Function9 := function_types R [A1; A2; A3; A4; A5; A6; A7; A8; A9].
Definition Function10 := function_types R [A1; A2; A3; A4; A5; A6; A7; A8; A9; A10].
End types.

Section instances.
Context {V R Seq : Type} {A1 A2 A3 A4 A5 A6 A7 A8 A9 A10 : Type}.
Local Abbreviation mocker_lib As := (mocker_library (V:=V) (R:=R) (Ts:=As) (Seq:=Seq)).

Definition FunctionMocker0 (mlib : mocker_lib []) := function_mocker mlib.
Definition FunctionMocker1 (mlib : mocker_lib [A1]) := function_mocker mlib.
Definition FunctionMocker2 (mlib : mocker_lib [A1; A2]) := function_mocker mlib.
Definition FunctionMocker3 (mlib : mocker_lib [A1; A2; A3]) := function_mocker mlib.
Definition FunctionMocker4 (mlib : mocker_lib [A1; A2; A3; A4]) := function_mocker mlib.
Definition FunctionMocker5 (mlib : mocker_lib [A1; A2; A3; A4; A5]) := function_mocker mlib.
Definition FunctionMocker6 (mlib : mocker_lib [A1; A2; A3; A4; A5; A6]) := function_mocker mlib.
Definition FunctionMocker7 (mlib : mocker_lib [A1; A2; A3; A4; A5; A6; A7]) :=
  function_mocker mlib.
Definition FunctionMocker8 (mlib : mocker_lib [A1; A2; A3; A4; A5; A6; A7; A8]) :=
  function_mocker mlib.
Definition FunctionMocker9 (mlib : mocker_lib [A1; A2; A3; A4; A5; A6; A7; A8; A9]) :=
  function_mocker mlib.
Definition FunctionMocker10 (mlib : mocker_lib [A1; A2; A3; A4; A5; A6; A7; A8; A9; A10]) :=
  function_mocker mlib.

Definition GMOCK_METHOD0_ (mlib : mocker_lib []) := mock_method mlib.
Definition GMOCK_METHOD1_ (mlib : mocker_lib [A1]) := mock_method mlib.
Definition GMOCK_METHOD2_ (mlib : mocker_lib [A1; A2]) := mock_method mlib.
Definition GMOCK_METHOD3_ (mlib : mocker_lib [A1; A2; A3]) := mock_method mlib.
Definition GMOCK_METHOD4_ (mlib : mocker_lib [A1; A2; A3; A4]) := mock_method mlib.
Definition GMOCK_METHOD5_ (mlib : mocker_lib [A1; A2; A3; A4; A5]) := mock_method mlib.
Definition GMOCK_METHOD6_ (mlib : mocker_lib [A1; A2; A3; A4; A5; A6]) := mock_method mlib.
Definition GMOCK_METHOD7_ (mlib : mocker_lib [A1; A2; A3; A4; A5; A6; A7]) := mock_method mlib.
Definition GMOCK_METHOD8_ (mlib : mocker_lib [A1; A2; A3; A4; A5; A6; A7; A8]) :=
  mock_method mlib.
Definition GMOCK_METHOD9_ (mlib : mocker_lib [A1; A2; A3; A4; A5; A6; A7; A8; A9]) :=
  mock_method mlib.
Definition GMOCK_METHOD10_ (mlib : mocker_lib [A1; A2; A3; A4; A5; A6; A7; A8; A9; A10]) :=
  mock_method mlib.

Definition MockFunction0 (mlib : mocker_lib []) := mock_function_class mlib.
Definition MockFunction1 (mlib : mocker_lib [A1]) := mock_function_class mlib.
Definition MockFunction2 (mlib : mocker_lib [A1; A2]) := mock_function_class mlib.
Definition MockFunction3 (mlib : mocker_lib [A1; A2; A3]) := mock_function_class mlib.
Definition MockFunction4 (mlib : mocker_lib [A1; A2; A3; A4]) := mock_function_class mlib.
Definition MockFunction5 (mlib : mocker_lib [A1; A2; A3; A4; A5]) := mock_function_class mlib.
Definition MockFunction6 (mlib : mocker_lib [A1; A2; A3; A4; A5; A6]) := mock_function_class mlib.
Definition MockFunction7 (mlib : mocker_lib [A1; A2; A3; A4; A5; A6; A7]) :=
  mock_function_class mlib.
Definition MockFunction8 (mlib : mocker_lib [A1; A2; A3; A4; A5; A6; A7; A8]) :=
  mock_function_class mlib.
Definition MockFunction9 (mlib : mocker_lib [A1; A2; A3; A4; A5; A6; A7; A8; A9]) :=
  mock_function_class mlib.
Definition MockFunction10 (mlib : mocker_lib [A1; A2; A3; A4; A5; A6; A7; A8; A9; A10]) :=
  mock_function_class mlib.
End instances.

(** * Theorems *)

Section theorems.
Context {V : Type} {R : Type} {Ts : list Type} {Seq : Type}.
Local Abbreviation F := (Fn R Ts).
Local Abbreviation Act := (ActionInterface V F).
Context (lib : gmock_library Ts Act Seq (env V)) `{!GMockLaws lib}.
Context (mlib : mocker_library (V:=V) (R:=R) (Ts:=Ts) (Seq:=Seq)) `{!MockerLaws mlib}.
Context (ps : printers Ts) (returns_void : bool).
Implicit Types (f : mock_function (V:=V) (R:=R) (Ts:=Ts) (Seq:=Seq)) (args : tuple Ts).

Lemma on_base_bind {A B} (m : cmd _ A) (k : A → cmd _ B) f :
  on_base (m ≫= k) f = (on_base m ≫= λ a, on_base (k a)) f.
Proof. by apply zoom_bind. Qed.

Lemma on_base_done {A} (m : cmd _ A) f a s :
  m (base f) = (Done a, s) → on_base m f = (Done a, set_base s f).
Proof. apply zoom_done. Qed.

(** gmock_Method(m1, ..., mn): the method is registered with its object, and current_spec_
    has the matchers. *)
Lemma gmock_method_run this ms f :
  ensures (apply_matchers Ts (gmock_Method (mock_method mlib) this) ms) f (λ _ f',
    mock_obj_ f' = Some this ∧ spec_matchers_ f' = ms ∧ base f' = base f).
Proof.
  unfold ensures. destruct (register_law mlib this f) as (f' & Hf & Ho & _ & Hb).
  eexists (), (set_spec_matchers ms f'). split; [|done].
  rewrite /= apply_with_matchers (bind_done (modify _) _ f () f'); [|by rewrite apply_with_matchers].
  unfold modify. by rewrite Hf.
Qed.

(** Method(a1, ..., an): the method knows its object and name, and is invoked with the
    tuple of the arguments. *)
Lemma method_run this name args f :
  ∃ f', mock_obj_ f' = Some this ∧ name_ f' = Some name ∧ base f' = base f ∧
    uncurry_tuple Ts (Method (mock_method mlib) this name) args f = InvokeWith mlib args f'.
Proof.
  destruct (owner_name_law mlib this name f) as (f' & Hf & Ho & Hn & _ & Hb).
  exists f'. split_and!; [done..|]. rewrite /= curry_uncurry.
  rewrite (bind_done (modify _) _ f () f'); [|by rewrite /= curry_uncurry].
  unfold modify. by rewrite Hf.
Qed.

(** EXPECT_CALL(obj, call).WillOnce(a1)...WillOnce(an)[.WillRepeatedly(r)]. *)
Definition expect_statement (this : loc) (ms : MatcherTuple Ts) l (file : string) (line : Z) (obj call : string)
    (acts : list (SpecBuilders.Action Act)) (repeated : option (SpecBuilders.Action Act))
    : cmd mock_function unit :=
  EXPECT_CALL lib mlib (mock_method mlib) this ms l file line obj call;;
  on_base (will_once_all lib l acts;;
           match repeated with None => mret () | Some r => WillRepeatedly lib l r end).

Lemma expect_statement_ready this ms l file line obj call acts repeated f :
  implicit_sequence (base f) = None → Forall (alive (base f)) (untyped_expectations_ (base f)) →
  (acts ≠ [] ∨ is_Some repeated) → Z.of_nat (length acts) ≤ INT_MAX →
  ensures (expect_statement this ms l file line obj call acts repeated) f (λ _ f',
    mock_obj_ f' = Some this ∧ spec_matchers_ f' = ms ∧ ready l ms acts repeated 0 (base f')).
Proof.
  intros Hq Hal Hacts Hlen. unfold expect_statement, EXPECT_CALL, InternalExpectedAt.
  destruct (gmock_method_run this ms f) as ([] & f1 & Hg & Ho & Hm & Hb).
  unfold ensures. rewrite bind_assoc (bind_done _ _ _ _ _ Hg).
  set (text := "EXPECT_CALL(" +:+ obj +:+ ", " +:+ call +:+ ")").
  set (s1 := set_rest (LogWithLocation mlib file line (text +:+ " invoked") (rest (base f1))) (base f1)).
  rewrite bind_assoc (bind_done (on_base _) _ f1 () (set_base s1 f1)) //.
  rewrite bind_assoc (bind_done get _ _ (set_base s1 f1) (set_base s1 f1)) // -on_base_bind.
  destruct (statement_ready lib l file line text ms acts repeated s1) as (s2 & Hs & Hr);
    [by rewrite /= Hb| |done..|].
  { rewrite /s1 /= Hb. eapply Forall_impl; [exact Hal|]. by intros e [??]. }
  rewrite /= Hm. eexists (), _. split; [by apply on_base_done|]. by split_and!.
Qed.

(** A call whose expectation has the action [a] performs it on the rest of the program. *)
Lemma perform_action_run (a : Act) args (s : state Ts Act Seq (env V)) r w :
  Actions.Perform (F:=F) (Some a) args (rest s) = (Done r, w) →
  ensures (UntypedPerformAction (Some a) args) s (λ h s', Unwrap h = r ∧ s' = set_rest w s).
Proof.
  intros Ha. exists (ResultHolder (Wrapper r)), (set_rest w s). split; [|done].
  unfold UntypedPerformAction, PerformAction. by rewrite (bind_done _ _ _ _ _ (zoom_done _ _ _ _ _ _ Ha)).
Qed.

(** A statement EXPECT_CALL(obj, Method(m1, ..., mn)).WillOnce(a1)...WillOnce(ak)
    [.WillRepeatedly(r)] on a mock method registers the method with its object and adds
    an expectation with exactly these matchers: the calls that match them are given a1,
    ..., ak in this order, and then r or the default action. The chosen action, when
    performed, acts on the rest of the program only, and its result is what the holder
    returns. A call Method(x1, ..., xn) sets the object and the name and is the
    invocation with the tuple of its arguments. *)
Theorem mock_statement_in_order this ms l file line obj call acts repeated argss f :
  implicit_sequence (base f) = None → Forall (alive (base f)) (untyped_expectations_ (base f)) →
  (acts ≠ [] ∨ is_Some repeated) →
  Z.of_nat (length acts) ≤ INT_MAX → Z.of_nat (length argss) ≤ INT_MAX →
  Forall (λ args, TupleMatches ps ms args = true) argss →
  ensures (expect_statement this ms l file line obj call acts repeated) f (λ _ f',
    mock_obj_ f' = Some this ∧ spec_matchers_ f' = ms ∧
    (∃ rs s', mapM (UntypedFindMatchingExpectation lib ps returns_void) argss (base f') = (Done rs, s') ∧
       (λ r, r.1.1) <$> rs =
       (λ i, Some (l, fst (action_of_call acts repeated i), snd (action_of_call acts repeated i))) <$>
         seq 0 (length argss)) ∧
    (∀ i a args (s : state Ts Act Seq (env V)) r w, fst (action_of_call acts repeated i) = Some a →
       Actions.Perform (F:=F) (Some a) args (rest s) = (Done r, w) →
       ensures (UntypedPerformAction (Some a) args) s (λ h s', Unwrap h = r ∧ s' = set_rest w s)) ∧
    (∀ name args, ∃ f'', mock_obj_ f'' = Some this ∧ name_ f'' = Some name ∧ base f'' = base f' ∧
       uncurry_tuple Ts (Method (mock_method mlib) this name) args f' = InvokeWith mlib args f'')).
Proof.
  intros Hq Hal Hacts Hlen Hmax Hm.
  eapply ensures_mono; [by apply expect_statement_ready|]. intros _ f' (Ho & Hms & Hr).
  split_and!; [done|done|by apply (ready_calls lib ps returns_void l ms acts repeated)| |].
  - intros i a args s r w _ Ha. by apply perform_action_run.
  - intros name args. apply method_run.
Qed.
End theorems.

(** * A sample *)

(** The method int Get(int) of a mock object at address 7, with the library of
    SpecBuilders; its messages are not kept. *)
Section sample.
Local Abbreviation Act := (ActionInterface sample_cell (Fn Z SpecBuilders.sample_args)).
Local Abbreviation sample_mock :=
  (mock_function (V:=sample_cell) (R:=Z) (Ts:=SpecBuilders.sample_args) (Seq:=unit)).

Definition env_library : gmock_library SpecBuilders.sample_args Act unit (env sample_cell) :=
  sample_library (λ _ w, w) SpecBuilders.sample_args.

Definition sample_mocker_library :
    mocker_library (V:=sample_cell) (R:=Z) (Ts:=SpecBuilders.sample_args) (Seq:=unit) :=
  {| RegisterOwner this f := MockFn (Some this) (name_ f) (spec_matchers_ f) (base f);
     SetOwnerAndName this name f := MockFn (Some this) (Some name) (spec_matchers_ f) (base f);
     UntypedInvokeWith args := mret (ResultHolder (Wrapper 0));
     LogWithLocation _ _ _ w := w |}.

#[local] Instance sample_mocker_laws : MockerLaws sample_mocker_library.
Proof. split; intros; by eexists. Qed.

Definition sample_method : sample_mock :=
  MockFn None None any_int (State [] [] ∅ ∅ None [] (Env 0 (Mem.Mem ∅ 0))).

(** EXPECT_CALL(mock, Get(5)).WillOnce(SetErrnoAndReturn(2, -1)).WillOnce(Return(3)). *)
Definition failing : Act := λ _, modify (set_errno 2);; mret (-1).
Definition returning : Act := ReturnImpl (F:=Fn Z SpecBuilders.sample_args) 3 3.

Example mock_statement_in_order_witness :
  ∃ f', expect_statement env_library sample_mocker_library 7 eq_5 1 "t.cc" 10 "mock" "Get(5)"
      [Some failing; Some returning] None sample_method = (Done (), f') ∧
    mock_obj_ f' = Some 7 ∧
    (∃ rs s', mapM (UntypedFindMatchingExpectation env_library print_arg false) [arg 5; arg 5; arg 5] (base f')
        = (Done rs, s') ∧
      (λ r, r.1.1) <$> rs =
        [Some (1, Some failing, false); Some (1, Some returning, false); Some (1, None, true)]) ∧
    ensures (UntypedPerformAction (Some failing) (arg 5)) (base f') (λ h s',
      Unwrap h = -1 ∧ s' = set_rest (set_errno 2 (rest (base f'))) (base f')).
Proof.
  destruct (mock_statement_in_order env_library sample_mocker_library print_arg false 7 eq_5 1 "t.cc" 10 "mock"
    "Get(5)" [Some failing; Some returning] None [arg 5; arg 5; arg 5] sample_method)
    as ([] & f' & Hrun & Ho & _ & Hcalls & Hperform & _);
    [reflexivity|constructor|by left|by vm_compute|by vm_compute|by repeat constructor|].
  exists f'. split_and!; [exact Hrun|exact Ho|exact Hcalls|].
  by apply (Hperform 0%nat failing (arg 5)).
Defined.
End sample.
