(* ===== verification/ExpectationHandles.v ===== *)
(** Handles of expectations (src/gtest/include/gmock/gmock-spec-builders.h): Expectation and
    ExpectationSet, and the clauses InSequence and After with several arguments, which
    take them. *)

From stdpp Require Import sorting.
From S2P Require Import Prelude Matchers SpecBuilders.
#[local] Open Scope Z_scope.

(** * Expectation *)

(** A handle is a co-owning pointer to the expectation, 0 for NULL. *)
Record Expectation : Type := MkExpectation { expectation_base_ : loc }.

Definition Expectation_eq (e f : Expectation) : bool := bool_decide (expectation_base_ e = expectation_base_ f).
Definition Expectation_ne (e f : Expectation) : bool := negb (Expectation_eq e f).

(** Expectation::Less. *)
Definition Less (e f : Expectation) : bool := bool_decide (expectation_base_ e < expectation_base_ f).

(** std::set<Expectation, Less>: its elements in order. *)
Definition ESet : Type := list Expectation.

Fixpoint ESet_insert (e : Expectation) (es : ESet) : ESet :=
  match es with
  | [] => [e]
  | f :: es => if Less e f then e :: f :: es else if Less f e then f :: ESet_insert e es else f :: es
  end.

(** operator== of std::set: the sizes, and then the elements in order. *)
Definition ESet_eq (es fs : ESet) : bool :=
  bool_decide (length es = length fs) && forallb (λ '(e, f), Expectation_eq e f) (zip es fs).

(** * ExpectationSet *)

Record ExpectationSet : Type := MkExpectationSet { expectations_ : ESet }.

Definition new_ExpectationSet : ExpectationSet := MkExpectationSet [].

(** operator+=. *)
Definition set_add (e : Expectation) (s : ExpectationSet) : ExpectationSet :=
  MkExpectationSet (ESet_insert e (expectations_ s)).

(** The constructors from an expectation, by its handle, and from a handle. *)
Definition ExpectationSet_of_base (exp : loc) : ExpectationSet := set_add (MkExpectation exp) new_ExpectationSet.
Definition ExpectationSet_of (e : Expectation) : ExpectationSet := set_add e new_ExpectationSet.

Definition ExpectationSet_eq (s t : ExpectationSet) : bool := ESet_eq (expectations_ s) (expectations_ t).
Definition ExpectationSet_ne (s t : ExpectationSet) : bool := negb (ExpectationSet_eq s t).
Definition ExpectationSet_size (s : ExpectationSet) : Z := int_of_size (length (expectations_ s)).

(** From begin() to end(). *)
Definition elements_of (s : ExpectationSet) : list loc := expectation_base_ <$> expectations_ s.

(** * Sets of pointers *)

Definition to_gset (s : ExpectationSet) : gset loc := list_to_set (elements_of s).

Definition sorted (s : ExpectationSet) : Prop := StronglySorted (λ x y, x < y) (elements_of s).

Lemma ESet_insert_elem e es l :
  l ∈ expectation_base_ <$> ESet_insert e es ↔ l = expectation_base_ e ∨ l ∈ expectation_base_ <$> es.
Proof.
  induction es as [|f es IH]; cbn; [by rewrite list_elem_of_singleton elem_of_nil; tauto|].
  unfold Less. case_bool_decide; [by rewrite !fmap_cons !elem_of_cons|].
  case_bool_decide; rewrite !fmap_cons !elem_of_cons; [rewrite IH; tauto|].
  assert (expectation_base_ e = expectation_base_ f) by lia. naive_solver.
Qed.

Lemma ESet_insert_sorted e es :
  StronglySorted (λ x y, x < y) (expectation_base_ <$> es) →
  StronglySorted (λ x y, x < y) (expectation_base_ <$> ESet_insert e es).
Proof.
  induction es as [|f es IH]; cbn; [by repeat constructor|]. intros [Hs Hf]%StronglySorted_inv. unfold Less.
  case_bool_decide as He.
  - constructor; [by constructor|]. constructor; [done|]. rewrite -> Forall_forall in *. intros x Hx.
    specialize (Hf _ Hx). cbn in *. lia.
  - case_bool_decide as He'; cbn; [|by constructor]. constructor; [by apply IH|].
    rewrite -> Forall_forall in *. intros x [->|Hx]%ESet_insert_elem; [done|by apply Hf].
Qed.

Lemma sorted_NoDup (ls : list loc) : StronglySorted (λ x y, x < y) ls → NoDup ls.
Proof.
  induction 1 as [|x ls _ IH Hx]; constructor; [|done]. rewrite -> Forall_forall in Hx. intros Hin%Hx. lia.
Qed.

(** A handle is added to a set. *)
Lemma set_add_gset e s : to_gset (set_add e s) = {[ expectation_base_ e ]} ∪ to_gset s.
Proof.
  unfold to_gset, elements_of. apply set_eq. intros l. rewrite elem_of_union !elem_of_list_to_set elem_of_singleton.
  cbn. apply ESet_insert_elem.
Qed.

Lemma set_add_sorted e s : sorted s → sorted (set_add e s).
Proof. apply ESet_insert_sorted. Qed.

Lemma elements_permutation s : sorted s → elements_of s ≡ₚ elements (to_gset s).
Proof. intros Hs. unfold to_gset. by rewrite elements_list_to_set; [apply sorted_NoDup|]. Qed.

(** Two sets with the same elements are the same list. *)
Lemma sorted_unique s t : sorted s → sorted t → to_gset s = to_gset t → elements_of s = elements_of t.
Proof.
  intros Hs Ht He. apply (StronglySorted_unique_strong (λ x y, x < y)); [lia|done|done|].
  by rewrite !elements_permutation // He.
Qed.

Lemma ESet_eq_elements (es fs : ESet) :
  ESet_eq es fs = bool_decide (expectation_base_ <$> es = expectation_base_ <$> fs).
Proof.
  apply eq_true_iff_eq. unfold ESet_eq. rewrite andb_true_iff !bool_decide_eq_true.
  revert fs. induction es as [|e es IH]; intros [|f fs]; cbn; [tauto|naive_solver lia|naive_solver lia|].
  rewrite andb_true_iff. unfold Expectation_eq. rewrite bool_decide_eq_true. specialize (IH fs). split.
  - intros [[= Hl] [-> Hf]]. f_equal. by apply IH.
  - intros [= -> Hf]. apply IH in Hf as [-> Hf]. done.
Qed.

(** The set a program makes by adding handles to an empty one. *)
Definition set_of (ls : list loc) : ExpectationSet :=
  foldl (λ s l, set_add (MkExpectation l) s) new_ExpectationSet ls.

Lemma set_of_spec ls : sorted (set_of ls) ∧ to_gset (set_of ls) = list_to_set ls.
Proof.
  unfold set_of. assert (∀ s, sorted s →
    sorted (foldl (λ s l, set_add (MkExpectation l) s) s ls) ∧
    to_gset (foldl (λ s l, set_add (MkExpectation l) s) s ls) = to_gset s ∪ list_to_set ls) as Hall.
  { induction ls as [|l ls IH]; intros s Hs; [split; [done|]; cbn; set_solver|].
    destruct (IH (set_add (MkExpectation l) s)) as [Hs' He]; [by apply set_add_sorted|]. split; [done|].
    cbn. rewrite He set_add_gset. cbn. set_solver. }
  destruct (Hall new_ExpectationSet) as [Hs He]; [constructor|]. split; [done|]. rewrite He. set_solver.
Qed.

(** * The clauses with several arguments *)

Section clauses.
Context {Ts : list Type} {A Seq W : Type} (lib : gmock_library Ts A Seq W).
Notation st := (state Ts A Seq W).
Implicit Types (l : loc) (s : st).

Definition InSequence2 l (s1 s2 : Seq) : cmd st unit :=
  InSequence lib l s1;; InSequence lib l s2.
Definition InSequence3 l (s1 s2 s3 : Seq) : cmd st unit :=
  InSequence2 l s1 s2;; InSequence lib l s3.
Definition InSequence4 l (s1 s2 s3 s4 : Seq) : cmd st unit :=
  InSequence3 l s1 s2 s3;; InSequence lib l s4.
Definition InSequence5 l (s1 s2 s3 s4 s5 : Seq) : cmd st unit :=
  InSequence4 l s1 s2 s3 s4;; InSequence lib l s5.

(** immediate_prerequisites_ += *it, for each element of a set. *)
Fixpoint add_each l (es : list loc) : cmd st unit :=
  match es with [] => mret () | e :: es => update_base l (add_prerequisites {[ e ]});; add_each l es end.

(** After(s), with its loop over the set. *)
Definition After_set l (es : ExpectationSet) : cmd st unit :=
  b ← base_of l;
  ExpectSpecProperty (clause_le (last_clause_ b) kAfter)
    ".After() cannot appear after .WillOnce(), .WillRepeatedly(), or .RetiresOnSaturation().";;
  update_base l (set_last_clause kAfter);;
  add_each l (elements_of es).

Definition After2 l (s1 s2 : ExpectationSet) : cmd st unit := After_set l s1;; After_set l s2.
Definition After3 l (s1 s2 s3 : ExpectationSet) : cmd st unit := After2 l s1 s2;; After_set l s3.
Definition After4 l (s1 s2 s3 s4 : ExpectationSet) : cmd st unit := After3 l s1 s2 s3;; After_set l s4.
Definition After5 l (s1 s2 s3 s4 s5 : ExpectationSet) : cmd st unit := After4 l s1 s2 s3 s4;; After_set l s5.

Lemma add_prerequisites_app (b : ExpectationBase A) es fs :
  add_prerequisites fs (add_prerequisites es b) = add_prerequisites (es ∪ fs) b.
Proof. unfold add_prerequisites. cbn. f_equal. set_solver. Qed.

Lemma set_bases_twice v v' s : set_bases v (set_bases v' s) = set_bases v s.
Proof. done. Qed.

Lemma add_each_run l es b s :
  bases s !! l = Some b →
  add_each l es s = (Done (), set_bases (<[l := add_prerequisites (list_to_set es) b]> (bases s)) s).
Proof.
  revert b s. induction es as [|e es IH]; intros b s Hb; cbn.
  - unfold mret, cmd_ret. f_equal. destruct b, s; cbn in *. unfold set_bases, add_prerequisites. cbn.
    rewrite union_empty_r_L insert_id //.
  - rewrite (bind_done _ _ _ _ _ (update_base_run _ _ _ _ Hb)).
    rewrite (IH (add_prerequisites {[e]} b)); [apply lookup_insert_eq|]. cbn.
    by rewrite set_bases_twice insert_insert_eq add_prerequisites_app.
Qed.

Lemma update_add_run l es b s :
  bases s !! l = Some b →
  (update_base l (set_last_clause kAfter);; add_each l (elements_of es)) s =
  (update_base l (set_last_clause kAfter);; update_base l (add_prerequisites (to_gset es))) s.
Proof.
  intros Hb. rewrite !(bind_done _ _ _ _ _ (update_base_run _ _ _ _ Hb)).
  assert (bases (set_bases (<[l := set_last_clause kAfter b]> (bases s)) s) !! l = Some (set_last_clause kAfter b)) as Hb'.
  { apply lookup_insert_eq. }
  by rewrite (add_each_run _ _ _ _ Hb') (update_base_run _ _ _ _ Hb').
Qed.

(** The loop adds the set. *)
Lemma after_set_run l es s : After_set l es s = After l (to_gset es) s.
Proof.
  unfold After_set, After. destruct (bases s !! l) as [b|] eqn:Hb.
  - rewrite !(bind_done _ _ _ _ _ (base_of_run _ _ _ Hb)). unfold ExpectSpecProperty.
    destruct (clause_le (last_clause_ b) kAfter); [exact (update_add_run l es b s Hb)|].
    by apply (update_add_run l es b (report _ s)).
  - assert (base_of l s = (Undefined Dangling, s)) as Hu by (unfold base_of; run_step; by rewrite Hb).
    by rewrite !(bind_undefined _ _ _ _ _ Hu).
Qed.

(** One clause more. *)
Lemma clauses_snoc l (m k : cmd st unit) cs c :
  (∀ s, m s = run_clauses lib l cs s) → (∀ s, k s = run_clause lib l c s) →
  ∀ s, (m;; k) s = run_clauses lib l (cs ++ [c]) s.
Proof.
  intros Hm Hk s. transitivity ((run_clauses lib l cs;; run_clause lib l c) s).
  { rewrite /mbind /cmd_bind Hm. by destruct (run_clauses lib l cs s) as [[[]| | | | |] ?]. }
  clear m k Hm Hk. revert s. induction cs as [|d cs IH]; intros s; cbn [app run_clauses].
  - rewrite bind_ret_l /mbind /cmd_bind. by destruct (run_clause lib l c s) as [[[]| | | | |] ?].
  - rewrite bind_assoc /mbind /cmd_bind. destruct (run_clause lib l d s) as [[[]| | | | |] s']; [|done..]. apply IH.
Qed.

Lemma clauses_one l (m : cmd st unit) c : (∀ s, m s = run_clause lib l c s) → ∀ s, m s = run_clauses lib l [c] s.
Proof. intros Hm s. rewrite Hm /= /mbind /cmd_bind. by destruct (run_clause lib l c s) as [[[]| | | | |] ?]. Qed.

(** A clause with several arguments is one clause for each of them, in order. *)
Lemma in_sequence_clauses l (s1 s2 s3 s4 s5 : Seq) s :
  InSequence2 l s1 s2 s = run_clauses lib l (CInSequence <$> [s1; s2]) s ∧
  InSequence3 l s1 s2 s3 s = run_clauses lib l (CInSequence <$> [s1; s2; s3]) s ∧
  InSequence4 l s1 s2 s3 s4 s = run_clauses lib l (CInSequence <$> [s1; s2; s3; s4]) s ∧
  InSequence5 l s1 s2 s3 s4 s5 s = run_clauses lib l (CInSequence <$> [s1; s2; s3; s4; s5]) s.
Proof.
  assert (∀ s, InSequence2 l s1 s2 s = run_clauses lib l (CInSequence <$> [s1; s2]) s) as H2.
  { exact (clauses_snoc l _ _ [CInSequence s1] (CInSequence s2) (clauses_one l _ (CInSequence s1) (λ _, eq_refl)) (λ _, eq_refl)). }
  assert (∀ s, InSequence3 l s1 s2 s3 s = run_clauses lib l (CInSequence <$> [s1; s2; s3]) s) as H3.
  { exact (clauses_snoc l _ _ _ (CInSequence s3) H2 (λ _, eq_refl)). }
  assert (∀ s, InSequence4 l s1 s2 s3 s4 s = run_clauses lib l (CInSequence <$> [s1; s2; s3; s4]) s) as H4.
  { exact (clauses_snoc l _ _ _ (CInSequence s4) H3 (λ _, eq_refl)). }
  split_and!; [done..|]. exact (clauses_snoc l _ _ _ (CInSequence s5) H4 (λ _, eq_refl) s).
Qed.

Lemma after_clauses l (s1 s2 s3 s4 s5 : ExpectationSet) s :
  After2 l s1 s2 s = run_clauses lib l (CAfter ∘ to_gset <$> [s1; s2]) s ∧
  After3 l s1 s2 s3 s = run_clauses lib l (CAfter ∘ to_gset <$> [s1; s2; s3]) s ∧
  After4 l s1 s2 s3 s4 s = run_clauses lib l (CAfter ∘ to_gset <$> [s1; s2; s3; s4]) s ∧
  After5 l s1 s2 s3 s4 s5 s = run_clauses lib l (CAfter ∘ to_gset <$> [s1; s2; s3; s4; s5]) s.
Proof.
  assert (∀ es s, After_set l es s = run_clause lib l (CAfter (to_gset es)) s) as H1 by (intros; apply after_set_run).
  assert (∀ s, After2 l s1 s2 s = run_clauses lib l (CAfter ∘ to_gset <$> [s1; s2]) s) as H2.
  { exact (clauses_snoc l _ _ [CAfter (to_gset s1)] (CAfter (to_gset s2)) (clauses_one l _ _ (H1 s1)) (H1 s2)). }
  assert (∀ s, After3 l s1 s2 s3 s = run_clauses lib l (CAfter ∘ to_gset <$> [s1; s2; s3]) s) as H3.
  { exact (clauses_snoc l _ _ _ (CAfter (to_gset s3)) H2 (H1 s3)). }
  assert (∀ s, After4 l s1 s2 s3 s4 s = run_clauses lib l (CAfter ∘ to_gset <$> [s1; s2; s3; s4]) s) as H4.
  { exact (clauses_snoc l _ _ _ (CAfter (to_gset s4)) H3 (H1 s4)). }
  split_and!; [done..|]. exact (clauses_snoc l _ _ _ (CAfter (to_gset s5)) H4 (H1 s5) s).
Qed.
End clauses.

(** An ExpectationSet is the set of the handles that were added to it: it holds each of them
    once, in the order of their addresses; two are equal when they hold the same handles,
    whatever the order they were added in; its size is their number, cut to an int; and
    After with it adds just these prerequisites. *)
Theorem expectation_sets_are_sets (ls ks : list loc) :
  StronglySorted (λ x y, x < y) (elements_of (set_of ls)) ∧
  elements_of (set_of ls) ≡ₚ elements (list_to_set ls : gset loc) ∧
  ExpectationSet_eq (set_of ls) (set_of ks) = bool_decide ((list_to_set ls : gset loc) = list_to_set ks) ∧
  ExpectationSet_size (set_of ls) = int_of_size (size (list_to_set ls : gset loc)) ∧
  ∀ Ts A Seq W l (s : state Ts A Seq W), After_set l (set_of ls) s = After l (list_to_set ls) s.
Proof.
  destruct (set_of_spec ls) as [Hs He], (set_of_spec ks) as [Hs' He'].
  assert (elements_of (set_of ls) ≡ₚ elements (list_to_set ls : gset loc)) as Hp by by rewrite -He elements_permutation.
  split_and!; [done|done| | |].
  - unfold ExpectationSet_eq. rewrite ESet_eq_elements -He -He'. apply bool_decide_ext. split.
    + intros Hl. unfold to_gset, elements_of. by rewrite Hl.
    + by apply sorted_unique.
  - unfold ExpectationSet_size. f_equal. transitivity (length (elements_of (set_of ls))); [symmetry; apply length_fmap|by rewrite Hp].
  - intros Ts A Seq W l s. by rewrite after_set_run He.
Qed.
