(* ===== verification/Sequences.v ===== *)
(** Expectations in a sequence: EXPECT_CALL(...).After(previous).WillOnce(...)... of
    src/gtest/include/gmock/gmock-spec-builders.h, each after the one before it. The calls
    that are accepted are those in the declared order.

    What the prerequisites of an expectation are, that all of them must be satisfied and
    that a call retires them is the documented behaviour of the library
    ([SequenceLaws]). *)

From S2P Require Import Prelude Machine Tuples Printers Matchers SpecBuilders.
#[local] Open Scope Z_scope.

(** * Statements in a sequence *)

(** EXPECT_CALL(mock, method(m)).WillOnce(a1)...WillOnce(an)[.RetiresOnSaturation()]. *)
Record declaration (Ts : list Type) (A : Type) : Type := Declaration {
  d_address : loc;
  d_file : string;
  d_line : Z;
  d_text : string;
  d_matchers : matcher_tuple Ts;
  d_actions : list (Action A);
  d_retires : bool;
}.
Arguments Declaration {Ts A} _ _ _ _ _ _ _.
Arguments d_address {Ts A} _.
Arguments d_file {Ts A} _.
Arguments d_line {Ts A} _.
Arguments d_text {Ts A} _.
Arguments d_matchers {Ts A} _.
Arguments d_actions {Ts A} _.
Arguments d_retires {Ts A} _.

Section program.
Context {Ts : list Type} {A Seq W : Type} (lib : gmock_library Ts A Seq W).
Notation st := (state Ts A Seq W).

(** One statement, with After when there is one before it. *)
Definition declare_one (previous : option loc) (d : declaration Ts A) : cmd st unit :=
  AddNewExpectation lib (d_address d) (d_file d) (d_line d) (d_text d) (d_matchers d);;
  match previous with None => mret () | Some e => After (d_address d) {[e]} end;;
  will_once_all lib (d_address d) (d_actions d);;
  when (d_retires d) (RetiresOnSaturation lib (d_address d)).

Fixpoint declare (previous : option loc) (ds : list (declaration Ts A)) : cmd st unit :=
  match ds with
  | [] => mret ()
  | d :: ds => declare_one previous d;; declare (Some (d_address d)) ds
  end.
End program.

(** * What is expected of the calls *)

(** An expectation of as many calls as it has actions: how many there were, and whether it
    is retired. *)
Record slot (A : Type) : Type := Slot { s_actions : list (Action A); s_calls : nat; s_retires : bool; s_retired : bool }.
Arguments Slot {A} _ _ _ _.
Arguments s_actions {A} _.
Arguments s_calls {A} _.
Arguments s_retires {A} _.
Arguments s_retired {A} _.

Section slots.
Context {A : Type}.
Implicit Types (sl : slot A) (slots : list (slot A)).

Definition satisfied_slot sl : bool := bool_decide (s_calls sl = length (s_actions sl)).
Definition saturated_slot sl : bool := bool_decide (length (s_actions sl) ≤ s_calls sl)%nat.
Definition one_more sl : slot A := Slot (s_actions sl) (S (s_calls sl)) (s_retires sl) (s_retired sl).
Definition retire sl : slot A := Slot (s_actions sl) (s_calls sl) (s_retires sl) true.
Definition retire_before (i : nat) slots : list (slot A) := (retire <$> take i slots) ++ drop i slots.

(** A call that only the expectation [i] matches: the action and whether it is excessive,
    or nothing when it is unexpected; and what becomes of the expectations. *)
Definition slot_call slots (i : nat) : option (Action A * bool) * list (slot A) :=
  match slots !! i with
  | Some sl =>
      if negb (s_retired sl) && forallb satisfied_slot (take i slots) then
        let called := <[i := one_more sl]> slots in
        if saturated_slot sl then (Some (None, true), called)
        else
          let called := retire_before i called in
          (Some (default None (s_actions sl !! s_calls sl), false),
           if s_retires sl && saturated_slot (one_more sl) then <[i := retire (one_more sl)]> called else called)
      else (None, slots)
  | None => (None, slots)
  end.

Fixpoint slot_calls slots (idxs : list nat) : list (option (Action A * bool)) * list (slot A) :=
  match idxs with
  | [] => ([], slots)
  | i :: idxs =>
      let '(o, slots) := slot_call slots i in
      let '(os, slots) := slot_calls slots idxs in (o :: os, slots)
  end.

(** The calls still to come, in order: the number of the expectation and the action. *)
Fixpoint remaining (k : nat) slots : list (nat * Action A) :=
  match slots with
  | [] => []
  | sl :: slots => ((λ a, (k, a)) <$> drop (s_calls sl) (s_actions sl)) ++ remaining (S k) slots
  end.

Definition accepted (o : option (Action A * bool)) : Prop := match o with Some (_, false) => True | _ => False end.

(** No expectation was called too often, and only complete ones are retired. *)
Definition sound_slot sl : Prop :=
  (s_calls sl ≤ length (s_actions sl))%nat ∧ (s_retired sl = true → s_calls sl = length (s_actions sl)).

Lemma remaining_complete k pre slots :
  Forall (λ sl, satisfied_slot sl = true) pre → remaining k (pre ++ slots) = remaining (k + length pre) slots.
Proof.
  intros Hpre. revert k. induction Hpre as [|sl pre Hsl _ IH]; intros k; [by rewrite Nat.add_0_r|].
  unfold satisfied_slot in Hsl. rewrite bool_decide_eq_true in Hsl. cbn [app remaining].
  rewrite drop_ge; [lia|]. rewrite IH. simpl. f_equal. lia.
Qed.

(** The next expected call is that of the first incomplete expectation. *)
Lemma remaining_head k slots j a rest :
  Forall sound_slot slots → remaining k slots = (j, a) :: rest →
  ∃ pre sl post, slots = pre ++ sl :: post ∧ j = (k + length pre)%nat ∧
    Forall (λ sl, satisfied_slot sl = true) pre ∧ s_retired sl = false ∧ saturated_slot sl = false ∧
    s_actions sl !! s_calls sl = Some a ∧
    rest = ((λ a, (j, a)) <$> drop (S (s_calls sl)) (s_actions sl)) ++ remaining (S j) post.
Proof.
  intros Hs. revert k. induction Hs as [|sl slots [Hle Hret] _ IH]; intros k Hr; [done|]. cbn [remaining] in Hr.
  destruct (drop (s_calls sl) (s_actions sl)) as [|b acts] eqn:Hd.
  - destruct (IH (S k) Hr) as (pre & sl' & post & -> & -> & Hpre & Hsl' & Hsat & Ha & Hrest).
    exists (sl :: pre), sl', post. split_and!; try done; [simpl; lia|].
    constructor; [|done]. apply bool_decide_eq_true. apply (f_equal length) in Hd.
    rewrite length_drop /= in Hd. lia.
  - simpl in Hr. injection Hr as <- <- <-. exists [], sl, slots.
    assert (s_actions sl !! s_calls sl = Some b) as Hb.
    { rewrite -(Nat.add_0_r (s_calls sl)) -lookup_drop Hd. done. }
    pose proof (lookup_lt_Some _ _ _ Hb) as Hlt. rewrite Nat.add_0_r.
    split_and!; try done.
    + destruct (s_retired sl); [lia|done].
    + apply bool_decide_eq_false. lia.
    + do 2 f_equal. rewrite -Nat.add_1_r -drop_drop Hd. done.
Qed.

(** What a call leaves of the expectation it is for. *)
Definition after_call sl : slot A :=
  if s_retires sl && saturated_slot (one_more sl) then retire (one_more sl) else one_more sl.

Lemma slot_call_middle pre sl post :
  slot_call (pre ++ sl :: post) (length pre) =
  if negb (s_retired sl) && forallb satisfied_slot pre then
    if saturated_slot sl then (Some (None, true), pre ++ one_more sl :: post)
    else (Some (default None (s_actions sl !! s_calls sl), false), (retire <$> pre) ++ after_call sl :: post)
  else (None, pre ++ sl :: post).
Proof.
  unfold slot_call. rewrite list_lookup_middle // take_app_length.
  destruct (negb (s_retired sl) && forallb satisfied_slot pre); [|done].
  rewrite insert_app_r_alt // Nat.sub_diag. cbn [insert list_insert]. destruct (saturated_slot sl); [done|].
  unfold retire_before. rewrite take_app_length drop_app_length. unfold after_call.
  destruct (s_retires sl && saturated_slot (one_more sl)); [|done].
  by rewrite insert_app_r_alt length_fmap // Nat.sub_diag.
Qed.

Lemma slot_call_outside slots i : slots !! i = None → slot_call slots i = (None, slots).
Proof. unfold slot_call. by intros ->. Qed.

(** A call is accepted exactly when it is the next expected one. *)
Lemma accepted_next slots i :
  Forall sound_slot slots → accepted (fst (slot_call slots i)) → ∃ a rest, remaining 0 slots = (i, a) :: rest.
Proof.
  intros Hs Hacc. destruct (slots !! i) as [sl|] eqn:Hi; [|by rewrite slot_call_outside in Hacc].
  destruct (list_elem_of_split_length _ _ _ Hi) as (pre & post & -> & ->).
  rewrite slot_call_middle in Hacc. apply Forall_app in Hs as [_ [[Hle _] _]%Forall_cons].
  destruct (negb (s_retired sl)); [|done]. destruct (forallb satisfied_slot pre) eqn:Hpre; [|done].
  cbn [andb] in Hacc. destruct (saturated_slot sl) eqn:Hsat; [done|].
  pose proof (proj1 (forallb_forall _ _) Hpre) as Hall.
  rewrite remaining_complete; [by apply Forall_forall; intros x Hx; apply Hall, list_elem_of_In|].
  cbn [remaining]. rewrite Nat.add_0_l. unfold saturated_slot in Hsat. rewrite bool_decide_eq_false in Hsat.
  destruct (drop (s_calls sl) (s_actions sl)) as [|a acts] eqn:Hd.
  - apply (f_equal length) in Hd. rewrite length_drop /= in Hd. lia.
  - simpl. by do 2 eexists.
Qed.

(** The next expected call gets its action, and those after it remain. *)
Lemma next_accepted slots i a rest :
  Forall sound_slot slots → remaining 0 slots = (i, a) :: rest →
  let '(o, slots') := slot_call slots i in
  o = Some (a, false) ∧ remaining 0 slots' = rest ∧ Forall sound_slot slots'.
Proof.
  intros Hs Hr. destruct (remaining_head 0 slots i a rest Hs Hr)
    as (pre & sl & post & -> & -> & Hpre & Hret & Hsat & Ha & ->). rewrite Nat.add_0_l slot_call_middle Hret Hsat.
  assert (forallb satisfied_slot pre = true) as ->.
  { apply forallb_forall. intros x Hx%list_elem_of_In. by apply (proj1 (Forall_forall _ _) Hpre). }
  cbn [negb andb]. rewrite Ha. split; [done|].
  apply Forall_app in Hs as [Hspre [[Hle _] Hspost]%Forall_cons].
  unfold saturated_slot in Hsat. rewrite bool_decide_eq_false in Hsat.
  assert (s_actions (after_call sl) = s_actions sl ∧ s_calls (after_call sl) = S (s_calls sl)) as [Hacts Hcalls].
  { unfold after_call. by destruct (_ && _). }
  split.
  - rewrite remaining_complete; [by apply Forall_fmap, (Forall_impl _ _ _ Hpre)|].
    cbn [remaining]. by rewrite Hacts Hcalls length_fmap Nat.add_0_l.
  - apply Forall_app. split; [|constructor; [|done]].
    + apply Forall_fmap. apply Forall_forall. intros x Hx. split; [by apply (proj1 (Forall_forall _ _) Hspre x Hx)|].
      intros _. apply (proj1 (bool_decide_eq_true _)). exact (proj1 (Forall_forall _ _) Hpre x Hx).
    + split; rewrite Hacts Hcalls; [lia|]. unfold after_call, saturated_slot. cbn [one_more s_actions s_calls].
      case_bool_decide; [lia|]. rewrite andb_false_r. cbn. by rewrite Hret.
Qed.

(** Of a sequence of calls all are accepted exactly when they are the first ones that are
    expected, and then they get the actions of these. *)
Lemma calls_in_order slots idxs :
  Forall sound_slot slots →
  let os := fst (slot_calls slots idxs) in
  (Forall accepted os ↔ idxs `prefix_of` (remaining 0 slots).*1) ∧
  (Forall accepted os → os = (λ a, Some (a, false)) <$> take (length idxs) (remaining 0 slots).*2).
Proof.
  revert slots. induction idxs as [|i idxs IH]; intros slots Hs; cbn [slot_calls fst].
  { split; [split; [intros _; apply prefix_nil|by constructor]|done]. }
  destruct (slot_call slots i) as [o slots'] eqn:Hc. destruct (slot_calls slots' idxs) as [os slots''] eqn:Hcs. cbn [fst].
  assert (accepted o → ∃ a rest, remaining 0 slots = (i, a) :: rest) as Hnext.
  { intros Hacc. apply accepted_next; [done|]. by rewrite Hc. }
  split; [split|].
  - intros [(a & rest & Hr)%Hnext Hos]%Forall_cons. pose proof (next_accepted slots i a rest Hs Hr) as Hn.
    rewrite Hc in Hn. destruct Hn as (-> & Hrest & Hs'). destruct (IH slots' Hs') as [[IH1 _] _].
    rewrite Hcs Hrest in IH1. rewrite Hr. simpl. by apply prefix_cons, IH1.
  - intros Hpre. destruct (remaining 0 slots) as [|[j a] rest] eqn:Hr; simpl in Hpre.
    { by apply prefix_nil_not in Hpre. }
    assert (i = j) as <- by (by apply prefix_cons_inv_1 in Hpre). apply prefix_cons_inv_2 in Hpre.
    pose proof (next_accepted slots i a rest Hs Hr) as Hn. rewrite Hc in Hn. destruct Hn as (-> & Hrest & Hs').
    destruct (IH slots' Hs') as [[_ IH2] _]. rewrite Hcs Hrest in IH2. constructor; [done|by apply IH2].
  - intros [(a & rest & Hr)%Hnext Hos]%Forall_cons. pose proof (next_accepted slots i a rest Hs Hr) as Hn.
    rewrite Hc in Hn. destruct Hn as (-> & Hrest & Hs'). destruct (IH slots' Hs') as [_ IH2].
    rewrite Hcs Hrest in IH2. rewrite Hr. simpl. f_equal. by apply IH2.
Qed.
End slots.

(** * The documented behaviour of prerequisites *)

Section laws.
Context {Ts : list Type} {A Seq W : Type}.
Notation st := (state Ts A Seq W).

(** e is a prerequisite of l, or of one of them. *)
Definition needs (s : st) (e l : loc) : Prop := ∃ b, bases s !! l = Some b ∧ e ∈ immediate_prerequisites_ b.
Definition prerequisite (s : st) : loc → loc → Prop := tc (needs s).

Class SequenceLaws (lib : gmock_library Ts A Seq W) : Prop := {
  (** Creates a cardinality that allows exactly n calls. *)
  exactly_satisfied : ∀ n c, IsSatisfiedByCallCount (Exactly lib n) c = bool_decide (c = n);
  (** Returns true iff all pre-requisites of this expectation are satisfied. *)
  all_satisfied : ∀ l s,
    AllPrerequisitesAreSatisfied lib l s = true ↔
    ∀ e b, prerequisite s e l → bases s !! e = Some b → IsSatisfied b = true;
  (** Retires all pre-requisites of this expectation. *)
  retires_prerequisites : ∀ l s e,
    prerequisite s e l → bases (RetireAllPreRequisites lib l s) !! e = set_retired true <$> bases s !! e;
  retires_no_other : ∀ l s e,
    ¬ prerequisite s e l → bases (RetireAllPreRequisites lib l s) !! e = bases s !! e;
}.
End laws.

(** * A chain of expectations *)

Section chains.
Context {Ts : list Type} {A Seq W : Type} (lib : gmock_library Ts A Seq W) `{!GMockLaws lib, !SequenceLaws lib}.
Context (ps : printers Ts) (returns_void : bool).
Notation st := (state Ts A Seq W).
Implicit Types (s : st) (l : loc) (ls : list loc) (args : tuple Ts) (b : ExpectationBase A)
  (sl : slot A) (slots : list (slot A)).

Definition previous (before : list loc) : gset loc := match last before with None => ∅ | Some e => {[e]} end.

(** The object of an expectation that follows those at [before]. *)
Record base_is (es : gset loc) b sl : Prop := BaseIs {
  bi_prerequisites : immediate_prerequisites_ b = es;
  bi_calls : call_count_ b = Z.of_nat (s_calls sl);
  bi_retired : retired_ b = s_retired sl;
  bi_actions : untyped_actions_ b = s_actions sl;
  bi_retires : retires_on_saturation_ b = s_retires sl;
  bi_saturated n : 0 ≤ n →
    IsSaturatedByCallCount (cardinality_ b) n = bool_decide (Z.of_nat (length (s_actions sl)) ≤ n);
  bi_satisfied n : 0 ≤ n →
    IsSatisfiedByCallCount (cardinality_ b) n = bool_decide (n = Z.of_nat (length (s_actions sl)));
}.

Definition object_is s (before : list loc) l (m : matcher_tuple Ts) sl : Prop :=
  (∃ b, bases s !! l = Some b ∧ base_is (previous before) b sl) ∧
  typed s !! l = Some (MkTypedPart m Matchers.A None).

(** The expectations of a mock function, each after the one before it. *)
Record chain s ls (ms : list (matcher_tuple Ts)) slots : Prop := Chain {
  ch_expectations : untyped_expectations_ s = ls;
  ch_nodup : NoDup ls;
  ch_matchers : length ms = length ls;
  ch_slots : length slots = length ls;
  ch_objects i l m sl :
    ls !! i = Some l → ms !! i = Some m → slots !! i = Some sl → object_is s (take i ls) l m sl;
}.

Lemma chain_lookup s ls ms slots i l :
  chain s ls ms slots → ls !! i = Some l →
  ∃ m sl b, ms !! i = Some m ∧ slots !! i = Some sl ∧ bases s !! l = Some b ∧
    base_is (previous (take i ls)) b sl ∧ typed s !! l = Some (MkTypedPart m Matchers.A None).
Proof.
  intros Hc Hl. pose proof (lookup_lt_Some _ _ _ Hl).
  destruct (lookup_lt_is_Some_2 ms i) as [m Hm]; [by rewrite (ch_matchers _ _ _ _ Hc)|].
  destruct (lookup_lt_is_Some_2 slots i) as [sl Hsl]; [by rewrite (ch_slots _ _ _ _ Hc)|].
  destruct (ch_objects _ _ _ _ Hc i l m sl Hl Hm Hsl) as [(b & Hb & Hi) Ht]. by exists m, sl, b.
Qed.

Lemma chain_alive s ls ms slots : chain s ls ms slots → Forall (alive s) (untyped_expectations_ s).
Proof.
  intros Hc. rewrite (ch_expectations _ _ _ _ Hc). apply Forall_lookup. intros i l Hl.
  destruct (chain_lookup s ls ms slots i l Hc Hl) as (m & sl & b & _ & _ & Hb & _ & Ht). split; by eexists.
Qed.

Lemma previous_take ls i : previous (take i ls) = match i with O => ∅ | S j => match ls !! j with Some e => {[e]} | None => previous ls end end.
Proof.
  unfold previous. destruct i as [|j]; [done|]. destruct (ls !! j) as [e|] eqn:He.
  - by rewrite (take_S_r _ _ e He) last_snoc.
  - apply lookup_ge_None in He. rewrite take_ge //. lia.
Qed.

(** The prerequisites of an expectation are those before it. *)
Lemma chain_prerequisite s ls ms slots i l e :
  chain s ls ms slots → ls !! i = Some l →
  prerequisite s e l ↔ ∃ j, (j < i)%nat ∧ ls !! j = Some e.
Proof.
  intros Hc Hl.
  assert (∀ i l e, ls !! i = Some l → needs s e l ↔ ∃ j, i = S j ∧ ls !! j = Some e) as Hone.
  { clear i l e Hl. intros i l e Hl.
    destruct (chain_lookup s ls ms slots i l Hc Hl) as (m & sl & b & _ & _ & Hb & Hi & _).
    pose proof (bi_prerequisites _ _ _ Hi) as Hp. rewrite previous_take in Hp.
    unfold needs. rewrite Hb. destruct i as [|j]; [set_solver|].
    destruct (lookup_lt_is_Some_2 ls j) as [e' He']; [apply lookup_lt_Some in Hl; lia|].
    rewrite He' in Hp. set_solver. }
  split.
  - intros Htc. revert i Hl. induction Htc as [e l Hn|e e' l Hn _ IH]; intros i Hl.
    + destruct (proj1 (Hone i l e Hl) Hn) as (j & -> & Hj). exists j. auto with lia.
    + destruct (IH i Hl) as (j & Hj & He'). destruct (proj1 (Hone j e' e He') Hn) as (k & -> & Hk).
      exists k. auto with lia.
  - intros (j & Hj & He). revert l Hl. induction i as [|i IH]; intros l Hl; [lia|].
    destruct (lookup_lt_is_Some_2 ls i) as [l' Hl']; [apply lookup_lt_Some in Hl; lia|].
    assert (needs s l' l) as Hn by (apply (Hone (S i) l l' Hl); eauto).
    destruct (decide (j = i)) as [->|Hne].
    + assert (e = l') as -> by congruence. by apply tc_once.
    + eapply tc_r; [apply IH; [lia|exact Hl']|exact Hn].
Qed.

Lemma base_satisfied es b sl : base_is es b sl → IsSatisfied b = satisfied_slot sl.
Proof.
  intros Hb. unfold IsSatisfied, satisfied_slot. rewrite (bi_satisfied _ _ _ Hb) (bi_calls _ _ _ Hb); [lia|].
  apply bool_decide_ext. lia.
Qed.

Lemma base_saturated es b sl : base_is es b sl → IsSaturated b = saturated_slot sl.
Proof.
  intros Hb. unfold IsSaturated, saturated_slot. rewrite (bi_saturated _ _ _ Hb) (bi_calls _ _ _ Hb); [lia|].
  apply bool_decide_ext. lia.
Qed.

Lemma chain_satisfied s ls ms slots i l :
  chain s ls ms slots → ls !! i = Some l →
  AllPrerequisitesAreSatisfied lib l s = forallb satisfied_slot (take i slots).
Proof.
  intros Hc Hl. apply eq_true_iff_eq. rewrite all_satisfied forallb_forall. split.
  - intros Hall sl Hin%list_elem_of_In. apply list_elem_of_lookup in Hin as [j Hj].
    apply lookup_take_Some in Hj as [Hj Hji].
    destruct (lookup_lt_is_Some_2 ls j) as [e He]; [apply lookup_lt_Some in Hl; lia|].
    destruct (chain_lookup s ls ms slots j e Hc He) as (m & sl' & b & _ & Hsl' & Hb & Hi & _).
    assert (sl' = sl) as -> by congruence. rewrite -(base_satisfied _ _ _ Hi).
    apply (Hall e b); [|done]. apply (chain_prerequisite s ls ms slots i); eauto.
  - intros Hall e b Hpre Hb. apply (chain_prerequisite s ls ms slots i) in Hpre as (j & Hji & He); [|done..].
    destruct (chain_lookup s ls ms slots j e Hc He) as (m & sl & b' & _ & Hsl & Hb' & Hi & _).
    assert (b' = b) as -> by congruence. rewrite (base_satisfied _ _ _ Hi). apply Hall, list_elem_of_In.
    apply list_elem_of_lookup. exists j. by apply lookup_take_Some.
Qed.

(** ** Changes of the state *)

Lemma chain_checked s s' ls ms slots : same_but_checked s s' → chain s ls ms slots → chain s' ls ms slots.
Proof.
  intros Hs Hc. destruct Hc. constructor; try done; [by rewrite (sbc_expectations _ _ Hs)|].
  intros i l m sl Hl Hm Hsl. destruct (ch_objects0 i l m sl Hl Hm Hsl) as [(b & Hb & Hi) Ht].
  split; [|by rewrite (sbc_typed _ _ Hs)].
  destruct (checked_lookup _ _ _ _ Hs Hb) as (b' & Hb' & Heq). exists b'. split; [done|].
  apply set_checked_fields in Heq. rewrite Heq. by destruct Hi.
Qed.

Lemma chain_rest s ls ms slots r : chain s ls ms slots → chain (set_rest r s) ls ms slots.
Proof. by intros []. Qed.

(** One object changes. *)
Lemma chain_update s ls ms slots i l b sl :
  chain s ls ms slots → ls !! i = Some l → base_is (previous (take i ls)) b sl →
  chain (set_bases (<[l := b]> (bases s)) s) ls ms (<[i := sl]> slots).
Proof.
  intros Hc Hl Hb. pose proof (ch_nodup _ _ _ _ Hc) as Hnd. destruct Hc. constructor; try done; [by rewrite length_insert|].
  intros j l' m sl' Hl' Hm Hsl'. destruct (decide (i = j)) as [<-|Hne].
  - rewrite list_lookup_insert_eq in Hsl'; [rewrite ch_slots0; by eapply lookup_lt_Some|].
    injection Hsl' as <-. assert (l' = l) as -> by congruence.
    split; [exists b; by rewrite /= lookup_insert_eq|].
    destruct (lookup_lt_is_Some_2 slots i) as [sl0 Hsl0]; [rewrite ch_slots0; by eapply lookup_lt_Some|].
    by destruct (ch_objects0 i l m sl0 Hl Hm Hsl0).
  - rewrite list_lookup_insert_ne // in Hsl'. destruct (ch_objects0 j l' m sl' Hl' Hm Hsl') as [(b' & Hb' & Hi) Ht].
    split; [|done]. exists b'. split; [|done]. cbn. rewrite lookup_insert_ne //.
    intros ->. apply Hne. exact (NoDup_lookup _ _ _ _ Hnd Hl Hl').
Qed.

Lemma retire_before_lookup i slots j :
  retire_before i slots !! j = (if decide (j < i)%nat then retire <$> slots !! j else slots !! j).
Proof.
  unfold retire_before. destruct (decide (i ≤ length slots)%nat) as [Hi|Hi].
  - case_decide as Hj.
    + rewrite lookup_app_l ?length_fmap ?length_take; [lia|]. by rewrite list_lookup_fmap lookup_take_lt.
    + rewrite lookup_app_r ?length_fmap ?length_take; [lia|]. rewrite lookup_drop. f_equal. lia.
  - rewrite take_ge ?drop_ge ?app_nil_r; [lia..|]. rewrite list_lookup_fmap. case_decide; [done|].
    rewrite lookup_ge_None_2 //. lia.
Qed.

Lemma chain_retire s ls ms slots i l :
  chain s ls ms slots → ls !! i = Some l →
  chain (RetireAllPreRequisites lib l s) ls ms (retire_before i slots).
Proof.
  intros Hc Hl. pose proof (retire_law l s) as Hs. constructor.
  - rewrite (sc_expectations _ _ Hs). apply (ch_expectations _ _ _ _ Hc).
  - apply (ch_nodup _ _ _ _ Hc).
  - apply (ch_matchers _ _ _ _ Hc).
  - unfold retire_before. rewrite length_app length_fmap -length_app take_drop. apply (ch_slots _ _ _ _ Hc).
  - intros j l' m sl Hl' Hm Hsl. rewrite retire_before_lookup in Hsl.
    destruct (chain_lookup s ls ms slots j l' Hc Hl') as (m' & sl' & b & Hm' & Hsl' & Hb & Hi & Ht).
    assert (m' = m) as -> by congruence. split; [|by rewrite (sc_typed _ _ Hs)]. rewrite Hsl' in Hsl.
    case_decide as Hj.
    + injection Hsl as <-. exists (set_retired true b). split; [|by destruct Hi].
      rewrite retires_prerequisites ?Hb //. apply (chain_prerequisite s ls ms slots i); eauto.
    + injection Hsl as <-. exists b. split; [|done]. rewrite retires_no_other ?Hb //.
      intros (k & Hk & Hlk)%(chain_prerequisite s ls ms slots i); [|done..].
      pose proof (NoDup_lookup _ _ _ _ (ch_nodup _ _ _ _ Hc) Hl' Hlk). lia.
Qed.
(** ** Calls *)

Definition small_slot sl : Prop :=
  Z.of_nat (s_calls sl) < INT_MAX ∧ Z.of_nat (length (s_actions sl)) ≤ INT_MAX.

Lemma base_is_one_more es b sl : base_is es b sl → base_is es (set_call_count (call_count_ b + 1) b) (one_more sl).
Proof. intros []. constructor; try done. cbn. lia. Qed.

Lemma base_is_retire es b sl : base_is es b sl → base_is es (set_retired true b) (retire sl).
Proof. by intros []. Qed.

Lemma base_is_countable es b sl : base_is es b sl → small_slot sl → countable b.
Proof. intros Hb [? ?]. split; rewrite ?(bi_calls _ _ _ Hb) ?(bi_actions _ _ _ Hb); lia. Qed.

(** What the search settles on: the expectation the arguments are for, when it is active. *)
Definition for_slot (ms : list (matcher_tuple Ts)) args (i : nat) : Prop :=
  ∀ j m, ms !! j = Some m → TupleMatches ps m args = bool_decide (j = i).

Lemma chain_handles s ls ms slots args i j l :
  chain s ls ms slots → for_slot ms args i → ls !! j = Some l →
  handles lib ps s args l =
    bool_decide (j = i) && match slots !! j with
                           | Some sl => negb (s_retired sl) && forallb satisfied_slot (take j slots)
                           | None => false end.
Proof.
  intros Hc Hfor Hl. destruct (chain_lookup s ls ms slots j l Hc Hl) as (m & sl & b & Hm & Hsl & Hb & Hi & Ht).
  unfold handles. rewrite Hb Ht Hsl (bi_retired _ _ _ Hi) (chain_satisfied s ls ms slots j l Hc Hl).
  unfold exp_Matches. cbn [matchers_ extra_matcher_]. rewrite (Hfor j m Hm).
  assert (Matches (Matchers.A (T:=tuple Ts)) args = true) as -> by done. rewrite andb_true_r. by rewrite andb_comm.
Qed.

(** A call that is not excessive. *)
Lemma chain_get_action s ls ms slots i l b sl args :
  chain s ls ms slots → ls !! i = Some l → slots !! i = Some sl → bases s !! l = Some b →
  base_is (previous (take i ls)) b sl → small_slot sl → saturated_slot sl = false →
  ∃ what why s', GetActionForArguments lib returns_void l args s =
      (Done (Some (default None (s_actions sl !! s_calls sl)), what, why), s') ∧
    chain s' ls ms (let called := retire_before i (<[i := one_more sl]> slots) in
                    if s_retires sl && saturated_slot (one_more sl) then <[i := retire (one_more sl)]> called else called).
Proof.
  intros Hc Hl Hsl Hb Hi Hsmall Hsat. unfold GetActionForArguments.
  rewrite (bind_done _ _ _ _ _ (base_of_run _ _ _ Hb)) (base_saturated _ _ _ Hi) Hsat.
  rewrite (bind_done _ _ _ _ _ (increment_call_run _ _ _ Hb (base_is_countable _ _ _ Hi Hsmall))).
  pose proof (chain_update s ls ms slots i l _ _ Hc Hl (base_is_one_more _ _ _ Hi)) as Hc1.
  fold (counted l b s) in Hc1. set (s1 := counted l b s) in *.
  pose proof (chain_retire s1 ls ms _ i l Hc1 Hl) as Hc2. set (s2 := RetireAllPreRequisites lib l s1) in *.
  rewrite (bind_done _ _ s1 () s2) //. set (slots2 := retire_before i (<[i := one_more sl]> slots)) in *.
  assert (slots2 !! i = Some (one_more sl)) as Hsl2.
  { unfold slots2. rewrite retire_before_lookup decide_False; [lia|].
    rewrite list_lookup_insert_eq //. by eapply lookup_lt_Some. }
  destruct (chain_lookup s2 ls ms slots2 i l Hc2 Hl) as (m & sl2 & b2 & Hm & Hsl2' & Hb2 & Hi2 & Ht2).
  assert (sl2 = one_more sl) as -> by congruence.
  rewrite (bind_done _ _ _ _ _ (base_of_run _ _ _ Hb2)) (bi_retires _ _ _ Hi2) (base_saturated _ _ _ Hi2).
  cbn [s_retires one_more]. fold (one_more sl).
  set (q := s_retires sl && saturated_slot (one_more sl)).
  assert (∃ s3 b3 sl3, when q (update_base l (set_retired true)) s2 = (Done (), s3) ∧
    chain s3 ls ms (if q then <[i := retire (one_more sl)]> slots2 else slots2) ∧
    bases s3 !! l = Some b3 ∧ base_is (previous (take i ls)) b3 sl3 ∧ typed s3 !! l = Some (MkTypedPart m Matchers.A None) ∧
    s_actions sl3 = s_actions sl ∧ s_calls sl3 = S (s_calls sl)) as (s3 & b3 & sl3 & Hrun & Hc3 & Hb3 & Hi3 & Ht3 & Ha3 & Hn3).
  { destruct q; cbn [when].
    - rewrite (update_base_run _ _ _ _ Hb2). eexists _, _, (retire (one_more sl)). split; [done|].
      split; [apply chain_update; [done..|by apply base_is_retire]|]. cbn. rewrite lookup_insert_eq.
      split; [done|]. split; [by apply base_is_retire|done].
    - by exists s2, b2, (one_more sl). }
  rewrite (bind_done _ _ _ _ _ Hrun). destruct Hsmall as [Hcount Hlen].
  destruct (get_current_run lib returns_void l b3 _ s3 args Hb3 Ht3) as [r Hr].
  { rewrite (bi_calls _ _ _ Hi3) Hn3. lia. }
  { by rewrite (bi_actions _ _ _ Hi3) Ha3. }
  rewrite (bind_done _ _ _ _ _ Hr). do 3 eexists. split; [|by apply chain_rest].
  unfold action_at. rewrite (bi_actions _ _ _ Hi3) Ha3 (bi_calls _ _ _ Hi3) Hn3. cbn [repeated_action_].
  do 5 f_equal. replace (Z.to_nat _) with (s_calls sl) by lia. done.
Qed.
Definition answer ls (i : nat) (o : option (Action A * bool)) : option (loc * Action A * bool) :=
  match ls !! i, o with Some l, Some (a, excessive) => Some (l, a, excessive) | _, _ => None end.

(** An expectation that is active handles its call. *)
Lemma chain_handled s ls ms slots args i l sl :
  chain s ls ms slots → Forall small_slot slots → ls !! i = Some l → slots !! i = Some sl →
  handles lib ps s args l = true → (∀ k l', ls !! k = Some l' → k ≠ i → handles lib ps s args l' = false) →
  ∃ a what why s', UntypedFindMatchingExpectation lib ps returns_void args s =
      (Done (Some (l, a, saturated_slot sl), what, why), s') ∧
    (if saturated_slot sl then a = None ∧ chain s' ls ms (<[i := one_more sl]> slots)
     else a = default None (s_actions sl !! s_calls sl) ∧
          chain s' ls ms (let called := retire_before i (<[i := one_more sl]> slots) in
            if s_retires sl && saturated_slot (one_more sl) then <[i := retire (one_more sl)]> called else called)).
Proof.
  intros Hc Hsmall Hl Hsl Hh Hothers. pose proof (chain_alive s ls ms slots Hc) as Hal.
  unfold UntypedFindMatchingExpectation, FindMatchingExpectationLocked.
  destruct (find_matching_run lib ps (reverse (untyped_expectations_ s)) s args) as (s1 & Hf & H1);
    [by apply Forall_reverse|].
  rewrite (ch_expectations _ _ _ _ Hc) -(take_drop_middle ls i l Hl) find_last in Hf; [done| |].
  { apply Forall_lookup. intros j l'. rewrite lookup_drop. intros Hj. apply (Hothers (S i + j)%nat l' Hj). lia. }
  rewrite take_drop_middle // -(ch_expectations _ _ _ _ Hc) in Hf.
  rewrite (bind_done _ _ s (Some l) s1); [by rewrite (bind_done _ _ s s s)|].
  pose proof (chain_checked _ _ _ _ _ H1 Hc) as Hc1.
  destruct (chain_lookup s1 ls ms slots i l Hc1 Hl) as (m & sl' & b & Hm & Hsl' & Hb & Hi & Ht).
  assert (sl' = sl) as -> by congruence.
  assert (small_slot sl) as Hsm by (apply (proj1 (Forall_lookup _ _) Hsmall i sl Hsl)).
  rewrite (bind_done _ _ _ _ _ (base_of_run _ _ _ Hb)) (base_saturated _ _ _ Hi).
  destruct (saturated_slot sl) eqn:Hsat.
  - destruct (get_action_saturated lib returns_void l b s1 args Hb (base_is_countable _ _ _ Hi Hsm))
      as (what & why & Hg); [by rewrite (base_saturated _ _ _ Hi)|].
    rewrite (bind_done _ _ _ _ _ Hg). exists None. do 3 eexists. split; [reflexivity|]. split; [done|].
    apply chain_update; [done..|by apply base_is_one_more].
  - destruct (chain_get_action s1 ls ms slots i l b sl args Hc1 Hl Hsl Hb Hi Hsm Hsat) as (what & why & s' & Hg & Hc').
    rewrite (bind_done _ _ _ _ _ Hg). eexists. do 3 eexists. split; [reflexivity|]. split; [|exact Hc'].
    by destruct (default None _).
Qed.

(** A call of the mock function, of arguments that only the expectation [i] matches. *)
Lemma chain_call s ls ms slots args i :
  chain s ls ms slots → for_slot ms args i → Forall small_slot slots →
  ∃ what why s', UntypedFindMatchingExpectation lib ps returns_void args s =
      (Done (answer ls i (fst (slot_call slots i)), what, why), s') ∧
    chain s' ls ms (snd (slot_call slots i)).
Proof.
  intros Hc Hfor Hsmall. pose proof (chain_alive s ls ms slots Hc) as Hal.
  assert (∀ its, (∀ j l, its !! j = Some l → ∃ k, ls !! k = Some l ∧ k ≠ i) →
    Forall (λ l, handles lib ps s args l = false) its) as Hothers.
  { intros its Hits. apply Forall_lookup. intros j l Hj. destruct (Hits j l Hj) as (k & Hk & Hne).
    by rewrite (chain_handles s ls ms slots args i k l Hc Hfor Hk) bool_decide_eq_false_2. }
  destruct (ls !! i) as [l|] eqn:Hl.
  - destruct (chain_lookup s ls ms slots i l Hc Hl) as (m & sl & b & Hm & Hsl & Hb & Hi & Ht).
    pose proof (chain_handles s ls ms slots args i i l Hc Hfor Hl) as Hh.
    assert (∀ k l', ls !! k = Some l' → k ≠ i → handles lib ps s args l' = false) as Hnot.
    { intros k l' Hk Hne. by rewrite (chain_handles s ls ms slots args i k l' Hc Hfor Hk) bool_decide_eq_false_2. }
    rewrite bool_decide_eq_true_2 // Hsl in Hh. unfold answer, slot_call. rewrite Hsl Hl. cbn [andb] in Hh.
    destruct (negb (s_retired sl) && forallb satisfied_slot (take i slots)).
    + destruct (chain_handled s ls ms slots args i l sl Hc Hsmall Hl Hsl Hh Hnot) as (a & what & why & s' & Hrun & Ha).
      exists what, why, s'. rewrite Hrun. destruct (saturated_slot sl); destruct Ha as [-> Hc']; done.
    + destruct (unhandled_run lib ps returns_void s args Hal) as (what & why & s' & Hrun & Hs').
      { rewrite (ch_expectations _ _ _ _ Hc). apply Forall_lookup. intros k l' Hk.
        destruct (decide (k = i)) as [->|Hne]; [|by apply (Hnot k)]. by assert (l' = l) as -> by congruence. }
      exists what, why, s'. split; [done|]. by apply (chain_checked s).
  - assert (slots !! i = None) as Hsl.
    { apply lookup_ge_None. rewrite (ch_slots _ _ _ _ Hc). by apply lookup_ge_None. }
    unfold answer, slot_call. rewrite Hl Hsl.
    destruct (unhandled_run lib ps returns_void s args Hal) as (what & why & s' & Hrun & Hs').
    { rewrite (ch_expectations _ _ _ _ Hc). apply Forall_lookup. intros k l' Hk.
      rewrite (chain_handles s ls ms slots args i k l' Hc Hfor Hk) bool_decide_eq_false_2 //. congruence. }
    exists what, why, s'. split; [done|]. by apply (chain_checked s).
Qed.

(** Calls one after the other, while the counts fit an int. *)
Lemma slot_call_small k slots i :
  Forall (λ sl, (s_calls sl ≤ k)%nat ∧ Z.of_nat (length (s_actions sl)) ≤ INT_MAX) slots →
  Forall (λ sl, (s_calls sl ≤ S k)%nat ∧ Z.of_nat (length (s_actions sl)) ≤ INT_MAX) (snd (slot_call slots i)).
Proof.
  intros Hs. destruct (slots !! i) as [sl|] eqn:Hi.
  - destruct (list_elem_of_split_length _ _ _ Hi) as (pre & post & -> & ->). rewrite slot_call_middle.
    apply Forall_app in Hs as [Hpre [[Hn Hlen] Hpost]%Forall_cons].
    assert (∀ l : list (slot A), Forall (λ sl, (s_calls sl ≤ k)%nat ∧ Z.of_nat (length (s_actions sl)) ≤ INT_MAX) l →
      Forall (λ sl, (s_calls sl ≤ S k)%nat ∧ Z.of_nat (length (s_actions sl)) ≤ INT_MAX) l) as Hmore.
    { intros l Hl. eapply Forall_impl; [exact Hl|]. simpl. lia. }
    unfold after_call. destruct (negb _ && _); [destruct (saturated_slot sl)|]; cbn [snd];
      (apply Forall_app; split; [try apply Forall_fmap; by apply Hmore|constructor; [|by apply Hmore]]).
    + cbn. lia.
    + destruct (_ && _); cbn; lia.
    + lia.
  - rewrite slot_call_outside //. eapply Forall_impl; [exact Hs|]. simpl. lia.
Qed.

Lemma chain_calls k s ls ms slots argss idxs :
  chain s ls ms slots → Forall2 (for_slot ms) argss idxs →
  Forall (λ sl, (s_calls sl ≤ k)%nat ∧ Z.of_nat (length (s_actions sl)) ≤ INT_MAX) slots →
  Z.of_nat (k + length argss) ≤ INT_MAX →
  ∃ rs s', mapM (UntypedFindMatchingExpectation lib ps returns_void) argss s = (Done rs, s') ∧
    (λ r, r.1.1) <$> rs = zip_with (answer ls) idxs (fst (slot_calls slots idxs)) ∧
    chain s' ls ms (snd (slot_calls slots idxs)).
Proof.
  intros Hc Hfor. revert k s slots Hc.
  induction Hfor as [|args i argss idxs Hfor _ IH]; intros k s slots Hc Hs Hk; [by exists [], s|].
  cbn [length] in Hk.
  destruct (chain_call s ls ms slots args i Hc Hfor) as (what & why & s1 & Hrun & Hc1).
  { eapply Forall_impl; [exact Hs|]. intros sl [? ?]. split; [lia|done]. }
  destruct (IH (S k) s1 (snd (slot_call slots i)) Hc1) as (rs & s2 & Hrs & Heq & Hc2);
    [by apply slot_call_small|lia|].
  cbn [mapM slot_calls]. rewrite (bind_done _ _ _ _ _ Hrun) (bind_done _ _ _ _ _ Hrs).
  destruct (slot_call slots i) as [o slots1]. cbn [fst snd] in *.
  destruct (slot_calls slots1 idxs) as [os slots2]. cbn [fst snd] in *.
  eexists _, s2. split; [reflexivity|]. split; [|done]. cbn. by rewrite Heq.
Qed.
(** ** Declarations *)

Lemma chain_extend s s' ls ms slots l m b sl :
  chain s ls ms slots → l ∉ ls → base_is (previous ls) b sl →
  untyped_expectations_ s' = ls ++ [l] → bases s' = <[l := b]> (bases s) →
  typed s' = <[l := MkTypedPart m Matchers.A None]> (typed s) →
  chain s' (ls ++ [l]) (ms ++ [m]) (slots ++ [sl]).
Proof.
  intros Hc Hl Hb He Hbs Hts. destruct Hc. constructor; rewrite ?length_app //=; [|lia..|].
  { apply NoDup_app. split_and!; [done| |apply NoDup_singleton]. intros x Hx ->%list_elem_of_singleton. done. }
  intros i l' m' sl' Hl' Hm' Hsl'. unfold object_is. rewrite Hbs Hts.
  destruct (decide (i = length ls)) as [->|Hne].
  - rewrite list_lookup_middle // in Hl'. rewrite -ch_matchers0 list_lookup_middle // in Hm'.
    rewrite -ch_slots0 list_lookup_middle // in Hsl'. injection Hl' as <-. injection Hm' as <-. injection Hsl' as <-.
    rewrite !lookup_insert_eq take_app_length. split; [by exists b|done].
  - assert (i < length ls)%nat as Hi.
    { apply lookup_lt_Some in Hl'. rewrite length_app /= in Hl'. lia. }
    rewrite lookup_app_l // in Hl'. rewrite lookup_app_l in Hm'; [lia|]. rewrite lookup_app_l in Hsl'; [lia|].
    assert (l' ≠ l) as Hll by (intros ->; apply Hl, list_elem_of_lookup; eauto).
    rewrite !lookup_insert_ne // take_app_le; [lia|]. exact (ch_objects0 i l' m' sl' Hl' Hm' Hsl').
Qed.

Lemma plain_base_is es b acts :
  plain lib es b acts → acts ≠ [] → Z.of_nat (length acts) ≤ INT_MAX →
  base_is es b (Slot acts 0 false false).
Proof.
  intros Hp Hne Hlen. pose proof (pl_cardinality _ _ _ _ Hp Hne) as Hcard.
  constructor; try apply Hp; intros n Hn; rewrite Hcard int_of_size_small //.
  - by rewrite exactly_law.
  - by rewrite exactly_satisfied.
Qed.

(** The After clause of a new statement. *)
Lemma after_run l e b s :
  bases s !! l = Some b → plain lib ∅ b [] → last_clause_ b = kNone →
  ∃ b', After l {[e]} s = (Done (), set_bases (<[l := b']> (bases s)) s) ∧ plain lib {[e]} b' [].
Proof.
  intros Hb Hp Hk. unfold After. rewrite (bind_done _ _ _ _ _ (base_of_run _ _ _ Hb)) Hk.
  rewrite (bind_done (ExpectSpecProperty true _) _ s () s) //.
  rewrite (bind_done _ _ _ _ _ (update_base_run _ _ _ _ Hb)).
  rewrite (update_base_run l _ _ _ (lookup_insert_eq _ _ _)). cbn [bases set_bases]. rewrite insert_insert_eq.
  eexists. split; [reflexivity|]. constructor; try apply Hp; [|done]. cbn. rewrite (pl_prerequisites _ _ _ _ Hp). set_solver.
Qed.

(** RetiresOnSaturation() at the end of a statement. *)
Lemma retires_run l es b acts s :
  bases s !! l = Some b → plain lib es b acts → acts ≠ [] → Z.of_nat (length acts) ≤ INT_MAX →
  ∃ b' s', RetiresOnSaturation lib l s = (Done (), s') ∧ base_is es b' (Slot acts 0 true false) ∧
    same_but_checked (set_bases (<[l := b']> (bases s)) s) s'.
Proof.
  intros Hb Hp Hne Hlen. unfold RetiresOnSaturation. rewrite (bind_done _ _ _ _ _ (base_of_run _ _ _ Hb)).
  unfold clause_lt. rewrite bool_decide_eq_true_2; [pose proof (pl_clause _ _ _ _ Hp); simpl in *; lia|].
  rewrite (bind_done (ExpectSpecProperty true _) _ s () s) //.
  rewrite (bind_done _ _ _ _ _ (update_base_run _ _ _ _ Hb)).
  rewrite (bind_done _ _ _ _ _ (update_base_run l _ _ _ (lookup_insert_eq _ _ _))). cbn [bases set_bases].
  rewrite insert_insert_eq. eexists _, _. split; [reflexivity|]. split; [|apply check_law].
  by destruct (plain_base_is es b acts Hp Hne Hlen).
Qed.

Definition fresh_slot (d : declaration Ts A) : slot A := Slot (d_actions d) 0 (d_retires d) false.

Lemma declare_one_run s ls ms slots (d : declaration Ts A) :
  chain s ls ms slots → implicit_sequence s = None → d_address d ∉ ls →
  d_actions d ≠ [] → Z.of_nat (length (d_actions d)) ≤ INT_MAX →
  ∃ s', declare_one lib (last ls) d s = (Done (), s') ∧ implicit_sequence s' = None ∧
    chain s' (ls ++ [d_address d]) (ms ++ [d_matchers d]) (slots ++ [fresh_slot d]).
Proof.
  intros Hc Hq Hl Hne Hlen. destruct d as [l file line text m acts ret]. cbn in *. unfold declare_one. cbn.
  rewrite (bind_done _ _ _ _ _ (add_new_run lib _ _ _ _ _ _ Hq)). set (s1 := State _ _ _ _ _ _ _).
  set (b0 := new_base lib file line text).
  assert (∃ b1, match last ls with None => mret () | Some e => After l {[e]} end s1 =
      (Done (), set_bases (<[l := b1]> (bases s1)) s1) ∧ plain lib (previous ls) b1 []) as (b1 & Hrun1 & Hp1).
  { unfold previous. destruct (last ls) as [e|].
    - apply (after_run l e b0); [apply lookup_insert_eq|apply new_base_plain; done|].
      by destruct (new_base_law file line text) as (?&?&?&?&?&?&?&?).
    - exists b0. split; [|by apply new_base_plain]. cbn. by rewrite insert_insert_eq. }
  rewrite (bind_done _ _ _ _ _ Hrun1).
  destruct (will_once_all_run lib l (previous ls) b1 [] acts (set_bases (<[l := b1]> (bases s1)) s1)
    (lookup_insert_eq _ _ _) Hp1) as (b2 & Hrun2 & Hp2).
  rewrite (bind_done _ _ _ _ _ Hrun2). cbn [app] in Hp2. set (s2 := set_bases _ _).
  assert (∀ b3, base_is (previous ls) b3 (Slot acts 0 ret false) →
    chain (set_bases (<[l := b3]> (bases s2)) s2) (ls ++ [l]) (ms ++ [m]) (slots ++ [Slot acts 0 ret false])) as Hext.
  { intros b3 Hb3. apply (chain_extend s) with (b := b3); try done; cbn.
    - by rewrite (ch_expectations _ _ _ _ Hc).
    - by rewrite !insert_insert_eq. }
  destruct ret; cbn [when].
  - destruct (retires_run l (previous ls) b2 acts s2 (lookup_insert_eq _ _ _) Hp2 Hne Hlen) as (b3 & s3 & Hrun3 & Hb3 & Hs3).
    exists s3. split; [done|]. split; [by rewrite (sbc_sequence _ _ Hs3)|]. by apply (chain_checked _ _ _ _ _ Hs3), Hext.
  - exists s2. split; [done|]. split; [done|]. pose proof (Hext b2 (plain_base_is _ _ _ Hp2 Hne Hlen)) as Hc2.
    by rewrite insert_id in Hc2; [apply lookup_insert_eq|].
Qed.

Lemma declare_run s ls ms slots (ds : list (declaration Ts A)) :
  chain s ls ms slots → implicit_sequence s = None → NoDup (ls ++ (d_address <$> ds)) →
  Forall (λ d, d_actions d ≠ [] ∧ Z.of_nat (length (d_actions d)) ≤ INT_MAX) ds →
  ∃ s', declare lib (last ls) ds s = (Done (), s') ∧
    chain s' (ls ++ (d_address <$> ds)) (ms ++ (d_matchers <$> ds)) (slots ++ (fresh_slot <$> ds)).
Proof.
  intros Hc Hq Hnd Hds. revert s ls ms slots Hc Hq Hnd.
  induction Hds as [|d ds [Hne Hlen] _ IH]; intros s ls ms slots Hc Hq Hnd; cbn [declare fmap list_fmap].
  { exists s. by rewrite !app_nil_r. }
  destruct (declare_one_run s ls ms slots d Hc Hq) as (s1 & Hrun & Hq1 & Hc1); [|done..|].
  { apply NoDup_app in Hnd as (_ & Hnd & _). intros Hin. apply (Hnd _ Hin), list_elem_of_here. }
  destruct (IH s1 _ _ _ Hc1 Hq1) as (s2 & Hrun2 & Hc2); [by rewrite -app_assoc|].
  exists s2. rewrite (bind_done _ _ _ _ _ Hrun). rewrite last_snoc in Hrun2. split; [done|].
  by rewrite -!app_assoc in Hc2.
Qed.

(** C21. EXPECT_CALL statements each After the one before it, with a WillOnce for every
    call, order the calls: when every call's arguments are matched by one of them or none,
    a sequence of calls is accepted throughout, by the expectation whose turn it is and
    with the action of its turn, exactly when it begins with all calls of the first
    expectation, then all of the second, and so on. Any other call gives what a machine
    over the counts says: it is unexpected when an expectation before it still waits for
    calls or when its own is retired, because a later one was called or by
    RetiresOnSaturation; else it is excessive. *)
Theorem after_orders_calls (ds : list (declaration Ts A)) argss idxs s :
  untyped_expectations_ s = [] → implicit_sequence s = None → NoDup (d_address <$> ds) →
  Forall (λ d, d_actions d ≠ [] ∧ Z.of_nat (length (d_actions d)) ≤ INT_MAX) ds →
  Z.of_nat (length argss) ≤ INT_MAX →
  Forall2 (λ args i, ∀ j d, ds !! j = Some d → TupleMatches ps (d_matchers d) args = bool_decide (j = i)) argss idxs →
  let slots := fresh_slot <$> ds in
  let outcomes := fst (slot_calls slots idxs) in
  ∃ rs s', (declare lib None ds;; mapM (UntypedFindMatchingExpectation lib ps returns_void) argss) s = (Done rs, s') ∧
    (λ r, r.1.1) <$> rs = zip_with (answer (d_address <$> ds)) idxs outcomes ∧
    (Forall accepted outcomes ↔ idxs `prefix_of` (remaining 0 slots).*1) ∧
    (Forall accepted outcomes → outcomes = (λ a, Some (a, false)) <$> take (length idxs) (remaining 0 slots).*2).
Proof.
  intros He Hq Hnd Hds Hmax Hfor slots outcomes.
  assert (chain s [] [] []) as Hc0 by (constructor; [done|constructor|done..]).
  destruct (declare_run s [] [] [] ds Hc0 Hq Hnd Hds) as (s1 & Hrun & Hc1). cbn in Hc1, Hrun.
  destruct (chain_calls 0 s1 _ _ _ argss idxs Hc1) as (rs & s2 & Hrs & Heq & _).
  { eapply Forall2_impl; [exact Hfor|]. intros args i Hi j m Hj. apply list_lookup_fmap_Some in Hj as (d & -> & Hd).
    by apply Hi. }
  { apply Forall_fmap. eapply Forall_impl; [exact Hds|]. intros d [_ Hd]. by split. }
  { done. }
  exists rs, s2. rewrite (bind_done _ _ _ _ _ Hrun). split; [done|]. split; [done|].
  apply calls_in_order, Forall_fmap, Forall_true. intros d. split; [apply Nat.le_0_l|done].
Qed.
End chains.

(** * A library that follows prerequisites to the end *)

Section sample.
Context {A W : Type} (add_message : string → W → W) (Ts : list Type).
Notation st := (state Ts A unit W).
Implicit Types (s : st) (l e : loc) (X : gset loc).

Definition immediate s l : gset loc :=
  match bases s !! l with Some b => immediate_prerequisites_ b | None => ∅ end.

Definition one_step s X : gset loc := X ∪ ⋃ (immediate s <$> base.elements X).
Fixpoint steps (n : nat) s X : gset loc := match n with O => X | S n => steps n s (one_step s X) end.
Definition all_immediate s : gset loc := ⋃ (immediate s <$> base.elements (dom (bases s))).
Definition prerequisites_of s l : gset loc := steps (size (all_immediate s)) s (immediate s l).

Lemma needs_immediate s e l : needs s e l ↔ e ∈ immediate s l.
Proof.
  unfold needs, immediate. destruct (bases s !! l) as [b|]; [naive_solver|]. set_solver.
Qed.

Lemma immediate_all s l : immediate s l ⊆ all_immediate s.
Proof.
  intros e He. apply elem_of_union_list. exists (immediate s l). split; [|done]. apply list_elem_of_fmap.
  exists l. split; [done|]. apply elem_of_elements, elem_of_dom. unfold immediate in He.
  destruct (bases s !! l); [by eexists|set_solver].
Qed.

Lemma one_step_spec s X e : e ∈ one_step s X ↔ e ∈ X ∨ ∃ x, x ∈ X ∧ e ∈ immediate s x.
Proof.
  unfold one_step. rewrite elem_of_union elem_of_union_list. f_equiv. split.
  - intros (Y & (x & -> & Hx%elem_of_elements)%list_elem_of_fmap & He). eauto.
  - intros (x & Hx & He). exists (immediate s x). split; [|done]. apply list_elem_of_fmap. exists x.
    by rewrite elem_of_elements.
Qed.

Lemma one_step_all s X : X ⊆ all_immediate s → one_step s X ⊆ all_immediate s.
Proof. intros HX e [He|(x & _ & He)]%one_step_spec; [by apply HX|by apply (immediate_all s x)]. Qed.

Lemma steps_closed n s X :
  X ⊆ all_immediate s → (size (all_immediate s) - size X ≤ n)%nat → one_step s (steps n s X) = steps n s X.
Proof.
  revert X. induction n as [|n IH]; intros X HX Hn; cbn [steps].
  - assert (X = all_immediate s) as Heq.
    { apply set_subseteq_size_eq; [done|lia]. }
    apply leibniz_equiv. split; [|intros e; rewrite one_step_spec; auto].
    rewrite {2}Heq. intros He. by apply (one_step_all s X HX).
  - destruct (decide (one_step s X = X)) as [Heq|Hne].
    + assert (∀ m, steps m s X = X) as Hfix by (induction m as [|m IHm]; cbn; [done|by rewrite Heq]).
      by rewrite Heq Hfix.
    + apply IH; [by apply one_step_all|].
      assert (X ⊂ one_step s X) as Hlt.
      { split; [intros e; rewrite one_step_spec; auto|]. intros Hsub. apply Hne. apply leibniz_equiv.
        intros e. split; [apply Hsub|rewrite one_step_spec; auto]. }
      apply subset_size in Hlt. lia.
Qed.

Lemma prerequisites_of_spec s l e : e ∈ prerequisites_of s l ↔ prerequisite s e l.
Proof.
  unfold prerequisites_of. split.
  - assert (∀ n X, (∀ e, e ∈ X → prerequisite s e l) → ∀ e, e ∈ steps n s X → prerequisite s e l) as Hsound.
    { induction n as [|n IH]; intros X HX; cbn [steps]; [done|]. apply IH.
      intros e' [He'|(x & Hx & He')]%one_step_spec; [by apply HX|].
      eapply tc_l; [by apply needs_immediate|by apply HX]. }
    apply Hsound. intros e' He'. by apply tc_once, needs_immediate.
  - set (C := steps _ s _). intros Htc.
    assert (immediate s l ⊆ C) as Hstart.
    { unfold C. generalize (size (all_immediate s)), (immediate s l). intros n.
      induction n as [|n IH]; intros X; cbn [steps]; [done|]. etrans; [|apply IH].
      intros e'. rewrite one_step_spec. auto. }
    assert (one_step s C = C) as Hclosed by (apply steps_closed; [apply immediate_all|lia]).
    clearbody C. induction Htc as [e l Hn|e e' l Hn _ IH]; [by apply Hstart, needs_immediate|].
    rewrite -Hclosed one_step_spec. right. exists e'. split; [by apply IH|by apply needs_immediate].
Qed.

(** The sample library, but with all prerequisites. *)
Definition sequence_library : gmock_library Ts A unit W :=
  let lib := sample_library add_message Ts in
  MkLibrary Ts A unit W (Exactly lib) (AtLeast lib) (new_base lib) (UntypedTimes lib) (AddExpectation lib)
    (λ l s, set_bases (map_imap (λ e b, Some (if bool_decide (e ∈ prerequisites_of s l) then set_retired true b else b))
                         (bases s)) s)
    (λ l s, forallb (sample_satisfied s) (base.elements (prerequisites_of s l)))
    (FindUnsatisfiedPrerequisites lib) (CheckActionCountIfNotDone lib) (DescribeCallCountTo lib)
    (FormatFileLocation lib) (Log lib) (RegisterUse lib).

Lemma prerequisites_none s l b : bases s !! l = Some b → immediate_prerequisites_ b = ∅ → prerequisites_of s l = ∅.
Proof.
  intros Hb Hp. apply leibniz_equiv. intros e. split; [|set_solver]. rewrite prerequisites_of_spec. intros Htc.
  assert (∃ e', needs s e' l) as (e' & b' & Hb' & He').
  { clear Hb Hp. induction Htc as [e l Hn|e e' l _ _ IH]; [by exists e|done]. }
  assert (b' = b) as -> by congruence. rewrite Hp in He'. set_solver.
Qed.

Lemma needs_same s s' e l : same_calls s s' → needs s e l → needs s' e l.
Proof.
  intros Hs (b & Hb & He). destruct (calls_lookup _ _ _ _ Hs Hb) as (b' & Hb' & Hf).
  destruct (forget_fields _ _ Hf) as (_ & _ & _ & _ & Hi). exists b'. by rewrite Hi.
Qed.

Lemma prerequisites_same s s' l : same_calls s s' → prerequisites_of s' l = prerequisites_of s l.
Proof.
  intros Hs. apply leibniz_equiv. intros e. rewrite !prerequisites_of_spec.
  split; intros Htc; (induction Htc as [e l Hn|e e' l Hn _ IH];
    [apply tc_once|eapply tc_l; [|exact IH]]); (eapply needs_same; [|exact Hn]; done).
Qed.

Lemma retire_lookup s l e :
  bases (RetireAllPreRequisites sequence_library l s) !! e =
  (λ b, if bool_decide (e ∈ prerequisites_of s l) then set_retired true b else b) <$> bases s !! e.
Proof. cbn. rewrite map_lookup_imap. by destruct (bases s !! e). Qed.

Lemma set_bases_same (m : gmap loc (ExpectationBase A)) s : (∀ e, m !! e = bases s !! e) → set_bases m s = s.
Proof. intros Hm. apply map_eq in Hm as ->. by destruct s. Qed.

#[export] Instance sequence_library_laws : GMockLaws sequence_library.
Proof.
  destruct (sample_laws (A:=A) add_message Ts) as [L1 L2 L3 L4 L5 _ _ _ L9 _].
  constructor; try done.
  - intros l s. constructor; try done. apply map_eq. intros e. rewrite !lookup_fmap retire_lookup.
    destruct (bases s !! e) as [b|]; [|done]. cbn. by case_bool_decide; destruct b.
  - intros l s b Hb Hp. apply set_bases_same. intros e. rewrite (retire_lookup s l e) (prerequisites_none _ _ _ Hb Hp).
    rewrite bool_decide_eq_false_2; [set_solver|]. by destruct (bases s !! e).
  - intros l s s' Hs. cbn. rewrite (prerequisites_same s s') //.
    induction (base.elements (prerequisites_of s l)) as [|e es IH]; cbn; [done|].
    by rewrite IH (sample_satisfied_same s s').
  - intros l s b Hb Hp. cbn. by rewrite (prerequisites_none _ _ _ Hb Hp) elements_empty.
Qed.

#[export] Instance sequence_library_sequences : SequenceLaws sequence_library.
Proof.
  constructor.
  - done.
  - intros l s. cbn. rewrite forallb_forall. split.
    + intros Hall e b Hpre%prerequisites_of_spec Hb. specialize (Hall e). unfold sample_satisfied in Hall.
      rewrite Hb in Hall. by apply Hall, list_elem_of_In, elem_of_elements.
    + intros Hall e He%list_elem_of_In%elem_of_elements%prerequisites_of_spec. unfold sample_satisfied.
      destruct (bases s !! e) as [b|] eqn:Hb; [by apply (Hall e)|done].
  - intros l s e He%prerequisites_of_spec. by rewrite retire_lookup bool_decide_eq_true_2.
  - intros l s e He. rewrite retire_lookup bool_decide_eq_false_2; [by rewrite prerequisites_of_spec|].
    by destruct (bases s !! e).
Qed.
End sample.

(** EXPECT_CALL(f(1)).WillOnce(10).WillOnce(11), EXPECT_CALL(f(2)).After(...).WillOnce(20)
    .RetiresOnSaturation() and EXPECT_CALL(f(3)).After(...).WillOnce(30). *)
Definition ordered_lib := sequence_library (A:=Z) (λ message log, log ++ [message]) sample_args.
Definition equals (n : Z) : matcher_tuple sample_args := (EqMatcher print_int n, ()).
Definition ordered : list (declaration sample_args Z) :=
  [Declaration 1 "t.cc" 1 "f(1)" (equals 1) [Some 10; Some 11] false;
   Declaration 2 "t.cc" 2 "f(2)" (equals 2) [Some 20] true;
   Declaration 3 "t.cc" 3 "f(3)" (equals 3) [Some 30] false].

Lemma ordered_for args_list idxs :
  Forall2 (λ z i, 1 ≤ z ∧ i = Z.to_nat (z - 1)) args_list idxs →
  Forall2 (λ args i, ∀ j d, ordered !! j = Some d → TupleMatches print_arg (d_matchers d) args = bool_decide (j = i))
    (map arg args_list) idxs.
Proof.
  intros H. induction H as [|z i zs idxs [Hz ->] _ IH]; [constructor|]. constructor; [|done].
  intros [|[|[|j]]] d Hd; try done; injection Hd as <-; cbn -[Z.to_nat]; repeat case_bool_decide; try done; lia.
Qed.

(** f(1), f(1), f(2), f(3) are accepted with the actions in order; f(1), f(2) are not: the
    second one comes too early. *)
Lemma after_orders_calls_witness :
  let calls argss := (declare ordered_lib None ordered;;
    mapM (UntypedFindMatchingExpectation ordered_lib print_arg false) (map arg argss))
    (State [] [] ∅ ∅ None [] []) in
  (∃ rs s', calls [1; 1; 2; 3] = (Done rs, s') ∧
     fmap (M:=list) (λ r, r.1.1) rs = [Some (1, Some 10, false); Some (1, Some 11, false);
                             Some (2, Some 20, false); Some (3, Some 30, false)]) ∧
  (∃ rs s', calls [1; 2] = (Done rs, s') ∧ fmap (M:=list) (λ r, r.1.1) rs = [Some (1, Some 10, false); None]).
Proof.
  split.
  - destruct (after_orders_calls ordered_lib print_arg false ordered (map arg [1; 1; 2; 3]) [0; 0; 1; 2]%nat
      (State [] [] ∅ ∅ None [] [])) as (rs & s' & Hrun & Hrs & _).
    + reflexivity.
    + reflexivity.
    + vm_decide.
    + repeat constructor; first [discriminate|by vm_compute].
    + by vm_compute.
    + apply ordered_for. repeat constructor; lia.
    + exists rs, s'. split; [exact Hrun|]. rewrite Hrs. reflexivity.
  - destruct (after_orders_calls ordered_lib print_arg false ordered (map arg [1; 2]) [0; 1]%nat
      (State [] [] ∅ ∅ None [] [])) as (rs & s' & Hrun & Hrs & _).
    + reflexivity.
    + reflexivity.
    + vm_decide.
    + repeat constructor; first [discriminate|by vm_compute].
    + by vm_compute.
    + apply ordered_for. repeat constructor; lia.
    + exists rs, s'. split; [exact Hrun|]. rewrite Hrs. reflexivity.
Defined.
