(* ===== verification/MockLifetimes.v ===== *)
(** The lives of mock objects: how they are destroyed without deadlock
    (src/gtest/include/gmock/gmock-spec-builders.h), and how NiceMock, NaggyMock and
    StrictMock are made (src/gtest/include/gmock/gmock-generated-nice-strict.h). *)

From S2P Require Import Prelude.
#[local] Open Scope Z_scope.

(** * Destruction of mock functions *)

Definition loc : Type := positive.

Section destruction.
Context {W : Type}.

(** An ON_CALL spec, as far as its destruction goes: the mock objects its action keeps
    alive, one for each counted pointer it holds. *)
Definition OnCallSpec : Type := list loc.

(** A mock function with its default actions, and the number of counted pointers to the
    mock object it belongs to. *)
Record MockFunction : Type := MkMockFunction {
  untyped_on_call_specs_ : list OnCallSpec;
  references : nat;
}.

(** The mock functions that are alive, whether this thread holds g_gmock_mutex, the mock
    functions unregistered so far, and the state of the rest of the program. *)
Record state : Type := State {
  mocks : gmap loc MockFunction;
  g_gmock_mutex : bool;
  unregistered : list loc;
  rest : W;
}.

Definition set_mocks f s : state := State (f (mocks s)) (g_gmock_mutex s) (unregistered s) (rest s).
Definition set_held b s : state := State (mocks s) b (unregistered s) (rest s).

(** The mutex, for one thread: locking it twice never returns. *)
Definition Lock : cmd state unit :=
  held ← gets g_gmock_mutex; if held : bool then unfinished else modify (set_held true).
Definition Unlock : cmd state unit := modify (set_held false).
Definition AssertHeld : cmd state unit := held ← gets g_gmock_mutex; assert_ held.

(** UntypedFunctionMockerBase::VerifyAndClearExpectationsLocked, whose body is not in the
    header, reports what is not satisfied; it needs the mutex and leaves it locked. *)
Context (VerifyAndClearExpectationsLocked : loc → W → W).

Definition verify (this : loc) : cmd state unit :=
  AssertHeld;;
  modify (λ s, State (mocks s) (g_gmock_mutex s) (unregistered s) (VerifyAndClearExpectationsLocked this (rest s))).

(** Mock::UnregisterLocked. *)
Definition UnregisterLocked (this : loc) : cmd state unit :=
  AssertHeld;;
  modify (λ s, State (mocks s) (g_gmock_mutex s) (unregistered s ++ [this]) (rest s)).

Fixpoint for_each {A} (body : A → cmd state unit) (xs : list A) : cmd state unit :=
  match xs with [] => mret () | x :: xs => body x;; for_each body xs end.

Definition mock_of (this : loc) : cmd state MockFunction := s ← get; or_ub Dangling (mocks s !! this).

(** FunctionMockerBase::ClearDefaultActionsLocked; [release] destroys a counted pointer. *)
Definition ClearDefaultActionsLocked (release : loc → cmd state unit) (this : loc) : cmd state unit :=
  AssertHeld;;
  o ← mock_of this;
  let specs_to_delete := untyped_on_call_specs_ o in
  modify (set_mocks (<[this := MkMockFunction [] (references o)]>));;
  Unlock;;
  for_each (for_each release) specs_to_delete;;
  Lock.

(** FunctionMockerBase::~FunctionMockerBase; the MutexLock unlocks last. *)
Definition delete_FunctionMockerBase (release : loc → cmd state unit) (this : loc) : cmd state unit :=
  Lock;;
  verify this;;
  UnregisterLocked this;;
  ClearDefaultActionsLocked release this;;
  Unlock.

(** A counted pointer to a mock object goes away, and with the last one the object. *)
Fixpoint release (fuel : nat) (this : loc) : cmd state unit :=
  match fuel with
  | O => unfinished
  | S fuel =>
      o ← mock_of this;
      modify (set_mocks (<[this := MkMockFunction (untyped_on_call_specs_ o) (references o - 1)]>));;
      if bool_decide (references o = 1%nat) then
        delete_FunctionMockerBase (release fuel) this;;
        modify (set_mocks (delete this))
      else mret ()
  end.

(** * Counting the pointers *)

Definition count (l : loc) (ls : list loc) : nat := length (filter (eq l) ls).

(** All pointers the actions of live mock functions hold. *)
Definition held (m : gmap loc MockFunction) : list loc :=
  map_to_list m ≫= λ '(_, o), concat (untyped_on_call_specs_ o).

(** [outside] are the pointers that no live action holds; [dying] the objects whose
    destructor is running. Every other object has as many references as there are
    pointers to it, and all pointers point to live objects. *)
Record counted (dying : gset loc) (outside : list loc) (s : state) : Prop := Counted {
  counted_exact l o : mocks s !! l = Some o → references o = count l (held (mocks s) ++ outside);
  counted_live l o : mocks s !! l = Some o → l ∉ dying → (0 < references o)%nat;
  counted_dying l : l ∈ dying → ∃ o, mocks s !! l = Some o ∧ references o = 0%nat ∧ untyped_on_call_specs_ o = [];
  counted_dom l : l ∈ held (mocks s) ++ outside → is_Some (mocks s !! l);
}.

(** Some objects are gone: each was unregistered once. *)
Definition freed (s s' : state) : Prop :=
  ∃ ds, unregistered s' = unregistered s ++ ds ∧ NoDup ds ∧
    (∀ l, l ∈ ds ↔ is_Some (mocks s !! l) ∧ mocks s' !! l = None) ∧
    (∀ l o, mocks s' !! l = Some o → ∃ o', mocks s !! l = Some o' ∧ untyped_on_call_specs_ o = untyped_on_call_specs_ o').

Lemma count_cons l k ls : count l (k :: ls) = ((if decide (l = k) then 1 else 0) + count l ls)%nat.
Proof. unfold count. rewrite filter_cons. by destruct (decide (l = k)). Qed.

Lemma count_app l ls ks : count l (ls ++ ks) = (count l ls + count l ks)%nat.
Proof. unfold count. by rewrite filter_app length_app. Qed.

#[local] Instance count_proper l : Proper ((≡ₚ) ==> eq) (count l).
Proof. intros ls ks Hp. unfold count. by rewrite Hp. Qed.

Lemma count_pos l ls : l ∈ ls ↔ (0 < count l ls)%nat.
Proof.
  induction ls as [|k ls IH]; [by rewrite elem_of_nil; cbn; split; [|lia]|].
  rewrite elem_of_cons count_cons IH. destruct (decide (l = k)); split; intros; try lia; tauto || (right; lia) || auto.
Qed.

Lemma held_insert m l o : m !! l = None → held (<[l := o]> m) ≡ₚ concat (untyped_on_call_specs_ o) ++ held m.
Proof. intros Hl. unfold held. by rewrite map_to_list_insert. Qed.

Lemma held_delete m l o : m !! l = Some o → held m ≡ₚ concat (untyped_on_call_specs_ o) ++ held (delete l m).
Proof. intros Hl. rewrite -{1}(insert_delete_id m l o) //. apply held_insert, lookup_delete_eq. Qed.

(** A change of the entry of one object. *)
Lemma held_update m l o o' : m !! l = Some o →
  concat (untyped_on_call_specs_ o') ++ held m ≡ₚ concat (untyped_on_call_specs_ o) ++ held (<[l := o']> m).
Proof.
  intros Hl. rewrite (held_delete m l o) // (held_delete (<[l := o']> m) l o'); [by rewrite lookup_insert_eq|].
  rewrite delete_insert_eq. rewrite !app_assoc. f_equiv. apply Permutation_app_comm.
Qed.

Lemma freed_refl s : freed s s.
Proof.
  exists []. rewrite app_nil_r. split_and!; [done|constructor| |by eauto].
  intros l. rewrite elem_of_nil. split; [done|]. intros [[o Ho] Hn]. congruence.
Qed.

Lemma freed_trans s1 s2 s3 : freed s1 s2 → freed s2 s3 → freed s1 s3.
Proof.
  intros (ds & Hu & Hnd & Hds & Hk) (es & Hu' & Hnd' & Hes & Hk'). exists (ds ++ es). split_and!.
  - by rewrite Hu' Hu app_assoc.
  - apply NoDup_app. split_and!; [done| |done]. intros l Hl He. apply Hds in Hl as [_ Hl]. apply Hes in He as [[o Ho] _]. congruence.
  - intros l. rewrite elem_of_app Hds Hes. split.
    + intros [[Hs Hn]|[[o Ho] Hn]].
      * split; [done|]. destruct (mocks s3 !! l) as [o|] eqn:Ho; [|done]. apply Hk' in Ho as (o' & Ho' & _). congruence.
      * split; [|done]. apply Hk in Ho as (o' & Ho' & _). by eexists.
    + intros [Hs Hn]. destruct (mocks s2 !! l) as [o|] eqn:Ho; [right|left]; by [split; [by eexists|]|].
  - intros l o Ho. apply Hk' in Ho as (o' & Ho' & He'). apply Hk in Ho' as (o'' & Ho'' & He''). exists o''. split; congruence.
Qed.

(** * No deadlock *)

(** [m] ends with the mutex free and leaves the pointers [outside]. *)
Definition drops (m : cmd state unit) (dying : gset loc) (outside : list loc) (s : state) : Prop :=
  ∃ s', m s = (Done (), s') ∧ g_gmock_mutex s' = false ∧ counted dying outside s' ∧ freed s s'.

(** The objects whose destructor has not started. *)
Definition alive (dying : gset loc) (s : state) : nat := size (dom (mocks s) ∖ dying).

Lemma counted_perm dying ls ks s : ls ≡ₚ ks → counted dying ls s → counted dying ks s.
Proof.
  intros Hp [He Hl Hd Hdom]. split; [|done|done|].
  - intros l o Ho. rewrite -Hp. by apply He.
  - intros l. rewrite -Hp. apply Hdom.
Qed.

Lemma alive_freed dying s s' : freed s s' → (alive dying s' ≤ alive dying s)%nat.
Proof.
  intros (ds & _ & _ & _ & Hk). apply subseteq_size. intros l. rewrite !elem_of_difference !elem_of_dom.
  intros [[o Ho] Hd]. split; [|done]. apply Hk in Ho as (o' & Ho' & _). by eexists.
Qed.

(** The pointer [l] is gone, and the count of its object is one less. *)
Definition decremented l o s : state :=
  set_mocks (<[l := MkMockFunction (untyped_on_call_specs_ o) (references o - 1)]>) s.

Lemma held_decremented l o s : mocks s !! l = Some o → held (mocks (decremented l o s)) ≡ₚ held (mocks s).
Proof.
  intros Ho. apply (Permutation_app_inv_l (concat (untyped_on_call_specs_ o))). symmetry.
  by apply (held_update _ l o (MkMockFunction (untyped_on_call_specs_ o) (references o - 1))).
Qed.

Lemma counted_head dying l outside s o :
  counted dying (l :: outside) s → mocks s !! l = Some o →
  references o = S (count l (held (mocks s) ++ outside)) ∧ l ∉ dying.
Proof.
  intros Hc Ho. assert (references o = S (count l (held (mocks s) ++ outside))) as Hr.
  { rewrite (counted_exact _ _ _ Hc _ _ Ho) !count_app count_cons decide_True //; lia. }
  split; [done|]. intros (o' & Ho' & Hz & _)%(counted_dying _ _ _ Hc). simplify_eq. lia.
Qed.

Lemma decremented_exact dying l outside s o k o' :
  counted dying (l :: outside) s → mocks s !! l = Some o → mocks (decremented l o s) !! k = Some o' →
  references o' = count k (held (mocks (decremented l o s)) ++ outside).
Proof.
  intros Hc Ho. rewrite (held_decremented _ _ _ Ho). cbn. rewrite lookup_insert_Some. intros [[<- <-]|[Hne Hk]]; cbn.
  - rewrite (proj1 (counted_head _ _ _ _ _ Hc Ho)). lia.
  - rewrite (counted_exact _ _ _ Hc _ _ Hk) !count_app count_cons decide_False //; lia.
Qed.

Lemma decremented_dom dying l outside s o k :
  counted dying (l :: outside) s → mocks s !! l = Some o →
  k ∈ held (mocks (decremented l o s)) ++ outside → is_Some (mocks (decremented l o s) !! k).
Proof.
  intros Hc Ho. rewrite (held_decremented _ _ _ Ho). intros Hk. apply lookup_insert_is_Some'. right.
  apply (counted_dom _ _ _ Hc). revert Hk. rewrite !elem_of_app elem_of_cons. tauto.
Qed.

(** One pointer of several is dropped. *)
Lemma counted_decremented dying l outside s o :
  counted dying (l :: outside) s → mocks s !! l = Some o → references o ≠ 1%nat → counted dying outside (decremented l o s).
Proof.
  intros Hc Ho Hn. destruct (counted_head _ _ _ _ _ Hc Ho) as [Hr Hd]. split.
  - intros k o'. by eapply decremented_exact.
  - intros k o'. cbn. rewrite lookup_insert_Some. intros [[<- <-]|[_ Hk]] Hkd; cbn; [lia|by eapply (counted_live _ _ _ Hc)].
  - intros k Hk. cbn. rewrite lookup_insert_ne; [by intros ->|]. by apply (counted_dying _ _ _ Hc).
  - intros k. by eapply decremented_dom.
Qed.

(** The last pointer is dropped: the object dies, and the pointers its specs hold are to
    be dropped next. *)
Definition swapped l o s : state :=
  State (<[l := MkMockFunction [] (references o - 1)]> (mocks s)) false (unregistered s ++ [l])
    (VerifyAndClearExpectationsLocked l (rest s)).

Lemma counted_swapped dying l outside s o :
  counted dying (l :: outside) s → mocks s !! l = Some o → references o = 1%nat →
  counted ({[ l ]} ∪ dying) (concat (untyped_on_call_specs_ o) ++ outside) (swapped l o s).
Proof.
  intros Hc Ho H1. destruct (counted_head _ _ _ _ _ Hc Ho) as [Hr Hd].
  assert (held (mocks (swapped l o s)) ++ concat (untyped_on_call_specs_ o) ++ outside
    ≡ₚ held (mocks (decremented l o s)) ++ outside) as Hp.
  { rewrite (held_decremented _ _ _ Ho) !app_assoc. f_equiv. rewrite (Permutation_app_comm (held _)).
    symmetry. by apply (held_update _ l o (MkMockFunction [] (references o - 1))). }
  split.
  - intros k o' Hk. rewrite Hp. cbn in Hk. apply lookup_insert_Some in Hk as [[<- <-]|[Hne Hk]]; cbn.
    + by rewrite -(decremented_exact _ _ _ _ _ l _ Hc Ho (lookup_insert_eq _ _ _)).
    + apply (decremented_exact _ _ _ _ _ _ _ Hc Ho). cbn. by rewrite lookup_insert_ne.
  - intros k o'. cbn. rewrite lookup_insert_Some. intros [[<- <-]|[_ Hk]] Hkd; [set_solver|].
    apply (counted_live _ _ _ Hc _ _ Hk). set_solver.
  - intros k [->%elem_of_singleton|Hk]%elem_of_union; cbn.
    + rewrite lookup_insert_eq. eexists. split_and!; [done| |done]. cbn. lia.
    + rewrite lookup_insert_ne; [by intros ->|]. by apply (counted_dying _ _ _ Hc).
  - intros k. rewrite Hp. intros Hk%(decremented_dom _ _ _ _ _ _ Hc Ho). revert Hk. cbn. by rewrite !lookup_insert_is_Some'.
Qed.

(** The dead object is freed. *)
Lemma counted_delete dying l outside s :
  counted ({[ l ]} ∪ dying) outside s → l ∉ dying → counted dying outside (set_mocks (delete l) s).
Proof.
  intros Hc Hd. destruct (counted_dying _ _ _ Hc l) as (o & Ho & Hr & Hsp); [set_solver|].
  assert (held (delete l (mocks s)) ≡ₚ held (mocks s)) as Hp by by rewrite (held_delete _ _ _ Ho) Hsp.
  assert (l ∉ held (mocks s) ++ outside) as Hl.
  { rewrite count_pos -(counted_exact _ _ _ Hc _ _ Ho). lia. }
  split; cbn.
  - intros k o'. rewrite lookup_delete_Some Hp. intros [_ Hk]. by apply (counted_exact _ _ _ Hc).
  - intros k o'. rewrite lookup_delete_Some. intros [Hne Hk] Hkd. apply (counted_live _ _ _ Hc _ _ Hk). set_solver.
  - intros k Hk. rewrite lookup_delete_ne; [by intros ->|]. apply (counted_dying _ _ _ Hc). set_solver.
  - intros k. rewrite Hp. intros Hk. rewrite lookup_delete_ne; [by intros ->|]. by apply (counted_dom _ _ _ Hc).
Qed.

Lemma alive_swapped dying l s o :
  mocks s !! l = Some o → l ∉ dying → (alive ({[ l ]} ∪ dying) (swapped l o s) < alive dying s)%nat.
Proof.
  intros Ho Hd. apply subset_size. cbn. assert (l ∈ dom (mocks s)) by by apply elem_of_dom.
  rewrite dom_insert_L. set_solver.
Qed.

(** Several pointers, and several specs, one after the other. *)
Lemma drops_all fuel dying outside ls s :
  (∀ l outside s, counted dying (l :: outside) s → g_gmock_mutex s = false → (alive dying s < fuel)%nat →
    drops (release fuel l) dying outside s) →
  counted dying (ls ++ outside) s → g_gmock_mutex s = false → (alive dying s < fuel)%nat →
  drops (for_each (release fuel) ls) dying outside s.
Proof.
  intros Hone. revert s. induction ls as [|l ls IH]; intros s Hc Hm Hf.
  - exists s. split_and!; [done..|apply freed_refl].
  - destruct (Hone l (ls ++ outside) s Hc Hm Hf) as (s1 & Hrun1 & Hm1 & Hc1 & Hfr1).
    pose proof (alive_freed dying _ _ Hfr1).
    destruct (IH s1 Hc1 Hm1 ltac:(lia)) as (s2 & Hrun2 & Hm2 & Hc2 & Hfr2).
    exists s2. split_and!; [|done..|by eapply freed_trans]. cbn. by rewrite (bind_done _ _ _ _ _ Hrun1).
Qed.

Lemma drops_specs fuel dying outside (specs : list OnCallSpec) s :
  (∀ l outside s, counted dying (l :: outside) s → g_gmock_mutex s = false → (alive dying s < fuel)%nat →
    drops (release fuel l) dying outside s) →
  counted dying (concat specs ++ outside) s → g_gmock_mutex s = false → (alive dying s < fuel)%nat →
  drops (for_each (for_each (release fuel)) specs) dying outside s.
Proof.
  intros Hone. revert s. induction specs as [|ls specs IH]; intros s Hc Hm Hf.
  - exists s. split_and!; [done..|apply freed_refl].
  - cbn in Hc. rewrite -app_assoc in Hc.
    destruct (drops_all fuel dying _ ls s Hone Hc Hm Hf) as (s1 & Hrun1 & Hm1 & Hc1 & Hfr1).
    pose proof (alive_freed dying _ _ Hfr1).
    destruct (IH s1 Hc1 Hm1 ltac:(lia)) as (s2 & Hrun2 & Hm2 & Hc2 & Hfr2).
    exists s2. split_and!; [|done..|by eapply freed_trans]. cbn. by rewrite (bind_done _ _ _ _ _ Hrun1).
Qed.

(** The mutex, taken when it is free. *)
Lemma lock_run s : g_gmock_mutex s = false → Lock s = (Done (), set_held true s).
Proof. intros Hm. unfold Lock. run_step. by rewrite Hm. Qed.

Lemma held_run s : g_gmock_mutex s = true → AssertHeld s = (Done (), s).
Proof. intros Hm. unfold AssertHeld. run_step. by rewrite Hm. Qed.

Lemma verify_run l s : g_gmock_mutex s = true →
  verify l s = (Done (), State (mocks s) (g_gmock_mutex s) (unregistered s) (VerifyAndClearExpectationsLocked l (rest s))).
Proof. intros Hm. unfold verify. by rewrite (bind_done _ _ _ _ _ (held_run _ Hm)). Qed.

Lemma unregister_run l s : g_gmock_mutex s = true →
  UnregisterLocked l s = (Done (), State (mocks s) (g_gmock_mutex s) (unregistered s ++ [l]) (rest s)).
Proof. intros Hm. unfold UnregisterLocked. by rewrite (bind_done _ _ _ _ _ (held_run _ Hm)). Qed.

Lemma clear_run fuel l s o s3 :
  g_gmock_mutex s = true → mocks s !! l = Some o →
  for_each (for_each (release fuel)) (untyped_on_call_specs_ o)
    (set_held false (set_mocks (<[l := MkMockFunction [] (references o)]>) s)) = (Done (), s3) →
  g_gmock_mutex s3 = false → ClearDefaultActionsLocked (release fuel) l s = (Done (), set_held true s3).
Proof.
  intros Hm Ho Hrun Hm3. unfold ClearDefaultActionsLocked. erewrite bind_done; [|by apply held_run].
  unfold mock_of. rewrite bind_assoc. run_step. rewrite Ho bind_ret_l.
  do 2 run_step. rewrite (bind_done _ _ _ _ _ Hrun). by apply lock_run.
Qed.

Lemma destructor_run fuel l s o s3 :
  g_gmock_mutex s = false → mocks s !! l = Some o → references o = 1%nat →
  for_each (for_each (release fuel)) (untyped_on_call_specs_ o) (swapped l o s) = (Done (), s3) →
  g_gmock_mutex s3 = false →
  release (S fuel) l s = (Done (), set_mocks (delete l) s3).
Proof.
  intros Hm Ho H1 Hrun Hm3. cbn. unfold mock_of. rewrite bind_assoc. run_step. rewrite Ho bind_ret_l.
  run_step. rewrite bool_decide_true //.
  assert (delete_FunctionMockerBase (release fuel) l (decremented l o s) = (Done (), s3)) as Hd; [|by rewrite (bind_done _ _ _ _ _ Hd)].
  unfold delete_FunctionMockerBase. erewrite bind_done; [|by apply lock_run].
  erewrite bind_done; [|by apply verify_run]. erewrite bind_done; [|by apply unregister_run].
  erewrite bind_done; [|eapply (clear_run fuel l _ (MkMockFunction (untyped_on_call_specs_ o) (references o - 1)) s3)]; [|done| | |done].
  - cbn. destruct s3. cbn in *. by subst.
  - cbn. by rewrite lookup_insert_eq.
  - rewrite -Hrun. f_equal. unfold swapped, decremented, set_held, set_mocks. cbn. by rewrite insert_insert_eq.
Qed.

(** A counted pointer goes away without deadlock, whatever its object keeps alive. *)
Lemma release_drops fuel dying outside l s :
  counted dying (l :: outside) s → g_gmock_mutex s = false → (alive dying s < fuel)%nat →
  drops (release fuel l) dying outside s.
Proof.
  revert dying outside l s. induction fuel as [|fuel IH]; intros dying outside l s Hc Hm Hf; [lia|].
  destruct (counted_dom _ _ _ Hc l) as [o Ho]; [set_solver|].
  destruct (counted_head _ _ _ _ _ Hc Ho) as [Hr Hd]. destruct (decide (references o = 1%nat)) as [H1|H1].
  - pose proof (alive_swapped _ _ _ _ Ho Hd).
    destruct (drops_specs fuel ({[ l ]} ∪ dying) outside (untyped_on_call_specs_ o) (swapped l o s))
      as (s3 & Hrun & Hm3 & Hc3 & Hfr); [by auto|by apply counted_swapped|done|lia|].
    exists (set_mocks (delete l) s3). split_and!; [by eapply destructor_run|done|by apply counted_delete|].
    destruct Hfr as (ds & Hu & Hnd & Hds & Hk). exists (l :: ds). cbn in Hu, Hds, Hk.
    destruct (counted_dying _ _ _ Hc3 l) as (o3 & Ho3 & _); [set_solver|]. split_and!.
    + cbn. by rewrite Hu -app_assoc.
    + constructor; [|done]. intros [_ ?]%Hds. congruence.
    + intros k. cbn. rewrite elem_of_cons Hds lookup_delete_None lookup_insert_is_Some'. split.
      * intros [->|[[<-|?] ?]]; [split; [by eexists|by left]|congruence|auto].
      * intros [Hs [<-|Hn]]; auto.
    + intros k o'. cbn. rewrite lookup_delete_Some. intros [Hne Hk']. apply Hk in Hk' as (o'' & Ho'' & He).
      rewrite lookup_insert_ne // in Ho''. by exists o''.
  - exists (decremented l o s). split_and!; [|done|by eapply counted_decremented|].
    + cbn. unfold mock_of. rewrite bind_assoc. run_step. rewrite Ho bind_ret_l. run_step. by rewrite bool_decide_false.
    + exists []. cbn. rewrite app_nil_r. split_and!; [done|constructor| |].
      * intros k. rewrite elem_of_nil. split; [done|]. rewrite lookup_insert_None. intros [[? ?] [? _]]. congruence.
      * intros k o'. rewrite lookup_insert_Some. intros [[<- <-]|[_ ?]]; by [exists o|exists o'].
Qed.

(** C22. A counted pointer to a mock object goes away without deadlock, whatever mock objects
    its default actions keep alive, and those in turn: no destructor locks g_gmock_mutex
    while it is locked, each object whose last pointer is gone is unregistered once and
    freed, and the counts of the others stay exact. *)
Theorem mocks_die_without_deadlock fuel outside l s :
  counted ∅ (l :: outside) s → g_gmock_mutex s = false → (size (mocks s) < fuel)%nat →
  ∃ s', release fuel l s = (Done (), s') ∧ g_gmock_mutex s' = false ∧ counted ∅ outside s' ∧ freed s s'.
Proof.
  intros Hc Hm Hf. apply release_drops; [done..|]. unfold alive.
  by rewrite difference_empty_L size_dom.
Qed.
End destruction.

(** A mock object whose actions hold two pointers to a second one, which holds one to a
    third, and one that has a pointer of the test as well. *)
Definition ownership : state (W := unit) :=
  State {[ 1%positive := MkMockFunction [[2; 4]; [2]]%positive 1; 2%positive := MkMockFunction [[]; [3]]%positive 2;
           3%positive := MkMockFunction [] 1; 4%positive := MkMockFunction [] 2 ]} false [] ().

Lemma mocks_die_without_deadlock_witness :
  ∃ s', release (λ _ w, w) 5 1%positive ownership = (Done (), s') ∧ g_gmock_mutex s' = false ∧
    unregistered s' = [1; 2; 3]%positive ∧ mocks s' !! 4%positive = Some (MkMockFunction [] 1).
Proof.
  destruct (mocks_die_without_deadlock (λ _ w, w) 5 [4%positive] 1%positive ownership) as (s' & Hrun & Hm & _).
  - split.
    + intros l o. cbn [mocks ownership]. rewrite !lookup_insert_Some lookup_empty. naive_solver.
    + intros l o. cbn [mocks ownership]. rewrite !lookup_insert_Some lookup_empty. naive_solver lia.
    + set_solver.
    + apply (proj1 (Forall_forall (λ l, is_Some (mocks ownership !! l)) _)). vm_decide.
  - done.
  - vm_compute. lia.
  - exists s'. assert (release (λ _ w, w) 5 1%positive ownership = (Done (), s')) as Hrun' by done.
    vm_compute in Hrun'. injection Hrun' as <-. by split_and!.
Defined.
