(* ===== verification/StrictMocks.v ===== *)
(** NiceMock, NaggyMock and StrictMock
    (src/gtest/include/gmock/gmock-generated-nice-strict.h): mock objects that tell the
    library at their construction what an uninteresting call on them should do, and take
    it back at their destruction. *)

From S2P Require Import Prelude.
#[local] Open Scope Z_scope.

(** What happens at an uninteresting call (gmock-spec-builders.h). *)
Inductive CallReaction : Set := kAllow | kWarn | kFail.

#[export] Instance CallReaction_eq_dec : EqDecision CallReaction.
Proof. solve_decision. Defined.

Definition address : Type := Z.

(** The static functions of Mock that set and ask the reaction for a mock object, whose
    bodies are not in the headers, on the state of the program. *)
Record Mock (W : Type) : Type := MkMock {
  AllowUninterestingCalls : address → W → W;
  WarnUninterestingCalls : address → W → W;
  FailUninterestingCalls : address → W → W;
  UnregisterCallReaction : address → W → W;
  GetReactionOnUninterestingCalls : address → W → CallReaction;
}.
Arguments AllowUninterestingCalls {W} _ _ _.
Arguments WarnUninterestingCalls {W} _ _ _.
Arguments FailUninterestingCalls {W} _ _ _.
Arguments UnregisterCallReaction {W} _ _ _.
Arguments GetReactionOnUninterestingCalls {W} _ _ _.

(** The documented behaviour: a table of reactions, in which a mock object that has no
    entry is naggy. *)
Class MockLaws {W} (mock : Mock W) : Prop := {
  allowed p q w : GetReactionOnUninterestingCalls mock q (AllowUninterestingCalls mock p w) =
    if bool_decide (q = p) then kAllow else GetReactionOnUninterestingCalls mock q w;
  warned p q w : GetReactionOnUninterestingCalls mock q (WarnUninterestingCalls mock p w) =
    if bool_decide (q = p) then kWarn else GetReactionOnUninterestingCalls mock q w;
  failed p q w : GetReactionOnUninterestingCalls mock q (FailUninterestingCalls mock p w) =
    if bool_decide (q = p) then kFail else GetReactionOnUninterestingCalls mock q w;
  unregistered p q w : GetReactionOnUninterestingCalls mock q (UnregisterCallReaction mock p w) =
    if bool_decide (q = p) then kWarn else GetReactionOnUninterestingCalls mock q w;
}.

Section mocks.
Context {W : Type} (mock : Mock W).

(** The class that is mocked: its constructors, overloaded by the types of their
    arguments, its destructor, and where it lies in the derived object. *)
Context (MockClass_new : ∀ Ts : list Type, tuple Ts → address → cmd W unit).
Context (MockClass_delete : address → cmd W unit).
Context (upcast : address → address).

Definition NiceMock0 (this : address) : cmd W unit :=
  MockClass_new [] () (upcast this);;
  modify (AllowUninterestingCalls mock (upcast this)).
Definition NiceMock1 {A1 : Type} (a1 : A1) (this : address) : cmd W unit :=
  MockClass_new [A1] (a1, ()) (upcast this);;
  modify (AllowUninterestingCalls mock (upcast this)).
Definition NiceMock2 {A1 A2 : Type} (a1 : A1) (a2 : A2) (this : address) : cmd W unit :=
  MockClass_new [A1; A2] (a1, (a2, ())) (upcast this);;
  modify (AllowUninterestingCalls mock (upcast this)).
Definition NiceMock3 {A1 A2 A3 : Type} (a1 : A1) (a2 : A2) (a3 : A3) (this : address) : cmd W unit :=
  MockClass_new [A1; A2; A3] (a1, (a2, (a3, ()))) (upcast this);;
  modify (AllowUninterestingCalls mock (upcast this)).
Definition NiceMock4 {A1 A2 A3 A4 : Type} (a1 : A1) (a2 : A2) (a3 : A3) (a4 : A4) (this : address) : cmd W unit :=
  MockClass_new [A1; A2; A3; A4] (a1, (a2, (a3, (a4, ())))) (upcast this);;
  modify (AllowUninterestingCalls mock (upcast this)).
Definition NiceMock5 {A1 A2 A3 A4 A5 : Type} (a1 : A1) (a2 : A2) (a3 : A3) (a4 : A4) (a5 : A5)
    (this : address) : cmd W unit :=
  MockClass_new [A1; A2; A3; A4; A5] (a1, (a2, (a3, (a4, (a5, ()))))) (upcast this);;
  modify (AllowUninterestingCalls mock (upcast this)).
Definition NiceMock6 {A1 A2 A3 A4 A5 A6 : Type} (a1 : A1) (a2 : A2) (a3 : A3) (a4 : A4) (a5 : A5) (a6 : A6)
    (this : address) : cmd W unit :=
  MockClass_new [A1; A2; A3; A4; A5; A6] (a1, (a2, (a3, (a4, (a5, (a6, ())))))) (upcast this);;
  modify (AllowUninterestingCalls mock (upcast this)).
Definition NiceMock7 {A1 A2 A3 A4 A5 A6 A7 : Type} (a1 : A1) (a2 : A2) (a3 : A3) (a4 : A4) (a5 : A5) (a6 : A6)
    (a7 : A7) (this : address) : cmd W unit :=
  MockClass_new [A1; A2; A3; A4; A5; A6; A7] (a1, (a2, (a3, (a4, (a5, (a6, (a7, ()))))))) (upcast this);;
  modify (AllowUninterestingCalls mock (upcast this)).
Definition NiceMock8 {A1 A2 A3 A4 A5 A6 A7 A8 : Type} (a1 : A1) (a2 : A2) (a3 : A3) (a4 : A4) (a5 : A5) (a6 : A6)
    (a7 : A7) (a8 : A8) (this : address) : cmd W unit :=
  MockClass_new [A1; A2; A3; A4; A5; A6; A7; A8] (a1, (a2, (a3, (a4, (a5, (a6, (a7, (a8, ())))))))) (upcast this);;
  modify (AllowUninterestingCalls mock (upcast this)).
Definition NiceMock9 {A1 A2 A3 A4 A5 A6 A7 A8 A9 : Type} (a1 : A1) (a2 : A2) (a3 : A3) (a4 : A4) (a5 : A5) (a6 : A6)
    (a7 : A7) (a8 : A8) (a9 : A9) (this : address) : cmd W unit :=
  MockClass_new [A1; A2; A3; A4; A5; A6; A7; A8; A9]
    (a1, (a2, (a3, (a4, (a5, (a6, (a7, (a8, (a9, ()))))))))) (upcast this);;
  modify (AllowUninterestingCalls mock (upcast this)).
Definition NiceMock10 {A1 A2 A3 A4 A5 A6 A7 A8 A9 A10 : Type} (a1 : A1) (a2 : A2) (a3 : A3) (a4 : A4) (a5 : A5)
    (a6 : A6) (a7 : A7) (a8 : A8) (a9 : A9) (a10 : A10) (this : address) : cmd W unit :=
  MockClass_new [A1; A2; A3; A4; A5; A6; A7; A8; A9; A10]
    (a1, (a2, (a3, (a4, (a5, (a6, (a7, (a8, (a9, (a10, ())))))))))) (upcast this);;
  modify (AllowUninterestingCalls mock (upcast this)).
Definition delete_NiceMock (this : address) : cmd W unit :=
  modify (UnregisterCallReaction mock (upcast this));;
  MockClass_delete (upcast this).
Definition NaggyMock0 (this : address) : cmd W unit :=
  MockClass_new [] () (upcast this);;
  modify (WarnUninterestingCalls mock (upcast this)).
Definition NaggyMock1 {A1 : Type} (a1 : A1) (this : address) : cmd W unit :=
  MockClass_new [A1] (a1, ()) (upcast this);;
  modify (WarnUninterestingCalls mock (upcast this)).
Definition NaggyMock2 {A1 A2 : Type} (a1 : A1) (a2 : A2) (this : address) : cmd W unit :=
  MockClass_new [A1; A2] (a1, (a2, ())) (upcast this);;
  modify (WarnUninterestingCalls mock (upcast this)).
Definition NaggyMock3 {A1 A2 A3 : Type} (a1 : A1) (a2 : A2) (a3 : A3) (this : address) : cmd W unit :=
  MockClass_new [A1; A2; A3] (a1, (a2, (a3, ()))) (upcast this);;
  modify (WarnUninterestingCalls mock (upcast this)).
Definition NaggyMock4 {A1 A2 A3 A4 : Type} (a1 : A1) (a2 : A2) (a3 : A3) (a4 : A4) (this : address) : cmd W unit :=
  MockClass_new [A1; A2; A3; A4] (a1, (a2, (a3, (a4, ())))) (upcast this);;
  modify (WarnUninterestingCalls mock (upcast this)).
Definition NaggyMock5 {A1 A2 A3 A4 A5 : Type} (a1 : A1) (a2 : A2) (a3 : A3) (a4 : A4) (a5 : A5)
    (this : address) : cmd W unit :=
  MockClass_new [A1; A2; A3; A4; A5] (a1, (a2, (a3, (a4, (a5, ()))))) (upcast this);;
  modify (WarnUninterestingCalls mock (upcast this)).
Definition NaggyMock6 {A1 A2 A3 A4 A5 A6 : Type} (a1 : A1) (a2 : A2) (a3 : A3) (a4 : A4) (a5 : A5) (a6 : A6)
    (this : address) : cmd W unit :=
  MockClass_new [A1; A2; A3; A4; A5; A6] (a1, (a2, (a3, (a4, (a5, (a6, ())))))) (upcast this);;
  modify (WarnUninterestingCalls mock (upcast this)).
Definition NaggyMock7 {A1 A2 A3 A4 A5 A6 A7 : Type} (a1 : A1) (a2 : A2) (a3 : A3) (a4 : A4) (a5 : A5) (a6 : A6)
    (a7 : A7) (this : address) : cmd W unit :=
  MockClass_new [A1; A2; A3; A4; A5; A6; A7] (a1, (a2, (a3, (a4, (a5, (a6, (a7, ()))))))) (upcast this);;
  modify (WarnUninterestingCalls mock (upcast this)).
Definition NaggyMock8 {A1 A2 A3 A4 A5 A6 A7 A8 : Type} (a1 : A1) (a2 : A2) (a3 : A3) (a4 : A4) (a5 : A5) (a6 : A6)
    (a7 : A7) (a8 : A8) (this : address) : cmd W unit :=
  MockClass_new [A1; A2; A3; A4; A5; A6; A7; A8] (a1, (a2, (a3, (a4, (a5, (a6, (a7, (a8, ())))))))) (upcast this);;
  modify (WarnUninterestingCalls mock (upcast this)).
Definition NaggyMock9 {A1 A2 A3 A4 A5 A6 A7 A8 A9 : Type} (a1 : A1) (a2 : A2) (a3 : A3) (a4 : A4) (a5 : A5)
    (a6 : A6) (a7 : A7) (a8 : A8) (a9 : A9) (this : address) : cmd W unit :=
  MockClass_new [A1; A2; A3; A4; A5; A6; A7; A8; A9]
    (a1, (a2, (a3, (a4, (a5, (a6, (a7, (a8, (a9, ()))))))))) (upcast this);;
  modify (WarnUninterestingCalls mock (upcast this)).
Definition NaggyMock10 {A1 A2 A3 A4 A5 A6 A7 A8 A9 A10 : Type} (a1 : A1) (a2 : A2) (a3 : A3) (a4 : A4) (a5 : A5)
    (a6 : A6) (a7 : A7) (a8 : A8) (a9 : A9) (a10 : A10) (this : address) : cmd W unit :=
  MockClass_new [A1; A2; A3; A4; A5; A6; A7; A8; A9; A10]
    (a1, (a2, (a3, (a4, (a5, (a6, (a7, (a8, (a9, (a10, ())))))))))) (upcast this);;
  modify (WarnUninterestingCalls mock (upcast this)).
Definition delete_NaggyMock (this : address) : cmd W unit :=
  modify (UnregisterCallReaction mock (upcast this));;
  MockClass_delete (upcast this).
Definition StrictMock0 (this : address) : cmd W unit :=
  MockClass_new [] () (upcast this);;
  modify (FailUninterestingCalls mock (upcast this)).
Definition StrictMock1 {A1 : Type} (a1 : A1) (this : address) : cmd W unit :=
  MockClass_new [A1] (a1, ()) (upcast this);;
  modify (FailUninterestingCalls mock (upcast this)).
Definition StrictMock2 {A1 A2 : Type} (a1 : A1) (a2 : A2) (this : address) : cmd W unit :=
  MockClass_new [A1; A2] (a1, (a2, ())) (upcast this);;
  modify (FailUninterestingCalls mock (upcast this)).
Definition StrictMock3 {A1 A2 A3 : Type} (a1 : A1) (a2 : A2) (a3 : A3) (this : address) : cmd W unit :=
  MockClass_new [A1; A2; A3] (a1, (a2, (a3, ()))) (upcast this);;
  modify (FailUninterestingCalls mock (upcast this)).
Definition StrictMock4 {A1 A2 A3 A4 : Type} (a1 : A1) (a2 : A2) (a3 : A3) (a4 : A4) (this : address) : cmd W unit :=
  MockClass_new [A1; A2; A3; A4] (a1, (a2, (a3, (a4, ())))) (upcast this);;
  modify (FailUninterestingCalls mock (upcast this)).
Definition StrictMock5 {A1 A2 A3 A4 A5 : Type} (a1 : A1) (a2 : A2) (a3 : A3) (a4 : A4) (a5 : A5)
    (this : address) : cmd W unit :=
  MockClass_new [A1; A2; A3; A4; A5] (a1, (a2, (a3, (a4, (a5, ()))))) (upcast this);;
  modify (FailUninterestingCalls mock (upcast this)).
Definition StrictMock6 {A1 A2 A3 A4 A5 A6 : Type} (a1 : A1) (a2 : A2) (a3 : A3) (a4 : A4) (a5 : A5) (a6 : A6)
    (this : address) : cmd W unit :=
  MockClass_new [A1; A2; A3; A4; A5; A6] (a1, (a2, (a3, (a4, (a5, (a6, ())))))) (upcast this);;
  modify (FailUninterestingCalls mock (upcast this)).
Definition StrictMock7 {A1 A2 A3 A4 A5 A6 A7 : Type} (a1 : A1) (a2 : A2) (a3 : A3) (a4 : A4) (a5 : A5) (a6 : A6)
    (a7 : A7) (this : address) : cmd W unit :=
  MockClass_new [A1; A2; A3; A4; A5; A6; A7] (a1, (a2, (a3, (a4, (a5, (a6, (a7, ()))))))) (upcast this);;
  modify (FailUninterestingCalls mock (upcast this)).
Definition StrictMock8 {A1 A2 A3 A4 A5 A6 A7 A8 : Type} (a1 : A1) (a2 : A2) (a3 : A3) (a4 : A4) (a5 : A5) (a6 : A6)
    (a7 : A7) (a8 : A8) (this : address) : cmd W unit :=
  MockClass_new [A1; A2; A3; A4; A5; A6; A7; A8] (a1, (a2, (a3, (a4, (a5, (a6, (a7, (a8, ())))))))) (upcast this);;
  modify (FailUninterestingCalls mock (upcast this)).
Definition StrictMock9 {A1 A2 A3 A4 A5 A6 A7 A8 A9 : Type} (a1 : A1) (a2 : A2) (a3 : A3) (a4 : A4) (a5 : A5)
    (a6 : A6) (a7 : A7) (a8 : A8) (a9 : A9) (this : address) : cmd W unit :=
  MockClass_new [A1; A2; A3; A4; A5; A6; A7; A8; A9]
    (a1, (a2, (a3, (a4, (a5, (a6, (a7, (a8, (a9, ()))))))))) (upcast this);;
  modify (FailUninterestingCalls mock (upcast this)).
Definition StrictMock10 {A1 A2 A3 A4 A5 A6 A7 A8 A9 A10 : Type} (a1 : A1) (a2 : A2) (a3 : A3) (a4 : A4) (a5 : A5)
    (a6 : A6) (a7 : A7) (a8 : A8) (a9 : A9) (a10 : A10) (this : address) : cmd W unit :=
  MockClass_new [A1; A2; A3; A4; A5; A6; A7; A8; A9; A10]
    (a1, (a2, (a3, (a4, (a5, (a6, (a7, (a8, (a9, (a10, ())))))))))) (upcast this);;
  modify (FailUninterestingCalls mock (upcast this)).
Definition delete_StrictMock (this : address) : cmd W unit :=
  modify (UnregisterCallReaction mock (upcast this));;
  MockClass_delete (upcast this).

(** * All constructors alike *)

Inductive strictness : Set := Nice | Naggy | Strict.

Definition set_reaction (k : strictness) : address → W → W :=
  match k with
  | Nice => AllowUninterestingCalls mock
  | Naggy => WarnUninterestingCalls mock
  | Strict => FailUninterestingCalls mock
  end.

Definition make (k : strictness) {Ts : list Type} (args : tuple Ts) (this : address) : cmd W unit :=
  MockClass_new Ts args (upcast this);;
  modify (set_reaction k (upcast this)).

Lemma nice_constructors (A1 A2 A3 A4 A5 A6 A7 A8 A9 A10 : Type) :
  curry_tuple [] (make Nice) = NiceMock0 ∧
  curry_tuple [A1 : Type] (make Nice) = @NiceMock1 A1 ∧
  curry_tuple [A1 : Type; A2] (make Nice) = @NiceMock2 A1 A2 ∧
  curry_tuple [A1 : Type; A2; A3] (make Nice) = @NiceMock3 A1 A2 A3 ∧
  curry_tuple [A1 : Type; A2; A3; A4] (make Nice) = @NiceMock4 A1 A2 A3 A4 ∧
  curry_tuple [A1 : Type; A2; A3; A4; A5] (make Nice) = @NiceMock5 A1 A2 A3 A4 A5 ∧
  curry_tuple [A1 : Type; A2; A3; A4; A5; A6] (make Nice) = @NiceMock6 A1 A2 A3 A4 A5 A6 ∧
  curry_tuple [A1 : Type; A2; A3; A4; A5; A6; A7] (make Nice) = @NiceMock7 A1 A2 A3 A4 A5 A6 A7 ∧
  curry_tuple [A1 : Type; A2; A3; A4; A5; A6; A7; A8] (make Nice) = @NiceMock8 A1 A2 A3 A4 A5 A6 A7 A8 ∧
  curry_tuple [A1 : Type; A2; A3; A4; A5; A6; A7; A8; A9] (make Nice) = @NiceMock9 A1 A2 A3 A4 A5 A6 A7 A8 A9 ∧
  curry_tuple [A1 : Type; A2; A3; A4; A5; A6; A7; A8; A9; A10] (make Nice) = @NiceMock10 A1 A2 A3 A4 A5 A6 A7 A8 A9 A10.
Proof. by split_and!. Qed.

Lemma naggy_constructors (A1 A2 A3 A4 A5 A6 A7 A8 A9 A10 : Type) :
  curry_tuple [] (make Naggy) = NaggyMock0 ∧
  curry_tuple [A1 : Type] (make Naggy) = @NaggyMock1 A1 ∧
  curry_tuple [A1 : Type; A2] (make Naggy) = @NaggyMock2 A1 A2 ∧
  curry_tuple [A1 : Type; A2; A3] (make Naggy) = @NaggyMock3 A1 A2 A3 ∧
  curry_tuple [A1 : Type; A2; A3; A4] (make Naggy) = @NaggyMock4 A1 A2 A3 A4 ∧
  curry_tuple [A1 : Type; A2; A3; A4; A5] (make Naggy) = @NaggyMock5 A1 A2 A3 A4 A5 ∧
  curry_tuple [A1 : Type; A2; A3; A4; A5; A6] (make Naggy) = @NaggyMock6 A1 A2 A3 A4 A5 A6 ∧
  curry_tuple [A1 : Type; A2; A3; A4; A5; A6; A7] (make Naggy) = @NaggyMock7 A1 A2 A3 A4 A5 A6 A7 ∧
  curry_tuple [A1 : Type; A2; A3; A4; A5; A6; A7; A8] (make Naggy) = @NaggyMock8 A1 A2 A3 A4 A5 A6 A7 A8 ∧
  curry_tuple [A1 : Type; A2; A3; A4; A5; A6; A7; A8; A9] (make Naggy) = @NaggyMock9 A1 A2 A3 A4 A5 A6 A7 A8 A9 ∧
  curry_tuple [A1 : Type; A2; A3; A4; A5; A6; A7; A8; A9; A10] (make Naggy) = @NaggyMock10 A1 A2 A3 A4 A5 A6 A7 A8 A9 A10.
Proof. by split_and!. Qed.

Lemma strict_constructors (A1 A2 A3 A4 A5 A6 A7 A8 A9 A10 : Type) :
  curry_tuple [] (make Strict) = StrictMock0 ∧
  curry_tuple [A1 : Type] (make Strict) = @StrictMock1 A1 ∧
  curry_tuple [A1 : Type; A2] (make Strict) = @StrictMock2 A1 A2 ∧
  curry_tuple [A1 : Type; A2; A3] (make Strict) = @StrictMock3 A1 A2 A3 ∧
  curry_tuple [A1 : Type; A2; A3; A4] (make Strict) = @StrictMock4 A1 A2 A3 A4 ∧
  curry_tuple [A1 : Type; A2; A3; A4; A5] (make Strict) = @StrictMock5 A1 A2 A3 A4 A5 ∧
  curry_tuple [A1 : Type; A2; A3; A4; A5; A6] (make Strict) = @StrictMock6 A1 A2 A3 A4 A5 A6 ∧
  curry_tuple [A1 : Type; A2; A3; A4; A5; A6; A7] (make Strict) = @StrictMock7 A1 A2 A3 A4 A5 A6 A7 ∧
  curry_tuple [A1 : Type; A2; A3; A4; A5; A6; A7; A8] (make Strict) = @StrictMock8 A1 A2 A3 A4 A5 A6 A7 A8 ∧
  curry_tuple [A1 : Type; A2; A3; A4; A5; A6; A7; A8; A9] (make Strict) = @StrictMock9 A1 A2 A3 A4 A5 A6 A7 A8 A9 ∧
  curry_tuple [A1 : Type; A2; A3; A4; A5; A6; A7; A8; A9; A10] (make Strict) = @StrictMock10 A1 A2 A3 A4 A5 A6 A7 A8 A9 A10.
Proof. by split_and!. Qed.

Definition destroy (k : strictness) (this : address) : cmd W unit :=
  match k with Nice => delete_NiceMock this | Naggy => delete_NaggyMock this | Strict => delete_StrictMock this end.

(** * Strictness of each object *)

Implicit Types (p q this : address) (w : W).

(** What a program does with its mock objects: it makes one, with any constructor, and
    destroys one. *)
Inductive life : Type :=
  | Make (k : strictness) (Ts : list Type) (args : tuple Ts) (this : address)
  | Destroy (k : strictness) (this : address).

Fixpoint live (ls : list life) : cmd W unit :=
  match ls with
  | [] => mret ()
  | Make k Ts args this :: ls => make k args this;; live ls
  | Destroy k this :: ls => destroy k this;; live ls
  end.

Definition reaction_of (k : strictness) : CallReaction :=
  match k with Nice => kAllow | Naggy => kWarn | Strict => kFail end.

(** The reactions of the objects that are alive. *)
Fixpoint reactions (ls : list life) (m : gmap address CallReaction) : gmap address CallReaction :=
  match ls with
  | [] => m
  | Make k _ _ this :: ls => reactions ls (<[upcast this := reaction_of k]> m)
  | Destroy _ this :: ls => reactions ls (delete (upcast this) m)
  end.

(** A command that ends and changes no reaction. *)
Definition keeps_reactions (c : cmd W unit) : Prop :=
  ∀ w, ∃ w', c w = (Done (), w') ∧
    ∀ p, GetReactionOnUninterestingCalls mock p w' = GetReactionOnUninterestingCalls mock p w.

(** The table of the library holds the reactions [m]. *)
Definition table w (m : gmap address CallReaction) : Prop :=
  ∀ p, GetReactionOnUninterestingCalls mock p w = default kWarn (m !! p).

Context `{!MockLaws mock}.
Context (new_keeps : ∀ Ts (args : tuple Ts) p, keeps_reactions (MockClass_new Ts args p)).
Context (delete_keeps : ∀ p, keeps_reactions (MockClass_delete p)).

Lemma set_reaction_table k p w m : table w m → table (set_reaction k p w) (<[p := reaction_of k]> m).
Proof.
  intros Hm q. rewrite lookup_insert. destruct k; cbn; rewrite ?allowed ?warned ?failed;
    case_bool_decide; case_decide; congruence || by rewrite ?Hm.
Qed.

Lemma unregister_table p w m : table w m → table (UnregisterCallReaction mock p w) (delete p m).
Proof.
  intros Hm q. rewrite unregistered lookup_delete. case_bool_decide; case_decide; congruence || by rewrite ?Hm.
Qed.

Lemma make_table k Ts (args : tuple Ts) this w m :
  table w m → ∃ w', make k args this w = (Done (), w') ∧ table w' (<[upcast this := reaction_of k]> m).
Proof.
  intros Hm. destruct (new_keeps Ts args (upcast this) w) as (w1 & Hrun & Hk).
  exists (set_reaction k (upcast this) w1). split; [by unfold make; rewrite (bind_done _ _ _ _ _ Hrun)|].
  apply set_reaction_table. intros p. by rewrite Hk.
Qed.

(** The destructor of the mocked class runs when the reaction is taken back. *)
Lemma destroy_run k this w : destroy k this w = MockClass_delete (upcast this) (UnregisterCallReaction mock (upcast this) w).
Proof. by destruct k. Qed.

Lemma destroy_table k this w m :
  table w m → ∃ w', destroy k this w = (Done (), w') ∧ table w' (delete (upcast this) m).
Proof.
  intros Hm. rewrite destroy_run.
  destruct (delete_keeps (upcast this) (UnregisterCallReaction mock (upcast this) w)) as (w1 & Hrun & Hk).
  exists w1. split; [done|]. intros p. rewrite Hk. by apply unregister_table.
Qed.

Lemma live_table ls w m : table w m → ∃ w', live ls w = (Done (), w') ∧ table w' (reactions ls m).
Proof.
  revert w m. induction ls as [|[k Ts args this|k this] ls IH]; intros w m Hm; [by exists w|..].
  - destruct (make_table k Ts args this w m Hm) as (w1 & Hrun & Hm1). destruct (IH _ _ Hm1) as (w2 & Hrun2 & Hm2).
    exists w2. split; [|done]. cbn. by rewrite (bind_done _ _ _ _ _ Hrun).
  - destruct (destroy_table k this w m Hm) as (w1 & Hrun & Hm1). destruct (IH _ _ Hm1) as (w2 & Hrun2 & Hm2).
    exists w2. split; [|done]. cbn. by rewrite (bind_done _ _ _ _ _ Hrun).
Qed.

(** Strictness belongs to each mock object while it is alive, however many are made and
    destroyed, with any of the constructors: an uninteresting call on one is allowed,
    warned about or a failure as its last constructor says, and a warning for every other
    object. The destructor of the mocked class already runs as that of a naggy mock. *)
Theorem strictness_per_object ls w :
  (∀ p, GetReactionOnUninterestingCalls mock p w = kWarn) →
  ∃ w', live ls w = (Done (), w') ∧
    (∀ p, GetReactionOnUninterestingCalls mock p w' = default kWarn (reactions ls ∅ !! p)) ∧
    ∀ k this, ∃ w1, destroy k this w' = MockClass_delete (upcast this) w1 ∧
      GetReactionOnUninterestingCalls mock (upcast this) w1 = kWarn.
Proof.
  intros Hw. destruct (live_table ls w ∅) as (w' & Hrun & Hm); [intros p; by rewrite lookup_empty Hw|].
  exists w'. split_and!; [done..|]. intros k this. exists (UnregisterCallReaction mock (upcast this) w').
  split; [apply destroy_run|]. by rewrite unregistered bool_decide_true.
Qed.
End mocks.

(** The table as a finite map. *)
Definition table_mock : Mock (gmap address CallReaction) := {|
  AllowUninterestingCalls p := <[p := kAllow]>;
  WarnUninterestingCalls p := <[p := kWarn]>;
  FailUninterestingCalls p := <[p := kFail]>;
  UnregisterCallReaction p := delete p;
  GetReactionOnUninterestingCalls p w := default kWarn (w !! p);
|}.

#[local] Instance table_mock_laws : MockLaws table_mock.
Proof.
  split; cbn; intros p q w; rewrite ?lookup_insert ?lookup_delete; case_bool_decide; case_decide; congruence || done.
Qed.

(** Two mocks, one of which is destroyed and made again. *)
Definition two_mocks : list life :=
  [Make Nice [Z : Type] (3, ()) 8; Make Strict [] () 16; Destroy Nice 8; Make Naggy [Z : Type; bool : Type] (4, (true, ())) 24].

Lemma strictness_per_object_witness :
  ∃ w', live table_mock (λ _ _ _, mret ()) (λ _, mret ()) id two_mocks ∅ = (Done (), w') ∧
    GetReactionOnUninterestingCalls table_mock 16 w' = kFail ∧ GetReactionOnUninterestingCalls table_mock 8 w' = kWarn.
Proof.
  destruct (strictness_per_object table_mock (λ _ _ _, mret ()) (λ _, mret ()) id (λ _ _ _ w, ex_intro _ w (conj eq_refl (λ _, eq_refl)))
    (λ _ w, ex_intro _ w (conj eq_refl (λ _, eq_refl))) two_mocks ∅
    (λ p, f_equal (default kWarn) (lookup_empty p))) as (w' & Hrun & Hm & _).
  exists w'. split; [exact Hrun|]. split; [exact (Hm 16)|exact (Hm 8)].
Defined.
